(* ===== verification/_CoqProject ===== *)
-Q . S2P
Prelude.v
Params.v
Mem.v
State.v
Spinlock.v
Smp.v
Console.v
Kalloc.v
Vm.v
VmTables.v
VmSpace.v
VmAlloc.v
VmCopy.v
Proc.v
ProcSpec.v
SleepWake.v
Ide.v
Bio.v
BioRing.v
BioSpec.v
BioProps.v
Log.v
LogSpec.v
LogOps.v
LogCrash.v
Umem.v
UmemSpec.v
Fs.v
FsSpec.v
FsLock.v
FsDir.v
FsTable.v
FsName.v
FsAlloc.v
FsWrite.v
FsLink.v
Mkfs.v
MkfsSpec.v
MkfsFiles.v
MkfsProps.v
MkfsBoot.v
ConsoleIn.v
Kbd.v
Pipe.v
PipeSpec.v
FileWrite.v
Syscall.v
Exec.v
Bootmain.v
Trap.v
Init.v
Machine.v
Clock.v
Mp.v
Main.v
MainSpec.v
MainBoot.v
Ulib.v
Grep.v
Progs.v
ProgsSpec.v
Sh.v
ShSpec.v
ShPrint.v
ShRun.v
Umalloc.v
UmallocSpec.v
