(* ===== verification/Prelude.v ===== *)
(** Verification of an xv6 kernel for the x86 (src/), with the lazy page allocator and the
    frame counter that a course project added to it.

    * The program

    The kernel runs processes in address spaces of their own, on several processors, over a
    file system with a write-ahead log.  From the bottom up: kalloc.c gives out pages;
    vm.c builds page tables from them; proc.c keeps the process table, switches between
    processes and puts them to sleep and wakes them up; ide.c and memide.c move blocks to and from the disk,
    bio.c caches them, log.c makes groups of block writes atomic, fs.c has
    inodes, directories and paths on top; file.c and pipe.c are open files and pipes;
    console.c and kbd.c talk to the user; syscall.c, sysproc.c, sysfile.c, exec.c and trap.c are
    the way in for user programs.  spinlock.c is used by all of them.  Around the kernel there are
    bootmain.c, which loads it, main.c with mp.c, lapic.c, ioapic.c, picirq.c and timer.c, which set the
    machine up, mkfs.c, which makes the disk, the library of user programs, and the user programs.

    * The model

    The kernel is a shallow embedding.  State.v has one record [kernel] with the variables
    of all source files and a setter for each field; a pointer into a table of the kernel
    is an index, a pointer to memory is an address, and memory is a function from addresses to bytes (Mem.v),
    so page tables, the free list and kernel stacks are bytes as in the source.
    Integers are [Z] with the wrap-around of their width written out ([u32], [s32], ...).

    A function of the kernel is a program of the monad [M kernel] below.  It ends with a result
    ([Done]), stops the machine ([Panic]), waits for something that never happens ([Blocked]), or
    runs out of the bound of a loop ([NoFuel]).  It also takes an [env]: what the rest of the
    system does each time the running process is off the processor ([swtch] in proc.c,
    or spinning in [acquire]).  Theorems about waiting functions quantify over it, which
    covers all behaviours of the other processes.  [wp m Q e s] says that [m] returns, without
    panic and within its bounds, with [Q]; [wpb] also allows it to wait.

    Code outside of src/ is a parameter: the addresses of the linker and the assembly
    entry points ([Symbols], with [SymbolsOk] for what is known of them), the disk driver
    that the upper layers call ([Driver]; [SyncDriver] is the promise that a request is served,
    which memide.c keeps) and the device switch ([DevSw]).  Devices that the setup of the machine
    programs answer as a parameter says ([Hardware]), as a function of everything that was sent to
    them before; the state there is the kernel together with this trace ([machine], Machine.v).

    * The files

    - Prelude, Params, Mem, State: integers, the monad, constants of the headers, string.c, the state.
    - Spinlock: spinlock.c as one processor runs it.  Smp: the same code one instruction at a
      time on any number of processors with interrupts; no two processors are in the
      critical section, nothing panics, and the instructions compute what Spinlock says.
    - Console, ConsoleIn, Kbd: console.c, kbd.c, and uart.c's output.
    - Kalloc: kalloc.c; the free list has every free page once and the counter is its length.
    - Vm: vm.c.  VmTables gives page tables their meaning as functions from addresses to
      entries, with [mappages]; VmSpace has address spaces, [setupkvm], [deallocuvm] and [freevm];
      VmAlloc has [allocuvm]; VmCopy has [copyuvm] and [copyout].
    - Proc: proc.c.  ProcSpec: the table refines an abstract one whose slots are free or hold a
      process.  SleepWake: [sleep] and [wakeup] as sequences of operations that any number of
      processes run in any interleaving; no wakeup is lost and nobody is stuck.
    - Ide, Bio, Log: ide.c and memide.c, bio.c, log.c.  BioRing has the doubly linked ring of
      buffers, BioSpec the invariant [cache] of the buffer cache and its operations, BioProps
      the theorems for its users; LogSpec shows which block writes a commit makes, LogOps
      has [begin_op] and [log_write], LogCrash the crash safety of commit and recovery, and [end_op].
    - Umem: how the kernel reads and writes user memory, page faults included.  UmemSpec:
      lazy allocation is transparent to both.
    - Fs: fs.c.  FsSpec: inodes on disk, [readi], paths.  FsAlloc: the bitmap and [balloc].  FsLock,
      FsDir, FsTable, FsName: [ilock], [dirlookup] and the table of inodes up to [namei], which
      implements the walk over the directories of the disk.  FsWrite: [bmap] with allocation and
      [writei], which changes the bytes it is asked to and nothing else, and how much of the log
      it takes.  FsLink: [dirlink], after which [dirlookup] finds the name.
    - Mkfs: mkfs.c.  MkfsSpec and MkfsFiles: what the appends write.  MkfsProps: the image has all
      files.  MkfsBoot: the kernel finds and reads them.
    - Pipe: pipe.c and file.c.  PipeSpec: a pipe is a queue under any interleaving.  FileWrite:
      [filewrite], from the memory of a process through [writei] and the commits of its pieces to the disk.
    - Syscall, Exec, Trap: syscall.c, sysfile.c, sysproc.c, exec.c, trap.c, and the functions of
      proc.c that use files.
    - Bootmain: bootmain.c; it loads the kernel from the disk to its place in memory.
    - Init: [userinit]; the first process is ready to run its code.
    - Machine: the devices, and picirq.c, ioapic.c, lapic.c, timer.c, uart.c, [seginit], [tvinit].
      Clock: [cmostime] reads the clock while it runs, although its registers show anything during an
      update.  Mp: mp.c; [mpinit] finds the tables of the BIOS where the MultiProcessor
      Specification says, and the processors in them.
    - Main: main.c.  MainSpec: what each step of the setup tells the devices.  MainBoot: the whole of
      [main], from the state that the boot loader leaves to the first process on a machine with
      any number of processors.
    - Sh: the parser of sh.c.  ShSpec: it ends and its words are well formed.  ShPrint: parsing the text of
      a command gives the command.  ShRun: running a command connects its programs as it says.
    - Ulib: the string functions of ulib.c and printf.c.  Umalloc: umalloc.c, the ring of free
      blocks in order of address that [free] and [malloc] keep.  UmallocSpec: whatever a program
      allocates, frees and writes, its blocks do not overlap and keep their contents.
    - Grep: the matcher and the loop of grep.c.  Progs: the small user programs as sequences of
      system calls, which are a parameter ([Sys]).  ProgsSpec: what cat and wc print, against the
      interface [Streams] of files and output.

    * Bounds

    Loops over a table or a range are folds over it.  The others carry a bound computed from
    the state, which the theorems about them show to be enough: the pages of a range
    ([mappages], [allocuvm], [deallocuvm], [copyuvm]), the blocks of a transfer ([readi], [writei]), the blocks
    of the bitmap ([balloc]), the elements of a path ([namex]), the entries of a directory
    ([dirlookup]), the NBUF buffers of the ring ([ring_find]).  A loop that sleeps is bounded by
    the length of the environment, since each round uses one step of it.  The walks of malloc
    and free take a bound from outside; twice the number of requests so far is enough.  The parser of the shell
    has four calls for each character of the line.  A loop that polls a device has the bound
    [patience], which a theorem assumes to be as large as the device is slow; the loops of the user
    programs have [rounds], more than the pieces a file is read in.

    * What is not modelled

    Assembly (bootasm.S, entry.S, swtch.S, trapasm.S, vectors.S, ...): the C code relies on
    addresses in it, which are parameters, and on [swtch], which is the point where others run.  The user
    programs usertests.c, proj3_test.c and proj3_shm.c, which test the system calls from above.  The
    behaviour of a processor that [startothers] starts is an argument of the theorem on [main]; the
    hypothesis [ap_up] says what it may touch, and that it comes up if it has been called ([ap_called]: the
    interrupts that start it were sent, and the code and the words it begins with are in place);
    [ap_run_up] shows this of [mpenter].  Inside ide.c
    the port protocol of one transfer is a step.  Caches, the TLB and the memory order of the
    processors are not modelled: memory is sequentially consistent.

    * Next

    The system calls that change directories, on top of [dirlink]; several writes at a time; [fork],
    [exit] and [wait] against the abstract process table. *)

From Stdlib Require Export Ascii Lia ZifyBool.
From stdpp Require Export prelude gmap strings numbers list.

#[global] Open Scope Z_scope.

(** * Machine integers *)

(** [uint]: 32-bit unsigned arithmetic wraps around. *)
Definition u32 (x : Z) : Z := x mod 4294967296.

(** [int]: the two's complement reading of a 32-bit pattern. *)
Definition s32 (x : Z) : Z := (x + 2147483648) mod 4294967296 - 2147483648.

(** [ushort], [short] and [uchar]. *)
Definition u16 (x : Z) : Z := x mod 65536.
Definition s16 (x : Z) : Z := (x + 32768) mod 65536 - 32768.
Definition u8 (x : Z) : Z := x mod 256.

(** A C condition: any non-zero value is true. *)
Definition cbool (x : Z) : bool := negb (x =? 0).

(** Character constants and string literals as lists of character codes,
    without the terminating NUL. *)
Definition chr (a : Ascii.ascii) : Z := Z.of_N (Ascii.N_of_ascii a).
Arguments chr a%_char_scope.

Fixpoint str (s : string) : list Z :=
  match s with
  | EmptyString => []
  | String a s' => chr a :: str s'
  end.

(** The newline at the end of a message. *)
Definition nl : string := String "010" "".

(** * The kernel monad

    A kernel function is a state transformer that may stop the machine
    ([Panic]), wait for something nobody provides ([Blocked]) or, for the
    loops that carry an explicit bound, exhaust the bound ([NoFuel]).

    [env S] is the list of what the rest of the system does while the running
    thread is off the processor or spins on a lock: the n-th element is the
    effect of the others during the n-th such interval.  A theorem that
    quantifies over the list quantifies over all schedules. *)
Definition env (S : Type) : Type := list (S -> S).

Inductive outcome (S A : Type) : Type :=
| Done (a : A) (e : env S) (s : S)
| Panic (msg : string) (s : S)
| Blocked (s : S)
| NoFuel.

Arguments Done {S A} a e s.
Arguments Panic {S A} msg s.
Arguments Blocked {S A} s.
Arguments NoFuel {S A}.

Definition M (S A : Type) : Type := env S -> S -> outcome S A.

#[export] Instance M_ret {S} : MRet (M S) := fun A a e s => Done a e s.

#[export] Instance M_bind {S} : MBind (M S) :=
  fun A B f m e s =>
    match m e s with
    | Done a e' s' => f a e' s'
    | Panic msg s' => Panic msg s'
    | Blocked s' => Blocked s'
    | NoFuel => NoFuel
    end.

Definition get {S A} (f : S -> A) : M S A := fun e s => Done (f s) e s.
Definition modify {S} (f : S -> S) : M S unit := fun e s => Done tt e (f s).
Definition panic {S A} (msg : string) : M S A := fun e s => Panic msg s.
Definition when {S} (b : bool) (m : M S unit) : M S unit := if b then m else mret tt.

(** [for(x in l) body]: the body returns [Some r] to leave the loop. *)
Fixpoint for_each {S X R} (l : list X) (body : X -> M S (option R)) : M S (option R) :=
  match l with
  | [] => mret None
  | x :: l' =>
      r ← body x;
      match r with
      | None => for_each l' body
      | Some r => mret (Some r)
      end
  end.

(** A loop with its locals [st]: [inl] goes round again, [inr] leaves. *)
Fixpoint loop {S X R} (fuel : nat) (body : X -> M S (X + R)) (st : X) : M S R :=
  match fuel with
  | O => fun _ _ => NoFuel
  | Datatypes.S fuel' =>
      r ← body st;
      match r with
      | inl st' => loop fuel' body st'
      | inr r => mret r
      end
  end.

(** More fuel does not change a result. *)
Lemma loop_mono {S X R} fuel k (body : X -> M S (X + R)) st e s r :
  loop fuel body st e s = r -> r <> NoFuel -> loop (fuel + k) body st e s = r.
Proof.
  revert st e s. induction fuel as [|fuel IH]; intros st e s Hl Hr; [by subst r|]. simpl in *. unfold mbind, M_bind in *.
  destruct (body st e s) as [[st'|x] e' s'| | |]; [by apply IH|done..].
Qed.

(** [for(x in l) acc = body]: a loop over a list with an accumulator. *)
Fixpoint for_fold {S X A} (l : list X) (body : X -> A -> M S A) (acc : A) : M S A :=
  match l with
  | [] => mret acc
  | x :: l' => acc' ← body x acc; for_fold l' body acc'
  end.

(** A loop each round of which lets the others run at least once: the number of
    rounds is bounded by what the environment has left. *)
Definition loop_env {S X R} (body : X -> M S (X + R)) (st : X) : M S R :=
  fun e s => loop (Datatypes.S (length e)) body st e s.

(** Let the rest of the system run; with nothing left to run, wait for ever. *)
Definition others {S} : M S unit :=
  fun e s => match e with [] => Blocked s | f :: e' => Done tt e' (f s) end.

(** * Weakest preconditions

    Total correctness: [wp m Q e s] says that [m] returns, without a panic,
    in a state that satisfies [Q]. *)
Definition wp {S A} (m : M S A) (Q : A -> env S -> S -> Prop) (e : env S) (s : S) : Prop :=
  match m e s with
  | Done a e' s' => Q a e' s'
  | _ => False
  end.

Section wp.
Context {S : Type}.
Implicit Types (e : env S) (s : S).

Lemma bind_Done {A B} (m : M S A) (f : A -> M S B) e s a e' s' :
  m e s = Done a e' s' -> (m ≫= f) e s = f a e' s'.
Proof. unfold mbind, M_bind. by intros ->. Qed.

Lemma bind_Panic {A B} (m : M S A) (f : A -> M S B) e s msg s' :
  m e s = Panic msg s' -> (m ≫= f) e s = Panic msg s'.
Proof. unfold mbind, M_bind. by intros ->. Qed.

Lemma bind_Blocked {A B} (m : M S A) (f : A -> M S B) e s s' :
  m e s = Blocked s' -> (m ≫= f) e s = Blocked s'.
Proof. unfold mbind, M_bind. by intros ->. Qed.

Lemma wp_intro {A} (m : M S A) (Q : A -> env S -> S -> Prop) e s a e' s' :
  m e s = Done a e' s' -> Q a e' s' -> wp m Q e s.
Proof. unfold wp. by intros ->. Qed.

Lemma wp_elim {A} (m : M S A) (Q : A -> env S -> S -> Prop) e s :
  wp m Q e s -> exists a e' s', m e s = Done a e' s' /\ Q a e' s'.
Proof. unfold wp. destruct (m e s); [eauto 6|done..]. Qed.

Lemma wp_run (m : M S unit) (P : S -> Prop) e s :
  wp m (fun _ e' s' => e' = e /\ P s') e s -> exists s', m e s = Done tt e s' /\ P s'.
Proof. intros ([] & ? & s' & ? & -> & ?)%wp_elim. by exists s'. Qed.

Lemma wp_ret {A} (a : A) Q e s : Q a e s -> wp (mret a) Q e s.
Proof. done. Qed.

Lemma wp_bind {A B} (m : M S A) (f : A -> M S B) Q e s :
  wp m (fun a e' s' => wp (f a) Q e' s') e s -> wp (m ≫= f) Q e s.
Proof. unfold wp, mbind, M_bind. by destruct (m e s). Qed.

Lemma wp_bind_inv {A B} (m : M S A) (f : A -> M S B) Q e s :
  wp (m ≫= f) Q e s -> wp m (fun a e' s' => wp (f a) Q e' s') e s.
Proof. unfold wp, mbind, M_bind. by destruct (m e s). Qed.

Lemma wp_mono {A} (m : M S A) (Q Q' : A -> env S -> S -> Prop) e s :
  wp m Q e s -> (forall a e' s', Q a e' s' -> Q' a e' s') -> wp m Q' e s.
Proof. unfold wp. destruct (m e s); naive_solver. Qed.

Lemma wp_get {A} (f : S -> A) (Q : A -> env S -> S -> Prop) e s :
  Q (f s) e s -> wp (get f) Q e s.
Proof. done. Qed.

Lemma wp_modify (f : S -> S) (Q : unit -> env S -> S -> Prop) e s :
  Q tt e (f s) -> wp (modify f) Q e s.
Proof. done. Qed.

Lemma wp_when b (m : M S unit) (Q : unit -> env S -> S -> Prop) e s :
  (b = true -> wp m Q e s) -> (b = false -> Q tt e s) -> wp (when b m) Q e s.
Proof. destruct b; intros H1 H2; [by apply H1 | by apply H2]. Qed.

(** The rule for [for_each]: [I] holds of the elements still to come. *)
Lemma wp_for_each {X R} (I : list X -> env S -> S -> Prop) (l : list X)
    (body : X -> M S (option R)) (Q : option R -> env S -> S -> Prop) e s :
  I l e s ->
  (forall e' s', I [] e' s' -> Q None e' s') ->
  (forall x l' e' s', x :: l' `suffix_of` l -> I (x :: l') e' s' ->
     wp (body x) (fun r e'' s'' =>
       match r with None => I l' e'' s'' | Some r => Q (Some r) e'' s'' end) e' s') ->
  wp (for_each l body) Q e s.
Proof.
  revert e s. induction l as [|x l IH]; intros e s HI Hnil Hstep; simpl.
  - by apply wp_ret, Hnil.
  - apply wp_bind. eapply wp_mono; [by apply Hstep|].
    intros [r|] e' s' HQ; [by apply wp_ret|].
    apply IH; [done|done|].
    intros y l' e'' s'' Hsuf. apply Hstep. by apply suffix_cons_r.
Qed.

(** The rule for [loop]: [I] is indexed by the locals and [measure] bounds the
    number of rounds still to do. *)
Lemma wp_loop {X R} (I : X -> env S -> S -> Prop) (measure : X -> nat) fuel
    (body : X -> M S (X + R)) (Q : R -> env S -> S -> Prop) x e s :
  (measure x < fuel)%nat ->
  I x e s ->
  (forall y e' s', I y e' s' ->
     wp (body y) (fun r e'' s'' =>
       match r with
       | inl z => I z e'' s'' /\ (measure z < measure y)%nat
       | inr r => Q r e'' s''
       end) e' s') ->
  wp (loop fuel body x) Q e s.
Proof.
  revert x e s. induction fuel as [|fuel IH]; intros x e s Hf HI Hstep; [lia|].
  simpl. apply wp_bind. eapply wp_mono; [by apply Hstep|].
  intros [z|r] e' s' HQ; [|by apply wp_ret].
  destruct HQ as [HI' Hlt]. apply IH; [lia|done|done].
Qed.

End wp.

(** The same for a program that may wait for ever: [wpb B m Q e s] says that [m] does not
    panic, that its loops end, that [Q] holds if it returns and [B] if it waits. *)
Definition wpb {S A} (B : Prop) (m : M S A) (Q : A -> env S -> S -> Prop) (e : env S) (s : S) : Prop :=
  match m e s with
  | Done a e' s' => Q a e' s'
  | Blocked _ => B
  | _ => False
  end.

Section wpb.
Context {S : Type} (W : Prop).
Implicit Types (e : env S) (s : S).

Lemma wp_wpb {A} (m : M S A) Q e s : wp m Q e s -> wpb W m Q e s.
Proof. unfold wp, wpb. by destruct (m e s). Qed.

Lemma wpb_intro {A} (m : M S A) (Q : A -> env S -> S -> Prop) e s a e' s' :
  m e s = Done a e' s' -> Q a e' s' -> wpb W m Q e s.
Proof. unfold wpb. by intros ->. Qed.

Lemma wpb_elim {A} (m : M S A) (Q : A -> env S -> S -> Prop) e s :
  wpb W m Q e s -> ~ W -> exists a e' s', m e s = Done a e' s' /\ Q a e' s'.
Proof. unfold wpb. destruct (m e s); [eauto 6|done..]. Qed.

Lemma wpb_bind {A B} (m : M S A) (f : A -> M S B) Q e s :
  wpb W m (fun a e' s' => wpb W (f a) Q e' s') e s -> wpb W (m ≫= f) Q e s.
Proof. unfold wpb, mbind, M_bind. by destruct (m e s). Qed.

Lemma wpb_mono {A} (m : M S A) (Q Q' : A -> env S -> S -> Prop) e s :
  wpb W m Q e s -> (forall a e' s', Q a e' s' -> Q' a e' s') -> wpb W m Q' e s.
Proof. unfold wpb. destruct (m e s); naive_solver. Qed.

Lemma wpb_for_each {X R} (I : list X -> env S -> S -> Prop) (l : list X)
    (body : X -> M S (option R)) (Q : option R -> env S -> S -> Prop) e s :
  I l e s ->
  (forall e' s', I [] e' s' -> Q None e' s') ->
  (forall x l' e' s', x :: l' `suffix_of` l -> I (x :: l') e' s' ->
     wpb W (body x) (fun r e'' s'' =>
       match r with None => I l' e'' s'' | Some r => Q (Some r) e'' s'' end) e' s') ->
  wpb W (for_each l body) Q e s.
Proof.
  revert e s. induction l as [|x l IH]; intros e s HI Hnil Hstep; simpl.
  - by apply Hnil.
  - apply wpb_bind. eapply wpb_mono; [by apply Hstep|].
    intros [r|] e' s' HQ; [done|].
    apply IH; [done|done|].
    intros y l' e'' s'' Hsuf. apply Hstep. by apply suffix_cons_r.
Qed.

(** A waiting loop ends because every round that goes on uses up some of the
    environment. *)
Lemma wpb_loop_env {X R} (I : X -> env S -> S -> Prop)
    (body : X -> M S (X + R)) (Q : R -> env S -> S -> Prop) x e s :
  I x e s ->
  (forall y e' s', I y e' s' ->
     wpb W (body y) (fun r e'' s'' =>
       match r with
       | inl z => I z e'' s'' /\ (length e'' < length e')%nat
       | inr r => Q r e'' s''
       end) e' s') ->
  wpb W (loop_env body x) Q e s.
Proof.
  intros HI Hstep. unfold wpb, loop_env. fold (wpb W (loop (Datatypes.S (length e)) body x) Q e s).
  assert (Hf : (length e < Datatypes.S (length e))%nat) by lia.
  revert Hf HI. generalize (Datatypes.S (length e)) as fuel. intros fuel. revert x e s.
  induction fuel as [|fuel IH]; intros x e s Hf HI; [lia|].
  change (wpb W (loop (Datatypes.S fuel) body x) Q e s). simpl. apply wpb_bind.
  eapply wpb_mono; [by apply Hstep|]. intros [z|r] e' s' HQ; [|done].
  destruct HQ as [HI' Hlt]. apply IH; [lia|done].
Qed.

End wpb.

(** One step of symbolic execution of a monadic program. *)
Ltac wp_step :=
  lazymatch goal with
  | |- wp (mbind _ _) _ _ _ => apply wp_bind
  | |- wp (mret _) _ _ _ => apply wp_ret
  | |- wp (get _) _ _ _ => apply wp_get
  | |- wp (modify _) _ _ _ => apply wp_modify
  end.

(** Case analysis on the boolean tests of the goal; [lia] discards the cases
    whose tests contradict each other. *)
Ltac zif := repeat (case_match; try (exfalso; lia)).

Ltac wp_steps := repeat (wp_step; simpl).

(** * Generic lemmas *)


Lemma u32_range x : 0 <= u32 x < 4294967296.
Proof. unfold u32. by apply Z.mod_pos_bound. Qed.

Lemma u32_small x : 0 <= x < 4294967296 -> u32 x = x.
Proof. unfold u32. intros. by apply Z.mod_small. Qed.

Lemma s32_small x : -2147483648 <= x < 2147483648 -> s32 x = x.
Proof. unfold s32. intros. rewrite Z.mod_small; lia. Qed.

Lemma s32_u32 x : s32 (u32 x) = s32 x.
Proof. unfold s32, u32. by rewrite Zplus_mod_idemp_l. Qed.

Lemma u32_s32 x : u32 (s32 x) = u32 x.
Proof.
  unfold s32, u32. rewrite Zminus_mod_idemp_l. f_equal. lia.
Qed.

Lemma u32_u32 x : u32 (u32 x) = u32 x.
Proof. apply u32_small, u32_range. Qed.

(** Clearing the low [k] bits rounds down to a multiple of [2^k]. *)
Lemma land_lnot_ones x k :
  0 <= k -> Z.land x (Z.lnot (Z.ones k)) = x - x mod 2 ^ k.
Proof.
  intros Hk. rewrite <- Z.ldiff_land, Z.ldiff_ones_r by done.
  rewrite Z.shiftl_mul_pow2, Z.shiftr_div_pow2 by done.
  pose proof (Z.div_mod x (2 ^ k)). lia.
Qed.

(** The bitwise or of a multiple of [2^k] and a value below [2^k] is a sum. *)
Lemma lor_add_low a b k :
  0 <= k -> a mod 2 ^ k = 0 -> 0 <= b < 2 ^ k -> Z.lor a b = a + b.
Proof.
  intros Hk Ha Hb.
  assert (Z.land a b = 0) as Hl.
  { apply Z.bits_inj'. intros n Hn. rewrite Z.land_spec, Z.bits_0.
    destruct (decide (n < k)) as [Hlt|Hge].
    - assert (Z.testbit a n = false) as ->; [|done].
      rewrite <- (Z.mod_pow2_bits_low a k n) by lia. by rewrite Ha, Z.bits_0.
    - assert (Z.testbit b n = false) as ->; [|by rewrite andb_false_r].
      rewrite <- (Z.mod_small b (2 ^ k)) by done.
      apply Z.mod_pow2_bits_high. lia. }
  by rewrite Z.add_nocarry_lxor, Z.lxor_lor.
Qed.
