(* ===== verification/Params.v ===== *)
(** Constants and macros of the kernel's headers: param.h, memlayout.h, mmu.h,
    fs.h, traps.h, buf.h and file.h, with the arithmetic of page addresses and
    page-table entries that every user of the macros needs.

    The numeric constants are registered with [zify], so that [lia] computes
    with them. *)

From S2P Require Import Prelude.
From Stdlib Require Import ZifyClasses ZifyInst.

(** * param.h *)
Definition NPROC : Z := 64.
Definition KSTACKSIZE : Z := 4096.
Definition NCPU : Z := 8.
Definition NOFILE : Z := 16.
Definition NFILE : Z := 100.
Definition NINODE : Z := 50.
Definition NDEV : Z := 10.
Definition ROOTDEV : Z := 1.
Definition MAXARG : Z := 32.
Definition MAXOPBLOCKS : Z := 10.
Definition LOGSIZE : Z := MAXOPBLOCKS * 3.
Definition NBUF : Z := MAXOPBLOCKS * 3.
Definition FSSIZE : Z := 1000.

(** * memlayout.h *)
Definition EXTMEM : Z := 0x100000.
Definition PHYSTOP : Z := 0xE000000.
Definition DEVSPACE : Z := 0xFE000000.
Definition KERNBASE : Z := 0x80000000.
Definition KERNLINK : Z := KERNBASE + EXTMEM.

Definition v2p (a : Z) : Z := u32 (a - KERNBASE).
Definition p2v (a : Z) : Z := u32 (a + KERNBASE).

(** * mmu.h *)
Definition PGSIZE : Z := 4096.
Definition NPDENTRIES : Z := 1024.
Definition NPTENTRIES : Z := 1024.
Definition PTXSHIFT : Z := 12.
Definition PDXSHIFT : Z := 22.

Definition PDX (va : Z) : Z := Z.land (Z.shiftr va PDXSHIFT) 0x3FF.
Definition PTX (va : Z) : Z := Z.land (Z.shiftr va PTXSHIFT) 0x3FF.
Definition PGADDR (d t o : Z) : Z :=
  u32 (Z.lor (Z.lor (Z.shiftl d PDXSHIFT) (Z.shiftl t PTXSHIFT)) o).

Definition PGROUNDUP (sz : Z) : Z := Z.land (u32 (sz + PGSIZE - 1)) (Z.lnot (PGSIZE - 1)).
Definition PGROUNDDOWN (a : Z) : Z := Z.land a (Z.lnot (PGSIZE - 1)).

Definition PTE_P : Z := 0x001.
Definition PTE_W : Z := 0x002.
Definition PTE_U : Z := 0x004.
Definition PTE_PS : Z := 0x080.

Definition PTE_ADDR (pte : Z) : Z := Z.land pte (Z.lnot 0xFFF).
Definition PTE_FLAGS (pte : Z) : Z := Z.land pte 0xFFF.

Definition FL_IF : Z := 0x200.
Definition SEG_KCODE : Z := 1.
Definition SEG_KDATA : Z := 2.
Definition SEG_KCPU : Z := 3.
Definition SEG_UCODE : Z := 4.
Definition SEG_UDATA : Z := 5.
Definition SEG_TSS : Z := 6.
Definition DPL_USER : Z := 3.

(** * fs.h *)
Definition ROOTINO : Z := 1.
Definition BSIZE : Z := 512.
Definition NDIRECT : Z := 12.
Definition NINDIRECT : Z := BSIZE / 4.
Definition MAXFILE : Z := NDIRECT + NINDIRECT.
(** sizeof(struct dinode): four shorts, the size and the block addresses. *)
Definition sizeof_dinode : Z := 4 * 2 + 4 + (NDIRECT + 1) * 4.
Definition IPB : Z := BSIZE / sizeof_dinode.
Definition BPB : Z := BSIZE * 8.
Definition DIRSIZ : Z := 14.
(** sizeof(struct dirent): a ushort and the name. *)
Definition sizeof_dirent : Z := 2 + DIRSIZ.

(** * stat.h and fcntl.h *)
Definition T_DIR : Z := 1.
Definition T_FILE : Z := 2.
Definition T_DEV : Z := 3.
Definition O_RDONLY : Z := 0x000.
Definition O_WRONLY : Z := 0x001.
Definition O_RDWR : Z := 0x002.
Definition O_CREATE : Z := 0x200.

(** * traps.h *)
Definition T_PGFLT : Z := 14.
Definition T_SYSCALL : Z := 64.
Definition T_IRQ0 : Z := 32.
Definition IRQ_TIMER : Z := 0.
Definition IRQ_KBD : Z := 1.
Definition IRQ_COM1 : Z := 4.
Definition IRQ_IDE : Z := 14.
Definition IRQ_SPURIOUS : Z := 31.

(** * [lia] computes with the constants *)

#[global] Instance Cst_NPROC : CstOp NPROC. Proof. exists 64. reflexivity. Defined.
#[global] Instance Cst_KSTACKSIZE : CstOp KSTACKSIZE. Proof. exists 4096. reflexivity. Defined.
#[global] Instance Cst_NOFILE : CstOp NOFILE. Proof. exists 16. reflexivity. Defined.
#[global] Instance Cst_NFILE : CstOp NFILE. Proof. exists 100. reflexivity. Defined.
#[global] Instance Cst_NINODE : CstOp NINODE. Proof. exists 50. reflexivity. Defined.
#[global] Instance Cst_MAXOPBLOCKS : CstOp MAXOPBLOCKS. Proof. exists 10. reflexivity. Defined.
#[global] Instance Cst_LOGSIZE : CstOp LOGSIZE. Proof. exists 30. reflexivity. Defined.
#[global] Instance Cst_NBUF : CstOp NBUF. Proof. exists 30. reflexivity. Defined.
#[global] Instance Cst_FSSIZE : CstOp FSSIZE. Proof. exists 1000. reflexivity. Defined.
#[global] Instance Cst_EXTMEM : CstOp EXTMEM. Proof. exists 0x100000. reflexivity. Defined.
#[global] Instance Cst_PHYSTOP : CstOp PHYSTOP. Proof. exists 0xE000000. reflexivity. Defined.
#[global] Instance Cst_DEVSPACE : CstOp DEVSPACE. Proof. exists 0xFE000000. reflexivity. Defined.
#[global] Instance Cst_KERNBASE : CstOp KERNBASE. Proof. exists 0x80000000. reflexivity. Defined.
#[global] Instance Cst_KERNLINK : CstOp KERNLINK. Proof. exists 0x80100000. reflexivity. Defined.
#[global] Instance Cst_PGSIZE : CstOp PGSIZE. Proof. exists 4096. reflexivity. Defined.
#[global] Instance Cst_NPDENTRIES : CstOp NPDENTRIES. Proof. exists 1024. reflexivity. Defined.
#[global] Instance Cst_NPTENTRIES : CstOp NPTENTRIES. Proof. exists 1024. reflexivity. Defined.
#[global] Instance Cst_PTE_P : CstOp PTE_P. Proof. exists 1. reflexivity. Defined.
#[global] Instance Cst_PTE_W : CstOp PTE_W. Proof. exists 2. reflexivity. Defined.
#[global] Instance Cst_PTE_U : CstOp PTE_U. Proof. exists 4. reflexivity. Defined.
#[global] Instance Cst_BSIZE : CstOp BSIZE. Proof. exists 512. reflexivity. Defined.
#[global] Instance Cst_NDIRECT : CstOp NDIRECT. Proof. exists 12. reflexivity. Defined.
#[global] Instance Cst_NINDIRECT : CstOp NINDIRECT. Proof. exists 128. reflexivity. Defined.
#[global] Instance Cst_MAXFILE : CstOp MAXFILE. Proof. exists 140. reflexivity. Defined.
#[global] Instance Cst_IPB : CstOp IPB. Proof. exists 8. reflexivity. Defined.
#[global] Instance Cst_BPB : CstOp BPB. Proof. exists 4096. reflexivity. Defined.
#[global] Instance Cst_DIRSIZ : CstOp DIRSIZ. Proof. exists 14. reflexivity. Defined.
#[global] Instance Cst_sizeof_dirent : CstOp sizeof_dirent. Proof. exists 16. reflexivity. Defined.
#[global] Instance Cst_sizeof_dinode : CstOp sizeof_dinode. Proof. exists 64. reflexivity. Defined.
Add Zify CstOp Cst_NPROC.
Add Zify CstOp Cst_KSTACKSIZE.
Add Zify CstOp Cst_NOFILE.
Add Zify CstOp Cst_NFILE.
Add Zify CstOp Cst_NINODE.
Add Zify CstOp Cst_MAXOPBLOCKS.
Add Zify CstOp Cst_LOGSIZE.
Add Zify CstOp Cst_NBUF.
Add Zify CstOp Cst_FSSIZE.
Add Zify CstOp Cst_EXTMEM.
Add Zify CstOp Cst_PHYSTOP.
Add Zify CstOp Cst_DEVSPACE.
Add Zify CstOp Cst_KERNBASE.
Add Zify CstOp Cst_KERNLINK.
Add Zify CstOp Cst_PGSIZE.
Add Zify CstOp Cst_NPDENTRIES.
Add Zify CstOp Cst_NPTENTRIES.
Add Zify CstOp Cst_PTE_P.
Add Zify CstOp Cst_PTE_W.
Add Zify CstOp Cst_PTE_U.
Add Zify CstOp Cst_BSIZE.
Add Zify CstOp Cst_NDIRECT.
Add Zify CstOp Cst_NINDIRECT.
Add Zify CstOp Cst_MAXFILE.
Add Zify CstOp Cst_IPB.
Add Zify CstOp Cst_BPB.
Add Zify CstOp Cst_DIRSIZ.
Add Zify CstOp Cst_sizeof_dirent.
Add Zify CstOp Cst_sizeof_dinode.

(** [lia] with division and modulo by constants. *)
Ltac mlia := Z.to_euclidean_division_equations; lia.

(** * Page arithmetic *)

Lemma PGROUNDDOWN_eq a : PGROUNDDOWN a = a - a mod PGSIZE.
Proof. apply (land_lnot_ones a 12). lia. Qed.

Lemma PGROUNDUP_eq sz :
  0 <= sz <= 4294967296 - PGSIZE ->
  PGROUNDUP sz = sz + (- sz) mod PGSIZE.
Proof.
  intros Hsz. unfold PGROUNDUP. rewrite u32_small by lia.
  pose proof (land_lnot_ones (sz + PGSIZE - 1) 12 ltac:(lia)) as H.
  change (Z.ones 12) with (PGSIZE - 1) in H. rewrite H.
  change (2 ^ 12) with PGSIZE. mlia.
Qed.

Lemma PTE_ADDR_eq pte : PTE_ADDR pte = pte - pte mod PGSIZE.
Proof. apply (land_lnot_ones pte 12). lia. Qed.

Lemma PTE_FLAGS_eq pte : PTE_FLAGS pte = pte mod PGSIZE.
Proof. apply (Z.land_ones pte 12). lia. Qed.

Lemma PDX_eq va : 0 <= va < 4294967296 -> PDX va = va / 4194304.
Proof.
  intros Hva. unfold PDX, PDXSHIFT. rewrite (Z.land_ones _ 10) by lia.
  rewrite Z.shiftr_div_pow2 by lia. apply Z.mod_small. mlia.
Qed.

Lemma PTX_eq va : PTX va = (va / PGSIZE) mod 1024.
Proof.
  unfold PTX, PTXSHIFT. rewrite (Z.land_ones _ 10) by lia.
  by rewrite Z.shiftr_div_pow2 by lia.
Qed.

Lemma v2p_eq a : KERNBASE <= a < 4294967296 -> v2p a = a - KERNBASE.
Proof. intros. apply u32_small. lia. Qed.

Lemma p2v_eq a : 0 <= a < 4294967296 - KERNBASE -> p2v a = a + KERNBASE.
Proof. intros. apply u32_small. lia. Qed.

Lemma p2v_v2p a : 0 <= a < 4294967296 -> p2v (v2p a) = a.
Proof.
  intros. unfold p2v, v2p, u32. rewrite Zplus_mod_idemp_l.
  replace (a - KERNBASE + KERNBASE) with a by lia. by apply Z.mod_small.
Qed.

Lemma v2p_p2v a : 0 <= a < 4294967296 -> v2p (p2v a) = a.
Proof.
  intros. unfold p2v, v2p, u32. rewrite Zminus_mod_idemp_l.
  replace (a + KERNBASE - KERNBASE) with a by lia. by apply Z.mod_small.
Qed.

(** A page-table entry is the frame address plus its flag bits. *)
Lemma pte_make pa flags :
  pa mod PGSIZE = 0 -> 0 <= flags < PGSIZE -> Z.lor pa flags = pa + flags.
Proof. intros. by apply (lor_add_low pa flags 12). Qed.

Lemma PTE_ADDR_make pa flags :
  pa mod PGSIZE = 0 -> 0 <= flags < PGSIZE -> PTE_ADDR (Z.lor pa flags) = pa.
Proof. intros. rewrite pte_make, PTE_ADDR_eq by done. mlia. Qed.

Lemma PTE_FLAGS_make pa flags :
  pa mod PGSIZE = 0 -> 0 <= flags < PGSIZE -> PTE_FLAGS (Z.lor pa flags) = flags.
Proof. intros. rewrite pte_make, PTE_FLAGS_eq by done. mlia. Qed.
