(* ===== verification/Mem.v ===== *)
(** Byte-addressed memory and the C string routines of string.c.

    Memory is a total function from addresses to bytes; a read takes the value
    modulo 256, so that every memory is a memory of bytes.  The routines that
    move data ([memset], [memmove]) work on a memory, because the source looks
    at addresses (alignment, overlap); the ones that only read a string take the
    string as the function [i -> s[i]]; [strncpy] and [safestrcpy] return the
    destination array. *)

From S2P Require Import Prelude Params.

Definition memory : Type := Z -> Z.

Definition ld8 (m : memory) (a : Z) : Z := u8 (m a).
Definition st8 (m : memory) (a v : Z) : memory := fun x => if x =? a then u8 v else m x.

(** Little-endian words. *)
Definition ld32 (m : memory) (a : Z) : Z :=
  ld8 m a + 256 * ld8 m (a + 1) + 65536 * ld8 m (a + 2) + 16777216 * ld8 m (a + 3).

Definition st32 (m : memory) (a v : Z) : memory :=
  st8 (st8 (st8 (st8 m a v) (a + 1) (v / 256)) (a + 2) (v / 65536)) (a + 3) (v / 16777216).

Definition ld16 (m : memory) (a : Z) : Z := ld8 m a + 256 * ld8 m (a + 1).

(** * x86.h: the string-store instructions *)

Fixpoint stosb (m : memory) (addr data : Z) (cnt : nat) : memory :=
  match cnt with
  | O => m
  | S n => stosb (st8 m addr data) (addr + 1) data n
  end.

Fixpoint stosl (m : memory) (addr data : Z) (cnt : nat) : memory :=
  match cnt with
  | O => m
  | S n => stosl (st32 m addr data) (addr + 4) data n
  end.

(** * string.c *)

Definition memset (m : memory) (dst c n : Z) : memory :=
  if (Z.rem (s32 dst) 4 =? 0) && (n mod 4 =? 0)
  then let c := Z.land c 0xFF in
       stosl m dst
         (Z.lor (Z.lor (Z.lor (Z.shiftl c 24) (Z.shiftl c 16)) (Z.shiftl c 8)) c)
         (Z.to_nat (n / 4))
  else stosb m dst c (Z.to_nat n).

Fixpoint memcmp (s1 s2 : Z -> Z) (i : Z) (n : nat) : Z :=
  match n with
  | O => 0
  | S n' => if negb (s1 i =? s2 i) then s1 i - s2 i else memcmp s1 s2 (i + 1) n'
  end.

(** [while(n-- > 0) *--d = *--s] *)
Fixpoint copy_down (m : memory) (d s : Z) (n : nat) : memory :=
  match n with
  | O => m
  | S n' => copy_down (st8 m (d - 1) (ld8 m (s - 1))) (d - 1) (s - 1) n'
  end.

(** [while(n-- > 0) *d++ = *s++] *)
Fixpoint copy_up (m : memory) (d s : Z) (n : nat) : memory :=
  match n with
  | O => m
  | S n' => copy_up (st8 m d (ld8 m s)) (d + 1) (s + 1) n'
  end.

Definition memmove (m : memory) (dst src n : Z) : memory :=
  if (src <? dst) && (dst <? src + n)
  then copy_down m (dst + n) (src + n) (Z.to_nat n)
  else copy_up m dst src (Z.to_nat n).

Fixpoint strncmp (p q : Z -> Z) (i : Z) (n : nat) : Z :=
  match n with
  | O => 0
  | S n' =>
      if cbool (p i) && (p i =? q i)
      then strncmp p q (i + 1) n'
      else u8 (p i) - u8 (q i)
  end.

(** The two loops of [strncpy]: copy up to and including the NUL, then pad. *)
Fixpoint strncpy_pad (s : list Z) (i : nat) (n : nat) : list Z :=
  match n with
  | O => s
  | S n' => strncpy_pad (<[i := 0]> s) (S i) n'
  end.

Fixpoint strncpy_from (s : list Z) (t : Z -> Z) (i : nat) (n : nat) : list Z :=
  match n with
  | O => s
  | S n' =>
      let c := t (Z.of_nat i) in
      let s := <[i := c]> s in
      if cbool c then strncpy_from s t (S i) n' else strncpy_pad s (S i) n'
  end.

Definition strncpy (s : list Z) (t : Z -> Z) (n : Z) : list Z :=
  strncpy_from s t 0 (Z.to_nat n).

(** [while(--n > 0 && ( *s++ = *t++) != 0); *s = 0]: when the copy stops on a
    NUL, [s] is already past it and the final store writes a second NUL. *)
Fixpoint safestrcpy_from (s : list Z) (t : Z -> Z) (i : nat) (n : nat) : list Z :=
  match n with
  | O => s
  | S O => <[i := 0]> s
  | S n' =>
      let c := t (Z.of_nat i) in
      let s := <[i := c]> s in
      if cbool c then safestrcpy_from s t (S i) n' else <[S i := 0]> s
  end.

Definition safestrcpy (s : list Z) (t : Z -> Z) (n : Z) : list Z :=
  if n <=? 0 then s else safestrcpy_from s t 0 (Z.to_nat n).

(** [strlen] walks until a NUL; [fuel] bounds the walk. *)
Fixpoint strlen (s : Z -> Z) (n : Z) (fuel : nat) : option Z :=
  match fuel with
  | O => None
  | S fuel' => if cbool (s n) then strlen s (n + 1) fuel' else Some n
  end.

(** A byte list as a string: past its end it reads as NUL. *)
Definition lstr (l : list Z) : Z -> Z :=
  fun i => if i <? 0 then 0 else default 0 (l !! Z.to_nat i).

(** * Loads and stores *)


Lemma u8_range x : 0 <= u8 x < 256.
Proof. unfold u8. by apply Z.mod_pos_bound. Qed.

Lemma ld8_range m a : 0 <= ld8 m a < 256.
Proof. apply u8_range. Qed.

Lemma ld8_st8 m a v x : ld8 (st8 m a v) x = if x =? a then u8 v else ld8 m x.
Proof.
  unfold ld8, st8. case_match; [|done]. unfold u8. by rewrite Z.mod_mod.
Qed.

Lemma ld8_st32 m a v x :
  ld8 (st32 m a v) x =
    if (a <=? x) && (x <? a + 4) then u8 (v / 256 ^ (x - a)) else ld8 m x.
Proof.
  unfold st32. rewrite !ld8_st8. zif; try done.
  - by replace (x - a) with 3 by lia.
  - by replace (x - a) with 2 by lia.
  - by replace (x - a) with 1 by lia.
  - replace (x - a) with 0 by lia. by rewrite Z.pow_0_r, Z.div_1_r.
Qed.

Lemma ld32_range m a : 0 <= ld32 m a < 4294967296.
Proof.
  unfold ld32.
  pose proof (ld8_range m a). pose proof (ld8_range m (a + 1)).
  pose proof (ld8_range m (a + 2)). pose proof (ld8_range m (a + 3)). lia.
Qed.

Lemma ld32_st32_eq m a v : ld32 (st32 m a v) a = u32 v.
Proof.
  unfold ld32. rewrite !ld8_st32.
  repeat (case_match; [|lia]).
  replace (a - a) with 0 by lia. replace (a + 1 - a) with 1 by lia.
  replace (a + 2 - a) with 2 by lia. replace (a + 3 - a) with 3 by lia.
  unfold u8, u32. simpl. change (Z.pow_pos 256 1) with 256.
  change (Z.pow_pos 256 2) with 65536. change (Z.pow_pos 256 3) with 16777216.
  mlia.
Qed.

Lemma ld32_st32_ne m a v b :
  b + 4 <= a \/ a + 4 <= b -> ld32 (st32 m a v) b = ld32 m b.
Proof.
  intros Hd. unfold ld32. rewrite !ld8_st32.
  repeat (case_match; [lia|]). done.
Qed.

(** Words are determined by their bytes. *)
Lemma ld32_ext m m' a :
  (forall x, a <= x < a + 4 -> ld8 m x = ld8 m' x) -> ld32 m a = ld32 m' a.
Proof. intros H. unfold ld32. rewrite !H by lia. done. Qed.

(** * The fill and copy routines against their specifications *)

Lemma ld8_stosb m a c n x :
  ld8 (stosb m a c n) x = if (a <=? x) && (x <? a + Z.of_nat n) then u8 c else ld8 m x.
Proof.
  revert m a. induction n as [|n IH]; intros m a; simpl.
  - case_match; [lia|done].
  - rewrite IH, ld8_st8. by zif.
Qed.

Lemma ld8_stosl m a c n x :
  ld8 (stosl m a c n) x =
    if (a <=? x) && (x <? a + 4 * Z.of_nat n) then u8 (c / 256 ^ ((x - a) mod 4)) else ld8 m x.
Proof.
  revert m a. induction n as [|n IH]; intros m a; simpl.
  - case_match; [lia|done].
  - rewrite IH, ld8_st32.
    zif; try done; f_equal; f_equal; f_equal; mlia.
Qed.

(** The word [stosl] stores has the fill byte in each of its four places. *)
Lemma fill_word_byte c k :
  0 <= k < 4 ->
  let b := Z.land c 0xFF in
  u8 (Z.lor (Z.lor (Z.lor (Z.shiftl b 24) (Z.shiftl b 16)) (Z.shiftl b 8)) b / 256 ^ k) = u8 c.
Proof.
  intros Hk b.
  assert (Hb : b = u8 c) by (apply (Z.land_ones c 8); lia).
  assert (0 <= b < 256) by (rewrite Hb; apply u8_range).
  rewrite !Z.shiftl_mul_pow2 by lia.
  rewrite (lor_add_low (b * 2 ^ 24) (b * 2 ^ 16) 24); [|lia|mlia|lia].
  rewrite (lor_add_low (b * 2 ^ 24 + b * 2 ^ 16) (b * 2 ^ 8) 16); [|lia|mlia|lia].
  rewrite (lor_add_low (b * 2 ^ 24 + b * 2 ^ 16 + b * 2 ^ 8) b 8); [|lia|mlia|lia].
  rewrite <- Hb. unfold u8.
  assert (k = 0 \/ k = 1 \/ k = 2 \/ k = 3) as [->|[->|[->| ->]]] by lia; simpl;
    rewrite ?Z.pow_0_r; change (Z.pow_pos 256 1) with 256;
    change (Z.pow_pos 256 2) with 65536; change (Z.pow_pos 256 3) with 16777216; mlia.
Qed.

(** [memset] fills exactly the bytes of its range, on both branches. *)
Lemma ld8_memset m a c n x :
  0 <= n ->
  ld8 (memset m a c n) x = if (a <=? x) && (x <? a + n) then u8 c else ld8 m x.
Proof.
  intros Hn. unfold memset. case_match eqn:E.
  - apply andb_true_iff in E as [_ E]. apply Z.eqb_eq in E.
    rewrite ld8_stosl, fill_word_byte by (apply Z.mod_pos_bound; lia).
    replace (4 * Z.of_nat (Z.to_nat (n / 4))) with n; [done|].
    rewrite Z2Nat.id by mlia. mlia.
  - rewrite ld8_stosb, Z2Nat.id by done. done.
Qed.

Lemma ld32_memset m a c n x :
  a <= x -> x + 4 <= a + n -> ld32 (memset m a c n) x = u8 c * 16843009.
Proof.
  intros. unfold ld32. rewrite !ld8_memset by lia.
  repeat (case_match; [|lia]). lia.
Qed.

Lemma ld32_memset_ne m a c n x :
  0 <= n -> x + 4 <= a \/ a + n <= x -> ld32 (memset m a c n) x = ld32 m x.
Proof.
  intros. apply ld32_ext. intros y Hy. rewrite ld8_memset by lia.
  case_match; [lia|done].
Qed.

Lemma ld8_copy_up m d s n x :
  d <= s \/ s + Z.of_nat n <= d ->
  ld8 (copy_up m d s n) x =
    if (d <=? x) && (x <? d + Z.of_nat n) then ld8 m (s + (x - d)) else ld8 m x.
Proof.
  revert m d s. induction n as [|n IH]; intros m d s Hd; simpl.
  - case_match; [lia|done].
  - rewrite IH by lia. rewrite !ld8_st8.
    zif; try done; try (f_equal; lia).
    unfold ld8, u8. rewrite Z.mod_mod by lia. do 2 f_equal. lia.
Qed.

Lemma ld8_copy_down m d s n x :
  s <= d ->
  ld8 (copy_down m d s n) x =
    if (d - Z.of_nat n <=? x) && (x <? d) then ld8 m (s + (x - d)) else ld8 m x.
Proof.
  revert m d s. induction n as [|n IH]; intros m d s Hd; simpl.
  - case_match; [lia|done].
  - rewrite IH by lia. rewrite !ld8_st8.
    zif; try done; try (f_equal; lia).
    unfold ld8, u8. rewrite Z.mod_mod by lia. do 2 f_equal. lia.
Qed.

(** [memmove] is a simultaneous copy, also when the ranges overlap. *)
Lemma ld8_memmove m d s n x :
  0 <= n ->
  ld8 (memmove m d s n) x =
    if (d <=? x) && (x <? d + n) then ld8 m (s + (x - d)) else ld8 m x.
Proof.
  intros Hn. unfold memmove. case_match eqn:E.
  - rewrite ld8_copy_down by lia. rewrite Z2Nat.id by done.
    zif; f_equal; lia.
  - rewrite ld8_copy_up by lia. by rewrite Z2Nat.id by done.
Qed.
