(* ===== verification/State.v ===== *)
(** The state of the kernel: the structures of the headers (spinlock.h, proc.h,
    buf.h, fs.h, file.h) and of kalloc.c, log.c, pipe.c and console.c, the record
    of all the kernel's global variables, and one update function per field.

    Pointers to elements of the kernel's static tables (processes, buffers,
    inodes, files) are indices into the tables, a null pointer being [None];
    pointers to pages are addresses.  Every lock of the kernel has an identity in
    [lockid] and its record in [k_locks]; every address the kernel sleeps on has
    one in [chan]. *)

From S2P Require Import Prelude Params Mem.

(** proc.h: [enum procstate]. *)
Inductive procstate := UNUSED | EMBRYO | SLEEPING | RUNNABLE | RUNNING | ZOMBIE.

(** file.h: the type of an open file. *)
Inductive fdtype := FD_NONE | FD_PIPE | FD_INODE.

(** The addresses processes sleep on. *)
Inductive chan :=
| CH_proc (i : nat) | CH_ticks | CH_buf (i : nat) | CH_inode (i : nat) | CH_log
| CH_nread (p : Z) | CH_nwrite (p : Z) | CH_input.

(** The spin locks. *)
Inductive lockid :=
| L_kmem | L_ptable | L_bcache | L_ide | L_log | L_icache | L_ftable | L_cons | L_time
| L_pipe (p : Z).

#[global] Instance procstate_eq_dec : EqDecision procstate.
Proof. solve_decision. Defined.
#[global] Instance fdtype_eq_dec : EqDecision fdtype.
Proof. solve_decision. Defined.
#[global] Instance chan_eq_dec : EqDecision chan.
Proof. solve_decision. Defined.
#[global] Instance lockid_eq_dec : EqDecision lockid.
Proof. solve_decision. Defined.

Definition lockid_encode (l : lockid) : Z + Z :=
  match l with
  | L_kmem => inl 0 | L_ptable => inl 1 | L_bcache => inl 2 | L_ide => inl 3
  | L_log => inl 4 | L_icache => inl 5 | L_ftable => inl 6 | L_cons => inl 7
  | L_time => inl 8 | L_pipe p => inr p
  end.

Definition lockid_decode (x : Z + Z) : lockid :=
  match x with
  | inl 0 => L_kmem | inl 1 => L_ptable | inl 2 => L_bcache | inl 3 => L_ide
  | inl 4 => L_log | inl 5 => L_icache | inl 6 => L_ftable | inl 7 => L_cons
  | inl _ => L_time | inr p => L_pipe p
  end.

#[global] Instance lockid_countable : Countable lockid.
Proof. apply (inj_countable' lockid_encode lockid_decode). by intros []. Defined.

(** spinlock.h: [struct spinlock].  [pcs], the call stack recorded for debugging, is left out. *)
Record spinlock := mkLock {
  locked : Z;
  lk_name : string;
  lk_cpu : option Z
}.

(** kalloc.c: [kmem], without its lock (see [k_locks]). *)
Record kmem_t := mkKmem {
  use_lock : Z;
  freelist : Z
}.

(** proc.h: [struct cpu], the part the modelled code uses, and the processor's own state: [ifl] is the interrupt flag of EFLAGS, [cr3] the page-table register. *)
Record cpu_t := mkCpu {
  cpu_id : Z;
  ncli : Z;
  intena : bool;
  ifl : bool;
  cpu_proc : option nat;
  cr3 : Z;
  ts_ss0 : Z;
  ts_esp0 : Z
}.

(** proc.h: [struct proc].  [tf] and [context] are addresses in the kernel stack; [parent], [ofile] and [cwd] point into the process, file and inode tables. *)
Record proc_t := mkProc {
  sz : Z;
  pgdir : Z;
  heap_start : Z;
  kstack : Z;
  pstate : procstate;
  pid : Z;
  page_allocator_type : Z;
  parent : option nat;
  tf : Z;
  context : Z;
  pchan : option chan;
  killed : Z;
  ofile : list (option nat);
  cwd : option nat;
  pname : list Z
}.

(** buf.h: [struct buf]; [bprev] and [bnext] are indices into [bcache.buf], [NBUF] being [bcache.head]. *)
Record buf_t := mkBuf {
  bflags : Z;
  bdev : Z;
  blockno : Z;
  bprev : nat;
  bnext : nat;
  bqnext : option nat;
  bdata : list Z
}.

(** log.c: [struct log], with its header inlined. *)
Record log_t := mkLog {
  lstart : Z;
  lsize : Z;
  outstanding : Z;
  committing : Z;
  ldev : Z;
  lh_n : Z;
  lh_block : list Z
}.

(** fs.h: [struct superblock]. *)
Record superblock := mkSb {
  sb_size : Z;
  sb_nblocks : Z;
  sb_ninodes : Z;
  sb_nlog : Z;
  sb_logstart : Z;
  sb_inodestart : Z;
  sb_bmapstart : Z
}.

(** file.h: [struct inode]. *)
Record inode_t := mkInode {
  idev : Z;
  inum : Z;
  iref : Z;
  iflags : Z;
  itype : Z;
  imajor : Z;
  iminor : Z;
  inlink : Z;
  isize : Z;
  iaddrs : list Z
}.

(** file.h: [struct file]. *)
Record file_t := mkFile {
  ftype : fdtype;
  fref : Z;
  readable : Z;
  writable : Z;
  fpipe : Z;
  fip : option nat;
  foff : Z
}.

(** pipe.c: [struct pipe], without its lock. *)
Record pipe_t := mkPipe {
  pdata : list Z;
  nread : Z;
  nwrite : Z;
  readopen : Z;
  writeopen : Z
}.

(** console.c: [cons.locking] and [panicked], the CGA text memory [crt] and the cursor registers of the CRT controller, and the bytes sent to the serial port ([uart] says whether there is one). *)
Record cons_t := mkCons {
  locking : Z;
  panicked : Z;
  crt : Z -> Z;
  crtc_hi : Z;
  crtc_lo : Z;
  uart : Z;
  uart_out : list Z
}.

(** console.c: the [input] buffer. *)
Record input_t := mkInput {
  ibuf : list Z;
  input_r : Z;
  input_w : Z;
  input_e : Z
}.

(** The disks: the contents of each block, by device and block number, and the sequence of completed block writes, oldest first. *)
Record disk_t := mkDisk {
  dk_blocks : gmap (Z * Z) (list Z);
  dk_writes : list (Z * Z * list Z)
}.

(** The kernel's global variables, the machine's memory and its devices.  [k_cpu] is the processor the running thread is on. *)
Record kernel := mkKernel {
  k_mem : memory;
  k_kmem : kmem_t;
  k_free_frame_cnt : Z;
  k_kpgdir : Z;
  k_locks : gmap lockid spinlock;
  k_cpu : cpu_t;
  k_ptable : list proc_t;
  k_nextpid : Z;
  k_initproc : option nat;
  k_first : Z;
  k_ticks : Z;
  k_cons : cons_t;
  k_input : input_t;
  k_bcache : list buf_t;
  k_idequeue : option nat;
  k_havedisk1 : Z;
  k_disk : disk_t;
  k_log : log_t;
  k_sb : superblock;
  k_icache : list inode_t;
  k_ftable : list file_t;
  k_pipes : gmap Z pipe_t;
  k_devsw : list bool
}.

(** * Field updates *)

Definition set_locked (v : Z) (r : spinlock) : spinlock :=
  mkLock v (lk_name r) (lk_cpu r).
Definition set_lk_name (v : string) (r : spinlock) : spinlock :=
  mkLock (locked r) v (lk_cpu r).
Definition set_lk_cpu (v : option Z) (r : spinlock) : spinlock :=
  mkLock (locked r) (lk_name r) v.

Definition set_use_lock (v : Z) (r : kmem_t) : kmem_t :=
  mkKmem v (freelist r).
Definition set_freelist (v : Z) (r : kmem_t) : kmem_t :=
  mkKmem (use_lock r) v.

Definition set_cpu_id (v : Z) (r : cpu_t) : cpu_t :=
  mkCpu v (ncli r) (intena r) (ifl r) (cpu_proc r) (cr3 r) (ts_ss0 r) (ts_esp0 r).
Definition set_ncli (v : Z) (r : cpu_t) : cpu_t :=
  mkCpu (cpu_id r) v (intena r) (ifl r) (cpu_proc r) (cr3 r) (ts_ss0 r) (ts_esp0 r).
Definition set_intena (v : bool) (r : cpu_t) : cpu_t :=
  mkCpu (cpu_id r) (ncli r) v (ifl r) (cpu_proc r) (cr3 r) (ts_ss0 r) (ts_esp0 r).
Definition set_ifl (v : bool) (r : cpu_t) : cpu_t :=
  mkCpu (cpu_id r) (ncli r) (intena r) v (cpu_proc r) (cr3 r) (ts_ss0 r) (ts_esp0 r).
Definition set_cpu_proc (v : option nat) (r : cpu_t) : cpu_t :=
  mkCpu (cpu_id r) (ncli r) (intena r) (ifl r) v (cr3 r) (ts_ss0 r) (ts_esp0 r).
Definition set_cr3 (v : Z) (r : cpu_t) : cpu_t :=
  mkCpu (cpu_id r) (ncli r) (intena r) (ifl r) (cpu_proc r) v (ts_ss0 r) (ts_esp0 r).
Definition set_ts_ss0 (v : Z) (r : cpu_t) : cpu_t :=
  mkCpu (cpu_id r) (ncli r) (intena r) (ifl r) (cpu_proc r) (cr3 r) v (ts_esp0 r).
Definition set_ts_esp0 (v : Z) (r : cpu_t) : cpu_t :=
  mkCpu (cpu_id r) (ncli r) (intena r) (ifl r) (cpu_proc r) (cr3 r) (ts_ss0 r) v.

Definition set_sz (v : Z) (r : proc_t) : proc_t :=
  mkProc v (pgdir r) (heap_start r) (kstack r) (pstate r) (pid r) (page_allocator_type
    r) (parent r) (tf r) (context r) (pchan r) (killed r) (ofile r) (cwd r) (pname r).
Definition set_pgdir (v : Z) (r : proc_t) : proc_t :=
  mkProc (sz r) v (heap_start r) (kstack r) (pstate r) (pid r) (page_allocator_type r)
    (parent r) (tf r) (context r) (pchan r) (killed r) (ofile r) (cwd r) (pname r).
Definition set_heap_start (v : Z) (r : proc_t) : proc_t :=
  mkProc (sz r) (pgdir r) v (kstack r) (pstate r) (pid r) (page_allocator_type r)
    (parent r) (tf r) (context r) (pchan r) (killed r) (ofile r) (cwd r) (pname r).
Definition set_kstack (v : Z) (r : proc_t) : proc_t :=
  mkProc (sz r) (pgdir r) (heap_start r) v (pstate r) (pid r) (page_allocator_type r)
    (parent r) (tf r) (context r) (pchan r) (killed r) (ofile r) (cwd r) (pname r).
Definition set_pstate (v : procstate) (r : proc_t) : proc_t :=
  mkProc (sz r) (pgdir r) (heap_start r) (kstack r) v (pid r) (page_allocator_type r)
    (parent r) (tf r) (context r) (pchan r) (killed r) (ofile r) (cwd r) (pname r).
Definition set_pid (v : Z) (r : proc_t) : proc_t :=
  mkProc (sz r) (pgdir r) (heap_start r) (kstack r) (pstate r) v (page_allocator_type r)
    (parent r) (tf r) (context r) (pchan r) (killed r) (ofile r) (cwd r) (pname r).
Definition set_page_allocator_type (v : Z) (r : proc_t) : proc_t :=
  mkProc (sz r) (pgdir r) (heap_start r) (kstack r) (pstate r) (pid r) v (parent r) (tf
    r) (context r) (pchan r) (killed r) (ofile r) (cwd r) (pname r).
Definition set_parent (v : option nat) (r : proc_t) : proc_t :=
  mkProc (sz r) (pgdir r) (heap_start r) (kstack r) (pstate r) (pid r)
    (page_allocator_type r) v (tf r) (context r) (pchan r) (killed r) (ofile r) (cwd r)
    (pname r).
Definition set_tf (v : Z) (r : proc_t) : proc_t :=
  mkProc (sz r) (pgdir r) (heap_start r) (kstack r) (pstate r) (pid r)
    (page_allocator_type r) (parent r) v (context r) (pchan r) (killed r) (ofile r) (cwd
    r) (pname r).
Definition set_context (v : Z) (r : proc_t) : proc_t :=
  mkProc (sz r) (pgdir r) (heap_start r) (kstack r) (pstate r) (pid r)
    (page_allocator_type r) (parent r) (tf r) v (pchan r) (killed r) (ofile r) (cwd r)
    (pname r).
Definition set_pchan (v : option chan) (r : proc_t) : proc_t :=
  mkProc (sz r) (pgdir r) (heap_start r) (kstack r) (pstate r) (pid r)
    (page_allocator_type r) (parent r) (tf r) (context r) v (killed r) (ofile r) (cwd r)
    (pname r).
Definition set_killed (v : Z) (r : proc_t) : proc_t :=
  mkProc (sz r) (pgdir r) (heap_start r) (kstack r) (pstate r) (pid r)
    (page_allocator_type r) (parent r) (tf r) (context r) (pchan r) v (ofile r) (cwd r)
    (pname r).
Definition set_ofile (v : list (option nat)) (r : proc_t) : proc_t :=
  mkProc (sz r) (pgdir r) (heap_start r) (kstack r) (pstate r) (pid r)
    (page_allocator_type r) (parent r) (tf r) (context r) (pchan r) (killed r) v (cwd r)
    (pname r).
Definition set_cwd (v : option nat) (r : proc_t) : proc_t :=
  mkProc (sz r) (pgdir r) (heap_start r) (kstack r) (pstate r) (pid r)
    (page_allocator_type r) (parent r) (tf r) (context r) (pchan r) (killed r) (ofile r)
    v (pname r).
Definition set_pname (v : list Z) (r : proc_t) : proc_t :=
  mkProc (sz r) (pgdir r) (heap_start r) (kstack r) (pstate r) (pid r)
    (page_allocator_type r) (parent r) (tf r) (context r) (pchan r) (killed r) (ofile r)
    (cwd r) v.

Definition set_bflags (v : Z) (r : buf_t) : buf_t :=
  mkBuf v (bdev r) (blockno r) (bprev r) (bnext r) (bqnext r) (bdata r).
Definition set_bdev (v : Z) (r : buf_t) : buf_t :=
  mkBuf (bflags r) v (blockno r) (bprev r) (bnext r) (bqnext r) (bdata r).
Definition set_blockno (v : Z) (r : buf_t) : buf_t :=
  mkBuf (bflags r) (bdev r) v (bprev r) (bnext r) (bqnext r) (bdata r).
Definition set_bprev (v : nat) (r : buf_t) : buf_t :=
  mkBuf (bflags r) (bdev r) (blockno r) v (bnext r) (bqnext r) (bdata r).
Definition set_bnext (v : nat) (r : buf_t) : buf_t :=
  mkBuf (bflags r) (bdev r) (blockno r) (bprev r) v (bqnext r) (bdata r).
Definition set_bqnext (v : option nat) (r : buf_t) : buf_t :=
  mkBuf (bflags r) (bdev r) (blockno r) (bprev r) (bnext r) v (bdata r).
Definition set_bdata (v : list Z) (r : buf_t) : buf_t :=
  mkBuf (bflags r) (bdev r) (blockno r) (bprev r) (bnext r) (bqnext r) v.

Definition set_lstart (v : Z) (r : log_t) : log_t :=
  mkLog v (lsize r) (outstanding r) (committing r) (ldev r) (lh_n r) (lh_block r).
Definition set_lsize (v : Z) (r : log_t) : log_t :=
  mkLog (lstart r) v (outstanding r) (committing r) (ldev r) (lh_n r) (lh_block r).
Definition set_outstanding (v : Z) (r : log_t) : log_t :=
  mkLog (lstart r) (lsize r) v (committing r) (ldev r) (lh_n r) (lh_block r).
Definition set_committing (v : Z) (r : log_t) : log_t :=
  mkLog (lstart r) (lsize r) (outstanding r) v (ldev r) (lh_n r) (lh_block r).
Definition set_ldev (v : Z) (r : log_t) : log_t :=
  mkLog (lstart r) (lsize r) (outstanding r) (committing r) v (lh_n r) (lh_block r).
Definition set_lh_n (v : Z) (r : log_t) : log_t :=
  mkLog (lstart r) (lsize r) (outstanding r) (committing r) (ldev r) v (lh_block r).
Definition set_lh_block (v : list Z) (r : log_t) : log_t :=
  mkLog (lstart r) (lsize r) (outstanding r) (committing r) (ldev r) (lh_n r) v.

Definition set_sb_size (v : Z) (r : superblock) : superblock :=
  mkSb v (sb_nblocks r) (sb_ninodes r) (sb_nlog r) (sb_logstart r) (sb_inodestart r)
    (sb_bmapstart r).
Definition set_sb_nblocks (v : Z) (r : superblock) : superblock :=
  mkSb (sb_size r) v (sb_ninodes r) (sb_nlog r) (sb_logstart r) (sb_inodestart r)
    (sb_bmapstart r).
Definition set_sb_ninodes (v : Z) (r : superblock) : superblock :=
  mkSb (sb_size r) (sb_nblocks r) v (sb_nlog r) (sb_logstart r) (sb_inodestart r)
    (sb_bmapstart r).
Definition set_sb_nlog (v : Z) (r : superblock) : superblock :=
  mkSb (sb_size r) (sb_nblocks r) (sb_ninodes r) v (sb_logstart r) (sb_inodestart r)
    (sb_bmapstart r).
Definition set_sb_logstart (v : Z) (r : superblock) : superblock :=
  mkSb (sb_size r) (sb_nblocks r) (sb_ninodes r) (sb_nlog r) v (sb_inodestart r)
    (sb_bmapstart r).
Definition set_sb_inodestart (v : Z) (r : superblock) : superblock :=
  mkSb (sb_size r) (sb_nblocks r) (sb_ninodes r) (sb_nlog r) (sb_logstart r) v
    (sb_bmapstart r).
Definition set_sb_bmapstart (v : Z) (r : superblock) : superblock :=
  mkSb (sb_size r) (sb_nblocks r) (sb_ninodes r) (sb_nlog r) (sb_logstart r)
    (sb_inodestart r) v.

Definition set_idev (v : Z) (r : inode_t) : inode_t :=
  mkInode v (inum r) (iref r) (iflags r) (itype r) (imajor r) (iminor r) (inlink r)
    (isize r) (iaddrs r).
Definition set_inum (v : Z) (r : inode_t) : inode_t :=
  mkInode (idev r) v (iref r) (iflags r) (itype r) (imajor r) (iminor r) (inlink r)
    (isize r) (iaddrs r).
Definition set_iref (v : Z) (r : inode_t) : inode_t :=
  mkInode (idev r) (inum r) v (iflags r) (itype r) (imajor r) (iminor r) (inlink r)
    (isize r) (iaddrs r).
Definition set_iflags (v : Z) (r : inode_t) : inode_t :=
  mkInode (idev r) (inum r) (iref r) v (itype r) (imajor r) (iminor r) (inlink r) (isize
    r) (iaddrs r).
Definition set_itype (v : Z) (r : inode_t) : inode_t :=
  mkInode (idev r) (inum r) (iref r) (iflags r) v (imajor r) (iminor r) (inlink r)
    (isize r) (iaddrs r).
Definition set_imajor (v : Z) (r : inode_t) : inode_t :=
  mkInode (idev r) (inum r) (iref r) (iflags r) (itype r) v (iminor r) (inlink r) (isize
    r) (iaddrs r).
Definition set_iminor (v : Z) (r : inode_t) : inode_t :=
  mkInode (idev r) (inum r) (iref r) (iflags r) (itype r) (imajor r) v (inlink r) (isize
    r) (iaddrs r).
Definition set_inlink (v : Z) (r : inode_t) : inode_t :=
  mkInode (idev r) (inum r) (iref r) (iflags r) (itype r) (imajor r) (iminor r) v (isize
    r) (iaddrs r).
Definition set_isize (v : Z) (r : inode_t) : inode_t :=
  mkInode (idev r) (inum r) (iref r) (iflags r) (itype r) (imajor r) (iminor r) (inlink
    r) v (iaddrs r).
Definition set_iaddrs (v : list Z) (r : inode_t) : inode_t :=
  mkInode (idev r) (inum r) (iref r) (iflags r) (itype r) (imajor r) (iminor r) (inlink
    r) (isize r) v.

Definition set_ftype (v : fdtype) (r : file_t) : file_t :=
  mkFile v (fref r) (readable r) (writable r) (fpipe r) (fip r) (foff r).
Definition set_fref (v : Z) (r : file_t) : file_t :=
  mkFile (ftype r) v (readable r) (writable r) (fpipe r) (fip r) (foff r).
Definition set_readable (v : Z) (r : file_t) : file_t :=
  mkFile (ftype r) (fref r) v (writable r) (fpipe r) (fip r) (foff r).
Definition set_writable (v : Z) (r : file_t) : file_t :=
  mkFile (ftype r) (fref r) (readable r) v (fpipe r) (fip r) (foff r).
Definition set_fpipe (v : Z) (r : file_t) : file_t :=
  mkFile (ftype r) (fref r) (readable r) (writable r) v (fip r) (foff r).
Definition set_fip (v : option nat) (r : file_t) : file_t :=
  mkFile (ftype r) (fref r) (readable r) (writable r) (fpipe r) v (foff r).
Definition set_foff (v : Z) (r : file_t) : file_t :=
  mkFile (ftype r) (fref r) (readable r) (writable r) (fpipe r) (fip r) v.

Definition set_pdata (v : list Z) (r : pipe_t) : pipe_t :=
  mkPipe v (nread r) (nwrite r) (readopen r) (writeopen r).
Definition set_nread (v : Z) (r : pipe_t) : pipe_t :=
  mkPipe (pdata r) v (nwrite r) (readopen r) (writeopen r).
Definition set_nwrite (v : Z) (r : pipe_t) : pipe_t :=
  mkPipe (pdata r) (nread r) v (readopen r) (writeopen r).
Definition set_readopen (v : Z) (r : pipe_t) : pipe_t :=
  mkPipe (pdata r) (nread r) (nwrite r) v (writeopen r).
Definition set_writeopen (v : Z) (r : pipe_t) : pipe_t :=
  mkPipe (pdata r) (nread r) (nwrite r) (readopen r) v.

Definition set_locking (v : Z) (r : cons_t) : cons_t :=
  mkCons v (panicked r) (crt r) (crtc_hi r) (crtc_lo r) (uart r) (uart_out r).
Definition set_panicked (v : Z) (r : cons_t) : cons_t :=
  mkCons (locking r) v (crt r) (crtc_hi r) (crtc_lo r) (uart r) (uart_out r).
Definition set_crt (v : Z -> Z) (r : cons_t) : cons_t :=
  mkCons (locking r) (panicked r) v (crtc_hi r) (crtc_lo r) (uart r) (uart_out r).
Definition set_crtc_hi (v : Z) (r : cons_t) : cons_t :=
  mkCons (locking r) (panicked r) (crt r) v (crtc_lo r) (uart r) (uart_out r).
Definition set_crtc_lo (v : Z) (r : cons_t) : cons_t :=
  mkCons (locking r) (panicked r) (crt r) (crtc_hi r) v (uart r) (uart_out r).
Definition set_uart (v : Z) (r : cons_t) : cons_t :=
  mkCons (locking r) (panicked r) (crt r) (crtc_hi r) (crtc_lo r) v (uart_out r).
Definition set_uart_out (v : list Z) (r : cons_t) : cons_t :=
  mkCons (locking r) (panicked r) (crt r) (crtc_hi r) (crtc_lo r) (uart r) v.

Definition set_ibuf (v : list Z) (r : input_t) : input_t :=
  mkInput v (input_r r) (input_w r) (input_e r).
Definition set_input_r (v : Z) (r : input_t) : input_t :=
  mkInput (ibuf r) v (input_w r) (input_e r).
Definition set_input_w (v : Z) (r : input_t) : input_t :=
  mkInput (ibuf r) (input_r r) v (input_e r).
Definition set_input_e (v : Z) (r : input_t) : input_t :=
  mkInput (ibuf r) (input_r r) (input_w r) v.

Definition set_dk_blocks (v : gmap (Z * Z) (list Z)) (r : disk_t) : disk_t :=
  mkDisk v (dk_writes r).
Definition set_dk_writes (v : list (Z * Z * list Z)) (r : disk_t) : disk_t :=
  mkDisk (dk_blocks r) v.

Definition set_k_mem (v : memory) (r : kernel) : kernel :=
  mkKernel v (k_kmem r) (k_free_frame_cnt r) (k_kpgdir r) (k_locks r) (k_cpu r)
    (k_ptable r) (k_nextpid r) (k_initproc r) (k_first r) (k_ticks r) (k_cons r)
    (k_input r) (k_bcache r) (k_idequeue r) (k_havedisk1 r) (k_disk r) (k_log r) (k_sb
    r) (k_icache r) (k_ftable r) (k_pipes r) (k_devsw r).
Definition set_k_kmem (v : kmem_t) (r : kernel) : kernel :=
  mkKernel (k_mem r) v (k_free_frame_cnt r) (k_kpgdir r) (k_locks r) (k_cpu r) (k_ptable
    r) (k_nextpid r) (k_initproc r) (k_first r) (k_ticks r) (k_cons r) (k_input r)
    (k_bcache r) (k_idequeue r) (k_havedisk1 r) (k_disk r) (k_log r) (k_sb r) (k_icache
    r) (k_ftable r) (k_pipes r) (k_devsw r).
Definition set_k_free_frame_cnt (v : Z) (r : kernel) : kernel :=
  mkKernel (k_mem r) (k_kmem r) v (k_kpgdir r) (k_locks r) (k_cpu r) (k_ptable r)
    (k_nextpid r) (k_initproc r) (k_first r) (k_ticks r) (k_cons r) (k_input r)
    (k_bcache r) (k_idequeue r) (k_havedisk1 r) (k_disk r) (k_log r) (k_sb r) (k_icache
    r) (k_ftable r) (k_pipes r) (k_devsw r).
Definition set_k_kpgdir (v : Z) (r : kernel) : kernel :=
  mkKernel (k_mem r) (k_kmem r) (k_free_frame_cnt r) v (k_locks r) (k_cpu r) (k_ptable
    r) (k_nextpid r) (k_initproc r) (k_first r) (k_ticks r) (k_cons r) (k_input r)
    (k_bcache r) (k_idequeue r) (k_havedisk1 r) (k_disk r) (k_log r) (k_sb r) (k_icache
    r) (k_ftable r) (k_pipes r) (k_devsw r).
Definition set_k_locks (v : gmap lockid spinlock) (r : kernel) : kernel :=
  mkKernel (k_mem r) (k_kmem r) (k_free_frame_cnt r) (k_kpgdir r) v (k_cpu r) (k_ptable
    r) (k_nextpid r) (k_initproc r) (k_first r) (k_ticks r) (k_cons r) (k_input r)
    (k_bcache r) (k_idequeue r) (k_havedisk1 r) (k_disk r) (k_log r) (k_sb r) (k_icache
    r) (k_ftable r) (k_pipes r) (k_devsw r).
Definition set_k_cpu (v : cpu_t) (r : kernel) : kernel :=
  mkKernel (k_mem r) (k_kmem r) (k_free_frame_cnt r) (k_kpgdir r) (k_locks r) v
    (k_ptable r) (k_nextpid r) (k_initproc r) (k_first r) (k_ticks r) (k_cons r)
    (k_input r) (k_bcache r) (k_idequeue r) (k_havedisk1 r) (k_disk r) (k_log r) (k_sb
    r) (k_icache r) (k_ftable r) (k_pipes r) (k_devsw r).
Definition set_k_ptable (v : list proc_t) (r : kernel) : kernel :=
  mkKernel (k_mem r) (k_kmem r) (k_free_frame_cnt r) (k_kpgdir r) (k_locks r) (k_cpu r)
    v (k_nextpid r) (k_initproc r) (k_first r) (k_ticks r) (k_cons r) (k_input r)
    (k_bcache r) (k_idequeue r) (k_havedisk1 r) (k_disk r) (k_log r) (k_sb r) (k_icache
    r) (k_ftable r) (k_pipes r) (k_devsw r).
Definition set_k_nextpid (v : Z) (r : kernel) : kernel :=
  mkKernel (k_mem r) (k_kmem r) (k_free_frame_cnt r) (k_kpgdir r) (k_locks r) (k_cpu r)
    (k_ptable r) v (k_initproc r) (k_first r) (k_ticks r) (k_cons r) (k_input r)
    (k_bcache r) (k_idequeue r) (k_havedisk1 r) (k_disk r) (k_log r) (k_sb r) (k_icache
    r) (k_ftable r) (k_pipes r) (k_devsw r).
Definition set_k_initproc (v : option nat) (r : kernel) : kernel :=
  mkKernel (k_mem r) (k_kmem r) (k_free_frame_cnt r) (k_kpgdir r) (k_locks r) (k_cpu r)
    (k_ptable r) (k_nextpid r) v (k_first r) (k_ticks r) (k_cons r) (k_input r)
    (k_bcache r) (k_idequeue r) (k_havedisk1 r) (k_disk r) (k_log r) (k_sb r) (k_icache
    r) (k_ftable r) (k_pipes r) (k_devsw r).
Definition set_k_first (v : Z) (r : kernel) : kernel :=
  mkKernel (k_mem r) (k_kmem r) (k_free_frame_cnt r) (k_kpgdir r) (k_locks r) (k_cpu r)
    (k_ptable r) (k_nextpid r) (k_initproc r) v (k_ticks r) (k_cons r) (k_input r)
    (k_bcache r) (k_idequeue r) (k_havedisk1 r) (k_disk r) (k_log r) (k_sb r) (k_icache
    r) (k_ftable r) (k_pipes r) (k_devsw r).
Definition set_k_ticks (v : Z) (r : kernel) : kernel :=
  mkKernel (k_mem r) (k_kmem r) (k_free_frame_cnt r) (k_kpgdir r) (k_locks r) (k_cpu r)
    (k_ptable r) (k_nextpid r) (k_initproc r) (k_first r) v (k_cons r) (k_input r)
    (k_bcache r) (k_idequeue r) (k_havedisk1 r) (k_disk r) (k_log r) (k_sb r) (k_icache
    r) (k_ftable r) (k_pipes r) (k_devsw r).
Definition set_k_cons (v : cons_t) (r : kernel) : kernel :=
  mkKernel (k_mem r) (k_kmem r) (k_free_frame_cnt r) (k_kpgdir r) (k_locks r) (k_cpu r)
    (k_ptable r) (k_nextpid r) (k_initproc r) (k_first r) (k_ticks r) v (k_input r)
    (k_bcache r) (k_idequeue r) (k_havedisk1 r) (k_disk r) (k_log r) (k_sb r) (k_icache
    r) (k_ftable r) (k_pipes r) (k_devsw r).
Definition set_k_input (v : input_t) (r : kernel) : kernel :=
  mkKernel (k_mem r) (k_kmem r) (k_free_frame_cnt r) (k_kpgdir r) (k_locks r) (k_cpu r)
    (k_ptable r) (k_nextpid r) (k_initproc r) (k_first r) (k_ticks r) (k_cons r) v
    (k_bcache r) (k_idequeue r) (k_havedisk1 r) (k_disk r) (k_log r) (k_sb r) (k_icache
    r) (k_ftable r) (k_pipes r) (k_devsw r).
Definition set_k_bcache (v : list buf_t) (r : kernel) : kernel :=
  mkKernel (k_mem r) (k_kmem r) (k_free_frame_cnt r) (k_kpgdir r) (k_locks r) (k_cpu r)
    (k_ptable r) (k_nextpid r) (k_initproc r) (k_first r) (k_ticks r) (k_cons r)
    (k_input r) v (k_idequeue r) (k_havedisk1 r) (k_disk r) (k_log r) (k_sb r) (k_icache
    r) (k_ftable r) (k_pipes r) (k_devsw r).
Definition set_k_idequeue (v : option nat) (r : kernel) : kernel :=
  mkKernel (k_mem r) (k_kmem r) (k_free_frame_cnt r) (k_kpgdir r) (k_locks r) (k_cpu r)
    (k_ptable r) (k_nextpid r) (k_initproc r) (k_first r) (k_ticks r) (k_cons r)
    (k_input r) (k_bcache r) v (k_havedisk1 r) (k_disk r) (k_log r) (k_sb r) (k_icache
    r) (k_ftable r) (k_pipes r) (k_devsw r).
Definition set_k_havedisk1 (v : Z) (r : kernel) : kernel :=
  mkKernel (k_mem r) (k_kmem r) (k_free_frame_cnt r) (k_kpgdir r) (k_locks r) (k_cpu r)
    (k_ptable r) (k_nextpid r) (k_initproc r) (k_first r) (k_ticks r) (k_cons r)
    (k_input r) (k_bcache r) (k_idequeue r) v (k_disk r) (k_log r) (k_sb r) (k_icache r)
    (k_ftable r) (k_pipes r) (k_devsw r).
Definition set_k_disk (v : disk_t) (r : kernel) : kernel :=
  mkKernel (k_mem r) (k_kmem r) (k_free_frame_cnt r) (k_kpgdir r) (k_locks r) (k_cpu r)
    (k_ptable r) (k_nextpid r) (k_initproc r) (k_first r) (k_ticks r) (k_cons r)
    (k_input r) (k_bcache r) (k_idequeue r) (k_havedisk1 r) v (k_log r) (k_sb r)
    (k_icache r) (k_ftable r) (k_pipes r) (k_devsw r).
Definition set_k_log (v : log_t) (r : kernel) : kernel :=
  mkKernel (k_mem r) (k_kmem r) (k_free_frame_cnt r) (k_kpgdir r) (k_locks r) (k_cpu r)
    (k_ptable r) (k_nextpid r) (k_initproc r) (k_first r) (k_ticks r) (k_cons r)
    (k_input r) (k_bcache r) (k_idequeue r) (k_havedisk1 r) (k_disk r) v (k_sb r)
    (k_icache r) (k_ftable r) (k_pipes r) (k_devsw r).
Definition set_k_sb (v : superblock) (r : kernel) : kernel :=
  mkKernel (k_mem r) (k_kmem r) (k_free_frame_cnt r) (k_kpgdir r) (k_locks r) (k_cpu r)
    (k_ptable r) (k_nextpid r) (k_initproc r) (k_first r) (k_ticks r) (k_cons r)
    (k_input r) (k_bcache r) (k_idequeue r) (k_havedisk1 r) (k_disk r) (k_log r) v
    (k_icache r) (k_ftable r) (k_pipes r) (k_devsw r).
Definition set_k_icache (v : list inode_t) (r : kernel) : kernel :=
  mkKernel (k_mem r) (k_kmem r) (k_free_frame_cnt r) (k_kpgdir r) (k_locks r) (k_cpu r)
    (k_ptable r) (k_nextpid r) (k_initproc r) (k_first r) (k_ticks r) (k_cons r)
    (k_input r) (k_bcache r) (k_idequeue r) (k_havedisk1 r) (k_disk r) (k_log r) (k_sb
    r) v (k_ftable r) (k_pipes r) (k_devsw r).
Definition set_k_ftable (v : list file_t) (r : kernel) : kernel :=
  mkKernel (k_mem r) (k_kmem r) (k_free_frame_cnt r) (k_kpgdir r) (k_locks r) (k_cpu r)
    (k_ptable r) (k_nextpid r) (k_initproc r) (k_first r) (k_ticks r) (k_cons r)
    (k_input r) (k_bcache r) (k_idequeue r) (k_havedisk1 r) (k_disk r) (k_log r) (k_sb
    r) (k_icache r) v (k_pipes r) (k_devsw r).
Definition set_k_pipes (v : gmap Z pipe_t) (r : kernel) : kernel :=
  mkKernel (k_mem r) (k_kmem r) (k_free_frame_cnt r) (k_kpgdir r) (k_locks r) (k_cpu r)
    (k_ptable r) (k_nextpid r) (k_initproc r) (k_first r) (k_ticks r) (k_cons r)
    (k_input r) (k_bcache r) (k_idequeue r) (k_havedisk1 r) (k_disk r) (k_log r) (k_sb
    r) (k_icache r) (k_ftable r) v (k_devsw r).
Definition set_k_devsw (v : list bool) (r : kernel) : kernel :=
  mkKernel (k_mem r) (k_kmem r) (k_free_frame_cnt r) (k_kpgdir r) (k_locks r) (k_cpu r)
    (k_ptable r) (k_nextpid r) (k_initproc r) (k_first r) (k_ticks r) (k_cons r)
    (k_input r) (k_bcache r) (k_idequeue r) (k_havedisk1 r) (k_disk r) (k_log r) (k_sb
    r) (k_icache r) (k_ftable r) (k_pipes r) v.
(** The kernel monad at the kernel's state. *)
Abbreviation K := (M kernel).

(** What the linker script and the assembly files provide: the end of the kernel
    image and the start of its data, the entry points [trapret] and [forkret] of a
    new process, the interrupt entry points, and the program the first process
    runs. *)
Class Symbols := {
  sym_end : Z;
  sym_data : Z;
  sym_trapret : Z;
  sym_forkret : Z;
  sym_vectors : Z -> Z;
  sym_initcode : list Z;
  sym_fs_img_size : Z
}.

(** What the linker script guarantees about the kernel image. *)
Class SymbolsOk `{Symbols} : Prop := {
  sym_data_lo : KERNLINK < sym_data;
  sym_data_align : sym_data mod PGSIZE = 0;
  sym_data_end : sym_data <= sym_end;
  sym_end_hi : sym_end < KERNBASE + 4 * 1024 * 1024
}.

(** The values of the kernel built in the repository (kernel.sym, initcode), with
    distinct stand-ins for the 256 interrupt entry points. *)
Definition built_symbols : Symbols := {|
  sym_end := 0x80116360;
  sym_data := 0x8010a000;
  sym_trapret := 0x8010684c;
  sym_forkret := 0x80104da5;
  sym_vectors := fun i => 0x8010685a + 9 * i;
  sym_initcode := [
    104; 36; 0; 0; 0; 104; 28; 0; 0; 0; 106; 0; 184; 7; 0; 0; 0; 205; 64; 184;
    2; 0; 0; 0; 205; 64; 235; 247; 47; 105; 110; 105; 116; 0; 0; 144; 28; 0; 0;
    0; 0; 0; 0; 0];
  sym_fs_img_size := 512000
|}.

#[global] Instance built_symbols_ok : @SymbolsOk built_symbols.
Proof. split; by vm_compute. Qed.

(** Memory and variables when the kernel starts: everything is zero, except for
    the initialised variables ([nextpid = 1] in proc.c, [first = 1] in [forkret]). *)
Definition zero_proc : proc_t :=
  mkProc 0 0 0 0 UNUSED 0 0 None 0 0 None 0 (replicate (Z.to_nat NOFILE) None) None
    (replicate 16 0).
Definition zero_buf : buf_t := mkBuf 0 0 0 0 0 None (replicate (Z.to_nat BSIZE) 0).
Definition zero_inode : inode_t := mkInode 0 0 0 0 0 0 0 0 0 (replicate 13 0).
Definition zero_file : file_t := mkFile FD_NONE 0 0 0 0 None 0.

Definition boot_state : kernel := {|
  k_mem := fun _ => 0;
  k_kmem := mkKmem 0 0;
  k_free_frame_cnt := 0;
  k_kpgdir := 0;
  k_locks := ∅;
  k_cpu := mkCpu 0 0 false false None 0 0 0;
  k_ptable := replicate (Z.to_nat NPROC) zero_proc;
  k_nextpid := 1;
  k_initproc := None;
  k_first := 1;
  k_ticks := 0;
  k_cons := mkCons 0 0 (fun _ => 0) 0 0 0 [];
  k_input := mkInput (replicate 128 0) 0 0 0;
  k_bcache := replicate (Z.to_nat (NBUF + 1)) zero_buf;
  k_idequeue := None;
  k_havedisk1 := 0;
  k_disk := mkDisk ∅ [];
  k_log := mkLog 0 0 0 0 0 0 (replicate (Z.to_nat LOGSIZE) 0);
  k_sb := mkSb 0 0 0 0 0 0 0;
  k_icache := replicate (Z.to_nat NINODE) zero_inode;
  k_ftable := replicate (Z.to_nat NFILE) zero_file;
  k_pipes := ∅;
  k_devsw := replicate (Z.to_nat NDEV) false
|}.
