(* ===== verification/Spinlock.v ===== *)
(** spinlock.c: mutual-exclusion spin locks and the nesting of interrupt
    disabling.

    The functions are translated as the code of one processor: [acquire] spins while
    another processor holds the lock, and each failed attempt lets the rest of the system
    take a step of the environment.  The array [pcs] of a lock, which only a debugger
    reads, is left out.  Smp.v has all the processors at once, at the granularity of
    single memory accesses, and proves mutual exclusion. *)

From S2P Require Import Prelude Params Mem State.

Definition set_lock (lk : lockid) (l : spinlock) (s : kernel) : kernel :=
  set_k_locks (<[lk := l]> (k_locks s)) s.

(** The record of a lock; a lock nobody initialised is all zero. *)
Definition lock_of (lk : lockid) (s : kernel) : spinlock :=
  default (mkLock 0 EmptyString None) (k_locks s !! lk).

Definition on_cpu (f : cpu_t -> cpu_t) (s : kernel) : kernel := set_k_cpu (f (k_cpu s)) s.

(** x86.h *)
Definition readeflags_if : K bool := get (fun s => ifl (k_cpu s)).
Definition cli : K unit := modify (on_cpu (set_ifl false)).
Definition sti : K unit := modify (on_cpu (set_ifl true)).

Definition xchg (lk : lockid) (newval : Z) : K Z :=
  result ← get (fun s => locked (lock_of lk s));
  modify (fun s => set_lock lk (set_locked newval (lock_of lk s)) s);;
  mret result.

Definition initlock (lk : lockid) (name : string) : K unit :=
  modify (fun s => set_lock lk (mkLock 0 name None) s).

(** Check whether this cpu is holding the lock. *)
Definition holding (lk : lockid) : K bool :=
  get (fun s =>
    cbool (locked (lock_of lk s)) &&
    bool_decide (lk_cpu (lock_of lk s) = Some (cpu_id (k_cpu s)))).

Definition pushcli : K unit :=
  eflags ← readeflags_if;
  cli;;
  n ← get (fun s => ncli (k_cpu s));
  modify (on_cpu (set_ncli (n + 1)));;
  when (n =? 0) (modify (on_cpu (set_intena eflags))).

Definition popcli : K unit :=
  eflags ← readeflags_if;
  if (eflags : bool) then panic "popcli - interruptible" else
  n ← get (fun s => ncli (k_cpu s) - 1);
  modify (on_cpu (set_ncli n));;
  if n <? 0 then panic "popcli" else
  ie ← get (fun s => intena (k_cpu s));
  when ((n =? 0) && ie) sti.

(** [while(xchg(&lk->locked, 1) != 0);] *)
Fixpoint spin_env (lk : lockid) (e : env kernel) (s : kernel) : outcome kernel unit :=
  match xchg lk 1 e s with
  | Done old _ s' =>
      if old =? 0 then Done tt e s'
      else match e with
           | [] => Blocked s'
           | f :: e' => spin_env lk e' (f s')
           end
  | Panic msg s' => Panic msg s'
  | Blocked s' => Blocked s'
  | NoFuel => NoFuel
  end.

Definition spin (lk : lockid) : K unit := spin_env lk.

Definition acquire (lk : lockid) : K unit :=
  pushcli;;
  h ← holding lk;
  if (h : bool) then panic "acquire" else
  spin lk;;
  modify (fun s => set_lock lk (set_lk_cpu (Some (cpu_id (k_cpu s))) (lock_of lk s)) s).

Definition release (lk : lockid) : K unit :=
  h ← holding lk;
  if negb h then panic "release" else
  modify (fun s => set_lock lk (set_lk_cpu None (lock_of lk s)) s);;
  xchg lk 0;;
  popcli.

(** [getcallerpcs]: walk the saved %ebp chain from [v], ten frames at most. *)
Fixpoint getcallerpcs_walk (m : memory) (ebp : Z) (n : nat) : list Z :=
  match n with
  | O => []
  | S n' =>
      if (ebp =? 0) || (ebp <? KERNBASE) || (ebp =? 0xffffffff)
      then replicate n 0
      else ld32 m (v2p (ebp + 4)) :: getcallerpcs_walk m (ld32 m (v2p ebp)) n'
  end.

Definition getcallerpcs (m : memory) (v : Z) : list Z := getcallerpcs_walk m (u32 (v - 8)) 10.

(** * What [acquire] and [release] do when nobody else holds the lock *)

(** The interrupt bookkeeping of a processor: with no [pushcli] outstanding,
    [intena] mirrors the interrupt flag, and inside one interrupts are off. *)
Definition irq_ok (s : kernel) : Prop :=
  0 <= ncli (k_cpu s) /\
  (if ncli (k_cpu s) =? 0 then intena (k_cpu s) = ifl (k_cpu s) else ifl (k_cpu s) = false).

Definition unlocked (lk : lockid) (s : kernel) : Prop :=
  exists nm, k_locks s !! lk = Some (mkLock 0 nm None).

(** The lock can be taken, and given back, without spinning. *)
Definition ready (lk : lockid) (s : kernel) : Prop := irq_ok s /\ unlocked lk s.

(** The effect of [pushcli] on a processor. *)
Definition pushed (c : cpu_t) : cpu_t :=
  mkCpu (cpu_id c) (ncli c + 1) (if ncli c =? 0 then ifl c else intena c) false
    (cpu_proc c) (cr3 c) (ts_ss0 c) (ts_esp0 c).

(** The state of [s] with [lk] held by this processor. *)
Definition acquired (lk : lockid) (s : kernel) : kernel :=
  set_lock lk (mkLock 1 (lk_name (lock_of lk s)) (Some (cpu_id (k_cpu s)))) (on_cpu pushed s).

Lemma lock_of_set_lock lk l s : lock_of lk (set_lock lk l s) = l.
Proof. unfold lock_of. simpl. by rewrite lookup_insert_eq. Qed.

Lemma set_lock_set_lock lk l l' s : set_lock lk l (set_lock lk l' s) = set_lock lk l s.
Proof. unfold set_lock. simpl. by rewrite insert_insert_eq. Qed.

Lemma set_lock_id lk s l : k_locks s !! lk = Some l -> set_lock lk l s = s.
Proof. intros H. unfold set_lock. rewrite insert_id by done. by destruct s. Qed.

Lemma unlocked_lock_of lk s :
  unlocked lk s -> locked (lock_of lk s) = 0 /\ lk_cpu (lock_of lk s) = None.
Proof. intros [nm H]. unfold lock_of. by rewrite H. Qed.

(** The bookkeeping survives taking a lock: nested critical sections. *)
Lemma irq_ok_acquired lk s : irq_ok s -> irq_ok (acquired lk s).
Proof. unfold irq_ok. simpl. intros [? _]. split; [lia|]. by zif. Qed.

Lemma unlocked_acquired lk lk' s : lk <> lk' -> unlocked lk' s -> unlocked lk' (acquired lk s).
Proof. intros Hne [nm H]. exists nm. simpl. by rewrite lookup_insert_ne. Qed.

Lemma ready_acquired lk lk' s : lk <> lk' -> ready lk' s -> ready lk' (acquired lk s).
Proof. intros ? [? ?]. split; [by apply irq_ok_acquired|by apply unlocked_acquired]. Qed.

Lemma pushcli_eq e s : pushcli e s = Done tt e (on_cpu pushed s).
Proof.
  unfold pushcli, when, mbind, M_bind. simpl. unfold on_cpu, pushed. simpl.
  by destruct (ncli (k_cpu s) =? 0).
Qed.

Lemma spin_free lk e s :
  locked (lock_of lk s) = 0 ->
  spin lk e s = Done tt e (set_lock lk (set_locked 1 (lock_of lk s)) s).
Proof.
  intros H. unfold spin. destruct e; simpl; unfold xchg, mbind, M_bind; simpl; by rewrite H.
Qed.

(** [popcli] undoes [pushcli]: the interrupt flag is what it was. *)
Lemma popcli_pushed e s : irq_ok s -> popcli e (on_cpu pushed s) = Done tt e s.
Proof.
  intros [Hn Hi]. unfold popcli, when, mbind, M_bind. simpl.
  replace (ncli (k_cpu s) + 1 - 1) with (ncli (k_cpu s)) by lia.
  destruct (ncli (k_cpu s) <? 0) eqn:E1; [lia|]. unfold on_cpu; simpl.
  destruct s as [? ? ? ? ? [id n ie fl p cr ss sp] ? ? ? ? ? ? ? ? ? ? ? ? ? ? ? ? ?].
  unfold set_k_cpu, pushed; simpl in *. destruct (n =? 0); simpl; subst; [by destruct fl|done].
Qed.

Lemma acquire_ready lk e s : ready lk s -> acquire lk e s = Done tt e (acquired lk s).
Proof.
  intros [_ Hu]. pose proof (unlocked_lock_of lk s Hu) as [Hl Hc].
  unfold acquire. erewrite bind_Done by apply pushcli_eq.
  assert (lock_of lk (on_cpu pushed s) = lock_of lk s) as Hlk by done.
  erewrite bind_Done by done. rewrite Hlk, Hl. simpl.
  erewrite bind_Done by (apply spin_free; by rewrite Hlk).
  unfold modify. rewrite lock_of_set_lock, set_lock_set_lock. by rewrite Hlk.
Qed.

Lemma release_acquired lk e s : ready lk s -> release lk e (acquired lk s) = Done tt e s.
Proof.
  intros [Hirq [nm Hu]]. unfold release, acquired.
  erewrite bind_Done by done. rewrite lock_of_set_lock. simpl.
  rewrite bool_decide_true by done. simpl.
  erewrite bind_Done by done. rewrite set_lock_set_lock.
  unfold xchg, mbind at 1 2 3, M_bind. simpl.
  rewrite !lock_of_set_lock, set_lock_set_lock.
  unfold lock_of. rewrite Hu. simpl.
  rewrite set_lock_id by done. by apply popcli_pushed.
Qed.

Lemma wp_acquire lk (Q : unit -> env kernel -> kernel -> Prop) e s :
  ready lk s -> Q tt e (acquired lk s) -> wp (acquire lk) Q e s.
Proof. intros Hr HQ. unfold wp. by rewrite acquire_ready. Qed.

(** The form used to close a critical section: the state is the acquired
    version of [s'] for the new contents [s'] of the protected variables. *)
Lemma wp_release lk (Q : unit -> env kernel -> kernel -> Prop) e s s' :
  s = acquired lk s' -> ready lk s' -> Q tt e s' -> wp (release lk) Q e s.
Proof. intros -> Hr HQ. unfold wp. by rewrite release_acquired. Qed.
