(* ===== verification/Smp.v ===== *)
(** spinlock.c on several processors: mutual exclusion.

    Spinlock.v translates the functions as one processor runs them.  Here all processors
    use one lock at the same time, from ordinary kernel code and from interrupt handlers,
    and their instructions interleave: a step is one access to the lock, to the
    processor's own variables or to its interrupt flag.  [instr] runs the next instruction
    of [acquire], of the critical section or of [release]; [irq] is an interrupt whose
    handler takes the lock too, which can only happen while interrupts are enabled. *)

From S2P Require Import Prelude Params Mem State Spinlock.

(** * The instructions *)

(** Where a processor is in its use of the lock; the arguments are local variables. *)
Inductive pc :=
| Idle
| Push_eflags                    (* pushcli: eflags = readeflags() *)
| Push_cli (eflags : bool)       (* cli() *)
| Push_ncli (eflags : bool)      (* if(cpu->ncli++ == 0) cpu->intena = eflags & FL_IF *)
| Acq_locked                     (* holding: lock->locked *)
| Acq_cpu (l : Z)                (* holding: && lock->cpu == cpu; panic *)
| Acq_xchg                       (* while(xchg(&lk->locked, 1) != 0) *)
| Acq_record                     (* lk->cpu = cpu *)
| Critical
| Rel_locked                     (* holding: lock->locked *)
| Rel_cpu (l : Z)                (* holding: && lock->cpu == cpu; panic *)
| Rel_record                     (* lk->cpu = 0 *)
| Rel_xchg                       (* xchg(&lk->locked, 0) *)
| Pop_eflags                     (* popcli: if(readeflags()&FL_IF) panic *)
| Pop_ncli                       (* if(--cpu->ncli < 0) panic *)
| Pop_sti                        (* if(cpu->ncli == 0 && cpu->intena) sti() *)
| Panicked (msg : string).

(** One processor: the kernel code it runs and, while it serves an interrupt, the code that
    was interrupted under it; its [ncli] and [intena]; its interrupt flag. *)
Record core := mkCore {
  c_pc : pc;
  c_below : option pc;
  c_ncli : Z;
  c_intena : bool;
  c_if : bool
}.

Record smp := mkSmp { s_lock : spinlock; s_core : Z -> core }.

Definition upd (i : Z) (c : core) (f : Z -> core) : Z -> core :=
  fun j => if decide (j = i) then c else f j.

Definition at_pc (p : pc) (c : core) : core :=
  mkCore p (c_below c) (c_ncli c) (c_intena c) (c_if c).

(** The end of [release]: the caller goes on, or the handler returns to the code under it,
    with interrupts enabled as they were when it was interrupted. *)
Definition finish (c : core) : core :=
  match c_below c with
  | None => at_pc Idle c
  | Some p => mkCore p None (c_ncli c) (c_intena c) true
  end.

(** The next instruction of processor [i], on the lock and on its own variables. *)
Definition next (i : Z) (k : spinlock) (c : core) : spinlock * core :=
  match c_pc c with
  | Idle => (k, at_pc Push_eflags c)
  | Push_eflags => (k, at_pc (Push_cli (c_if c)) c)
  | Push_cli eflags => (k, mkCore (Push_ncli eflags) (c_below c) (c_ncli c) (c_intena c) false)
  | Push_ncli eflags =>
      (k, mkCore Acq_locked (c_below c) (c_ncli c + 1)
            (if c_ncli c =? 0 then eflags else c_intena c) (c_if c))
  | Acq_locked => (k, at_pc (Acq_cpu (locked k)) c)
  | Acq_cpu l =>
      (k, at_pc (if cbool l && bool_decide (lk_cpu k = Some i) then Panicked "acquire"
                 else Acq_xchg) c)
  | Acq_xchg =>
      (set_locked 1 k, at_pc (if locked k =? 0 then Acq_record else Acq_xchg) c)
  | Acq_record => (set_lk_cpu (Some i) k, at_pc Critical c)
  | Critical => (k, at_pc Rel_locked c)
  | Rel_locked => (k, at_pc (Rel_cpu (locked k)) c)
  | Rel_cpu l =>
      (k, at_pc (if cbool l && bool_decide (lk_cpu k = Some i) then Rel_record
                 else Panicked "release") c)
  | Rel_record => (set_lk_cpu None k, at_pc Rel_xchg c)
  | Rel_xchg => (set_locked 0 k, at_pc Pop_eflags c)
  | Pop_eflags => (k, at_pc (if c_if c then Panicked "popcli - interruptible" else Pop_ncli) c)
  | Pop_ncli =>
      (k, mkCore (if c_ncli c - 1 <? 0 then Panicked "popcli" else Pop_sti) (c_below c)
            (c_ncli c - 1) (c_intena c) (c_if c))
  | Pop_sti =>
      (k, finish (mkCore Pop_sti (c_below c) (c_ncli c) (c_intena c)
                    (c_if c || ((c_ncli c =? 0) && c_intena c))))
  | Panicked msg => (k, c)
  end.

Definition instr (i : Z) (st : smp) : smp :=
  let kc := next i (s_lock st) (s_core st i) in mkSmp kc.1 (upd i kc.2 (s_core st)).

(** An interrupt on processor [i]: the hardware disables interrupts and the handler starts to
    take the lock. *)
Definition irq (i : Z) (st : smp) : smp :=
  let c := s_core st i in
  mkSmp (s_lock st)
    (upd i (mkCore Push_eflags (Some (c_pc c)) (c_ncli c) (c_intena c) false) (s_core st)).

Inductive step : smp -> smp -> Prop :=
| step_instr i st : step st (instr i st)
| step_irq i st : c_if (s_core st i) = true -> step st (irq i st).

(** The processors start outside of the lock, each with interrupts on or off. *)
Definition smp_start (name : string) (on : Z -> bool) : smp :=
  mkSmp (mkLock 0 name None) (fun i => mkCore Idle None 0 (on i) (on i)).

(** * The invariant *)

(** The lock was won and not given back yet. *)
Definition holds_lock (p : pc) : bool :=
  match p with
  | Acq_record | Critical | Rel_locked | Rel_cpu _ | Rel_record | Rel_xchg => true
  | _ => false
  end.

(** The owner is recorded in the lock. *)
Definition recorded (p : pc) : bool :=
  match p with Critical | Rel_locked | Rel_cpu _ | Rel_record => true | _ => false end.

(** The variables of a processor whose interrupt flag was [f] when it started to take the
    lock, at [p]. *)
Definition vars_ok (f : bool) (p : pc) (ncli : Z) (intena if_ : bool) : Prop :=
  match p with
  | Idle | Push_eflags => ncli = 0 /\ if_ = f
  | Push_cli eflags => ncli = 0 /\ if_ = f /\ eflags = f
  | Push_ncli eflags => ncli = 0 /\ if_ = false /\ eflags = f
  | Rel_cpu l => ncli = 1 /\ if_ = false /\ intena = f /\ l = 1
  | Pop_sti => ncli = 0 /\ if_ = false /\ intena = f
  | Panicked _ => False
  | _ => ncli = 1 /\ if_ = false /\ intena = f
  end.

(** What is under an interrupt handler: code that had not disabled interrupts. *)
Definition below_ok (p : pc) : Prop :=
  match p with Idle | Push_eflags | Push_cli true => True | _ => False end.

Definition core_ok (c : core) : Prop :=
  match c_below c with
  | None => exists f, vars_ok f (c_pc c) (c_ncli c) (c_intena c) (c_if c)
  | Some p => below_ok p /\ c_pc c <> Idle /\ vars_ok false (c_pc c) (c_ncli c) (c_intena c) (c_if c)
  end.

(** [h] is the processor that has the lock. *)
Definition lock_ok (h : option Z) (k : spinlock) (f : Z -> core) : Prop :=
  (forall i, holds_lock (c_pc (f i)) = bool_decide (h = Some i)) /\
  match h with
  | None => locked k = 0 /\ lk_cpu k = None
  | Some i => locked k = 1 /\ lk_cpu k = if recorded (c_pc (f i)) then Some i else None
  end.

Definition smp_inv (st : smp) : Prop :=
  (forall i, core_ok (s_core st i)) /\ exists h, lock_ok h (s_lock st) (s_core st).

Ltac break :=
  simpl in *;
  repeat match goal with
  | H : exists x, _ |- _ => destruct H
  | H : _ /\ _ |- _ => destruct H
  end; simplify_eq/=; try done.

Lemma upd_eq i c f : upd i c f i = c.
Proof. unfold upd. by rewrite decide_True. Qed.

Lemma upd_ne i j c f : j <> i -> upd i c f j = f j.
Proof. intros. unfold upd. by rewrite decide_False. Qed.

(** Processor [i] moves without a change of owner. *)
Lemma lock_ok_move h k k' f i c :
  lock_ok h k f -> holds_lock (c_pc c) = holds_lock (c_pc (f i)) ->
  locked k' = locked k ->
  (h <> Some i -> lk_cpu k' = lk_cpu k) ->
  (h = Some i -> lk_cpu k' = if recorded (c_pc c) then Some i else None) ->
  lock_ok h k' (upd i c f).
Proof.
  intros [Hh Hk] Hc Hl Hne He. split.
  - intros j. destruct (decide (j = i)) as [->|Hj]; [by rewrite upd_eq, Hc, Hh|by rewrite upd_ne].
  - destruct h as [j|]; destruct Hk as [Hk1 Hk2]; rewrite Hl; [|by rewrite Hne].
    split; [done|]. destruct (decide (j = i)) as [->|Hj]; [rewrite upd_eq; by apply He|].
    rewrite upd_ne by done. by rewrite Hne by congruence.
Qed.

(** Taking and giving back the lock. *)
Lemma lock_ok_take k f i c :
  lock_ok None k f -> holds_lock (c_pc c) = true -> recorded (c_pc c) = false ->
  lock_ok (Some i) (set_locked 1 k) (upd i c f).
Proof.
  intros [Hh [Hl Hc]] Hhold Hrec. split.
  - intros j. destruct (decide (j = i)) as [->|Hj]; [rewrite upd_eq, bool_decide_true; done|].
    rewrite upd_ne, Hh, !bool_decide_false by congruence. done.
  - split; [done|]. by rewrite upd_eq, Hrec.
Qed.

Lemma lock_ok_give k f i c :
  lock_ok (Some i) k f -> recorded (c_pc (f i)) = false -> holds_lock (c_pc c) = false ->
  lock_ok None (set_locked 0 k) (upd i c f).
Proof.
  intros [Hh [Hl Hc]] Hrec Hhold. rewrite Hrec in Hc. split; [|done].
  intros j. destruct (decide (j = i)) as [->|Hj]; [rewrite upd_eq, bool_decide_false; done|].
  rewrite upd_ne, Hh, !bool_decide_false by congruence. done.
Qed.

(** Who has the lock is where the program counters say. *)
Lemma lock_ok_holder h k f i : lock_ok h k f -> holds_lock (c_pc (f i)) = true -> h = Some i.
Proof. intros [Hh _] Hi. rewrite Hh in Hi. by apply bool_decide_eq_true in Hi. Qed.

Lemma core_ok_upd i c f : core_ok c -> (forall j, core_ok (f j)) -> forall j, core_ok (upd i c f j).
Proof. intros Hc Hf j. unfold upd. by destruct (decide (j = i)). Qed.

(** What a processor reads from the lock. *)
Lemma lock_ok_reads h k f i :
  lock_ok h k f ->
  if holds_lock (c_pc (f i)) then locked k = 1 /\ lk_cpu k = (if recorded (c_pc (f i)) then Some i else None)
  else lk_cpu k <> Some i.
Proof.
  intros [Hh Hk]. rewrite Hh. case_bool_decide as E; [by subst h|].
  destruct h as [j|]; [|by destruct Hk as [_ ->]]. destruct Hk as [_ ->].
  destruct (recorded _); congruence.
Qed.

(** An instruction keeps the processor's own variables right. *)
Lemma core_ok_instr i st : smp_inv st -> core_ok (s_core (instr i st) i).
Proof.
  intros [Hc [h Hl]]. specialize (Hc i). unfold instr, next. pose proof (lock_ok_reads h _ _ i Hl) as Hr.
  destruct (s_core st i) as [p below n ie fl] eqn:E. simpl in *.
  destruct p; simpl in *; rewrite ?upd_eq, ?E; unfold core_ok, at_pc, finish in *; simpl in *;
    destruct below as [b|]; simpl in *;
    repeat match goal with
    | H : exists f, _ |- _ => destruct H as [? H]
    | H : _ /\ _ |- _ => destruct H
    end; simplify_eq; try done; rewrite ?bool_decide_true, ?bool_decide_false, ?andb_false_r by done;
    try match goal with |- context [locked _ =? 0] => destruct (locked _ =? 0) end; simpl; try (split_and!; done);
    try (eexists; split_and!; done).
  exists true. destruct b as [| |[] | | | | | | | | | | | | | |]; done.
Qed.

Lemma instr_other i j st : j <> i -> s_core (instr i st) j = s_core st j.
Proof. intros Hj. unfold instr. simpl. by rewrite upd_ne. Qed.

(** An instruction keeps the lock right. *)
Lemma lock_ok_instr i st : smp_inv st -> exists h, lock_ok h (s_lock (instr i st)) (s_core (instr i st)).
Proof.
  intros Hinv. pose proof (core_ok_instr i st Hinv) as Hc'. destruct Hinv as [Hc [h Hl]].
  specialize (Hc i). pose proof (lock_ok_reads h _ _ i Hl) as Hr.
  unfold instr, next in *. destruct (s_core st i) as [p below n ie fl] eqn:E. simpl in *.
  assert (Hmove : forall c, holds_lock (c_pc c) = holds_lock p -> recorded (c_pc c) = recorded p ->
    lock_ok h (s_lock st) (upd i c (s_core st))).
  { intros c H1 H2. eapply lock_ok_move; [done|by rewrite E|done|done|].
    intros ->. destruct Hl as [_ [_ Hl]]. rewrite E in Hl. by rewrite H2. }
  destruct p; simpl in *; try (exists h; by apply Hmove); rewrite ?upd_eq in Hc'.
  - exists h. apply Hmove; rewrite bool_decide_false, andb_false_r by done; done.
  - destruct (locked (s_lock st) =? 0) eqn:El.
    + assert (h = None) as ->. { destruct h; [|done]. destruct Hl as [_ [Hl _]]. lia. }
      exists (Some i). by apply lock_ok_take.
    + exists h. eapply lock_ok_move; [done|by rewrite E| |done|].
      * destruct h; destruct Hl as [_ [Hl _]]; simpl; lia.
      * intros ->. destruct Hl as [Hl _]. specialize (Hl i). rewrite E, bool_decide_true in Hl by done.
        done.
  - assert (h = Some i) as -> by (eapply lock_ok_holder; [done|by rewrite E]).
    exists (Some i). eapply lock_ok_move; [done|by rewrite E|done|done|done].
  - exists h. destruct Hr as [_ ->]. rewrite bool_decide_true, andb_true_r by done.
    assert (l = 1) as ->; [|by apply Hmove].
    unfold core_ok in Hc. simpl in Hc. destruct below; [break|]. break.
  - assert (h = Some i) as -> by (eapply lock_ok_holder; [done|by rewrite E]).
    exists (Some i). eapply lock_ok_move; [done|by rewrite E|done|done|done].
  - assert (h = Some i) as -> by (eapply lock_ok_holder; [done|by rewrite E]).
    exists None. apply lock_ok_give; [done|by rewrite E|done].
  - exists h. apply Hmove; by destruct fl.
  - exists h. apply Hmove; by destruct (n - 1 <? 0).
  - exists h. unfold finish, core_ok in *. simpl in *. destruct below as [b|]; [|by apply Hmove].
    destruct Hc as [Hb _]. by apply Hmove; destruct b.
Qed.

Lemma smp_inv_instr i st : smp_inv st -> smp_inv (instr i st).
Proof.
  intros Hinv. split; [|by apply lock_ok_instr]. intros j. destruct (decide (j = i)) as [->|Hj].
  - by apply core_ok_instr.
  - rewrite instr_other by done. apply Hinv.
Qed.

(** Only code that has not disabled interrupts is interrupted. *)
Lemma interrupted_below c : core_ok c -> c_if c = true -> c_below c = None /\ below_ok (c_pc c) /\ c_ncli c = 0.
Proof.
  unfold core_ok. intros Hc Hif. destruct (c_below c).
  - destruct Hc as (_ & Hp & Hv). rewrite Hif in Hv. destruct (c_pc c); break.
  - destruct Hc as [f Hv]. rewrite Hif in Hv. split; [done|].
    destruct (c_pc c); simpl in *; break.
Qed.

Lemma smp_inv_irq i st : smp_inv st -> c_if (s_core st i) = true -> smp_inv (irq i st).
Proof.
  intros [Hc [h Hl]] Hif. destruct (interrupted_below _ (Hc i) Hif) as (Hb & Hp & Hn). split.
  - apply core_ok_upd; [|done]. unfold core_ok. simpl. by rewrite Hn.
  - exists h. eapply lock_ok_move; [done| |done|done|].
    + simpl. by destruct (c_pc (s_core st i)).
    + intros ->. destruct Hl as [Hh _]. specialize (Hh i). rewrite bool_decide_true in Hh by done.
      by destruct (c_pc (s_core st i)).
Qed.

Lemma smp_inv_start name on : smp_inv (smp_start name on).
Proof. split; [by intros i; exists (on i)|]. by exists None. Qed.

Lemma smp_inv_reachable name on st : rtc step (smp_start name on) st -> smp_inv st.
Proof.
  intros Hs. assert (Hinv := smp_inv_start name on).
  induction Hs as [|x y z [i st'|i st' Hif] _ IH]; [done|..]; apply IH.
  - by apply smp_inv_instr.
  - by apply smp_inv_irq.
Qed.

(** * Properties *)

(** C7: Mutual exclusion on any number of processors, with any interleaving of their
    instructions and interrupts whose handlers take the lock as well: at most one
    processor is in its critical section, its interrupts are off there, and the lock
    records it as its owner. *)
Theorem mutual_exclusion name on st i j :
  rtc step (smp_start name on) st ->
  c_pc (s_core st i) = Critical ->
  (c_pc (s_core st j) = Critical -> i = j) /\
  c_if (s_core st i) = false /\ locked (s_lock st) = 1 /\ lk_cpu (s_lock st) = Some i.
Proof.
  intros [Hc [h Hl]]%smp_inv_reachable Hi.
  pose proof (lock_ok_reads h _ _ i Hl) as Hr. rewrite Hi in Hr. destruct Hr as [Hlk Hcpu].
  split_and!; [|..|done|done].
  - intros Hj. pose proof (lock_ok_reads h _ _ j Hl) as Hr. rewrite Hj in Hr.
    destruct Hr as [_ Hr]. simpl in *. congruence.
  - specialize (Hc i). unfold core_ok in Hc. rewrite Hi in Hc. destruct (c_below _); break.
Qed.

(** No use of the lock panics: not [acquire] (a processor never tries to take a lock it
    holds, even from an interrupt handler), not [release], and not [popcli]; and an
    interrupt never arrives between winning the lock and giving it back. *)
Lemma lock_never_panics name on st i :
  rtc step (smp_start name on) st ->
  (forall msg, c_pc (s_core st i) <> Panicked msg) /\
  (holds_lock (c_pc (s_core st i)) = true -> c_if (s_core st i) = false).
Proof.
  intros [Hc _]%smp_inv_reachable. specialize (Hc i). unfold core_ok in Hc. split.
  - intros msg Hp. rewrite Hp in Hc. destruct (c_below _); break.
  - intros Hh. destruct (c_pc (s_core st i)); try done; destruct (c_below _); break.
Qed.

(** The processor of [s], at [p], and the lock [lk]. *)
Definition view (lk : lockid) (p : pc) (s : kernel) : smp :=
  mkSmp (lock_of lk s)
    (fun _ => mkCore p None (ncli (k_cpu s)) (intena (k_cpu s)) (ifl (k_cpu s))).

(** [st] shows, on this processor, what the variables of [s] are. *)
Definition shows (lk : lockid) (p : pc) (s : kernel) (st : smp) : Prop :=
  s_lock st = lock_of lk s /\ s_core st (cpu_id (k_cpu s)) = s_core (view lk p s) (cpu_id (k_cpu s)).

Definition solo (i : Z) (n : nat) (kc : spinlock * core) : spinlock * core :=
  Nat.iter n (fun kc => next i kc.1 kc.2) kc.

Lemma solo_run i n st :
  let st' := Nat.iter n (instr i) st in
  (s_lock st', s_core st' i) = solo i n (s_lock st, s_core st i).
Proof.
  unfold solo. induction n as [|n IH]; simpl; [done|]. rewrite <- IH, upd_eq. by destruct (next _ _ _).
Qed.

Lemma solo_add i n m kc : solo i (n + m) kc = solo i n (solo i m kc).
Proof. unfold solo. by rewrite Nat.iter_add. Qed.

Lemma solo_acquire i nm n ie fl :
  solo i 8 (mkLock 0 nm None, mkCore Idle None n ie fl) =
    (mkLock 1 nm (Some i), mkCore Critical None (n + 1) (if n =? 0 then fl else ie) false).
Proof. reflexivity. Qed.

Lemma solo_release i nm n ie :
  0 <= n ->
  solo i 8 (mkLock 1 nm (Some i), mkCore Critical None (n + 1) ie false) =
    (mkLock 0 nm None, mkCore Idle None n ie ((n =? 0) && ie)).
Proof.
  intros Hn. change 8%nat with (5 + 3)%nat. rewrite solo_add. unfold solo. simpl.
  rewrite bool_decide_true by done. simpl. rewrite Z.add_simpl_r.
  destruct (n <? 0) eqn:E; [lia|done].
Qed.

(** The instructions of a processor that runs alone are the functions of Spinlock.v: eight
    of them lead from the call of [acquire] to the critical section with the state
    [acquire] returns, and eight more, through [release], back to the state before. *)
Lemma instrs_are_acquire_release lk e s :
  ready lk s ->
  exists s', acquire lk e s = Done tt e s' /\ release lk e s' = Done tt e s /\
    let run n := Nat.iter n (instr (cpu_id (k_cpu s))) (view lk Idle s) in
    shows lk Critical s' (run 8%nat) /\ shows lk Idle s (run 16%nat).
Proof.
  intros Hr. exists (acquired lk s). split; [by apply acquire_ready|]. split; [by apply release_acquired|].
  destruct Hr as [[Hn Hi] [nm Hu]]. intros run. set (i := cpu_id (k_cpu s)) in *.
  assert (Hk : lock_of lk s = mkLock 0 nm None) by (unfold lock_of; by rewrite Hu).
  assert (Hrun : forall n, (s_lock (run n), s_core (run n) i) =
    solo i n (mkLock 0 nm None, mkCore Idle None (ncli (k_cpu s)) (intena (k_cpu s)) (ifl (k_cpu s)))).
  { intros n. rewrite <- Hk. apply (solo_run i n (view lk Idle s)). }
  clearbody run. pose proof (Hrun 8%nat) as H8. pose proof (Hrun (8 + 8)%nat) as H16.
  rewrite solo_add in H16. rewrite solo_acquire in H8, H16. rewrite solo_release in H16 by done.
  change (8 + 8)%nat with 16%nat in H16. injection H8 as Hl8 Hc8. injection H16 as Hl16 Hc16.
  unfold shows. split; split.
  - rewrite Hl8. unfold acquired. by rewrite lock_of_set_lock, Hk.
  - etrans; [exact Hc8|]. done.
  - by rewrite Hl16.
  - etrans; [exact Hc16|]. simpl. by destruct (_ =? 0); simpl; rewrite Hi.
Qed.

(** * The properties at concrete states *)

(** Processor 0 is in its critical section while processor 1 spins. *)
Definition smp_run : smp :=
  Nat.iter 7 (instr 1) (Nat.iter 8 (instr 0) (smp_start "lock" (fun _ => true))).

Lemma smp_run_reachable : rtc step (smp_start "lock" (fun _ => true)) smp_run.
Proof.
  assert (Hn : forall n i st, rtc step st (Nat.iter n (instr i) st)).
  { induction n as [|n IH]; intros i st; [done|]. eapply rtc_r; [apply IH|]. apply step_instr. }
  etrans; apply Hn.
Qed.

Lemma mutual_exclusion_witness : lk_cpu (s_lock smp_run) = Some 0.
Proof. apply (mutual_exclusion "lock" (fun _ => true) smp_run 0 1 smp_run_reachable eq_refl). Defined.

Lemma lock_never_panics_witness : c_if (s_core smp_run 0) = false.
Proof. apply (lock_never_panics "lock" (fun _ => true) smp_run 0 smp_run_reachable). reflexivity. Defined.

Lemma instrs_are_acquire_release_witness :
  exists s', acquire L_kmem [] (set_lock L_kmem (mkLock 0 "kmem" None) boot_state) = Done tt [] s'.
Proof.
  destruct (instrs_are_acquire_release L_kmem [] (set_lock L_kmem (mkLock 0 "kmem" None) boot_state))
    as (s' & Heq & _); [split; [by split|by eexists]|]. exists s'. exact Heq.
Defined.
