(* ===== verification/Console.v ===== *)
(** console.c, output half, and uart.c's [uartputc]: [printint], [cprintf],
    [consputc] and [cgaputc].

    [cprintf] is split into the formatting, a function from the format and the
    arguments to the characters it passes to [consputc], and their emission.
    The CGA text memory is the function [crt] from cell number to cell; the
    cursor lives in the two registers of the CRT controller.  Polling the serial
    port until it is ready changes nothing and is left out. *)

From S2P Require Import Prelude Params Mem State Spinlock.

Definition BACKSPACE : Z := 0x100.

(** An argument of [cprintf]: an integer, a string, or a null string. *)
Inductive carg := CInt (x : Z) | CStr (s : list Z) | CNull.

(** [digits]: lower case in console.c. *)
Definition digits (upper : bool) (d : Z) : Z :=
  if d <? 10 then chr "0" + d
  else (if upper then chr "A" else chr "a") + (d - 10).

(** [do { buf[i++] = digits[x % base]; } while((x /= base) != 0)] *)
Fixpoint digit_loop (upper : bool) (x base : Z) (fuel : nat) : list Z :=
  match fuel with
  | O => []
  | S fuel' =>
      digits upper (x mod base) ::
      (let x := x / base in if x =? 0 then [] else digit_loop upper x base fuel')
  end.

(** The characters [printint] prints, first to last: the buffer backwards.
    32 rounds suffice for a 32-bit value in any base. *)
Definition printint (upper : bool) (xx base : Z) (sign : bool) : list Z :=
  let neg := sign && (xx <? 0) in
  let x := u32 (if neg then - xx else xx) in
  let buf := digit_loop upper x base 32 in
  rev (buf ++ (if neg then [chr "-"] else [])).

(** The characters [cprintf] sends to the console for a format and arguments. *)
Fixpoint cformat (fmt : list Z) (args : list carg) : list Z :=
  match fmt with
  | [] => []
  | c :: fmt' =>
      if negb (c =? chr "%") then c :: cformat fmt' args
      else
        match fmt' with
        | [] => []
        | c :: fmt'' =>
            if c =? chr "d" then
              match args with
              | CInt x :: args' => printint false (s32 x) 10 true ++ cformat fmt'' args'
              | _ => cformat fmt'' (tail args)
              end
            else if (c =? chr "x") || (c =? chr "p") then
              match args with
              | CInt x :: args' => printint false (s32 x) 16 false ++ cformat fmt'' args'
              | _ => cformat fmt'' (tail args)
              end
            else if c =? chr "s" then
              match args with
              | CStr t :: args' => t ++ cformat fmt'' args'
              | CNull :: args' => str "(null)" ++ cformat fmt'' args'
              | _ => cformat fmt'' (tail args)
              end
            else if c =? chr "%" then chr "%" :: cformat fmt'' args
            else chr "%" :: c :: cformat fmt'' args
        end
  end.

Definition on_cons (f : cons_t -> cons_t) (s : kernel) : kernel := set_k_cons (f (k_cons s)) s.

Definition hang {A} : K A := fun e s => Blocked s.

Definition uartputc (c : Z) : K unit :=
  modify (on_cons (fun k =>
    if cbool (uart k) then set_uart_out (uart_out k ++ [u8 c]) k else k)).

Definition crt_set (f : Z -> Z) (i v : Z) : Z -> Z := fun x => if x =? i then v else f x.

(** [memmove(crt, crt+80, sizeof(crt[0])*23*80)] and the [memset] below it. *)
Definition crt_scroll (f : Z -> Z) (pos : Z) : Z -> Z :=
  fun x =>
    if (pos <=? x) && (x <? pos + (24 * 80 - pos)) then 0
    else if (0 <=? x) && (x <? 23 * 80) then f (x + 80) else f x.

Definition cursor (k : cons_t) : Z := Z.lor (Z.shiftl (crtc_hi k) 8) (crtc_lo k).

Definition cgaputc (c : Z) : K unit :=
  k ← get k_cons;
  let pos := cursor k in
  let '(pos, cells) :=
    if c =? 10 then (pos + (80 - pos mod 80), crt k)
    else if c =? BACKSPACE then (if 0 <? pos then pos - 1 else pos, crt k)
    else (pos + 1, crt_set (crt k) pos (Z.lor (Z.land c 0xff) 0x0700)) in
  modify (on_cons (set_crt cells));;
  if (pos <? 0) || (25 * 80 <? pos) then panic "pos under/overflow" else
  let '(pos, cells) :=
    if 24 <=? pos / 80 then (pos - 80, crt_scroll cells (pos - 80)) else (pos, cells) in
  modify (on_cons (fun k =>
    set_crt (crt_set cells pos (Z.lor 32 0x0700))
      (set_crtc_hi (u8 (Z.shiftr pos 8)) (set_crtc_lo (u8 pos) k)))).

Definition consputc (c : Z) : K unit :=
  p ← get (fun s => panicked (k_cons s));
  if cbool p then cli;; hang else
  (if c =? BACKSPACE then uartputc 8;; uartputc 32;; uartputc 8 else uartputc c);;
  cgaputc c.

Fixpoint consputs (cs : list Z) : K unit :=
  match cs with
  | [] => mret tt
  | c :: cs' => consputc c;; consputs cs'
  end.

Definition cprintf (fmt : string) (args : list carg) : K unit :=
  l ← get (fun s => locking (k_cons s));
  when (cbool l) (acquire L_cons);;
  consputs (cformat (str fmt) args);;
  when (cbool l) (release L_cons).

(** * Invariant: the cursor stays on the screen *)

Definition cons_ok (k : cons_t) : Prop :=
  panicked k = 0 /\ 0 <= crtc_hi k < 256 /\ 0 <= crtc_lo k < 256 /\ cursor k < 25 * 80.

(** The console can be written to: its cursor is on the screen, and its lock,
    when used, is free. *)
Definition cons_ready (s : kernel) : Prop :=
  cons_ok (k_cons s) /\ (locking (k_cons s) <> 0 -> ready L_cons s).

Lemma cursor_eq k :
  0 <= crtc_lo k < 256 -> cursor k = 256 * crtc_hi k + crtc_lo k.
Proof.
  intros. unfold cursor. rewrite Z.shiftl_mul_pow2 by lia.
  rewrite (lor_add_low _ _ 8); [lia|lia|mlia|lia].
Qed.

Lemma cursor_set k pos cells :
  0 <= pos < 65536 ->
  cursor (set_crt cells (set_crtc_hi (u8 (Z.shiftr pos 8)) (set_crtc_lo (u8 pos) k))) = pos.
Proof.
  intros. rewrite cursor_eq by apply u8_range. simpl. unfold u8.
  rewrite Z.shiftr_div_pow2 by lia. change (2 ^ 8) with 256. mlia.
Qed.

(** Where [cgaputc] leaves the cursor. *)
Definition cursor_next (c pos : Z) : Z :=
  let pos := if c =? 10 then pos + (80 - pos mod 80)
             else if c =? BACKSPACE then (if 0 <? pos then pos - 1 else pos)
             else pos + 1 in
  if 24 <=? pos / 80 then pos - 80 else pos.

Lemma cursor_next_range c pos : 0 <= pos < 25 * 80 -> 0 <= cursor_next c pos < 25 * 80.
Proof. intros. unfold cursor_next. zif; mlia. Qed.

(** [cgaputc] never panics on a console whose cursor is on the screen. *)
Lemma cgaputc_ok c e s :
  cons_ok (k_cons s) ->
  exists k, cgaputc c e s = Done tt e (set_k_cons k s) /\ cons_ok k /\
    locking k = locking (k_cons s) /\ uart_out k = uart_out (k_cons s) /\
    uart k = uart (k_cons s) /\ cursor k = cursor_next c (cursor (k_cons s)).
Proof.
  intros (Hp & Hhi & Hlo & Hc).
  assert (0 <= cursor (k_cons s)) as Hc0 by (rewrite cursor_eq by done; lia).
  pose proof (cursor_next_range c (cursor (k_cons s)) ltac:(lia)) as Hn.
  unfold cgaputc. erewrite bind_Done by done. unfold cursor_next in *.
  set (pos := cursor (k_cons s)) in *.
  set (pos1 := if c =? 10 then _ else _) in *.
  match goal with |- context [match ?x with (_, _) => _ end] =>
    destruct x as [pos2 cells] eqn:E end.
  assert (pos2 = pos1) as ->.
  { subst pos1. destruct (c =? 10); [by inversion E|].
    destruct (c =? BACKSPACE); by inversion E. }
  erewrite bind_Done by done.
  destruct ((pos1 <? 0) || (25 * 80 <? pos1)) eqn:E2.
  { exfalso. subst pos1. revert E2. zif; intros; mlia. }
  match goal with |- context [match ?x with (_, _) => _ end] =>
    destruct x as [pos3 cells3] eqn:E3 end.
  set (pos4 := if 24 <=? pos1 / 80 then pos1 - 80 else pos1) in *.
  assert (pos3 = pos4) as -> by (subst pos4; destruct (24 <=? pos1 / 80); by inversion E3).
  eexists. split; [reflexivity|]. unfold cons_ok. simpl.
  rewrite cursor_set by lia. repeat split; auto; try apply u8_range; lia.
Qed.

(** What reaches the serial port for one character. *)
Definition uart_bytes (k : cons_t) (c : Z) : list Z :=
  if cbool (uart k) then (if c =? BACKSPACE then [8; 32; 8] else [u8 c]) else [].

Lemma consputc_ok c e s :
  cons_ok (k_cons s) ->
  exists k, consputc c e s = Done tt e (set_k_cons k s) /\ cons_ok k /\
    locking k = locking (k_cons s) /\ uart k = uart (k_cons s) /\
    uart_out k = uart_out (k_cons s) ++ uart_bytes (k_cons s) c.
Proof.
  intros Hok. pose proof Hok as (Hp & _).
  unfold consputc. erewrite bind_Done by done. rewrite Hp. simpl.
  set (m := if c =? BACKSPACE then _ else _).
  assert (exists k, m e s = Done tt e (set_k_cons k s) /\ cons_ok k /\
    locking k = locking (k_cons s) /\ uart k = uart (k_cons s) /\
    uart_out k = uart_out (k_cons s) ++ uart_bytes (k_cons s) c) as (k & Hm & Hk & Hl & Hu & Ho).
  { subst m. unfold uart_bytes, uartputc, mbind, M_bind, modify, on_cons.
    destruct (c =? BACKSPACE); simpl; destruct (cbool (uart (k_cons s))) eqn:Eu; simpl;
      rewrite ?Eu; simpl; rewrite ?Eu; simpl; eexists; (split; [reflexivity|]);
      simpl; rewrite ?app_nil_r, <- ?app_assoc; by repeat split; apply Hok. }
  erewrite bind_Done by exact Hm.
  destruct (cgaputc_ok c e (set_k_cons k s)) as (k' & -> & ? & ? & ? & ? & _); [done|].
  exists k'. simpl in *. repeat split; try done; try congruence; by apply H.
Qed.

Lemma consputs_ok cs e s :
  cons_ok (k_cons s) ->
  exists k, consputs cs e s = Done tt e (set_k_cons k s) /\ cons_ok k /\
    locking k = locking (k_cons s) /\ uart k = uart (k_cons s) /\
    uart_out k = uart_out (k_cons s) ++ (cs ≫= uart_bytes (k_cons s)).
Proof.
  revert s. induction cs as [|c cs IH]; intros s Hok; simpl.
  - exists (k_cons s). rewrite app_nil_r. split; [by destruct s|]. done.
  - destruct (consputc_ok c e s Hok) as (k & Hc & Hk & Hl & Hu & Ho).
    erewrite bind_Done by exact Hc.
    destruct (IH (set_k_cons k s) Hk) as (k' & -> & ? & ? & Hu' & Ho').
    exists k'. simpl in *. repeat split; try done; try congruence; try by apply H.
    rewrite Ho', Ho, <- app_assoc. do 2 f_equal.
    unfold uart_bytes. by rewrite Hu.
Qed.

Lemma cprintf_ok fmt args e s :
  cons_ready s ->
  exists k, cprintf fmt args e s = Done tt e (set_k_cons k s) /\ cons_ok k /\
    locking k = locking (k_cons s) /\ uart k = uart (k_cons s) /\
    uart_out k = uart_out (k_cons s) ++ (cformat (str fmt) args ≫= uart_bytes (k_cons s)).
Proof.
  intros [Hok Hl]. unfold cprintf. erewrite bind_Done by done.
  destruct (cbool (locking (k_cons s))) eqn:E; simpl.
  - assert (ready L_cons s) as Hr by (apply Hl; unfold cbool in E; lia).
    erewrite bind_Done by (by apply acquire_ready).
    destruct (consputs_ok (cformat (str fmt) args) e (acquired L_cons s) Hok)
      as (k & Hc & Hk & ? & ? & ?).
    erewrite bind_Done by exact Hc. exists k.
    change (set_k_cons k (acquired L_cons s)) with (acquired L_cons (set_k_cons k s)).
    by rewrite release_acquired.
  - destruct (consputs_ok (cformat (str fmt) args) e s Hok) as (k & Hc & Hk & ? & ? & ?).
    erewrite bind_Done by done. erewrite bind_Done by exact Hc. by exists k.
Qed.

(** Printing leaves the console ready for the next message. *)
Lemma wp_cprintf fmt args (Q : unit -> env kernel -> kernel -> Prop) e s :
  cons_ready s ->
  (forall k, cons_ready (set_k_cons k s) -> Q tt e (set_k_cons k s)) ->
  wp (cprintf fmt args) Q e s.
Proof.
  intros Hr HQ. destruct (cprintf_ok fmt args e s Hr) as (k & Hc & Hk & Hl & _).
  unfold wp. rewrite Hc. apply HQ. split; [done|]. simpl. rewrite Hl. apply Hr.
Qed.
