(* ===== verification/Kalloc.v ===== *)
(** kalloc.c: the physical page allocator, with the count of free frames of the
    CS 3320 project.

    The free list is threaded through the free pages themselves: the first word
    of a free page is the address of the next one.  [free_rep s l] says that the
    list of the state [s] is [l], that it has no page twice, only whole pages of
    the memory above the kernel, and that [free_frame_cnt] is its length. *)

From S2P Require Import Prelude Params Mem State Spinlock.

Section kalloc.
Context `{Symbols}.

Definition on_kmem (f : kmem_t -> kmem_t) (s : kernel) : kernel := set_k_kmem (f (k_kmem s)) s.
Definition on_mem (f : memory -> memory) (s : kernel) : kernel := set_k_mem (f (k_mem s)) s.

Definition kfree (v : Z) : K unit :=
  if cbool (v mod PGSIZE) || (v <? sym_end) || (PHYSTOP <=? v2p v) then panic "kfree" else
  modify (on_mem (fun m => memset m (v2p v) 1 PGSIZE));;
  ul ← get (fun s => use_lock (k_kmem s));
  when (cbool ul) (acquire L_kmem);;
  modify (fun s => on_mem (fun m => st32 m (v2p v) (freelist (k_kmem s))) s);;
  modify (on_kmem (set_freelist v));;
  modify (fun s => set_k_free_frame_cnt (k_free_frame_cnt s + 1) s);;
  ul ← get (fun s => use_lock (k_kmem s));
  when (cbool ul) (release L_kmem).

Definition kalloc : K Z :=
  ul ← get (fun s => use_lock (k_kmem s));
  when (cbool ul) (acquire L_kmem);;
  r ← get (fun s => freelist (k_kmem s));
  when (cbool r) (
    modify (fun s => set_k_free_frame_cnt (k_free_frame_cnt s - 1) s);;
    modify (fun s => on_kmem (set_freelist (ld32 (k_mem s) (v2p r))) s));;
  ul ← get (fun s => use_lock (k_kmem s));
  when (cbool ul) (release L_kmem);;
  mret r.

(** [for(; p + PGSIZE <= vend; p += PGSIZE) kfree(p)]; the loop runs at most
    once per page of the range. *)
Definition freerange (vstart vend : Z) : K unit :=
  loop (Z.to_nat ((vend - vstart) / PGSIZE + 1))
    (fun p =>
       if u32 (p + PGSIZE) <=? vend
       then kfree p;; mret (inl (u32 (p + PGSIZE)))
       else mret (inr tt))
    (PGROUNDUP vstart).

Definition kinit1 (vstart vend : Z) : K unit :=
  initlock L_kmem "kmem";;
  modify (on_kmem (set_use_lock 0));;
  freerange vstart vend.

Definition kinit2 (vstart vend : Z) : K unit :=
  freerange vstart vend;;
  modify (on_kmem (set_use_lock 1)).

(** * The free list *)

(** A whole page of the memory above the kernel. *)
Definition page_ok (v : Z) : Prop :=
  v mod PGSIZE = 0 /\ sym_end <= v /\ v < KERNBASE + PHYSTOP.

Fixpoint chain (m : memory) (p : Z) (l : list Z) : Prop :=
  match l with
  | [] => p = 0
  | v :: l' => p = v /\ chain m (ld32 m (v2p v)) l'
  end.

Record free_rep (s : kernel) (l : list Z) : Prop := {
  fr_chain : chain (k_mem s) (freelist (k_kmem s)) l;
  fr_nodup : NoDup l;
  fr_pages : Forall page_ok l;
  fr_count : k_free_frame_cnt s = Z.of_nat (length l)
}.

(** The allocator's lock is free when it is in use. *)
Definition kmem_ready (s : kernel) : Prop :=
  use_lock (k_kmem s) <> 0 -> ready L_kmem s.

(** The states after a successful [kfree] and [kalloc]. *)
Definition freed (v : Z) (s : kernel) : kernel :=
  set_k_free_frame_cnt (k_free_frame_cnt s + 1)
    (on_kmem (set_freelist v)
       (on_mem (fun m => st32 (memset m (v2p v) 1 PGSIZE) (v2p v) (freelist (k_kmem s))) s)).

Definition popped (s : kernel) : kernel :=
  on_kmem (set_freelist (ld32 (k_mem s) (v2p (freelist (k_kmem s)))))
    (set_k_free_frame_cnt (k_free_frame_cnt s - 1) s).

Context {Hsym : SymbolsOk}.

Lemma page_ok_range v : page_ok v -> KERNLINK <= v < KERNBASE + PHYSTOP.
Proof. destruct 1 as (? & ? & ?). destruct Hsym. lia. Qed.

Lemma page_ok_v2p v : page_ok v -> v2p v = v - KERNBASE.
Proof. intros ?%page_ok_range. apply v2p_eq. lia. Qed.

Lemma page_ok_frame v : page_ok v -> EXTMEM <= v2p v < PHYSTOP /\ v2p v mod PGSIZE = 0.
Proof.
  intros Hv. rewrite page_ok_v2p by done. pose proof (page_ok_range v Hv).
  destruct Hv as (? & _). split; [lia|mlia].
Qed.

(** Distinct pages do not overlap. *)
Lemma page_disjoint v w :
  page_ok v -> page_ok w -> v <> w -> v2p w + PGSIZE <= v2p v \/ v2p v + PGSIZE <= v2p w.
Proof.
  intros Hv Hw Hne. rewrite !page_ok_v2p by done.
  destruct Hv as (Hv & _), Hw as (Hw & _). mlia.
Qed.

Lemma kfree_check v :
  cbool (v mod PGSIZE) || (v <? sym_end) || (PHYSTOP <=? v2p v) = false <->
  v mod PGSIZE = 0 /\ sym_end <= v /\ v2p v < PHYSTOP.
Proof. unfold cbool. lia. Qed.

Lemma page_ok_check v :
  page_ok v -> cbool (v mod PGSIZE) || (v <? sym_end) || (PHYSTOP <=? v2p v) = false.
Proof.
  intros Hv. apply kfree_check. pose proof (page_ok_frame v Hv).
  destruct Hv as (? & ? & ?). repeat split; lia.
Qed.

Lemma chain_ext m m' p l :
  (forall v, v ∈ l -> ld32 m (v2p v) = ld32 m' (v2p v)) -> chain m p l -> chain m' p l.
Proof.
  revert p. induction l as [|v l IH]; simpl; intros p Hm; [done|].
  intros [-> Hc]. split; [done|]. rewrite <- Hm by set_solver.
  apply IH; [|done]. intros w Hw. apply Hm. set_solver.
Qed.

Lemma kfree_eq v e s :
  page_ok v -> kmem_ready s -> kfree v e s = Done tt e (freed v s).
Proof.
  intros Hv Hr. unfold kfree. rewrite page_ok_check by done.
  erewrite bind_Done by done. erewrite bind_Done by done. simpl.
  destruct (cbool (use_lock (k_kmem s))) eqn:E; simpl.
  - assert (ready L_kmem s) as Hl by (apply Hr; unfold cbool in E; lia).
    set (s1 := on_mem _ s).
    erewrite bind_Done by (by apply (acquire_ready L_kmem e s1)).
    do 4 (erewrite bind_Done by done). simpl. rewrite E. simpl.
    by apply (release_acquired L_kmem e (freed v s)).
  - do 5 (erewrite bind_Done by done). simpl. by rewrite E.
Qed.

(** Whatever [kfree] is given, it panics or the page was a whole page. *)
Lemma kfree_panic v e s :
  ~ (v mod PGSIZE = 0 /\ sym_end <= v /\ v2p v < PHYSTOP) -> kfree v e s = Panic "kfree" s.
Proof.
  intros Hn. unfold kfree. rewrite <- kfree_check in Hn.
  apply not_false_is_true in Hn. by rewrite Hn.
Qed.

Lemma kalloc_eq e s :
  kmem_ready s ->
  kalloc e s =
    if cbool (freelist (k_kmem s)) then Done (freelist (k_kmem s)) e (popped s)
    else Done 0 e s.
Proof.
  intros Hr. unfold kalloc. erewrite bind_Done by done.
  destruct (cbool (use_lock (k_kmem s))) eqn:E; simpl.
  - assert (ready L_kmem s) as Hl by (apply Hr; unfold cbool in E; lia).
    erewrite bind_Done by (by apply acquire_ready).
    erewrite bind_Done by done. simpl.
    destruct (cbool (freelist (k_kmem s))) eqn:Ef; simpl.
    + do 2 (erewrite bind_Done by done). simpl. rewrite E. simpl.
      erewrite bind_Done by (by apply (release_acquired L_kmem e (popped s))). done.
    + do 2 (erewrite bind_Done by done). simpl. rewrite E. simpl.
      erewrite bind_Done by (by apply release_acquired). unfold cbool in Ef.
      replace (freelist (k_kmem s)) with 0 by lia. done.
  - do 2 (erewrite bind_Done by done). simpl.
    destruct (cbool (freelist (k_kmem s))) eqn:Ef; simpl.
    + do 2 (erewrite bind_Done by done). simpl. rewrite E. done.
    + do 2 (erewrite bind_Done by done). simpl. rewrite E. unfold cbool in Ef.
      replace (freelist (k_kmem s)) with 0 by lia. done.
Qed.

Lemma free_rep_freed v s l :
  page_ok v -> v ∉ l -> free_rep s l -> free_rep (freed v s) (v :: l).
Proof.
  intros Hv Hn [Hc Hd Hp Hk]. split; simpl.
  - split; [done|]. rewrite ld32_st32_eq.
    assert (u32 (freelist (k_kmem s)) = freelist (k_kmem s)) as ->.
    { destruct l as [|w l]; simpl in Hc; [by rewrite Hc|].
      destruct Hc as [-> _]. apply Forall_cons in Hp as [Hw%page_ok_range _].
      apply u32_small. lia. }
    eapply chain_ext; [|exact Hc]. intros w Hw. symmetry.
    rewrite Forall_forall in Hp.
    pose proof (page_disjoint v w Hv (Hp w Hw) ltac:(set_solver)).
    rewrite ld32_st32_ne by lia. by rewrite ld32_memset_ne by lia.
  - by constructor.
  - by constructor.
  - lia.
Qed.

Lemma free_rep_popped s v l : free_rep s (v :: l) -> free_rep (popped s) l.
Proof.
  intros [[Hf Hc] Hd Hp Hk]. apply NoDup_cons in Hd as [_ Hd].
  apply Forall_cons in Hp as [_ Hp]. simpl in Hk.
  split; simpl; [by rewrite Hf|done|done|lia].
Qed.

Lemma free_rep_head s l :
  free_rep s l ->
  freelist (k_kmem s) = match l with [] => 0 | v :: _ => v end /\
  cbool (freelist (k_kmem s)) = match l with [] => false | _ => true end.
Proof.
  intros [Hc _ Hp _]. destruct l as [|v l]; simpl in Hc; [by rewrite Hc|].
  destruct Hc as [-> _]. apply Forall_cons in Hp as [Hv%page_ok_range _].
  unfold cbool. split; [done|lia].
Qed.

(** The free list is a matter of memory, the list head and the count. *)
Lemma free_rep_ext s s' l :
  k_mem s' = k_mem s -> freelist (k_kmem s') = freelist (k_kmem s) ->
  k_free_frame_cnt s' = k_free_frame_cnt s -> free_rep s l -> free_rep s' l.
Proof. intros Hm Hk Hn [? ? ? ?]. split; by rewrite ?Hm, ?Hk, ?Hn. Qed.

(** [kalloc] and [kfree] in [wp] form, for the callers. *)
Lemma wp_kalloc (Q : Z -> env kernel -> kernel -> Prop) e s l :
  kmem_ready s -> free_rep s l ->
  match l with
  | [] => Q 0 e s
  | v :: l' => page_ok v -> v ∉ l' -> free_rep (popped s) l' -> Q v e (popped s)
  end ->
  wp kalloc Q e s.
Proof.
  intros Hr Hf HQ. unfold wp. rewrite kalloc_eq by done.
  pose proof (free_rep_head s l Hf) as [Hh ->]. destruct l as [|v l]; [done|].
  rewrite Hh. pose proof (fr_nodup _ _ Hf) as [? _]%NoDup_cons.
  pose proof (fr_pages _ _ Hf) as [? _]%Forall_cons.
  apply HQ; [done|done|by eapply free_rep_popped].
Qed.

Lemma wp_kfree v (Q : unit -> env kernel -> kernel -> Prop) e s l :
  page_ok v -> v ∉ l -> kmem_ready s -> free_rep s l ->
  (free_rep (freed v s) (v :: l) -> Q tt e (freed v s)) ->
  wp (kfree v) Q e s.
Proof.
  intros Hv Hn Hr Hf HQ. unfold wp. rewrite kfree_eq by done.
  by apply HQ, free_rep_freed.
Qed.

(** * Ranges of pages *)

(** The whole pages of the range from [vstart] to [vend], lowest first. *)
Definition range_pages (vstart vend : Z) : list Z :=
  (fun k => PGROUNDUP vstart + PGSIZE * Z.of_nat k) <$>
    seq 0 (Z.to_nat ((vend - PGROUNDUP vstart) / PGSIZE)).

(** The allocator changed memory, its list and its count, nothing else. *)
Definition alloc_only (s s' : kernel) : Prop :=
  exists m km n, s' = set_k_free_frame_cnt n (set_k_kmem km (set_k_mem m s)) /\
    use_lock km = use_lock (k_kmem s).

Lemma alloc_only_refl s : alloc_only s s.
Proof. exists (k_mem s), (k_kmem s), (k_free_frame_cnt s). by destruct s. Qed.

Lemma alloc_only_trans s1 s2 s3 : alloc_only s1 s2 -> alloc_only s2 s3 -> alloc_only s1 s3.
Proof.
  intros (m & km & n & -> & E) (m' & km' & n' & -> & E').
  exists m', km', n'. split; [done|]. by rewrite E'.
Qed.

Lemma alloc_only_freed v s : alloc_only s (freed v s).
Proof. do 3 eexists. split; [reflexivity|]. done. Qed.

Lemma alloc_only_popped s : alloc_only s (popped s).
Proof. do 3 eexists. split; [reflexivity|]. done. Qed.

Lemma alloc_only_ready s s' : alloc_only s s' -> kmem_ready s -> kmem_ready s'.
Proof. intros (m & km & n & -> & E) Hr. unfold kmem_ready in *. simpl. by rewrite E. Qed.

Lemma elem_of_range_pages vstart vend p :
  0 <= vstart <= 4294967296 - PGSIZE ->
  p ∈ range_pages vstart vend <-> p mod PGSIZE = 0 /\ vstart <= p /\ p + PGSIZE <= vend.
Proof.
  intros Hs. unfold range_pages. rewrite list_elem_of_fmap. setoid_rewrite elem_of_seq.
  rewrite PGROUNDUP_eq by done. split.
  - intros (k & -> & Hk). split; [mlia|]. mlia.
  - intros (Ha & Hlo & Hhi).
    exists (Z.to_nat ((p - (vstart + (- vstart) mod PGSIZE)) / PGSIZE)). split; mlia.
Qed.

Lemma range_pages_snoc vstart n :
  (fun k => PGROUNDUP vstart + PGSIZE * Z.of_nat k) <$> seq 0 (S n) =
  ((fun k => PGROUNDUP vstart + PGSIZE * Z.of_nat k) <$> seq 0 n) ++
    [PGROUNDUP vstart + PGSIZE * Z.of_nat n].
Proof. rewrite seq_S, fmap_app. done. Qed.

Lemma freerange_ok vstart vend e s l :
  sym_end <= vstart -> vstart <= vend -> vend <= KERNBASE + PHYSTOP ->
  kmem_ready s -> free_rep s l ->
  (forall p, p ∈ range_pages vstart vend -> p ∉ l) ->
  wp (freerange vstart vend) (fun _ e' s' =>
    e' = e /\ free_rep s' (reverse (range_pages vstart vend) ++ l) /\ alloc_only s s' /\
    forall a, a < v2p vstart -> ld8 (k_mem s') a = ld8 (k_mem s) a) e s.
Proof.
  intros Hlo Hle Hhi Hr Hf Hnew.
  assert (KERNLINK <= sym_end) by (destruct Hsym; lia).
  set (base := PGROUNDUP vstart).
  assert (Hbase : base = vstart + (- vstart) mod PGSIZE) by (apply PGROUNDUP_eq; lia).
  set (total := Z.to_nat ((vend - base) / PGSIZE)).
  unfold freerange. apply (wp_loop
    (fun p e' s' => exists k, (k <= total)%nat /\ p = base + PGSIZE * Z.of_nat k /\ e' = e /\
       free_rep s' (reverse ((fun k => base + PGSIZE * Z.of_nat k) <$> seq 0 k) ++ l) /\
       alloc_only s s' /\ forall a, a < v2p vstart -> ld8 (k_mem s') a = ld8 (k_mem s) a)
    (fun p => Z.to_nat ((vend - p) / PGSIZE))).
  - fold base. mlia.
  - exists 0%nat. split; [lia|]. split; [fold base; lia|]. split; [done|].
    split; [done|]. split; [apply alloc_only_refl|done].
  - intros p e' s' (k & Hk & -> & -> & Hf' & Ho & Hm).
    assert (0 <= base + PGSIZE * Z.of_nat k < vend + PGSIZE) by (subst total; mlia).
    rewrite u32_small by lia.
    destruct (base + PGSIZE * Z.of_nat k + PGSIZE <=? vend) eqn:E.
    + assert (k < total)%nat as Hlt by (subst total; mlia).
      set (p := base + PGSIZE * Z.of_nat k) in *.
      assert (Hp : p ∈ range_pages vstart vend).
      { apply elem_of_range_pages; [lia|]. subst p. split; mlia. }
      apply wp_bind. eapply wp_kfree; [..|exact Hf'|].
      * split; [|split]; subst p; mlia.
      * rewrite elem_of_app, elem_of_reverse. intros [Hin|Hin]; [|by eapply Hnew].
        apply list_elem_of_fmap in Hin as (j & Hj & Hs). apply elem_of_seq in Hs. lia.
      * by eapply alloc_only_ready.
      * intros Hf''. apply wp_ret. split; [|subst p; mlia].
        exists (S k). split; [lia|]. split; [lia|]. split; [done|].
        split; [|split; [eapply alloc_only_trans; [done|apply alloc_only_freed]|]].
        -- unfold base. by rewrite range_pages_snoc, reverse_snoc.
        -- intros a Ha. assert (v2p vstart = vstart - KERNBASE) by (apply v2p_eq; lia).
           assert (v2p p = p - KERNBASE) by (apply v2p_eq; subst p; mlia). assert (vstart <= p) by (subst p; mlia).
           simpl. rewrite ld8_st32, ld8_memset, (proj2 (Z.leb_gt _ a)) by lia. by apply Hm.
    + assert (k = total) as -> by (subst total; mlia).
      apply wp_ret. done.
Qed.

(** * Properties *)

(** On a well-formed free list [l], [kalloc] returns the first page of [l],
    takes exactly that page off the list and decrements [free_frame_cnt] with it,
    leaving memory alone; the page is a whole page above the kernel that is on the
    list only once.  On the empty list it returns 0 and changes nothing. *)
Lemma kalloc_spec e s l :
  kmem_ready s -> free_rep s l ->
  match l with
  | [] => kalloc e s = Done 0 e s
  | v :: l' =>
      kalloc e s = Done v e (popped s) /\ page_ok v /\ (v ∉ l') /\
      free_rep (popped s) l' /\ k_mem (popped s) = k_mem s /\ alloc_only s (popped s)
  end.
Proof.
  intros Hr Hf. pose proof (kalloc_eq e s Hr) as Hk.
  pose proof (free_rep_head s l Hf) as [Hh Hb]. rewrite Hb in Hk.
  destruct l as [|v l]; [done|]. rewrite Hh in Hk.
  pose proof (fr_nodup _ _ Hf) as [? _]%NoDup_cons.
  pose proof (fr_pages _ _ Hf) as [? _]%Forall_cons.
  pose proof (free_rep_popped _ _ _ Hf). pose proof (alloc_only_popped s). done.
Qed.

(** [kfree] refuses with a panic every address that is not a whole page
    between the end of the kernel and PHYSTOP.  Given a page that is not already
    free, it puts the page at the head of the list, increments [free_frame_cnt],
    fills the rest of the page with ones and touches no other byte of memory. *)
Lemma kfree_spec v e s l :
  0 <= v < 4294967296 -> kmem_ready s -> free_rep s l ->
  (~ page_ok v -> kfree v e s = Panic "kfree" s) /\
  (page_ok v -> v ∉ l ->
     kfree v e s = Done tt e (freed v s) /\ free_rep (freed v s) (v :: l) /\
     alloc_only s (freed v s) /\
     (forall a, v2p v + 4 <= a < v2p v + PGSIZE -> ld8 (k_mem (freed v s)) a = 1) /\
     (forall a, a < v2p v \/ v2p v + PGSIZE <= a ->
        ld8 (k_mem (freed v s)) a = ld8 (k_mem s) a)).
Proof.
  intros Hv Hr Hf. split.
  - intros Hn. apply kfree_panic. intros (Ha & Hlo & Hhi). apply Hn.
    destruct Hsym. rewrite v2p_eq in Hhi by lia. repeat split; lia.
  - intros Hp Hn. split; [by apply kfree_eq|]. split; [by apply free_rep_freed|].
    split; [apply alloc_only_freed|].
    split; intros a Ha; simpl; rewrite ld8_st32, ld8_memset by lia; zif; done.
Qed.

(** C17: the two phases of the allocator's initialisation put every whole page of
    physical memory above the kernel on the free list exactly once, with
    [free_frame_cnt] their number, and turn the allocator's lock on. *)
Theorem kinit_boot e s :
  freelist (k_kmem s) = 0 -> k_free_frame_cnt s = 0 ->
  wp (kinit1 sym_end (p2v (4 * 1024 * 1024));; kinit2 (p2v (4 * 1024 * 1024)) (p2v PHYSTOP))
    (fun _ e' s' => exists l,
       e' = e /\ free_rep s' l /\ (forall p, p ∈ l <-> page_ok p) /\
       k_free_frame_cnt s' = (KERNBASE + PHYSTOP - PGROUNDUP sym_end) / PGSIZE /\
       use_lock (k_kmem s') = 1 /\ unlocked L_kmem s') e s.
Proof.
  intros Hf Hc.
  assert (KERNLINK <= sym_end < KERNBASE + 4 * 1024 * 1024) as Hend by (destruct Hsym; lia).
  change (p2v (4 * 1024 * 1024)) with (KERNBASE + 4 * 1024 * 1024).
  change (p2v PHYSTOP) with (KERNBASE + PHYSTOP).
  assert (forall a b p, a <= b -> KERNLINK <= a -> b <= KERNBASE + PHYSTOP ->
    p ∈ range_pages a b <-> p mod PGSIZE = 0 /\ a <= p /\ p + PGSIZE <= b) as Hrp.
  { intros. apply elem_of_range_pages. lia. }
  unfold kinit1, kinit2, initlock. wp_steps.
  match goal with |- wp (freerange _ _) _ _ ?x => set (s1 := x) end.
  eapply wp_mono; [apply (freerange_ok _ _ e s1 [])|]; [lia|lia|lia|done| |set_solver|].
  { by split; [..|]; [|constructor|constructor|]. }
  intros _ e1 s2 (-> & Hf2 & Ho2 & _). wp_steps.
  eapply wp_mono; [eapply freerange_ok; [..|exact Hf2|]|]; [lia|lia|lia| | |].
  { by eapply alloc_only_ready. }
  { intros p. rewrite app_nil_r, elem_of_reverse, !Hrp by lia. lia. }
  intros _ e2 s3 (-> & Hf3 & Ho3 & _). wp_steps.
  eexists. split; [done|]. split; [by eapply free_rep_ext; [..|exact Hf3]|]. split; [|split; [|split]].
  - intros p. rewrite app_nil_r, elem_of_app, !elem_of_reverse, !Hrp by lia.
    unfold page_ok. mlia.
  - simpl. rewrite (fr_count _ _ Hf3), app_nil_r, length_app, !length_reverse.
    unfold range_pages. rewrite !length_fmap, !length_seq.
    rewrite !PGROUNDUP_eq by lia. mlia.
  - done.
  - destruct Ho2 as (? & ? & ? & -> & _), Ho3 as (? & ? & ? & -> & _).
    exists "kmem"%string. simpl. by rewrite lookup_insert_eq.
Qed.

End kalloc.

(** * The properties at concrete states *)

#[local] Existing Instance built_symbols.

(** A free list of one page in the memory of a freshly started kernel. *)
Definition one_free_page : kernel :=
  set_k_kmem (mkKmem 0 0x80400000) (set_k_free_frame_cnt 1 boot_state).

Lemma one_free_page_rep : free_rep one_free_page [0x80400000].
Proof.
  split; [done|by repeat constructor; set_solver| |done].
  constructor; [|constructor]. by vm_compute.
Qed.

Lemma kalloc_spec_witness :
  free_rep one_free_page [0x80400000] /\
  kalloc [] one_free_page = Done 0x80400000 [] (popped one_free_page).
Proof.
  split; [exact one_free_page_rep|].
  apply (kalloc_spec [] one_free_page [0x80400000]);
    [done|exact one_free_page_rep].
Defined.

Lemma kfree_spec_witness :
  free_rep (freed 0x80401000 one_free_page) [0x80401000; 0x80400000].
Proof.
  apply (kfree_spec 0x80401000 [] one_free_page [0x80400000]);
    [lia|done|exact one_free_page_rep|by vm_compute|].
  by rewrite list_elem_of_singleton.
Defined.

Lemma kinit_boot_witness :
  exists s', k_free_frame_cnt s' = 57065.
Proof.
  pose proof (kinit_boot [] boot_state eq_refl eq_refl) as H.
  destruct (wp_elim _ _ _ _ H) as (_ & _ & s' & _ & l & _ & _ & _ & Hc & _).
  exists s'. rewrite Hc. vm_compute. reflexivity.
Defined.
