(* ===== verification/Vm.v ===== *)
(** vm.c: page tables and user address spaces.

    Page directories and page tables are pages of physical memory, read and
    written one 32-bit entry at a time.  Pointers are kernel virtual addresses,
    which the kernel maps to physical memory at [KERNBASE] ([v2p], [p2v]).
    [loaduvm], which reads from an inode, is with [exec]. *)

From S2P Require Import Prelude Params Mem State Spinlock Console Kalloc.

Section vm.
Context `{Symbols}.

(** [*(uint* )a] and [*(uint* )a = v] for a kernel address [a]. *)
Definition kread32 (a : Z) : K Z := get (fun s => ld32 (k_mem s) (v2p a)).
Definition kwrite32 (a v : Z) : K unit := modify (on_mem (fun m => st32 m (v2p a) v)).

Definition kmemset (dst c n : Z) : K unit := modify (on_mem (fun m => memset m (v2p dst) c n)).
Definition kmemmove (dst src n : Z) : K unit :=
  modify (on_mem (fun m => memmove m (v2p dst) (v2p src) n)).

(** Copy a kernel buffer, given by its contents, to [dst]. *)
Fixpoint write_bytes (m : memory) (a : Z) (bs : list Z) : memory :=
  match bs with
  | [] => m
  | b :: bs' => write_bytes (st8 m a b) (a + 1) bs'
  end.

Definition kcopyin (dst : Z) (bs : list Z) : K unit :=
  modify (on_mem (fun m => write_bytes m (v2p dst) bs)).

(** Return the address of the PTE in page table [pgdir] that corresponds to
    virtual address [va], 0 if there is none and [alloc] is 0 or memory is out. *)
Definition walkpgdir (pgdir va alloc : Z) : K Z :=
  let pde := pgdir + 4 * PDX va in
  d ← kread32 pde;
  if cbool (Z.land d PTE_P)
  then mret (p2v (PTE_ADDR d) + 4 * PTX va)
  else if negb (cbool alloc) then mret 0
  else
    pgtab ← kalloc;
    if pgtab =? 0 then mret 0
    else
      kmemset pgtab 0 PGSIZE;;
      kwrite32 pde (Z.lor (Z.lor (Z.lor (v2p pgtab) PTE_P) PTE_W) PTE_U);;
      mret (pgtab + 4 * PTX va).

(** Create PTEs for the pages of [va, va+size), mapped to [pa] onwards.  The loop
    leaves when it reaches the last page, so it runs once per page. *)
Definition mappages (pgdir va size pa perm : Z) : K Z :=
  let a := PGROUNDDOWN va in
  let last := PGROUNDDOWN (u32 (va + size - 1)) in
  loop (Z.to_nat (u32 (last - a) / PGSIZE + 1))
    (fun '(a, pa) =>
       pte ← walkpgdir pgdir a 1;
       if pte =? 0 then mret (inr (-1))
       else
         v ← kread32 pte;
         if cbool (Z.land v PTE_P) then panic "remap"
         else
           kwrite32 pte (Z.lor (Z.lor pa perm) PTE_P);;
           if a =? last then mret (inr 0)
           else mret (inl (u32 (a + PGSIZE), u32 (pa + PGSIZE))))
    (a, pa).

(** The kernel's mappings, present in every page table: virtual start, physical
    start and end, permissions. *)
Definition kmap : list (Z * Z * Z * Z) :=
  [ (KERNBASE, 0, EXTMEM, PTE_W);
    (KERNLINK, v2p KERNLINK, v2p sym_data, 0);
    (sym_data, v2p sym_data, PHYSTOP, PTE_W);
    (DEVSPACE, DEVSPACE, 0, PTE_W) ].

Definition setupkvm : K Z :=
  pgdir ← kalloc;
  if pgdir =? 0 then mret 0 else
  kmemset pgdir 0 PGSIZE;;
  if DEVSPACE <? p2v PHYSTOP then panic "PHYSTOP too high" else
  r ← for_each kmap (fun '(virt, phys_start, phys_end, perm) =>
        m ← mappages pgdir virt (u32 (phys_end - phys_start)) phys_start perm;
        if m <? 0 then mret (Some 0) else mret None);
  mret (default pgdir r).

Definition lcr3 (val : Z) : K unit := modify (on_cpu (set_cr3 val)).

Definition switchkvm : K unit :=
  k ← get k_kpgdir;
  lcr3 (v2p k).

Definition kvmalloc : K unit :=
  k ← setupkvm;
  modify (set_k_kpgdir k);;
  switchkvm.

(** Switch the task state segment and the page table to process [p].  The
    descriptor of the task state segment in the GDT is not part of the model. *)
Definition switchuvm (p : proc_t) : K unit :=
  pushcli;;
  modify (on_cpu (set_ts_ss0 (Z.shiftl SEG_KDATA 3)));;
  cur ← get (fun s => cpu_proc (k_cpu s));
  ks ← get (fun s => default 0 (i ← cur; q ← k_ptable s !! i; Some (kstack q)));
  modify (on_cpu (set_ts_esp0 (u32 (ks + KSTACKSIZE))));;
  if pgdir p =? 0 then panic "switchuvm: no pgdir" else
  lcr3 (v2p (pgdir p));;
  popcli.

(** Load the initcode into address 0 of [pgdir]; [init] must be less than a page. *)
Definition inituvm (pgdir : Z) (init : list Z) : K unit :=
  if PGSIZE <=? Z.of_nat (length init) then panic "inituvm: more than a page" else
  mem ← kalloc;
  kmemset mem 0 PGSIZE;;
  mappages pgdir 0 PGSIZE (v2p mem) (Z.lor PTE_W PTE_U);;
  kcopyin mem init.

(** Deallocate user pages to bring the process size from [oldsz] to [newsz].
    Each round advances [a] by at least a page. *)
Definition deallocuvm (pgdir oldsz newsz : Z) : K Z :=
  if oldsz <=? newsz then mret oldsz else
  loop (Z.to_nat (oldsz / PGSIZE + 2))
    (fun a =>
       if negb (a <? oldsz) then mret (inr newsz)
       else
         pte ← walkpgdir pgdir a 0;
         a ← (if pte =? 0 then mret (u32 (a + (NPTENTRIES - 1) * PGSIZE))
              else
                v ← kread32 pte;
                if cbool (Z.land v PTE_P) then
                  let pa := PTE_ADDR v in
                  if pa =? 0 then panic "kfree"
                  else kfree (p2v pa);; kwrite32 pte 0;; mret a
                else mret a);
         mret (inl (u32 (a + PGSIZE))))
    (PGROUNDUP newsz).

(** Allocate page tables and physical memory to grow a process from [oldsz] to
    [newsz].  Returns the new size or 0 on error. *)
Definition allocuvm (pgdir oldsz newsz : Z) : K Z :=
  if KERNBASE <=? newsz then mret 0
  else if newsz <? oldsz then mret oldsz
  else
    loop (Z.to_nat (newsz / PGSIZE + 2))
      (fun a =>
         if negb (a <? newsz) then mret (inr newsz)
         else
           mem ← kalloc;
           if mem =? 0 then
             cprintf ("allocuvm out of memory" +:+ nl) [];;
             deallocuvm pgdir newsz oldsz;;
             mret (inr 0)
           else
             kmemset mem 0 PGSIZE;;
             mappages pgdir a PGSIZE (v2p mem) (Z.lor PTE_W PTE_U);;
             mret (inl (u32 (a + PGSIZE))))
      (PGROUNDUP oldsz).

(** Free a page table and all the physical memory pages in the user part. *)
Definition freevm (pgdir : Z) : K unit :=
  if pgdir =? 0 then panic "freevm: no pgdir" else
  deallocuvm pgdir KERNBASE 0;;
  for_each (seqZ 0 NPDENTRIES) (fun i =>
    d ← kread32 (pgdir + 4 * i);
    when (cbool (Z.land d PTE_P)) (kfree (p2v (PTE_ADDR d)));;
    mret (None : option unit));;
  kfree pgdir.

(** Clear PTE_U on a page. *)
Definition clearpteu (pgdir uva : Z) : K unit :=
  pte ← walkpgdir pgdir uva 0;
  if pte =? 0 then panic "clearpteu" else
  v ← kread32 pte;
  kwrite32 pte (Z.land v (Z.lnot PTE_U)).

(** Given a parent process's page table, create a copy of it for a child. *)
Definition copyuvm (pgdir sz : Z) : K Z :=
  d ← setupkvm;
  if d =? 0 then mret 0 else
  r ← loop (Z.to_nat (sz / PGSIZE + 2))
    (fun i =>
       if negb (i <? sz) then mret (inr true)
       else
         pte ← walkpgdir pgdir i 0;
         if pte =? 0 then panic "copyuvm: pte should exist" else
         v ← kread32 pte;
         if negb (cbool (Z.land v PTE_P)) then panic "copyuvm: page not present" else
         let pa := PTE_ADDR v in
         let flags := PTE_FLAGS v in
         mem ← kalloc;
         if mem =? 0 then mret (inr false)
         else
           kmemmove mem (p2v pa) PGSIZE;;
           m ← mappages d i PGSIZE (v2p mem) flags;
           if m <? 0 then mret (inr false)
           else mret (inl (u32 (i + PGSIZE))))
    0;
  if (r : bool) then mret d
  else freevm d;; mret 0.

(** The entry a page directory gives for a virtual address: 0 when the page table
    is missing.  [m] is physical memory, [pd] a kernel pointer. *)
Definition pde_of (m : memory) (pd i : Z) : Z := ld32 m (v2p (pd + 4 * i)).
Definition present (x : Z) : bool := cbool (Z.land x PTE_P).
Definition pte_of (m : memory) (pd va : Z) : Z :=
  let d := pde_of m pd (PDX va) in
  if present d then ld32 m (v2p (p2v (PTE_ADDR d) + 4 * PTX va)) else 0.

(** A 32-bit read through the page table in [cr3]; [None] is a page fault. *)
Definition vread32 (s : kernel) (va : Z) : option Z :=
  let v := pte_of (k_mem s) (p2v (cr3 (k_cpu s))) va in
  if present v then Some (ld32 (k_mem s) (PTE_ADDR v + va mod PGSIZE)) else None.

(** Map user virtual address to kernel address.  When the page table is missing,
    [walkpgdir] returns a null pointer and the code reads through it: virtual
    address 0 of the current page table. *)
Definition uva2ka (pgdir uva : Z) : K Z :=
  pte ← walkpgdir pgdir uva 0;
  v ← (if pte =? 0
       then (o ← get (fun s => vread32 s 0);
             match o with Some v => mret v | None => hang end)
       else kread32 pte);
  if negb (cbool (Z.land v PTE_P)) then mret 0
  else if negb (cbool (Z.land v PTE_U)) then mret 0
  else mret (p2v (PTE_ADDR v)).

(** Copy the bytes [p] to user address [va] in page table [pgdir], a page at a
    time. *)
Definition copyout (pgdir va : Z) (p : list Z) : K Z :=
  loop (S (length p))
    (fun '(va, buf) =>
       match buf with
       | [] => mret (inr 0)
       | _ =>
           let va0 := PGROUNDDOWN va in
           pa0 ← uva2ka pgdir va0;
           if pa0 =? 0 then mret (inr (-1))
           else
             let n := PGSIZE - (va - va0) in
             let n := if Z.of_nat (length buf) <? n then Z.of_nat (length buf) else n in
             kcopyin (pa0 + (va - va0)) (take (Z.to_nat n) buf);;
             mret (inl (u32 (va0 + PGSIZE), drop (Z.to_nat n) buf))
       end)
    (va, p).

End vm.
