(* ===== verification/VmTables.v ===== *)
(** The meaning of page tables, and what [walkpgdir] and [mappages] do to it.

    A page directory [pd] in memory [m] denotes the function [pte_of m pd] from
    virtual addresses to entries.  [pt_wf m pd] says that the directory and its
    page tables are distinct whole pages; [vm_inv s pd l] adds that none of them is
    on the free list [l].  The two writes the code makes, a new page table and a
    new entry, are shown to change [pte_of] at no address and at one page. *)

From S2P Require Import Prelude Params Mem State Spinlock Console Kalloc Vm.

Section tables.
Context `{Symbols} {Hsym : SymbolsOk}.

(** The kernel address of the [i]-th page table. *)
Definition tab (m : memory) (pd i : Z) : Z := p2v (PTE_ADDR (pde_of m pd i)).

Record pt_wf (m : memory) (pd : Z) : Prop := {
  pw_pd : page_ok pd;
  pw_tab : forall i, 0 <= i < 1024 -> present (pde_of m pd i) = true ->
             page_ok (tab m pd i) /\ tab m pd i <> pd;
  pw_inj : forall i j, 0 <= i < 1024 -> 0 <= j < 1024 ->
             present (pde_of m pd i) = true -> present (pde_of m pd j) = true ->
             tab m pd i = tab m pd j -> i = j
}.

(** The pages that make up the directory [pd]. *)
Definition pt_page (m : memory) (pd p : Z) : Prop :=
  p = pd \/ exists i, 0 <= i < 1024 /\ present (pde_of m pd i) = true /\ p = tab m pd i.

(** Physical address [a] is in none of the pages of [P]. *)
Definition outside (a : Z) (P : Z -> Prop) : Prop :=
  forall p, P p -> a < v2p p \/ v2p p + PGSIZE <= a.

Lemma present_eq x : present x = (x mod 2 =? 1).
Proof.
  unfold present, cbool. change PTE_P with (Z.ones 1). rewrite Z.land_ones by lia.
  change (2 ^ 1) with 2. mlia.
Qed.

Lemma present_0 : present 0 = false.
Proof. done. Qed.

Lemma present_lor x y : present (Z.lor (Z.lor x y) PTE_P) = true.
Proof.
  unfold present, cbool. apply negb_true_iff, Z.eqb_neq.
  intros Hz. apply (f_equal (fun z => Z.testbit z 0)) in Hz.
  rewrite Z.land_spec, Z.lor_spec in Hz. change (Z.testbit PTE_P 0) with true in Hz.
  rewrite orb_true_r, Z.bits_0 in Hz. done.
Qed.

Lemma PTX_range va : 0 <= PTX va < 1024.
Proof. rewrite PTX_eq. apply Z.mod_pos_bound. lia. Qed.

Lemma PDX_range va : 0 <= va < 4294967296 -> 0 <= PDX va < 1024.
Proof. intros. rewrite PDX_eq by done. mlia. Qed.

(** The two indices determine the page of a virtual address. *)
Lemma PDX_PTX_inj va va' :
  0 <= va < 4294967296 -> 0 <= va' < 4294967296 ->
  PDX va = PDX va' -> PTX va = PTX va' -> va / PGSIZE = va' / PGSIZE.
Proof. intros ? ?. rewrite !PDX_eq, !PTX_eq by done. mlia. Qed.

Lemma v2p_entry p i : page_ok p -> 0 <= i < 1024 -> v2p (p + 4 * i) = v2p p + 4 * i.
Proof.
  intros Hp Hi. pose proof (page_ok_range p Hp). rewrite !v2p_eq by lia. lia.
Qed.

Lemma pde_of_range m pd i : 0 <= pde_of m pd i < 4294967296.
Proof. apply ld32_range. Qed.

Lemma pte_of_range m pd va : 0 <= pte_of m pd va < 4294967296.
Proof. unfold pte_of. case_match; [apply ld32_range|lia]. Qed.

(** An entry of the directory only depends on the directory's page. *)
Lemma pde_of_ext m m' pd i :
  page_ok pd -> 0 <= i < 1024 ->
  (forall a, v2p pd <= a < v2p pd + PGSIZE -> ld8 m' a = ld8 m a) ->
  pde_of m' pd i = pde_of m pd i.
Proof.
  intros Hp Hi Hm. unfold pde_of. rewrite v2p_entry by done.
  apply ld32_ext. intros x Hx. apply Hm. lia.
Qed.

(** Memory that agrees on all the pages of a directory gives the same tables. *)
Lemma pt_stable m m' pd :
  pt_wf m pd ->
  (forall p, pt_page m pd p -> forall a, v2p p <= a < v2p p + PGSIZE -> ld8 m' a = ld8 m a) ->
  (forall i, 0 <= i < 1024 -> pde_of m' pd i = pde_of m pd i) /\
  (forall va, 0 <= va < 4294967296 -> pte_of m' pd va = pte_of m pd va).
Proof.
  intros [Hpd Htab _] Hm.
  assert (Hd : forall i, 0 <= i < 1024 -> pde_of m' pd i = pde_of m pd i).
  { intros i Hi. apply pde_of_ext; [done|done|]. apply Hm. by left. }
  split; [exact Hd|]. intros va Hva. pose proof (PDX_range va Hva) as Hx.
  unfold pte_of. rewrite Hd by done. destruct (present _) eqn:E; [|done].
  destruct (Htab _ Hx E) as [Hok _]. unfold tab in Hok.
  pose proof (PTX_range va). rewrite v2p_entry by done. apply ld32_ext. intros y Hy.
  apply (Hm (tab m pd (PDX va))); [|unfold tab; lia].
  right. eauto.
Qed.

(** Directories that agree entry by entry are made of the same pages. *)
Lemma pt_wf_same m m' pd :
  (forall i, 0 <= i < 1024 -> pde_of m' pd i = pde_of m pd i) -> pt_wf m pd -> pt_wf m' pd.
Proof.
  intros Hd [Hpd Htab Hinj]. split; [done| |].
  - intros i Hi. unfold tab. rewrite Hd by done. by apply Htab.
  - intros i j Hi Hj. unfold tab. rewrite !Hd by done. by apply Hinj.
Qed.

Lemma pt_page_same m m' pd p :
  (forall i, 0 <= i < 1024 -> pde_of m' pd i = pde_of m pd i) ->
  pt_page m' pd p <-> pt_page m pd p.
Proof.
  intros Hd. unfold pt_page, tab.
  split; (intros [->|(i & Hi & Hp & ->)]; [by left|right; exists i]).
  - rewrite <- Hd by done. done.
  - rewrite Hd by done. done.
Qed.

(** ** A new entry in an existing page table *)

Section write_entry.
Variables (m : memory) (pd va x : Z).
Hypothesis Hwf : pt_wf m pd.
Hypothesis Hva : 0 <= va < 4294967296.
Hypothesis Hp : present (pde_of m pd (PDX va)) = true.
Hypothesis Hx : 0 <= x < 4294967296.

Let m' := st32 m (v2p (tab m pd (PDX va) + 4 * PTX va)) x.

Lemma entry_addr :
  page_ok (tab m pd (PDX va)) /\ tab m pd (PDX va) <> pd /\
  v2p (tab m pd (PDX va) + 4 * PTX va) = v2p (tab m pd (PDX va)) + 4 * PTX va.
Proof.
  destruct (pw_tab _ _ Hwf (PDX va) (PDX_range va Hva) Hp) as [Hok Hne].
  split; [done|]. split; [done|]. apply v2p_entry; [done|apply PTX_range].
Qed.

Lemma write_entry_mem a :
  a < v2p (tab m pd (PDX va)) \/ v2p (tab m pd (PDX va)) + PGSIZE <= a ->
  ld8 m' a = ld8 m a.
Proof.
  intros Ha. destruct entry_addr as (Hok & _ & Hv). subst m'. rewrite Hv, ld8_st32.
  pose proof (PTX_range va). by zif.
Qed.

Lemma write_entry_pde i : 0 <= i < 1024 -> pde_of m' pd i = pde_of m pd i.
Proof.
  intros Hi. apply pde_of_ext; [apply Hwf|done|]. intros a Ha.
  destruct entry_addr as (Hok & Hne & _).
  apply write_entry_mem.
  pose proof (page_disjoint _ _ Hok (pw_pd _ _ Hwf) Hne). lia.
Qed.

Lemma write_entry_pte va' :
  0 <= va' < 4294967296 ->
  pte_of m' pd va' = if va' / PGSIZE =? va / PGSIZE then x else pte_of m pd va'.
Proof.
  intros Hva'. unfold pte_of. pose proof (PDX_range va' Hva') as Hr.
  rewrite write_entry_pde by done.
  destruct (decide (va' / PGSIZE = va / PGSIZE)) as [E|E].
  - assert (PDX va' = PDX va) as -> by (rewrite !PDX_eq by done; mlia).
    assert (PTX va' = PTX va) as -> by (rewrite !PTX_eq; mlia).
    rewrite Hp. unfold m'. fold (tab m pd (PDX va)).
    rewrite ld32_st32_eq, u32_small by done. by zif.
  - destruct (va' / PGSIZE =? va / PGSIZE) eqn:E'; [lia|].
    destruct (present (pde_of m pd (PDX va'))) eqn:Hp'; [|done].
    fold (tab m pd (PDX va')).
    destruct (pw_tab _ _ Hwf _ Hr Hp') as [Hok' _]. destruct entry_addr as (Hok & _ & Hv).
    unfold m'. rewrite Hv, v2p_entry by (done || apply PTX_range).
    pose proof (PTX_range va). pose proof (PTX_range va').
    apply ld32_st32_ne.
    destruct (decide (PDX va' = PDX va)) as [Ed|Ed].
    + rewrite Ed in *. enough (PTX va' <> PTX va) by lia.
      intros Et. apply E. by apply PDX_PTX_inj.
    + assert (tab m pd (PDX va) <> tab m pd (PDX va')) as Hne.
      { intros Et. apply Ed. symmetry.
        apply (pw_inj _ _ Hwf); [by apply PDX_range|done|done|done|done]. }
      pose proof (page_disjoint _ _ Hok Hok' Hne). lia.
Qed.

End write_entry.

(** ** A new, empty page table *)

(** The directory entry of a new page table. *)
Definition table_pde (v : Z) : Z := Z.lor (Z.lor (Z.lor (v2p v) PTE_P) PTE_W) PTE_U.

Lemma new_table_entry v :
  page_ok v ->
  0 <= table_pde v < 4294967296 /\ present (table_pde v) = true /\
  p2v (PTE_ADDR (table_pde v)) = v.
Proof.
  intros Hv. destruct (page_ok_frame v Hv) as [Hr Ha].
  assert (table_pde v = v2p v + 7) as ->.
  { unfold table_pde. rewrite <- !Z.lor_assoc. change (Z.lor PTE_P (Z.lor PTE_W PTE_U)) with 7.
    apply pte_make; [done|lia]. }
  split; [lia|]. rewrite present_eq. split; [mlia|].
  rewrite PTE_ADDR_eq. replace (v2p v + 7 - (v2p v + 7) mod PGSIZE) with (v2p v) by mlia.
  apply p2v_v2p. pose proof (page_ok_range v Hv). lia.
Qed.

Section new_table.
Variables (m : memory) (pd va v : Z).
Hypothesis Hwf : pt_wf m pd.
Hypothesis Hva : 0 <= va < 4294967296.
Hypothesis Hp : present (pde_of m pd (PDX va)) = false.
Hypothesis Hv : page_ok v.
Hypothesis Hnew : ~ pt_page m pd v.

Let m' := st32 (memset m (v2p v) 0 PGSIZE) (v2p (pd + 4 * PDX va)) (table_pde v).

Lemma new_table_mem a :
  (a < v2p pd \/ v2p pd + PGSIZE <= a) -> (a < v2p v \/ v2p v + PGSIZE <= a) ->
  ld8 m' a = ld8 m a.
Proof.
  intros Ha Hb. pose proof (PDX_range va Hva). unfold m'.
  rewrite v2p_entry by (done || apply Hwf). rewrite ld8_st32, ld8_memset by lia. by zif.
Qed.

Lemma new_table_pde i :
  0 <= i < 1024 -> pde_of m' pd i = if i =? PDX va then table_pde v else pde_of m pd i.
Proof.
  intros Hi. pose proof (PDX_range va Hva).
  assert (Hpd : page_ok pd) by apply Hwf.
  unfold pde_of, m'. rewrite !v2p_entry by done.
  destruct (i =? PDX va) eqn:E.
  - replace i with (PDX va) by lia. rewrite ld32_st32_eq. by apply u32_small, new_table_entry.
  - rewrite ld32_st32_ne by lia. apply ld32_memset_ne; [lia|].
    assert (v <> pd) as Hne by (intros ->; apply Hnew; by left).
    pose proof (page_disjoint _ _ Hv Hpd Hne). lia.
Qed.

Lemma new_table_pte va' : 0 <= va' < 4294967296 -> pte_of m' pd va' = pte_of m pd va'.
Proof.
  intros Hva'. unfold pte_of. pose proof (PDX_range va' Hva'). pose proof (PTX_range va').
  rewrite new_table_pde by done. destruct (new_table_entry v Hv) as (_ & Hpr & Haddr).
  assert (Hpd : page_ok pd) by apply Hwf.
  destruct (PDX va' =? PDX va) eqn:E.
  - replace (PDX va') with (PDX va) by lia. rewrite Hpr, Hp, Haddr.
    assert (v <> pd) as Hne by (intros ->; apply Hnew; by left).
    pose proof (page_disjoint _ _ Hv Hpd Hne). pose proof (PDX_range va Hva).
    unfold m'. rewrite !v2p_entry by done.
    rewrite ld32_st32_ne by lia. rewrite ld32_memset by lia. done.
  - destruct (present (pde_of m pd (PDX va'))) eqn:Hp'; [|done].
    destruct (pw_tab _ _ Hwf (PDX va') ltac:(done) Hp') as [Hok Hne]. unfold tab in Hok, Hne.
    rewrite v2p_entry by done. apply ld32_ext. intros a Ha. apply new_table_mem.
    + pose proof (page_disjoint _ _ Hpd Hok ltac:(done)). lia.
    + assert (v <> p2v (PTE_ADDR (pde_of m pd (PDX va')))) as Hne'.
      { intros ->. apply Hnew. right. eauto. }
      pose proof (page_disjoint _ _ Hv Hok Hne'). lia.
Qed.

Lemma new_table_wf : pt_wf m' pd.
Proof.
  destruct (new_table_entry v Hv) as (_ & Hpr & Haddr).
  assert (Htab : forall i, 0 <= i < 1024 ->
    tab m' pd i = if i =? PDX va then v else tab m pd i).
  { intros i Hi. unfold tab. rewrite new_table_pde by done. by destruct (i =? PDX va). }
  split; [apply Hwf| |].
  - intros i Hi Hpi. rewrite Htab by done. rewrite new_table_pde in Hpi by done.
    destruct (i =? PDX va); [|by apply Hwf].
    split; [done|]. intros ->. apply Hnew. by left.
  - intros i j Hi Hj. rewrite !Htab, !new_table_pde by done. intros Hpi Hpj.
    destruct (i =? PDX va) eqn:Ei, (j =? PDX va) eqn:Ej; intros Heq; [lia|..].
    + exfalso. apply Hnew. right. eauto.
    + exfalso. apply Hnew. right. eauto.
    + by apply (pw_inj _ _ Hwf).
Qed.

Lemma new_table_page p : pt_page m' pd p <-> pt_page m pd p \/ p = v.
Proof.
  destruct (new_table_entry v Hv) as (_ & Hpr & Haddr). pose proof (PDX_range va Hva).
  unfold pt_page, tab. split.
  - intros [->|(i & Hi & Hpi & ->)]; [by do 2 left|].
    rewrite new_table_pde in Hpi |- * by done.
    destruct (i =? PDX va); [by right|]. left. right. eauto.
  - intros [[->|(i & Hi & Hpi & ->)]| ->]; [by left|..].
    + right. exists i. rewrite new_table_pde by done.
      destruct (i =? PDX va) eqn:E; [|done].
      replace i with (PDX va) in Hpi by lia. congruence.
    + right. exists (PDX va). rewrite new_table_pde by done. by rewrite Z.eqb_refl.
Qed.

End new_table.

(** * The invariant of an address space under construction *)

Record vm_inv (s : kernel) (pd : Z) (l : list Z) : Prop := {
  vi_free : free_rep s l;
  vi_wf : pt_wf (k_mem s) pd;
  vi_sep : forall p, p ∈ l -> ~ pt_page (k_mem s) pd p;
  vi_ready : kmem_ready s
}.

(** From [s] with free list [l] to [s'] with [l']: pages left the free list, only
    page tables and pages of the free list were written. *)
Record vm_ext (pd : Z) (s : kernel) (l : list Z) (s' : kernel) (l' : list Z) : Prop := {
  ve_only : alloc_only s s';
  ve_suffix : l' `suffix_of` l;
  ve_old : forall p, pt_page (k_mem s) pd p -> pt_page (k_mem s') pd p;
  ve_new : forall p, pt_page (k_mem s') pd p -> pt_page (k_mem s) pd p \/ p ∈ l;
  ve_mem : forall a, outside a (fun p => pt_page (k_mem s) pd p \/ p ∈ l) ->
             ld8 (k_mem s') a = ld8 (k_mem s) a
}.

Lemma vm_ext_refl pd s l : vm_ext pd s l s l.
Proof. split; [apply alloc_only_refl|done|tauto|tauto|done]. Qed.

Lemma elem_of_suffix (l l' : list Z) p : l' `suffix_of` l -> p ∈ l' -> p ∈ l.
Proof. intros [k ->] ?. set_solver. Qed.

Lemma vm_ext_trans pd s1 l1 s2 l2 s3 l3 :
  vm_ext pd s1 l1 s2 l2 -> vm_ext pd s2 l2 s3 l3 -> vm_ext pd s1 l1 s3 l3.
Proof.
  intros [Ho Hs Hold Hnew Hm] [Ho' Hs' Hold' Hnew' Hm']. split.
  - by eapply alloc_only_trans.
  - by etrans.
  - auto.
  - intros p [Hp|Hp]%Hnew'; [auto|]. right. by eapply elem_of_suffix.
  - intros a Ha. rewrite Hm'; [by apply Hm|].
    intros p [Hp|Hp]; apply Ha; [by apply Hnew|]. right. by eapply elem_of_suffix.
Qed.

Lemma vm_page_ok s pd l p : vm_inv s pd l -> pt_page (k_mem s) pd p -> page_ok p.
Proof.
  intros Hi [->|(i & Hr & Hp & ->)]; [apply (vi_wf _ _ _ Hi)|].
  by apply (pw_tab _ _ (vi_wf _ _ _ Hi)).
Qed.

Lemma free_page_ok s l p : free_rep s l -> p ∈ l -> page_ok p.
Proof. intros Hf. pose proof (fr_pages _ _ Hf) as Hp. rewrite Forall_forall in Hp. auto. Qed.

(** The free list survives writes outside its pages. *)
Lemma free_rep_write s s' l :
  free_rep s l ->
  freelist (k_kmem s') = freelist (k_kmem s) -> k_free_frame_cnt s' = k_free_frame_cnt s ->
  (forall p, p ∈ l -> forall a, v2p p <= a < v2p p + PGSIZE ->
     ld8 (k_mem s') a = ld8 (k_mem s) a) ->
  free_rep s' l.
Proof.
  intros [Hc Hd Hp Hn] Hk Hn' Hm. split; [|done|done|by rewrite Hn'].
  rewrite Hk. eapply chain_ext; [|exact Hc]. intros v Hv. symmetry.
  apply ld32_ext. intros a Ha. apply (Hm v Hv). lia.
Qed.

(** ** walkpgdir *)

(** Looking an address up changes nothing. *)
Lemma walkpgdir_look pd va e s :
  walkpgdir pd va 0 e s =
    Done (if present (pde_of (k_mem s) pd (PDX va))
          then tab (k_mem s) pd (PDX va) + 4 * PTX va else 0) e s.
Proof.
  unfold walkpgdir. erewrite bind_Done by done.
  unfold tab, pde_of, present. by destruct (cbool (Z.land _ PTE_P)).
Qed.

Lemma walkpgdir_present pd va alloc e s :
  present (pde_of (k_mem s) pd (PDX va)) = true ->
  walkpgdir pd va alloc e s = Done (tab (k_mem s) pd (PDX va) + 4 * PTX va) e s.
Proof.
  intros Hp. unfold walkpgdir. erewrite bind_Done by done.
  unfold tab, pde_of, present in *. by rewrite Hp.
Qed.

Lemma tab_nonzero m pd va :
  pt_wf m pd -> 0 <= va < 4294967296 -> present (pde_of m pd (PDX va)) = true ->
  tab m pd (PDX va) + 4 * PTX va <> 0.
Proof.
  intros Hwf Hva Hp. destruct (pw_tab _ _ Hwf _ (PDX_range va Hva) Hp) as [Hok _].
  pose proof (page_ok_range _ Hok). pose proof (PTX_range va). lia.
Qed.

(** The pages that left the free list became page tables. *)
Definition tables_from (m : memory) (pd : Z) (l l' : list Z) : Prop :=
  forall p, p ∈ l -> p ∈ l' \/ pt_page m pd p.

Lemma tables_from_refl m pd l : tables_from m pd l l.
Proof. intros p. tauto. Qed.

Lemma tables_from_ext s2 pd s1 l1 l2 l3 l4 :
  tables_from (k_mem s1) pd l1 l2 -> tables_from (k_mem s2) pd l2 l3 -> vm_ext pd s1 l2 s2 l4 ->
  tables_from (k_mem s2) pd l1 l3.
Proof.
  intros H1 H2 He p [Hp|Hp]%H1; [by apply H2|]. right. by apply He.
Qed.

(** What a successful walk with allocation gives: the same mappings and a page
    table for [va]. *)
Definition walked (pd va : Z) (s : kernel) (l : list Z) (s' : kernel) (l' : list Z) : Prop :=
  vm_inv s' pd l' /\ vm_ext pd s l s' l' /\
  present (pde_of (k_mem s') pd (PDX va)) = true /\
  (forall va', 0 <= va' < 4294967296 -> pte_of (k_mem s') pd va' = pte_of (k_mem s) pd va') /\
  tables_from (k_mem s') pd l l' /\ (length l <= S (length l'))%nat /\
  (forall i, 0 <= i < 1024 -> present (pde_of (k_mem s') pd i) = true -> present (pde_of (k_mem s) pd i) = true \/ i = PDX va).

Lemma walked_new pd va s v l :
  vm_inv s pd (v :: l) -> 0 <= va < 4294967296 ->
  present (pde_of (k_mem s) pd (PDX va)) = false ->
  walked pd va s (v :: l)
    (on_mem (fun m => st32 m (v2p (pd + 4 * PDX va)) (table_pde v))
       (on_mem (fun m => memset m (v2p v) 0 PGSIZE) (popped s))) l.
Proof.
  intros Hi Hva Hp. destruct Hi as [Hf Hwf Hsep Hr].
  assert (Hv : page_ok v) by (eapply free_page_ok; [done|by left]).
  assert (Hnew : ~ pt_page (k_mem s) pd v) by (apply Hsep; by left).
  pose proof (fr_nodup _ _ Hf) as [Hn _]%NoDup_cons.
  pose proof (new_table_mem (k_mem s) pd va v Hwf Hva Hp) as Hmem.
  pose proof (new_table_page (k_mem s) pd va v Hwf Hva Hp Hv Hnew) as Hpage.
  set (s' := on_mem _ (on_mem _ (popped s))).
  change (st32 _ _ _) with (k_mem s') in Hmem, Hpage.
  assert (Ho : alloc_only s s') by (do 3 eexists; split; [reflexivity|done]).
  split_and!.
  - split.
    + eapply (free_rep_write (popped s)); [by eapply free_rep_popped|done|done|].
      intros p Hpl a Ha.
      assert (Hpok : page_ok p) by (eapply free_page_ok; [done|by right]).
      apply Hmem.
      * pose proof (page_disjoint p pd Hpok (pw_pd _ _ Hwf)) as Hd.
        destruct (decide (p = pd)) as [->|?]; [|lia].
        exfalso. apply (Hsep pd); [by right|by left].
      * assert (Hpv : p <> v) by congruence.
        pose proof (page_disjoint p v Hpok Hv Hpv). lia.
    + by apply new_table_wf.
    + intros p Hpl [Hpp| ->]%Hpage; [|done]. apply (Hsep p); [by right|done].
    + by eapply alloc_only_ready.
  - split; [done|by exists [v]| | |].
    + intros p Hpp. apply Hpage. by left.
    + intros p [Hpp| ->]%Hpage; [by left|right; by left].
    + intros a Ha. apply Hmem; apply Ha; [left; by left|right; by left].
  - change (k_mem s') with (st32 (memset (k_mem s) (v2p v) 0 PGSIZE) (v2p (pd + 4 * PDX va))
      (table_pde v)).
    rewrite new_table_pde by (done || by apply PDX_range). rewrite Z.eqb_refl.
    apply (new_table_entry v Hv).
  - intros va' Hva'. by apply new_table_pte.
  - intros p [->|Hpl]%elem_of_cons; [|by left]. right. apply Hpage. by right.
  - simpl. lia.
  - intros i Hi'. change (k_mem s') with (st32 (memset (k_mem s) (v2p v) 0 PGSIZE) (v2p (pd + 4 * PDX va)) (table_pde v)).
    rewrite new_table_pde by done. destruct (Z.eqb_spec i (PDX va)); auto.
Qed.

Lemma wp_walkpgdir pd va (Q : Z -> env kernel -> kernel -> Prop) e s l :
  vm_inv s pd l -> 0 <= va < 4294967296 ->
  (l = [] -> Q 0 e s) ->
  (forall s' l', walked pd va s l s' l' -> Q (tab (k_mem s') pd (PDX va) + 4 * PTX va) e s') ->
  wp (walkpgdir pd va 1) Q e s.
Proof.
  intros Hi Hva Hnone Hsome.
  destruct (present (pde_of (k_mem s) pd (PDX va))) eqn:Hp.
  - unfold wp. rewrite walkpgdir_present by done. apply (Hsome s l).
    split_and!; [done|apply vm_ext_refl|done|done| |lia|auto]. intros p. tauto.
  - unfold walkpgdir. unfold kread32. wp_steps. change (ld32 _ _) with (pde_of (k_mem s) pd (PDX va)).
    unfold present in Hp. rewrite Hp. wp_steps.
    eapply wp_kalloc; [apply Hi|apply Hi|]. destruct l as [|v l].
    + apply wp_ret. by apply Hnone.
    + intros Hv _ _. pose proof (page_ok_range v Hv). destruct (v =? 0) eqn:E; [lia|].
      unfold kmemset, kwrite32. wp_steps.
      pose proof (walked_new pd va s v l Hi Hva Hp) as Hw.
      assert (Hnew : ~ pt_page (k_mem s) pd v) by (apply (vi_sep _ _ _ Hi); by left).
      pose proof (Hsome _ _ Hw) as HQ. unfold tab in HQ. simpl in HQ.
      rewrite new_table_pde in HQ by (done || apply Hi || by apply PDX_range).
      rewrite Z.eqb_refl in HQ.
      by rewrite (proj2 (proj2 (new_table_entry v Hv))) in HQ.
Qed.

(** ** Writing an entry *)

Definition set_entry (pd va x : Z) (s : kernel) : kernel :=
  on_mem (fun m => st32 m (v2p (tab m pd (PDX va) + 4 * PTX va)) x) s.

Lemma set_entry_inv pd va x s l :
  vm_inv s pd l -> 0 <= va < 4294967296 -> 0 <= x < 4294967296 ->
  present (pde_of (k_mem s) pd (PDX va)) = true ->
  vm_inv (set_entry pd va x s) pd l /\ vm_ext pd s l (set_entry pd va x s) l.
Proof.
  intros [Hf Hwf Hsep Hr] Hva Hx Hp.
  pose proof (write_entry_mem (k_mem s) pd va x Hwf Hva Hp) as Hmem.
  pose proof (write_entry_pde (k_mem s) pd va x Hwf Hva Hp) as Hpde.
  assert (Htab : pt_page (k_mem s) pd (tab (k_mem s) pd (PDX va))).
  { right. exists (PDX va). split; [by apply PDX_range|done]. }
  assert (Hok : page_ok (tab (k_mem s) pd (PDX va))).
  { apply (pw_tab _ _ Hwf); [by apply PDX_range|done]. }
  assert (Hpage : forall p, pt_page (k_mem (set_entry pd va x s)) pd p <-> pt_page (k_mem s) pd p).
  { intros p. by apply pt_page_same. }
  split; split.
  - eapply free_rep_write; [done|done|done|]. intros p Hpl a Ha. apply Hmem.
    assert (Hne : p <> tab (k_mem s) pd (PDX va)) by (intros ->; by eapply Hsep).
    pose proof (page_disjoint p _ (free_page_ok _ _ _ Hf Hpl) Hok Hne). lia.
  - by eapply pt_wf_same.
  - intros p Hpl Hpp%Hpage. by eapply Hsep.
  - done.
  - do 3 eexists. split; [reflexivity|done].
  - done.
  - intros p. by rewrite Hpage.
  - intros p. rewrite Hpage. tauto.
  - intros a Ha. apply Hmem. apply Ha. by left.
Qed.

Lemma lor_range x y : 0 <= x < 4294967296 -> 0 <= y < 4294967296 -> 0 <= Z.lor x y < 4294967296.
Proof.
  intros Hx Hy. split; [apply Z.lor_nonneg; lia|].
  destruct (decide (Z.lor x y = 0)) as [->|Hne]; [lia|].
  assert (0 <= Z.lor x y) by (apply Z.lor_nonneg; lia).
  change 4294967296 with (2 ^ 32). apply Z.log2_lt_pow2; [lia|].
  rewrite Z.log2_lor by lia.
  assert (forall z, 0 <= z < 4294967296 -> Z.log2 z < 32).
  { intros z Hz. destruct (decide (z = 0)) as [->|?]; [done|]. apply Z.log2_lt_pow2; lia. }
  apply Z.max_lub_lt; auto.
Qed.

(** ** mappages *)

(** [m'] maps the [n] pages from [a] on to the frames from [pa] on, and is as [m]
    everywhere else. *)
Definition mapped (pd a n pa perm : Z) (m m' : memory) : Prop :=
  forall va, 0 <= va < 4294967296 ->
    pte_of m' pd va =
      if (a <=? va) && (va <? a + n * PGSIZE)
      then Z.lor (Z.lor (pa + (va / PGSIZE * PGSIZE - a)) perm) PTE_P
      else pte_of m pd va.

Lemma mapped_0 pd a pa perm m m' :
  (forall va, 0 <= va < 4294967296 -> pte_of m' pd va = pte_of m pd va) ->
  mapped pd a 0 pa perm m m'.
Proof. intros Hm va Hva. rewrite Hm by done. by zif. Qed.

Lemma mapped_same pd a n pa perm m m1 m2 :
  mapped pd a n pa perm m m1 ->
  (forall va, 0 <= va < 4294967296 -> pte_of m2 pd va = pte_of m1 pd va) ->
  mapped pd a n pa perm m m2.
Proof. intros Hm Hs va Hva. rewrite Hs by done. by apply Hm. Qed.

Lemma mapped_S pd a k pa perm m s :
  mapped pd a k pa perm m (k_mem s) ->
  pt_wf (k_mem s) pd -> a mod PGSIZE = 0 -> 0 <= a -> 0 <= k -> a + (k + 1) * PGSIZE <= 4294967296 ->
  0 <= pa -> pa + k * PGSIZE < 4294967296 -> 0 <= perm < 4294967296 ->
  present (pde_of (k_mem s) pd (PDX (a + k * PGSIZE))) = true ->
  mapped pd a (k + 1) pa perm m
    (k_mem (set_entry pd (a + k * PGSIZE) (Z.lor (Z.lor (pa + k * PGSIZE) perm) PTE_P) s)).
Proof.
  intros Hm Hwf Ha Ha0 Hk Hhi Hpa Hpa' Hperm Hp va Hva.
  assert (0 <= Z.lor (Z.lor (pa + k * PGSIZE) perm) PTE_P < 4294967296).
  { apply lor_range; [apply lor_range; lia|done]. }
  simpl. rewrite write_entry_pte by (done || lia). rewrite Hm by done.
  destruct (va / PGSIZE =? (a + k * PGSIZE) / PGSIZE) eqn:E.
  - replace (va / PGSIZE * PGSIZE - a) with (k * PGSIZE) by mlia.
    destruct ((a <=? va) && (va <? a + (k + 1) * PGSIZE)) eqn:E'; [done|exfalso; mlia].
  - destruct ((a <=? va) && (va <? a + k * PGSIZE)) eqn:E1,
      ((a <=? va) && (va <? a + (k + 1) * PGSIZE)) eqn:E2; try done; exfalso; mlia.
Qed.

(** The number of pages that [va, va+size) touches. *)
Definition span (va size : Z) : Z := (va + size - 1) / PGSIZE - va / PGSIZE + 1.

(** Page tables were added only for the [n] pages from [a] on. *)
Definition dirs_from (pd a n : Z) (m m' : memory) : Prop :=
  forall i, 0 <= i < 1024 -> present (pde_of m' pd i) = true ->
    present (pde_of m pd i) = true \/ exists k, 0 <= k < n /\ i = PDX (a + k * PGSIZE).

(** The outcome of [mappages]: all the pages mapped, or memory ran out after the
    first [k] of them. *)
Definition mappages_post (pd va size pa perm : Z) (s : kernel) (l : list Z) (r : Z) (s' : kernel) :
    Prop :=
  exists k l', vm_inv s' pd l' /\ vm_ext pd s l s' l' /\
    mapped pd (PGROUNDDOWN va) k pa perm (k_mem s) (k_mem s') /\
    tables_from (k_mem s') pd l l' /\ (length l <= length l' + Z.to_nat k)%nat /\
    dirs_from pd (PGROUNDDOWN va) (span va size) (k_mem s) (k_mem s') /\
    (r = 0 /\ k = span va size \/ r = -1 /\ 0 <= k < span va size /\ l' = []).

Lemma wp_mappages pd va size pa perm e s l :
  vm_inv s pd l ->
  0 <= va -> 0 < size -> va + size <= 4294967296 ->
  0 <= pa -> pa + span va size * PGSIZE <= 4294967296 -> 0 <= perm < 4294967296 ->
  (forall va', PGROUNDDOWN va <= va' < PGROUNDDOWN va + span va size * PGSIZE ->
     present (pte_of (k_mem s) pd va') = false) ->
  wp (mappages pd va size pa perm) (fun r e' s' => e' = e /\
    mappages_post pd va size pa perm s l r s') e s.
Proof.
  intros Hi Hva Hsz Hhi Hpa Hpa' Hperm Habs. unfold mappages, mappages_post.
  rewrite (u32_small (va + size - 1)) by lia.
  assert (Hlast : PGROUNDDOWN (va + size - 1) = PGROUNDDOWN va + (span va size - 1) * PGSIZE).
  { rewrite !PGROUNDDOWN_eq by lia. unfold span. mlia. }
  assert (Hn : 1 <= span va size) by (unfold span; mlia).
  assert (Ha : 0 <= PGROUNDDOWN va /\ PGROUNDDOWN va mod PGSIZE = 0 /\
    PGROUNDDOWN va + span va size * PGSIZE <= 4294967296).
  { rewrite PGROUNDDOWN_eq by lia. unfold span. mlia. }
  rewrite Hlast. set (a := PGROUNDDOWN va) in *. set (n := span va size) in *.
  destruct Ha as (Ha0 & Ham & Hahi).
  replace (u32 (a + (n - 1) * PGSIZE - a)) with ((n - 1) * PGSIZE) by (rewrite u32_small; lia).
  apply (wp_loop
    (fun '(b, q) e' s' => exists k l', 0 <= k < n /\ b = a + k * PGSIZE /\ q = pa + k * PGSIZE /\
       e' = e /\ vm_inv s' pd l' /\ vm_ext pd s l s' l' /\ mapped pd a k pa perm (k_mem s) (k_mem s') /\
       tables_from (k_mem s') pd l l' /\ (length l <= length l' + Z.to_nat k)%nat /\ dirs_from pd a n (k_mem s) (k_mem s'))
    (fun '(b, q) => Z.to_nat ((a + (n - 1) * PGSIZE - b) / PGSIZE))).
  { mlia. }
  { exists 0, l. split_and!; [lia..|done|done|apply vm_ext_refl|by apply mapped_0| |lia|].
    - intros p. tauto.
    - intros i. auto. }
  intros [b q] e' s1 (k & l1 & Hk & -> & -> & -> & Hi1 & He1 & Hm1 & Ht1 & Hl1 & Hg1).
  apply wp_bind. eapply (wp_walkpgdir _ _ _ _ _ l1); [done|lia| |].
  { intros ->. simpl. apply wp_ret. split; [done|]. exists k, [].
    split_and!; try done. by right. }
  intros s2 l2 (Hi2 & He2 & Hp2 & Hs2 & Ht2 & Hl2 & Hg2).
  assert (Hb : 0 <= a + k * PGSIZE < 4294967296) by lia.
  pose proof (tab_nonzero _ _ _ (vi_wf _ _ _ Hi2) Hb Hp2) as Hnz.
  apply Z.eqb_neq in Hnz. rewrite Hnz. clear Hnz.
  pose proof (mapped_same _ _ _ _ _ _ _ _ Hm1 Hs2) as Hm2.
  unfold kread32. wp_steps.
  assert (Hv : present (ld32 (k_mem s2) (v2p (tab (k_mem s2) pd (PDX (a + k * PGSIZE))
    + 4 * PTX (a + k * PGSIZE)))) = false).
  { specialize (Hm2 (a + k * PGSIZE) ltac:(lia)).
    unfold pte_of at 1 in Hm2. rewrite Hp2 in Hm2. unfold tab. rewrite Hm2.
    destruct ((a <=? _) && _) eqn:E; [exfalso; lia|]. apply Habs. lia. }
  unfold present in Hv. rewrite Hv. unfold kwrite32. wp_steps.
  change (on_mem _ s2) with (set_entry pd (a + k * PGSIZE)
    (Z.lor (Z.lor (pa + k * PGSIZE) perm) PTE_P) s2).
  destruct (set_entry_inv pd (a + k * PGSIZE) (Z.lor (Z.lor (pa + k * PGSIZE) perm) PTE_P) s2 l2)
    as [Hi3 He3]; [done|lia|apply lor_range; [apply lor_range; lia|done]|done|].
  pose proof (mapped_S pd a k pa perm _ s2 Hm2 (vi_wf _ _ _ Hi2) Ham Ha0 ltac:(lia)
    ltac:(nia) Hpa ltac:(nia) Hperm Hp2) as Hm3.
  pose proof (vm_ext_trans _ _ _ _ _ _ _ (vm_ext_trans _ _ _ _ _ _ _ He1 He2) He3) as He4.
  pose proof (tables_from_ext _ _ _ _ _ _ _ (tables_from_ext _ _ _ _ _ _ _ Ht1 Ht2 He2) 
    (tables_from_refl _ _ _) He3) as Ht3.
  assert (Hg3 : dirs_from pd a n (k_mem s) (k_mem (set_entry pd (a + k * PGSIZE) (Z.lor (Z.lor (pa + k * PGSIZE) perm) PTE_P) s2))).
  { intros i Hir Hpi. simpl in Hpi. rewrite write_entry_pde in Hpi by (done || apply Hi2 || lia).
    destruct (Hg2 i Hir Hpi) as [Hpi'| ->]; [by apply Hg1|]. right. exists k. split; [lia|done]. }
  destruct (a + k * PGSIZE =? a + (n - 1) * PGSIZE) eqn:E; apply wp_ret.
  - split; [done|]. exists (k + 1), l2. split_and!; try done; [lia|]. left. split; [done|lia].
  - rewrite !u32_small by nia. split; [|mlia]. exists (k + 1), l2. split_and!; try done; lia.
Qed.

(** A mapping in the way. *)
Lemma mappages_present pd va size pa perm e s :
  pt_wf (k_mem s) pd -> 0 <= va < 4294967296 ->
  present (pte_of (k_mem s) pd (PGROUNDDOWN va)) = true ->
  mappages pd va size pa perm e s = Panic "remap" s.
Proof.
  intros Hwf Hva Hp. unfold mappages.
  set (a := PGROUNDDOWN va) in *. set (n := u32 _ / PGSIZE).
  assert (Ha : 0 <= a < 4294967296) by (subst a; rewrite PGROUNDDOWN_eq by lia; mlia).
  replace (Z.to_nat (n + 1)) with (S (Z.to_nat n)) by
    (assert (0 <= n) by (apply Z.div_pos; [apply u32_range|lia]); lia).
  unfold pte_of in Hp. destruct (present (pde_of (k_mem s) pd (PDX a))) eqn:Hd; [|done].
  simpl. erewrite bind_Panic; [done|].
  erewrite bind_Done by (by apply walkpgdir_present).
  rewrite (proj2 (Z.eqb_neq _ _) (tab_nonzero _ _ _ Hwf Ha Hd)).
  erewrite bind_Done by done. unfold tab. unfold present in Hp. by rewrite Hp.
Qed.

(** * Properties *)

(** [mappages] on a well-formed directory whose range is unmapped returns 0
    with exactly the pages of [va, va+size) mapped to consecutive frames from [pa]
    with the permissions asked for and every other translation unchanged, or
    returns -1 when the free list is empty and a page table is missing, with a
    proper prefix of the range mapped.  It always returns, pages leave the free list
    only to become page tables of this directory, and memory outside the directory
    and the free list is not written. *)
Theorem mappages_spec pd va size pa perm e s l :
  vm_inv s pd l ->
  0 <= va -> 0 < size -> va + size <= 4294967296 ->
  0 <= pa -> pa + span va size * PGSIZE <= 4294967296 -> 0 <= perm < 4294967296 ->
  (forall va', PGROUNDDOWN va <= va' < PGROUNDDOWN va + span va size * PGSIZE ->
     present (pte_of (k_mem s) pd va') = false) ->
  wp (mappages pd va size pa perm) (fun r e' s' => e' = e /\
    exists k l', vm_inv s' pd l' /\ vm_ext pd s l s' l' /\
      mapped pd (PGROUNDDOWN va) k pa perm (k_mem s) (k_mem s') /\
      tables_from (k_mem s') pd l l' /\ (length l <= length l' + Z.to_nat k)%nat /\
      dirs_from pd (PGROUNDDOWN va) (span va size) (k_mem s) (k_mem s') /\
      (r = 0 /\ k = span va size \/ r = -1 /\ 0 <= k < span va size /\ l' = [])) e s.
Proof. apply wp_mappages. Qed.

(** [mappages] never replaces a mapping: when the first page of the range is
    already mapped it panics and nothing is changed. *)
Lemma mappages_remap pd va size pa perm e s :
  pt_wf (k_mem s) pd -> 0 <= va < 4294967296 ->
  present (pte_of (k_mem s) pd (PGROUNDDOWN va)) = true ->
  mappages pd va size pa perm e s = Panic "remap" s.
Proof. apply mappages_present. Qed.

End tables.

(** * Witnesses *)

#[local] Existing Instance built_symbols.

(** In the memory of a freshly started kernel with one free page, any other page is
    an empty directory. *)
Lemma empty_dir_inv : vm_inv one_free_page 0x80401000 [0x80400000].
Proof.
  assert (Hz : forall i, pde_of (k_mem one_free_page) 0x80401000 i = 0) by done.
  split; [exact one_free_page_rep| | |done].
  - split; [by vm_compute|intros i _; by rewrite Hz|intros i j _ _; by rewrite Hz].
  - intros p ->%list_elem_of_singleton [E|(i & _ & E & _)]; [done|].
    by rewrite Hz in E.
Qed.

(** Mapping one user page in it takes the free page for the page table. *)
Lemma mappages_spec_witness :
  exists r s', mappages 0x80401000 0 PGSIZE 0x500000 6 [] one_free_page = Done r [] s' /\
    pte_of (k_mem s') 0x80401000 0x123 = 0x500007.
Proof.
  pose proof (mappages_spec 0x80401000 0 PGSIZE 0x500000 6 [] one_free_page [0x80400000]
    empty_dir_inv) as H.
  destruct (wp_elim _ _ _ _ (H ltac:(lia) ltac:(lia) ltac:(lia) ltac:(lia)
    ltac:(vm_compute; discriminate) ltac:(lia) ltac:(done)))
    as (r & e' & s' & Heq & -> & k & l' & _ & _ & Hm & _ & Hl & _ & Hr).
  exists r, s'. split; [exact Heq|].
  assert (span 0 PGSIZE = 1) as Hs by done. rewrite Hs in Hr.
  destruct Hr as [[_ ->]|(_ & Hk & ->)]; [|simpl in Hl; lia].
  rewrite (Hm 0x123) by lia. vm_compute. reflexivity.
Defined.

(** Mapping it a second time panics. *)
Lemma mappages_remap_witness :
  exists s, present (pte_of (k_mem s) 0x80401000 0) = true /\
    mappages 0x80401000 0 PGSIZE 0x500000 6 [] s = Panic "remap" s.
Proof.
  destruct (wp_elim _ _ _ _ (wp_mappages 0x80401000 0 PGSIZE 0x500000 6 [] one_free_page
    [0x80400000] empty_dir_inv ltac:(lia) ltac:(lia) ltac:(lia) ltac:(lia)
    ltac:(vm_compute; discriminate) ltac:(lia) ltac:(done)))
    as (r & e' & s' & Heq & -> & k & l' & Hi & _ & Hm & _ & Hl & _ & Hr).
  assert (Hp : present (pte_of (k_mem s') 0x80401000 0) = true).
  { assert (span 0 PGSIZE = 1) as Hs by done. rewrite Hs in Hr.
    destruct Hr as [[_ ->]|(_ & Hk & ->)]; [|simpl in Hl; lia].
    rewrite (Hm 0) by lia. vm_compute. reflexivity. }
  exists s'. split; [exact Hp|].
  apply mappages_remap; [apply (vi_wf _ _ _ Hi)|lia|exact Hp].
Defined.
