(* ===== verification/VmSpace.v ===== *)
(** Address spaces: what [setupkvm], [deallocuvm] and [freevm] do.

    [uvm_inv s pd l] is the invariant of a process's address space: a well-formed
    directory whose user pages are distinct whole pages, none of them free and none
    of them a page table. *)

From S2P Require Import Prelude Params Mem State Spinlock Console Kalloc Vm VmTables.

Section space.
Context `{Symbols} {Hsym : SymbolsOk}.

(** * A new directory *)

Definition new_dir (v : Z) (s : kernel) : kernel :=
  on_mem (fun m => memset m (v2p v) 0 PGSIZE) (popped s).

Lemma new_dir_mem v s a :
  a < v2p v \/ v2p v + PGSIZE <= a -> ld8 (k_mem (new_dir v s)) a = ld8 (k_mem s) a.
Proof. intros Ha. simpl. rewrite ld8_memset by lia. by zif. Qed.

Lemma new_dir_pde v s i : page_ok v -> 0 <= i < 1024 -> pde_of (k_mem (new_dir v s)) v i = 0.
Proof.
  intros Hv Hi. unfold pde_of. rewrite v2p_entry by done. simpl. by rewrite ld32_memset by lia.
Qed.

Lemma new_dir_pte v s va :
  page_ok v -> 0 <= va < 4294967296 -> pte_of (k_mem (new_dir v s)) v va = 0.
Proof.
  intros Hv Hva. unfold pte_of. rewrite new_dir_pde by (done || by apply PDX_range). done.
Qed.

Lemma new_dir_page v s p : page_ok v -> pt_page (k_mem (new_dir v s)) v p <-> p = v.
Proof.
  intros Hv. split; [|by left]. intros [->|(i & Hi & Hp & _)]; [done|].
  by rewrite new_dir_pde in Hp.
Qed.

Lemma new_dir_inv s v l :
  free_rep s (v :: l) -> kmem_ready s -> vm_inv (new_dir v s) v l.
Proof.
  intros Hf Hr. assert (Hv : page_ok v) by (eapply free_page_ok; [done|by left]).
  pose proof (fr_nodup _ _ Hf) as [Hn _]%NoDup_cons. split.
  - eapply (free_rep_write (popped s)); [by eapply free_rep_popped|done|done|].
    intros p Hp a Ha. apply (new_dir_mem v s).
    assert (Hpv : v <> p) by congruence.
    assert (Hok : page_ok p) by (eapply free_page_ok; [done|by right]).
    pose proof (page_disjoint v p Hv Hok Hpv). lia.
  - split; [done| |]; intros i; intros; by rewrite new_dir_pde in *.
  - intros p Hp Hq. apply new_dir_page in Hq as ->; done.
  - done.
Qed.

(** ** setupkvm *)

(** The entry the mappings [ks] give for an address. *)
Fixpoint kmap_pte (ks : list (Z * Z * Z * Z)) (va : Z) : Z :=
  match ks with
  | [] => 0
  | (virt, phys_start, phys_end, perm) :: ks' =>
      if (virt <=? va) && (va <? virt + u32 (phys_end - phys_start))
      then Z.lor (Z.lor (phys_start + (va / PGSIZE * PGSIZE - virt)) perm) PTE_P
      else kmap_pte ks' va
  end.

(** The entries of [kmap] are whole pages, do not wrap around and do not overlap
    the entries before them. *)
Lemma kmap_entry before virt ps pe perm after :
  kmap = before ++ (virt, ps, pe, perm) :: after ->
  virt mod PGSIZE = 0 /\ KERNBASE <= virt /\ 0 < u32 (pe - ps) /\ u32 (pe - ps) mod PGSIZE = 0 /\
  virt + u32 (pe - ps) <= 4294967296 /\ 0 <= ps /\ ps + u32 (pe - ps) <= 4294967296 /\
  0 <= perm < 4294967296 /\
  (forall va ks, virt <= va < virt + u32 (pe - ps) -> kmap_pte (before ++ ks) va = kmap_pte ks va).
Proof.
  destruct Hsym as [Hlo Hal Hend Hhi].
  assert (Hd : v2p sym_data = sym_data - KERNBASE) by (apply v2p_eq; lia).
  assert (u32 (v2p sym_data - v2p KERNLINK) = sym_data - KERNLINK) as H1.
  { rewrite Hd. change (v2p KERNLINK) with EXTMEM. rewrite u32_small; lia. }
  assert (u32 (PHYSTOP - v2p sym_data) = PHYSTOP + KERNBASE - sym_data) as H2.
  { rewrite Hd. rewrite u32_small; lia. }
  assert (u32 (EXTMEM - 0) = EXTMEM) as H0 by done.
  assert (u32 (0 - DEVSPACE) = 4294967296 - DEVSPACE) as H3 by done.
  assert (v2p KERNLINK = EXTMEM) as Hk by done.
  unfold kmap. intros Heq.
  destruct before as [|b1 [|b2 [|b3 [|b4 [|]]]]]; simplify_eq/=;
    rewrite ?H0, ?H1, ?H2, ?H3, ?Hd, ?Hk; (split_and!; [mlia..|]);
    intros va ks Hva; simpl; rewrite ?H0, ?H1, ?H2, ?H3, ?Hd, ?Hk; zif; reflexivity.
Qed.

Lemma kmap_pte_app ks virt ps pe perm va :
  ~ (virt <= va < virt + u32 (pe - ps)) ->
  kmap_pte (ks ++ [(virt, ps, pe, perm)]) va = kmap_pte ks va.
Proof.
  intros Hn. induction ks as [|[[[v' ps'] pe'] perm'] ks IH]; simpl.
  - by zif.
  - by rewrite IH.
Qed.

(** The page tables that the mappings of the kernel need. *)
Definition kdir (i : Z) : Prop := 512 <= i < 568 \/ 1016 <= i < 1024.
Definition kdirs (m : memory) (pd : Z) : Prop := forall i, 0 <= i < 1024 -> present (pde_of m pd i) = true -> kdir i.

Lemma kdir_PDX before virt ps pe perm after va :
  kmap = before ++ (virt, ps, pe, perm) :: after -> virt <= va < virt + u32 (pe - ps) -> kdir (PDX va).
Proof.
  destruct Hsym as [Hlo Hal Hend Hhi].
  assert (Hd : v2p sym_data = sym_data - KERNBASE) by (apply v2p_eq; lia).
  assert (u32 (v2p sym_data - v2p KERNLINK) = sym_data - KERNLINK) as H1.
  { rewrite Hd. change (v2p KERNLINK) with EXTMEM. rewrite u32_small; lia. }
  assert (u32 (PHYSTOP - v2p sym_data) = PHYSTOP + KERNBASE - sym_data) as H2 by (rewrite Hd, u32_small; lia).
  assert (u32 (EXTMEM - 0) = EXTMEM) as H0 by done.
  assert (u32 (0 - DEVSPACE) = 4294967296 - DEVSPACE) as H3 by done.
  unfold kmap. intros Heq Hva. unfold kdir.
  assert (Hr : 0 <= va < 4294967296) by (destruct before as [|b1 [|b2 [|b3 [|b4 [|]]]]]; simplify_eq/=; lia).
  rewrite PDX_eq by done. destruct before as [|b1 [|b2 [|b3 [|b4 [|]]]]]; simplify_eq/=; Z.div_mod_to_equations; lia.
Qed.

(** A directory with only these has at most 64 page tables. *)
Lemma tables_bound m pd l :
  NoDup l -> kdirs m pd -> (forall p, p ∈ l -> pt_page m pd p) -> (length l <= 65)%nat.
Proof.
  intros Hd Hk Hl.
  assert (l ⊆+ pd :: (tab m pd <$> (seqZ 512 56 ++ seqZ 1016 8))) as Hsub.
  { apply NoDup_submseteq; [done|]. intros p [->|(i & Hi & Hp & ->)]%Hl; [by left|right].
    apply list_elem_of_fmap. exists i. split; [done|]. apply elem_of_app. rewrite !elem_of_seqZ.
    destruct (Hk i Hi Hp); lia. }
  apply submseteq_length in Hsub. etrans; [exact Hsub|].
  by rewrite length_cons, length_fmap, length_app, !length_seqZ.
Qed.

Lemma used_bound s s' v l l' :
  NoDup (v :: l) -> vm_ext v s l s' l' -> vm_inv s' v l' -> tables_from (k_mem s') v l l' -> kdirs (k_mem s') v ->
  (length (v :: l) <= length l' + 65)%nat.
Proof.
  intros Hd He Hi Ht Hk. destruct (ve_suffix _ _ _ _ _ He) as [used ->].
  assert (length (v :: used) <= 65)%nat as Hb.
  { apply (tables_bound (k_mem s') v).
    - rewrite app_comm_cons in Hd. by apply NoDup_app in Hd as [? _].
    - done.
    - intros p [->|Hp]%elem_of_cons; [by left|].
      destruct (Ht p) as [Hin|?]; [apply elem_of_app; by left| |done].
      apply NoDup_cons in Hd as [_ (_ & Hdis & _)%NoDup_app]. by destruct (Hdis p Hp). }
  simpl in *. rewrite length_app. lia.
Qed.

(** The directory [pd] holds exactly the mappings [ks]. *)
Definition kmapped (pd : Z) (ks : list (Z * Z * Z * Z)) (m : memory) : Prop :=
  forall va, 0 <= va < 4294967296 -> pte_of m pd va = kmap_pte ks va.

Lemma wp_kmap_entry pd before virt ps pe perm after e s l :
  kmap = before ++ (virt, ps, pe, perm) :: after ->
  vm_inv s pd l -> kmapped pd before (k_mem s) -> kdirs (k_mem s) pd ->
  wp (mappages pd virt (u32 (pe - ps)) ps perm) (fun r e' s' => e' = e /\
    exists l', vm_inv s' pd l' /\ vm_ext pd s l s' l' /\ tables_from (k_mem s') pd l l' /\ kdirs (k_mem s') pd /\
      (r = 0 /\ kmapped pd (before ++ [(virt, ps, pe, perm)]) (k_mem s') \/ r = -1 /\ l' = [])) e s.
Proof.
  intros Hk Hi Hm Hkd.
  destruct (kmap_entry _ _ _ _ _ _ Hk) as (Hal & Hlo & Hsz & Hsa & Hhi & Hps & Hpe & Hperm & Hbef).
  assert (PGROUNDDOWN virt = virt) as Hvd by (rewrite PGROUNDDOWN_eq by lia; lia).
  assert (span virt (u32 (pe - ps)) * PGSIZE = u32 (pe - ps)) as Hsp by (unfold span; mlia).
  assert (kmap_pte [] virt = 0) by done.
  eapply wp_mono; [eapply (wp_mappages _ _ _ _ _ _ _ l); try done; [lia|lia|]|].
  { rewrite Hvd, Hsp. intros va Hva. rewrite Hm by lia. rewrite <- (app_nil_r before).
    by rewrite Hbef. }
  intros r e' s' (-> & k & l' & Hi' & He & Hmap & Ht & _ & Hg & Hr). split; [done|].
  exists l'. split; [done|]. split; [done|]. split; [done|]. split.
  { intros i Hir Hp. destruct (Hg i Hir Hp) as [Hp'|(j & Hj & ->)]; [by apply Hkd|].
    rewrite Hvd. eapply kdir_PDX; [exact Hk|]. nia. }
  destruct Hr as [[-> ->]|(-> & _ & ->)]; [left|by right]. split; [done|].
  intros va Hva. rewrite Hmap, Hvd, Hsp by done.
  destruct ((virt <=? va) && (va <? virt + u32 (pe - ps))) eqn:E.
  - rewrite Hbef by lia. simpl. by rewrite E.
  - rewrite kmap_pte_app by lia. by apply Hm.
Qed.

(** The outcome of [setupkvm]: a directory with exactly the kernel's mappings, built
    from pages of the free list, or 0 when the free list was too short. *)
Definition setupkvm_post (s : kernel) (l : list Z) (r : Z) (s' : kernel) : Prop :=
  exists l', alloc_only s s' /\ free_rep s' l' /\ l' `suffix_of` l /\
    (forall a, outside a (fun p => p ∈ l) -> ld8 (k_mem s') a = ld8 (k_mem s) a) /\
    (r = 0 /\ l' = [] /\ (length l <= 65)%nat \/
     r <> 0 /\ vm_inv s' r l' /\ (forall p, pt_page (k_mem s') r p -> p ∈ l) /\
     kmapped r kmap (k_mem s') /\ (length l <= length l' + 65)%nat).

Lemma wp_setupkvm e s l :
  kmem_ready s -> free_rep s l ->
  wp setupkvm (fun r e' s' => e' = e /\ setupkvm_post s l r s') e s.
Proof.
  intros Hr Hf. unfold setupkvm, setupkvm_post. apply wp_bind.
  eapply wp_kalloc; [done|done|]. destruct l as [|v l].
  { simpl. apply wp_ret. split; [done|]. exists []. split_and!; [apply alloc_only_refl|done..|].
    left. split_and!; [done|done|simpl; lia]. }
  intros Hv _ _. pose proof (page_ok_range v Hv) as Hvr. destruct (v =? 0) eqn:E; [lia|].
  apply wp_bind, wp_modify. change (on_mem _ (popped s)) with (new_dir v s).
  change (DEVSPACE <? p2v PHYSTOP) with false. cbv beta iota. apply wp_bind.
  pose proof (new_dir_inv s v l Hf Hr) as Hi.
  eapply wp_mono; [apply (wp_for_each (fun ks e' s' => e' = e /\ exists before l',
    kmap = before ++ ks /\ vm_inv s' v l' /\ vm_ext v (new_dir v s) l s' l' /\
    tables_from (k_mem s') v l l' /\ kmapped v before (k_mem s') /\ kdirs (k_mem s') v)
    kmap _ (fun r e' s' => e' = e /\ exists l', vm_inv s' v l' /\ vm_ext v (new_dir v s) l s' l' /\
      tables_from (k_mem s') v l l' /\ kdirs (k_mem s') v /\
      (r = None /\ kmapped v kmap (k_mem s') \/ r = Some 0 /\ l' = [])))|].
  - split; [done|]. exists [], l. split_and!; [done|done|apply vm_ext_refl|apply tables_from_refl| |].
    + intros va Hva. by apply new_dir_pte.
    + intros i Hir. by rewrite new_dir_pde.
  - intros e' s' (-> & before & l' & Hk & Hi' & He & Ht & Hm & Hd). split; [done|]. exists l'.
    split_and!; try done. left. rewrite app_nil_r in Hk. by subst before.
  - intros [[[virt ps] pe] perm] ks e' s' _ (-> & before & l' & Hk & Hi' & He & Ht & Hm & Hd).
    apply wp_bind. eapply wp_mono; [by eapply wp_kmap_entry|].
    intros r e1 s1 (-> & l1 & Hi1 & He1 & Ht1 & Hd1 & Hr1).
    pose proof (vm_ext_trans _ _ _ _ _ _ _ He He1) as He2.
    pose proof (tables_from_ext _ _ _ _ _ _ _ Ht Ht1 He1) as Ht2.
    destruct Hr1 as [[-> Hm1]|[-> ->]]; simpl; apply wp_ret; (split; [done|]).
    + exists (before ++ [(virt, ps, pe, perm)]), l1. split_and!; try done.
      by rewrite <- app_assoc.
    + exists []. split_and!; try done. by right.
  - intros r e' s' (-> & l' & Hi' & He & Ht & Hd & Hr'). apply wp_ret. split; [done|].
    exists l'. split_and!.
    + eapply alloc_only_trans; [|apply (ve_only _ _ _ _ _ He)]. do 3 eexists; split; done.
    + apply Hi'.
    + apply suffix_cons_r, (ve_suffix _ _ _ _ _ He).
    + intros a Ha. rewrite (ve_mem _ _ _ _ _ He).
      * apply new_dir_mem. apply Ha. by left.
      * intros p [Hp|Hp]; apply Ha; [|by right]. apply new_dir_page in Hp as ->; [by left|done].
    + destruct Hr' as [[-> Hm]|[-> ->]]; simpl; [right|left].
      * split_and!; [lia|done| |done|].
        -- intros p [Hp|Hp]%(ve_new _ _ _ _ _ He); [|by right].
           apply new_dir_page in Hp as ->; [by left|done].
        -- by eapply used_bound; [apply Hf|..].
      * split_and!; [done|done|]. apply (tables_bound (k_mem s') v (v :: l)); [apply Hf|done|].
        intros p [->|Hp]%elem_of_cons; [by left|]. destruct (Ht p Hp) as [Hp'|?]; [by apply elem_of_nil in Hp'|done].
Qed.

(** * User pages *)

(** The page that a virtual address is mapped to. *)
Definition frame (m : memory) (pd va : Z) : Z := p2v (PTE_ADDR (pte_of m pd va)).

Definition user (va : Z) : Prop := 0 <= va < KERNBASE.

Record uvm_inv (s : kernel) (pd : Z) (l : list Z) : Prop := {
  uv_vm : vm_inv s pd l;
  uv_frame : forall va, user va -> present (pte_of (k_mem s) pd va) = true ->
    page_ok (frame (k_mem s) pd va) /\ (frame (k_mem s) pd va ∉ l) /\
    ~ pt_page (k_mem s) pd (frame (k_mem s) pd va);
  uv_inj : forall va va', user va -> user va' ->
    present (pte_of (k_mem s) pd va) = true -> present (pte_of (k_mem s) pd va') = true ->
    frame (k_mem s) pd va = frame (k_mem s) pd va' -> va / PGSIZE = va' / PGSIZE
}.

(** A directory does not notice writes outside its own pages. *)
Lemma vm_inv_frame s s' pd l l' :
  vm_inv s pd l -> free_rep s' l' -> kmem_ready s' ->
  (forall p, p ∈ l' -> ~ pt_page (k_mem s) pd p) ->
  (forall p, pt_page (k_mem s) pd p -> forall a, v2p p <= a < v2p p + PGSIZE ->
     ld8 (k_mem s') a = ld8 (k_mem s) a) ->
  vm_inv s' pd l' /\
  (forall va, 0 <= va < 4294967296 -> pte_of (k_mem s') pd va = pte_of (k_mem s) pd va) /\
  (forall i, 0 <= i < 1024 -> pde_of (k_mem s') pd i = pde_of (k_mem s) pd i).
Proof.
  intros [Hf Hwf Hsep Hr] Hf' Hr' Hsep' Hm.
  destruct (pt_stable _ _ _ Hwf Hm) as [Hd Ht]. split; [|done].
  split; [done|by eapply pt_wf_same| |done].
  intros p Hp. rewrite pt_page_same by done. by apply Hsep'.
Qed.

Lemma freed_mem v s a :
  a < v2p v \/ v2p v + PGSIZE <= a -> ld8 (k_mem (freed v s)) a = ld8 (k_mem s) a.
Proof. intros Ha. simpl. rewrite ld8_st32, ld8_memset by lia. by zif. Qed.

(** Freeing a page that is not part of the directory. *)
Lemma freed_inv v s pd l :
  vm_inv s pd l -> page_ok v -> v ∉ l -> ~ pt_page (k_mem s) pd v ->
  vm_inv (freed v s) pd (v :: l) /\
  (forall va, 0 <= va < 4294967296 -> pte_of (k_mem (freed v s)) pd va = pte_of (k_mem s) pd va) /\
  (forall i, 0 <= i < 1024 -> pde_of (k_mem (freed v s)) pd i = pde_of (k_mem s) pd i).
Proof.
  intros Hi Hv Hn Hnp. apply (vm_inv_frame _ _ _ _ _ Hi).
  - apply free_rep_freed; [done|done|apply Hi].
  - eapply alloc_only_ready; [apply alloc_only_freed|apply Hi].
  - intros p [->|Hp]%elem_of_cons; [done|]. by apply (vi_sep _ _ _ Hi).
  - intros p Hp a Ha. apply freed_mem.
    assert (Hne : v <> p) by congruence.
    pose proof (page_disjoint v p Hv (vm_page_ok _ _ _ _ Hi Hp) Hne). lia.
Qed.

Lemma user_range va : user va -> 0 <= va < 4294967296.
Proof. unfold user. lia. Qed.

Lemma present_pde m pd va :
  present (pte_of m pd va) = true -> present (pde_of m pd (PDX va)) = true.
Proof. unfold pte_of. by destruct (present (pde_of m pd (PDX va))). Qed.

Lemma pte_of_entry m pd va :
  present (pde_of m pd (PDX va)) = true ->
  pte_of m pd va = ld32 m (v2p (tab m pd (PDX va) + 4 * PTX va)).
Proof. unfold pte_of, tab. by intros ->. Qed.

Lemma pte_of_page m pd va va' :
  0 <= va < 4294967296 -> 0 <= va' < 4294967296 -> va / PGSIZE = va' / PGSIZE ->
  pte_of m pd va = pte_of m pd va'.
Proof.
  intros Hva Hva' E. unfold pte_of.
  assert (PDX va = PDX va') as -> by (rewrite !PDX_eq by done; mlia).
  by assert (PTX va = PTX va') as -> by (rewrite !PTX_eq; mlia).
Qed.

(** The state after [kfree(v); *pte = 0]. *)
Definition unmapped (pd va : Z) (s : kernel) : kernel :=
  set_entry pd va 0 (freed (frame (k_mem s) pd va) s).

Lemma unmapped_inv pd va s l :
  uvm_inv s pd l -> user va -> present (pte_of (k_mem s) pd va) = true ->
  let p := frame (k_mem s) pd va in let s' := unmapped pd va s in
  uvm_inv s' pd (p :: l) /\ alloc_only s s' /\
  (forall va', 0 <= va' < 4294967296 -> pte_of (k_mem s') pd va' =
     if va' / PGSIZE =? va / PGSIZE then 0 else pte_of (k_mem s) pd va') /\
  (forall i, 0 <= i < 1024 -> pde_of (k_mem s') pd i = pde_of (k_mem s) pd i) /\
  (forall a, outside a (fun q => pt_page (k_mem s) pd q \/ q = p) ->
     ld8 (k_mem s') a = ld8 (k_mem s) a).
Proof.
  intros [Hi Hfr Hinj] Hva Hp p s'. pose proof (user_range va Hva) as Hvr.
  destruct (Hfr va Hva Hp) as (Hok & Hnl & Hnp). fold p in Hok, Hnl, Hnp.
  destruct (freed_inv p s pd l Hi Hok Hnl Hnp) as (Hi1 & Hpte1 & Hpde1).
  assert (Hd : present (pde_of (k_mem (freed p s)) pd (PDX va)) = true).
  { rewrite Hpde1 by (by apply PDX_range). by apply present_pde. }
  destruct (set_entry_inv pd va 0 _ _ Hi1 Hvr ltac:(lia) Hd) as [Hi2 He2].
  assert (Hpte : forall va', 0 <= va' < 4294967296 -> pte_of (k_mem s') pd va' =
     if va' / PGSIZE =? va / PGSIZE then 0 else pte_of (k_mem s) pd va').
  { intros va' Hva'. rewrite <- Hpte1 by done. apply write_entry_pte; try done. apply Hi1. }
  assert (Hpde : forall i, 0 <= i < 1024 -> pde_of (k_mem s') pd i = pde_of (k_mem s) pd i).
  { intros i Hir. rewrite <- Hpde1 by done. apply write_entry_pde; try done. apply Hi1. }
  assert (Hpg : forall q, pt_page (k_mem s') pd q <-> pt_page (k_mem s) pd q).
  { intros q. by apply pt_page_same. }
  assert (Hstill : forall va', user va' -> present (pte_of (k_mem s') pd va') = true ->
    va' / PGSIZE <> va / PGSIZE /\ present (pte_of (k_mem s) pd va') = true /\
    frame (k_mem s') pd va' = frame (k_mem s) pd va').
  { intros va' Hu. unfold frame. rewrite Hpte by (by apply user_range).
    destruct (va' / PGSIZE =? va / PGSIZE) eqn:E; [done|]. split; [lia|done]. }
  split_and!; [|apply (alloc_only_trans _ _ _ (alloc_only_freed p s)), He2|done|done|].
  - split; [done| |].
    + intros va' Hu Hp'. destruct (Hstill va' Hu Hp') as (Hne & Hp0 & ->).
      destruct (Hfr va' Hu Hp0) as (? & ? & ?). split; [done|]. rewrite Hpg. split; [|done].
      intros [Hq|Hq]%elem_of_cons; [|done]. by apply Hne, Hinj.
    + intros va1 va2 Hu1 Hu2 Hp1 Hp2. destruct (Hstill va1 Hu1 Hp1) as (_ & ? & ->).
      destruct (Hstill va2 Hu2 Hp2) as (_ & ? & ->). by apply Hinj.
  - intros a Ha. unfold s', unmapped. fold p. simpl.
    rewrite (write_entry_mem (k_mem (freed p s))); [|apply Hi1|done|done|].
    + apply freed_mem, Ha. by right.
    + apply Ha. left. right. exists (PDX va). unfold tab.
      rewrite <- Hpde1 by (by apply PDX_range). split; [by apply PDX_range|done].
Qed.

Lemma wp_unmap {A} pd va (k : K A) Q e s l :
  uvm_inv s pd l -> user va -> present (pte_of (k_mem s) pd va) = true ->
  wp k Q e (unmapped pd va s) ->
  wp (kfree (frame (k_mem s) pd va);; kwrite32 (tab (k_mem s) pd (PDX va) + 4 * PTX va) 0;; k)
    Q e s.
Proof.
  intros [Hi Hfr Hinj] Hva Hp HQ. destruct (Hfr va Hva Hp) as (Hok & Hnl & Hnp).
  apply wp_bind. eapply wp_kfree; [done|done|apply Hi|apply Hi|]. intros _.
  apply wp_bind, wp_modify. unfold unmapped, set_entry in HQ.
  destruct (freed_inv _ s pd l Hi Hok Hnl Hnp) as (_ & _ & Hpde).
  unfold on_mem in *. unfold tab in HQ at 1.
  rewrite Hpde in HQ by (apply PDX_range; unfold user in Hva; lia). exact HQ.
Qed.

(** ** deallocuvm *)

(** [pte_of] after the user pages of [lo, hi) were unmapped. *)
Definition cleared (pd lo hi : Z) (m m' : memory) : Prop :=
  forall va, 0 <= va < 4294967296 ->
    pte_of m' pd va =
      if (lo <=? va) && (va <? hi) && present (pte_of m pd va) then 0 else pte_of m pd va.

(** [fs] are the pages that [lo, hi) was mapped to. *)
Definition frames_of (pd lo hi : Z) (m : memory) (fs : list Z) : Prop :=
  forall p, p ∈ fs <-> exists va, lo <= va < hi /\ present (pte_of m pd va) = true /\
                         p = frame m pd va.

(** [s'] is [s] with the user pages of [lo, hi) unmapped and freed. *)
Record dealloced (pd lo hi : Z) (s : kernel) (l : list Z) (s' : kernel) (fs : list Z) : Prop := {
  da_inv : uvm_inv s' pd (fs ++ l);
  da_only : alloc_only s s';
  da_pte : cleared pd lo hi (k_mem s) (k_mem s');
  da_frames : frames_of pd lo hi (k_mem s) fs;
  da_pde : forall i, 0 <= i < 1024 -> pde_of (k_mem s') pd i = pde_of (k_mem s) pd i;
  da_mem : forall a, outside a (fun q => pt_page (k_mem s) pd q \/ q ∈ fs) ->
             ld8 (k_mem s') a = ld8 (k_mem s) a
}.

Lemma dealloced_refl pd lo hi s l :
  uvm_inv s pd l ->
  (forall va, lo <= va < hi -> present (pte_of (k_mem s) pd va) = false) ->
  dealloced pd lo hi s l s [].
Proof.
  intros Hu Hn. split; [done|apply alloc_only_refl| | |done|done].
  - intros va Hva. destruct (_ && _) eqn:E; [|done]. rewrite Hn in E; [|lia]. lia.
  - intros p. split; [intros Hp; by apply elem_of_nil in Hp|].
    intros (va & Hva & Hp & _). by rewrite Hn in Hp.
Qed.

(** Nothing more to free up to [hi']. *)
Lemma dealloced_skip pd lo hi hi' s l s' fs :
  dealloced pd lo hi s l s' fs -> hi <= hi' ->
  (forall va, hi <= va < hi' -> present (pte_of (k_mem s) pd va) = false) ->
  dealloced pd lo hi' s l s' fs.
Proof.
  intros [Hu Ho Hp Hf Hd Hm] Hle Hn. split; try done.
  - intros va Hva. rewrite Hp by done. specialize (Hn va).
    destruct (present (pte_of (k_mem s) pd va)) eqn:E; [|by rewrite !andb_false_r].
    by zif.
  - intros p. rewrite (Hf p). split; intros (va & Hva & Hpr & ->).
    + exists va. split; [lia|done].
    + exists va. split; [|done]. destruct (decide (va < hi)); [lia|].
      rewrite Hn in Hpr; [done|lia].
Qed.

(** One more page. *)
Lemma dealloced_step pd lo hi s l s' fs :
  dealloced pd lo hi s l s' fs -> 0 <= lo -> lo <= hi -> hi mod PGSIZE = 0 -> hi + PGSIZE <= KERNBASE ->
  present (pte_of (k_mem s) pd hi) = true ->
  dealloced pd lo (hi + PGSIZE) s l (unmapped pd hi s') (frame (k_mem s) pd hi :: fs).
Proof.
  intros [Hu Ho Hp Hf Hd Hm] Hlo Hle Hal Hk Hpr.
  assert (Huser : user hi) by (unfold user; lia).
  assert (Hsame : pte_of (k_mem s') pd hi = pte_of (k_mem s) pd hi).
  { rewrite Hp by lia. by zif. }
  assert (Hfr : frame (k_mem s') pd hi = frame (k_mem s) pd hi) by (unfold frame; by rewrite Hsame).
  destruct (unmapped_inv pd hi s' (fs ++ l) Hu Huser) as (Hu' & Ho' & Hp' & Hd' & Hm').
  { by rewrite Hsame. }
  rewrite Hfr in *. split.
  - done.
  - by eapply alloc_only_trans.
  - intros va Hva. rewrite Hp', Hp by done.
    destruct (va / PGSIZE =? hi / PGSIZE) eqn:E.
    + assert (pte_of (k_mem s) pd va = pte_of (k_mem s) pd hi) as ->.
      { apply pte_of_page; lia. }
      rewrite Hpr. zif; done || (exfalso; mlia).
    + destruct (present (pte_of (k_mem s) pd va)); [|by rewrite !andb_false_r].
      zif; done || (exfalso; mlia).
  - intros p. rewrite elem_of_cons, (Hf p). split.
    + intros [->|(va & Hva & ? & ->)]; [exists hi|exists va]; (split; [lia|done]).
    + intros (va & Hva & Hpv & ->).
      destruct (decide (va < hi)); [right; exists va; split; [lia|done]|left].
      unfold frame. do 2 f_equal. apply pte_of_page; [lia|lia|mlia].
  - intros i Hi. by rewrite Hd', Hd.
  - intros a Ha. rewrite Hm', Hm; [done|..]; intros q [Hq|Hq]; apply Ha.
    + by left.
    + right. by right.
    + left. by apply (pt_page_same (k_mem s)) in Hq.
    + right. rewrite Hq. by left.
Qed.

(** The condition under which [deallocuvm] from [lo] to [hi] visits every page: its
    steps over missing page tables stay aligned, or there is nothing to find. *)
Definition steps_ok (pd lo hi : Z) (m : memory) : Prop :=
  lo mod 4194304 = 0 \/ present (pde_of m pd (PDX lo)) = true \/
  (forall va, lo <= va < hi -> present (pte_of m pd va) = false).

Lemma missing_table m pd a va :
  0 <= a < 4294967296 -> 0 <= va < 4294967296 -> a / 4194304 = va / 4194304 ->
  present (pde_of m pd (PDX a)) = false -> present (pte_of m pd va) = false.
Proof.
  intros Ha Hva E Hp. unfold pte_of. rewrite PDX_eq in * by done.
  replace (va / 4194304) with (a / 4194304) by done. by rewrite Hp.
Qed.

(** A round at an address whose page table is missing. *)
Lemma dealloced_table pd lo a top s l s' fs :
  dealloced pd lo (Z.min a top) s l s' fs -> 0 <= lo <= a -> a < top -> top <= KERNBASE ->
  steps_ok pd a top (k_mem s) -> present (pde_of (k_mem s) pd (PDX a)) = false ->
  dealloced pd lo (Z.min (a + 4194304) top) s l s' fs /\ steps_ok pd (a + 4194304) top (k_mem s).
Proof.
  intros Hd Hlo Ha Htop Hs Hp.
  destruct Hs as [Hs|[Hs|Hs]]; [|congruence|].
  - split; [|left; mlia]. eapply dealloced_skip; [done|lia|].
    intros va Hva. eapply missing_table; [| | |done]; [lia|lia|mlia].
  - split; [|right; right; intros va Hva; apply Hs; lia].
    eapply dealloced_skip; [done|lia|]. intros va Hva. apply Hs. lia.
Qed.

(** After a visited page the next one is in the same page table, or aligned. *)
Lemma steps_ok_next pd a top m :
  0 <= a -> a + PGSIZE < 4294967296 -> a mod PGSIZE = 0 -> present (pde_of m pd (PDX a)) = true ->
  steps_ok pd (a + PGSIZE) top m.
Proof.
  intros Ha Hhi Hal Hp. unfold steps_ok.
  destruct (decide ((a + PGSIZE) mod 4194304 = 0)) as [E|E]; [by left|right; left].
  replace (PDX (a + PGSIZE)) with (PDX a); [done|].
  rewrite !PDX_eq by lia. mlia.
Qed.

Lemma frame_pa m pd va :
  page_ok (frame m pd va) -> PTE_ADDR (pte_of m pd va) <> 0.
Proof.
  intros Hp E. unfold frame in Hp. rewrite E in Hp. apply page_ok_range in Hp.
  change (p2v 0) with KERNBASE in Hp. lia.
Qed.

Lemma wp_deallocuvm pd oldsz newsz e s l :
  uvm_inv s pd l -> 0 <= newsz < oldsz -> oldsz <= KERNBASE ->
  steps_ok pd (PGROUNDUP newsz) (PGROUNDUP oldsz) (k_mem s) ->
  wp (deallocuvm pd oldsz newsz) (fun r e' s' => e' = e /\ r = newsz /\
    exists fs, dealloced pd (PGROUNDUP newsz) (PGROUNDUP oldsz) s l s' fs) e s.
Proof.
  intros Hu Hsz Hold Hsteps. unfold deallocuvm. destruct (oldsz <=? newsz) eqn:E; [lia|].
  assert (Hlo : PGROUNDUP newsz = newsz + (- newsz) mod PGSIZE) by (apply PGROUNDUP_eq; lia).
  assert (Hhi : PGROUNDUP oldsz = oldsz + (- oldsz) mod PGSIZE) by (apply PGROUNDUP_eq; lia).
  set (lo := PGROUNDUP newsz) in *. set (top := PGROUNDUP oldsz) in *.
  assert (Htop : oldsz <= top < oldsz + PGSIZE /\ top <= KERNBASE /\ top mod PGSIZE = 0) by mlia.
  assert (Hlo' : newsz <= lo <= top /\ lo mod PGSIZE = 0) by mlia.
  clear Hlo Hhi.
  apply (wp_loop
    (fun a e' s' => e' = e /\ lo <= a <= top + 4194304 /\ a mod PGSIZE = 0 /\
       steps_ok pd a top (k_mem s) /\ exists fs, dealloced pd lo (Z.min a top) s l s' fs)
    (fun a => Z.to_nat ((oldsz + PGSIZE - 1 - a) / PGSIZE))).
  { mlia. }
  { split_and!; try done; [lia|lia|]. exists []. rewrite Z.min_l by lia.
    apply dealloced_refl; [done|]. intros; lia. }
  intros a e' s1 (-> & Har & Hal & Hst & fs & Hd).
  destruct (a <? oldsz) eqn:Ea; simpl.
  2: { apply wp_ret. split; [done|]. split; [done|]. exists fs.
       replace (Z.min a top) with top in Hd by mlia. done. }
  assert (Ha : a + PGSIZE <= top) by mlia.
  assert (Har' : 0 <= a < 4294967296) by lia.
  assert (Hpde : pde_of (k_mem s1) pd (PDX a) = pde_of (k_mem s) pd (PDX a)).
  { apply (da_pde _ _ _ _ _ _ _ Hd). by apply PDX_range. }
  apply wp_bind. unfold wp at 1. rewrite walkpgdir_look, Hpde.
  destruct (present (pde_of (k_mem s) pd (PDX a))) eqn:Hp.
  - assert (Hp1 : present (pde_of (k_mem s1) pd (PDX a)) = true) by congruence.
    pose proof (tab_nonzero _ _ _ (vi_wf _ _ _ (uv_vm _ _ _ (da_inv _ _ _ _ _ _ _ Hd))) Har' Hp1)
      as Hnz.
    rewrite (proj2 (Z.eqb_neq _ _) Hnz). unfold kread32. do 3 wp_step.
    rewrite <- (pte_of_entry _ _ _ Hp1).
    rewrite Z.min_l in Hd by lia.
    assert (Hpte : pte_of (k_mem s1) pd a = pte_of (k_mem s) pd a).
    { rewrite (da_pte _ _ _ _ _ _ _ Hd a Har'). by zif. }
    pose proof (steps_ok_next pd a top (k_mem s) ltac:(lia) ltac:(lia) Hal Hp) as Hst'.
    destruct (cbool (Z.land (pte_of (k_mem s1) pd a) PTE_P)) eqn:Epr.
    + assert (Hpr : present (pte_of (k_mem s1) pd a) = true) by exact Epr.
      assert (Hua : user a) by (unfold user; lia).
      pose proof (da_inv _ _ _ _ _ _ _ Hd) as Hu1.
      destruct (uv_frame _ _ _ Hu1 a Hua Hpr) as (Hok & _).
      rewrite (proj2 (Z.eqb_neq _ _) (frame_pa _ _ _ Hok)).
      eapply wp_unmap; [done|done|done|]. wp_steps. rewrite u32_small by lia.
      split; [|mlia]. split_and!; try done; [lia|lia|mlia|].
      rewrite Z.min_l by lia. eexists. eapply dealloced_step; try done; [lia|lia|lia|].
      by rewrite <- Hpte.
    + wp_steps. rewrite u32_small by lia. split; [|mlia]. split_and!; try done; [lia|lia|mlia|].
      exists fs. rewrite Z.min_l by lia. eapply dealloced_skip; [done|lia|].
      intros va Hva. rewrite (pte_of_page _ _ va a) by (lia || mlia).
      rewrite <- Hpte. exact Epr.
  - wp_steps. rewrite (u32_small (a + _)) by lia. rewrite u32_small by lia.
    destruct (dealloced_table pd lo a top s l s1 fs) as [Hd' Hst']; try done; [lia|lia|lia|].
    split; [|mlia]. split_and!; try done; [lia|lia|mlia| |];
    replace (a + (NPTENTRIES - 1) * PGSIZE + PGSIZE) with (a + 4194304) by lia; eauto.
Qed.

(** ** freevm *)

(** [s'] is [s] with the pages [fs] put on the free list [l]. *)
Record released (s : kernel) (l : list Z) (s' : kernel) (fs : list Z) : Prop := {
  rl_free : free_rep s' (fs ++ l);
  rl_only : alloc_only s s';
  rl_mem : forall a, outside a (fun q => q ∈ fs) -> ld8 (k_mem s') a = ld8 (k_mem s) a
}.

Lemma wp_released v Q e s l s' fs :
  released s l s' fs -> page_ok v -> v ∉ fs ++ l -> kmem_ready s ->
  (released s l (freed v s') (v :: fs) -> Q tt e (freed v s')) ->
  wp (kfree v) Q e s'.
Proof.
  intros [Hf Ho Hm] Hv Hn Hr HQ.
  eapply wp_kfree; [done|done|by eapply alloc_only_ready|done|]. intros Hf'. apply HQ. split.
  - done.
  - eapply alloc_only_trans; [done|apply alloc_only_freed].
  - intros a Ha. rewrite freed_mem by (apply Ha; by left). apply Hm.
    intros q Hq. apply Ha. by right.
Qed.

(** The page tables below index [i]. *)
Definition tables_below (m : memory) (pd i : Z) (ts : list Z) : Prop :=
  forall p, p ∈ ts <-> exists j, 0 <= j < i /\ present (pde_of m pd j) = true /\ p = tab m pd j.

Lemma wp_free_tables pd e s l :
  vm_inv s pd l ->
  wp (for_each (seqZ 0 NPDENTRIES) (fun i =>
        d ← kread32 (pd + 4 * i);
        when (cbool (Z.land d PTE_P)) (kfree (p2v (PTE_ADDR d)));;
        mret (None : option unit)))
    (fun _ e' s' => e' = e /\ exists ts, released s l s' ts /\ tables_below (k_mem s) pd 1024 ts) e s.
Proof.
  intros [Hf Hwf Hsep Hr].
  assert (Hpd : page_ok pd) by apply Hwf.
  apply (wp_for_each (fun js e' s' => e' = e /\ exists i ts, 0 <= i <= 1024 /\
    js = seqZ i (1024 - i) /\ released s l s' ts /\ tables_below (k_mem s) pd i ts)).
  - split; [done|]. exists 0, []. split; [lia|]. split; [done|]. split.
    + split; [done|apply alloc_only_refl|done].
    + intros p. split; [intros Hp; by apply elem_of_nil in Hp|]. intros (j & Hj & _). lia.
  - intros e' s' (-> & i & ts & Hi & Hnil & Hrel & Ht). split; [done|]. exists ts. split; [done|].
    assert (i = 1024) as ->; [|done].
    apply (f_equal length) in Hnil. rewrite length_seqZ in Hnil. simpl in Hnil. lia.
  - intros i' js e' s' _ (-> & i & ts & Hi & Hjs & Hrel & Ht).
    destruct (decide (i < 1024)) as [Hlt|].
    2: { apply (f_equal length) in Hjs. rewrite length_seqZ in Hjs. simpl in Hjs. lia. }
    rewrite seqZ_cons in Hjs by lia. simplify_eq Hjs. intros -> ->.
    assert (Htsok : forall p, p ∈ ts -> pt_page (k_mem s) pd p /\ p <> pd).
    { intros p (j & Hj & Hp & ->)%Ht. split; [right; exists j; split; [lia|done]|].
      apply (pw_tab _ _ Hwf); [lia|done]. }
    assert (Hpde : pde_of (k_mem s') pd i = pde_of (k_mem s) pd i).
    { apply pde_of_ext; [done|lia|]. intros a Ha. apply (rl_mem _ _ _ _ Hrel).
      intros q Hq. destruct (Htsok q Hq) as [_ Hne].
      assert (Hqok : page_ok q).
      { eapply free_page_ok; [apply (rl_free _ _ _ _ Hrel)|]. apply elem_of_app. by left. }
      pose proof (page_disjoint q pd Hqok Hpd Hne). lia. }
    unfold kread32. apply wp_bind, wp_get. fold (pde_of (k_mem s') pd i). rewrite Hpde.
    apply wp_bind, wp_when; intros Hp.
    + destruct (pw_tab _ _ Hwf i ltac:(lia) Hp) as [Hok Hne].
      eapply (wp_released _ _ _ s l s' ts); [done|done| |done|].
      * intros [(j & Hj & Hpj & Heq)%Ht|Hin]%elem_of_app.
        -- assert (i = j); [|lia]. by apply (pw_inj _ _ Hwf); [lia|lia|..].
        -- apply (Hsep _ Hin). right. exists i. split; [lia|done].
      * intros Hrel'. apply wp_ret. split; [done|]. exists (i + 1), (tab (k_mem s) pd i :: ts).
        split; [lia|]. split; [f_equal; lia|]. split; [done|]. intros p.
        rewrite elem_of_cons, (Ht p). split.
        -- intros [->|(j & Hj & ? & ->)]; [exists i|exists j]; (split; [lia|done]).
        -- intros (j & Hj & Hpj & ->). destruct (decide (j = i)) as [->|]; [by left|].
           right. exists j. split; [lia|done].
    + apply wp_ret. split; [done|]. exists (i + 1), ts. split; [lia|]. split; [f_equal; lia|].
      split; [done|]. intros p. rewrite (Ht p). split; intros (j & Hj & Hpj & ->); exists j.
      * split; [lia|done].
      * split; [|done]. assert (j <> i); [|lia]. intros ->.
        unfold present in Hpj. congruence.
Qed.

Lemma wp_freevm pd e s l :
  uvm_inv s pd l ->
  wp (freevm pd) (fun _ e' s' => e' = e /\ exists fs, released s l s' fs /\
    forall p, p ∈ fs <-> pt_page (k_mem s) pd p \/
      exists va, user va /\ present (pte_of (k_mem s) pd va) = true /\ p = frame (k_mem s) pd va) e s.
Proof.
  intros Hu. pose proof (uv_vm _ _ _ Hu) as Hi.
  assert (Hpd : page_ok pd) by apply Hi. pose proof (page_ok_range pd Hpd).
  unfold freevm. destruct (pd =? 0) eqn:E; [lia|]. apply wp_bind.
  eapply wp_mono; [apply wp_deallocuvm; [exact Hu|lia|done|by left]|].
  intros r e' s1 (-> & -> & fs & Hd). change (PGROUNDUP 0) with 0 in Hd.
  change (PGROUNDUP KERNBASE) with KERNBASE in Hd.
  destruct Hd as [Hu1 Ho1 _ Hf1 Hd1 Hm1]. pose proof (uv_vm _ _ _ Hu1) as Hi1.
  assert (Hpg : forall p, pt_page (k_mem s1) pd p <-> pt_page (k_mem s) pd p).
  { intros p. by apply pt_page_same. }
  apply wp_bind. eapply wp_mono; [by apply wp_free_tables|].
  intros _ e' s2 (-> & ts & [Hf2 Ho2 Hm2] & Ht).
  assert (Htb : forall p, p ∈ ts -> pt_page (k_mem s1) pd p /\ p <> pd).
  { intros p (j & Hj & Hp & ->)%Ht. split; [right; exists j; split; [lia|done]|].
    apply (pw_tab _ _ (vi_wf _ _ _ Hi1)); [lia|done]. }
  pose proof (alloc_only_trans _ _ _ Ho1 Ho2) as Ho.
  eapply (wp_kfree pd _ _ _ (ts ++ fs ++ l)); [done| |by eapply alloc_only_ready, Hi|done|].
  { intros [Hin%Htb|Hin]%elem_of_app; [by destruct Hin|].
    apply (vi_sep _ _ _ Hi1 _ Hin). by left. }
  intros Hf3. split; [done|]. exists (pd :: ts ++ fs). split.
  - split; [by rewrite <- app_comm_cons, <- app_assoc| |].
    + eapply alloc_only_trans; [done|apply alloc_only_freed].
    + intros a Ha. rewrite freed_mem by (apply Ha; by left). rewrite Hm2, Hm1; [done|..].
      * intros q [[->|(j & Hj & Hp & ->)]|Hq]; apply Ha; [by left|right..].
        -- apply elem_of_app. left. apply Ht. exists j. unfold tab. by rewrite Hd1.
        -- apply elem_of_app. by right.
      * intros q Hq. apply Ha. right. apply elem_of_app. by left.
  - intros p. rewrite elem_of_cons, elem_of_app, (Ht p), (Hf1 p). unfold user, pt_page, tab.
    split.
    + intros [->|[(j & Hj & Hp & ->)|(va & Hva)]]; [by do 2 left| |by right; exists va].
      left. right. exists j. rewrite Hd1 in Hp |- * by lia. done.
    + intros [[->|(j & Hj & Hp & ->)]|Hva]; [by left|right; left|by right; right].
      exists j. rewrite Hd1 by lia. done.
Qed.

(** * Properties *)

(** C29: [setupkvm] returns a new directory that maps exactly what [kmap] says,
    with its permissions, and nothing at any user address, built only from pages of
    the free list; with more than 65 free pages it always succeeds.  When it
    returns 0 the free list is exhausted. *)
Theorem setupkvm_spec e s l :
  kmem_ready s -> free_rep s l ->
  wp setupkvm (fun r e' s' => e' = e /\
    exists l', alloc_only s s' /\ free_rep s' l' /\ l' `suffix_of` l /\
      (forall a, outside a (fun p => p ∈ l) -> ld8 (k_mem s') a = ld8 (k_mem s) a) /\
      (r = 0 /\ l' = [] /\ (length l <= 65)%nat \/
       r <> 0 /\ vm_inv s' r l' /\ (forall p, pt_page (k_mem s') r p -> p ∈ l) /\
       (forall va, 0 <= va < 4294967296 -> pte_of (k_mem s') r va = kmap_pte kmap va) /\
       (length l <= length l' + 65)%nat)) e s.
Proof. apply wp_setupkvm. Qed.

(** When the first page table of the range exists or the range starts at a page
    table boundary, [deallocuvm] unmaps every user page of the range, frees exactly
    the pages that were mapped there, once each, and leaves every other mapping and
    all other memory alone. *)
Lemma deallocuvm_spec pd oldsz newsz e s l :
  uvm_inv s pd l -> 0 <= newsz < oldsz -> oldsz <= KERNBASE ->
  PGROUNDUP newsz mod 4194304 = 0 \/ present (pde_of (k_mem s) pd (PDX (PGROUNDUP newsz))) = true ->
  wp (deallocuvm pd oldsz newsz) (fun r e' s' => e' = e /\ r = newsz /\
    exists fs, uvm_inv s' pd (fs ++ l) /\ alloc_only s s' /\
      cleared pd (PGROUNDUP newsz) (PGROUNDUP oldsz) (k_mem s) (k_mem s') /\
      frames_of pd (PGROUNDUP newsz) (PGROUNDUP oldsz) (k_mem s) fs /\
      (forall a, outside a (fun q => pt_page (k_mem s) pd q \/ q ∈ fs) ->
         ld8 (k_mem s') a = ld8 (k_mem s) a)) e s.
Proof.
  intros Hu Hsz Hk Hs. eapply wp_mono; [apply wp_deallocuvm; try done|].
  { destruct Hs; [by left|by right; left]. }
  intros r e' s' (-> & -> & fs & [Hu' Ho Hc Hf _ Hm]). eauto 10.
Qed.

(** C16: [freevm] gives back every page of an address space, each of them once: the
    directory, its page tables and the user pages mapped in it; nothing else is
    freed and no other memory is touched. *)
Theorem freevm_spec pd e s l :
  uvm_inv s pd l ->
  wp (freevm pd) (fun _ e' s' => e' = e /\ exists fs,
    free_rep s' (fs ++ l) /\ alloc_only s s' /\
    (forall a, outside a (fun q => q ∈ fs) -> ld8 (k_mem s') a = ld8 (k_mem s) a) /\
    forall p, p ∈ fs <-> pt_page (k_mem s) pd p \/
      exists va, user va /\ present (pte_of (k_mem s) pd va) = true /\ p = frame (k_mem s) pd va) e s.
Proof.
  intros Hu. eapply wp_mono; [by apply wp_freevm|].
  intros _ e' s' (-> & fs & [Hf Ho Hm] & Hfs). split; [done|]. by exists fs.
Qed.

End space.

(** * The properties at concrete states *)

#[local] Existing Instance built_symbols.

(** A kernel with [n] free pages, and an empty directory outside of them. *)
Definition wpages (n : nat) : list Z := (fun k => 0x80400000 + PGSIZE * Z.of_nat k) <$> seq 0 n.
Definition wstate (n : nat) : kernel := foldr freed boot_state (wpages n).
Definition wdir : Z := 0x82000000.

Lemma elem_of_wpages p n :
  p ∈ wpages n <-> exists k, (k < n)%nat /\ p = 0x80400000 + PGSIZE * Z.of_nat k.
Proof.
  unfold wpages. rewrite list_elem_of_fmap. setoid_rewrite elem_of_seq.
  split; intros (k & ? & ?); exists k; (split; [lia|lia]) || (split; lia).
Qed.

Lemma length_wpages n : length (wpages n) = n.
Proof. unfold wpages. by rewrite length_fmap, length_seq. Qed.

Lemma wpages_ok p n : (n <= 4096)%nat -> p ∈ wpages n -> page_ok p.
Proof.
  intros Hn (k & Hk & ->)%elem_of_wpages. split; [mlia|].
  change sym_end with 0x80116360. lia.
Qed.

Lemma foldr_freed l :
  NoDup l -> Forall page_ok l ->
  free_rep (foldr freed boot_state l) l /\ alloc_only boot_state (foldr freed boot_state l) /\
  forall a, outside a (fun p => p ∈ l) -> ld8 (k_mem (foldr freed boot_state l)) a = 0.
Proof.
  induction l as [|v l IH]; intros Hd Hp; simpl.
  - split_and!; [by split; [|constructor|constructor|]|apply alloc_only_refl|done].
  - apply NoDup_cons in Hd as [Hn Hd]. apply Forall_cons in Hp as [Hv Hp].
    destruct (IH Hd Hp) as (Hf & Ho & Hm). split_and!.
    + by apply free_rep_freed.
    + eapply alloc_only_trans; [done|apply alloc_only_freed].
    + intros a Ha. change (ld8 (k_mem (freed v (foldr freed boot_state l))) a = 0).
      rewrite freed_mem by (apply Ha; by left). apply Hm. intros q Hq. apply Ha. by right.
Qed.

Lemma wstate_ok n :
  (n <= 4096)%nat ->
  free_rep (wstate n) (wpages n) /\ alloc_only boot_state (wstate n) /\
  forall a, outside a (fun p => p ∈ wpages n) -> ld8 (k_mem (wstate n)) a = 0.
Proof.
  intros Hn. apply foldr_freed.
  - apply NoDup_fmap; [|apply NoDup_seq]. intros i j Hij. lia.
  - apply Forall_forall. intros p Hp. by eapply wpages_ok.
Qed.

Lemma wdir_ok : page_ok wdir.
Proof. split; [done|by vm_compute]. Qed.

Lemma wdir_pde n i : (n <= 4096)%nat -> 0 <= i < 1024 -> pde_of (k_mem (wstate n)) wdir i = 0.
Proof.
  intros Hn Hi. destruct (wstate_ok n Hn) as (_ & _ & Hm).
  unfold pde_of. rewrite v2p_entry by (done || exact wdir_ok).
  unfold ld32. change (v2p wdir) with 0x2000000.
  assert (Hb : forall a, 0x2000000 <= a < 0x2001000 -> ld8 (k_mem (wstate n)) a = 0).
  { intros a Ha. apply Hm. intros p (k & Hk & ->)%elem_of_wpages.
    rewrite v2p_eq by lia. lia. }
  by rewrite !Hb by lia.
Qed.

Lemma wdir_inv n : (n <= 4096)%nat -> uvm_inv (wstate n) wdir (wpages n).
Proof.
  intros Hn. destruct (wstate_ok n Hn) as (Hf & Ho & Hm).
  pose proof wdir_ok as Hd.
  assert (Hz := fun i => wdir_pde n i Hn).
  assert (Hp : forall va, user va -> pte_of (k_mem (wstate n)) wdir va = 0).
  { intros va Hu. unfold pte_of. by rewrite Hz by (apply PDX_range, user_range, Hu). }
  split; [split; [done|split; [done|..]|..]|..].
  - intros i Hi. by rewrite Hz.
  - intros i j Hi Hj. by rewrite Hz.
  - intros p (k & Hk & ->)%elem_of_wpages [E|(i & Hi & E & _)]; [unfold wdir in E; lia|].
    by rewrite Hz in E.
  - eapply alloc_only_ready; [done|]. by intros E.
  - intros va Hu. by rewrite Hp.
  - intros va va' Hu Hu'. by rewrite Hp.
Qed.

(** With 1100 free pages there is a directory. *)
Lemma setupkvm_spec_witness :
  exists d s', setupkvm [] (wstate 1100) = Done d [] s' /\
    pte_of (k_mem s') d 0x1000 = 0 /\ pte_of (k_mem s') d 0x80200000 = 0x200003.
Proof.
  destruct (wstate_ok 1100 ltac:(lia)) as (Hf & _).
  pose proof (uv_vm _ _ _ (wdir_inv 1100 ltac:(lia))) as Hv.
  pose proof (setupkvm_spec [] (wstate 1100) (wpages 1100) (vi_ready _ _ _ Hv) Hf) as Hw.
  destruct (wp_elim _ _ _ _ Hw) as (d & e' & s' & Heq & -> & l' & _ & _ & _ & _ & Hr).
  exists d, s'. split; [exact Heq|]. clear Heq Hw.
  destruct Hr as [(_ & _ & Hl)|(_ & _ & _ & Hp & _)]; [rewrite length_wpages in Hl; lia|].
  rewrite !Hp by lia. split; vm_compute; reflexivity.
Defined.

Lemma deallocuvm_spec_witness :
  exists s', deallocuvm wdir 0x8000 0 [] (wstate 3) = Done 0 [] s'.
Proof.
  pose proof (deallocuvm_spec wdir 0x8000 0 [] (wstate 3) (wpages 3) (wdir_inv 3 ltac:(lia))
    ltac:(lia) ltac:(lia) (or_introl eq_refl)) as Hw.
  destruct (wp_elim _ _ _ _ Hw) as (r & e' & s' & Heq & -> & -> & _). exists s'. exact Heq.
Defined.

Lemma freevm_spec_witness :
  exists s' l', freevm wdir [] (wstate 3) = Done tt [] s' /\ free_rep s' l' /\ wdir ∈ l'.
Proof.
  pose proof (freevm_spec wdir [] (wstate 3) (wpages 3) (wdir_inv 3 ltac:(lia))) as Hw.
  destruct (wp_elim _ _ _ _ Hw) as ([] & e' & s' & Heq & -> & fs & Hf & _ & _ & Hfs).
  exists s', (fs ++ wpages 3). split; [exact Heq|]. split; [exact Hf|]. clear Heq Hw.
  apply elem_of_app. left. apply Hfs. left. by left.
Defined.
