(* ===== verification/VmAlloc.v ===== *)
(** Growing an address space: [allocuvm], its success and its two ways of running
    out of memory. *)

From S2P Require Import Prelude Params Mem State Spinlock Console Kalloc Vm VmTables VmSpace.

Section alloc.
Context `{Symbols} {Hsym : SymbolsOk}.

(** Mapping one more page, or failing to, keeps the invariant.  [b] tells whether
    the page [v] was mapped at [a]. *)
Lemma uvm_inv_map (b : bool) s s' pd l l' a v fl :
  uvm_inv s pd l -> vm_inv s' pd l' -> vm_ext pd s l s' l' ->
  a mod PGSIZE = 0 -> page_ok v -> v ∉ l -> ~ pt_page (k_mem s) pd v ->
  (forall va, user va -> present (pte_of (k_mem s) pd va) = true -> frame (k_mem s) pd va <> v) ->
  0 <= fl < PGSIZE ->
  (forall va, 0 <= va < 4294967296 -> pte_of (k_mem s') pd va =
     if b && (va / PGSIZE =? a / PGSIZE) then v2p v + fl else pte_of (k_mem s) pd va) ->
  uvm_inv s' pd l'.
Proof.
  intros [Hi Hfr Hinj] Hi' He Hal Hv Hvl Hvp Hvf Hfl Hpte.
  destruct (page_ok_frame v Hv) as [Hvr Hva].
  assert (Hcase : forall va, user va -> present (pte_of (k_mem s') pd va) = true ->
    (b = true /\ va / PGSIZE = a / PGSIZE /\ frame (k_mem s') pd va = v) \/
    (present (pte_of (k_mem s) pd va) = true /\ frame (k_mem s') pd va = frame (k_mem s) pd va)).
  { intros va Hu. unfold frame. rewrite Hpte by (by apply user_range).
    destruct (b && _) eqn:E; [|tauto]. intros _. left. split_and!; [lia|lia|].
    rewrite PTE_ADDR_eq. replace (v2p v + fl - (v2p v + fl) mod PGSIZE) with (v2p v) by mlia.
    apply p2v_v2p. pose proof (page_ok_range v Hv). lia. }
  assert (Hsep : forall p, page_ok p -> p ∉ l -> ~ pt_page (k_mem s) pd p ->
    (p ∉ l') /\ ~ pt_page (k_mem s') pd p).
  { intros p _ Hl Hp. split; [intros Hin; by eapply Hl, elem_of_suffix, Hin; apply He|].
    intros [?|?]%(ve_new _ _ _ _ _ He); done. }
  split; [done| |].
  - intros va Hu Hp. destruct (Hcase va Hu Hp) as [(_ & _ & ->)|[Hp0 ->]].
    + split; [done|]. by apply Hsep.
    + destruct (Hfr va Hu Hp0) as (? & ? & ?). split; [done|]. by apply Hsep.
  - intros va va' Hu Hu' Hp Hp'.
    destruct (Hcase va Hu Hp) as [(_ & E1 & ->)|[Hp0 ->]],
      (Hcase va' Hu' Hp') as [(_ & E2 & ->)|[Hp0' ->]]; intros Heq.
    + congruence.
    + by destruct (Hvf va' Hu' Hp0').
    + by destruct (Hvf va Hu Hp0).
    + by apply Hinj.
Qed.

(** Taking a page and filling it keeps every address space that does not use it. *)
Lemma uvm_inv_take s pd v l (f : memory -> memory) :
  uvm_inv s pd (v :: l) ->
  (forall m a, a < v2p v \/ v2p v + PGSIZE <= a -> ld8 (f m) a = ld8 m a) ->
  let s' := on_mem f (popped s) in
  uvm_inv s' pd l /\
  (forall va, 0 <= va < 4294967296 -> pte_of (k_mem s') pd va = pte_of (k_mem s) pd va) /\
  (forall p, pt_page (k_mem s') pd p <-> pt_page (k_mem s) pd p).
Proof.
  intros [Hi Hfr Hinj] Hf s'.
  assert (Hv : page_ok v) by (eapply free_page_ok; [apply Hi|by left]).
  assert (Hvp : ~ pt_page (k_mem s) pd v) by (apply (vi_sep _ _ _ Hi); by left).
  pose proof (fr_nodup _ _ (vi_free _ _ _ Hi)) as [Hn _]%NoDup_cons.
  assert (Hout : forall p, page_ok p -> p <> v -> forall a, v2p p <= a < v2p p + PGSIZE ->
    ld8 (k_mem s') a = ld8 (k_mem s) a).
  { intros p Hp Hne a Ha. apply Hf. pose proof (page_disjoint p v Hp Hv Hne). lia. }
  destruct (vm_inv_frame s s' pd (v :: l) l Hi) as (Hi' & Hpte & Hpde).
  - eapply (free_rep_write (popped s)); [eapply free_rep_popped, Hi|done|done|].
    intros p Hp a Ha. apply (Hout p); [eapply free_page_ok; [apply Hi|by right]|congruence|done].
  - apply Hi.
  - intros p Hp. apply (vi_sep _ _ _ Hi). by right.
  - intros p Hp a Ha. apply (Hout p); [by eapply vm_page_ok|congruence|done].
  - assert (Hpg : forall p, pt_page (k_mem s') pd p <-> pt_page (k_mem s) pd p).
    { intros p. by apply pt_page_same. }
    split_and!; [split; [done|..]|done|done].
    + intros va Hu. unfold frame. rewrite Hpte by (by apply user_range). intros Hp.
      destruct (Hfr va Hu Hp) as (? & Hnl & ?). rewrite Hpg. split_and!; [done| |done].
      intros Hin. apply Hnl. by right.
    + intros va va' Hu Hu'. unfold frame. rewrite !Hpte by (by apply user_range). by apply Hinj.
Qed.

(** [s'] is [s] with zeroed pages of [l] mapped at the user pages of [lo, hi). *)
Record alloced (pd lo hi : Z) (s : kernel) (l : list Z) (s' : kernel) (l' : list Z) : Prop := {
  al_inv : uvm_inv s' pd l';
  al_only : alloc_only s s';
  al_suffix : l' `suffix_of` l;
  al_pte : forall va, 0 <= va < 4294967296 ->
    if (lo <=? va) && (va <? hi)
    then pte_of (k_mem s') pd va = v2p (frame (k_mem s') pd va) + 7 /\
         frame (k_mem s') pd va ∈ l /\ page_ok (frame (k_mem s') pd va)
    else pte_of (k_mem s') pd va = pte_of (k_mem s) pd va;
  al_zero : forall va off, lo <= va < hi -> 0 <= off < PGSIZE ->
    ld8 (k_mem s') (v2p (frame (k_mem s') pd va) + off) = 0;
  al_new : forall p, pt_page (k_mem s') pd p -> pt_page (k_mem s) pd p \/ p ∈ l;
  al_mem : forall a, outside a (fun p => pt_page (k_mem s) pd p \/ p ∈ l) ->
             ld8 (k_mem s') a = ld8 (k_mem s) a
}.

Lemma alloced_refl pd lo s l : uvm_inv s pd l -> alloced pd lo lo s l s l.
Proof.
  intros Hu. split; [done|apply alloc_only_refl|done| | |tauto|done].
  - intros va Hva. by zif.
  - intros. lia.
Qed.

Lemma present_7 v : page_ok v -> present (v2p v + 7) = true.
Proof. intros Hv. destruct (page_ok_frame v Hv). rewrite present_eq. mlia. Qed.

Lemma alloced_present pd lo hi s l s' l' va :
  alloced pd lo hi s l s' l' -> user va -> lo <= va < hi -> present (pte_of (k_mem s') pd va) = true.
Proof.
  intros [Hu _ Hsu Hp _ _ _] Hva Hr. pose proof (user_range va Hva) as Hvr.
  specialize (Hp va Hvr). destruct (_ && _) eqn:E; [|lia].
  destruct Hp as (-> & _ & Hok). by apply present_7.
Qed.

(** Taking a page off the list and zeroing it. *)
Lemma alloced_take pd lo hi s l s' v l' :
  alloced pd lo hi s l s' (v :: l') -> hi <= KERNBASE -> 0 <= lo ->
  alloced pd lo hi s l (new_dir v s') l' /\
  (forall va, 0 <= va < 4294967296 ->
     pte_of (k_mem (new_dir v s')) pd va = pte_of (k_mem s') pd va) /\
  (forall p, pt_page (k_mem (new_dir v s')) pd p <-> pt_page (k_mem s') pd p).
Proof.
  intros Ha Hhi Hlo. pose proof Ha as [Hu Ho Hsu Hp Hz Hn Hm].
  assert (Hv : page_ok v) by (eapply free_page_ok; [apply Hu|by left]).
  destruct (uvm_inv_take s' pd v l' (fun m => memset m (v2p v) 0 PGSIZE) Hu) as (Hu' & Hpte & Hpg).
  { intros m a Hout. rewrite ld8_memset by lia. by zif. }
  change (on_mem _ (popped s')) with (new_dir v s') in *.
  assert (Hfr : forall va, 0 <= va < 4294967296 ->
    frame (k_mem (new_dir v s')) pd va = frame (k_mem s') pd va).
  { intros va Hva. unfold frame. by rewrite Hpte. }
  split; [split|done]; [done| | | | | |].
  - eapply alloc_only_trans; [done|]. do 3 eexists; split; done.
  - etrans; [|done]. by exists [v].
  - intros va Hva. rewrite Hpte, Hfr by done. by apply Hp.
  - intros va off Hva Hoff. rewrite Hfr by lia. rewrite new_dir_mem; [by apply Hz|].
    assert (Huv : user va) by (unfold user; lia).
    destruct (uv_frame _ _ _ Hu va Huv) as (Hok & Hnl & _); [by eapply alloced_present|].
    assert (Hne : frame (k_mem s') pd va <> v) by (intros E; apply Hnl; rewrite E; by left).
    pose proof (page_disjoint _ _ Hok Hv Hne). lia.
  - intros p. rewrite Hpg. apply Hn.
  - intros a Ha'. rewrite new_dir_mem; [by apply Hm|]. apply Ha'. right.
    eapply elem_of_suffix; [done|by left].
Qed.

(** What is not a page table and not free keeps its contents. *)
Lemma vm_ext_keep pd s1 l1 s2 l2 p :
  vm_inv s1 pd l1 -> vm_ext pd s1 l1 s2 l2 ->
  page_ok p -> p ∉ l1 -> ~ pt_page (k_mem s1) pd p ->
  forall off, 0 <= off < PGSIZE -> ld8 (k_mem s2) (v2p p + off) = ld8 (k_mem s1) (v2p p + off).
Proof.
  intros Hi He Hok Hpl Hpp off Hoff. apply (ve_mem _ _ _ _ _ He). intros q Hq.
  assert (Hqok : page_ok q).
  { destruct Hq; [by eapply vm_page_ok|by eapply free_page_ok; [apply Hi|]]. }
  assert (Hne : p <> q) by (intros ->; tauto).
  pose proof (page_disjoint p q Hok Hqok Hne). lia.
Qed.

(** Mapping the page taken, or failing to. *)
Lemma alloced_map (b : bool) pd lo hi s l s1 l1 s2 l2 v :
  alloced pd lo hi s l s1 l1 -> vm_inv s2 pd l2 -> vm_ext pd s1 l1 s2 l2 ->
  0 <= lo -> lo <= hi -> hi mod PGSIZE = 0 -> hi + PGSIZE <= KERNBASE ->
  page_ok v -> v ∈ l -> v ∉ l1 -> ~ pt_page (k_mem s1) pd v ->
  (forall va, user va -> present (pte_of (k_mem s1) pd va) = true -> frame (k_mem s1) pd va <> v) ->
  (forall off, 0 <= off < PGSIZE -> ld8 (k_mem s1) (v2p v + off) = 0) ->
  (forall va, 0 <= va < 4294967296 -> pte_of (k_mem s2) pd va =
     if b && (va / PGSIZE =? hi / PGSIZE) then v2p v + 7 else pte_of (k_mem s1) pd va) ->
  alloced pd lo (if b then hi + PGSIZE else hi) s l s2 l2.
Proof.
  intros Ha Hi2 He Hlo Hle Hal Hk Hv Hvl Hvl1 Hvp Hvf Hvz Hpte.
  pose proof Ha as [Hu Ho Hsu Hp Hz Hn Hm].
  assert (Hu2 : uvm_inv s2 pd l2) by (by eapply (uvm_inv_map b _ _ _ _ _ hi v 7)).
  destruct (page_ok_frame v Hv) as [Hvr Hva].
  assert (Hfv : p2v (PTE_ADDR (v2p v + 7)) = v).
  { rewrite PTE_ADDR_eq. replace (v2p v + 7 - (v2p v + 7) mod PGSIZE) with (v2p v) by mlia.
    apply p2v_v2p. pose proof (page_ok_range v Hv). lia. }
  assert (Hkeep := fun p Hok Hl Hp => vm_ext_keep pd s1 l1 s2 l2 p (uv_vm _ _ _ Hu) He Hok Hl Hp).
  assert (Hcase : forall va, 0 <= va < 4294967296 ->
    lo <= va < (if b then hi + PGSIZE else hi) ->
    (va / PGSIZE = hi / PGSIZE /\ b = true) \/ (lo <= va < hi /\ va / PGSIZE <> hi / PGSIZE)).
  { intros va Hvr' Hr. destruct b; [|right; mlia]. destruct (decide (va < hi)); [right|left]; mlia. }
  split; [done|by eapply alloc_only_trans; [|apply He]|etrans; [apply He|done]| | | |].
  - intros va Hvr'. unfold frame. rewrite Hpte by done. specialize (Hp va Hvr').
    destruct (b && (va / PGSIZE =? hi / PGSIZE)) eqn:E.
    + destruct ((lo <=? va) && (va <? (if b then hi + PGSIZE else hi))) eqn:E';
        [|exfalso; destruct b; cbv iota in E'; mlia].
      by rewrite Hfv.
    + destruct ((lo <=? va) && (va <? hi)) eqn:E1,
        ((lo <=? va) && (va <? (if b then hi + PGSIZE else hi))) eqn:E2; try done;
        exfalso; destruct b; cbv iota in E2; mlia.
  - intros va off Hr Hoff.
    assert (Hvr' : 0 <= va < 4294967296) by (destruct b; lia).
    unfold frame. rewrite Hpte by done.
    destruct (Hcase va Hvr' Hr) as [[E ->]|[Hr' E]].
    + rewrite (proj2 (Z.eqb_eq _ _) E). simpl. rewrite Hfv, Hkeep by done. by apply Hvz.
    + rewrite (proj2 (Z.eqb_neq _ _) E), andb_false_r.
      assert (Huv : user va) by (unfold user; lia).
      destruct (uv_frame _ _ _ Hu va Huv) as (Hok & Hnl & Hnp); [by eapply alloced_present|].
      rewrite Hkeep by done. by apply Hz.
  - intros p [Hpp|Hpp]%(ve_new _ _ _ _ _ He); [by apply Hn|]. right. by eapply elem_of_suffix.
  - intros a Ha'. rewrite (ve_mem _ _ _ _ _ He); [by apply Hm|].
    intros q [Hq|Hq]; apply Ha'; [by apply Hn|]. right. by eapply elem_of_suffix.
Qed.

Lemma uvm_fresh s pd v l va :
  uvm_inv s pd (v :: l) -> user va -> present (pte_of (k_mem s) pd va) = true ->
  frame (k_mem s) pd va <> v.
Proof.
  intros Hu Huv Hp E. destruct (uv_frame _ _ _ Hu va Huv Hp) as (_ & Hnl & _).
  apply Hnl. rewrite E. by left.
Qed.

(** One round of the loop of [allocuvm] that has a page [v]. *)
Lemma wp_alloc_page pd lo hi e s l s1 v l1 :
  alloced pd lo hi s l s1 (v :: l1) -> kmem_ready s ->
  0 <= lo -> lo <= hi -> hi mod PGSIZE = 0 -> hi + PGSIZE <= KERNBASE ->
  present (pte_of (k_mem s) pd hi) = false ->
  wp (kmemset v 0 PGSIZE;; mappages pd hi PGSIZE (v2p v) (Z.lor PTE_W PTE_U))
    (fun r e' s2 => e' = e /\
       (r = 0 /\ (exists l2, alloced pd lo (hi + PGSIZE) s l s2 l2 /\ (length l1 <= S (length l2))%nat /\ frame (k_mem s2) pd hi = v) \/
        r = -1 /\ l1 = [] /\ alloced pd lo hi s l s2 [] /\ ~ pt_page (k_mem s2) pd v)) e (popped s1).
Proof.
  intros Ha Hr Hlo Hle Hal Hk Hun. pose proof (al_inv _ _ _ _ _ _ _ Ha) as Hu.
  assert (Hv : page_ok v) by (eapply free_page_ok; [apply Hu|by left]).
  destruct (page_ok_frame v Hv) as [Hvr Hva].
  destruct (alloced_take pd lo hi s l s1 v l1 Ha ltac:(lia) Hlo) as (Ha1 & Hpte1 & Hpg1).
  apply wp_bind, wp_modify. change (on_mem _ (popped s1)) with (new_dir v s1).
  assert (Hgd : PGROUNDDOWN hi = hi) by (rewrite PGROUNDDOWN_eq by lia; lia).
  assert (Hsp : span hi PGSIZE = 1) by (unfold span; mlia).
  assert (Hun1 : present (pte_of (k_mem (new_dir v s1)) pd hi) = false).
  { rewrite Hpte1 by lia. pose proof (al_pte _ _ _ _ _ _ _ Ha hi ltac:(lia)) as Hp.
    destruct (_ && _) eqn:E; [lia|]. by rewrite Hp. }
  eapply wp_mono; [eapply (wp_mappages _ _ _ _ _ _ _ l1)|]; rewrite ?Hgd, ?Hsp; try lia.
  { apply (al_inv _ _ _ _ _ _ _ Ha1). }
  { done. }
  { intros va Hr'. by rewrite (pte_of_page _ _ va hi) by (lia || mlia). }
  intros r e' s2 (-> & k & l2 & Hi2 & He2 & Hm & _ & Hl & _ & Hres). split; [done|].
  rewrite Hgd, ?Hsp in *.
  pose proof (uv_vm _ _ _ (al_inv _ _ _ _ _ _ _ Ha)) as Hi.
  assert (Hstep : forall b : bool, k = (if b then 1 else 0) ->
    alloced pd lo (if b then hi + PGSIZE else hi) s l s2 l2).
  { intros b Hb. eapply (alloced_map b pd lo hi s l (new_dir v s1) l1 s2 l2 v); try done.
    - eapply elem_of_suffix; [apply Ha|by left].
    - by pose proof (fr_nodup _ _ (vi_free _ _ _ Hi)) as [? _]%NoDup_cons.
    - rewrite Hpg1. apply (vi_sep _ _ _ Hi). by left.
    - intros va Huv. unfold frame. rewrite Hpte1 by (by apply user_range). intros Hp.
      by apply (uvm_fresh s1 pd v l1).
    - intros off Hoff. simpl. rewrite ld8_memset by lia. by zif.
    - intros va Hvr'. rewrite Hm by done.
      assert (Z.lor (Z.lor (v2p v) (Z.lor PTE_W PTE_U)) PTE_P = v2p v + 7) as Hval.
      { rewrite <- Z.lor_assoc. apply pte_make; [done|lia]. }
      destruct (b && (va / PGSIZE =? hi / PGSIZE)) eqn:E.
      + destruct ((hi <=? va) && (va <? hi + k * PGSIZE)) eqn:E'.
        * replace (va / PGSIZE * PGSIZE - hi) with 0 by mlia. by rewrite Z.add_0_r.
        * exfalso. destruct b; mlia.
      + destruct ((hi <=? va) && (va <? hi + k * PGSIZE)) eqn:E'; [|done].
        exfalso. destruct b; mlia. }
  destruct Hres as [[-> ->]|(-> & Hk' & ->)].
  - left. split; [done|]. exists l2. split; [by apply (Hstep true)|]. split; [lia|].
    unfold frame. rewrite Hm by lia. destruct ((hi <=? hi) && (hi <? hi + 1 * PGSIZE)) eqn:E; [|lia].
    replace (hi / PGSIZE * PGSIZE - hi) with 0 by mlia. rewrite Z.add_0_r, <- Z.lor_assoc.
    change (Z.lor (Z.lor PTE_W PTE_U) PTE_P) with 7. rewrite PTE_ADDR_make by (done || lia).
    apply p2v_v2p. pose proof (page_ok_range v Hv). lia.
  - assert (k = 0) as -> by lia. right.
    assert (l1 = []) as -> by (destruct l1; [done|simpl in Hl; lia]).
    split_and!; [done|done|by apply (Hstep false)|].
    intros [Hp|Hp]%(ve_new _ _ _ _ _ He2); [|by apply not_elem_of_nil in Hp].
    apply Hpg1 in Hp. apply (vi_sep _ _ _ Hi v); [by left|done].
Qed.

(** When memory runs out, everything is unmapped again: the state [s'] has the
    mappings of [s]. *)
Definition rolled_back (pd : Z) (s : kernel) (l : list Z) (s' : kernel) : Prop :=
  exists k fs, alloc_only (set_k_cons k s) s' /\ cons_ready s' /\ uvm_inv s' pd fs /\
    (forall p, p ∈ fs -> p ∈ l) /\
    (forall va, 0 <= va < 4294967296 ->
       pte_of (k_mem s') pd va = pte_of (k_mem s) pd va \/
       present (pte_of (k_mem s) pd va) = false /\ pte_of (k_mem s') pd va = 0) /\
    (forall a, outside a (fun p => pt_page (k_mem s) pd p \/ p ∈ l) ->
       ld8 (k_mem s') a = ld8 (k_mem s) a).

Lemma alloc_only_cons k s s' : alloc_only s s' -> alloc_only (set_k_cons k s) (set_k_cons k s').
Proof. intros (m & km & n & -> & E). exists m, km, n. split; [by destruct s|done]. Qed.

Lemma alloc_only_cons_ready s s' : alloc_only s s' -> cons_ready s -> cons_ready s'.
Proof. by intros (m & km & n & -> & E). Qed.

Lemma uvm_inv_cons k s pd l : uvm_inv s pd l -> uvm_inv (set_k_cons k s) pd l.
Proof.
  intros [[Hf Hwf Hsep Hr] Hfr Hinj]. split; [split|..]; try done. by eapply free_rep_ext, Hf.
Qed.

Lemma rolled_back_intro pd lo hi top s l s1 k s2 fs :
  alloced pd lo hi s l s1 [] -> lo <= hi -> hi <= top ->
  (forall va, lo <= va < top -> present (pte_of (k_mem s) pd va) = false) ->
  top <= KERNBASE -> 0 <= lo ->
  cons_ready (set_k_cons k s1) ->
  dealloced pd lo top (set_k_cons k s1) [] s2 fs ->
  rolled_back pd s l s2.
Proof.
  intros Ha Hle Hht Hun Htop Hlo Hc [Hu2 Ho2 Hp2 Hf2 Hd2 Hm2].
  pose proof Ha as [Hu1 Ho1 Hs1 Hp1 _ Hn1 Hm1]. simpl in *. rewrite app_nil_r in Hu2.
  assert (Hfs : forall p, p ∈ fs -> p ∈ l).
  { intros p (va & Hva & Hpr & ->)%Hf2. specialize (Hp1 va ltac:(lia)).
    destruct (_ && _) eqn:E; [by destruct Hp1 as (_ & ? & _)|].
    rewrite Hp1, Hun in Hpr; [done|lia]. }
  exists k, fs. split_and!; try done.
  - eapply alloc_only_trans; [by apply alloc_only_cons|done].
  - by eapply alloc_only_cons_ready.
  - intros va Hva. specialize (Hp1 va Hva). rewrite (Hp2 va Hva). simpl.
    destruct ((lo <=? va) && (va <? hi)) eqn:E.
    + right. split; [apply Hun; lia|].
      rewrite (alloced_present _ _ _ _ _ _ _ va Ha); [|unfold user; lia|lia].
      destruct ((lo <=? va) && (va <? top)) eqn:E'; [done|lia].
    + rewrite Hp1. destruct (_ && present _) eqn:E'; [|by left].
      rewrite Hun in E' by lia. lia.
  - intros a Ha'. rewrite Hm2; [by apply Hm1|].
    intros q [Hq|Hq]; apply Ha'; [by apply Hn1|]. right. by apply Hfs.
Qed.

Lemma steps_ok_alloced pd lo hi top s l s1 l1 :
  alloced pd lo hi s l s1 l1 -> lo <= hi -> hi <= top -> top <= KERNBASE -> 0 <= lo ->
  (forall va, lo <= va < top -> present (pte_of (k_mem s) pd va) = false) ->
  steps_ok pd lo top (k_mem s1).
Proof.
  intros Ha Hle Hht Htop Hlo Hun. destruct (decide (lo < hi)) as [Hlt|].
  - right. left. apply present_pde. eapply alloced_present; [done|unfold user; lia|lia].
  - right. right. intros va Hva. pose proof (al_pte _ _ _ _ _ _ _ Ha va ltac:(lia)) as Hp.
    destruct (_ && _) eqn:E; [lia|]. rewrite Hp. by apply Hun.
Qed.

(** The round that finds the free list empty undoes the rounds before it. *)
Lemma wp_alloc_fail pd oldsz newsz b e s l s1 :
  alloced pd (PGROUNDUP oldsz) b s l s1 [] -> cons_ready s ->
  0 <= oldsz < newsz -> newsz < KERNBASE -> PGROUNDUP oldsz <= b <= PGROUNDUP newsz ->
  (forall va, PGROUNDUP oldsz <= va < PGROUNDUP newsz -> present (pte_of (k_mem s) pd va) = false) ->
  wp (cprintf ("allocuvm out of memory" +:+ nl) [];;
      deallocuvm pd newsz oldsz;; mret (inr 0 : Z + Z))
    (fun r e' s2 => r = inr 0 /\ e' = e /\ rolled_back pd s l s2) e s1.
Proof.
  intros Ha Hc Hsz Hk Hb Hun. pose proof (al_inv _ _ _ _ _ _ _ Ha) as Hu1.
  assert (Htop : PGROUNDUP newsz <= KERNBASE) by (rewrite PGROUNDUP_eq by lia; mlia).
  assert (Hlo : 0 <= PGROUNDUP oldsz) by (rewrite PGROUNDUP_eq by lia; mlia).
  apply wp_bind, wp_cprintf; [by eapply alloc_only_cons_ready; [apply Ha|]|].
  intros k Hc'. apply wp_bind. eapply wp_mono.
  - apply (wp_deallocuvm pd newsz oldsz e (set_k_cons k s1) []); [by apply uvm_inv_cons|lia|lia|].
    apply (steps_ok_alloced pd _ b _ s l s1 []); done || lia.
  - intros r e' s2 (-> & _ & fs & Hd). apply wp_ret. split; [done|]. split; [done|].
    apply (rolled_back_intro pd (PGROUNDUP oldsz) b (PGROUNDUP newsz) s l s1 k s2 fs); done || lia.
Qed.

(** The three outcomes of [allocuvm] on [n] pages with free list [l]. *)
Definition allocuvm_post (pd oldsz newsz : Z) (s : kernel) (l : list Z) (r : Z) (s' : kernel) : Prop :=
  let lo := PGROUNDUP oldsz in
  let hi := PGROUNDUP newsz in
  let short := Z.of_nat (length l) < 2 * ((hi - lo) / PGSIZE) in
  (r = newsz /\ exists l', alloced pd lo hi s l s' l' /\
     Z.of_nat (length l) <= Z.of_nat (length l') + 2 * ((hi - lo) / PGSIZE)) \/
  (r = newsz /\ short /\ alloced pd lo (hi - PGSIZE) s l s' []) \/
  (r = 0 /\ short /\ rolled_back pd s l s').

Lemma wp_allocuvm pd oldsz newsz e s l :
  uvm_inv s pd l -> cons_ready s -> 0 <= oldsz <= newsz -> newsz < KERNBASE ->
  (forall va, PGROUNDUP oldsz <= va < PGROUNDUP newsz -> present (pte_of (k_mem s) pd va) = false) ->
  wp (allocuvm pd oldsz newsz) (fun r e' s' => e' = e /\ allocuvm_post pd oldsz newsz s l r s') e s.
Proof.
  intros Hu Hc Hsz Hk Hun. unfold allocuvm, allocuvm_post.
  destruct (KERNBASE <=? newsz) eqn:E1; [lia|]. destruct (newsz <? oldsz) eqn:E2; [lia|].
  assert (Hlo : PGROUNDUP oldsz = oldsz + (- oldsz) mod PGSIZE) by (apply PGROUNDUP_eq; lia).
  assert (Hhi : PGROUNDUP newsz = newsz + (- newsz) mod PGSIZE) by (apply PGROUNDUP_eq; lia).
  set (lo := PGROUNDUP oldsz) in *. set (top := PGROUNDUP newsz) in *.
  assert (Htop : newsz <= top < newsz + PGSIZE /\ top <= KERNBASE /\ top mod PGSIZE = 0) by mlia.
  assert (Hlo' : oldsz <= lo <= top /\ lo mod PGSIZE = 0) by mlia.
  assert (Hready : kmem_ready s) by apply Hu.
  clear E1 E2.
  apply (wp_loop
    (fun a e' s1 => e' = e /\ lo <= a <= top /\ a mod PGSIZE = 0 /\
       ((exists l1, alloced pd lo a s l s1 l1 /\
           Z.of_nat (length l) <= Z.of_nat (length l1) + 2 * ((a - lo) / PGSIZE)) \/
        (lo < a /\ alloced pd lo (a - PGSIZE) s l s1 [] /\
           Z.of_nat (length l) < 2 * ((a - lo) / PGSIZE))))
    (fun a => Z.to_nat ((top - a) / PGSIZE))).
  { mlia. }
  { split_and!; try done; [lia|lia|]. left. exists l. split; [by apply alloced_refl|mlia]. }
  intros a e' s1 (-> & Ha & Hal & Hst). destruct (a <? newsz) eqn:Ea; simpl.
  2: { apply wp_ret. split; [done|]. assert (a = top) as -> by mlia.
       destruct Hst as [(l1 & Hst & Hl)|(_ & Hst & Hl)]; eauto. }
  assert (Hat : a + PGSIZE <= top) by mlia.
  destruct Hst as [([|v l1] & Hst & Hl)|(Hlt & Hst & Hl)].
  - pose proof (al_inv _ _ _ _ _ _ _ Hst) as Hu1.
    apply wp_bind. eapply wp_kalloc; [apply Hu1|apply Hu1|]. 
    eapply wp_mono; [eapply (wp_alloc_fail pd oldsz newsz a); try done; lia|].
    intros r e' s2 (-> & -> & Hrb). split; [done|]. right. right.
    split_and!; [done|simpl in Hl; mlia|done].
  - apply wp_bind. pose proof (al_inv _ _ _ _ _ _ _ Hst) as Hu1.
    eapply wp_kalloc; [apply Hu1|apply Hu1|]. intros Hv _ _.
    pose proof (page_ok_range v Hv). destruct (v =? 0) eqn:Ev; [lia|].
    pose proof (wp_alloc_page pd lo a e s l s1 v l1 Hst Hready ltac:(lia) ltac:(lia) Hal ltac:(lia)
      (Hun a ltac:(lia))) as Hw.
    apply wp_bind_inv in Hw. apply wp_bind. eapply wp_mono; [exact Hw|]. clear Hw.
    intros [] e' s2 Hw. apply wp_bind. eapply wp_mono; [exact Hw|]. clear Hw.
    intros r e'' s3 (-> & Hres). apply wp_ret. rewrite u32_small by lia.
    split; [|mlia]. split_and!; [done|lia|lia|mlia|]. simpl in Hl.
    destruct Hres as [(_ & l2 & Hst2 & Hl2)|(_ & -> & Hst2 & _)].
    + left. exists l2. split; [done|]. mlia.
    + right. split_and!; [lia| |simpl in Hl; mlia].
      by replace (a + PGSIZE - PGSIZE) with a by lia.
  - pose proof (al_inv _ _ _ _ _ _ _ Hst) as Hu1.
    apply wp_bind. eapply wp_kalloc; [apply Hu1|apply Hu1|].
    eapply wp_mono; [eapply (wp_alloc_fail pd oldsz newsz (a - PGSIZE)); try done; mlia|].
    intros r e' s2 (-> & -> & Hrb). split; [done|]. right. right.
    split_and!; [done|mlia|done].
Qed.

(** * Properties *)

(** C30: growing an address space with at least two free pages per page to add,
    [allocuvm] returns the new size: every new user page is mapped to a page of its
    own, taken from the free list, filled with zeros and writable by the user, and
    every older mapping is unchanged.  With fewer free pages it may return 0, with
    the user mappings as they were before the call. *)
Theorem allocuvm_spec pd oldsz newsz e s l :
  uvm_inv s pd l -> cons_ready s -> 0 <= oldsz <= newsz -> newsz < KERNBASE ->
  (forall va, PGROUNDUP oldsz <= va < PGROUNDUP newsz -> present (pte_of (k_mem s) pd va) = false) ->
  wp (allocuvm pd oldsz newsz) (fun r e' s' => e' = e /\
    let enough := 2 * ((PGROUNDUP newsz - PGROUNDUP oldsz) / PGSIZE) <= Z.of_nat (length l) in
    (enough -> r = newsz /\ exists l', alloced pd (PGROUNDUP oldsz) (PGROUNDUP newsz) s l s' l') /\
    (r = 0 -> newsz <> 0 -> rolled_back pd s l s')) e s.
Proof.
  intros Hu Hc Hsz Hk Hun. eapply wp_mono; [by apply wp_allocuvm|].
  intros r e' s' (-> & [(-> & l' & Ha & _)|[(-> & Hs & _)|(-> & Hs & Hr)]]);
    (split; [done|split]); intros.
  - eauto.
  - done.
  - exfalso. lia.
  - done.
  - exfalso. lia.
  - done.
Qed.

(** Without a free page there is no new page table. *)
Lemma mappages_oom pd va size pa perm e s :
  kmem_ready s -> free_rep s [] -> present (pde_of (k_mem s) pd (PDX (PGROUNDDOWN va))) = false ->
  mappages pd va size pa perm e s = Done (-1) e s.
Proof.
  intros Hr Hf Hp. unfold mappages. set (n := u32 _ / PGSIZE).
  assert (0 <= n) by (apply Z.div_pos; [apply u32_range|lia]).
  replace (Z.to_nat (n + 1)) with (S (Z.to_nat n)) by lia. simpl.
  assert (walkpgdir pd (PGROUNDDOWN va) 1 e s = Done 0 e s) as Hw.
  { unfold walkpgdir, kread32. erewrite bind_Done by done.
    fold (pde_of (k_mem s) pd (PDX (PGROUNDDOWN va))). unfold present in Hp. rewrite Hp. simpl.
    erewrite bind_Done; [|by rewrite kalloc_eq, (proj2 (free_rep_head s [] Hf))]. done. }
  erewrite bind_Done; [|erewrite bind_Done by exact Hw; reflexivity]. done.
Qed.

(** C38: [allocuvm] does not look at the result of [mappages]: when the last free
    page goes to the user page and none is left for its page table, it reports
    success although nothing is mapped, and the page is lost. *)
Theorem allocuvm_unmapped_success pd e s v :
  uvm_inv s pd [v] -> present (pde_of (k_mem s) pd 0) = false ->
  wp (allocuvm pd 0 PGSIZE) (fun r e' s' => e' = e /\
    r = PGSIZE /\ present (pte_of (k_mem s') pd 0) = false /\ free_rep s' []) e s.
Proof.
  intros Hu Hp. pose proof (uv_vm _ _ _ Hu) as Hi.
  destruct (alloced_take pd 0 0 s [v] s v [] (alloced_refl pd 0 s [v] Hu) ltac:(lia) ltac:(lia))
    as (Ha & Hpte & Hpg).
  pose proof (uv_vm _ _ _ (al_inv _ _ _ _ _ _ _ Ha)) as Hi'.
  assert (Hv : page_ok v) by (eapply free_page_ok; [apply Hi|by left]).
  pose proof (page_ok_range v Hv).
  assert (Hp' : present (pde_of (k_mem (new_dir v s)) pd 0) = false).
  { rewrite (pde_of_ext (k_mem s)); [done|apply Hi|lia|]. intros a Ha'. apply new_dir_mem.
    assert (Hne : v <> pd) by (intros ->; apply (vi_sep _ _ _ Hi pd); [by left|by left]).
    pose proof (page_disjoint v pd Hv (pw_pd _ _ (vi_wf _ _ _ Hi)) Hne). lia. }
  unfold allocuvm. change (Z.to_nat (PGSIZE / PGSIZE + 2)) with 3%nat.
  change (PGROUNDUP 0) with 0. simpl. apply wp_bind, wp_bind.
  eapply wp_kalloc; [apply Hi|apply Hi|]. intros _ _ _. destruct (v =? 0) eqn:E; [lia|].
  apply wp_bind, wp_modify. change (on_mem _ (popped s)) with (new_dir v s).
  apply wp_bind. unfold wp at 1. rewrite mappages_oom; [|apply Hi'|apply Hi'|exact Hp'].
  wp_steps. split; [done|]. split; [done|]. split; [|apply Hi'].
  change (present (pte_of (k_mem (new_dir v s)) pd 0) = false). unfold pte_of. change (PDX 0) with 0. by rewrite Hp'.
Qed.

End alloc.

(** * The properties at concrete states *)

#[local] Existing Instance built_symbols.

Lemma wstate_cons n : (n <= 4096)%nat -> cons_ready (wstate n).
Proof.
  intros Hn. destruct (wstate_ok n Hn) as (_ & Ho & _). eapply alloc_only_cons_ready; [done|].
  by vm_compute.
Qed.

Lemma wdir_unmapped n va : (n <= 4096)%nat -> user va -> pte_of (k_mem (wstate n)) wdir va = 0.
Proof.
  intros Hn Hu. unfold pte_of.
  by rewrite wdir_pde by (done || apply PDX_range, user_range, Hu).
Qed.

Lemma allocuvm_spec_witness :
  exists s', allocuvm wdir 0 0x1800 [] (wstate 4) = Done 0x1800 [] s' /\
    present (pte_of (k_mem s') wdir 0x1234) = true.
Proof.
  assert (Hun : forall va, PGROUNDUP 0 <= va < PGROUNDUP 0x1800 ->
    present (pte_of (k_mem (wstate 4)) wdir va) = false).
  { change (PGROUNDUP 0x1800) with 0x2000. change (PGROUNDUP 0) with 0. intros va Hva.
    rewrite (wdir_unmapped 4); [done|lia|unfold user; lia]. }
  pose proof (allocuvm_spec wdir 0 0x1800 [] (wstate 4) (wpages 4) (wdir_inv 4 ltac:(lia))
    (wstate_cons 4 ltac:(lia)) ltac:(lia) ltac:(lia) Hun) as Hw.
  destruct (wp_elim _ _ _ _ Hw) as (r & e' & s' & Heq & -> & Hok & _).
  clear Hw. destruct Hok as (-> & l' & Ha); [rewrite length_wpages; vm_compute; discriminate|].
  exists s'. split; [exact Heq|]. clear Heq.
  apply (alloced_present _ _ _ _ _ _ _ _ Ha); [unfold user; lia|].
  change (PGROUNDUP 0x1800) with 0x2000. change (PGROUNDUP 0) with 0. lia.
Defined.

Lemma allocuvm_unmapped_success_witness :
  exists s', allocuvm wdir 0 PGSIZE [] (wstate 1) = Done PGSIZE [] s' /\
    present (pte_of (k_mem s') wdir 0) = false.
Proof.
  pose proof (allocuvm_unmapped_success wdir [] (wstate 1) 0x80400000 (wdir_inv 1 ltac:(lia))) as Hw.
  rewrite wdir_pde in Hw by lia.
  destruct (wp_elim _ _ _ _ (Hw eq_refl)) as (r & e' & s' & Heq & -> & -> & Hp & _).
  exists s'. split; [exact Heq|exact Hp].
Defined.
