(* ===== verification/VmCopy.v ===== *)
(** Copying an address space for [fork] ([copyuvm]), and writing to one from the
    kernel ([copyout]). *)

From S2P Require Import Prelude Params Mem State Spinlock Console Kalloc Vm VmTables VmSpace VmAlloc.

Section copy.
Context `{Symbols} {Hsym : SymbolsOk}.

(** An address space does not notice what happens to the pages of the free list. *)
Lemma uvm_inv_other s s' pd l l' :
  uvm_inv s pd l -> free_rep s' l' -> kmem_ready s' -> (forall p, p ∈ l' -> p ∈ l) ->
  (forall a, outside a (fun p => p ∈ l) -> ld8 (k_mem s') a = ld8 (k_mem s) a) ->
  uvm_inv s' pd l' /\
  (forall va, 0 <= va < 4294967296 -> pte_of (k_mem s') pd va = pte_of (k_mem s) pd va) /\
  (forall va off, user va -> present (pte_of (k_mem s) pd va) = true -> 0 <= off < PGSIZE ->
     ld8 (k_mem s') (v2p (frame (k_mem s) pd va) + off) =
     ld8 (k_mem s) (v2p (frame (k_mem s) pd va) + off)).
Proof.
  intros [Hi Hfr Hinj] Hf' Hr' Hsub Hm.
  assert (Hout : forall p, page_ok p -> p ∉ l -> forall a, v2p p <= a < v2p p + PGSIZE ->
    ld8 (k_mem s') a = ld8 (k_mem s) a).
  { intros p Hp Hn a Ha. apply Hm. intros q Hq.
    assert (Hqok : page_ok q) by (by eapply free_page_ok; [apply Hi|]).
    assert (Hne : p <> q) by congruence.
    pose proof (page_disjoint p q Hp Hqok Hne). lia. }
  destruct (vm_inv_frame s s' pd l l' Hi Hf' Hr') as (Hi' & Hpte & Hpde).
  { intros p Hp. apply (vi_sep _ _ _ Hi). auto. }
  { intros p Hp. apply Hout; [by eapply vm_page_ok|].
    intros Hin. by apply (vi_sep _ _ _ Hi p). }
  split_and!; [split; [done|..]|done|].
  - intros va Hu. unfold frame. rewrite Hpte by (by apply user_range). intros Hp.
    destruct (Hfr va Hu Hp) as (? & Hn & Hnp). split_and!; [done|auto|].
    by rewrite pt_page_same.
  - intros va va' Hu Hu'. unfold frame. rewrite !Hpte by (by apply user_range). by apply Hinj.
  - intros va off Hu Hp Hoff. destruct (Hfr va Hu Hp) as (Hok & Hn & _).
    apply (Hout _ Hok Hn). lia.
Qed.

(** [s1] is [s] with the first [i] bytes of the address space [pd] copied to [d]. *)
Record copied (d pd i : Z) (s : kernel) (l : list Z) (s1 : kernel) (l1 : list Z) : Prop := {
  cp_inv : uvm_inv s1 d l1;
  cp_only : alloc_only s s1;
  cp_suffix : l1 `suffix_of` l;
  cp_pte : forall va, 0 <= va < 4294967296 ->
    if va <? i
    then pte_of (k_mem s1) d va = v2p (frame (k_mem s1) d va) + PTE_FLAGS (pte_of (k_mem s) pd va) /\
         frame (k_mem s1) d va ∈ l
    else pte_of (k_mem s1) d va = kmap_pte kmap va;
  cp_data : forall va off, 0 <= va < i -> 0 <= off < PGSIZE ->
    ld8 (k_mem s1) (v2p (frame (k_mem s1) d va) + off) =
    ld8 (k_mem s) (v2p (frame (k_mem s) pd va) + off);
  cp_pages : forall p, pt_page (k_mem s1) d p -> p ∈ l;
  cp_mem : forall a, outside a (fun p => p ∈ l) -> ld8 (k_mem s1) a = ld8 (k_mem s) a
}.

Lemma kmap_pte_user va : user va -> kmap_pte kmap va = 0.
Proof.
  intros Hu. unfold user in Hu. destruct Hsym. unfold kmap. simpl.
  by zif.
Qed.

Lemma copied_start d pd s l s1 l1 :
  free_rep s1 l1 -> alloc_only s s1 -> l1 `suffix_of` l ->
  (forall a, outside a (fun p => p ∈ l) -> ld8 (k_mem s1) a = ld8 (k_mem s) a) ->
  vm_inv s1 d l1 -> (forall p, pt_page (k_mem s1) d p -> p ∈ l) -> kmapped d kmap (k_mem s1) ->
  copied d pd 0 s l s1 l1.
Proof.
  intros Hf Ho Hs Hm Hi Hp Hk.
  assert (Hno : forall va, user va -> present (pte_of (k_mem s1) d va) = true -> False).
  { intros va Hu. rewrite (Hk va) by (by apply user_range). by rewrite kmap_pte_user. }
  split; try done.
  - split; [done|intros va Hu Hpr; by destruct (Hno va)|intros va ? Hu ? Hpr; by destruct (Hno va)].
  - intros va Hva. rewrite <- (Hk va) by done. by zif.
  - intros. lia.
Qed.

(** The page of [pd] at [va] in [s] is present and its flags are [flags]. *)
Lemma copied_present d pd i s l s1 l1 va :
  copied d pd i s l s1 l1 -> user va -> va < i -> uvm_inv s pd l ->
  present (pte_of (k_mem s) pd va) = true -> present (pte_of (k_mem s1) d va) = true.
Proof.
  intros Hc Hu Hi Hpar Hp. pose proof (cp_pte _ _ _ _ _ _ _ Hc va (user_range va Hu)) as Hpte.
  destruct (va <? i) eqn:E; [|lia]. destruct Hpte as [-> Hin].
  assert (Hok : page_ok (frame (k_mem s1) d va)) by (by eapply free_page_ok; [apply Hpar|]).
  destruct (page_ok_frame _ Hok) as [_ Ha]. rewrite present_eq, PTE_FLAGS_eq in *. mlia.
Qed.

(** Taking a page off the list and filling it. *)
Lemma copied_take d pd i s l s1 v l1 f :
  copied d pd i s l s1 (v :: l1) -> uvm_inv s pd l -> i <= KERNBASE ->
  (forall va, 0 <= va < i -> present (pte_of (k_mem s) pd va) = true) ->
  (forall m a, a < v2p v \/ v2p v + PGSIZE <= a -> ld8 (f m) a = ld8 m a) ->
  let s2 := on_mem f (popped s1) in
  copied d pd i s l s2 l1 /\
  (forall va, 0 <= va < 4294967296 -> pte_of (k_mem s2) d va = pte_of (k_mem s1) d va) /\
  (forall p, pt_page (k_mem s2) d p <-> pt_page (k_mem s1) d p).
Proof.
  intros Hc Hpar Hk Hpr Hf s2. pose proof Hc as [Hu Ho Hsu Hp Hd Hn Hm].
  assert (Hv : page_ok v) by (eapply free_page_ok; [apply Hu|by left]).
  destruct (uvm_inv_take s1 d v l1 f Hu Hf) as (Hu' & Hpte & Hpg). fold s2 in Hu', Hpte, Hpg.
  assert (Hfr : forall va, 0 <= va < 4294967296 -> frame (k_mem s2) d va = frame (k_mem s1) d va).
  { intros va Hva. unfold frame. by rewrite Hpte. }
  split; [split|done]; [done| | | | | |].
  - eapply alloc_only_trans; [done|]. do 3 eexists; split; done.
  - etrans; [|done]. by exists [v].
  - intros va Hva. rewrite Hpte, Hfr by done. by apply Hp.
  - intros va off Hva Hoff. rewrite Hfr by lia. rewrite <- Hd by done. apply Hf.
    assert (Huv : user va) by (unfold user; lia).
    destruct (uv_frame _ _ _ Hu va Huv) as (Hok & Hnl & _).
    { eapply copied_present; try done; [lia|]. by apply Hpr. }
    assert (Hne : frame (k_mem s1) d va <> v) by (intros E; apply Hnl; rewrite E; by left).
    pose proof (page_disjoint _ _ Hok Hv Hne). lia.
  - intros p. rewrite Hpg. apply Hn.
  - intros a Ha'. rewrite <- Hm by done. apply Hf. apply Ha'.
    eapply elem_of_suffix; [done|by left].
Qed.

(** Mapping the page taken, or failing to. *)
Lemma copied_map (b : bool) d pd i s l s1 l1 s2 l2 v :
  copied d pd i s l s1 l1 -> uvm_inv s pd l -> vm_inv s2 d l2 -> vm_ext d s1 l1 s2 l2 ->
  0 <= i -> i mod PGSIZE = 0 -> i + PGSIZE <= KERNBASE ->
  (forall va, 0 <= va < i + PGSIZE -> present (pte_of (k_mem s) pd va) = true) ->
  v ∈ l -> v ∉ l1 -> ~ pt_page (k_mem s1) d v ->
  (forall va, user va -> present (pte_of (k_mem s1) d va) = true -> frame (k_mem s1) d va <> v) ->
  (forall off, 0 <= off < PGSIZE ->
     ld8 (k_mem s1) (v2p v + off) = ld8 (k_mem s) (v2p (frame (k_mem s) pd i) + off)) ->
  (forall va, 0 <= va < 4294967296 -> pte_of (k_mem s2) d va =
     if b && (va / PGSIZE =? i / PGSIZE) then v2p v + PTE_FLAGS (pte_of (k_mem s) pd i)
     else pte_of (k_mem s1) d va) ->
  copied d pd (if b then i + PGSIZE else i) s l s2 l2.
Proof.
  intros Hc Hpar Hi2 He Hi Hal Hk Hpr Hvl Hvl1 Hvp Hvf Hvd Hpte.
  pose proof Hc as [Hu Ho Hsu Hp Hd Hn Hm].
  assert (Hv : page_ok v) by (by eapply free_page_ok; [apply Hpar|]).
  set (fl := PTE_FLAGS (pte_of (k_mem s) pd i)) in *.
  assert (Hfl : 0 <= fl < PGSIZE) by (subst fl; rewrite PTE_FLAGS_eq; mlia).
  assert (Hu2 : uvm_inv s2 d l2) by (by eapply (uvm_inv_map b _ _ _ _ _ i v fl)).
  destruct (page_ok_frame v Hv) as [Hvr Hva].
  assert (Hfv : p2v (PTE_ADDR (v2p v + fl)) = v).
  { rewrite PTE_ADDR_eq. replace (v2p v + fl - (v2p v + fl) mod PGSIZE) with (v2p v) by mlia.
    apply p2v_v2p. pose proof (page_ok_range v Hv). lia. }
  assert (Hkeep := fun p Hok Hl Hp => vm_ext_keep d s1 l1 s2 l2 p (uv_vm _ _ _ Hu) He Hok Hl Hp).
  assert (Hsamep : forall va, 0 <= va < 4294967296 -> va / PGSIZE = i / PGSIZE ->
    pte_of (k_mem s) pd va = pte_of (k_mem s) pd i).
  { intros va Hvr' E. apply pte_of_page; [done|lia|done]. }
  split; [done|by eapply alloc_only_trans; [|apply He]|etrans; [apply He|done]| | | |].
  - intros va Hvr'. unfold frame. rewrite Hpte by done. specialize (Hp va Hvr').
    destruct (b && (va / PGSIZE =? i / PGSIZE)) eqn:E.
    + destruct (va <? (if b then i + PGSIZE else i)) eqn:E';
        [|exfalso; destruct b; cbv iota in E'; mlia].
      rewrite Hfv, (Hsamep va Hvr') by lia. done.
    + destruct (va <? i) eqn:E1, (va <? (if b then i + PGSIZE else i)) eqn:E2; try done;
        exfalso; destruct b; cbv iota in E2; mlia.
  - intros va off Hr Hoff.
    assert (Hvr' : 0 <= va < 4294967296) by (destruct b; lia).
    unfold frame at 1. rewrite Hpte by done.
    destruct (b && (va / PGSIZE =? i / PGSIZE)) eqn:E.
    + rewrite Hfv, Hkeep by done. rewrite Hvd by done. unfold frame.
      rewrite (Hsamep va Hvr') by lia. done.
    + assert (Hr' : 0 <= va < i) by (destruct b; mlia).
      assert (Huv : user va) by (unfold user; lia).
      destruct (uv_frame _ _ _ Hu va Huv) as (Hok & Hnl & Hnp).
      { eapply copied_present; try done; [lia|]. apply Hpr. lia. }
      fold (frame (k_mem s1) d va). rewrite Hkeep by done. by apply Hd.
  - intros p [Hpp|Hpp]%(ve_new _ _ _ _ _ He); [by apply Hn|]. by eapply elem_of_suffix.
  - intros a Ha'. rewrite (ve_mem _ _ _ _ _ He); [by apply Hm|].
    intros q [Hq|Hq]; apply Ha'; [by apply Hn|]. by eapply elem_of_suffix.
Qed.

(** The copy does not disturb the parent. *)
Lemma copied_parent d pd i s l s1 l1 :
  copied d pd i s l s1 l1 -> uvm_inv s pd l ->
  uvm_inv s1 pd l1 /\
  (forall va, 0 <= va < 4294967296 -> pte_of (k_mem s1) pd va = pte_of (k_mem s) pd va) /\
  (forall va off, user va -> present (pte_of (k_mem s) pd va) = true -> 0 <= off < PGSIZE ->
     ld8 (k_mem s1) (v2p (frame (k_mem s) pd va) + off) =
     ld8 (k_mem s) (v2p (frame (k_mem s) pd va) + off)).
Proof.
  intros Hc Hpar. pose proof (cp_inv _ _ _ _ _ _ _ Hc) as Hu.
  apply (uvm_inv_other s s1 pd l l1 Hpar); [apply Hu|apply Hu| |apply Hc].
  intros p Hp. eapply elem_of_suffix, Hp. apply Hc.
Qed.

Lemma lor_odd x : x mod 2 = 1 -> Z.lor x PTE_P = x.
Proof.
  intros Hx. apply Z.bits_inj'. intros n Hn. rewrite Z.lor_spec.
  destruct (decide (n = 0)) as [->|].
  - rewrite Zmod_odd in Hx. rewrite Z.bit0_odd. by destruct (Z.odd x).
  - change PTE_P with (Z.ones 1). rewrite Z.ones_spec_high by lia. apply orb_false_r.
Qed.

(** The part of a round that has the page [v]. *)
Lemma wp_copy_page d pd i e s l s1 v l1 :
  copied d pd i s l s1 (v :: l1) -> uvm_inv s pd l ->
  0 <= i -> i mod PGSIZE = 0 -> i + PGSIZE <= KERNBASE ->
  (forall va, 0 <= va < i + PGSIZE -> present (pte_of (k_mem s) pd va) = true) ->
  wp (kmemmove v (frame (k_mem s) pd i) PGSIZE;;
      mappages d i PGSIZE (v2p v) (PTE_FLAGS (pte_of (k_mem s) pd i)))
    (fun r e' s2 => e' = e /\
       ((r = 0 /\ exists l2, copied d pd (i + PGSIZE) s l s2 l2 /\ (length l1 <= S (length l2))%nat) \/
        r = -1 /\ l1 = [] /\ copied d pd i s l s2 [])) e (popped s1).
Proof.
  intros Hc Hpar Hi Hal Hk Hpr. pose proof (cp_inv _ _ _ _ _ _ _ Hc) as Hu.
  assert (Hv : page_ok v) by (eapply free_page_ok; [apply Hu|by left]).
  destruct (page_ok_frame v Hv) as [Hvr Hva].
  set (f := fun m => memmove m (v2p v) (v2p (frame (k_mem s) pd i)) PGSIZE).
  assert (Hf1 : forall m a, a < v2p v \/ v2p v + PGSIZE <= a -> ld8 (f m) a = ld8 m a).
  { intros m a Ha. unfold f. rewrite ld8_memmove by lia. by zif. }
  assert (Hf2 : forall m off, 0 <= off < PGSIZE ->
    ld8 (f m) (v2p v + off) = ld8 m (v2p (frame (k_mem s) pd i) + off)).
  { intros m off Hoff. unfold f. rewrite ld8_memmove by lia.
    destruct (_ && _) eqn:E; [|lia]. f_equal. lia. }
  apply wp_bind, wp_modify. fold f. clearbody f.
  destruct (copied_take d pd i s l s1 v l1 f) as (Hc1 & Hpte1 & Hpg1); [done|done|lia| |done|].
  { intros va Hva'. apply Hpr. lia. }
  set (s2 := on_mem f (popped s1)) in *.
  assert (Hui : user i) by (unfold user; lia).
  assert (Hgd : PGROUNDDOWN i = i) by (rewrite PGROUNDDOWN_eq by lia; lia).
  assert (Hsp : span i PGSIZE = 1) by (unfold span; mlia).
  set (fl := PTE_FLAGS (pte_of (k_mem s) pd i)).
  assert (Hfl : 0 <= fl < PGSIZE /\ fl mod 2 = 1).
  { subst fl. specialize (Hpr i ltac:(lia)). rewrite present_eq in Hpr. rewrite PTE_FLAGS_eq. mlia. }
  assert (Hun : present (pte_of (k_mem s2) d i) = false).
  { rewrite Hpte1 by lia. pose proof (cp_pte _ _ _ _ _ _ _ Hc i ltac:(lia)) as Hp.
    destruct (i <? i) eqn:E; [lia|]. by rewrite Hp, kmap_pte_user. }
  eapply wp_mono; [eapply (wp_mappages _ _ _ _ _ _ _ l1)|]; rewrite ?Hgd, ?Hsp; try lia.
  { apply (cp_inv _ _ _ _ _ _ _ Hc1). }
  { intros va Hr'. by rewrite (pte_of_page _ _ va i) by (lia || mlia). }
  intros r e' s3 (-> & k & l3 & Hi3 & He3 & Hm & _ & Hl & _ & Hres). split; [done|].
  rewrite Hgd, ?Hsp in *. pose proof (uv_vm _ _ _ Hu) as Hvm.
  assert (Hstep : forall b : bool, k = (if b then 1 else 0) ->
    copied d pd (if b then i + PGSIZE else i) s l s3 l3).
  { intros b Hb. eapply (copied_map b d pd i s l s2 l1 s3 l3 v); try done.
    - eapply elem_of_suffix; [apply Hc|by left].
    - by pose proof (fr_nodup _ _ (vi_free _ _ _ Hvm)) as [? _]%NoDup_cons.
    - rewrite Hpg1. apply (vi_sep _ _ _ Hvm). by left.
    - intros va Huv. unfold frame. rewrite Hpte1 by (by apply user_range). intros Hp.
      by apply (uvm_fresh s1 d v l1).
    - intros off Hoff. change (k_mem s2) with (f (k_mem s1)). rewrite Hf2 by done.
      apply (copied_parent d pd i s l s1 (v :: l1) Hc Hpar); [done|apply Hpr; lia|done].
    - intros va Hvr'. rewrite Hm by done. fold fl.
      assert (Z.lor (Z.lor (v2p v) fl) PTE_P = v2p v + fl) as Hval.
      { rewrite <- Z.lor_assoc, (lor_odd fl) by (by destruct Hfl). destruct Hfl; by apply pte_make. }
      destruct (b && (va / PGSIZE =? i / PGSIZE)) eqn:E.
      + destruct ((i <=? va) && (va <? i + k * PGSIZE)) eqn:E'.
        * replace (va / PGSIZE * PGSIZE - i) with 0 by mlia. by rewrite Z.add_0_r.
        * exfalso. destruct b; mlia.
      + destruct ((i <=? va) && (va <? i + k * PGSIZE)) eqn:E'; [|done].
        exfalso. destruct b; mlia. }
  destruct Hres as [[-> ->]|(-> & Hk' & ->)].
  - left. split; [done|]. exists l3. split; [by apply (Hstep true)|]. lia.
  - assert (k = 0) as -> by lia. right. split_and!; [done| |by apply (Hstep false)].
    destruct l1; [done|simpl in Hl; lia].
Qed.

(** [copyuvm]: a copy made of free pages, or 0 when there were too few of them; in
    both cases the parent's address space is as it was. *)
Definition copyuvm_post (pd sz : Z) (s : kernel) (l : list Z) (r : Z) (s' : kernel) : Prop :=
  exists l', uvm_inv s' pd l' /\ alloc_only s s' /\ (forall p, p ∈ l' -> p ∈ l) /\
    (forall a, outside a (fun p => p ∈ l) -> ld8 (k_mem s') a = ld8 (k_mem s) a) /\
    (r <> 0 /\ copied r pd (PGROUNDUP sz) s l s' l' \/
     r = 0 /\ Z.of_nat (length l) <= 65 + 2 * (PGROUNDUP sz / PGSIZE)).

Lemma wp_copy_abort {A} d pd i sz (r : A) e s l s1 l1 :
  copied d pd i s l s1 l1 -> uvm_inv s pd l -> i <= KERNBASE ->
  (forall va, 0 <= va < i -> present (pte_of (k_mem s) pd va) = true) ->
  Z.of_nat (length l) <= 65 + 2 * (PGROUNDUP sz / PGSIZE) ->
  wp (freevm d;; mret 0) (fun r e' s' => e' = e /\ copyuvm_post pd sz s l r s') e s1.
Proof.
  intros Hc Hpar Hi Hpr Hl. pose proof Hc as [Hu Ho Hsu Hp Hd Hn Hm].
  apply wp_bind. eapply wp_mono; [by apply wp_freevm|].
  intros _ e' s2 (-> & fs & [Hf2 Ho2 Hm2] & Hfs). apply wp_ret. split; [done|].
  assert (Hsub : forall p, p ∈ fs -> p ∈ l).
  { intros p [Hpp|(va & Huv & Hpv & ->)]%Hfs; [by apply Hn|].
    specialize (Hp va (user_range va Huv)). destruct (va <? i); [by destruct Hp|].
    by rewrite Hp, kmap_pte_user in Hpv. }
  assert (Hsub' : forall p, p ∈ fs ++ l1 -> p ∈ l).
  { intros p [Hin|Hin]%elem_of_app; [auto|]. by eapply elem_of_suffix. }
  assert (Hmem : forall a, outside a (fun p => p ∈ l) -> ld8 (k_mem s2) a = ld8 (k_mem s) a).
  { intros a Ha. rewrite Hm2; [by apply Hm|]. intros q Hq. by apply Ha, Hsub. }
  pose proof (alloc_only_trans _ _ _ Ho Ho2) as Ho3.
  exists (fs ++ l1). split_and!; try done; [|by right].
  apply (uvm_inv_other s s2 pd l (fs ++ l1) Hpar); try done.
  eapply alloc_only_ready; [done|apply Hpar].
Qed.

Lemma wp_copyuvm pd sz e s l :
  uvm_inv s pd l -> 0 <= sz < KERNBASE ->
  (forall va, 0 <= va < PGROUNDUP sz -> present (pte_of (k_mem s) pd va) = true) ->
  wp (copyuvm pd sz) (fun r e' s' => e' = e /\ copyuvm_post pd sz s l r s') e s.
Proof.
  intros Hpar Hsz Hpr. unfold copyuvm. apply wp_bind.
  assert (Htop : PGROUNDUP sz = sz + (- sz) mod PGSIZE) by (apply PGROUNDUP_eq; lia).
  assert (Htop' : sz <= PGROUNDUP sz < sz + PGSIZE /\ PGROUNDUP sz <= KERNBASE /\
    PGROUNDUP sz mod PGSIZE = 0) by mlia. clear Htop.
  eapply wp_mono; [apply (wp_setupkvm e s l); apply Hpar|].
  intros d e' s1 (-> & l1 & Ho1 & Hf1 & Hs1 & Hm1 & Hr1).
  destruct Hr1 as [(-> & -> & Hl)|(Hd & Hi1 & Hp1 & Hk1 & Hl1)].
  { simpl. apply wp_ret. split; [done|]. exists []. split_and!; try done.
    - apply (uvm_inv_other s s1 pd l [] Hpar); try done; [|set_solver].
      eapply alloc_only_ready; [done|apply Hpar].
    - set_solver.
    - right. split; [done|]. mlia. }
  rewrite (proj2 (Z.eqb_neq _ _) Hd). apply wp_bind.
  eapply (wp_mono _ (fun (r : bool) e' s' => e' = e /\
    exists i l', (if r then i = PGROUNDUP sz
                  else Z.of_nat (length l) <= 65 + 2 * (PGROUNDUP sz / PGSIZE)) /\
      i <= PGROUNDUP sz /\ copied d pd i s l s' l')).
  2: { intros [|] e' s' (-> & i & l' & Hr & Hi & Hc).
       - subst i. apply wp_ret. split; [done|]. exists l'.
         destruct (copied_parent _ _ _ _ _ _ _ Hc Hpar) as (Hpar' & _).
         split_and!; [done|apply Hc| |apply Hc|by left].
         intros p Hp. eapply elem_of_suffix, Hp. apply Hc.
       - eapply (wp_copy_abort d pd i); try done; [lia|]. intros va Hva. apply Hpr. lia. }
  apply (wp_loop (fun i e' s' => e' = e /\ 0 <= i <= PGROUNDUP sz /\ i mod PGSIZE = 0 /\
      exists l', copied d pd i s l s' l' /\
        Z.of_nat (length l) <= Z.of_nat (length l') + 65 + 2 * (i / PGSIZE))
    (fun i => Z.to_nat ((PGROUNDUP sz - i) / PGSIZE))).
  { mlia. }
  { split_and!; try done; [lia|]. exists l1. split; [by apply copied_start|]. mlia. }
  intros i e' s' (-> & Hi & Hal & l' & Hc & Hl). destruct (i <? sz) eqn:Ei; simpl.
  2: { apply wp_ret. split; [done|]. exists i, l'. split_and!; [mlia|lia|done]. }
  assert (Hit : i + PGSIZE <= PGROUNDUP sz) by mlia.
  destruct (copied_parent _ _ _ _ _ _ _ Hc Hpar) as (Hpar' & Hpte & _).
  assert (Hir : 0 <= i < 4294967296) by lia.
  assert (Hp : present (pte_of (k_mem s') pd i) = true) by (rewrite Hpte by done; apply Hpr; lia).
  assert (Hpd : present (pde_of (k_mem s') pd (PDX i)) = true) by (by apply present_pde).
  apply wp_bind. unfold wp at 1. rewrite walkpgdir_look, Hpd.
  rewrite (proj2 (Z.eqb_neq _ _) (tab_nonzero _ _ _ (vi_wf _ _ _ (uv_vm _ _ _ Hpar')) Hir Hpd)).
  unfold kread32. do 2 wp_step. rewrite <- (pte_of_entry _ _ _ Hpd).
  fold (present (pte_of (k_mem s') pd i)). rewrite Hp. simpl. rewrite Hpte by done.
  apply wp_bind. pose proof (cp_inv _ _ _ _ _ _ _ Hc) as Hu'.
  eapply wp_kalloc; [apply Hu'|apply Hu'|]. destruct l' as [|v l'].
  { simpl. apply wp_ret. split; [done|]. exists i, []. split_and!; [|lia|done]. simpl in Hl. mlia. }
  intros Hv _ _. pose proof (page_ok_range v Hv). destruct (v =? 0) eqn:Ev; [lia|].
  assert (Hw := wp_copy_page d pd i e s l s' v l' Hc Hpar ltac:(lia) Hal ltac:(lia)
    ltac:(intros; apply Hpr; lia)).
  apply wp_bind_inv in Hw. apply wp_bind. eapply wp_mono; [exact Hw|]. clear Hw.
  intros [] e' s2 Hw. apply wp_bind. eapply wp_mono; [exact Hw|]. clear Hw.
  simpl in Hl. intros r e'' s3 (-> & [(-> & l3 & Hc3 & Hl3)|(-> & -> & Hc3)]); simpl; apply wp_ret.
  - rewrite u32_small by lia. split; [|mlia]. split_and!; [done|lia|lia|mlia|].
    exists l3. split; [done|]. mlia.
  - split; [done|]. exists i, []. split_and!; [|lia|done]. simpl in Hl. mlia.
Qed.

(** * copyout *)

Lemma ld8_write_bytes bs : forall m a x,
  ld8 (write_bytes m a bs) x =
    if (a <=? x) && (x <? a + Z.of_nat (length bs))
    then u8 (nth (Z.to_nat (x - a)) bs 0) else ld8 m x.
Proof.
  induction bs as [|b bs IH]; intros m a x; simpl; [by zif|].
  rewrite IH, ld8_st8. destruct (x =? a) eqn:E.
  - destruct ((a + 1 <=? x) && _) eqn:E1; [lia|].
    destruct ((a <=? x) && _) eqn:E2; [|lia]. by replace (x - a) with 0 by lia.
  - destruct ((a + 1 <=? x) && (x <? a + 1 + Z.of_nat (length bs))) eqn:E1,
      ((a <=? x) && (x <? a + Z.of_nat (S (length bs)))) eqn:E2; try done; [|lia..].
    replace (Z.to_nat (x - a)) with (S (Z.to_nat (x - (a + 1)))) by lia. done.
Qed.

(** The byte at a user address. *)
Definition ubyte (m : memory) (pd va : Z) : Z :=
  ld8 m (v2p (frame m pd va) + va mod PGSIZE).

Definition on_frame (pd va : Z) (bs : list Z) (s : kernel) : kernel :=
  on_mem (fun m => write_bytes m (v2p (frame m pd va) + va mod PGSIZE) bs) s.

(** Writing [bs] to the page of [va]. *)
Lemma on_frame_inv pd va bs s l :
  uvm_inv s pd l -> user va -> present (pte_of (k_mem s) pd va) = true ->
  va mod PGSIZE + Z.of_nat (length bs) <= PGSIZE ->
  let s' := on_frame pd va bs s in
  uvm_inv s' pd l /\
  (forall va', 0 <= va' < 4294967296 -> pte_of (k_mem s') pd va' = pte_of (k_mem s) pd va') /\
  (forall va', user va' -> present (pte_of (k_mem s) pd va') = true ->
     ubyte (k_mem s') pd va' =
       if (va <=? va') && (va' <? va + Z.of_nat (length bs))
       then u8 (nth (Z.to_nat (va' - va)) bs 0) else ubyte (k_mem s) pd va').
Proof.
  intros [Hi Hfr Hinj] Hu Hp Hlen s'. destruct (Hfr va Hu Hp) as (Hok & Hnl & Hnp).
  pose proof (Z.mod_pos_bound va PGSIZE ltac:(lia)) as Hmod.
  assert (Hout : forall p, page_ok p -> p <> frame (k_mem s) pd va ->
    forall a, v2p p <= a < v2p p + PGSIZE -> ld8 (k_mem s') a = ld8 (k_mem s) a).
  { intros p Hpok Hne a Ha. simpl. rewrite ld8_write_bytes.
    pose proof (page_disjoint _ _ Hpok Hok Hne). destruct (_ && _) eqn:E; [lia|done]. }
  destruct (vm_inv_frame s s' pd l l Hi) as (Hi' & Hpte & Hpde).
  - eapply (free_rep_write s); [apply Hi|done|done|]. intros p Hpl.
    apply Hout; [by eapply free_page_ok; [apply Hi|]|congruence].
  - apply Hi.
  - apply (vi_sep _ _ _ Hi).
  - intros p Hpp. apply Hout; [by eapply vm_page_ok|congruence].
  - assert (Hfe : forall va', user va' -> frame (k_mem s') pd va' = frame (k_mem s) pd va').
    { intros va' Hu'. unfold frame. by rewrite Hpte by (by apply user_range). }
    split_and!; [split; [done|..]|done|].
    + intros va' Hu'. rewrite Hfe, Hpte by (done || by apply user_range). intros Hp'.
      rewrite pt_page_same by done. by apply Hfr.
    + intros va1 va2 Hu1 Hu2. rewrite !Hfe, !Hpte by (done || by apply user_range). by apply Hinj.
    + intros va' Hu' Hp'. unfold ubyte. rewrite Hfe by done.
      destruct (Hfr va' Hu' Hp') as (Hok' & _).
      pose proof (Z.mod_pos_bound va' PGSIZE ltac:(lia)) as Hmod'.
      destruct (decide (va' / PGSIZE = va / PGSIZE)) as [E|E].
      * assert (frame (k_mem s) pd va' = frame (k_mem s) pd va) as ->.
        { unfold frame. by rewrite (pte_of_page _ _ va' va) by (done || by apply user_range). }
        simpl. rewrite ld8_write_bytes.
        destruct (_ && _) eqn:E1; destruct ((va <=? va') && _) eqn:E2; try done;
          [|exfalso; mlia..].
        replace (va' - va) with (va' mod PGSIZE - va mod PGSIZE) by mlia.
        do 2 f_equal. lia.
      * rewrite (Hout (frame (k_mem s) pd va')); [|done| |lia].
        -- destruct ((va <=? va') && _) eqn:E2; [exfalso; mlia|done].
        -- intros Heq. by apply E, Hinj.
Qed.

(** [va] is mapped for user access. *)
Definition user_page (m : memory) (pd va : Z) : Prop :=
  present (pte_of m pd va) = true /\ cbool (Z.land (pte_of m pd va) PTE_U) = true.

Lemma uva2ka_user pd va e s l :
  uvm_inv s pd l -> user va -> user_page (k_mem s) pd va ->
  uva2ka pd va e s = Done (frame (k_mem s) pd va) e s.
Proof.
  intros Hu Hva [Hp HU]. pose proof (present_pde _ _ _ Hp) as Hd.
  unfold uva2ka. erewrite bind_Done by apply walkpgdir_look. rewrite Hd.
  pose proof (tab_nonzero _ _ _ (vi_wf _ _ _ (uv_vm _ _ _ Hu)) (user_range va Hva) Hd) as Hnz.
  rewrite (proj2 (Z.eqb_neq _ _) Hnz). unfold kread32. erewrite bind_Done by done.
  rewrite <- (pte_of_entry _ _ _ Hd). unfold present in Hp. by rewrite Hp, HU.
Qed.

(** A page without PTE_P or PTE_U is refused. *)
Lemma uva2ka_refuse pd va e s l :
  uvm_inv s pd l -> user va -> present (pde_of (k_mem s) pd (PDX va)) = true ->
  ~ user_page (k_mem s) pd va -> uva2ka pd va e s = Done 0 e s.
Proof.
  intros Hu Hva Hd Hn.
  unfold uva2ka. erewrite bind_Done by apply walkpgdir_look. rewrite Hd.
  pose proof (tab_nonzero _ _ _ (vi_wf _ _ _ (uv_vm _ _ _ Hu)) (user_range va Hva) Hd) as Hnz.
  rewrite (proj2 (Z.eqb_neq _ _) Hnz). unfold kread32. erewrite bind_Done by done.
  rewrite <- (pte_of_entry _ _ _ Hd). unfold user_page, present in Hn.
  destruct (cbool (Z.land (pte_of (k_mem s) pd va) PTE_P)); [|done].
  destruct (cbool (Z.land (pte_of (k_mem s) pd va) PTE_U)); [|done]. tauto.
Qed.

(** The user bytes after the first [k] bytes of [p] were written at [va]. *)
Record written (pd va : Z) (p : list Z) (k : nat) (s : kernel) (l : list Z) (s' : kernel) : Prop := {
  wr_inv : uvm_inv s' pd l;
  wr_mem : exists m, s' = set_k_mem m s;
  wr_pte : forall va', 0 <= va' < 4294967296 -> pte_of (k_mem s') pd va' = pte_of (k_mem s) pd va';
  wr_byte : forall va', user va' -> present (pte_of (k_mem s) pd va') = true ->
    ubyte (k_mem s') pd va' =
      if (va <=? va') && (va' <? va + Z.of_nat k)
      then u8 (nth (Z.to_nat (va' - va)) p 0) else ubyte (k_mem s) pd va'
}.

Lemma written_step pd va p k n s l s' :
  written pd va p k s l s' -> 0 <= va -> (k + n <= length p)%nat ->
  user (va + Z.of_nat k) -> present (pte_of (k_mem s) pd (va + Z.of_nat k)) = true ->
  (va + Z.of_nat k) mod PGSIZE + Z.of_nat n <= PGSIZE ->
  written pd va p (k + n) s l (on_frame pd (va + Z.of_nat k) (take n (drop k p)) s').
Proof.
  intros [Hu (m & ->) Hpte Hb] Hva Hlen Huk Hpk Hpg. simpl in *.
  assert (Hl : length (take n (drop k p)) = n) by (rewrite length_take, length_drop; lia).
  assert (Hpk' : present (pte_of m pd (va + Z.of_nat k)) = true).
  { rewrite Hpte; [done|]. by apply user_range. }
  destruct (on_frame_inv pd (va + Z.of_nat k) (take n (drop k p)) (set_k_mem m s) l) as (Hu' & Hpte' & Hb');
    [done|done|done|by rewrite Hl|]. split.
  - done.
  - by eexists.
  - intros va' Hva'. by rewrite Hpte', Hpte.
  - intros va' Hu2 Hp2. rewrite Hb', Hl by (done || by rewrite Hpte by (by apply user_range)).
    rewrite Hb by done.
    destruct ((va + Z.of_nat k <=? va') && _) eqn:E1.
    + destruct ((va <=? va') && _) eqn:E2; [|lia].
      rewrite !nth_lookup. rewrite lookup_take_lt, lookup_drop by lia.
      do 3 f_equal. lia.
    + destruct ((va <=? va') && (va' <? va + Z.of_nat k)) eqn:E2,
        ((va <=? va') && (va' <? va + Z.of_nat (k + n))) eqn:E3; try done; lia.
Qed.

Lemma wp_copyout pd va p e s l :
  uvm_inv s pd l -> 0 <= va -> va + Z.of_nat (length p) <= KERNBASE ->
  (forall va', va <= va' < va + Z.of_nat (length p) -> user_page (k_mem s) pd va') ->
  wp (copyout pd va p) (fun r e' s' => e' = e /\ r = 0 /\ written pd va p (length p) s l s') e s.
Proof.
  intros Hu Hva Hhi Hup. unfold copyout.
  apply (wp_loop (fun '(a, buf) e' s' => e' = e /\ exists k, (k <= length p)%nat /\ buf = drop k p /\
      ((k < length p)%nat -> a = va + Z.of_nat k) /\ written pd va p k s l s')
    (fun '(a, buf) => length buf)).
  { lia. }
  { split; [done|]. exists 0%nat. split_and!; [lia|done|lia|].
    split; [done|by exists (k_mem s); destruct s|done|]. intros va' _ _. by zif. }
  intros [a buf] e' s' (-> & k & Hk & -> & Ha & Hw). destruct (drop k p) as [|b bs] eqn:Hd.
  { apply wp_ret. split; [done|]. split; [done|].
    assert (length p = k) as ->; [|done].
    apply (f_equal length) in Hd. rewrite length_drop in Hd. simpl in Hd. lia. }
  rewrite <- Hd. assert (Hlt : (k < length p)%nat).
  { apply (f_equal length) in Hd. rewrite length_drop in Hd. simpl in Hd. lia. }
  specialize (Ha Hlt). subst a. clear Hd b bs. set (a := va + Z.of_nat k).
  assert (Hua : user a) by (unfold user; lia).
  assert (Hrd : PGROUNDDOWN a = a - a mod PGSIZE) by (apply PGROUNDDOWN_eq; unfold user in Hua; lia).
  rewrite Hrd. pose proof (Z.mod_pos_bound a PGSIZE ltac:(lia)) as Hmod.
  assert (Hmle : a mod PGSIZE <= a) by (apply Z.mod_le; unfold user in Hua; lia).
  assert (Hu0 : user (a - a mod PGSIZE)) by (unfold user in *; lia).
  assert (Hpage : forall m, pte_of m pd (a - a mod PGSIZE) = pte_of m pd a).
  { intros m. apply pte_of_page; [by apply user_range|by apply user_range|mlia]. }
  pose proof (Hup a ltac:(lia)) as Hupa.
  apply wp_bind. unfold wp at 1. erewrite uva2ka_user; [|apply Hw|done|].
  2: { unfold user_page. by rewrite Hpage, (wr_pte _ _ _ _ _ _ _ Hw) by (by apply user_range). }
  assert (Hfr : frame (k_mem s') pd (a - a mod PGSIZE) = frame (k_mem s') pd a).
  { unfold frame. by rewrite Hpage. }
  rewrite Hfr. destruct (uv_frame _ _ _ (wr_inv _ _ _ _ _ _ _ Hw) a Hua) as (Hok & _).
  { rewrite (wr_pte _ _ _ _ _ _ _ Hw) by (by apply user_range). apply Hupa. }
  pose proof (page_ok_range _ Hok) as Hfrr.
  destruct (frame (k_mem s') pd a =? 0) eqn:E0; [lia|].
  replace (a - (a - a mod PGSIZE)) with (a mod PGSIZE) by lia.
  rewrite length_drop. set (n := if _ <? _ then _ else _).
  assert (Hn : 0 < n /\ a mod PGSIZE + n <= PGSIZE /\ Z.of_nat k + n <= Z.of_nat (length p) /\
    (Z.of_nat k + n < Z.of_nat (length p) -> a mod PGSIZE + n = PGSIZE)).
  { subst n. zif; lia. }
  clearbody n. destruct Hn as (Hn0 & Hnp & Hnl & Hfull).
  unfold kcopyin. apply wp_bind, wp_modify, wp_ret. split; [split; [done|]|].
  2: { rewrite !length_drop. lia. }
  exists (k + Z.to_nat n)%nat. split_and!; [lia|by rewrite drop_drop| |].
  - intros Hlt'. unfold user in Hu0. rewrite u32_small by lia. specialize (Hfull ltac:(lia)). lia.
  - assert (Hv : v2p (frame (k_mem s') pd a + a mod PGSIZE) = v2p (frame (k_mem s') pd a) + a mod PGSIZE).
    { rewrite !v2p_eq by lia. lia. }
    unfold on_mem. rewrite Hv.
    eapply (written_step pd va p k (Z.to_nat n)) in Hw; [|lia|lia|done|apply Hupa|fold a; lia].
    exact Hw.
Qed.

(** * Properties *)

(** C18: [copyuvm] on an address space whose first [sz] bytes are all mapped gives a
    child with the same bytes at the same addresses under the same flags, in pages of
    its own, with the kernel's mappings and no other user page; the parent, and all
    memory that was not free, is as before.  It returns 0 only when there were fewer
    than two free pages per page plus the page tables of the kernel.  (On a space with a page that is not
    there, as the lazy allocator leaves it, [copyuvm] panics.) *)
Theorem copyuvm_spec pd sz e s l :
  uvm_inv s pd l -> 0 <= sz < KERNBASE ->
  (forall va, 0 <= va < PGROUNDUP sz -> present (pte_of (k_mem s) pd va) = true) ->
  wp (copyuvm pd sz) (fun r e' s' => e' = e /\
    exists l', uvm_inv s' pd l' /\ alloc_only s s' /\
    (forall a, outside a (fun p => p ∈ l) -> ld8 (k_mem s') a = ld8 (k_mem s) a) /\
    (r <> 0 /\ uvm_inv s' r l' /\
       (forall va, 0 <= va < PGROUNDUP sz ->
          PTE_FLAGS (pte_of (k_mem s') r va) = PTE_FLAGS (pte_of (k_mem s) pd va) /\
          frame (k_mem s') r va ∈ l /\ ubyte (k_mem s') r va = ubyte (k_mem s) pd va) /\
       (forall va, PGROUNDUP sz <= va < 4294967296 -> pte_of (k_mem s') r va = kmap_pte kmap va) \/
     r = 0 /\ Z.of_nat (length l) <= 65 + 2 * (PGROUNDUP sz / PGSIZE))) e s.
Proof.
  intros Hu Hsz Hp. eapply wp_mono; [by apply wp_copyuvm|].
  intros r e' s' (-> & l' & Hu' & Ho & _ & Hm & Hr). split; [done|]. exists l'.
  split_and!; try done. destruct Hr as [[Hr Hc]|Hr]; [left|by right].
  assert (Htop : 0 <= PGROUNDUP sz <= KERNBASE) by (rewrite PGROUNDUP_eq by lia; mlia).
  split_and!; [done|apply Hc| |].
  - intros va Hva. pose proof (cp_pte _ _ _ _ _ _ _ Hc va ltac:(lia)) as Hpte.
    destruct (va <? PGROUNDUP sz) eqn:E; [|lia]. destruct Hpte as [Hpte Hin].
    assert (Hok : page_ok (frame (k_mem s') r va)) by (by eapply free_page_ok; [apply Hu|]).
    destruct (page_ok_frame _ Hok) as [_ Hal].
    split_and!; [|done|].
    + rewrite Hpte, !PTE_FLAGS_eq. mlia.
    + apply (cp_data _ _ _ _ _ _ _ Hc); [lia|]. mlia.
  - intros va Hva. pose proof (cp_pte _ _ _ _ _ _ _ Hc va ltac:(lia)) as Hpte.
    by destruct (va <? PGROUNDUP sz) eqn:E; [lia|].
Qed.

(** [copyout] to user pages writes exactly the bytes given, at exactly the
    addresses asked for, across page boundaries, and changes no other byte that the
    process can see, nor any of its mappings. *)
Lemma copyout_spec pd va p e s l :
  uvm_inv s pd l -> 0 <= va -> va + Z.of_nat (length p) <= KERNBASE ->
  (forall va', va <= va' < va + Z.of_nat (length p) -> user_page (k_mem s) pd va') ->
  wp (copyout pd va p) (fun r e' s' => e' = e /\ r = 0 /\ uvm_inv s' pd l /\
    (exists m, s' = set_k_mem m s) /\
    (forall va', 0 <= va' < 4294967296 -> pte_of (k_mem s') pd va' = pte_of (k_mem s) pd va') /\
    (forall va', user va' -> present (pte_of (k_mem s) pd va') = true ->
       ubyte (k_mem s') pd va' =
         if (va <=? va') && (va' <? va + Z.of_nat (length p))
         then u8 (nth (Z.to_nat (va' - va)) p 0) else ubyte (k_mem s) pd va')) e s.
Proof.
  intros Hu Hva Hhi Hp. eapply wp_mono; [by apply wp_copyout|].
  intros r e' s' (-> & -> & [Hu' Hm Hpte Hb]). done.
Qed.

End copy.

(** * The properties at concrete states *)

#[local] Existing Instance built_symbols.

(** A process of two pages, with the rest of [n] pages free. *)
Lemma two_pages n :
  (4 <= n <= 4096)%nat -> exists s l, uvm_inv s wdir l /\ (n <= length l + 4)%nat /\
    forall va, 0 <= va < 0x2000 -> user_page (k_mem s) wdir va.
Proof.
  intros Hn. assert (Hun : forall va, PGROUNDUP 0 <= va < PGROUNDUP 0x2000 ->
    present (pte_of (k_mem (wstate n)) wdir va) = false).
  { change (PGROUNDUP 0x2000) with 0x2000. change (PGROUNDUP 0) with 0. intros va Hva.
    rewrite wdir_unmapped; [done|lia|unfold user; lia]. }
  pose proof (wp_allocuvm wdir 0 0x2000 [] (wstate n) (wpages n) (wdir_inv n ltac:(lia))
    (wstate_cons n ltac:(lia)) ltac:(lia) ltac:(lia) Hun) as Hw.
  destruct (wp_elim _ _ _ _ Hw) as (r & e' & s' & _ & _ & Hr). clear Hw.
  unfold allocuvm_post in Hr. rewrite length_wpages in Hr.
  change (2 * ((PGROUNDUP 0x2000 - PGROUNDUP 0) / PGSIZE)) with 4 in Hr.
  destruct Hr as [(_ & l' & Ha & Hl)|[(_ & Hs & _)|(_ & Hs & _)]]; [|lia|lia].
  exists s', l'. split_and!; [apply Ha|lia|]. intros va Hva.
  pose proof (al_pte _ _ _ _ _ _ _ Ha va ltac:(lia)) as Hp.
  change (PGROUNDUP 0x2000) with 0x2000 in Hp. change (PGROUNDUP 0) with 0 in Hp.
  destruct (_ && _) eqn:E in Hp; [|lia]. destruct Hp as (Hp & _ & Hok).
  unfold user_page. rewrite Hp. split; [by apply present_7|].
  destruct (page_ok_frame _ Hok) as [Hr Hal]. rewrite <- (pte_make _ 7) by (done || lia).
  rewrite Z.land_lor_distr_l. change (Z.land 7 PTE_U) with 4.
  unfold cbool. apply negb_true_iff, Z.eqb_neq. intros [_ E0]%Z.lor_eq_0_iff. done.
Qed.

Lemma copyuvm_spec_witness :
  exists s d s', copyuvm wdir 0x1800 [] s = Done d [] s' /\ d <> 0 /\
    ubyte (k_mem s') d 0x1234 = ubyte (k_mem s) wdir 0x1234.
Proof.
  destruct (two_pages 1100 ltac:(lia)) as (s & l & Hu & Hl & Hp).
  pose proof (copyuvm_spec wdir 0x1800 [] s l Hu ltac:(lia)
    (fun va Hva => proj1 (Hp va Hva))) as Hw.
  destruct (wp_elim _ _ _ _ Hw) as (d & e' & s' & Heq & -> & l' & _ & _ & _ & Hr).
  exists s, d, s'. split; [exact Heq|]. clear Heq Hw.
  change (PGROUNDUP 0x1800) with 0x2000 in Hr.
  destruct Hr as [(Hd & _ & Hc & _)|[_ Hc]]; [|exfalso; change (0x2000 / PGSIZE) with 2 in Hc; lia].
  split; [exact Hd|]. apply Hc. lia.
Defined.

Lemma copyout_spec_witness :
  exists s s', copyout wdir 0xffe [1; 2; 3; 4] [] s = Done 0 [] s' /\
    ubyte (k_mem s') wdir 0x1001 = 4.
Proof.
  destruct (two_pages 8 ltac:(lia)) as (s & l & Hu & _ & Hp).
  pose proof (copyout_spec wdir 0xffe [1; 2; 3; 4] [] s l Hu ltac:(lia) ltac:(simpl; lia)
    (fun va Hva => Hp va ltac:(simpl in Hva; lia))) as Hw.
  destruct (wp_elim _ _ _ _ Hw) as (r & e' & s' & Heq & -> & -> & _ & _ & _ & Hb).
  exists s, s'. split; [exact Heq|]. clear Heq Hw.
  rewrite Hb; [reflexivity|unfold user; lia|]. apply Hp. lia.
Defined.
