(* ===== verification/Proc.v ===== *)
(** proc.c: the process table, the scheduler, sleep and wakeup.

    A pointer into [ptable.proc] is an index.  [swtch] hands the processor to
    somebody else: what happens until control comes back is one step of the
    environment.  The functions that also use the file system ([userinit], [fork],
    [exit], [forkret]) are in Trap.v. *)

From S2P Require Import Prelude Params Mem State Spinlock Console Kalloc Vm.

Section proc.
Context `{Symbols}.

(** ** The process table *)

Definition proc_of (i : nat) (s : kernel) : proc_t := default zero_proc (k_ptable s !! i).
Definition on_proc (i : nat) (f : proc_t -> proc_t) (s : kernel) : kernel :=
  set_k_ptable (alter f i (k_ptable s)) s.

Definition pget {A} (i : nat) (f : proc_t -> A) : K A := get (fun s => f (proc_of i s)).
Definition pset (i : nat) (f : proc_t -> proc_t) : K unit := modify (on_proc i f).

(** The current process.  Reading through a null [proc] is a fault the kernel does
    not survive. *)
Definition myproc : K nat :=
  p ← get (fun s => cpu_proc (k_cpu s));
  match p with Some i => mret i | None => hang end.

(** [for(p = ptable.proc; p < &ptable.proc[NPROC]; p++)] *)
Definition procs : list nat := seq 0 (Z.to_nat NPROC).

(** x86.h, proc.h: sizes and offsets of [struct trapframe] and [struct context]. *)
Definition sizeof_trapframe : Z := 76.
Definition sizeof_context : Z := 20.
Definition ctx_ebp : Z := 12.
Definition ctx_eip : Z := 16.

Definition pinit : K unit := initlock L_ptable "ptable".

(** Look in the process table for an UNUSED proc. *)
Definition allocproc : K (option nat) :=
  acquire L_ptable;;
  found ← for_each procs (fun p =>
    st ← pget p pstate;
    if decide (st = UNUSED) then mret (Some p) else mret None);
  match found with
  | None => release L_ptable;; mret None
  | Some p =>
      pset p (set_pstate EMBRYO);;
      n ← get k_nextpid;
      pset p (set_pid n);;
      modify (set_k_nextpid (s32 (n + 1)));;
      release L_ptable;;
      pset p (set_heap_start 0);;
      pset p (set_page_allocator_type 0);;
      ks ← kalloc;
      pset p (set_kstack ks);;
      if ks =? 0 then
        pset p (set_pstate UNUSED);;
        mret None
      else
        let sp := ks + KSTACKSIZE - sizeof_trapframe in
        pset p (set_tf sp);;
        let sp := sp - 4 in
        kwrite32 sp sym_trapret;;
        let sp := sp - sizeof_context in
        pset p (set_context sp);;
        kmemset sp 0 sizeof_context;;
        kwrite32 (sp + ctx_eip) sym_forkret;;
        mret (Some p)
  end.

(** Grow current process's memory by [n] bytes. *)
Definition growproc (n : Z) : K Z :=
  p ← myproc;
  oldsz ← pget p sz;
  let finish (newsz : Z) : K Z :=
    pset p (set_sz newsz);;
    q ← get (proc_of p);
    switchuvm q;;
    mret 0 in
  if 0 <? n then
    ty ← pget p page_allocator_type;
    if ty =? 1 then
      let newsz := u32 (oldsz + n) in
      if KERNBASE <=? newsz then
        cprintf ("Memory allocation exceeds limit!" +:+ nl) [];; mret (-1)
      else finish newsz
    else
      pd ← pget p pgdir;
      newsz ← allocuvm pd oldsz (u32 (oldsz + n));
      if newsz =? 0 then
        cprintf ("Allocating pages failed!" +:+ nl) [];; mret (-1)
      else finish newsz
  else if n <? 0 then
    pd ← pget p pgdir;
    newsz ← deallocuvm pd oldsz (u32 (oldsz + n));
    if newsz =? 0 then
      cprintf ("Deallocating pages failed!" +:+ nl) [];; mret (-1)
    else finish newsz
  else finish oldsz.

(** ** Switching *)

(** Hand the processor over; the stack pointer saved in the old context is not part
    of the model. *)
Definition swtch : K unit := others.

Definition sched : K unit :=
  h ← holding L_ptable;
  if negb h then panic "sched ptable.lock" else
  n ← get (fun s => ncli (k_cpu s));
  if negb (n =? 1) then panic "sched locks" else
  p ← myproc;
  st ← pget p pstate;
  if decide (st = RUNNING) then panic "sched running" else
  fl ← readeflags_if;
  if (fl : bool) then panic "sched interruptible" else
  ie ← get (fun s => intena (k_cpu s));
  swtch;;
  modify (on_cpu (set_intena ie)).

Definition yield : K unit :=
  acquire L_ptable;;
  p ← myproc;
  pset p (set_pstate RUNNABLE);;
  sched;;
  release L_ptable.

(** One round of the scheduler's endless loop. *)
Definition scheduler_round : K unit :=
  sti;;
  acquire L_ptable;;
  ran ← for_fold procs (fun p ran =>
    st ← pget p pstate;
    if negb (bool_decide (st = RUNNABLE)) then mret ran
    else
      modify (on_cpu (set_cpu_proc (Some p)));;
      q ← get (proc_of p);
      switchuvm q;;
      pset p (set_pstate RUNNING);;
      swtch;;
      switchkvm;;
      modify (on_cpu (set_cpu_proc None));;
      mret true) false;
  release L_ptable;;
  when (negb ran) others.

(** The loop never leaves: a round with nothing to run halts until an interrupt. *)
Definition scheduler : K unit := loop_env (fun _ : unit => scheduler_round;; mret (inl tt)) tt.

(** Atomically release lock and sleep on chan.  Reacquires lock when awakened. *)
Definition sleep (ch : chan) (lk : option lockid) : K unit :=
  cur ← get (fun s => cpu_proc (k_cpu s));
  match cur with
  | None => panic "sleep"
  | Some _ =>
      match lk with
      | None => panic "sleep without lk"
      | Some lk =>
          when (negb (bool_decide (lk = L_ptable))) (acquire L_ptable;; release lk);;
          p ← myproc;
          pset p (set_pchan (Some ch));;
          p ← myproc;
          pset p (set_pstate SLEEPING);;
          sched;;
          p ← myproc;
          pset p (set_pchan None);;
          when (negb (bool_decide (lk = L_ptable))) (release L_ptable;; acquire lk)
      end
  end.

(** Wake up all processes sleeping on chan.  The ptable lock must be held. *)
Definition wakeup1 (ch : option chan) : K unit :=
  for_each procs (fun p =>
    st ← pget p pstate;
    c ← pget p pchan;
    when (bool_decide (st = SLEEPING) && bool_decide (c = ch)) (pset p (set_pstate RUNNABLE));;
    mret (None : option unit));;
  mret tt.

Definition wakeup (ch : chan) : K unit :=
  acquire L_ptable;;
  wakeup1 (Some ch);;
  release L_ptable.

(** Kill the process with the given pid. *)
Definition kill (n : Z) : K Z :=
  acquire L_ptable;;
  r ← for_each procs (fun p =>
    q ← pget p pid;
    if negb (q =? n) then mret None
    else
      pset p (set_killed 1);;
      st ← pget p pstate;
      when (bool_decide (st = SLEEPING)) (pset p (set_pstate RUNNABLE));;
      release L_ptable;;
      mret (Some 0));
  match r with
  | Some r => mret r
  | None => release L_ptable;; mret (-1)
  end.

(** Wait for a child process to exit and return its pid.  The scan stops at the
    first zombie child; its result tells whether there are children at all. *)
Definition wait_reap (p : nat) : K Z :=
  n ← pget p pid;
  ks ← pget p kstack;
  kfree ks;;
  pset p (set_kstack 0);;
  pd ← pget p pgdir;
  freevm pd;;
  pset p (set_pstate UNUSED);;
  pset p (set_pid 0);;
  pset p (set_parent None);;
  pset p (fun q => set_pname (<[0%nat := 0]> (pname q)) q);;
  pset p (set_killed 0);;
  release L_ptable;;
  mret n.

Definition wait : K Z :=
  acquire L_ptable;;
  cur ← myproc;
  loop_env (fun _ : unit =>
    r ← for_fold procs (fun p acc =>
      match acc with
      | inr n => mret (inr n)
      | inl havekids =>
          pa ← pget p parent;
          if negb (bool_decide (pa = Some cur)) then mret (inl havekids)
          else
            st ← pget p pstate;
            if bool_decide (st = ZOMBIE) then n ← wait_reap p; mret (inr n)
            else mret (inl true)
      end) (inl false : bool + Z);
    match r with
    | inr n => mret (inr n)
    | inl havekids =>
        kd ← pget cur killed;
        if negb havekids || cbool kd then release L_ptable;; mret (inr (-1))
        else sleep (CH_proc cur) (Some L_ptable);; mret (inl tt)
    end) tt.

(** Print a process listing to console. *)
Definition state_name (st : procstate) : string :=
  match st with
  | UNUSED => "unused"
  | EMBRYO => "embryo"
  | SLEEPING => "sleep "
  | RUNNABLE => "runble"
  | RUNNING => "run   "
  | ZOMBIE => "zombie"
  end.

(** A C string in a buffer: the bytes before the first NUL. *)
Fixpoint cstr (l : list Z) : list Z :=
  match l with
  | [] => []
  | c :: l' => if c =? 0 then [] else c :: cstr l'
  end.

Definition procdump : K unit :=
  for_each procs (fun p =>
    q ← get (proc_of p);
    if decide (pstate q = UNUSED) then mret None
    else
      cprintf "%d %s %s" [CInt (pid q); CStr (str (state_name (pstate q))); CStr (cstr (pname q))];;
      when (bool_decide (pstate q = SLEEPING)) (
        pcs ← get (fun s => getcallerpcs (k_mem s) (u32 (ld32 (k_mem s) (v2p (context q + ctx_ebp)) + 8)));
        for_each pcs (fun pc =>
          if pc =? 0 then mret (Some tt)
          else cprintf " %p" [CInt pc];; mret None);;
        mret tt);;
      cprintf nl [];;
      mret (None : option unit));;
  mret tt.

End proc.
