(* ===== verification/ProcSpec.v ===== *)
(** What the process table operations do. *)

From S2P Require Import Prelude Params Mem State Spinlock Console Kalloc.
From S2P Require Import Vm VmTables VmSpace VmAlloc VmCopy Proc.

(** * Loops over the process table *)

Definition ptable_ok (s : kernel) : Prop := length (k_ptable s) = Z.to_nat NPROC.

Lemma proc_of_lookup i s p : k_ptable s !! i = Some p -> proc_of i s = p.
Proof. unfold proc_of. by intros ->. Qed.

Lemma lookup_proc_of i s : ptable_ok s -> (i < Z.to_nat NPROC)%nat -> k_ptable s !! i = Some (proc_of i s).
Proof.
  intros Hl Hi. unfold proc_of. destruct (k_ptable s !! i) eqn:E; [done|].
  apply lookup_ge_None in E. unfold ptable_ok in Hl. lia.
Qed.

Lemma ptable_ok_on_proc i f s : ptable_ok s -> ptable_ok (on_proc i f s).
Proof. unfold ptable_ok, on_proc. simpl. by rewrite length_alter. Qed.

Lemma ready_on_proc lk i f s : ready lk s -> ready lk (on_proc i f s).
Proof. done. Qed.

Lemma on_proc_acquired i f lk s : on_proc i f (acquired lk s) = acquired lk (on_proc i f s).
Proof. done. Qed.

Lemma proc_of_on_proc i f s :
  ptable_ok s -> (i < Z.to_nat NPROC)%nat -> proc_of i (on_proc i f s) = f (proc_of i s).
Proof.
  intros Hl Hi. apply proc_of_lookup. simpl. rewrite list_lookup_alter_eq.
  by rewrite lookup_proc_of.
Qed.

Lemma proc_of_on_proc_ne i j f s : i <> j -> proc_of j (on_proc i f s) = proc_of j s.
Proof. intros Hne. unfold proc_of, on_proc. simpl. by rewrite list_lookup_alter_ne. Qed.

Lemma alter_at {A} (f g : A -> A) (i : nat) (l : list A) x : l !! i = Some x -> f x = g x -> alter f i l = alter g i l.
Proof.
  revert i. induction l as [|y l IH]; intros [|i] Hx Hf; simplify_eq/=; f_equal; eauto.
Qed.

Lemma alter_id_at {A} (i : nat) (l : list A) : alter id i l = l.
Proof. by apply list_alter_id. Qed.

(** A loop that applies [g] to every process. *)
Lemma for_procs_map {R} (g : proc_t -> proc_t) (body : nat -> K (option R)) e s :
  ptable_ok s ->
  (forall i s', ptable_ok s' -> (i < Z.to_nat NPROC)%nat ->
     body i e s' = Done None e (on_proc i g s')) ->
  for_each procs body e s = Done None e (set_k_ptable (g <$> k_ptable s) s).
Proof.
  intros Hl Hbody.
  enough (Hgen : forall n l1 l2 s', k_ptable s' = l1 ++ l2 -> length l2 = n ->
    ptable_ok s' ->
    for_each (seq (length l1) n) body e s' = Done None e (set_k_ptable (l1 ++ (g <$> l2)) s')).
  { unfold procs. rewrite <- Hl. by apply (Hgen _ [] (k_ptable s)). }
  induction n as [|n IH]; intros l1 l2 s' Hs Hn Hok.
  - destruct l2; [|done]. simpl. rewrite app_nil_r in *. rewrite <- Hs. by destruct s'.
  - destruct l2 as [|p l2]; [done|]. simpl in *. injection Hn as Hn.
    assert (Hi : (length l1 < Z.to_nat NPROC)%nat).
    { unfold ptable_ok in Hok. rewrite Hs, length_app in Hok. simpl in Hok. lia. }
    erewrite bind_Done by (by apply Hbody).
    assert (Hs' : k_ptable (on_proc (length l1) g s') = (l1 ++ [g p]) ++ l2).
    { unfold on_proc. simpl. rewrite Hs. rewrite <- (Nat.add_0_r (length l1)).
      rewrite alter_app_r. by rewrite <- app_assoc. }
    replace (S (length l1)) with (length (l1 ++ [g p])) by (rewrite length_app; simpl; lia).
    rewrite (IH _ l2) by (done || by apply ptable_ok_on_proc).
    f_equal. rewrite <- app_assoc. by destruct s'.
Qed.

(** ** wakeup *)

Definition wake (ch : option chan) (p : proc_t) : proc_t :=
  if bool_decide (pstate p = SLEEPING) && bool_decide (pchan p = ch)
  then set_pstate RUNNABLE p else p.

Definition woken (ch : option chan) (s : kernel) : kernel :=
  set_k_ptable (wake ch <$> k_ptable s) s.

Lemma wakeup1_eq ch e s : ptable_ok s -> wakeup1 ch e s = Done tt e (woken ch s).
Proof.
  intros Hl. unfold wakeup1.
  erewrite bind_Done; [|apply (for_procs_map (wake ch)); [done|]]; [done|].
  intros i s' Hl' Hi. unfold pget, pset. do 2 (erewrite bind_Done by done). simpl.
  unfold on_proc.
  pose proof (lookup_proc_of i s' Hl' Hi) as Hlk. destruct (_ && _) eqn:E.
  - rewrite (alter_at (wake ch) (set_pstate RUNNABLE) i _ _ Hlk); [done|]. unfold wake. by rewrite E.
  - rewrite (alter_at (wake ch) id i _ _ Hlk), alter_id_at; [by destruct s'|].
    unfold wake. by rewrite E.
Qed.

Lemma wakeup_eq ch e s :
  ready L_ptable s -> ptable_ok s -> wakeup ch e s = Done tt e (woken (Some ch) s).
Proof.
  intros Hr Hl. unfold wakeup. erewrite bind_Done by (by apply acquire_ready).
  erewrite bind_Done by (by apply wakeup1_eq).
  by apply (release_acquired L_ptable e (woken (Some ch) s)).
Qed.

(** ** Searching the table *)

Lemma for_find_none {R} (body : nat -> K (option R)) l e s :
  (forall i, i ∈ l -> body i e s = Done None e s) -> for_each l body e s = Done None e s.
Proof.
  induction l as [|i l IH]; intros Hb; [done|]. simpl.
  erewrite bind_Done by (apply Hb; by left). apply IH. intros j Hj. apply Hb. by right.
Qed.

Lemma for_find_some {R} (body : nat -> K (option R)) l1 i l2 e s r e' s' :
  (forall j, j ∈ l1 -> body j e s = Done None e s) -> body i e s = Done (Some r) e' s' ->
  for_each (l1 ++ i :: l2) body e s = Done (Some r) e' s'.
Proof.
  induction l1 as [|j l1 IH]; intros Hb Hi; simpl.
  - by erewrite bind_Done by exact Hi.
  - erewrite bind_Done by (apply Hb; by left). apply IH; [|done]. intros k Hk. apply Hb. by right.
Qed.

(** The first process that satisfies [P]. *)
Definition first_proc (P : proc_t -> Prop) (s : kernel) (i : nat) : Prop :=
  (i < Z.to_nat NPROC)%nat /\ P (proc_of i s) /\ forall j, (j < i)%nat -> ~ P (proc_of j s).

Lemma first_proc_cases (P : proc_t -> Prop) `{!forall p, Decision (P p)} s :
  (exists i, first_proc P s i) \/ (forall j, (j < Z.to_nat NPROC)%nat -> ~ P (proc_of j s)).
Proof.
  unfold first_proc. induction (Z.to_nat NPROC) as [|n IH]; [right; lia|].
  destruct IH as [(i & Hi & Hp & Hn)|Hn].
  - left. exists i. split; [lia|done].
  - destruct (decide (P (proc_of n s))).
    + left. exists n. split; [lia|done].
    + right. intros j Hj. destruct (decide (j = n)) as [->|]; [done|]. apply Hn. lia.
Qed.

Lemma procs_split i : (i < Z.to_nat NPROC)%nat ->
  procs = seq 0 i ++ i :: seq (S i) (Z.to_nat NPROC - S i).
Proof.
  intros Hi. unfold procs. replace (Z.to_nat NPROC) with (i + S (Z.to_nat NPROC - S i))%nat at 1 by lia.
  by rewrite seq_app.
Qed.

Lemma for_procs_first {R} (P : proc_t -> Prop) (body : nat -> K (option R)) i e s r e' s' :
  first_proc P s i ->
  (forall j, (j < Z.to_nat NPROC)%nat -> ~ P (proc_of j s) -> body j e s = Done None e s) ->
  body i e s = Done (Some r) e' s' ->
  for_each procs body e s = Done (Some r) e' s'.
Proof.
  intros (Hi & Hp & Hn) Hb Hbi. rewrite (procs_split i Hi). apply for_find_some; [|done].
  intros j Hj. apply elem_of_seq in Hj. apply Hb; [lia|apply Hn; lia].
Qed.

Lemma for_procs_none {R} (P : proc_t -> Prop) (body : nat -> K (option R)) e s :
  (forall j, (j < Z.to_nat NPROC)%nat -> ~ P (proc_of j s)) ->
  (forall j, (j < Z.to_nat NPROC)%nat -> ~ P (proc_of j s) -> body j e s = Done None e s) ->
  for_each procs body e s = Done None e s.
Proof.
  intros Hn Hb. apply for_find_none. intros j Hj%elem_of_seq. apply Hb; [lia|apply Hn; lia].
Qed.

(** The state of another variable does not matter to the table, and the lock's state
    does not matter to a process. *)
Lemma first_proc_acquired P lk s i : first_proc P s i -> first_proc P (acquired lk s) i.
Proof. done. Qed.

(** ** kill *)

Definition mark_killed (p : proc_t) : proc_t :=
  let p := set_killed 1 p in
  if bool_decide (pstate p = SLEEPING) then set_pstate RUNNABLE p else p.

Lemma on_proc_on_proc i f g s : on_proc i f (on_proc i g s) = on_proc i (f ∘ g) s.
Proof. unfold on_proc. simpl. by rewrite list_alter_alter_eq. Qed.

Lemma on_proc_at i f g s :
  ptable_ok s -> (i < Z.to_nat NPROC)%nat -> f (proc_of i s) = g (proc_of i s) ->
  on_proc i f s = on_proc i g s.
Proof.
  intros Hl Hi E. unfold on_proc. f_equal. by apply (alter_at _ _ _ _ _ (lookup_proc_of i s Hl Hi)).
Qed.

Lemma kill_found n i e s :
  ready L_ptable s -> ptable_ok s -> first_proc (fun p => pid p = n) s i ->
  kill n e s = Done 0 e (on_proc i mark_killed s).
Proof.
  intros Hr Hl Hf. pose proof Hf as (Hi & Hp & _).
  unfold kill. erewrite bind_Done by (by apply acquire_ready).
  rewrite (bind_Done _ _ _ _ (Some 0) e (on_proc i mark_killed s)); [done|].
  apply (for_procs_first (fun p => pid p = n) _ i); [exact Hf| |].
  - intros j Hj Hnp. unfold pget. erewrite bind_Done by done.
    change (proc_of j (acquired L_ptable s)) with (proc_of j s) in *.
    destruct (pid (proc_of j s) =? n) eqn:E; [lia|done].
  - unfold pget, pset. erewrite bind_Done by done.
    change (proc_of i (acquired L_ptable s)) with (proc_of i s).
    rewrite Hp, Z.eqb_refl. simpl. do 2 (erewrite bind_Done by done).
    set (b := bool_decide _).
    assert (Hb : b = bool_decide (pstate (set_killed 1 (proc_of i s)) = SLEEPING)).
    { subst b. by rewrite (proc_of_on_proc i _ (acquired L_ptable s)). }
    assert (Hst : when b (modify (on_proc i (set_pstate RUNNABLE))) e
                    (on_proc i (set_killed 1) (acquired L_ptable s)) =
                  Done tt e (acquired L_ptable (on_proc i mark_killed s))).
    { change (acquired L_ptable (on_proc i mark_killed s)) with
        (on_proc i mark_killed (acquired L_ptable s)).
      destruct b; simpl.
      - unfold modify. rewrite on_proc_on_proc. f_equal. apply on_proc_at; [done|done|].
        change (proc_of i (acquired L_ptable s)) with (proc_of i s).
        unfold mark_killed, compose. by rewrite <- Hb.
      - unfold mret, M_ret. f_equal. apply on_proc_at; [done|done|].
        change (proc_of i (acquired L_ptable s)) with (proc_of i s).
        unfold mark_killed. by rewrite <- Hb. }
    erewrite bind_Done by exact Hst.
    erewrite bind_Done by (by apply (release_acquired L_ptable e (on_proc i mark_killed s))). done.
Qed.

Lemma kill_none n e s :
  ready L_ptable s -> ptable_ok s ->
  (forall j, (j < Z.to_nat NPROC)%nat -> pid (proc_of j s) <> n) ->
  kill n e s = Done (-1) e s.
Proof.
  intros Hr Hl Hn. unfold kill. erewrite bind_Done by (by apply acquire_ready).
  erewrite bind_Done.
  2: { apply (for_procs_none (fun p => pid p = n)); [exact Hn|].
       intros j Hj Hnp. unfold pget. erewrite bind_Done by done.
       change (proc_of j (acquired L_ptable s)) with (proc_of j s) in *.
       destruct (pid (proc_of j s) =? n) eqn:E; [lia|done]. }
  simpl. erewrite bind_Done by (by apply release_acquired). done.
Qed.

(** ** allocproc *)

Section alloc.
Context `{Symbols} {Hsym : SymbolsOk}.

(** Where the trap frame, the return address and the context of a new process are on
    its kernel stack [v]. *)
Definition stack_tf (v : Z) : Z := v + KSTACKSIZE - sizeof_trapframe.
Definition stack_ret (v : Z) : Z := stack_tf v - 4.
Definition stack_ctx (v : Z) : Z := stack_ret v - sizeof_context.

Definition embryo (n v : Z) (p : proc_t) : proc_t :=
  set_context (stack_ctx v) (set_tf (stack_tf v) (set_kstack v
    (set_page_allocator_type 0 (set_heap_start 0 (set_pid n (set_pstate EMBRYO p)))))).

(** What is left in the slot when there is no page for the stack. *)
Definition abandoned (n : Z) (p : proc_t) : proc_t :=
  set_pstate UNUSED (set_kstack 0 (set_page_allocator_type 0 (set_heap_start 0 (set_pid n
    (set_pstate EMBRYO p))))).

(** [s'] is [s] with slot [i] made a new process whose stack is [v]. *)
Record new_proc (i : nat) (v : Z) (s : kernel) (l : list Z) (s' : kernel) : Prop := {
  np_state : exists m, s' = set_k_mem m (set_k_ptable (alter (embryo (k_nextpid s) v) i (k_ptable s))
                             (popped (set_k_nextpid (s32 (k_nextpid s + 1)) s)));
  np_free : free_rep s' l;
  np_eip : ld32 (k_mem s') (v2p (stack_ctx v + ctx_eip)) = u32 sym_forkret;
  np_ret : ld32 (k_mem s') (v2p (stack_ret v)) = u32 sym_trapret;
  np_mem : forall a, a < v2p v \/ v2p v + PGSIZE <= a -> ld8 (k_mem s') a = ld8 (k_mem s) a
}.

Lemma stack_addr v o : page_ok v -> 0 <= o < PGSIZE -> v2p (v + o) = v2p v + o.
Proof. intros Hv Ho. pose proof (page_ok_range v Hv). rewrite !v2p_eq by lia. lia. Qed.

Lemma stack_offsets v :
  page_ok v -> v2p (stack_ret v) = v2p v + 4016 /\ v2p (stack_ctx v) = v2p v + 3996 /\
  v2p (stack_ctx v + ctx_eip) = v2p v + 4012.
Proof.
  intros Hv. unfold stack_ctx, stack_ret, stack_tf, sizeof_trapframe, sizeof_context, ctx_eip.
  rewrite <- !stack_addr by (done || lia). split_and!; f_equal; lia.
Qed.

Lemma wp_allocproc Q e s l :
  ready L_ptable s -> ptable_ok s -> kmem_ready s -> free_rep s l ->
  ((forall j, (j < Z.to_nat NPROC)%nat -> pstate (proc_of j s) <> UNUSED) -> Q None e s) ->
  (forall i, first_proc (fun p => pstate p = UNUSED) s i ->
     match l with
     | [] => Q None e (set_k_ptable (alter (abandoned (k_nextpid s)) i (k_ptable s))
                         (set_k_nextpid (s32 (k_nextpid s + 1)) s))
     | v :: l' => page_ok v -> forall s', new_proc i v s l' s' -> Q (Some i) e s'
     end) ->
  wp allocproc Q e s.
Proof.
  intros Hr Hl Hk Hf Hnone Hsome. unfold allocproc.
  apply wp_bind, wp_acquire; [done|]. apply wp_bind.
  set (body := fun p => _).
  assert (Hskip : forall j, (j < Z.to_nat NPROC)%nat -> pstate (proc_of j (acquired L_ptable s)) <> UNUSED ->
    body j e (acquired L_ptable s) = Done None e (acquired L_ptable s)).
  { intros j Hj Hnp. subst body. unfold pget. erewrite bind_Done by done. simpl.
    by destruct (decide (_ = UNUSED)). }
  destruct (first_proc_cases (fun p => pstate p = UNUSED) s) as [[i Hi]|Hn].
  2: { eapply wp_intro; [by apply (for_procs_none (fun p => pstate p = UNUSED))|].
       apply wp_bind. eapply wp_release; [done|done|]. apply wp_ret. by apply Hnone. }
  pose proof Hi as (Hir & Hiu & _). specialize (Hsome i Hi).
  eapply wp_intro.
  { apply (for_procs_first (fun p => pstate p = UNUSED) body i _ _ i); [exact Hi|exact Hskip|].
    subst body. unfold pget. erewrite bind_Done by done.
    change (proc_of i (acquired L_ptable s)) with (proc_of i s).
    destruct (decide (pstate (proc_of i s) = UNUSED)); [|done]. reflexivity. }
  clear body Hskip. unfold pset, pget. do 7 wp_step. simpl k_nextpid.
  set (s1 := set_k_nextpid (s32 (k_nextpid s + 1)) (on_proc i (set_pid (k_nextpid s) ∘ set_pstate EMBRYO) s)).
  apply wp_bind. apply (wp_release L_ptable _ _ _ s1); [|done|].
  { subst s1. rewrite <- on_proc_on_proc. done. }
  do 5 wp_step.
  set (s2 := on_proc i (set_page_allocator_type 0) (on_proc i (set_heap_start 0) s1)).
  assert (Hf2 : free_rep s2 l) by (by eapply free_rep_ext, Hf).
  eapply (wp_kalloc _ _ s2 l); [done|done|]. destruct l as [|v l'].
  - do 2 wp_step. simpl (0 =? 0). cbv iota. do 3 wp_step.
    replace (on_proc i (set_pstate UNUSED) _) with
      (set_k_ptable (alter (abandoned (k_nextpid s)) i (k_ptable s))
         (set_k_nextpid (s32 (k_nextpid s + 1)) s)); [exact Hsome|].
    subst s2 s1. unfold on_proc. destruct s; simpl. by rewrite !list_alter_alter_eq.
  - intros Hv _ Hf3. pose proof (page_ok_range v Hv). do 2 wp_step.
    destruct (v =? 0) eqn:E; [lia|]. unfold kwrite32, kmemset. 
    repeat wp_step. apply Hsome; [done|].
    match goal with |- new_proc _ _ _ _ ?x => set (s3 := x) end.
    assert (Hm : k_mem s3 = st32 (memset (st32 (k_mem s) (v2p (stack_ret v)) sym_trapret)
       (v2p (stack_ctx v)) 0 sizeof_context) (v2p (stack_ctx v + ctx_eip)) sym_forkret) by done.
    destruct (stack_offsets v Hv) as (Hret & Hctx & Heip). rewrite Hret, Hctx, Heip in Hm.
    assert (Hout : forall a, a < v2p v \/ v2p v + PGSIZE <= a -> ld8 (k_mem s3) a = ld8 (k_mem s) a).
    { intros a Ha. rewrite Hm, ld8_st32, ld8_memset, ld8_st32 by done. unfold sizeof_context. by zif. }
    split; [| | | |exact Hout].
    + exists (k_mem s3). subst s3 s2 s1. unfold on_proc, popped. destruct s; simpl.
      by rewrite !list_alter_alter_eq.
    + eapply (free_rep_write (popped s2)); [exact Hf3|done|done|].
      intros p Hp a Ha. apply Hout.
      assert (Hpv : p <> v).
      { pose proof (fr_nodup _ _ Hf) as [Hn _]%NoDup_cons. congruence. }
      assert (Hpok : page_ok p) by (eapply free_page_ok; [exact Hf|by right]).
      pose proof (page_disjoint p v Hpok Hv Hpv). lia.
    + rewrite Hm, Heip. apply ld32_st32_eq.
    + rewrite Hm, Hret. unfold sizeof_context. rewrite ld32_st32_ne by lia.
      rewrite ld32_memset_ne by lia. apply ld32_st32_eq.
Qed.

End alloc.

(** * The table as a whole *)

(** Abstractly, a slot is free or holds a process, and [nextpid] numbers the processes.
    Of a slot that is free nothing is known. *)
Definition live (p : proc_t) : option proc_t := if decide (pstate p = UNUSED) then None else Some p.

Definition table (s : kernel) : list (option proc_t) * Z := (live <$> k_ptable s, k_nextpid s).

Definition first_free (t : list (option proc_t)) (i : nat) : Prop :=
  t !! i = Some None /\ forall j, (j < i)%nat -> t !! j <> Some None.

(** The operations with their results; a new process can be made when there is a page for
    its stack. *)
Inductive event :=
| Ev_alloc (mem : bool) (r : option nat)
| Ev_wakeup (ch : chan)
| Ev_kill (n r : Z).

Inductive tstep : event -> list (option proc_t) * Z -> list (option proc_t) * Z -> Prop :=
| ts_alloc t n i p :
    first_free t i -> pid p = n -> pstate p = EMBRYO ->
    tstep (Ev_alloc true (Some i)) (t, n) (<[i := Some p]> t, n + 1)
| ts_full mem t n :
    (forall i, t !! i <> Some None) -> tstep (Ev_alloc mem None) (t, n) (t, n)
| ts_nomem t n i :
    first_free t i -> tstep (Ev_alloc false None) (t, n) (t, n + 1)
| ts_wakeup ch t n :
    tstep (Ev_wakeup ch) (t, n) ((fun o : option proc_t => wake (Some ch) <$> o) <$> t, n)
| ts_kill t n i p :
    t !! i = Some (Some p) -> tstep (Ev_kill (pid p) 0) (t, n) (<[i := Some (mark_killed p)]> t, n)
| ts_kill_none t n m r :
    (forall i p, t !! i = Some (Some p) -> pid p <> m) -> r = 0 \/ r = -1 ->
    tstep (Ev_kill m r) (t, n) (t, n).

(** Slots have distinct pids below the next one, up to 0, which no process has. *)
Record pids_ok (s : kernel) : Prop := {
  po_next : 0 < k_nextpid s;
  po_range : forall i p, k_ptable s !! i = Some p -> 0 <= pid p < k_nextpid s;
  po_live : forall i p, k_ptable s !! i = Some p -> pstate p <> UNUSED -> pid p <> 0;
  po_inj : forall i j p q, k_ptable s !! i = Some p -> k_ptable s !! j = Some q ->
    pid p = pid q -> pid p <> 0 -> i = j
}.

Lemma live_Some p q : live p = Some q <-> p = q /\ pstate p <> UNUSED.
Proof. unfold live. destruct (decide _); naive_solver. Qed.

Lemma live_None p : live p = None <-> pstate p = UNUSED.
Proof. unfold live. destruct (decide _); naive_solver. Qed.

Lemma live_alter f (i : nat) (l : list proc_t) p :
  l !! i = Some p -> live <$> alter f i l = <[i := live (f p)]> (live <$> l).
Proof.
  intros Hi. rewrite <- list_fmap_insert. f_equal. rewrite list_insert_alter. by apply (alter_at _ _ _ _ _ Hi).
Qed.

Lemma first_free_proc s i :
  ptable_ok s -> first_proc (fun p => pstate p = UNUSED) s i -> first_free (live <$> k_ptable s) i.
Proof.
  intros Hl (Hi & Hu & Hn). split.
  - rewrite list_lookup_fmap, lookup_proc_of by done. simpl. f_equal. by apply live_None.
  - intros j Hj. rewrite list_lookup_fmap, lookup_proc_of by (done || lia). simpl.
    intros [= E%live_None]. by destruct (Hn j Hj).
Qed.

(** Pids stay, and nobody comes to life. *)
Lemma pids_same s s' :
  pids_ok s -> k_nextpid s' = k_nextpid s ->
  (forall i p', k_ptable s' !! i = Some p' -> exists p, k_ptable s !! i = Some p /\ pid p' = pid p /\
     (pstate p' <> UNUSED -> pstate p <> UNUSED)) ->
  pids_ok s'.
Proof.
  intros [Hn Hr Hl Hi] En Hs. split; rewrite ?En; [done|..].
  - intros i p' (p & Hp & -> & _)%Hs. by eapply Hr.
  - intros i p' (p & Hp & -> & Hu)%Hs Hu'. eapply Hl; [done|auto].
  - intros i j p' q' (p & Hp & -> & _)%Hs (q & Hq & -> & _)%Hs. by eapply Hi.
Qed.

(** A slot gets the next pid. *)
Lemma pids_next s s' i f :
  pids_ok s -> k_nextpid s' = k_nextpid s + 1 -> k_ptable s' = alter f i (k_ptable s) ->
  (forall p, pid (f p) = k_nextpid s) ->
  pids_ok s'.
Proof.
  intros [Hn Hr Hl Hi] En Et Hf.
  assert (Hc : forall j q, k_ptable s' !! j = Some q ->
    (j = i /\ pid q = k_nextpid s) \/ (j <> i /\ k_ptable s !! j = Some q)).
  { intros j q. rewrite Et. destruct (decide (i = j)) as [->|Hne].
    - rewrite list_lookup_alter_eq. intros (p & _ & ->)%fmap_Some. auto.
    - rewrite list_lookup_alter_ne by done. auto. }
  split; rewrite ?En; [lia|..].
  - intros j q [[-> ->]|[_ Hj]]%Hc; [lia|]. specialize (Hr _ _ Hj). lia.
  - intros j q [[-> ->]|[_ Hj]]%Hc Hu; [lia|]. by eapply Hl.
  - intros j k q r [[-> Eq]|[_ Hj]]%Hc [[-> Er]|[_ Hk]]%Hc E E0; [done|..].
    + specialize (Hr _ _ Hk). lia.
    + specialize (Hr _ _ Hj). lia.
    + by eapply Hi.
Qed.

Lemma wake_live ch p : live (wake ch p) = wake ch <$> live p.
Proof.
  unfold wake at 1. destruct (_ && _) eqn:E.
  - pose proof E as [E1%bool_decide_eq_true _]%andb_true_iff. unfold live. simpl. rewrite E1. simpl.
    unfold wake. by rewrite E.
  - destruct (live p) as [q|] eqn:El; [|done]. apply live_Some in El as [-> _]. simpl. unfold wake. by rewrite E.
Qed.

Lemma mark_killed_live p : live (mark_killed p) = mark_killed <$> live p.
Proof.
  assert (Hu : pstate (mark_killed p) = UNUSED <-> pstate p = UNUSED).
  { unfold mark_killed. simpl. case_bool_decide as E; simpl in *; [by rewrite E|done]. }
  unfold live. destruct (decide (pstate p = UNUSED)) as [E|E]; simpl.
  - by rewrite decide_True by (by apply Hu).
  - by rewrite decide_False by (by rewrite Hu).
Qed.

(** * Sleeping *)

Lemma set_lock_comm lk lk' l l' s :
  lk <> lk' -> set_lock lk l (set_lock lk' l' s) = set_lock lk' l' (set_lock lk l s).
Proof. intros Hne. unfold set_lock. simpl. by rewrite insert_insert_ne. Qed.

(** Another lock was taken inside: giving the outer one back leaves the inner one. *)
Lemma release_outer lk lk' e s :
  lk <> lk' -> ready lk s ->
  release lk e (acquired lk' (acquired lk s)) = Done tt e (acquired lk' s).
Proof.
  intros Hne [Hirq [nm Hu]].
  set (L := mkLock 1 nm (Some (cpu_id (k_cpu s)))).
  set (L' := mkLock 1 (lk_name (lock_of lk' s)) (Some (cpu_id (k_cpu s)))).
  set (s2 := on_cpu pushed (on_cpu pushed s)).
  assert (acquired lk' (acquired lk s) = set_lock lk L (set_lock lk' L' s2)) as ->.
  { rewrite set_lock_comm by done.
    assert (acquired lk s = set_lock lk L (on_cpu pushed s)) as ->.
    { unfold acquired, lock_of. by rewrite Hu. }
    unfold acquired, lock_of at 1. simpl. by rewrite lookup_insert_ne. }
  unfold release, holding. erewrite bind_Done by done. rewrite lock_of_set_lock. simpl.
  rewrite bool_decide_true by done. simpl. erewrite bind_Done by done.
  rewrite set_lock_set_lock. unfold xchg, mbind at 1 2 3, M_bind. simpl.
  rewrite !lock_of_set_lock, set_lock_set_lock. simpl.
  rewrite set_lock_comm, (set_lock_id lk) by done.
  change (set_lock lk' L' s2) with (on_cpu pushed (acquired lk' s)).
  apply popcli_pushed. by apply irq_ok_acquired.
Qed.

Lemma holding_acquired lk e s : holding lk e (acquired lk s) = Done true e (acquired lk s).
Proof.
  unfold holding, get.
  assert (lock_of lk (acquired lk s) = mkLock 1 (lk_name (lock_of lk s)) (Some (cpu_id (k_cpu s)))) as ->
    by apply lock_of_set_lock.
  simpl. by rewrite bool_decide_true.
Qed.

(** A process [p] on the processor with no lock held. *)
Definition running (p : nat) (s : kernel) : Prop :=
  cpu_proc (k_cpu s) = Some p /\ ncli (k_cpu s) = 0 /\ irq_ok s.

Definition go_to_sleep (ch : chan) (p : proc_t) : proc_t := set_pstate SLEEPING (set_pchan (Some ch) p).

Lemma sched_eq p f e s s2 :
  running p s -> pstate (proc_of p s) <> RUNNING ->
  f (acquired L_ptable s) = acquired L_ptable s2 -> irq_ok s2 -> ncli (k_cpu s2) = 0 ->
  ifl (k_cpu s2) = ifl (k_cpu s) ->
  sched (f :: e) (acquired L_ptable s) = Done tt e (acquired L_ptable s2).
Proof.
  intros (Hp & Hn & Hirq) Hst Hf Hirq2 Hn2 Hi2. unfold sched.
  erewrite bind_Done by apply holding_acquired. simpl.
  erewrite bind_Done by done. simpl. rewrite Hn. simpl.
  erewrite bind_Done; [|unfold myproc; erewrite bind_Done by done; simpl; by rewrite Hp].
  unfold pget. erewrite bind_Done by done.
  change (proc_of p (acquired L_ptable s)) with (proc_of p s).
  destruct (decide (pstate (proc_of p s) = RUNNING)); [done|].
  erewrite bind_Done by done. simpl. erewrite bind_Done by done. simpl. rewrite Hn. simpl.
  erewrite bind_Done by done. unfold modify. f_equal. rewrite Hf.
  destruct Hirq2 as [_ Hirq2]. rewrite Hn2 in Hirq2. simpl in Hirq2.
  unfold acquired, set_lock, on_cpu. destruct s2 as [? ? ? ? ? [? n2 ie2 fl2 ? ? ? ?] ? ? ? ? ? ? ? ? ? ? ? ? ? ? ? ? ?].
  simpl in *. subst. unfold pushed. simpl. by rewrite ?Hn.
Qed.

(** [sleep] with the lock [lk], up to the switch. *)
Lemma sleep_start p ch lk e s :
  lk <> L_ptable -> running p s -> ready lk s -> ready L_ptable s ->
  sleep ch (Some lk) e (acquired lk s) =
    (sched;; q ← myproc; pset q (set_pchan None);; release L_ptable;; acquire lk) e
      (acquired L_ptable (on_proc p (go_to_sleep ch) s)).
Proof.
  intros Hne Hrun Hlk Hpt. pose proof Hrun as (Hcp & Hn & Hirq).
  unfold sleep. erewrite bind_Done by done. simpl. rewrite Hcp. rewrite bool_decide_false by done. simpl.
  erewrite bind_Done; [|erewrite bind_Done by (apply acquire_ready; by apply ready_acquired);
    by apply release_outer].
  assert (Hmy : forall s', cpu_proc (k_cpu s') = Some p -> myproc e s' = Done p e s').
  { intros s' Hs. unfold myproc. erewrite bind_Done by done. simpl. by rewrite Hs. }
  unfold pset. do 2 (erewrite bind_Done by (by apply Hmy); erewrite bind_Done by done).
  by rewrite on_proc_on_proc.
Qed.

(** The way back: [s2] is where the others leave the system. *)
Lemma sleep_eq p ch lk f e s s2 :
  lk <> L_ptable -> running p s -> ptable_ok s -> (p < Z.to_nat NPROC)%nat ->
  ready lk s -> ready L_ptable s ->
  f (acquired L_ptable (on_proc p (go_to_sleep ch) s)) = acquired L_ptable s2 ->
  running p s2 -> ifl (k_cpu s2) = ifl (k_cpu s) -> ready lk s2 -> ready L_ptable s2 ->
  sleep ch (Some lk) (f :: e) (acquired lk s) =
    Done tt e (acquired lk (on_proc p (set_pchan None) s2)).
Proof.
  intros Hne Hrun Hl Hp Hlk Hpt Hf (Hcp2 & Hn2 & Hirq2) Hifl Hlk2 Hpt2.
  rewrite (sleep_start p) by done. erewrite bind_Done.
  2: { apply (sched_eq p); try done. by rewrite proc_of_on_proc. }
  erewrite bind_Done; [|unfold myproc; erewrite bind_Done by done; simpl; by rewrite Hcp2].
  erewrite bind_Done by done.
  erewrite bind_Done by (by apply (release_acquired L_ptable _ (on_proc p (set_pchan None) s2))).
  by apply (acquire_ready lk e (on_proc p (set_pchan None) s2)).
Qed.

Lemma sched_blocked p s :
  running p s -> pstate (proc_of p s) <> RUNNING ->
  sched [] (acquired L_ptable s) = Blocked (acquired L_ptable s).
Proof.
  intros (Hp & Hn & Hirq) Hst. unfold sched.
  erewrite bind_Done by apply holding_acquired. simpl.
  erewrite bind_Done by done. simpl. rewrite Hn. simpl.
  erewrite bind_Done; [|unfold myproc; erewrite bind_Done by done; simpl; by rewrite Hp].
  unfold pget. erewrite bind_Done by done.
  change (proc_of p (acquired L_ptable s)) with (proc_of p s).
  by destruct (decide (pstate (proc_of p s) = RUNNING)).
Qed.

(** The rule for [sleep]: what the others do until the process runs again leads from the
    state handed to them to one in which the table is still locked. *)
Lemma wpb_sleep (B : Prop) p ch lk (Q : unit -> env kernel -> kernel -> Prop) e s :
  lk <> L_ptable -> running p s -> ptable_ok s -> (p < Z.to_nat NPROC)%nat ->
  ready lk s -> ready L_ptable s ->
  (forall f e', e = f :: e' -> exists s2,
     f (acquired L_ptable (on_proc p (go_to_sleep ch) s)) = acquired L_ptable s2 /\
     running p s2 /\ ifl (k_cpu s2) = ifl (k_cpu s) /\ ready lk s2 /\ ready L_ptable s2 /\
     Q tt e' (acquired lk (on_proc p (set_pchan None) s2))) ->
  (e = [] -> B) ->
  wpb B (sleep ch (Some lk)) Q e (acquired lk s).
Proof.
  intros Hne Hrun Hl Hp Hlk Hpt Hf HB. destruct e as [|f e].
  - unfold wpb. rewrite (sleep_start p) by done.
    erewrite bind_Blocked by (apply (sched_blocked p); [done|by rewrite proc_of_on_proc]). by apply HB.
  - destruct (Hf f e eq_refl) as (s2 & H1 & H2 & H3 & H4 & H5 & HQ).
    eapply wpb_intro; [by eapply sleep_eq|exact HQ].
Qed.

(** * Properties *)

Lemma live_embryo `{Symbols} n v p : live (embryo n v p) = Some (embryo n v p).
Proof. by apply live_Some. Qed.

Lemma table_new `{Symbols} i v s l s' :
  ptable_ok s -> pids_ok s -> k_nextpid s + 1 < 2147483648 ->
  first_proc (fun p => pstate p = UNUSED) s i -> new_proc i v s l s' ->
  tstep (Ev_alloc true (Some i)) (table s) (table s') /\ pids_ok s'.
Proof.
  intros Hl Hp Hn Hi [[m Hs] _ _ _ _]. pose proof (po_next _ Hp). pose proof Hi as [Hlt _].
  assert (Et : k_ptable s' = alter (embryo (k_nextpid s) v) i (k_ptable s)) by (by rewrite Hs).
  assert (En : k_nextpid s' = k_nextpid s + 1) by (rewrite Hs; simpl; by rewrite s32_small by lia).
  clear Hs. split.
  - unfold table. rewrite Et, En, (live_alter _ _ _ _ (lookup_proc_of i s Hl Hlt)), live_embryo.
    apply ts_alloc; [by apply first_free_proc|reflexivity|reflexivity].
  - by apply (pids_next s s' i _ Hp En Et).
Qed.

Lemma table_nomem i s :
  ptable_ok s -> pids_ok s -> k_nextpid s + 1 < 2147483648 ->
  first_proc (fun p => pstate p = UNUSED) s i ->
  let s' := set_k_ptable (alter (abandoned (k_nextpid s)) i (k_ptable s))
              (set_k_nextpid (s32 (k_nextpid s + 1)) s) in
  tstep (Ev_alloc false None) (table s) (table s') /\ pids_ok s'.
Proof.
  intros Hl Hp Hn Hi s'. pose proof (po_next _ Hp). pose proof Hi as [Hlt [Hu _]].
  pose proof (lookup_proc_of i s Hl Hlt) as Hlk. split.
  - unfold table, s'. simpl. rewrite (live_alter _ _ _ _ Hlk), s32_small by lia.
    rewrite list_insert_id by (rewrite list_lookup_fmap, Hlk; simpl; f_equal; by apply live_None).
    eapply ts_nomem. by apply first_free_proc.
  - eapply (pids_next s _ i); [done| |done|done]. simpl. by rewrite s32_small by lia.
Qed.

Lemma table_wakeup ch s :
  pids_ok s -> tstep (Ev_wakeup ch) (table s) (table (woken (Some ch) s)) /\ pids_ok (woken (Some ch) s).
Proof.
  intros Hp. split.
  - unfold table. simpl. rewrite <- list_fmap_compose.
    rewrite (list_fmap_ext (live ∘ wake (Some ch)) ((fun o : option proc_t => wake (Some ch) <$> o) ∘ live)).
    + rewrite list_fmap_compose. apply ts_wakeup.
    + intros i p _. apply wake_live.
  - eapply pids_same; [done|done|]. intros i p'. simpl. rewrite list_lookup_fmap.
    intros (p & Hi & ->)%fmap_Some. exists p. split; [done|]. unfold wake.
    destruct (_ && _) eqn:E; [|done]. split; [done|]. intros _.
    apply andb_true_iff in E as [->%bool_decide_eq_true _]. done.
Qed.

Lemma table_kill n i s :
  ptable_ok s -> pids_ok s -> first_proc (fun p => pid p = n) s i ->
  tstep (Ev_kill n 0) (table s) (table (on_proc i mark_killed s)) /\ pids_ok (on_proc i mark_killed s).
Proof.
  intros Hl Hp (Hi & Hn & _). pose proof (lookup_proc_of i s Hl Hi) as Hlk. split.
  - unfold table. simpl. rewrite (live_alter _ _ _ _ Hlk), mark_killed_live.
    destruct (live (proc_of i s)) as [q|] eqn:E; simpl.
    + pose proof E as [<- _]%live_Some. rewrite <- Hn. apply ts_kill.
      rewrite list_lookup_fmap, Hlk. exact (f_equal Some E).
    + rewrite list_insert_id by (rewrite list_lookup_fmap, Hlk; exact (f_equal Some E)). apply ts_kill_none; [|by left].
      intros j q. rewrite list_lookup_fmap. intros (q' & Hj & E')%fmap_Some. symmetry in E'.
      apply live_Some in E' as [-> Hu]. intros Eq. pose proof (po_live _ Hp _ _ Hj Hu).
      assert (j = i) as -> by (eapply (po_inj _ Hp); [done|exact Hlk|congruence|done]).
      rewrite Hlk in Hj. injection Hj as <-. apply live_None in E. done.
  - eapply pids_same; [done|done|]. intros j p'. simpl. destruct (decide (i = j)) as [->|Hne].
    + rewrite list_lookup_alter_eq, Hlk. intros [= <-]. eexists. split; [done|]. unfold mark_killed.
      case_bool_decide as E; simpl in *; [by rewrite E|done].
    + rewrite list_lookup_alter_ne by done. eauto.
Qed.

Section properties.
Context `{Symbols} {Hsym : SymbolsOk}.

(** C8: The process table refines an abstract table whose slots are free or hold a process.
    From any state of the table whose pids are in order and below the last [int], and of the
    allocator, [allocproc], [wakeup] and [kill] return, and each makes its step: [allocproc]
    puts a new process with the next pid in the first free slot, and fails only if all slots
    hold a process or no page is left, without a change of any process; [wakeup] wakes exactly
    those that sleep on the channel; [kill] marks and wakes the process with the pid and no
    other one.  All processes keep distinct positive pids below [nextpid]. *)
Theorem proc_table_refines ch n e s l :
  ready L_ptable s -> ptable_ok s -> kmem_ready s -> free_rep s l ->
  pids_ok s -> k_nextpid s + 1 < 2147483648 ->
  wp allocproc (fun r _ s' => tstep (Ev_alloc (bool_decide (l <> [])) r) (table s) (table s') /\ pids_ok s') e s /\
  wp (wakeup ch) (fun _ _ s' => tstep (Ev_wakeup ch) (table s) (table s') /\ pids_ok s') e s /\
  wp (kill n) (fun r _ s' => tstep (Ev_kill n r) (table s) (table s') /\ pids_ok s') e s.
Proof.
  intros Hr Hl Hk Hf Hp Hn. split_and!.
  - eapply wp_allocproc; [done..| |].
    + intros Hu. split; [|done]. apply ts_full. intros i. rewrite list_lookup_fmap.
      intros (p & Hi & E)%fmap_Some. symmetry in E. apply live_None in E.
      destruct (Hu i); [rewrite <- Hl; by eapply lookup_lt_Some|]. by rewrite (proc_of_lookup _ _ _ Hi).
    + intros i Hi. destruct l as [|v l'].
      * by apply table_nomem.
      * intros _ s' Hs. rewrite bool_decide_true by done. by eapply table_new.
  - eapply wp_intro; [by apply wakeup_eq|]. by apply table_wakeup.
  - destruct (first_proc_cases (fun p => pid p = n) s) as [[i Hi]|Hi].
    + eapply wp_intro; [by apply kill_found|]. by apply table_kill.
    + eapply wp_intro; [by apply kill_none|]. split; [|done]. apply ts_kill_none; [|by right].
      intros i q. rewrite list_lookup_fmap. intros (p & Hp' & E)%fmap_Some. symmetry in E.
      apply live_Some in E as [-> _]. intros En. destruct (Hi i); [rewrite <- Hl; by eapply lookup_lt_Some|].
      by rewrite (proc_of_lookup _ _ _ Hp').
Qed.

(** [allocproc] takes the first UNUSED slot, gives it the next pid and a page of the
    free list as its kernel stack, and sets up the stack so that the new process starts
    in [forkret] and returns to [trapret]; nothing outside of the stack page is written.
    It returns null, changing nothing but the slot and [nextpid], when the table is full
    or no page is left. *)
Lemma allocproc_spec e s l :
  ready L_ptable s -> ptable_ok s -> kmem_ready s -> free_rep s l ->
  wp allocproc (fun r e' s' => e' = e /\
    match r with
    | Some i => first_proc (fun p => pstate p = UNUSED) s i /\
                exists v l', l = v :: l' /\ new_proc i v s l' s'
    | None =>
        (s' = s /\ forall j, (j < Z.to_nat NPROC)%nat -> pstate (proc_of j s) <> UNUSED) \/
        (l = [] /\ exists i, first_proc (fun p => pstate p = UNUSED) s i /\
           s' = on_proc i (abandoned (k_nextpid s)) (set_k_nextpid (s32 (k_nextpid s + 1)) s))
    end) e s.
Proof.
  intros Hr Hl Hk Hf. eapply wp_allocproc; [done..| |].
  - intros Hn. split; [done|]. by left.
  - intros i Hi. destruct l as [|v l'].
    + split; [done|]. right. split; [done|]. by exists i.
    + intros _ s' Hs. split; [done|]. split; [done|]. by exists v, l'.
Qed.

(** [wakeup] makes RUNNABLE exactly the processes SLEEPING on the channel, and changes
    nothing else of any process nor of the kernel. *)
Lemma wakeup_spec ch e s :
  ready L_ptable s -> ptable_ok s ->
  exists s', wakeup ch e s = Done tt e s' /\ s' = set_k_ptable (k_ptable s') s /\
    forall i, (i < Z.to_nat NPROC)%nat ->
      proc_of i s' = if decide (pstate (proc_of i s) = SLEEPING /\ pchan (proc_of i s) = Some ch)
                     then set_pstate RUNNABLE (proc_of i s) else proc_of i s.
Proof.
  intros Hr Hl. exists (woken (Some ch) s). split; [by apply wakeup_eq|]. split; [done|].
  intros i Hi. unfold woken. apply proc_of_lookup. simpl.
  rewrite list_lookup_fmap, lookup_proc_of by done. simpl. f_equal. unfold wake.
  destruct (decide _) as [[E1 E2]|Hn]; [by rewrite E1, E2, !bool_decide_true|].
  destruct (_ && _) eqn:E; [|done]. destruct Hn.
  by apply andb_true_iff in E as [?%bool_decide_eq_true ?%bool_decide_eq_true].
Qed.

(** [kill] marks the first process with the given pid, wakes it if it sleeps and returns
    0; with no such process it returns -1 and changes nothing. *)
Lemma kill_spec n e s :
  ready L_ptable s -> ptable_ok s ->
  (exists i, first_proc (fun p => pid p = n) s i /\
     kill n e s = Done 0 e (on_proc i mark_killed s)) \/
  ((forall j, (j < Z.to_nat NPROC)%nat -> pid (proc_of j s) <> n) /\ kill n e s = Done (-1) e s).
Proof.
  intros Hr Hl. destruct (first_proc_cases (fun p => pid p = n) s) as [[i Hi]|Hi].
  - left. exists i. split; [done|]. by apply kill_found.
  - right. split; [done|]. by apply kill_none.
Qed.

(** [kill(0)] succeeds on a slot nobody uses, and the mark stays: the next process made
    in that slot starts its life killed, since [allocproc] does not clear it. *)
Theorem kill_zero_marks_next i e s v l :
  ready L_ptable s -> ptable_ok s -> kmem_ready s -> free_rep s (v :: l) ->
  first_proc (fun p => pid p = 0) s i -> first_proc (fun p => pstate p = UNUSED) s i ->
  wp (r ← kill 0; q ← allocproc; mret (r, q))
     (fun rq _ s' => rq = (0, Some i) /\ killed (proc_of i s') = 1) e s.
Proof.
  intros Hr Hl Hk Hf H0 Hu. apply wp_bind. eapply wp_intro; [by apply kill_found|].
  apply wp_bind. pose proof Hu as (Hi & Hui & Hun).
  assert (Hmk : pstate (mark_killed (proc_of i s)) = UNUSED).
  { unfold mark_killed. simpl. by rewrite Hui. }
  eapply (wp_allocproc _ _ _ (v :: l)); [done|by apply ptable_ok_on_proc|done|by eapply free_rep_ext, Hf| |].
  - intros Hn. destruct (Hn i Hi). by rewrite proc_of_on_proc.
  - intros j Hj Hv s' [[m Hs'] _ _ _ _]. apply wp_ret.
    assert (j = i) as ->.
    { destruct Hj as (Hj & Hju & Hjn). destruct (lt_eq_lt_dec j i) as [[Hlt| ->]|Hlt]; [|done|].
      - destruct (Hun j Hlt). by rewrite proc_of_on_proc_ne in Hju by lia.
      - destruct (Hjn i Hlt). by rewrite proc_of_on_proc. }
    split; [done|]. subst s'. unfold proc_of. simpl. rewrite list_lookup_alter_eq.
    fold (on_proc i mark_killed s). simpl. rewrite list_lookup_alter_eq, lookup_proc_of by done.
    simpl. unfold mark_killed. simpl. by rewrite Hui.
Qed.

(** [sleep] on a lock other than the table's hands the processor
    over with the process already SLEEPING on the channel, the table locked and the lock
    given back, so that whoever takes that lock and calls [wakeup] finds the process and
    makes it RUNNABLE; when the process runs again [sleep] returns with the channel
    cleared and the lock held. *)
Lemma sleep_atomic p ch lk f e s s2 :
  let handed := acquired L_ptable (on_proc p (go_to_sleep ch) s) in
  lk <> L_ptable -> running p s -> ptable_ok s -> (p < Z.to_nat NPROC)%nat ->
  ready lk s -> ready L_ptable s ->
  f handed = acquired L_ptable s2 ->
  running p s2 -> ifl (k_cpu s2) = ifl (k_cpu s) -> ready lk s2 -> ready L_ptable s2 ->
  unlocked lk handed /\
  wp (wakeup1 (Some ch)) (fun _ _ s' => pstate (proc_of p s') = RUNNABLE) e handed /\
  sleep ch (Some lk) (f :: e) (acquired lk s) =
    Done tt e (acquired lk (on_proc p (set_pchan None) s2)).
Proof.
  intros handed Hne Hrun Hl Hp [Hq Hu] Hpt Hf Hrun2 Hifl Hlk2 Hpt2. split_and!.
  - apply unlocked_acquired; [done|exact Hu].
  - assert (Hlh : ptable_ok handed) by (by apply ptable_ok_on_proc).
    eapply wp_intro; [by apply wakeup1_eq|]. unfold woken, proc_of. simpl.
    rewrite list_lookup_fmap, list_lookup_alter_eq, lookup_proc_of by done. simpl.
    unfold wake. simpl. by rewrite bool_decide_true.
  - by apply sleep_eq.
Qed.

End properties.

(** * The properties at concrete states *)

#[local] Existing Instance built_symbols.

(** Three free pages, the table's and the clock's locks initialised, process 0 on the
    processor. *)
Definition pw_state : kernel :=
  on_cpu (set_cpu_proc (Some 0%nat))
    (set_lock L_ptable (mkLock 0 "ptable" None) (set_lock L_time (mkLock 0 "time" None) (wstate 3))).

Lemma pw_ready : ready L_ptable pw_state /\ ready L_time pw_state.
Proof. split; (split; [by split|by eexists]). Qed.

Lemma pw_free : free_rep pw_state (wpages 3).
Proof. eapply free_rep_ext, wstate_ok; [done..|lia]. Qed.

Lemma pw_unused j : proc_of j pw_state = zero_proc.
Proof.
  unfold proc_of. change (k_ptable pw_state) with (replicate (Z.to_nat NPROC) zero_proc).
  destruct (_ !! j) eqn:E; [|done]. by apply lookup_replicate in E as [-> _].
Qed.

Lemma pw_first P : P zero_proc -> first_proc P pw_state 0.
Proof.
  intros HP. unfold first_proc. split_and!; [apply Nat.ltb_lt; by vm_compute|by rewrite pw_unused|].
  intros j Hj. lia.
Qed.

Lemma pw_pids : pids_ok pw_state.
Proof.
  split; [done|..].
  - intros i p [-> _]%lookup_replicate. done.
  - intros i p [-> _]%lookup_replicate. done.
  - intros i j p q [-> _]%lookup_replicate. done.
Qed.

Lemma proc_table_refines_witness :
  exists r e' s', allocproc [] pw_state = Done r e' s' /\ pids_ok s' /\
    tstep (Ev_alloc true r) (table pw_state) (table s').
Proof.
  destruct (proc_table_refines CH_ticks 0 [] pw_state (wpages 3) (proj1 pw_ready) eq_refl
    ltac:(by intros []) pw_free pw_pids ltac:(by vm_compute)) as (Hw & _).
  apply wp_elim in Hw as (r & e' & s' & Heq & Ht & Hp). exists r, e', s'.
  split; [exact Heq|]. split; [exact Hp|exact Ht].
Defined.

Lemma allocproc_spec_witness :
  exists r s', allocproc [] pw_state = Done r [] s' /\ exists l', free_rep s' l'.
Proof.
  pose proof (allocproc_spec [] pw_state (wpages 3) (proj1 pw_ready) eq_refl
    ltac:(by intros []) pw_free) as Hw.
  apply wp_elim in Hw as (r & e' & s' & Heq & -> & Hr). exists r, s'. split; [exact Heq|].
  clear Heq. destruct r as [i|].
  - destruct Hr as (_ & v & l' & _ & Hn). exists l'. apply Hn.
  - destruct Hr as [[-> _]|[Hl _]]; [eexists; apply pw_free|]. discriminate Hl.
Defined.

Lemma wakeup_spec_witness :
  exists s', wakeup CH_ticks [] (on_proc 3 (go_to_sleep CH_ticks) pw_state) = Done tt [] s' /\
    pstate (proc_of 3 s') = RUNNABLE.
Proof.
  destruct (wakeup_spec CH_ticks [] (on_proc 3 (go_to_sleep CH_ticks) pw_state)
    (ready_on_proc _ _ _ _ (proj1 pw_ready)) (ptable_ok_on_proc _ _ pw_state eq_refl)) as (s' & Heq & _ & Hp).
  exists s'. split; [exact Heq|]. rewrite (Hp 3%nat) by (apply Nat.ltb_lt; by vm_compute). by vm_compute.
Defined.

Lemma kill_spec_witness : kill 7 [] pw_state = Done (-1) [] pw_state.
Proof.
  destruct (kill_spec 7 [] pw_state (proj1 pw_ready) eq_refl) as [(i & (_ & Hi & _) & _)|[_ Heq]];
    [|exact Heq].
  exfalso. rewrite pw_unused in Hi. discriminate Hi.
Defined.

Lemma kill_zero_marks_next_witness :
  exists e' s', (r ← kill 0; q ← allocproc; mret (r, q)) [] pw_state = Done (0, Some 0%nat) e' s' /\
    killed (proc_of 0 s') = 1.
Proof.
  pose proof (kill_zero_marks_next 0 [] pw_state _ _ (proj1 pw_ready) eq_refl
    ltac:(by intros []) pw_free (pw_first _ eq_refl) (pw_first _ eq_refl)) as Hw.
  apply wp_elim in Hw as (rq & e' & s' & Heq & -> & Hk). exists e', s'. split; [exact Heq|exact Hk].
Defined.

(** Somebody else wakes the process up and schedules it again. *)
Definition pw_resumed : kernel :=
  on_proc 0 (set_pstate RUNNING) (on_proc 0 (go_to_sleep CH_ticks) pw_state).

Lemma sleep_atomic_witness :
  sleep CH_ticks (Some L_time) [on_proc 0 (set_pstate RUNNING)] (acquired L_time pw_state) =
    Done tt [] (acquired L_time (on_proc 0 (set_pchan None) pw_resumed)).
Proof.
  assert (Hrun : forall s, cpu_proc (k_cpu s) = Some 0%nat -> ncli (k_cpu s) = 0 -> irq_ok s -> running 0 s)
    by done.
  destruct pw_ready as [Hpt Htm]. pose proof (proj1 Hpt) as Hirq.
  refine (proj2 (proj2 (sleep_atomic 0 CH_ticks L_time (on_proc 0 (set_pstate RUNNING)) [] pw_state
    pw_resumed _ (Hrun pw_state eq_refl eq_refl Hirq) eq_refl _ Htm Hpt
    (on_proc_acquired 0 (set_pstate RUNNING) L_ptable _) (Hrun pw_resumed eq_refl eq_refl Hirq) eq_refl
    (ready_on_proc _ _ _ _ (ready_on_proc _ _ _ _ Htm)) (ready_on_proc _ _ _ _ (ready_on_proc _ _ _ _ Hpt))))).
  - discriminate.
  - apply Nat.ltb_lt. by vm_compute.
Defined.
