(* ===== verification/SleepWake.v ===== *)
(** proc.c, [sleep] and [wakeup] of several processes at the same time: no wakeup is lost.

    The two functions are sequences of operations.  Processes run such sequences in any
    interleaving; one of them is a step, since the locks make it one ([Smp]). *)
From stdpp Require Import base list.
From S2P Require Import Prelude Params State Spinlock Console Proc ProcSpec.
Open Scope Z_scope.

(** * The operations *)

Inductive op :=
| O_acquire (l : lockid)
| O_release (l : lockid)
| O_chan (c : option chan)
| O_state (st : procstate)
| O_sched
| O_wakeup1 (c : chan).

Definition run_op (o : op) : K unit :=
  match o with
  | O_acquire l => acquire l
  | O_release l => release l
  | O_chan c => p ← myproc; pset p (set_pchan c)
  | O_state st => p ← myproc; pset p (set_pstate st)
  | O_sched => sched
  | O_wakeup1 c => wakeup1 (Some c)
  end.

Definition run_ops (l : list op) : K unit := foldr (fun o k => run_op o;; k) (mret tt) l.

Definition sleep_ops (ch : chan) (lk : lockid) : list op :=
  [O_acquire L_ptable; O_release lk; O_chan (Some ch); O_state SLEEPING; O_sched; O_chan None;
   O_release L_ptable; O_acquire lk].

Definition wakeup_ops (ch : chan) : list op := [O_acquire L_ptable; O_wakeup1 ch; O_release L_ptable].

(** * Processes that wait for a condition and processes that make it true

    A process waits with [while(!cond) sleep(ch, lk)], [lk] held, and uses the condition up; one that
    makes it true does so with [lk] held and calls [wakeup(ch)].  [I_resume] is a process that
    has called [sched]: the scheduler runs it again when it is RUNNABLE, with the table locked. *)
Inductive winstr :=
| I_op (o : op)
| I_resume
| I_cond (b : bool)
| I_wait (ch : chan) (lk : lockid).

Definition waiter (ch : chan) (lk : lockid) : list winstr :=
  [I_op (O_acquire lk); I_wait ch lk; I_cond false; I_op (O_release lk)].

Definition waker (ch : chan) (lk : lockid) : list winstr :=
  I_op (O_acquire lk) :: I_cond true :: (I_op <$> wakeup_ops ch) ++ [I_op (O_release lk)].

(** The rest of the program of each process, its slot, the holders of the locks, the condition. *)
Record world := World {
  w_code : nat -> list winstr;
  w_proc : nat -> proc_t;
  w_held : lockid -> option nat;
  w_cond : bool
}.

Definition upd {A B} `{EqDecision A} (i : A) (x : B) (f : A -> B) (j : A) : B := if decide (j = i) then x else f j.

Definition goes (i : nat) (c : list winstr) (w : world) : world :=
  World (upd i c (w_code w)) (w_proc w) (w_held w) (w_cond w).
Definition holder (l : lockid) (h : option nat) (w : world) : world :=
  World (w_code w) (w_proc w) (upd l h (w_held w)) (w_cond w).
Definition own (i : nat) (f : proc_t -> proc_t) (w : world) : world :=
  World (w_code w) (upd i (f (w_proc w i)) (w_proc w)) (w_held w) (w_cond w).

(** An operation of process [i]; [None] when it must wait, and when the code panics. *)
Definition op_step (i : nat) (o : op) (w : world) : option world :=
  match o with
  | O_acquire l => if decide (w_held w l = None) then Some (holder l (Some i) w) else None
  | O_release l => if decide (w_held w l = Some i) then Some (holder l None w) else None
  | O_chan c => Some (own i (set_pchan c) w)
  | O_state st => Some (own i (set_pstate st) w)
  | O_sched =>
      if decide (w_held w L_ptable = Some i /\ pstate (w_proc w i) <> RUNNING)
      then Some (holder L_ptable None w) else None
  | O_wakeup1 c => Some (World (w_code w) (fun j => wake (Some c) (w_proc w j)) (w_held w) (w_cond w))
  end.

Definition step1 (i : nat) (w : world) : option world :=
  match w_code w i with
  | [] => None
  | I_op O_sched :: c => goes i (I_resume :: c) <$> op_step i O_sched w
  | I_op o :: c => goes i c <$> op_step i o w
  | I_resume :: c =>
      if decide (w_held w L_ptable = None /\ pstate (w_proc w i) = RUNNABLE)
      then Some (goes i c (holder L_ptable (Some i) (own i (set_pstate RUNNING) w))) else None
  | I_cond b :: c => Some (World (upd i c (w_code w)) (w_proc w) (w_held w) b)
  | I_wait ch lk :: c =>
      Some (goes i (if w_cond w then c else (I_op <$> sleep_ops ch lk) ++ I_wait ch lk :: c) w)
  end.

Section machine.
Context (ch : chan) (lk : lockid).

Inductive wstep (w w' : world) : Prop :=
| st_run i : step1 i w = Some w' -> wstep w w'
| st_wait i : w_code w i = [] -> w' = goes i (waiter ch lk) w -> wstep w w'
| st_wake i : w_code w i = [] -> w' = goes i (waker ch lk) w -> wstep w w'.

Definition start (w : world) : Prop :=
  (forall i, w_code w i = [] /\ pstate (w_proc w i) = RUNNING) /\ (forall l, w_held w l = None).

Definition reachable (w : world) : Prop := exists w0, start w0 /\ rtc wstep w0 w.

(** Process [i] has given up the processor and nobody has woken it. *)
Definition asleep (i : nat) (w : world) : Prop :=
  head (w_code w i) = Some I_resume /\ pstate (w_proc w i) = SLEEPING.

(** Process [j] has the lock and its next [wakeup1] is still to come. *)
Definition will_wake (j : nat) (w : world) : Prop :=
  w_held w lk = Some j /\ I_op (O_wakeup1 ch) ∈ w_code w j /\ ~ (I_cond true ∈ w_code w j).

(** * Where a process can be *)

Inductive phase :=
| Idle | P_start | P_wait | P_use | P_done
| S_acquire | S_release | S_chan | S_state | S_sched | S_resume | S_unchan | S_unlock | S_relock
| K_start | K_cond | K_acquire | K_wakeup | K_release.

Definition after_wait : list winstr := [I_wait ch lk; I_cond false; I_op (O_release lk)].
Definition sleeping_from (n : nat) : list winstr := (I_op <$> drop n (sleep_ops ch lk)) ++ after_wait.

Definition code_of (a : phase) : list winstr :=
  match a with
  | Idle => []
  | P_start => waiter ch lk
  | P_wait => after_wait
  | P_use => drop 1 after_wait
  | P_done => drop 2 after_wait
  | S_acquire => sleeping_from 0
  | S_release => sleeping_from 1
  | S_chan => sleeping_from 2
  | S_state => sleeping_from 3
  | S_sched => sleeping_from 4
  | S_resume => I_resume :: sleeping_from 5
  | S_unchan => sleeping_from 5
  | S_unlock => sleeping_from 6
  | S_relock => sleeping_from 7
  | K_start => waker ch lk
  | K_cond => drop 1 (waker ch lk)
  | K_acquire => drop 2 (waker ch lk)
  | K_wakeup => drop 3 (waker ch lk)
  | K_release => drop 4 (waker ch lk)
  end.

Definition next_phase (c : bool) (a : phase) : phase :=
  match a with
  | Idle => Idle
  | P_start => P_wait
  | P_wait => if c then P_use else S_acquire
  | P_use => P_done
  | P_done => Idle
  | S_acquire => S_release
  | S_release => S_chan
  | S_chan => S_state
  | S_state => S_sched
  | S_sched => S_resume
  | S_resume => S_unchan
  | S_unchan => S_unlock
  | S_unlock => S_relock
  | S_relock => P_wait
  | K_start => K_cond
  | K_cond => K_acquire
  | K_acquire => K_wakeup
  | K_wakeup => K_release
  | K_release => P_done
  end.

Definition has_lk (a : phase) : bool :=
  match a with
  | P_wait | P_use | P_done | S_acquire | S_release | K_cond | K_acquire | K_wakeup | K_release => true
  | _ => false
  end.

Definition has_table (a : phase) : bool :=
  match a with
  | S_release | S_chan | S_state | S_sched | S_unchan | S_unlock | K_wakeup | K_release => true
  | _ => false
  end.

(** Between the test of the condition and the release of [lk]. *)
Definition tested (a : phase) : bool := match a with S_acquire | S_release => true | _ => false end.

Definition pending (a : phase) : bool := match a with K_acquire | K_wakeup => true | _ => false end.

(** About to sleep, or asleep. *)
Definition committed (a : phase) (p : proc_t) : Prop :=
  match a with
  | S_chan | S_state | S_sched => True
  | S_resume => pstate p = SLEEPING
  | _ => False
  end.

Definition proc_ok (a : phase) (p : proc_t) : Prop :=
  match a with
  | S_state => pchan p = Some ch /\ pstate p = RUNNING
  | S_sched => pchan p = Some ch /\ pstate p = SLEEPING
  | S_resume => pchan p = Some ch /\ (pstate p = SLEEPING \/ pstate p = RUNNABLE)
  | _ => pstate p = RUNNING
  end.

Record inv (ph : nat -> phase) (w : world) : Prop := {
  v_code : forall i, w_code w i = code_of (ph i);
  v_proc : forall i, proc_ok (ph i) (w_proc w i);
  v_lk : forall i, w_held w lk = Some i <-> has_lk (ph i) = true;
  v_table : forall i, w_held w L_ptable = Some i <-> has_table (ph i) = true;
  v_false : forall i, tested (ph i) = true -> w_cond w = false;
  v_wake : forall i, committed (ph i) (w_proc w i) -> w_cond w = true -> exists j, pending (ph j) = true
}.

Lemma sw_upd_eq {A B} `{EqDecision A} (i : A) (x : B) f : upd i x f i = x.
Proof. unfold upd. by rewrite decide_True. Qed.

Lemma sw_upd_ne {A B} `{EqDecision A} (i j : A) (x : B) f : j <> i -> upd i x f j = f j.
Proof. intros Hne. unfold upd. by rewrite decide_False. Qed.

(** Process [i] goes on to [b], and takes a lock, gives it back, or does not touch it. *)
Lemma sw_held_upd (h h' : option nat) (P : phase -> bool) ph i b :
  (forall j, h = Some j <-> P (ph j) = true) ->
  (P b = P (ph i) /\ h' = h) \/ (h = None /\ h' = Some i /\ P b = true) \/ (h = Some i /\ h' = None /\ P b = false) ->
  forall j, h' = Some j <-> P (upd i b ph j) = true.
Proof.
  intros Hh Hc j. destruct (decide (j = i)) as [->|Hne]; rewrite ?sw_upd_eq, ?sw_upd_ne by done.
  - destruct Hc as [[-> ->]|[(_ & -> & ->)|(_ & -> & ->)]]; [apply Hh|done|done].
  - destruct Hc as [[_ ->]|[(-> & -> & _)|(-> & -> & _)]]; [apply Hh|..]; rewrite <- Hh; naive_solver.
Qed.

(** What a step does. *)
Definition keeps_or_moves (P : phase -> bool) (a b : phase) (i : nat) (h h' : option nat) : Prop :=
  (P b = P a /\ h' = h) \/ (h = None /\ h' = Some i /\ P b = true) \/ (h = Some i /\ h' = None /\ P b = false).

Record effect (i : nat) (a b : phase) (w w' : world) : Prop := {
  ef_code : forall j, w_code w' j = upd i (code_of b) (w_code w) j;
  ef_own : proc_ok b (w_proc w' i);
  ef_proc : forall j, j <> i -> w_proc w' j = (if a is K_wakeup then wake (Some ch) else id) (w_proc w j);
  ef_lk : keeps_or_moves has_lk a b i (w_held w lk) (w_held w' lk);
  ef_table : keeps_or_moves has_table a b i (w_held w L_ptable) (w_held w' L_ptable);
  ef_cond : w_cond w' = match a with K_cond => true | P_use => false | _ => w_cond w end
}.

Hypothesis Hne : lk <> L_ptable.

Lemma wake_running c p : pstate p = RUNNING -> wake c p = p.
Proof. intros E. unfold wake. by rewrite E. Qed.

Ltac locks := unfold keeps_or_moves; simpl; rewrite ?sw_upd_eq, ?sw_upd_ne by congruence; tauto.

Lemma step_effect ph w i w' :
  inv ph w -> step1 i w = Some w' -> effect i (ph i) (next_phase (w_cond w) (ph i)) w w'.
Proof.
  intros Hv. pose proof (v_proc _ _ Hv i) as Hp. unfold step1. rewrite (v_code _ _ Hv).
  destruct (ph i) eqn:Ea; simpl in Hp |- *; intros Hs; try done;
    repeat (destruct (decide _); simpl in Hs; [|done]); try destruct (w_cond w) eqn:Ec; injection Hs as <-;
    (split; simpl; [|rewrite ?sw_upd_eq; try tauto|intros j Hj; rewrite ?sw_upd_ne by done; try done|locks|locks|try done]).
  all: try done.
  all: try (rewrite wake_running by done; done).
Qed.

Lemma inv_held ph w i j : inv ph w -> has_lk (ph i) = true -> has_lk (ph j) = true -> i = j.
Proof. intros Hv Hi%(v_lk _ _ Hv) Hj%(v_lk _ _ Hv). congruence. Qed.

Lemma inv_table ph w i j : inv ph w -> has_table (ph i) = true -> has_table (ph j) = true -> i = j.
Proof. intros Hv Hi%(v_table _ _ Hv) Hj%(v_table _ _ Hv). congruence. Qed.

(** A process that has tested the condition still finds it false. *)
Lemma false_step ph w i w' :
  inv ph w -> effect i (ph i) (next_phase (w_cond w) (ph i)) w w' ->
  forall j, tested (upd i (next_phase (w_cond w) (ph i)) ph j) = true -> w_cond w' = false.
Proof.
  intros Hv He j. pose proof (v_false _ _ Hv) as Hf. rewrite (ef_cond _ _ _ _ _ He).
  destruct (decide (j = i)) as [->|Hji]; rewrite ?sw_upd_eq, ?sw_upd_ne by done.
  - specialize (Hf i). destruct (ph i), (w_cond w); simpl in *; auto; discriminate.
  - intros Ht. specialize (Hf j Ht). destruct (ph i) eqn:Ea; try done.
    destruct Hji. apply (inv_held ph w); [done| |by rewrite Ea]. by destruct (ph j).
Qed.

(** Whoever is committed after [wakeup1] was not before. *)
Lemma wakeup_step ph w i j :
  inv ph w -> ph i = K_wakeup -> j <> i -> ~ committed (ph j) (wake (Some ch) (w_proc w j)).
Proof.
  intros Hv Ei Hji Hc. pose proof (v_proc _ _ Hv j) as Hp.
  assert (Ht : has_table (ph j) = true -> False).
  { intros Ht. apply Hji. apply (inv_table ph w); [done|done|by rewrite Ei]. }
  destruct (ph j); simpl in *; auto. destruct Hp as [E1 E2]. unfold wake in Hc.
  destruct E2 as [E2|E2]; rewrite E1, E2 in Hc; simpl in Hc; [|congruence].
  rewrite bool_decide_true in Hc by done. done.
Qed.

Lemma wake_step ph w i w' :
  inv ph w -> effect i (ph i) (next_phase (w_cond w) (ph i)) w w' ->
  forall j, committed (upd i (next_phase (w_cond w) (ph i)) ph j) (w_proc w' j) -> w_cond w' = true ->
    exists k, pending (upd i (next_phase (w_cond w) (ph i)) ph k) = true.
Proof.
  intros Hv He j Hc Hcond. pose proof (v_wake _ _ Hv) as Hw.
  rewrite (ef_cond _ _ _ _ _ He) in Hcond.
  assert (Hkeep : (exists k, pending (ph k) = true) -> ph i <> K_wakeup ->
    exists k, pending (upd i (next_phase (w_cond w) (ph i)) ph k) = true).
  { intros [k Hk] Hi. exists k. destruct (decide (k = i)) as [->|]; rewrite ?sw_upd_eq, ?sw_upd_ne by done; [|done].
    by destruct (ph i). }
  destruct (decide (j = i)) as [->|Hji]; rewrite ?sw_upd_eq, ?sw_upd_ne in Hc by done.
  - pose proof (v_false _ _ Hv i) as Hf. specialize (Hw i).
    destruct (ph i), (w_cond w); simpl in *; try done; try (by apply Hkeep; auto). by specialize (Hf eq_refl).
  - rewrite (ef_proc _ _ _ _ _ He j Hji) in Hc. destruct (ph i) eqn:Ei; try done.
    all: try (apply Hkeep; [by eapply Hw|done]).
    + exists i. by rewrite sw_upd_eq.
    + by destruct (wakeup_step ph w i j).
Qed.

Lemma inv_run ph w i w' :
  inv ph w -> step1 i w = Some w' -> exists ph', inv ph' w'.
Proof.
  intros Hv Hs. pose proof (step_effect _ _ _ _ Hv Hs) as He.
  exists (upd i (next_phase (w_cond w) (ph i)) ph). split.
  - intros j. rewrite (ef_code _ _ _ _ _ He). destruct (decide (j = i)) as [->|Hji];
      rewrite ?sw_upd_eq, ?sw_upd_ne by done; [done|apply Hv].
  - intros j. destruct (decide (j = i)) as [->|Hji]; rewrite ?sw_upd_eq, ?sw_upd_ne by done; [apply He|].
    rewrite (ef_proc _ _ _ _ _ He) by done. pose proof (v_proc _ _ Hv j) as Hp.
    destruct (ph i) eqn:Ei; try exact Hp.
    assert (Ht : has_table (ph j) = true -> False).
    { intros Ht. apply Hji. apply (inv_table ph w); [done|done|by rewrite Ei]. }
    destruct (ph j); simpl in *; auto; try (by rewrite wake_running).
    unfold wake. destruct (_ && _); simpl; [split; [apply Hp|by right]|done].
  - apply (sw_held_upd _ _ _ _ _ _ (v_lk _ _ Hv)), He.
  - apply (sw_held_upd _ _ _ _ _ _ (v_table _ _ Hv)), He.
  - by apply (false_step ph w i w').
  - by apply (wake_step ph w i w').
Qed.

(** A process that has nothing to do begins to wait, or to make the condition true. *)
Lemma inv_begin ph w i a :
  inv ph w -> w_code w i = [] -> a = P_start \/ a = K_start -> inv (upd i a ph) (goes i (code_of a) w).
Proof.
  intros Hv Hi Ha. assert (Ei : ph i = Idle).
  { rewrite (v_code _ _ Hv) in Hi. by destruct (ph i). }
  assert (Hk : forall P : phase -> bool, P Idle = P a -> forall j, P (ph j) = P (upd i a ph j)).
  { intros P HP j. destruct (decide (j = i)) as [->|]; rewrite ?sw_upd_eq, ?sw_upd_ne by done; by rewrite ?Ei. }
  split; simpl.
  - intros j. unfold upd. case_decide; [done|apply Hv].
  - intros j. pose proof (v_proc _ _ Hv j) as Hp. unfold upd. case_decide as E; [|done].
    subst j. rewrite Ei in Hp. by destruct Ha as [-> | ->].
  - intros j. rewrite <- (Hk has_lk) by (by destruct Ha as [-> | ->]). apply Hv.
  - intros j. rewrite <- (Hk has_table) by (by destruct Ha as [-> | ->]). apply Hv.
  - intros j. rewrite <- (Hk tested) by (by destruct Ha as [-> | ->]). apply Hv.
  - intros j Hc Hcond. destruct (v_wake _ _ Hv j) as [k Hpk]; [|done|].
    + unfold upd in Hc. case_decide; [|done]. by destruct Ha as [-> | ->].
    + exists k. rewrite <- (Hk pending) by (by destruct Ha as [-> | ->]). done.
Qed.

Lemma inv_reachable w : reachable w -> exists ph, inv ph w.
Proof.
  intros (w0 & [Hi Hl] & Hr). revert w Hr. apply rtc_ind_r.
  - exists (fun _ => Idle). split; try done; intros i; try apply Hi; rewrite Hl; done.
  - intros w1 w2 _ Hs [ph Hv]. destruct Hs as [i Hs|i Hs ->|i Hs ->].
    + by eapply inv_run.
    + eexists. apply (inv_begin ph _ i P_start); auto.
    + eexists. apply (inv_begin ph _ i K_start); auto.
Qed.

(** Who holds the table can go on, and with the table free so can who holds [lk]. *)
Lemma table_runs ph w i : inv ph w -> w_held w L_ptable = Some i -> step1 i w <> None.
Proof.
  intros Hv Hh. pose proof Hh as Ht%(v_table _ _ Hv). pose proof (v_lk _ _ Hv i) as Hk.
  pose proof (v_proc _ _ Hv i) as Hp. unfold step1. rewrite (v_code _ _ Hv).
  destruct (ph i); simpl in *; try done.
  - by rewrite decide_True by (by apply Hk).
  - rewrite decide_True; [done|]. destruct Hp as [_ ->]. done.
  - by rewrite decide_True.
  - by rewrite decide_True.
Qed.

Lemma lk_runs ph w i :
  inv ph w -> w_held w L_ptable = None -> w_held w lk = Some i -> step1 i w <> None.
Proof.
  intros Hv Hh Hk. pose proof Hk as Hl%(v_lk _ _ Hv). pose proof (v_table _ _ Hv i) as Ht.
  rewrite Hh in Ht. unfold step1. rewrite (v_code _ _ Hv).
  destruct (ph i); simpl in *; try done; try (by rewrite decide_True); discriminate (proj2 Ht eq_refl).
Qed.

Lemma pending_will_wake ph w j : inv ph w -> pending (ph j) = true -> will_wake j w.
Proof.
  intros Hv Hj. split; [apply (v_lk _ _ Hv); by destruct (ph j)|].
  rewrite (v_code _ _ Hv). destruct (ph j); try done; simpl; set_solver.
Qed.

Lemma asleep_committed ph w i : inv ph w -> asleep i w -> committed (ph i) (w_proc w i).
Proof. intros Hv [Hh Hs]. rewrite (v_code _ _ Hv) in Hh. by destruct (ph i). Qed.

(** When nobody can go on, all have finished or sleep, and these wait for a condition that is false. *)
Lemma quiet_world ph w i :
  inv ph w -> (forall j, step1 j w = None) -> w_code w i = [] \/ (asleep i w /\ w_cond w = false).
Proof.
  intros Hv Hq.
  destruct (w_held w L_ptable) as [j|] eqn:Et; [by destruct (table_runs ph w j)|].
  destruct (w_held w lk) as [j|] eqn:El; [by destruct (lk_runs ph w j)|].
  assert (Hc : committed (ph i) (w_proc w i) -> w_cond w = false).
  { intros Hc. apply not_true_is_false. intros Hcond. destruct (v_wake _ _ Hv i Hc Hcond) as [j Hj].
    destruct (pending_will_wake ph w j Hv Hj) as [Hh _]. congruence. }
  specialize (Hq i). unfold step1 in Hq. unfold asleep. rewrite (v_code _ _ Hv) in *.
  pose proof (v_proc _ _ Hv i) as Hp. pose proof (v_table _ _ Hv i) as Ht. rewrite Et in Ht.
  pose proof (v_lk _ _ Hv i) as Hl. rewrite El in Hl.
  destruct (ph i); simpl in *; try done; try (by rewrite decide_True in Hq); try (by left);
    try (discriminate (proj2 Ht eq_refl)); try (discriminate (proj2 Hl eq_refl)).
  right. destruct Hp as [_ [Hp|Hp]]; [auto|]. by rewrite decide_True in Hq.
Qed.

End machine.

(** * The functions are these sequences *)

Lemma bind_assoc {S A B C} (m : M S A) (f : A -> M S B) (g : B -> M S C) e s :
  ((m ≫= f) ≫= g) e s = (m ≫= (fun x => f x ≫= g)) e s.
Proof. unfold mbind, M_bind. by destruct (m e s). Qed.

Lemma bind_ext {S A B} (m : M S A) (f g : A -> M S B) e s :
  (forall x e s, f x e s = g x e s) -> (m ≫= f) e s = (m ≫= g) e s.
Proof. intros H. unfold mbind, M_bind. destruct (m e s); auto. Qed.

Lemma bind_ret_unit {S} (m : M S unit) e s : (m;; mret tt) e s = m e s.
Proof. unfold mbind, M_bind. by destruct (m e s) as [[]| | |]. Qed.

Lemma sleep_run ch lk p e s :
  lk <> L_ptable -> cpu_proc (k_cpu s) = Some p -> sleep ch (Some lk) e s = run_ops (sleep_ops ch lk) e s.
Proof.
  intros Hne Hp. unfold sleep, run_ops. erewrite bind_Done by done. cbv beta. rewrite Hp.
  rewrite bool_decide_false by done. cbn [negb when foldr sleep_ops run_op].
  repeat (rewrite ?bind_assoc; apply bind_ext; intros ? ? ?). symmetry. apply bind_ret_unit.
Qed.

Lemma wakeup_run ch e s : wakeup ch e s = run_ops (wakeup_ops ch) e s.
Proof.
  unfold wakeup, run_ops. cbn [foldr wakeup_ops run_op].
  repeat (apply bind_ext; intros ? ? ?). symmetry. apply bind_ret_unit.
Qed.

(** C12: No wakeup is lost, with any number of processes that wait for a condition in
    [sleep(ch, lk)] and of processes that make it true and call [wakeup(ch)], both with [lk] held,
    under any interleaving of the single operations that the two functions consist of.
    Whenever a process sleeps although the condition is true, a process that holds [lk] is on its way to
    [wakeup1], which wakes all that sleep on the channel.  Nobody is ever stuck: when no process can go
    on, each has finished or sleeps while the condition is false. *)
Theorem no_lost_wakeup ch lk :
  lk <> L_ptable ->
  (forall p e s, cpu_proc (k_cpu s) = Some p -> sleep ch (Some lk) e s = run_ops (sleep_ops ch lk) e s) /\
  (forall e s, wakeup ch e s = run_ops (wakeup_ops ch) e s) /\
  (forall e s, ptable_ok s -> wakeup1 (Some ch) e s = Done tt e (woken (Some ch) s)) /\
  forall w, reachable ch lk w ->
    (forall i, asleep i w -> w_cond w = true -> exists j, will_wake ch lk j w) /\
    ((forall i, step1 i w = None) -> forall i, w_code w i = [] \/ (asleep i w /\ w_cond w = false)).
Proof.
  intros Hne. split_and!.
  - intros p e s. by apply sleep_run.
  - apply wakeup_run.
  - intros e s. apply wakeup1_eq.
  - intros w [ph Hv]%inv_reachable; [|done]. split.
    + intros i Hi Hc. destruct (v_wake _ _ _ _ Hv i) as [j Hj]; [by apply (asleep_committed ch lk)|done|].
      exists j. by apply (pending_will_wake ch lk Hne ph).
    + intros Hq i. by apply (quiet_world ch lk Hne ph).
Qed.

(** Process 0 sleeps, and process 1 has made the condition true. *)
Fixpoint schedule (l : list nat) (w : world) : option world :=
  match l with
  | [] => Some w
  | i :: l => w' ← step1 i w; schedule l w'
  end.

Lemma schedule_steps ch lk l w w' : schedule l w = Some w' -> rtc (wstep ch lk) w w'.
Proof.
  revert w. induction l as [|i l IH]; simpl; intros w Hs; [injection Hs as ->; apply rtc_refl|].
  destruct (step1 i w) as [w1|] eqn:E; [|done]. eapply rtc_l; [by eapply st_run|]. by apply IH.
Qed.

Definition sw_start : world :=
  World (fun _ => []) (fun _ => set_pstate RUNNING zero_proc) (fun _ => None) false.

Definition sw_order : list nat := [0;0;0;0;0;0;0;1;1]%nat.

Definition sw_world : world :=
  default sw_start (schedule sw_order
    (goes 1 (waker CH_ticks L_time) (goes 0 (waiter CH_ticks L_time) sw_start))).

Lemma sw_reachable : reachable CH_ticks L_time sw_world.
Proof.
  exists sw_start. split; [by split|].
  eapply rtc_l; [by apply (st_wait _ _ _ _ 0)|]. eapply rtc_l; [by apply (st_wake _ _ _ _ 1)|].
  apply (schedule_steps _ _ sw_order). vm_compute. reflexivity.
Qed.

Lemma no_lost_wakeup_witness :
  reachable CH_ticks L_time sw_world /\ asleep 0 sw_world /\ exists j, will_wake CH_ticks L_time j sw_world.
Proof.
  assert (Ha : asleep 0 sw_world) by (split; by vm_compute).
  destruct (no_lost_wakeup CH_ticks L_time ltac:(discriminate)) as (_ & _ & _ & Hw).
  split; [exact sw_reachable|]. split; [exact Ha|].
  apply (proj1 (Hw sw_world sw_reachable) 0%nat Ha). by vm_compute.
Defined.
