(* ===== verification/Ide.v ===== *)
(** ide.c and memide.c: the two disk drivers.

    Both serve the one request [iderw]; the class [Driver] is that interface, and
    the buffer cache, the log and the file system are written against it.  ide.c
    queues the request, starts the controller and sleeps until the interrupt
    handler has completed it; memide.c copies to and from an image in memory.

    The controller is modelled by its effect: the sectors of a write command
    replace the block when they have been sent ([outsl]), and a read returns the
    block when it is fetched ([insl]).  [idewait], which polls the controller until
    it is ready, succeeds. *)

From S2P Require Import Prelude Params Mem State Spinlock Console Kalloc Vm Proc.

(** buf.h *)
Definition B_BUSY : Z := 0x1.
Definition B_VALID : Z := 0x2.
Definition B_DIRTY : Z := 0x4.

Definition SECTOR_SIZE : Z := 512.

Definition buf_of (b : nat) (s : kernel) : buf_t := default zero_buf (k_bcache s !! b).
Definition on_buf (b : nat) (f : buf_t -> buf_t) (s : kernel) : kernel :=
  set_k_bcache (alter f b (k_bcache s)) s.
Definition bufget {A} (b : nat) (f : buf_t -> A) : K A := get (fun s => f (buf_of b s)).
Definition bufset (b : nat) (f : buf_t -> buf_t) : K unit := modify (on_buf b f).

Definition setflags (f : Z) (b : buf_t) : buf_t := set_bflags (Z.lor (bflags b) f) b.
Definition clrflags (f : Z) (b : buf_t) : buf_t := set_bflags (Z.land (bflags b) (Z.lnot f)) b.

(** The disks: a block that was never written is zero. *)
Definition zero_block : list Z := replicate (Z.to_nat BSIZE) 0.
Definition disk_read (dev bn : Z) (d : disk_t) : list Z :=
  default zero_block (dk_blocks d !! (dev, bn)).
Definition disk_write (dev bn : Z) (data : list Z) (d : disk_t) : disk_t :=
  mkDisk (<[(dev, bn) := data]> (dk_blocks d)) (dk_writes d ++ [(dev, bn, data)]).

Class Driver := { iderw : nat -> K unit }.

(** ** ide.c *)

Module Ide.

Definition ideinit (disk1_present : bool) : K unit :=
  initlock L_ide "ide";;
  when disk1_present (modify (set_k_havedisk1 1)).

(** Start the request for b. *)
Definition idestart (b : option nat) : K unit :=
  match b with
  | None => panic "idestart"
  | Some b =>
      q ← get (buf_of b);
      if FSSIZE <=? blockno q then panic "incorrect blockno" else
      let sector_per_block := BSIZE / SECTOR_SIZE in
      if 7 <? sector_per_block then panic "idestart" else
      when (cbool (Z.land (bflags q) B_DIRTY)) (
        modify (fun s => set_k_disk
          (disk_write (Z.land (bdev q) 1) (blockno q) (bdata q) (k_disk s)) s))
  end.

(** Interrupt handler. *)
Definition ideintr : K unit :=
  acquire L_ide;;
  q ← get k_idequeue;
  match q with
  | None => release L_ide
  | Some b =>
      n ← bufget b bqnext;
      modify (set_k_idequeue n);;
      fl ← bufget b bflags;
      when (negb (cbool (Z.land fl B_DIRTY))) (
        modify (fun s =>
          let q := buf_of b s in
          on_buf b (set_bdata (disk_read (Z.land (bdev q) 1) (blockno q) (k_disk s))) s));;
      bufset b (setflags B_VALID);;
      bufset b (clrflags B_DIRTY);;
      wakeup (CH_buf b);;
      n ← get k_idequeue;
      match n with None => mret tt | Some _ => idestart n end;;
      release L_ide
  end.

(** The last buffer of the queue that starts at [p]; the queue has at most one entry
    per buffer. *)
Fixpoint queue_end (bs : list buf_t) (p : nat) (fuel : nat) : option nat :=
  match fuel with
  | O => None
  | S fuel' =>
      match bqnext (default zero_buf (bs !! p)) with
      | None => Some p
      | Some n => queue_end bs n fuel'
      end
  end.

Definition enqueue (b : nat) : K unit :=
  q ← get k_idequeue;
  match q with
  | None => modify (set_k_idequeue (Some b))
  | Some h =>
      l ← get (fun s => queue_end (k_bcache s) h (length (k_bcache s)));
      match l with
      | Some l => bufset l (set_bqnext (Some b))
      | None => fun _ _ => NoFuel
      end
  end.

(** Sync buf with disk. *)
Definition iderw (b : nat) : K unit :=
  fl ← bufget b bflags;
  if negb (cbool (Z.land fl B_BUSY)) then panic "iderw: buf not busy" else
  if Z.land fl (Z.lor B_VALID B_DIRTY) =? B_VALID then panic "iderw: nothing to do" else
  dev ← bufget b bdev;
  h ← get k_havedisk1;
  if cbool dev && negb (cbool h) then panic "iderw: ide disk 1 not present" else
  acquire L_ide;;
  bufset b (set_bqnext None);;
  enqueue b;;
  q ← get k_idequeue;
  when (bool_decide (q = Some b)) (idestart (Some b));;
  loop_env (fun _ : unit =>
    fl ← bufget b bflags;
    if Z.land fl (Z.lor B_VALID B_DIRTY) =? B_VALID then mret (inr tt)
    else sleep (CH_buf b) (Some L_ide);; mret (inl tt)) tt;;
  release L_ide.

End Ide.

(** ** memide.c *)

Module Memide.

Section memide.
Context `{Symbols}.

Definition disksize : Z := sym_fs_img_size / BSIZE.

Definition ideintr : K unit := mret tt.

Definition iderw (b : nat) : K unit :=
  fl ← bufget b bflags;
  if negb (cbool (Z.land fl B_BUSY)) then panic "iderw: buf not busy" else
  if Z.land fl (Z.lor B_VALID B_DIRTY) =? B_VALID then panic "iderw: nothing to do" else
  dev ← bufget b bdev;
  if negb (dev =? 1) then panic "iderw: request not for disk 1" else
  bn ← bufget b blockno;
  if disksize <=? bn then panic "iderw: block out of range" else
  (if cbool (Z.land fl B_DIRTY) then
     bufset b (clrflags B_DIRTY);;
     modify (fun s => set_k_disk (disk_write 1 bn (bdata (buf_of b s)) (k_disk s)) s)
   else
     modify (fun s => on_buf b (set_bdata (disk_read 1 bn (k_disk s))) s));;
  bufset b (setflags B_VALID).

End memide.

End Memide.

#[global] Instance ide_driver : Driver := {| iderw := Ide.iderw |}.
