(* ===== verification/Bio.v ===== *)
(** bio.c: the buffer cache.

    The buffers and the list head are the entries of [k_bcache], the head being
    entry [NBUF]; [bprev] and [bnext] link them into the ring of most recently used
    buffers. *)

From S2P Require Import Prelude Params Mem State Spinlock Console Kalloc Vm Proc Ide.

Section bio.
Context `{Symbols} `{Driver}.

Definition head : nat := Z.to_nat NBUF.

(** Push [b] in front of the ring:
    [b->next = head.next; b->prev = &head; head.next->prev = b; head.next = b]. *)
Definition push_front (b : nat) : K unit :=
  n ← bufget head bnext;
  bufset b (set_bnext n);;
  bufset b (set_bprev head);;
  bufset n (set_bprev b);;
  bufset head (set_bnext b).

Definition binit : K unit :=
  initlock L_bcache "bcache";;
  bufset head (set_bprev head);;
  bufset head (set_bnext head);;
  for_each (seq 0 (Z.to_nat NBUF)) (fun b =>
    n ← bufget head bnext;
    bufset b (set_bnext n);;
    bufset b (set_bprev head);;
    bufset b (set_bdev (u32 (-1)));;
    bufset n (set_bprev b);;
    bufset head (set_bnext b);;
    mret (None : option unit));;
  mret tt.

(** [for(b = link(head); b != &head; b = link(b))] looking for a buffer that
    satisfies [test]; the ring has [NBUF] buffers. *)
Fixpoint ring_find (link : buf_t -> nat) (test : buf_t -> bool) (bs : list buf_t) (b : nat)
    (fuel : nat) : option (option nat) :=
  match fuel with
  | O => None
  | S fuel' =>
      if (b =? head)%nat then Some None
      else
        let q := default zero_buf (bs !! b) in
        if test q then Some (Some b) else ring_find link test bs (link q) fuel'
  end.

Definition search (link : buf_t -> nat) (test : buf_t -> bool) : K (option nat) :=
  r ← get (fun s => ring_find link test (k_bcache s) (link (buf_of head s)) (S (Z.to_nat NBUF)));
  match r with
  | Some r => mret r
  | None => fun _ _ => NoFuel
  end.

(** Look through buffer cache for block on device dev.  If not found, allocate a
    buffer.  In either case, return B_BUSY buffer. *)
Definition bget (dev bn : Z) : K nat :=
  acquire L_bcache;;
  loop_env (fun _ : unit =>
    c ← search bnext (fun q => (bdev q =? dev) && (blockno q =? bn));
    match c with
    | Some b =>
        fl ← bufget b bflags;
        if negb (cbool (Z.land fl B_BUSY)) then
          bufset b (setflags B_BUSY);;
          release L_bcache;;
          mret (inr b)
        else
          sleep (CH_buf b) (Some L_bcache);; mret (inl tt)
    | None =>
        c ← search bprev (fun q =>
              (Z.land (bflags q) B_BUSY =? 0) && (Z.land (bflags q) B_DIRTY =? 0));
        match c with
        | Some b =>
            bufset b (set_bdev dev);;
            bufset b (set_blockno bn);;
            bufset b (set_bflags B_BUSY);;
            release L_bcache;;
            mret (inr b)
        | None => panic "bget: no buffers"
        end
    end) tt.

(** Return a B_BUSY buf with the contents of the indicated block. *)
Definition bread (dev bn : Z) : K nat :=
  b ← bget dev bn;
  fl ← bufget b bflags;
  when (negb (cbool (Z.land fl B_VALID))) (iderw b);;
  mret b.

(** Write b's contents to disk.  Must be B_BUSY. *)
Definition bwrite (b : nat) : K unit :=
  fl ← bufget b bflags;
  if Z.land fl B_BUSY =? 0 then panic "bwrite" else
  bufset b (setflags B_DIRTY);;
  iderw b.

(** Release a B_BUSY buffer.  Move to the head of the MRU list. *)
Definition brelse (b : nat) : K unit :=
  fl ← bufget b bflags;
  if Z.land fl B_BUSY =? 0 then panic "brelse" else
  acquire L_bcache;;
  n ← bufget b bnext;
  p ← bufget b bprev;
  bufset n (set_bprev p);;
  n ← bufget b bnext;
  p ← bufget b bprev;
  bufset p (set_bnext n);;
  push_front b;;
  bufset b (clrflags B_BUSY);;
  wakeup (CH_buf b);;
  release L_bcache.

End bio.
