(* ===== verification/BioRing.v ===== *)
(** The ring of buffers of bio.c: a doubly linked list, most recently used first. *)

From S2P Require Import Prelude Params Mem State Spinlock Console Kalloc Vm Proc Ide Bio.

(** * Links *)

Definition nx (bs : list buf_t) (x : nat) : nat := bnext (default zero_buf (bs !! x)).
Definition pv (bs : list buf_t) (x : nat) : nat := bprev (default zero_buf (bs !! x)).

(** The links of a ring with buffers [l]: from each node to the one after it. *)
Definition links (l : list nat) : list (nat * nat) := zip (head :: l) (l ++ [head]).

Definition linked (bs : list buf_t) (xy : nat * nat) : Prop := nx bs xy.1 = xy.2 /\ pv bs xy.2 = xy.1.

Record ring (bs : list buf_t) (l : list nat) : Prop := {
  rg_len : length bs = S head;
  rg_nodup : NoDup l;
  rg_range : Forall (fun b => (b < head)%nat) l;
  rg_links : Forall (linked bs) (links l)
}.

(** A change of the fields other than the links. *)
Lemma ring_alter bs l b f :
  (forall q, bnext (f q) = bnext q /\ bprev (f q) = bprev q) -> ring bs l -> ring (alter f b bs) l.
Proof.
  intros Hf [H1 H2 H3 H4]. split; [by rewrite length_alter|done|done|].
  eapply Forall_impl; [exact H4|]. intros [x y] [Hx Hy]. unfold linked, nx, pv in *. simpl in *.
  assert (E : forall z, bnext (default zero_buf (alter f b bs !! z)) = bnext (default zero_buf (bs !! z)) /\
    bprev (default zero_buf (alter f b bs !! z)) = bprev (default zero_buf (bs !! z))).
  { intros z. destruct (decide (b = z)) as [->|Hne]; [|by rewrite list_lookup_alter_ne].
    rewrite list_lookup_alter_eq. destruct (bs !! z); simpl; [apply Hf|done]. }
  by rewrite (proj1 (E x)), (proj2 (E y)).
Qed.

(** * Walking the ring *)

Lemma links_app l1 b l2 :
  exists P p n N, head :: l1 = P ++ [p] /\ l2 ++ [head] = n :: N /\
    links (l1 ++ b :: l2) = zip P l1 ++ (p, b) :: (b, n) :: zip l2 N /\
    links (l1 ++ l2) = zip P l1 ++ (p, n) :: zip l2 N /\
    length P = length l1 /\ length N = length l2.
Proof.
  destruct (exists_last (l := head :: l1)) as (P & p & HP); [done|].
  destruct l2 as [|n0 l2'] eqn:El2.
  - exists P, p, head, []. assert (HlP : length P = length l1).
    { apply (f_equal length) in HP. rewrite length_app in HP. simpl in HP. lia. }
    split_and!; try done.
    + unfold links. rewrite app_comm_cons, HP, <- !app_assoc. simpl.
      rewrite zip_with_app by done. done.
    + unfold links. rewrite app_nil_r, HP. rewrite zip_with_app by done. done.
  - exists P, p, n0, (l2' ++ [head]). assert (HlP : length P = length l1).
    { apply (f_equal length) in HP. rewrite length_app in HP. simpl in HP. lia. }
    split_and!; try done.
    + unfold links. rewrite app_comm_cons, HP, <- !app_assoc. simpl.
      rewrite zip_with_app by done. done.
    + unfold links. rewrite app_comm_cons, HP, <- !app_assoc. simpl.
      rewrite zip_with_app by done. done.
    + rewrite length_app. simpl. lia.
Qed.

(** The first element of a list that passes a test. *)
Fixpoint first_such (test : nat -> bool) (l : list nat) : option nat :=
  match l with
  | [] => None
  | b :: l' => if test b then Some b else first_such test l'
  end.

Lemma first_such_Some test l b : first_such test l = Some b -> b ∈ l /\ test b = true.
Proof.
  induction l as [|x l IH]; simpl; [done|]. destruct (test x) eqn:E.
  - intros [= ->]. split; [by left|done].
  - intros [? ?]%IH. split; [by right|done].
Qed.

Lemma first_such_None test l : first_such test l = None -> forall b, b ∈ l -> test b = false.
Proof.
  induction l as [|x l IH]; simpl; [set_solver|]. destruct (test x) eqn:E; [done|].
  intros Hn b [->|Hb]%elem_of_cons; [done|by apply IH].
Qed.

(** Following the links one way visits the buffers in order. *)
Lemma ring_find_walk (link : buf_t -> nat) test bs l : forall b fuel,
  Forall (fun b => (b < head)%nat) l ->
  Forall (fun xy => link (default zero_buf (bs !! xy.1)) = xy.2) (zip l (drop 1 l ++ [head])) ->
  b = default head (l !! 0%nat) -> (length l < fuel)%nat ->
  ring_find link test bs b fuel = Some (first_such (fun b => test (default zero_buf (bs !! b))) l).
Proof.
  induction l as [|x l IH]; intros b fuel Hr Hl -> Hf; (destruct fuel as [|fuel]; [lia|]).
  { cbn [ring_find lookup list_lookup default]. by rewrite Nat.eqb_refl. }
  apply Forall_cons in Hr as [Hx Hr]. cbn [ring_find lookup list_lookup default id from_option].
  rewrite (proj2 (Nat.eqb_neq _ _)) by lia. cbn [first_such].
  destruct (test _); [done|]. simpl in Hl. simpl in Hf.
  destruct l as [|y l]; simpl in Hl; apply Forall_cons in Hl as [Hxy Hl]; simpl in Hxy; rewrite Hxy;
    apply IH; try done; simpl in *; lia.
Qed.

Lemma ring_length bs l : ring bs l -> (length l <= head)%nat.
Proof.
  intros [_ Hn Hr _]. rewrite <- (length_seq head 0). apply submseteq_length, NoDup_submseteq; [done|].
  intros x Hx. rewrite Forall_forall in Hr. apply elem_of_seq. specialize (Hr x Hx). lia.
Qed.

Lemma links_head l : links l = (head, default head (l !! 0%nat)) :: zip l (drop 1 l ++ [head]).
Proof. by destruct l. Qed.

Lemma zip_rev {A B} (l : list A) : forall k : list B,
  length l = length k -> rev (zip l k) = zip (rev l) (rev k).
Proof.
  induction l as [|x l IH]; intros [|y k] Hl; try done. simpl in *. injection Hl as Hl.
  rewrite zip_with_app by (by rewrite !length_rev). by rewrite IH.
Qed.

(** Backwards, the ring is the ring of the reversed list. *)
Lemma links_rev l : zip (l ++ [head]) (head :: l) = rev (links (rev l)).
Proof.
  unfold links. rewrite zip_rev by (rewrite length_app; simpl; lia). simpl.
  rewrite rev_app_distr. simpl. by rewrite !rev_involutive.
Qed.

Lemma forward_links bs l : Forall (linked bs) (links l) -> Forall (fun xy => nx bs xy.1 = xy.2) (links l).
Proof. intros H. eapply Forall_impl; [exact H|]. by intros xy [? _]. Qed.

Lemma Forall_rev_iff {A} (P : A -> Prop) l : Forall P (rev l) <-> Forall P l.
Proof. split; [|apply Forall_rev]. intros H%Forall_rev. by rewrite rev_involutive in H. Qed.

Lemma backward_links bs l :
  Forall (linked bs) (links l) -> Forall (fun xy => pv bs xy.1 = xy.2) (links (rev l)).
Proof.
  intros H. rewrite <- Forall_rev_iff, <- links_rev. unfold links in H.
  revert H. generalize (head :: l) (l ++ [head]). intros a b. revert b.
  induction a as [|x a IH]; intros [|y b] H; simpl in *; try constructor.
  - by apply Forall_cons in H as [[_ ?] _].
  - apply IH. by apply Forall_cons in H as [_ ?].
Qed.

(** The two searches of [bget]. *)
Lemma search_forward test e s l :
  ring (k_bcache s) l ->
  search bnext test e s = Done (first_such (fun b => test (buf_of b s)) l) e s.
Proof.
  intros Hr. pose proof (ring_length _ _ Hr) as Hlen. destruct Hr as [_ Hn Hrg Hl].
  unfold search, mbind, M_bind, get. apply forward_links in Hl. rewrite links_head in Hl.
  apply Forall_cons in Hl as [Hh Hl]. simpl in Hh.
  rewrite (ring_find_walk bnext test (k_bcache s) l); [done|done|exact Hl|exact Hh|unfold head in Hlen; lia].
Qed.

Lemma search_backward test e s l :
  ring (k_bcache s) l ->
  search bprev test e s = Done (first_such (fun b => test (buf_of b s)) (rev l)) e s.
Proof.
  intros Hr. pose proof (ring_length _ _ Hr) as Hlen. destruct Hr as [_ Hn Hrg Hl].
  unfold search, mbind, M_bind, get. apply backward_links in Hl. rewrite links_head in Hl.
  apply Forall_cons in Hl as [Hh Hl]. simpl in Hh.
  rewrite (ring_find_walk bprev test (k_bcache s) (rev l)); [done|by rewrite Forall_rev_iff|exact Hl|exact Hh|].
  rewrite length_rev. unfold head in Hlen. lia.
Qed.

(** * Moving a buffer *)

Definition set_nx (x y : nat) (bs : list buf_t) : list buf_t := alter (set_bnext y) x bs.
Definition set_pv (x y : nat) (bs : list buf_t) : list buf_t := alter (set_bprev y) x bs.

Lemma nx_set_nx x y bs z :
  (x < length bs)%nat -> nx (set_nx x y bs) z = if decide (z = x) then y else nx bs z.
Proof.
  intros Hx. unfold nx, set_nx. destruct (decide (z = x)) as [->|Hne].
  - rewrite list_lookup_alter_eq. destruct (lookup_lt_is_Some_2 bs x Hx) as [q ->]. done.
  - by rewrite list_lookup_alter_ne.
Qed.

Lemma pv_set_pv x y bs z :
  (x < length bs)%nat -> pv (set_pv x y bs) z = if decide (z = x) then y else pv bs z.
Proof.
  intros Hx. unfold pv, set_pv. destruct (decide (z = x)) as [->|Hne].
  - rewrite list_lookup_alter_eq. destruct (lookup_lt_is_Some_2 bs x Hx) as [q ->]. done.
  - by rewrite list_lookup_alter_ne.
Qed.

Lemma alter_field {A} (g : buf_t -> A) f (x : nat) (bs : list buf_t) (z : nat) :
  (forall q, g (f q) = g q) -> g (default zero_buf (alter f x bs !! z)) = g (default zero_buf (bs !! z)).
Proof.
  intros Hf. destruct (decide (x = z)) as [->|Hne]; [|by rewrite list_lookup_alter_ne].
  rewrite list_lookup_alter_eq. by destruct (bs !! z); simpl.
Qed.

Lemma pv_set_nx x y bs z : pv (set_nx x y bs) z = pv bs z.
Proof. by apply (alter_field bprev). Qed.

Lemma nx_set_pv x y bs z : nx (set_pv x y bs) z = nx bs z.
Proof. by apply (alter_field bnext). Qed.

Lemma length_set_nx x y bs : length (set_nx x y bs) = length bs.
Proof. apply length_alter. Qed.

Lemma length_set_pv x y bs : length (set_pv x y bs) = length bs.
Proof. apply length_alter. Qed.

(** Links whose ends are not written stay. *)
Lemma linked_set_nx x y bs zs :
  (x < length bs)%nat -> Forall (linked bs) zs -> x ∉ zs.*1 -> Forall (linked (set_nx x y bs)) zs.
Proof.
  intros Hx H Hn. apply Forall_forall. intros [z w] Hz. rewrite Forall_forall in H.
  destruct (H _ Hz) as [H1 H2]. split; simpl in *.
  - rewrite nx_set_nx by done. destruct (decide (z = x)) as [->|]; [|done].
    destruct Hn. apply list_elem_of_fmap. by exists (x, w).
  - by rewrite pv_set_nx.
Qed.

Lemma linked_set_pv x y bs zs :
  (x < length bs)%nat -> Forall (linked bs) zs -> x ∉ zs.*2 -> Forall (linked (set_pv x y bs)) zs.
Proof.
  intros Hx H Hn. apply Forall_forall. intros [z w] Hz. rewrite Forall_forall in H.
  destruct (H _ Hz) as [H1 H2]. split; simpl in *.
  - by rewrite nx_set_pv.
  - rewrite pv_set_pv by done. destruct (decide (w = x)) as [->|]; [|done].
    destruct Hn. apply list_elem_of_fmap. by exists (z, x).
Qed.

(** [b->next->prev = b->prev; b->prev->next = b->next] *)
Definition unlink (b : nat) (bs : list buf_t) : list buf_t :=
  let bs1 := set_pv (nx bs b) (pv bs b) bs in set_nx (pv bs1 b) (nx bs1 b) bs1.

(** [b->next = head.next; b->prev = &head; head.next->prev = b; head.next = b] *)
Definition push (b : nat) (bs : list buf_t) : list buf_t :=
  let n := nx bs head in
  set_nx head b (set_pv n b (set_pv b head (set_nx b n bs))).

Lemma head_not_in bs l : ring bs l -> head ∉ l.
Proof. intros [_ _ Hr _] Hin. rewrite Forall_forall in Hr. specialize (Hr _ Hin). lia. Qed.

Lemma ring_unlink bs l1 b l2 : ring bs (l1 ++ b :: l2) -> ring (unlink b bs) (l1 ++ l2).
Proof.
  intros Hring. pose proof (head_not_in _ _ Hring) as Hh. destruct Hring as [Hlen Hnd Hrg Hl].
  destruct (links_app l1 b l2) as (P & p & n & N & HP & HN & HL & HL' & HlP & HlN).
  rewrite HL in Hl. apply Forall_app in Hl as [Hl1 Hl].
  apply Forall_cons in Hl as [[Hpb Hbp] Hl]. apply Forall_cons in Hl as [[Hbn Hnb] Hl2]. simpl in *.
  assert (Hnd1 : NoDup (P ++ [p])).
  { rewrite <- HP. apply NoDup_cons. split; [set_solver|]. by apply NoDup_app in Hnd as (? & _). }
  assert (Hnd2 : NoDup (n :: N)).
  { rewrite <- HN. apply NoDup_app in Hnd as (_ & _ & Hnd). apply NoDup_cons in Hnd as [_ Hnd].
    apply NoDup_app. split; [done|]. split; [set_solver|]. apply NoDup_singleton. }
  assert (Hpin : p = head \/ p ∈ l1).
  { assert (Hp : p ∈ head :: l1) by (rewrite HP; set_solver). set_solver. }
  assert (Hnin : n = head \/ n ∈ l2).
  { assert (Hp : n ∈ l2 ++ [head]) by (rewrite HN; set_solver). set_solver. }
  apply NoDup_app in Hnd as (Hn1 & Hd & Hn2). apply NoDup_cons in Hn2 as [Hb2 Hn2].
  rewrite Forall_app, Forall_cons in Hrg. destruct Hrg as (Hr1 & Hrb & Hr2).
  assert (Hpr : (p < length bs)%nat).
  { rewrite Hlen. destruct Hpin as [->|Hp]; [lia|]. rewrite Forall_forall in Hr1. specialize (Hr1 _ Hp). lia. }
  assert (Hnr : (n < length bs)%nat).
  { rewrite Hlen. destruct Hnin as [->|Hp]; [lia|]. rewrite Forall_forall in Hr2. specialize (Hr2 _ Hp). lia. }
  assert (Hnb' : n <> b) by (destruct Hnin as [->|?]; [lia|congruence]).
  assert (Hu : unlink b bs = set_nx p n (set_pv n p bs)).
  { unfold unlink. rewrite Hbn, Hbp, nx_set_pv, pv_set_pv, Hbn by done.
    by rewrite decide_False, Hbp by congruence. }
  rewrite Hu. split.
  - by rewrite length_set_nx, length_set_pv.
  - apply NoDup_app. split_and!; [done| |done]. intros x Hx Hx2. apply (Hd x Hx). by right.
  - by apply Forall_app.
  - rewrite HL'. apply NoDup_app in Hnd1 as (_ & Hd1 & _). apply NoDup_cons in Hnd2 as [HnN _].
    assert (Hkeep : forall zs, Forall (linked bs) zs -> p ∉ zs.*1 -> n ∉ zs.*2 ->
      Forall (linked (set_nx p n (set_pv n p bs))) zs).
    { intros zs Hzs Hp Hn. apply linked_set_nx; [by rewrite length_set_pv| |done]. by apply linked_set_pv. }
    apply Forall_app. split; [|apply Forall_cons; split].
    + apply Hkeep; [done| |].
      * rewrite fst_zip by lia. intros Hp. apply (Hd1 p Hp). set_solver.
      * rewrite snd_zip by lia. intros Hn. destruct Hnin as [->|Hn']; [set_solver|].
        apply (Hd n Hn). by right.
    + split; simpl.
      * rewrite nx_set_nx by (by rewrite length_set_pv). by rewrite decide_True.
      * rewrite pv_set_nx, pv_set_pv by done. by rewrite decide_True.
    + apply Hkeep; [done| |].
      * rewrite fst_zip by lia. intros Hp. destruct Hpin as [->|Hp']; [set_solver|].
        apply (Hd p Hp'). by right.
      * rewrite snd_zip by lia. done.
Qed.

Lemma ring_push bs l b : ring bs l -> b ∉ l -> (b < head)%nat -> ring (push b bs) (b :: l).
Proof.
  intros Hring Hb Hbr. pose proof (head_not_in _ _ Hring) as Hh. destruct Hring as [Hlen Hnd Hrg Hl].
  rewrite links_head in Hl. apply Forall_cons in Hl as [[Hhn Hnh] Hl]. simpl in *.
  set (n := default head (l !! 0%nat)) in *.
  assert (Hnin : n = head \/ n ∈ l). { destruct l; [by left|right; by left]. }
  assert (Hnr : (n < length bs)%nat).
  { rewrite Hlen. destruct Hnin as [->|Hp]; [lia|]. rewrite Forall_forall in Hrg. specialize (Hrg _ Hp). lia. }
  set (rest := zip l (drop 1 l ++ [head])) in *.
  assert (Hr1 : rest.*1 = l).
  { apply fst_zip. rewrite length_app, length_drop. simpl. lia. }
  assert (Hr2 : forall y, y ∈ rest.*2 -> y ∈ drop 1 l ++ [head] /\ l <> []).
  { intros y [[z w] [-> Hy]]%list_elem_of_fmap. split; [by eapply elem_of_zip_r|].
    intros E. subst rest. rewrite E in Hy. by apply not_elem_of_nil in Hy. }
  assert (HnN : n ∉ rest.*2).
  { intros [Hn Hne]%Hr2. destruct l as [|x l]; [done|]. simpl in n. subst n. simpl in Hn.
    apply NoDup_cons in Hnd as [? _]. set_solver. }
  assert (HbN : b ∉ rest.*2).
  { intros [Hn _]%Hr2. apply elem_of_app in Hn as [Hn|Hn]; [|set_unfold; lia].
    apply Hb. rewrite <- (take_drop 1 l). apply elem_of_app. by right. }
  assert (Hnb : n <> b) by (destruct Hnin as [->|?]; [lia|congruence]).
  assert (Hhb : head <> b) by lia.
  unfold push. rewrite Hhn. split.
  - by rewrite length_set_nx, !length_set_pv, length_set_nx.
  - by apply NoDup_cons.
  - by apply Forall_cons.
  - change (links (b :: l)) with ((head, b) :: zip (b :: l) (l ++ [head])).
    replace (zip (b :: l) (l ++ [head])) with ((b, n) :: rest) by (subst n rest; by destruct l).
    apply Forall_cons. split; [|apply Forall_cons; split].
    + split; simpl; rewrite ?pv_set_nx, ?nx_set_nx, ?pv_set_pv
        by (rewrite ?length_set_pv, ?length_set_nx; lia).
      * by rewrite decide_True.
      * rewrite decide_False, decide_True by done. done.
    + split; simpl; rewrite ?pv_set_nx, ?nx_set_nx, ?nx_set_pv, ?pv_set_pv, ?nx_set_nx
        by (rewrite ?length_set_pv, ?length_set_nx; lia).
      * by rewrite decide_False, decide_True by done.
      * by rewrite decide_True.
    + apply linked_set_nx; [rewrite !length_set_pv, length_set_nx; lia| |by rewrite Hr1].
      apply linked_set_pv; [rewrite length_set_pv, length_set_nx; lia| |done].
      apply linked_set_pv; [rewrite length_set_nx; lia| |done].
      apply linked_set_nx; [lia|done|by rewrite Hr1].
Qed.

(** Unlinking and pushing: the buffer becomes the most recently used one. *)
Lemma ring_move bs l1 b l2 :
  ring bs (l1 ++ b :: l2) -> ring (push b (unlink b bs)) (b :: l1 ++ l2).
Proof.
  intros Hr. pose proof Hr as [_ Hnd Hrg _]. apply ring_push; [by apply ring_unlink| |].
  - apply NoDup_app in Hnd as (_ & Hd & Hn). apply NoDup_cons in Hn as [Hn _].
    intros [Hin|Hin]%elem_of_app; [|done]. apply (Hd b Hin). by left.
  - rewrite Forall_app, Forall_cons in Hrg. by destruct Hrg as (_ & ? & _).
Qed.
