(* ===== verification/BioSpec.v ===== *)
(** The buffer cache of bio.c keeps one copy of each block, and what the kernel reads
    through it is what was last written.

    The disk driver is an interface, [SyncDriver]: a request is served before [iderw]
    returns.  memide.c implements it. *)

From S2P Require Import Prelude Params Mem State Spinlock Console Kalloc Vm VmTables VmSpace VmAlloc.
From S2P Require Import VmCopy Proc ProcSpec Ide Bio BioRing.

(** * Flags *)

Definition busy (q : buf_t) : bool := Z.testbit (bflags q) 0.
Definition valid (q : buf_t) : bool := Z.testbit (bflags q) 1.
Definition dirty (q : buf_t) : bool := Z.testbit (bflags q) 2.

Lemma land_pow2 x k : 0 <= k -> Z.land x (2 ^ k) = if Z.testbit x k then 2 ^ k else 0.
Proof.
  intros Hk. apply Z.bits_inj'. intros n Hn. rewrite Z.land_spec, Z.pow2_bits_eqb by done.
  destruct (k =? n) eqn:E.
  - apply Z.eqb_eq in E as ->. rewrite andb_true_r. destruct (Z.testbit x n) eqn:Ex.
    + by rewrite Z.pow2_bits_true.
    + by rewrite Z.bits_0.
  - rewrite andb_false_r. destruct (Z.testbit x k); [|by rewrite Z.bits_0].
    rewrite Z.pow2_bits_false; [done|lia].
Qed.

Lemma test_busy q : cbool (Z.land (bflags q) B_BUSY) = busy q /\ (Z.land (bflags q) B_BUSY =? 0) = negb (busy q).
Proof. unfold busy. change B_BUSY with (2 ^ 0). rewrite land_pow2 by lia. by destruct (Z.testbit _ 0). Qed.

Lemma test_valid q : cbool (Z.land (bflags q) B_VALID) = valid q.
Proof. unfold valid. change B_VALID with (2 ^ 1). rewrite land_pow2 by lia. by destruct (Z.testbit _ 1). Qed.

Lemma test_dirty q : cbool (Z.land (bflags q) B_DIRTY) = dirty q /\ (Z.land (bflags q) B_DIRTY =? 0) = negb (dirty q).
Proof. unfold dirty. change B_DIRTY with (2 ^ 2). rewrite land_pow2 by lia. by destruct (Z.testbit _ 2). Qed.

Lemma test_done q :
  (Z.land (bflags q) (Z.lor B_VALID B_DIRTY) =? B_VALID) = valid q && negb (dirty q).
Proof.
  unfold valid, dirty. rewrite Z.land_lor_distr_r.
  change B_VALID with (2 ^ 1). change B_DIRTY with (2 ^ 2). rewrite !land_pow2 by lia.
  by destruct (Z.testbit _ 1), (Z.testbit _ 2).
Qed.

(** The bits after a flag was set or cleared. *)
Lemma setflags_bits f q n :
  0 <= n -> Z.testbit (bflags (setflags f q)) n = Z.testbit (bflags q) n || Z.testbit f n.
Proof. intros Hn. apply Z.lor_spec. Qed.

Lemma clrflags_bits f q n :
  0 <= n -> Z.testbit (bflags (clrflags f q)) n = Z.testbit (bflags q) n && negb (Z.testbit f n).
Proof. intros Hn. simpl. by rewrite Z.land_spec, Z.lnot_spec. Qed.

(** * The interface of a driver *)

(** The buffer and the disk after a request for [b]. *)
Definition served_flags (q : buf_t) : Z := Z.lor (Z.land (bflags q) (Z.lnot B_DIRTY)) B_VALID.

Definition served (b : nat) (s : kernel) : kernel :=
  let q := buf_of b s in
  if dirty q then
    on_buf b (set_bflags (served_flags q))
      (set_k_disk (disk_write (bdev q) (blockno q) (bdata q) (k_disk s)) s)
  else
    on_buf b (fun r => set_bflags (served_flags q)
      (set_bdata (disk_read (bdev q) (blockno q) (k_disk s)) r)) s.

Class SyncDriver `{Driver} := {
  serves : Z -> Z -> Prop;
  iderw_served : forall b e s,
    (b < length (k_bcache s))%nat ->
    busy (buf_of b s) = true -> valid (buf_of b s) && negb (dirty (buf_of b s)) = false ->
    serves (bdev (buf_of b s)) (blockno (buf_of b s)) ->
    iderw b e s = Done tt e (served b s)
}.

Lemma buf_of_on_buf b f s :
  (b < length (k_bcache s))%nat -> buf_of b (on_buf b f s) = f (buf_of b s).
Proof.
  intros Hb. unfold buf_of, on_buf. simpl. rewrite list_lookup_alter_eq.
  by destruct (lookup_lt_is_Some_2 _ _ Hb) as [q ->].
Qed.

Lemma buf_of_on_buf_ne b c f s : b <> c -> buf_of c (on_buf b f s) = buf_of c s.
Proof. intros Hb. unfold buf_of, on_buf. simpl. by rewrite list_lookup_alter_ne. Qed.

Lemma on_buf_on_buf b f g s : on_buf b f (on_buf b g s) = on_buf b (f ∘ g) s.
Proof. unfold on_buf. simpl. by rewrite list_alter_alter_eq. Qed.

Lemma on_buf_at b f g s : f (buf_of b s) = g (buf_of b s) -> on_buf b f s = on_buf b g s.
Proof.
  intros E. unfold on_buf. f_equal. unfold buf_of in E. destruct (k_bcache s !! b) as [q|] eqn:Eq.
  - by apply (alter_at _ _ _ _ _ Eq).
  - apply lookup_ge_None in Eq. clear E. revert b Eq. generalize (k_bcache s).
    intros l. induction l as [|q l IH]; intros [|b] Hb; simpl in *; try lia; try done.
    unfold alter in *. simpl. f_equal. apply IH. lia.
Qed.

(** ** memide.c serves requests at once *)

Section memide.
Context `{Symbols}.

Definition memide_driver : Driver := {| iderw := Memide.iderw |}.

Lemma clear_dirty_bits x : Z.testbit x 2 = false -> Z.land x (Z.lnot B_DIRTY) = x.
Proof.
  intros Hx. apply Z.bits_inj'. intros n Hn. rewrite Z.land_spec, Z.lnot_spec by done.
  change B_DIRTY with (2 ^ 2). rewrite Z.pow2_bits_eqb by lia. destruct (2 =? n) eqn:E.
  - apply Z.eqb_eq in E as <-. by rewrite Hx.
  - by rewrite andb_true_r.
Qed.

(** The blocks of the image in memory. *)
Definition in_image (dev bn : Z) : Prop := dev = 1 /\ 0 <= bn < Memide.disksize.

Lemma memide_served b e s :
  (b < length (k_bcache s))%nat ->
  busy (buf_of b s) = true -> valid (buf_of b s) && negb (dirty (buf_of b s)) = false ->
  in_image (bdev (buf_of b s)) (blockno (buf_of b s)) ->
  Memide.iderw b e s = Done tt e (served b s).
Proof.
  intros Hb Hbusy Hdo [Hdev Hbn]. unfold Memide.iderw, bufget. erewrite bind_Done by done.
  rewrite (proj1 (test_busy _)), Hbusy. simpl. rewrite test_done, Hdo.
  erewrite bind_Done by done. rewrite Hdev. simpl.
  erewrite bind_Done by done. destruct (Memide.disksize <=? _) eqn:E; [lia|].
  rewrite (proj1 (test_dirty _)). unfold served. destruct (dirty (buf_of b s)) eqn:Ed.
  - erewrite bind_Done by (unfold bufset; by erewrite bind_Done by done).
    unfold bufset, modify. f_equal.
    change (set_k_disk ?d (on_buf b ?f s)) with (on_buf b f (set_k_disk d s)).
    rewrite on_buf_on_buf. rewrite buf_of_on_buf by done. rewrite Hdev.
    apply on_buf_at. done.
  - erewrite bind_Done by done. unfold bufset, modify. f_equal. rewrite on_buf_on_buf, Hdev.
    apply on_buf_at. unfold compose, setflags, served_flags. simpl.
    change (buf_of b _) with (buf_of b s). by rewrite clear_dirty_bits.
Qed.

Definition memide_sync : @SyncDriver memide_driver :=
  @Build_SyncDriver memide_driver in_image memide_served.

End memide.

(** * The cache *)

Definition nodev : Z := 4294967295.

Definition key (q : buf_t) : Z * Z := (bdev q, blockno q).

(** The cache with the buffers [held] by the running process.  [cur] is the contents of every
    block as the kernel sees it and [dirt] the blocks whose buffers wait to be written. *)
Record cache (s : kernel) (held : list nat) (cur : Z * Z -> list Z) (dirt : gset (Z * Z)) : Prop := {
  ca_ring : exists l, ring (k_bcache s) l /\ l ≡ₚ seq 0 head;
  ca_held : NoDup held /\ Forall (fun b => (b < head)%nat) held;
  ca_uniq : forall b c, (b < head)%nat -> (c < head)%nat -> bdev (buf_of b s) <> nodev ->
    key (buf_of b s) = key (buf_of c s) -> b = c;
  ca_busy : forall b, (b < head)%nat -> busy (buf_of b s) = bool_decide (b ∈ held);
  ca_dirty : forall b, (b < head)%nat -> dirty (buf_of b s) = bool_decide (key (buf_of b s) ∈ dirt);
  ca_pinned : forall k, k ∈ dirt -> k.1 <> nodev /\ exists b, (b < head)%nat /\ key (buf_of b s) = k;
  ca_valid : forall b, (b < head)%nat -> valid (buf_of b s) = true -> bdata (buf_of b s) = cur (key (buf_of b s));
  ca_real : forall b, (b < head)%nat -> bdev (buf_of b s) <> nodev -> valid (buf_of b s) = true;
  ca_held_real : forall b, b ∈ held -> bdev (buf_of b s) <> nodev;
  ca_clean : forall k, k.1 <> nodev -> k ∉ dirt -> (forall b, b ∈ held -> key (buf_of b s) <> k) ->
    cur k = disk_read k.1 k.2 (k_disk s);
  ca_lock : ready L_bcache s;
  ca_ptable : ready L_ptable s /\ ptable_ok s
}.

(** A request of bio.c changes buffers, the disk and the processes that wait for a buffer. *)
Definition bio_only (s s' : kernel) : Prop :=
  exists bc d pt, s' = set_k_bcache bc (set_k_disk d (set_k_ptable pt s)) /\
    (ptable_ok s -> length pt = Z.to_nat NPROC).

Lemma bio_only_refl s : bio_only s s.
Proof. exists (k_bcache s), (k_disk s), (k_ptable s). split; [by destruct s|done]. Qed.

Lemma bio_only_trans s1 s2 s3 : bio_only s1 s2 -> bio_only s2 s3 -> bio_only s1 s3.
Proof.
  intros (bc & d & pt & -> & H1) (bc' & d' & pt' & -> & H2). exists bc', d', pt'. split; [done|].
  intros Hp. apply H2. by apply H1.
Qed.

(** Chains of such changes are found by [eauto with frame]. *)
Create HintDb frame.
#[export] Hint Resolve bio_only_refl : frame.
#[export] Hint Extern 8 (bio_only _ _) => eapply bio_only_trans; [eassumption|] : frame.

Lemma ca_length s held cur dirt : cache s held cur dirt -> length (k_bcache s) = S head.
Proof. intros Hc. destruct (ca_ring _ _ _ _ Hc) as (l & Hr & _). apply Hr. Qed.

Lemma in_ring s held cur dirt b l :
  cache s held cur dirt -> l ≡ₚ seq 0 head -> b ∈ l <-> (b < head)%nat.
Proof. intros _ ->. rewrite elem_of_seq. lia. Qed.

(** ** bget *)

Section bget.
Context `{Symbols} `{Driver}.

Lemma loop_env_first {X R} (body : X -> K (X + R)) x e s r e' s' :
  body x e s = Done (inr r) e' s' -> loop_env body x e s = Done r e' s'.
Proof. intros Hb. unfold loop_env. simpl. by erewrite bind_Done by exact Hb. Qed.

Lemma first_such_unique test l b :
  b ∈ l -> test b = true -> (forall c, c ∈ l -> test c = true -> c = b) -> first_such test l = Some b.
Proof.
  intros Hb Ht Hu. destruct (first_such test l) as [c|] eqn:E.
  - apply first_such_Some in E as [? ?]. f_equal. by apply Hu.
  - by rewrite (first_such_None _ _ E b Hb) in Ht.
Qed.

Definition same_key (dev bn : Z) (q : buf_t) : bool := (bdev q =? dev) && (blockno q =? bn).

Lemma same_key_eq dev bn q : same_key dev bn q = bool_decide (key q = (dev, bn)).
Proof. unfold same_key, key. case_bool_decide as E; [simplify_eq; lia|]. destruct (_ && _) eqn:E'; [|done].
  destruct E. f_equal; lia. Qed.

(** The block is cached and nobody uses it. *)
Lemma bget_cached s held cur dirt dev bn b e :
  cache s held cur dirt -> (b < head)%nat -> key (buf_of b s) = (dev, bn) -> dev <> nodev -> b ∉ held ->
  bget dev bn e s = Done b e (on_buf b (setflags B_BUSY) s).
Proof.
  intros Hc Hb Hk Hdev Hh. destruct (ca_ring _ _ _ _ Hc) as (l & Hr & Hp).
  unfold bget. erewrite bind_Done by (apply acquire_ready, (ca_lock _ _ _ _ Hc)).
  assert (Hs : search bnext (same_key dev bn) e (acquired L_bcache s) = Done (Some b) e (acquired L_bcache s)).
  { rewrite (search_forward _ _ _ l) by exact Hr. f_equal. apply first_such_unique.
    - by rewrite (in_ring s) by done.
    - rewrite same_key_eq. by apply bool_decide_eq_true.
    - intros c Hcl Ht. rewrite same_key_eq in Ht. apply bool_decide_eq_true in Ht.
      change (key (buf_of c s) = (dev, bn)) in Ht.
      rewrite (in_ring s) in Hcl by done. apply (ca_uniq _ _ _ _ Hc); [done|done| |congruence].
      unfold key in Ht. congruence. }
  apply loop_env_first. erewrite bind_Done by exact Hs.
  unfold bufget. erewrite bind_Done by done. change (buf_of b (acquired L_bcache s)) with (buf_of b s).
  rewrite (proj1 (test_busy _)), (ca_busy _ _ _ _ Hc b Hb), bool_decide_false by done. simpl.
  unfold bufset. erewrite bind_Done by done.
  by erewrite bind_Done by (apply (release_acquired L_bcache _ (on_buf b (setflags B_BUSY) s)); apply Hc).
Qed.

Definition recycled (dev bn : Z) (q : buf_t) : buf_t := set_bflags B_BUSY (set_blockno bn (set_bdev dev q)).

(** The two searches of [bget] when the block is not cached. *)
Lemma search_missing s held cur dirt dev bn e :
  cache s held cur dirt -> (forall b, (b < head)%nat -> key (buf_of b s) <> (dev, bn)) ->
  search bnext (same_key dev bn) e (acquired L_bcache s) = Done None e (acquired L_bcache s).
Proof.
  intros Hc Hk. destruct (ca_ring _ _ _ _ Hc) as (l & Hr & Hp).
  rewrite (search_forward _ _ _ l) by exact Hr. f_equal.
  destruct (first_such _ l) as [c|] eqn:E; [|done]. apply first_such_Some in E as [Hcl Ht].
  rewrite same_key_eq in Ht. apply bool_decide_eq_true in Ht.
  rewrite (in_ring s) in Hcl by done. by destruct (Hk c Hcl).
Qed.

Definition unused (q : buf_t) : bool := (Z.land (bflags q) B_BUSY =? 0) && (Z.land (bflags q) B_DIRTY =? 0).

Lemma unused_flags q : unused q = negb (busy q) && negb (dirty q).
Proof. unfold unused. by rewrite (proj2 (test_busy _)), (proj2 (test_dirty _)). Qed.

Lemma search_unused s held cur dirt e :
  cache s held cur dirt ->
  exists r, search bprev unused e (acquired L_bcache s) = Done r e (acquired L_bcache s) /\
    match r with
    | Some b => (b < head)%nat /\ busy (buf_of b s) = false /\ dirty (buf_of b s) = false
    | None => forall b, (b < head)%nat -> busy (buf_of b s) = true \/ dirty (buf_of b s) = true
    end.
Proof.
  intros Hc. destruct (ca_ring _ _ _ _ Hc) as (l & Hr & Hp).
  assert (Hin : forall c, c ∈ rev l <-> (c < head)%nat).
  { intros c. rewrite <- (in_ring s held cur dirt c l) by done. rewrite !list_elem_of_In, <- in_rev. done. }
  exists (first_such (fun b => unused (buf_of b s)) (rev l)).
  split; [by rewrite (search_backward _ _ _ l) by exact Hr|].
  destruct (first_such _ (rev l)) as [b|] eqn:E.
  - apply first_such_Some in E as [Hb Hf]. cbv beta in Hf. rewrite unused_flags in Hf. apply Hin in Hb.
    by apply andb_true_iff in Hf as [?%negb_true_iff ?%negb_true_iff].
  - intros b Hb. pose proof (first_such_None _ _ E b (proj2 (Hin b) Hb)) as Hf. cbv beta in Hf.
    rewrite unused_flags in Hf. destruct (busy _); [by left|]. destruct (dirty _); [by right|done].
Qed.

(** The block is not cached: the least recently used buffer that is neither in use nor dirty
    is taken for it. *)
Lemma bget_recycle s held cur dirt dev bn e :
  cache s held cur dirt -> (forall b, (b < head)%nat -> key (buf_of b s) <> (dev, bn)) ->
  (exists b, (b < head)%nat /\ busy (buf_of b s) = false /\ dirty (buf_of b s) = false) ->
  exists b, (b < head)%nat /\ busy (buf_of b s) = false /\ dirty (buf_of b s) = false /\
    bget dev bn e s = Done b e (on_buf b (recycled dev bn) s).
Proof.
  intros Hc Hk (b0 & Hb0 & Hbusy0 & Hdirty0).
  destruct (search_unused s held cur dirt e Hc) as ([b|] & Hs & Hr).
  2: { destruct (Hr b0 Hb0); congruence. }
  destruct Hr as (Hb & Hbb & Hbd). exists b. split_and!; [done..|].
  unfold bget. erewrite bind_Done by (apply acquire_ready, (ca_lock _ _ _ _ Hc)).
  apply loop_env_first. erewrite bind_Done by (by eapply search_missing). cbv beta iota.
  erewrite bind_Done by exact Hs. cbv beta iota.
  unfold bufset. do 3 (erewrite bind_Done by done). rewrite !on_buf_on_buf.
  by erewrite bind_Done by (apply (release_acquired L_bcache _ (on_buf b (recycled dev bn) s)); apply Hc).
Qed.

(** No buffer to take. *)
Lemma bget_exhausted s held cur dirt dev bn e :
  cache s held cur dirt -> (forall b, (b < head)%nat -> key (buf_of b s) <> (dev, bn)) ->
  (forall b, (b < head)%nat -> busy (buf_of b s) = true \/ dirty (buf_of b s) = true) ->
  bget dev bn e s = Panic "bget: no buffers" (acquired L_bcache s).
Proof.
  intros Hc Hk Hfull. destruct (search_unused s held cur dirt e Hc) as ([b|] & Hs & Hr).
  { destruct Hr as (Hb & Hbb & Hbd). destruct (Hfull b Hb); congruence. }
  unfold bget. erewrite bind_Done by (apply acquire_ready, (ca_lock _ _ _ _ Hc)).
  unfold loop_env. simpl. apply bind_Panic. erewrite bind_Done by (by eapply search_missing). cbv beta iota.
  by erewrite bind_Done by exact Hs.
Qed.

End bget.

(** ** How the cache changes *)

(** Buffer [b] is changed by [f], which leaves it valid and with a block of its own. *)
Lemma cache_update s held cur dirt b f d held' cur' dirt' :
  cache s held cur dirt -> (b < head)%nat ->
  (forall q, bnext (f q) = bnext q /\ bprev (f q) = bprev q) ->
  let q := f (buf_of b s) in
  (NoDup held' /\ Forall (fun b => (b < head)%nat) held') ->
  (forall c, c <> b -> c ∈ held' <-> c ∈ held) ->
  busy q = bool_decide (b ∈ held') -> dirty q = bool_decide (key q ∈ dirt') ->
  valid q = true -> bdev q <> nodev ->
  (forall c, (c < head)%nat -> c <> b -> key (buf_of c s) <> key q) ->
  (forall c, (c < head)%nat -> c <> b -> key (buf_of c s) ∈ dirt' <-> key (buf_of c s) ∈ dirt) ->
  (forall k, k ∈ dirt' -> k = key q \/ k ∈ dirt /\ k <> key (buf_of b s)) ->
  bdata q = cur' (key q) ->
  (forall k, k <> key q -> cur' k = cur k) ->
  (forall k, k.1 <> nodev -> k ∉ dirt' -> (b ∈ held' -> k <> key q) ->
     (forall c, c ∈ held -> c <> b -> key (buf_of c s) <> k) ->
     cur' k = disk_read k.1 k.2 d) ->
  cache (on_buf b f (set_k_disk d s)) held' cur' dirt'.
Proof.
  intros Hc Hb Hf q Hnd Hheld Hbusy Hdirty Hvalid Hdev Hkey Hdirt Hnew Hdata Hcur Hclean.
  pose proof (ca_length _ _ _ _ Hc) as Hlen.
  set (s' := on_buf b f (set_k_disk d s)).
  assert (Hbb : buf_of b s' = q). { apply (buf_of_on_buf b f (set_k_disk d s)). simpl. lia. }
  assert (Hbc : forall c, c <> b -> buf_of c s' = buf_of c s).
  { intros c Hne. by apply (buf_of_on_buf_ne b c f (set_k_disk d s)). }
  split; try apply Hc.
  - destruct (ca_ring _ _ _ _ Hc) as (l & Hr & Hp). exists l. split; [by apply ring_alter|done].
  - exact Hnd.
  - intros c1 c2 H1 H2. destruct (decide (c1 = b)) as [->|N1], (decide (c2 = b)) as [->|N2];
      rewrite ?Hbb, ?Hbc by done; intros Hd E; [done|..].
    + by destruct (Hkey c2 H2 N2).
    + by destruct (Hkey c1 H1 N1).
    + by apply (ca_uniq _ _ _ _ Hc).
  - intros c Hcl. destruct (decide (c = b)) as [->|N]; [by rewrite Hbb|]. rewrite Hbc by done.
    rewrite (ca_busy _ _ _ _ Hc c Hcl). apply bool_decide_ext. by rewrite Hheld.
  - intros c Hcl. destruct (decide (c = b)) as [->|N]; [by rewrite Hbb|]. rewrite Hbc by done.
    rewrite (ca_dirty _ _ _ _ Hc c Hcl). apply bool_decide_ext. by rewrite Hdirt.
  - intros k Hk. destruct (Hnew k Hk) as [->|[Hk' Hne]].
    + split; [done|]. exists b. by rewrite Hbb.
    + destruct (ca_pinned _ _ _ _ Hc k Hk') as (Hkd & c & Hcl & Hck). split; [done|].
      exists c. rewrite Hbc by congruence. done.
  - intros c Hcl. destruct (decide (c = b)) as [->|N]; [by rewrite Hbb|]. rewrite Hbc by done.
    intros Hv. rewrite Hcur by (by apply Hkey). by apply (ca_valid _ _ _ _ Hc).
  - intros c Hcl. destruct (decide (c = b)) as [->|N]; [by rewrite Hbb|]. rewrite Hbc by done.
    by apply (ca_real _ _ _ _ Hc).
  - intros c Hcl. destruct (decide (c = b)) as [->|N]; [by rewrite Hbb|]. rewrite Hbc by done.
    apply (ca_held_real _ _ _ _ Hc). by apply Hheld.
  - intros k Hk Hkd Hkh. apply (Hclean k Hk Hkd).
    + intros Hbh E. apply (Hkh b Hbh). by rewrite Hbb.
    + intros c Hch Hne. rewrite <- Hbc by done. apply Hkh. by apply Hheld.
Qed.

Lemma held_range s held cur dirt b : cache s held cur dirt -> b ∈ held -> (b < head)%nat.
Proof. intros Hc Hb. destruct (ca_held _ _ _ _ Hc) as [_ Hr]. rewrite Forall_forall in Hr. by apply Hr. Qed.

Lemma held_data s held cur dirt b :
  cache s held cur dirt -> b ∈ held -> bdata (buf_of b s) = cur (key (buf_of b s)).
Proof.
  intros Hc Hb. pose proof (held_range _ _ _ _ _ Hc Hb). apply (ca_valid _ _ _ _ Hc); [done|].
  apply (ca_real _ _ _ _ Hc); [done|]. by apply (ca_held_real _ _ _ _ Hc).
Qed.

(** There is a buffer to recycle unless all are in use or dirty. *)
Lemma free_buffer s held cur dirt :
  cache s held cur dirt -> (size dirt + length held < head)%nat ->
  exists b, (b < head)%nat /\ busy (buf_of b s) = false /\ dirty (buf_of b s) = false.
Proof.
  intros Hc Hsz. destruct (decide (Exists (fun b => busy (buf_of b s) = false /\ dirty (buf_of b s) = false) (seq 0 head)))
    as [He|Hne].
  { apply Exists_exists in He as (b & Hb%elem_of_seq & ?). exists b. split; [lia|done]. }
  exfalso. set (D := filter (fun b => dirty (buf_of b s) = true) (seq 0 head)).
  assert (HD : (length D <= size dirt)%nat).
  { unfold size, set_size. rewrite <- (length_fmap (fun b => key (buf_of b s)) D).
    apply submseteq_length, NoDup_submseteq.
    - apply NoDup_fmap_2_strong; [|apply NoDup_filter, NoDup_seq].
      intros x y [Hx1 Hx2%elem_of_seq]%list_elem_of_filter [Hy1 Hy2%elem_of_seq]%list_elem_of_filter E.
      apply (ca_uniq _ _ _ _ Hc); [lia|lia| |done].
      rewrite (ca_dirty _ _ _ _ Hc) in Hx1 by lia. apply bool_decide_eq_true in Hx1.
      by destruct (ca_pinned _ _ _ _ Hc _ Hx1).
    - intros k (x & -> & [Hx1 Hx2%elem_of_seq]%list_elem_of_filter)%list_elem_of_fmap.
      rewrite (ca_dirty _ _ _ _ Hc) in Hx1 by lia. apply bool_decide_eq_true in Hx1.
      by apply elem_of_elements. }
  assert (Hall : (length (seq 0 head) <= length (held ++ D))%nat).
  { apply submseteq_length, NoDup_submseteq; [apply NoDup_seq|]. intros b Hb.
    pose proof Hb as Hb'%elem_of_seq. apply elem_of_app.
    destruct (busy (buf_of b s)) eqn:E1.
    - left. rewrite (ca_busy _ _ _ _ Hc) in E1 by lia. by apply bool_decide_eq_true in E1.
    - right. apply list_elem_of_filter. split; [|done].
      destruct (dirty (buf_of b s)) eqn:E2; [done|]. destruct Hne. apply Exists_exists. by exists b. }
  rewrite length_app, length_seq in Hall. lia.
Qed.

Lemma set_k_disk_id s : set_k_disk (k_disk s) s = s.
Proof. by destruct s. Qed.

Lemma busy_set f q : busy (setflags f q) = busy q || Z.testbit f 0.
Proof. by apply setflags_bits. Qed.
Lemma valid_set f q : valid (setflags f q) = valid q || Z.testbit f 1.
Proof. by apply setflags_bits. Qed.
Lemma dirty_set f q : dirty (setflags f q) = dirty q || Z.testbit f 2.
Proof. by apply setflags_bits. Qed.

(** Keys of different buffers differ. *)
Lemma key_other s held cur dirt b c :
  cache s held cur dirt -> (b < head)%nat -> bdev (buf_of b s) <> nodev -> (c < head)%nat -> c <> b ->
  key (buf_of c s) <> key (buf_of b s).
Proof. intros Hc Hb Hd Hcl Hne E. apply Hne. symmetry. by apply (ca_uniq _ _ _ _ Hc). Qed.

Lemma cache_hold s held cur dirt b :
  cache s held cur dirt -> (b < head)%nat -> bdev (buf_of b s) <> nodev -> b ∉ held ->
  cache (on_buf b (setflags B_BUSY) s) (b :: held) cur dirt.
Proof.
  intros Hc Hb Hd Hh. rewrite <- (set_k_disk_id s). destruct (ca_held _ _ _ _ Hc) as [Hnd Hr].
  eapply (cache_update s held cur dirt b); [done|done|done|..].
  - split; [by apply NoDup_cons|by apply Forall_cons].
  - intros c Hne. set_solver.
  - rewrite busy_set, orb_true_r. symmetry. apply bool_decide_eq_true. by left.
  - rewrite dirty_set, orb_false_r. by apply (ca_dirty _ _ _ _ Hc).
  - rewrite valid_set. by rewrite (ca_real _ _ _ _ Hc b Hb Hd).
  - done.
  - intros c Hcl Hne. by apply (key_other s held cur dirt b).
  - done.
  - intros k Hk. destruct (decide (k = key (buf_of b s))) as [->|]; [by left|by right].
  - apply (ca_valid _ _ _ _ Hc); [done|]. by apply (ca_real _ _ _ _ Hc).
  - done.
  - intros k Hk Hkd Hkb Hkh. apply (ca_clean _ _ _ _ Hc); [done|done|].
    intros c Hch. apply Hkh; [done|]. congruence.
Qed.

(** A recycled buffer with the contents of the disk. *)
Lemma cache_recycle s held cur dirt b f dev bn :
  cache s held cur dirt -> (b < head)%nat -> busy (buf_of b s) = false -> dirty (buf_of b s) = false ->
  dev <> nodev -> (forall c, (c < head)%nat -> key (buf_of c s) <> (dev, bn)) ->
  (forall q, bnext (f q) = bnext q /\ bprev (f q) = bprev q) ->
  let q := f (buf_of b s) in
  key q = (dev, bn) -> bdata q = disk_read dev bn (k_disk s) ->
  busy q = true -> valid q = true -> dirty q = false ->
  cache (on_buf b f s) (b :: held) cur dirt.
Proof.
  intros Hc Hb Hbusy Hdirty Hd Hk Hf q Hkq Hdq Hbq Hvq Hrq. rewrite <- (set_k_disk_id s).
  destruct (ca_held _ _ _ _ Hc) as [Hnd Hr].
  assert (Hh : b ∉ held). { rewrite (ca_busy _ _ _ _ Hc b Hb) in Hbusy. by apply bool_decide_eq_false in Hbusy. }
  assert (Hkd : (dev, bn) ∉ dirt).
  { intros Hin. destruct (ca_pinned _ _ _ _ Hc _ Hin) as (_ & c & Hcl & Hck). by apply (Hk c). }
  eapply (cache_update s held cur dirt b); [done|done|done|..]; fold q.
  - split; [by apply NoDup_cons|by apply Forall_cons].
  - intros c Hne. set_solver.
  - rewrite Hbq. symmetry. apply bool_decide_eq_true. by left.
  - rewrite Hrq, Hkq. symmetry. by apply bool_decide_eq_false.
  - done.
  - unfold key in Hkq. congruence.
  - intros c Hcl Hne. rewrite Hkq. by apply Hk.
  - done.
  - intros k Hkin. right. split; [done|]. intros ->.
    rewrite (ca_dirty _ _ _ _ Hc b Hb) in Hdirty. by apply bool_decide_eq_false in Hdirty.
  - rewrite Hdq, Hkq. symmetry. apply (ca_clean _ _ _ _ Hc (dev, bn)); [done|done|].
    intros c Hch. apply Hk. by eapply held_range.
  - done.
  - intros k Hkn Hkdn Hkb Hkh. apply (ca_clean _ _ _ _ Hc); [done|done|].
    intros c Hch. apply Hkh; [done|]. congruence.
Qed.

Definition upd_cur (k : Z * Z) (d : list Z) (cur : Z * Z -> list Z) : Z * Z -> list Z :=
  fun k' => if decide (k' = k) then d else cur k'.

Lemma held_upd s held cur dirt b : cache s held cur dirt -> b ∈ held ->
  (b < head)%nat /\ bdev (buf_of b s) <> nodev /\ valid (buf_of b s) = true /\ busy (buf_of b s) = true.
Proof.
  intros Hc Hb. pose proof (held_range _ _ _ _ _ Hc Hb) as Hr.
  pose proof (ca_held_real _ _ _ _ Hc b Hb) as Hd. split_and!; [done|done|by apply (ca_real _ _ _ _ Hc)|].
  rewrite (ca_busy _ _ _ _ Hc b Hr). by apply bool_decide_eq_true.
Qed.

(** The holder of a buffer changes its contents. *)
Lemma cache_store s held cur dirt b d :
  cache s held cur dirt -> b ∈ held ->
  cache (on_buf b (set_bdata d) s) held (upd_cur (key (buf_of b s)) d cur) dirt.
Proof.
  intros Hc Hb. destruct (held_upd _ _ _ _ _ Hc Hb) as (Hr & Hd & Hv & Hbz). rewrite <- (set_k_disk_id s).
  eapply (cache_update s held cur dirt b); [done|done|done|apply Hc|done|..].
  - by apply (ca_busy _ _ _ _ Hc).
  - by apply (ca_dirty _ _ _ _ Hc).
  - done.
  - done.
  - intros c Hcl Hne. by apply (key_other s held cur dirt b).
  - done.
  - intros k Hk. destruct (decide (k = key (buf_of b s))) as [->|]; [by left|by right].
  - unfold upd_cur. by rewrite decide_True.
  - intros k Hk. unfold upd_cur. rewrite decide_False; [done|exact Hk].
  - intros k Hk Hkd Hkb Hkh. unfold upd_cur. rewrite decide_False by (by apply Hkb).
    apply (ca_clean _ _ _ _ Hc); [done|done|]. intros c Hch.
    destruct (decide (c = b)) as [->|Hne]; [|by apply Hkh]. intros E. by apply (Hkb Hb).
Qed.

(** The holder marks a buffer dirty. *)
Lemma cache_mark s held cur dirt b :
  cache s held cur dirt -> b ∈ held ->
  cache (on_buf b (setflags B_DIRTY) s) held cur (dirt ∪ {[key (buf_of b s)]}).
Proof.
  intros Hc Hb. destruct (held_upd _ _ _ _ _ Hc Hb) as (Hr & Hd & Hv & Hbz). rewrite <- (set_k_disk_id s).
  eapply (cache_update s held cur dirt b); [done|done|done|apply Hc|done|..].
  - rewrite busy_set, orb_false_r. by apply (ca_busy _ _ _ _ Hc).
  - rewrite dirty_set, orb_true_r. symmetry. apply bool_decide_eq_true. set_solver.
  - rewrite valid_set, orb_false_r. done.
  - done.
  - intros c Hcl Hne. by apply (key_other s held cur dirt b).
  - intros c Hcl Hne. pose proof (key_other s held cur dirt b c Hc Hr Hd Hcl Hne). set_solver.
  - intros k Hk. destruct (decide (k = key (buf_of b s))) as [->|]; [by left|]. right. set_solver.
  - by eapply held_data.
  - done.
  - intros k Hk Hkd Hkb Hkh. apply (ca_clean _ _ _ _ Hc); [done|set_solver|]. intros c Hch.
    destruct (decide (c = b)) as [->|Hne]; [|by apply Hkh]. intros E. by apply (Hkb Hb).
Qed.

(** * The operations *)

Section ops.
Context `{Symbols} `{Driver} {Hdrv : SyncDriver}.

Lemma bread_cached s held cur dirt dev bn b e :
  cache s held cur dirt -> (b < head)%nat -> key (buf_of b s) = (dev, bn) -> dev <> nodev -> b ∉ held ->
  let s' := on_buf b (setflags B_BUSY) s in
  bread dev bn e s = Done b e s' /\ cache s' (b :: held) cur dirt.
Proof.
  intros Hc Hb Hk Hdev Hh s'. pose proof (ca_length _ _ _ _ Hc) as Hlen.
  assert (Hd : bdev (buf_of b s) <> nodev) by (unfold key in Hk; congruence).
  pose proof (ca_real _ _ _ _ Hc b Hb Hd) as Hv. split.
  - unfold bread. erewrite bind_Done by (by eapply bget_cached).
    unfold bufget. erewrite bind_Done by done. rewrite buf_of_on_buf by lia.
    rewrite test_valid. unfold valid. rewrite setflags_bits by lia. unfold valid in Hv. rewrite Hv. done.
  - by apply cache_hold.
Qed.

(** [bread] returns the buffer of the block, held, with the current contents of the block. *)
Lemma wp_bread s held cur dirt dev bn e (Q : nat -> env kernel -> kernel -> Prop) :
  cache s held cur dirt -> dev <> nodev -> serves dev bn ->
  (forall c, c ∈ held -> key (buf_of c s) <> (dev, bn)) ->
  (dev, bn) ∈ dirt \/ (size dirt + length held < head)%nat ->
  (forall b s', b ∉ held -> cache s' (b :: held) cur dirt -> key (buf_of b s') = (dev, bn) ->
     (forall c, c ∈ held -> buf_of c s' = buf_of c s) -> k_disk s' = k_disk s -> bio_only s s' ->
     Q b e s') ->
  wp (bread dev bn) Q e s.
Proof.
  intros Hc Hdev Hsv Hkh Hsz HQ. pose proof (ca_length _ _ _ _ Hc) as Hlen.
  assert (Honly : forall b f, bio_only s (on_buf b f s)).
  { intros b f. exists (alter f b (k_bcache s)), (k_disk s), (k_ptable s). split; [by destruct s|done]. }
  destruct (decide (Exists (fun b => key (buf_of b s) = (dev, bn)) (seq 0 head))) as [He|Hne].
  - apply Exists_exists in He as (b & Hb%elem_of_seq & Hk).
    assert (Hbh : b ∉ held) by (intros Hin; by apply (Hkh b)).
    destruct (bread_cached s held cur dirt dev bn b e) as [Heq Hc']; [done|lia|done..|].
    eapply wp_intro; [exact Heq|]. apply HQ; try done.
    + by rewrite buf_of_on_buf by lia.
    + intros c Hch. apply buf_of_on_buf_ne. congruence.
  - assert (Hk : forall b, (b < head)%nat -> key (buf_of b s) <> (dev, bn)).
    { intros b Hb E. apply Hne, Exists_exists. exists b. split; [apply elem_of_seq; lia|done]. }
    assert (Hsz' : (size dirt + length held < head)%nat).
    { destruct Hsz as [Hin|?]; [|done]. destruct (ca_pinned _ _ _ _ Hc _ Hin) as (_ & b & Hb & E).
      by destruct (Hk b Hb). }
    destruct (bget_recycle s held cur dirt dev bn e Hc Hk (free_buffer _ _ _ _ Hc Hsz'))
      as (b & Hb & Hbz & Hdt & Heq).
    set (s1 := on_buf b (recycled dev bn) s).
    assert (Hq1 : buf_of b s1 = recycled dev bn (buf_of b s)) by (apply buf_of_on_buf; lia).
    assert (Hs : iderw b e s1 = Done tt e (served b s1)).
    { apply iderw_served; rewrite ?Hq1; try done. unfold s1, on_buf. simpl. rewrite length_alter. lia. }
    unfold bread. apply wp_bind. eapply wp_intro; [exact Heq|]. fold s1.
    unfold bufget. apply wp_bind, wp_get. rewrite test_valid, Hq1. simpl negb. cbv iota.
    apply wp_bind. unfold when. eapply wp_intro; [exact Hs|]. apply wp_ret.
    unfold served. rewrite Hq1. change (dirty (recycled dev bn (buf_of b s))) with false. cbv iota.
    change (k_disk s1) with (k_disk s). unfold s1. rewrite on_buf_on_buf.
    set (f := _ ∘ _).
    assert (Hh : b ∉ held).
    { rewrite (ca_busy _ _ _ _ Hc b Hb) in Hbz. by apply bool_decide_eq_false in Hbz. }
    apply HQ; try done.
    + by apply (cache_recycle s held cur dirt b f dev bn).
    + by rewrite buf_of_on_buf by lia.
    + intros c Hch. apply buf_of_on_buf_ne. congruence.
Qed.

(** [bwrite] of a held buffer puts its contents on the disk. *)
Lemma wp_bwrite s held cur dirt b e (Q : unit -> env kernel -> kernel -> Prop) :
  cache s held cur dirt -> b ∈ held -> serves (bdev (buf_of b s)) (blockno (buf_of b s)) ->
  (forall s', cache s' held cur (dirt ∖ {[key (buf_of b s)]}) ->
     (forall c, key (buf_of c s') = key (buf_of c s)) ->
     k_disk s' = disk_write (bdev (buf_of b s)) (blockno (buf_of b s)) (cur (key (buf_of b s))) (k_disk s) ->
     bio_only s s' -> Q tt e s') ->
  wp (bwrite b) Q e s.
Proof.
  intros Hc Hb Hsv HQ. pose proof (ca_length _ _ _ _ Hc) as Hlen.
  destruct (held_upd _ _ _ _ _ Hc Hb) as (Hr & Hd & Hv & Hbz).
  pose proof (held_data _ _ _ _ _ Hc Hb) as Hdata.
  set (q := buf_of b s) in *. set (s1 := on_buf b (setflags B_DIRTY) s).
  assert (Hq1 : buf_of b s1 = setflags B_DIRTY q) by (apply buf_of_on_buf; lia).
  assert (Hdy : dirty (setflags B_DIRTY q) = true) by (by rewrite dirty_set, orb_true_r).
  assert (Hs : iderw b e s1 = Done tt e (served b s1)).
  { apply iderw_served; rewrite ?Hq1; try done.
    - unfold s1, on_buf. simpl. rewrite length_alter. lia.
    - by rewrite busy_set, Hbz.
    - by rewrite Hdy, andb_false_r. }
  unfold bwrite, bufget. apply wp_bind, wp_get. rewrite (proj2 (test_busy _)). fold q. rewrite Hbz. simpl negb.
  cbv iota. apply wp_bind, wp_modify. fold s1. eapply wp_intro; [exact Hs|].
  unfold served. rewrite Hq1, Hdy.
  set (d := disk_write _ _ _ _). set (fl := served_flags _).
  assert (on_buf b (set_bflags fl) (set_k_disk d s1) = on_buf b (set_bflags fl) (set_k_disk d s)) as ->.
  { unfold s1, on_buf. simpl. by rewrite list_alter_alter_eq. }
  assert (Hfl : forall n, 0 <= n -> Z.testbit fl n = (n =? 1) || (Z.testbit (bflags q) n && negb (n =? 2))).
  { intros n Hn. unfold fl, served_flags. rewrite Z.lor_spec, Z.land_spec, Z.lnot_spec by done.
    rewrite setflags_bits by done. change B_DIRTY with (2 ^ 2). change B_VALID with (2 ^ 1).
    rewrite !Z.pow2_bits_eqb by lia. rewrite (Z.eqb_sym 2), (Z.eqb_sym 1).
    destruct (n =? 1), (n =? 2), (Z.testbit (bflags q) n); done. }
  assert (Hd' : d = disk_write (bdev q) (blockno q) (cur (key q)) (k_disk s)).
  { unfold d. simpl. by rewrite Hdata. }
  assert (Hk : forall c, key (buf_of c (on_buf b (set_bflags fl) (set_k_disk d s))) = key (buf_of c s)).
  { intros c. unfold buf_of, on_buf. simpl. by apply (alter_field key). }
  apply HQ; [|exact Hk|exact Hd'|].
  2: { exists (alter (set_bflags fl) b (k_bcache s)), d, (k_ptable s). split; [by destruct s|done]. }
  eapply (cache_update s held cur dirt b); [done|done|done|apply Hc|done|..]; fold q.
  - change (busy (set_bflags fl q)) with (Z.testbit fl 0). rewrite Hfl by lia.
    change ((0 =? 1) || _) with (busy q && true). rewrite andb_true_r.
    apply (ca_busy _ _ _ _ Hc b Hr).
  - change (dirty (set_bflags fl q)) with (Z.testbit fl 2). rewrite Hfl, andb_false_r by lia. symmetry.
    apply bool_decide_eq_false. change (key (set_bflags fl q)) with (key q). set_solver.
  - change (valid (set_bflags fl q)) with (Z.testbit fl 1). by rewrite Hfl by lia.
  - done.
  - intros c Hcl Hne. by apply (key_other s held cur dirt b).
  - intros c Hcl Hne. pose proof (key_other s held cur dirt b c Hc Hr Hd Hcl Hne). fold q in H0. set_solver.
  - intros k Hkd. right. set_solver.
  - exact Hdata.
  - done.
  - intros k Hk0 Hkd Hkb Hkh. rewrite Hd'. unfold disk_read, disk_write. simpl.
    destruct (decide (k = key q)) as [->|Hne]; [by destruct Hkb|].
    rewrite lookup_insert_ne; [|destruct k; unfold key in Hne; simpl in *; congruence].
    apply (ca_clean _ _ _ _ Hc); [done|set_solver|]. intros c Hch.
    destruct (decide (c = b)) as [->|Hne']; [|by apply Hkh]. intros E. by apply Hne.
Qed.

End ops.

(** ** brelse *)

Lemma moved_field {A} (g : buf_t -> A) b bs c :
  (forall q y, g (set_bnext y q) = g q) -> (forall q y, g (set_bprev y q) = g q) ->
  g (default zero_buf (push b (unlink b bs) !! c)) = g (default zero_buf (bs !! c)).
Proof.
  intros H1 H2. unfold push, unlink, set_nx, set_pv. by rewrite !(alter_field g).
Qed.

(** The state after [brelse b], before the sleepers are woken. *)
Definition released (b : nat) (s : kernel) : kernel :=
  on_buf b (clrflags B_BUSY) (set_k_bcache (push b (unlink b (k_bcache s))) s).

Lemma brelse_eq `{Symbols} b e s :
  ready L_bcache s -> ready L_ptable s -> ptable_ok s -> busy (buf_of b s) = true ->
  brelse b e s = Done tt e (woken (Some (CH_buf b)) (released b s)).
Proof.
  intros Hl Hpt Hpok Hb. unfold brelse, bufget. erewrite bind_Done by done.
  rewrite (proj2 (test_busy _)), Hb. cbn [negb]. cbv iota.
  erewrite bind_Done by (by apply acquire_ready).
  unfold push_front, bufset, bufget. do 6 (erewrite bind_Done by done).
  erewrite bind_Done by (do 4 (erewrite bind_Done by done); done).
  erewrite bind_Done by done.
  set (s1 := on_buf b (clrflags B_BUSY) _).
  assert (s1 = acquired L_bcache (released b s)) as ->.
  { unfold s1, released, on_buf. done. }
  erewrite bind_Done.
  2: { apply wakeup_eq; [|done]. by apply ready_acquired. }
  by apply (release_acquired L_bcache e (woken (Some (CH_buf b)) (released b s))).
Qed.

(** Releasing a held buffer whose contents are on the disk or pinned. *)
Lemma cache_release s held held' cur dirt b :
  cache s held cur dirt -> held ≡ₚ b :: held' ->
  key (buf_of b s) ∈ dirt \/ cur (key (buf_of b s)) = disk_read (bdev (buf_of b s)) (blockno (buf_of b s)) (k_disk s) ->
  let s' := woken (Some (CH_buf b)) (released b s) in
  cache s' held' cur dirt /\ (forall c, key (buf_of c s') = key (buf_of c s)).
Proof.
  intros Hc Hp Hw s'. pose proof (ca_length _ _ _ _ Hc) as Hlen.
  assert (Hb : b ∈ held) by (rewrite Hp; by left).
  pose proof (held_range _ _ _ _ _ Hc Hb) as Hbr.
  destruct (ca_held _ _ _ _ Hc) as [Hnd Hr]. rewrite Hp in Hnd. apply NoDup_cons in Hnd as [Hbn Hnd].
  assert (Hg : forall {A} (g : buf_t -> A) c, (forall q y, g (set_bnext y q) = g q) ->
    (forall q y, g (set_bprev y q) = g q) -> (forall q, g (clrflags B_BUSY q) = g q) ->
    g (buf_of c s') = g (buf_of c s)).
  { intros A g c H1 H2 H3. unfold buf_of at 1. simpl. rewrite (alter_field g) by done.
    by apply moved_field. }
  assert (Hkey : forall c, key (buf_of c s') = key (buf_of c s)) by (intros c; by apply Hg).
  assert (Hdata : forall c, bdata (buf_of c s') = bdata (buf_of c s)) by (intros c; by apply Hg).
  assert (Hvd : forall c, valid (buf_of c s') = valid (buf_of c s) /\ dirty (buf_of c s') = dirty (buf_of c s)).
  { intros c. split; apply Hg; try done; intros q; unfold valid, dirty; rewrite clrflags_bits by lia;
      by rewrite andb_true_r. }
  assert (Hfl : forall c, bflags (default zero_buf (push b (unlink b (k_bcache s)) !! c)) = bflags (buf_of c s))
    by (intros c; by apply (moved_field bflags)).
  assert (Hbusy : forall c, (c < head)%nat -> busy (buf_of c s') = bool_decide (c ∈ held')).
  { intros c Hcl. destruct (ca_ring _ _ _ _ Hc) as (l & Hring & _).
    destruct (decide (c = b)) as [->|Hne].
    - rewrite bool_decide_false by done. unfold s', buf_of. simpl. rewrite list_lookup_alter_eq.
      destruct (push b (unlink b (k_bcache s)) !! b) as [q|]; simpl; [|done].
      unfold busy. rewrite clrflags_bits by lia. by rewrite andb_false_r.
    - transitivity (busy (buf_of c s)).
      + unfold s', buf_of at 1. simpl. rewrite list_lookup_alter_ne by done. unfold busy. by rewrite Hfl.
      + rewrite (ca_busy _ _ _ _ Hc c Hcl). apply bool_decide_ext. rewrite Hp. set_solver. }
  split; [|exact Hkey]. split.
  - destruct (ca_ring _ _ _ _ Hc) as (l & Hring & Hl).
    assert (Hbl : b ∈ l) by (by eapply in_ring). apply list_elem_of_split in Hbl as (l1 & l2 & ->).
    exists (b :: l1 ++ l2). split; [|rewrite <- Hl; by rewrite Permutation_middle].
    apply ring_alter; [done|]. by apply ring_move.
  - split; [done|]. rewrite Hp in Hr. by apply Forall_cons in Hr as [_ Hr].
  - intros c1 c2 H1 H2 Hd E. rewrite !Hkey in E. apply (ca_uniq _ _ _ _ Hc); [done..| |done].
    pose proof (f_equal fst (Hkey c1)) as Hk1. simpl in Hk1. by rewrite <- Hk1.
  - exact Hbusy.
  - intros c Hcl. rewrite Hkey, (proj2 (Hvd c)). by apply (ca_dirty _ _ _ _ Hc).
  - intros k Hk. destruct (ca_pinned _ _ _ _ Hc k Hk) as (Hkd & c & Hcl & Hck). split; [done|].
    exists c. by rewrite Hkey.
  - intros c Hcl. rewrite Hkey, Hdata, (proj1 (Hvd c)). by apply (ca_valid _ _ _ _ Hc).
  - intros c Hcl Hd. rewrite (proj1 (Hvd c)). apply (ca_real _ _ _ _ Hc); [done|].
    pose proof (f_equal fst (Hkey c)) as Hk1. simpl in Hk1. by rewrite <- Hk1.
  - intros c Hch. pose proof (f_equal fst (Hkey c)) as Hk1. simpl in Hk1. rewrite Hk1.
    apply (ca_held_real _ _ _ _ Hc). rewrite Hp. by right.
  - intros k Hk Hkd Hkh. destruct (decide (k = key (buf_of b s))) as [->|Hne].
    + by destruct Hw.
    + apply (ca_clean _ _ _ _ Hc); [done..|]. intros c Hch. rewrite Hp in Hch.
      apply elem_of_cons in Hch as [->|Hch]; [congruence|]. rewrite <- Hkey. by apply Hkh.
  - apply Hc.
  - split; [apply Hc|]. unfold ptable_ok, s', woken. simpl. rewrite length_fmap.
    by destruct (ca_ptable _ _ _ _ Hc).
Qed.

Lemma wp_brelse `{Symbols} s held held' cur dirt b e (Q : unit -> env kernel -> kernel -> Prop) :
  cache s held cur dirt -> held ≡ₚ b :: held' ->
  key (buf_of b s) ∈ dirt \/ cur (key (buf_of b s)) = disk_read (bdev (buf_of b s)) (blockno (buf_of b s)) (k_disk s) ->
  (forall s', cache s' held' cur dirt -> (forall c, key (buf_of c s') = key (buf_of c s)) ->
     k_disk s' = k_disk s -> bio_only s s' -> Q tt e s') ->
  wp (brelse b) Q e s.
Proof.
  intros Hc Hp Hw HQ. destruct (ca_ptable _ _ _ _ Hc) as [Hpt Hpok].
  assert (Hb : b ∈ held) by (rewrite Hp; by left).
  eapply wp_intro; [apply brelse_eq; [apply Hc|done|done|]|].
  { by destruct (held_upd _ _ _ _ _ Hc Hb) as (_ & _ & _ & ?). }
  destruct (cache_release s held held' cur dirt b Hc Hp Hw) as [Hc' Hk].
  apply HQ; [done|done|done|]. do 3 eexists. split; [by destruct s|].
  intros _. rewrite length_fmap. exact Hpok.
Qed.
