(* ===== verification/BioProps.v ===== *)
(** What the operations of bio.c promise their callers, from [binit] on. *)

From S2P Require Import Prelude Params Mem State Spinlock Console Kalloc Vm VmTables VmSpace VmAlloc.
From S2P Require Import VmCopy Proc ProcSpec Ide Bio BioRing BioSpec.

(** * binit *)

Section binit.
Context `{Symbols}.

(** The buffers after [binit] linked the first ones of them, which are [l]. *)
Record building (bs : list buf_t) (l : list nat) : Prop := {
  bu_ring : ring bs l;
  bu_flags : forall b, bflags (default zero_buf (bs !! b)) = 0;
  bu_dev : forall b, b ∈ l -> bdev (default zero_buf (bs !! b)) = nodev
}.

(** One round of the loop of [binit]. *)
Definition linked_in (b : nat) (bs : list buf_t) : list buf_t :=
  let n := nx bs head in
  set_nx head b (set_pv n b (alter (set_bdev (u32 (-1))) b (set_pv b head (set_nx b n bs)))).

Lemma linked_in_push bs l b :
  ring bs l -> b ∉ l -> (b < head)%nat -> linked_in b bs = alter (set_bdev (u32 (-1))) b (push b bs).
Proof.
  intros Hr Hb Hbr. unfold linked_in, push.
  assert (Hn : nx bs head <> b).
  { destruct Hr as [_ _ _ Hl]. rewrite links_head in Hl. apply Forall_cons in Hl as [[Hh _] _]. simpl in Hh. rewrite Hh.
    destruct l as [|x l]; simpl; [lia|]. intros ->. apply Hb. by left. }
  unfold set_nx, set_pv. rewrite (list_alter_alter_ne _ _ _ b head) by lia.
  by rewrite (list_alter_alter_ne _ _ _ b (nx bs head)) by done.
Qed.

Lemma building_step bs l b :
  building bs l -> b ∉ l -> (b < head)%nat -> building (linked_in b bs) (b :: l).
Proof.
  intros [Hr Hf Hd] Hb Hbr. rewrite (linked_in_push bs l) by done.
  assert (Hg : forall {A} (g : buf_t -> A) c, (forall q y, g (set_bnext y q) = g q) ->
    (forall q y, g (set_bprev y q) = g q) ->
    g (default zero_buf (push b bs !! c)) = g (default zero_buf (bs !! c))).
  { intros A g c H1 H2. unfold push, set_nx, set_pv. by rewrite !(alter_field g) by done. }
  split.
  - apply ring_alter; [done|]. by apply ring_push.
  - intros c. rewrite (alter_field bflags) by done. by rewrite Hg.
  - intros c Hc. destruct (decide (c = b)) as [->|Hne].
    + rewrite list_lookup_alter_eq. destruct (push b bs !! b) eqn:E; [done|].
      apply lookup_ge_None in E. pose proof (rg_len _ _ (ring_push _ _ _ Hr Hb Hbr)). lia.
    + rewrite list_lookup_alter_ne, Hg by done. apply Hd. set_solver.
Qed.

Lemma wp_binit s e (Q : unit -> env kernel -> kernel -> Prop) :
  length (k_bcache s) = S head -> (forall b, bflags (buf_of b s) = 0) ->
  (forall bs l, building bs l -> l ≡ₚ seq 0 head ->
     Q tt e (set_k_bcache bs (set_lock L_bcache (mkLock 0 "bcache" None) s))) ->
  wp binit Q e s.
Proof.
  intros Hlen Hfl HQ. set (s1 := set_lock L_bcache (mkLock 0 "bcache" None) s).
  unfold binit, initlock, bufset, bufget. do 3 (apply wp_bind, wp_modify). fold s1. apply wp_bind.
  apply (wp_for_each (fun l e' s' => e' = e /\ exists i bs, (i <= head)%nat /\ l = seq i (head - i) /\
    s' = set_k_bcache bs s1 /\ building bs (rev (seq 0 i)))).
  - split; [done|]. exists 0%nat, (set_nx head head (set_pv head head (k_bcache s))). split; [lia|].
    split; [done|]. split; [done|]. split.
    + split; [by rewrite length_set_nx, length_set_pv|apply NoDup_nil_2|done|].
      apply Forall_singleton. split; simpl.
      * rewrite nx_set_nx by (rewrite length_set_pv; lia). by rewrite decide_True.
      * rewrite pv_set_nx, pv_set_pv by lia. by rewrite decide_True.
    + intros b. unfold set_nx, set_pv. rewrite !(alter_field bflags) by done. apply Hfl.
    + intros b Hb. by apply not_elem_of_nil in Hb.
  - intros e' s' (-> & i & bs & Hi & Hl & -> & Hbu). apply wp_ret.
    assert (i = head) as ->. { apply (f_equal length) in Hl. rewrite length_seq in Hl. simpl in Hl. lia. }
    eapply HQ; [exact Hbu|]. symmetry. apply Permutation_rev.
  - intros b l e' s' _ (-> & i & bs & Hi & Hl & -> & Hbu).
    destruct (head - i)%nat as [|m] eqn:E; [done|]. simpl in Hl. injection Hl as -> ->.
    apply wp_bind, wp_get. do 5 (apply wp_bind, wp_modify). apply wp_ret. split; [done|].
    exists (S i), (linked_in i bs). split; [lia|]. split; [f_equal; lia|]. split; [done|].
    rewrite seq_S, rev_app_distr. apply building_step; [done| |lia].
    rewrite list_elem_of_In, <- in_rev, <- list_elem_of_In. rewrite elem_of_seq. lia.
Qed.

Lemma built_cache s l :
  building (k_bcache s) l -> l ≡ₚ seq 0 head -> ready L_bcache s -> ready L_ptable s -> ptable_ok s ->
  cache s [] (fun k => disk_read k.1 k.2 (k_disk s)) ∅.
Proof.
  intros [Hr Hf Hd] Hp Hbc Hpt Hpo.
  assert (Hfl : forall b, bflags (buf_of b s) = 0) by (intros b; apply Hf).
  assert (Hdev : forall b, (b < head)%nat -> bdev (buf_of b s) = nodev).
  { intros b Hb. apply Hd. rewrite Hp. apply elem_of_seq. lia. }
  split; [by exists l|..|done|done].
  - split; [apply NoDup_nil_2|done].
  - intros b c Hb _ Hne. by rewrite Hdev in Hne.
  - intros b Hb. unfold busy. by rewrite Hfl.
  - intros b Hb. unfold dirty. rewrite Hfl. symmetry. apply bool_decide_eq_false. set_solver.
  - intros k Hk. set_solver.
  - intros b Hb. unfold valid. by rewrite Hfl.
  - intros b Hb Hne. by rewrite Hdev in Hne.
  - intros b Hb. by apply not_elem_of_nil in Hb.
  - done.
Qed.

Lemma building_cache s bs l :
  building bs l -> l ≡ₚ seq 0 head -> irq_ok s -> ready L_ptable s -> ptable_ok s ->
  cache (set_k_bcache bs (set_lock L_bcache (mkLock 0 "bcache" None) s)) []
    (fun k => disk_read k.1 k.2 (k_disk s)) ∅.
Proof.
  intros Hb Hp Hirq [_ (nm & Hl)] Hpo. apply (built_cache (set_k_bcache bs (set_lock L_bcache (mkLock 0 "bcache" None) s)) l); [done|done|..].
  - split; [done|]. eexists. apply lookup_insert_eq.
  - split; [done|]. exists nm. simpl. by rewrite lookup_insert_ne.
  - done.
Qed.

End binit.

(** * Theorems *)

Section theorems.
Context `{Symbols} `{Driver} {Hdrv : SyncDriver}.

(** [binit] makes an empty cache.  From zeroed buffers it links all [NBUF] of them into
    the ring, each once, with no block, none in use and none dirty, so that every block
    reads as it is on the disk. *)
Lemma binit_spec s e :
  length (k_bcache s) = S head -> (forall b, bflags (buf_of b s) = 0) ->
  irq_ok s -> ready L_ptable s -> ptable_ok s ->
  exists s', binit e s = Done tt e s' /\ k_disk s' = k_disk s /\
    cache s' [] (fun k => disk_read k.1 k.2 (k_disk s)) ∅.
Proof.
  intros Hlen Hfl Hirq Hpt Hpo. apply wp_run. apply wp_binit; [done|done|].
  intros bs l Hb Hp. split; [done|]. split; [done|]. by eapply building_cache.
Qed.

(** [bread] returns the one buffer of a block.  It is held by the caller, it has the
    current contents of the block (the last ones written, or those of the disk), and no other
    held buffer, no pinned block and nothing on the disk changes; it cannot fail as long as
    the block is pinned or some buffer is neither held nor pinned. *)
Lemma bread_spec s held cur dirt dev bn e :
  cache s held cur dirt -> dev <> nodev -> serves dev bn ->
  (forall c, c ∈ held -> key (buf_of c s) <> (dev, bn)) ->
  (dev, bn) ∈ dirt \/ (size dirt + length held < head)%nat ->
  exists b s', bread dev bn e s = Done b e s' /\ (b ∉ held) /\
    bdata (buf_of b s') = cur (dev, bn) /\ cache s' (b :: held) cur dirt /\
    (forall c, c ∈ held -> buf_of c s' = buf_of c s) /\ k_disk s' = k_disk s.
Proof.
  intros Hc Hdev Hsv Hkh Hsz. edestruct (wp_elim (bread dev bn)) as (b & e' & s' & Hrun & HQ).
  - eapply (wp_bread s held cur dirt) with (Q := fun b e' s' => e' = e /\ (b ∉ held) /\
      bdata (buf_of b s') = cur (dev, bn) /\ cache s' (b :: held) cur dirt /\
      (forall c, c ∈ held -> buf_of c s' = buf_of c s) /\ k_disk s' = k_disk s); [done..|].
    intros b s' Hb Hc' Hk Hsame Hd _. split_and!; try done. rewrite <- Hk.
    eapply held_data; [done|]. by left.
  - destruct HQ as [-> HQ]. by exists b, s'.
Qed.

(** When every buffer is held or pinned, a block that is not cached cannot be read: the
    kernel panics with the message of [bget]. *)
Lemma bread_no_buffers s held cur dirt dev bn e :
  cache s held cur dirt -> (forall b, (b < head)%nat -> key (buf_of b s) <> (dev, bn)) ->
  (forall b, (b < head)%nat -> b ∈ held \/ key (buf_of b s) ∈ dirt) ->
  exists s', bread dev bn e s = Panic "bget: no buffers" s'.
Proof.
  intros Hc Hk Hfull. exists (acquired L_bcache s). unfold bread. apply bind_Panic.
  eapply bget_exhausted; [done|done|]. intros b Hb. rewrite (ca_busy _ _ _ _ Hc b Hb), (ca_dirty _ _ _ _ Hc b Hb).
  rewrite !bool_decide_eq_true. by apply Hfull.
Qed.

(** Overwriting a block through the cache. *)
Definition put_block (dev bn : Z) (d : list Z) : K unit :=
  b ← bread dev bn;
  bufset b (set_bdata d);;
  bwrite b;;
  brelse b.

(** Reading a block through the cache. *)
Definition get_block (dev bn : Z) : K (list Z) :=
  b ← bread dev bn;
  d ← bufget b bdata;
  brelse b;;
  mret d.

Lemma wp_get_block s held cur dirt dev bn e (Q : list Z -> env kernel -> kernel -> Prop) :
  cache s held cur dirt -> dev <> nodev -> serves dev bn ->
  (forall c, c ∈ held -> key (buf_of c s) <> (dev, bn)) ->
  (size dirt + length held < head)%nat ->
  (forall s', cache s' held cur dirt -> k_disk s' = k_disk s -> bio_only s s' -> Q (cur (dev, bn)) e s') ->
  wp (get_block dev bn) Q e s.
Proof.
  intros Hc Hdev Hsv Hkh Hsz HQ. unfold get_block, bufget. apply wp_bind.
  eapply (wp_bread s held cur dirt); [done..|by right|]. intros b s1 Hb Hc1 Hk1 _ Hd1 Ho1.
  apply wp_bind, wp_get. rewrite (held_data _ _ _ _ b Hc1), Hk1 by (by left).
  apply wp_bind. eapply (wp_brelse s1 (b :: held) held cur dirt b); [done|done| |].
  - rewrite Hk1. destruct (decide ((dev, bn) ∈ dirt)); [by left|right].
    rewrite (ca_clean _ _ _ _ Hc (dev, bn)) by done. simpl. rewrite Hd1. f_equal.
    + by apply (f_equal fst) in Hk1.
    + by apply (f_equal snd) in Hk1.
  - intros s2 Hc2 _ Hd2 Ho2. apply wp_ret, HQ; [done|congruence|eauto with frame].
Qed.

Lemma wp_put_block s held cur dirt dev bn d e (Q : unit -> env kernel -> kernel -> Prop) :
  cache s held cur dirt -> dev <> nodev -> serves dev bn ->
  (forall c, c ∈ held -> key (buf_of c s) <> (dev, bn)) ->
  (size dirt + length held < head)%nat ->
  (forall s', cache s' held (upd_cur (dev, bn) d cur) (dirt ∖ {[(dev, bn)]}) ->
     (forall c, c ∈ held -> key (buf_of c s') = key (buf_of c s)) ->
     k_disk s' = disk_write dev bn d (k_disk s) -> Q tt e s') ->
  wp (put_block dev bn d) Q e s.
Proof.
  intros Hc Hdev Hsv Hkh Hsz HQ. unfold put_block, bufset. apply wp_bind.
  eapply (wp_bread s held cur dirt); [done..|by right|]. intros b s1 Hb Hc1 Hk1 Hsame Hd1 Ho1.
  apply wp_bind, wp_modify. assert (Hin : b ∈ b :: held) by (by left).
  pose proof (cache_store _ _ _ _ _ d Hc1 Hin) as Hc2. rewrite Hk1 in Hc2.
  set (s2 := on_buf b (set_bdata d) s1) in *.
  assert (Hk2 : forall c, key (buf_of c s2) = key (buf_of c s1)).
  { intros c. unfold s2, buf_of, on_buf. simpl. by apply (alter_field key). }
  assert (Hcur : upd_cur (dev, bn) d cur (dev, bn) = d) by (unfold upd_cur; by rewrite decide_True).
  assert (Hfld : bdev (buf_of b s2) = dev /\ blockno (buf_of b s2) = bn).
  { pose proof (Hk2 b) as E. rewrite Hk1 in E. unfold key in E. by simplify_eq. }
  destruct Hfld as [Hd2 Hb2].
  apply wp_bind. eapply (wp_bwrite s2); [done|done|by rewrite Hd2, Hb2|].
  intros s3 Hc3 Hk3 Hd3 Ho3. rewrite Hk2, Hk1, Hcur, Hd2, Hb2 in Hd3. rewrite Hk2, Hk1 in Hc3.
  change (k_disk s2) with (k_disk s1) in Hd3. rewrite Hd1 in Hd3.
  assert (Hfld : bdev (buf_of b s3) = dev /\ blockno (buf_of b s3) = bn).
  { pose proof (Hk3 b) as E. rewrite Hk2, Hk1 in E. unfold key in E. by simplify_eq. }
  destruct Hfld as [Hd3' Hb3'].
  eapply (wp_brelse s3 (b :: held) held _ _ b); [done|done| |].
  - right. rewrite Hk3, Hk2, Hk1, Hcur, Hd3', Hb3', Hd3. unfold disk_read, disk_write. simpl.
    by rewrite lookup_insert_eq.
  - intros s4 Hc4 Hk4 Hd4 Ho4. apply HQ; [done| |congruence].
    intros c Hch. by rewrite Hk4, Hk3, Hk2, Hsame.
Qed.

(** A block that is written through the cache ([bread], a change of the data, [bwrite],
    [brelse]) is on the disk, and reading any block through the cache afterwards returns
    what was written to it, or its former contents if it is another block. *)
Lemma block_roundtrip s cur dirt dev bn dev' bn' d e :
  cache s [] cur dirt -> (size dirt < head)%nat ->
  dev <> nodev -> serves dev bn -> dev' <> nodev -> serves dev' bn' ->
  exists s', (put_block dev bn d;; get_block dev' bn') e s =
      Done (if decide ((dev', bn') = (dev, bn)) then d else cur (dev', bn')) e s' /\
    disk_read dev bn (k_disk s') = d /\
    cache s' [] (upd_cur (dev, bn) d cur) (dirt ∖ {[(dev, bn)]}).
Proof.
  intros Hc Hsz Hd Hs Hd' Hs'.
  edestruct (wp_elim (put_block dev bn d;; get_block dev' bn')) as (x & e' & s' & Hrun & HQ).
  - apply wp_bind. eapply (wp_put_block s [] cur dirt); [done..|set_solver|simpl; lia|].
    intros s1 Hc1 _ Hd1. eapply (wp_get_block s1 [] _ _ dev' bn' e
      (fun x e' s' => x = upd_cur (dev, bn) d cur (dev', bn') /\ e' = e /\
         disk_read dev bn (k_disk s') = d /\ cache s' [] (upd_cur (dev, bn) d cur) (dirt ∖ {[(dev, bn)]})));
      [done..|set_solver| |].
    + assert (size (dirt ∖ {[(dev, bn)]}) <= size dirt)%nat by (apply subseteq_size; set_solver). simpl. lia.
    + intros s2 Hc2 Hd2 _. split_and!; [done|done| |done]. rewrite Hd2, Hd1.
      unfold disk_read, disk_write. simpl. by rewrite lookup_insert_eq.
  - destruct HQ as (-> & -> & HQ). by exists s'.
Qed.

End theorems.

(** * Witnesses *)

#[local] Existing Instance built_symbols.

(** A kernel whose process table is initialised, before [binit], and after it. *)
Definition bw_boot : kernel := set_lock L_ptable (mkLock 0 "ptable" None) boot_state.

Lemma bw_boot_ok :
  length (k_bcache bw_boot) = S head /\ (forall b, bflags (buf_of b bw_boot) = 0) /\
  irq_ok bw_boot /\ ready L_ptable bw_boot /\ ptable_ok bw_boot.
Proof.
  split; [done|]. split; [|by split_and!; [split|split; [split|eexists]|]].
  intros b. unfold buf_of. change (k_bcache bw_boot) with (replicate (Z.to_nat (NBUF + 1)) zero_buf).
  destruct (_ !! b) eqn:E; [|done]. by apply lookup_replicate in E as [-> _].
Qed.

Definition after_binit (s : kernel) : kernel := match binit [] s with Done _ _ s' => s' | _ => s end.

Lemma after_binit_cache s :
  length (k_bcache s) = S head -> (forall b, bflags (buf_of b s) = 0) ->
  irq_ok s -> ready L_ptable s -> ptable_ok s ->
  cache (after_binit s) [] (fun k => disk_read k.1 k.2 (k_disk s)) ∅ /\
  exists bs, after_binit s = set_k_bcache bs (set_lock L_bcache (mkLock 0 "bcache" None) s).
Proof.
  intros H1 H2 H3 H4 H5.
  assert (Hw : exists s', binit [] s = Done tt [] s' /\ (cache s' [] (fun k => disk_read k.1 k.2 (k_disk s)) ∅ /\
    exists bs, s' = set_k_bcache bs (set_lock L_bcache (mkLock 0 "bcache" None) s))).
  { apply wp_run. apply wp_binit; [done|done|]. intros bs l Hb Hp. split; [done|].
    split; [by eapply building_cache|by exists bs]. }
  unfold after_binit. destruct Hw as (s' & Heq & Hc). rewrite Heq. exact Hc.
Qed.

Definition bw_state : kernel := after_binit bw_boot.

Lemma bw_cache : cache bw_state [] (fun k => disk_read k.1 k.2 (k_disk bw_boot)) ∅.
Proof. destruct bw_boot_ok as (H1 & H2 & H3 & H4 & H5). exact (proj1 (after_binit_cache bw_boot H1 H2 H3 H4 H5)). Qed.

Lemma binit_spec_witness : exists s', binit [] bw_boot = Done tt [] s' /\ k_disk s' = k_disk bw_boot.
Proof.
  destruct bw_boot_ok as (H1 & H2 & H3 & H4 & H5).
  destruct (binit_spec bw_boot [] H1 H2 H3 H4 H5) as (s' & Heq & Hd & _). exists s'. split; [exact Heq|exact Hd].
Defined.

Lemma none_held s k : forall c, c ∈ [] -> key (buf_of c s) <> k.
Proof. set_solver. Qed.

Lemma room_left : (size (∅ : gset (Z * Z)) + length ([] : list nat) < head)%nat.
Proof. rewrite size_empty. unfold head. simpl. lia. Qed.

Lemma device_one : 1 <> nodev.
Proof. done. Qed.

(** The memory disk of memide.c. *)
#[local] Instance bw_driver : Driver | 0 := memide_driver.
#[local] Instance bw_sync : SyncDriver | 0 := memide_sync.

Lemma in_built_image bn : 0 <= bn < 1000 -> serves 1 bn.
Proof. intros Hb. split; [done|]. exact Hb. Qed.

Lemma bread_spec_witness : exists b s', bread 1 7 [] bw_state = Done b [] s' /\ bdata (buf_of b s') = zero_block.
Proof.
  destruct (bread_spec bw_state [] _ ∅ 1 7 [] bw_cache device_one (in_built_image 7 ltac:(lia)) (none_held _ _)
    (or_intror room_left)) as (b & s' & Heq & _ & Hd & _).
  exists b, s'. split; [exact Heq|exact Hd].
Defined.

Lemma block_roundtrip_witness :
  exists s', (put_block 1 7 [42];; get_block 1 7) [] bw_state = Done [42] [] s' /\
    disk_read 1 7 (k_disk s') = [42].
Proof.
  destruct (block_roundtrip bw_state _ ∅ 1 7 1 7 [42] [] bw_cache ltac:(rewrite size_empty; unfold head; lia) device_one
    (in_built_image 7 ltac:(lia)) device_one (in_built_image 7 ltac:(lia))) as (s' & Heq & Hd & _).
  exists s'. split; [exact Heq|exact Hd].
Defined.

(** A kernel that holds the buffers of blocks 0 to [n - 1]. *)
Lemma many_held n : (n <= head)%nat ->
  exists s held cur, cache s held cur ∅ /\ length held = n /\
    forall c, c ∈ held -> exists i, 0 <= i < Z.of_nat n /\ key (buf_of c s) = (1, i).
Proof.
  induction n as [|n IH]; intros Hn.
  { exists bw_state, [], (fun k => disk_read k.1 k.2 (k_disk bw_boot)). split; [apply bw_cache|].
    split; [done|]. intros c Hc. by apply not_elem_of_nil in Hc. }
  destruct IH as (s & held & cur & Hc & Hl & Hk); [lia|].
  assert (Hw : wp (bread 1 (Z.of_nat n)) (fun b _ s' => cache s' (b :: held) cur ∅ /\
    key (buf_of b s') = (1, Z.of_nat n) /\ forall c, c ∈ held -> buf_of c s' = buf_of c s) [] s).
  { eapply (wp_bread s held cur ∅); [done|done|apply in_built_image; unfold head in Hn; lia| | |done].
    - intros c (i & Hi & ->)%Hk. intros [=]. lia.
    - right. rewrite size_empty. lia. }
  apply wp_elim in Hw as (b & e & s' & _ & Hc' & Hb & Hsame). exists s', (b :: held), cur.
  split; [done|]. split; [simpl; lia|]. intros c [->|Hin]%elem_of_cons.
  - exists (Z.of_nat n). split; [lia|done].
  - rewrite Hsame by done. destruct (Hk c Hin) as (i & Hi & E). exists i. split; [lia|done].
Qed.

Lemma bread_no_buffers_witness : exists s s', bread 1 500 [] s = Panic "bget: no buffers" s'.
Proof.
  destruct (many_held head (Nat.le_refl _)) as (s & held & cur & Hc & Hl & Hk).
  assert (Hall : forall b, (b < head)%nat -> b ∈ held).
  { intros b Hb. destruct (ca_held _ _ _ _ Hc) as [Hnd Hr]. apply elem_of_Permutation.
    assert (Hp : held ≡ₚ seq 0 head).
    { apply submseteq_length_Permutation; [|rewrite length_seq; lia]. apply NoDup_submseteq; [done|].
      intros x Hx. rewrite Forall_forall in Hr. apply elem_of_seq. specialize (Hr x Hx). lia. }
    apply elem_of_Permutation. rewrite Hp. apply elem_of_seq. lia. }
  destruct (bread_no_buffers s held cur ∅ 1 500 [] Hc) as (s' & Heq).
  - intros b (i & Hi & ->)%Hall%Hk. intros [=]. unfold head in Hi. lia.
  - intros b Hb. left. by apply Hall.
  - by exists s, s'.
Defined.
