(* ===== verification/Log.v ===== *)
(** log.c: the write-ahead log that makes file system operations atomic with
    respect to crashes.

    The header block holds the count and the block numbers as 32-bit integers. *)

From S2P Require Import Prelude Params Mem State Spinlock Console Kalloc Vm Proc Ide Bio.

Section log.
Context `{Symbols} `{Driver}.

(** 32-bit integers in a block. *)
Definition lget (d : list Z) (i : nat) : Z := nth i d 0.
Definition get32 (d : list Z) (o : nat) : Z :=
  u8 (lget d o) + 256 * u8 (lget d (o + 1)) + 65536 * u8 (lget d (o + 2))
  + 16777216 * u8 (lget d (o + 3)).
Definition put32 (d : list Z) (o : nat) (v : Z) : list Z :=
  let v := u32 v in
  <[o := v mod 256]> (<[(o + 1)%nat := v / 256 mod 256]>
    (<[(o + 2)%nat := v / 65536 mod 256]> (<[(o + 3)%nat := v / 16777216]> d))).

(** [hb->n], [hb->block[i]]. *)
Definition hb_n (d : list Z) : Z := s32 (get32 d 0).
Definition hb_block (d : list Z) (i : nat) : Z := s32 (get32 d (4 + 4 * i)).

Definition on_log (f : log_t -> log_t) (s : kernel) : kernel := set_k_log (f (k_log s)) s.
Definition lg {A} (f : log_t -> A) : K A := get (fun s => f (k_log s)).

(** Copy committed blocks from log to their home location. *)
Definition install_trans : K unit :=
  n ← lg lh_n;
  for_each (seq 0 (Z.to_nat n)) (fun tail =>
    dev ← lg ldev;
    start ← lg lstart;
    lbuf ← bread dev (u32 (start + Z.of_nat tail + 1));
    bn ← lg (fun l => lget (lh_block l) tail);
    dbuf ← bread dev (u32 bn);
    data ← bufget lbuf bdata;
    bufset dbuf (set_bdata data);;
    bwrite dbuf;;
    brelse lbuf;;
    brelse dbuf;;
    mret (None : option unit));;
  mret tt.

(** Read the log header from disk into the in-memory log header. *)
Definition read_head : K unit :=
  dev ← lg ldev;
  start ← lg lstart;
  b ← bread dev (u32 start);
  lh ← bufget b bdata;
  modify (on_log (set_lh_n (hb_n lh)));;
  for_each (seq 0 (Z.to_nat (hb_n lh))) (fun i =>
    modify (on_log (fun l => set_lh_block (<[i := hb_block lh i]> (lh_block l)) l));;
    mret (None : option unit));;
  brelse b.

(** Write in-memory log header to disk.  This is the true point at which the
    current transaction commits. *)
Definition write_head : K unit :=
  dev ← lg ldev;
  start ← lg lstart;
  b ← bread dev (u32 start);
  n ← lg lh_n;
  bufset b (fun q => set_bdata (put32 (bdata q) 0 n) q);;
  for_each (seq 0 (Z.to_nat n)) (fun i =>
    bn ← lg (fun l => lget (lh_block l) i);
    bufset b (fun q => set_bdata (put32 (bdata q) (4 + 4 * i) bn) q);;
    mret (None : option unit));;
  bwrite b;;
  brelse b.

Definition recover_from_log : K unit :=
  read_head;;
  install_trans;;
  modify (on_log (set_lh_n 0));;
  write_head.

(** Called at the start of each FS system call. *)
Definition begin_op : K unit :=
  acquire L_log;;
  loop_env (fun _ : unit =>
    l ← get k_log;
    if cbool (committing l) then sleep CH_log (Some L_log);; mret (inl tt)
    else if LOGSIZE <? lh_n l + (outstanding l + 1) * MAXOPBLOCKS then
      sleep CH_log (Some L_log);; mret (inl tt)
    else
      modify (on_log (fun l => set_outstanding (outstanding l + 1) l));;
      release L_log;;
      mret (inr tt)) tt.

(** Copy modified blocks from cache to log. *)
Definition write_log : K unit :=
  n ← lg lh_n;
  for_each (seq 0 (Z.to_nat n)) (fun tail =>
    dev ← lg ldev;
    start ← lg lstart;
    to ← bread dev (u32 (start + Z.of_nat tail + 1));
    bn ← lg (fun l => lget (lh_block l) tail);
    from ← bread dev (u32 bn);
    data ← bufget from bdata;
    bufset to (set_bdata data);;
    bwrite to;;
    brelse from;;
    brelse to;;
    mret (None : option unit));;
  mret tt.

Definition commit : K unit :=
  n ← lg lh_n;
  when (0 <? n) (
    write_log;;
    write_head;;
    install_trans;;
    modify (on_log (set_lh_n 0));;
    write_head).

(** Called at the end of each FS system call.  Commits if this was the last
    outstanding operation. *)
Definition end_op : K unit :=
  acquire L_log;;
  modify (on_log (fun l => set_outstanding (outstanding l - 1) l));;
  c ← lg committing;
  if cbool c then panic "log.committing" else
  o ← lg outstanding;
  (if o =? 0 then modify (on_log (set_committing 1)) else wakeup CH_log);;
  release L_log;;
  when (o =? 0) (
    commit;;
    acquire L_log;;
    modify (on_log (set_committing 0));;
    wakeup CH_log;;
    release L_log).

(** The first entry of the log with block number [bn], or the number of entries. *)
Fixpoint log_slot (blocks : list Z) (bn : Z) (i : nat) (n : nat) : nat :=
  match n with
  | O => i
  | S n' => if u32 (lget blocks i) =? bn then i else log_slot blocks bn (S i) n'
  end.

(** Caller has modified b->data and is done with the buffer. *)
Definition log_write (b : nat) : K unit :=
  l ← get k_log;
  if (LOGSIZE <=? lh_n l) || (lsize l - 1 <=? lh_n l) then panic "too big a transaction" else
  if outstanding l <? 1 then panic "log_write outside of trans" else
  acquire L_log;;
  bn ← bufget b blockno;
  i ← lg (fun l => log_slot (lh_block l) bn 0 (Z.to_nat (lh_n l)));
  modify (on_log (fun l => set_lh_block (<[i := s32 bn]> (lh_block l)) l));;
  modify (on_log (fun l => if Z.of_nat i =? lh_n l then set_lh_n (lh_n l + 1) l else l));;
  bufset b (setflags B_DIRTY);;
  release L_log.

End log.
