(* ===== verification/LogSpec.v ===== *)
(** Crash safety of the log of log.c.

    A transaction writes its blocks to the log, then the header (the commit point), then
    installs the blocks at their home locations and clears the header.  The disk does one
    block write at a time; a crash can come between any two of them. *)

From S2P Require Import Prelude Params Mem State Spinlock Console Kalloc Vm VmTables VmSpace VmAlloc.
From S2P Require Import VmCopy Proc ProcSpec Ide Bio BioRing BioSpec Log.

(** * Sequences of block writes *)

Definition bwrite_t : Type := Z * Z * list Z.

Definition upd_all (ws : list bwrite_t) (cur : Z * Z -> list Z) : Z * Z -> list Z :=
  foldl (fun c w => upd_cur w.1 w.2 c) cur ws.

Definition disk_all (ws : list bwrite_t) (d : disk_t) : disk_t :=
  foldl (fun d w => disk_write w.1.1 w.1.2 w.2 d) d ws.

Definition keys (ws : list bwrite_t) : gset (Z * Z) := list_to_set ws.*1.

Lemma minus_keys_app dirt ws ws' : dirt ∖ keys (ws ++ ws') = dirt ∖ keys ws ∖ keys ws'.
Proof. unfold keys. rewrite fmap_app, list_to_set_app_L. set_solver. Qed.

Lemma upd_all_app ws ws' cur : upd_all (ws ++ ws') cur = upd_all ws' (upd_all ws cur).
Proof. apply foldl_app. Qed.

Lemma disk_all_app ws ws' d : disk_all (ws ++ ws') d = disk_all ws' (disk_all ws d).
Proof. apply foldl_app. Qed.

Lemma upd_all_ext ws f g : (forall k, f k = g k) -> forall k, upd_all ws f k = upd_all ws g k.
Proof.
  revert f g. induction ws as [|w ws IH]; intros f g E k; [apply E|]. simpl. apply IH.
  intros k0. unfold upd_cur. by destruct (decide _).
Qed.

Lemma upd_all_other ws cur k : k ∉ ws.*1 -> upd_all ws cur k = cur k.
Proof.
  revert cur. induction ws as [|[k' d] ws IH]; intros cur Hk; [done|]. simpl in *.
  apply not_elem_of_cons in Hk as [Hk1 Hk2]. rewrite IH by done. unfold upd_cur.
  by rewrite decide_False.
Qed.

(** The blocks of a disk after a sequence of writes. *)
Lemma disk_all_read ws d k : disk_read k.1 k.2 (disk_all ws d) = upd_all ws (fun k => disk_read k.1 k.2 d) k.
Proof.
  revert d. induction ws as [|[k' b] ws IH]; intros d; [done|]. simpl. rewrite IH.
  assert (E : forall k, disk_read k.1 k.2 (disk_write k'.1 k'.2 b d) =
    upd_cur k' b (fun k => disk_read k.1 k.2 d) k).
  { intros k0. unfold disk_read, disk_write, upd_cur. simpl. destruct (decide (k0 = k')) as [->|Hne].
    - by rewrite lookup_insert_eq.
    - rewrite lookup_insert_ne; [done|]. destruct k0, k'. simpl. congruence. }
  by apply upd_all_ext.
Qed.

Lemma disk_all_writes ws d : dk_writes (disk_all ws d) = dk_writes d ++ ws.
Proof.
  revert d. induction ws as [|[[dev bn] b] ws IH]; intros d; simpl; [by rewrite app_nil_r|].
  rewrite IH. simpl. by rewrite <- app_assoc.
Qed.

(** * The code *)

Section code.
Context `{Symbols} `{Driver} {Hdrv : SyncDriver}.

(** From [s0], whose cache shows [cur] and pins [dirt], the writes [ws] were made. *)
Record after (ws : list bwrite_t) (s0 : kernel) (cur : Z * Z -> list Z) (dirt : gset (Z * Z))
    (s : kernel) : Prop := {
  af_cache : cache s [] (upd_all ws cur) (dirt ∖ keys ws);
  af_disk : k_disk s = disk_all ws (k_disk s0);
  af_only : bio_only s0 s
}.

Lemma after_nil s cur dirt : cache s [] cur dirt -> after [] s cur dirt s.
Proof.
  intros Hc. split; [|done|apply bio_only_refl].
  assert (dirt ∖ keys [] = dirt) as -> by (unfold keys; set_solver). exact Hc.
Qed.

Lemma after_app ws1 ws2 s0 s1 s2 cur dirt :
  after ws1 s0 cur dirt s1 -> after ws2 s1 (upd_all ws1 cur) (dirt ∖ keys ws1) s2 ->
  after (ws1 ++ ws2) s0 cur dirt s2.
Proof.
  intros [Hc1 Hd1 Ho1] [Hc2 Hd2 Ho2]. split.
  - rewrite upd_all_app.
    by rewrite minus_keys_app.
  - by rewrite disk_all_app, Hd2, Hd1.
  - eauto with frame.
Qed.

Lemma bio_only_log s s' : bio_only s s' -> k_log s' = k_log s.
Proof. by intros (bc & d & pt & -> & _). Qed.

(** Where the log is: mkfs reserves [LOGSIZE] blocks for it, the header at block [start] of
    device [dv] and the ones after it. *)
Definition in_log (start bn : Z) : Prop := start <= bn < start + LOGSIZE.

Definition log_key (dv start : Z) (i : nat) : Z * Z := (dv, u32 (start + Z.of_nat i + 1)).
Definition home_key (dv : Z) (blocks : list Z) (i : nat) : Z * Z := (dv, u32 (lget blocks i)).

(** A log that has [n] blocks, with their home locations outside of the log. *)
Record log_geom (dv start : Z) (n : nat) (blocks : list Z) : Prop := {
  lg_dev : dv <> nodev;
  lg_start : 0 <= start /\ start + LOGSIZE <= 4294967296;
  lg_n : Z.of_nat n < LOGSIZE;
  lg_home : forall i, (i < n)%nat -> ~ in_log start (u32 (lget blocks i)) /\ serves dv (u32 (lget blocks i));
  lg_serves : forall bn, in_log start bn -> serves dv bn
}.

Lemma log_key_eq dv start n blocks i :
  log_geom dv start n blocks -> (i < n)%nat ->
  u32 (start + Z.of_nat i + 1) = start + Z.of_nat i + 1 /\ in_log start (start + Z.of_nat i + 1).
Proof.
  intros [_ Hs Hn _ _] Hi. unfold in_log. rewrite u32_small by lia. lia.
Qed.

Lemma home_not_log dv start n blocks i j :
  log_geom dv start n blocks -> (i < n)%nat -> (j < n)%nat -> home_key dv blocks i <> log_key dv start j.
Proof.
  intros Hg Hi Hj E. destruct (lg_home _ _ _ _ Hg i Hi) as [Hh _]. apply Hh.
  destruct (log_key_eq _ _ _ _ j Hg Hj) as [E' Hin]. unfold home_key, log_key in E.
  injection E as E. by rewrite E, E'.
Qed.

(** The fields of the log in memory. *)
Definition log_is (dv start : Z) (n : nat) (blocks : list Z) (s : kernel) : Prop :=
  ldev (k_log s) = dv /\ lstart (k_log s) = start /\ lh_n (k_log s) = Z.of_nat n /\ lh_block (k_log s) = blocks.

Lemma log_is_only dv start n blocks s s' : bio_only s s' -> log_is dv start n blocks s -> log_is dv start n blocks s'.
Proof. intros Ho. unfold log_is. by rewrite (bio_only_log _ _ Ho). Qed.

(** ** Copying one block *)

Lemma bio_only_on_buf b f s : bio_only s (on_buf b f s).
Proof. exists (alter f b (k_bcache s)), (k_disk s), (k_ptable s). split; [by destruct s|done]. Qed.

Lemma key_eq q dev bn : key q = (dev, bn) -> bdev q = dev /\ blockno q = bn.
Proof. unfold key. intros. by simplify_eq. Qed.

(** [dst] gets the contents of [src] and is written, and both are released. *)
Lemma wp_copy_held s held cur dirt src dst dv sbn dbn e (Q : option unit -> env kernel -> kernel -> Prop) :
  cache s held cur dirt -> held ≡ₚ [src; dst] ->
  key (buf_of src s) = (dv, sbn) -> key (buf_of dst s) = (dv, dbn) -> sbn <> dbn -> serves dv dbn ->
  (dv, sbn) ∈ dirt \/ cur (dv, sbn) = disk_read dv sbn (k_disk s) ->
  (forall s', after [((dv, dbn), cur (dv, sbn))] s cur dirt s' -> Q None e s') ->
  wp (data ← bufget src bdata;
      bufset dst (set_bdata data);;
      bwrite dst;;
      brelse src;;
      brelse dst;;
      mret (None : option unit)) Q e s.
Proof.
  intros Hc Hp Hks Hkd Hne Hsv Hclean HQ. unfold bufget, bufset.
  assert (Hin1 : src ∈ held) by (rewrite Hp; by left).
  assert (Hin2 : dst ∈ held) by (rewrite Hp; right; by left).
  apply wp_bind, wp_get. rewrite (held_data _ _ _ _ _ Hc Hin1), Hks. apply wp_bind, wp_modify.
  pose proof (cache_store _ _ _ _ _ (cur (dv, sbn)) Hc Hin2) as Hc3. rewrite Hkd in Hc3.
  set (s3 := on_buf dst _ s) in *.
  assert (Hk3 : forall c, key (buf_of c s3) = key (buf_of c s)).
  { intros c. unfold s3, buf_of, on_buf. simpl. by apply (alter_field key). }
  assert (Hkd3 : key (buf_of dst s3) = (dv, dbn)) by (by rewrite Hk3).
  destruct (key_eq _ _ _ Hkd3) as [Hdd3 Hdb3].
  apply wp_bind. eapply (wp_bwrite s3); [done|done|by rewrite Hdd3, Hdb3|].
  intros s4 Hc4 Hk4 Hd4 Ho4. rewrite Hkd3 in Hc4, Hd4. rewrite Hdd3, Hdb3 in Hd4.
  set (cur' := upd_cur (dv, dbn) (cur (dv, sbn)) cur) in *.
  assert (Hcur' : cur' (dv, dbn) = cur (dv, sbn)) by (unfold cur', upd_cur; by rewrite decide_True).
  assert (Hcurs : cur' (dv, sbn) = cur (dv, sbn)).
  { unfold cur', upd_cur. rewrite decide_False; [done|congruence]. }
  rewrite Hcur' in Hd4. change (k_disk s3) with (k_disk s) in Hd4.
  assert (Hks4 : key (buf_of src s4) = (dv, sbn)) by (by rewrite Hk4, Hk3).
  destruct (key_eq _ _ _ Hks4) as [Hsd4 Hsb4].
  apply wp_bind. eapply (wp_brelse s4 held [dst] _ _ src); [done|done| |].
  { rewrite Hks4, Hsd4, Hsb4, Hcurs, Hd4. destruct Hclean as [Hin| ->]; [left; set_solver|right].
    unfold disk_read, disk_write. simpl. rewrite lookup_insert_ne; [done|congruence]. }
  intros s5 Hc5 Hk5 Hd5 Ho5.
  assert (Hkd5 : key (buf_of dst s5) = (dv, dbn)) by (by rewrite Hk5, Hk4).
  destruct (key_eq _ _ _ Hkd5) as [Hdd5 Hdb5].
  apply wp_bind. eapply (wp_brelse s5 [dst] [] _ _ dst); [done|done| |].
  { right. rewrite Hkd5, Hdd5, Hdb5, Hd5, Hd4, Hcur'. unfold disk_read, disk_write. simpl.
    by rewrite lookup_insert_eq. }
  intros s6 Hc6 Hk6 Hd6 Ho6. apply wp_ret. apply HQ. split.
  - assert (dirt ∖ keys [((dv, dbn), cur (dv, sbn))] = dirt ∖ {[(dv, dbn)]}) as -> by (unfold keys; set_solver).
    done.
  - by rewrite Hd6, Hd5, Hd4.
  - eapply bio_only_trans; [apply (bio_only_on_buf dst)|]. eauto with frame.
Qed.

Lemma after_pre s0 s ws cur dirt s' :
  bio_only s0 s -> k_disk s = k_disk s0 -> after ws s cur dirt s' -> after ws s0 cur dirt s'.
Proof. intros Ho Hd [Hc Hd' Ho']. split; [done|by rewrite Hd', Hd|eauto with frame]. Qed.

(** One round of [write_log]: a pinned block goes to its place in the log. *)
Lemma wp_log_block s cur dirt e (Q : option unit -> env kernel -> kernel -> Prop) dv start n blocks tail :
  cache s [] cur dirt -> log_is dv start n blocks s -> log_geom dv start n blocks -> (tail < n)%nat ->
  log_key dv start tail ∉ dirt -> home_key dv blocks tail ∈ dirt -> (size dirt < head)%nat ->
  (forall s', after [(log_key dv start tail, cur (home_key dv blocks tail))] s cur dirt s' -> Q None e s') ->
  wp (dev ← lg ldev;
      start ← lg lstart;
      to ← bread dev (u32 (start + Z.of_nat tail + 1));
      bn ← lg (fun l => lget (lh_block l) tail);
      from ← bread dev (u32 bn);
      data ← bufget from bdata;
      bufset to (set_bdata data);;
      bwrite to;;
      brelse from;;
      brelse to;;
      mret (None : option unit)) Q e s.
Proof.
  intros Hc (Hld & Hls & Hln & Hlb) Hg Hi Htd Hfd Hsz HQ. pose proof (lg_dev _ _ _ _ Hg) as Hdv.
  destruct (lg_home _ _ _ _ Hg tail Hi) as [_ Hsf]. destruct (log_key_eq _ _ _ _ tail Hg Hi) as [Eq Hin].
  pose proof (home_not_log _ _ _ _ tail tail Hg Hi Hi) as Hne. unfold home_key, log_key in *.
  unfold lg. do 2 (apply wp_bind, wp_get). rewrite Hld, Hls.
  set (tbn := u32 (start + _ + 1)) in *. set (fbn := u32 (lget blocks tail)) in *.
  assert (Hst : serves dv tbn) by (rewrite Eq; by apply (lg_serves _ _ _ _ Hg)).
  apply wp_bind. eapply (wp_bread s [] cur dirt dv tbn); [done..|set_solver|by right; simpl; lia|].
  intros to s1 _ Hc1 Hk1 _ Hd1 Ho1. apply wp_bind, wp_get. rewrite (bio_only_log _ _ Ho1), Hlb.
  apply wp_bind. eapply (wp_bread s1 [to] cur dirt dv fbn); [done..| |by left|].
  { intros c ->%list_elem_of_singleton. congruence. }
  intros from s2 Hnf Hc2 Hk2 Hsame Hd2 Ho2.
  eapply (wp_copy_held s2 [from; to] cur dirt from to dv fbn tbn); [done|done|done| |congruence|done|by left|].
  { rewrite Hsame by (by left). done. }
  intros s' Ha. apply HQ. eapply after_pre; [| |exact Ha]; [eauto with frame|congruence].
Qed.

(** One round of [install_trans]: a block of the log goes to its home location. *)
Lemma wp_install_block s cur dirt e (Q : option unit -> env kernel -> kernel -> Prop) dv start n blocks tail :
  cache s [] cur dirt -> log_is dv start n blocks s -> log_geom dv start n blocks -> (tail < n)%nat ->
  log_key dv start tail ∉ dirt -> (size dirt < head)%nat ->
  home_key dv blocks tail ∈ dirt \/ (size dirt + 1 < head)%nat ->
  (forall s', after [(home_key dv blocks tail, cur (log_key dv start tail))] s cur dirt s' -> Q None e s') ->
  wp (dev ← lg ldev;
      start ← lg lstart;
      lbuf ← bread dev (u32 (start + Z.of_nat tail + 1));
      bn ← lg (fun l => lget (lh_block l) tail);
      dbuf ← bread dev (u32 bn);
      data ← bufget lbuf bdata;
      bufset dbuf (set_bdata data);;
      bwrite dbuf;;
      brelse lbuf;;
      brelse dbuf;;
      mret (None : option unit)) Q e s.
Proof.
  intros Hc (Hld & Hls & Hln & Hlb) Hg Hi Htd Hsz Hhm HQ. pose proof (lg_dev _ _ _ _ Hg) as Hdv.
  destruct (lg_home _ _ _ _ Hg tail Hi) as [_ Hsf]. destruct (log_key_eq _ _ _ _ tail Hg Hi) as [Eq Hin].
  pose proof (home_not_log _ _ _ _ tail tail Hg Hi Hi) as Hne. unfold home_key, log_key in *.
  unfold lg. do 2 (apply wp_bind, wp_get). rewrite Hld, Hls.
  set (tbn := u32 (start + _ + 1)) in *. set (fbn := u32 (lget blocks tail)) in *.
  assert (Hst : serves dv tbn) by (rewrite Eq; by apply (lg_serves _ _ _ _ Hg)).
  assert (Hclean : cur (dv, tbn) = disk_read dv tbn (k_disk s)).
  { apply (ca_clean _ _ _ _ Hc (dv, tbn)); [done|done|set_solver]. }
  apply wp_bind. eapply (wp_bread s [] cur dirt dv tbn); [done..|set_solver|by right; simpl; lia|].
  intros lbuf s1 _ Hc1 Hk1 _ Hd1 Ho1. apply wp_bind, wp_get. rewrite (bio_only_log _ _ Ho1), Hlb.
  apply wp_bind. eapply (wp_bread s1 [lbuf] cur dirt dv fbn); [done..| |done|].
  { intros c ->%list_elem_of_singleton. congruence. }
  intros dbuf s2 Hnf Hc2 Hk2 Hsame Hd2 Ho2.
  eapply (wp_copy_held s2 [dbuf; lbuf] cur dirt lbuf dbuf dv tbn fbn);
    [done|apply Permutation_swap| |done|congruence|done| |].
  { rewrite Hsame by (by left). done. }
  { right. by rewrite Hd2, Hd1. }
  intros s' Ha. apply HQ. eapply after_pre; [| |exact Ha]; [eauto with frame|congruence].
Qed.

(** ** The loops *)

Lemma wp_blocks (wf : nat -> bwrite_t) (body : nat -> K (option unit)) n s cur dirt e
    (Q : option unit -> env kernel -> kernel -> Prop) :
  cache s [] cur dirt ->
  (forall i si (R : option unit -> env kernel -> kernel -> Prop), (i < n)%nat ->
     after (wf <$> seq 0 i) s cur dirt si ->
     (forall s', after [wf i] si (upd_all (wf <$> seq 0 i) cur) (dirt ∖ keys (wf <$> seq 0 i)) s' -> R None e s') ->
     wp (body i) R e si) ->
  (forall s', after (wf <$> seq 0 n) s cur dirt s' -> Q None e s') ->
  wp (for_each (seq 0 n) body) Q e s.
Proof.
  intros Hc Hbody HQ.
  apply (wp_for_each (fun l e' s' => e' = e /\ exists i, (i <= n)%nat /\ l = seq i (n - i) /\
    after (wf <$> seq 0 i) s cur dirt s')).
  - split; [done|]. exists 0%nat. split; [lia|]. split; [by rewrite Nat.sub_0_r|]. by apply after_nil.
  - intros e' s' (-> & i & Hi & Hl & Ha). apply HQ.
    assert (i = n) as ->; [|done]. apply (f_equal length) in Hl. rewrite length_seq in Hl. simpl in Hl. lia.
  - intros x l e' s' _ (-> & i & Hi & Hl & Ha).
    destruct (n - i)%nat as [|m] eqn:E; [done|]. simpl in Hl. injection Hl as -> ->.
    apply Hbody; [lia|done|]. intros s2 Ha2. split; [done|]. exists (S i). split; [lia|].
    split; [f_equal; lia|]. rewrite seq_S, fmap_app. simpl. by eapply after_app.
Qed.

(** The writes of the two loops. *)
Definition log_writes (dv start : Z) (blocks : list Z) (cur : Z * Z -> list Z) (i : nat) : bwrite_t :=
  (log_key dv start i, cur (home_key dv blocks i)).
Definition home_writes (dv start : Z) (blocks : list Z) (cur : Z * Z -> list Z) (i : nat) : bwrite_t :=
  (home_key dv blocks i, cur (log_key dv start i)).

Lemma keys_sub (wf : nat -> bwrite_t) i k : k ∈ keys (wf <$> seq 0 i) <-> exists j, (j < i)%nat /\ k = (wf j).1.
Proof.
  unfold keys. rewrite elem_of_list_to_set, <- list_fmap_compose, list_elem_of_fmap. split.
  - intros (j & -> & Hj%elem_of_seq). exists j. split; [lia|done].
  - intros (j & Hj & ->). exists j. split; [done|]. apply elem_of_seq. lia.
Qed.

Lemma keys_fst (ws : list bwrite_t) k : k ∈ ws.*1 <-> k ∈ keys ws.
Proof. unfold keys. by rewrite elem_of_list_to_set. Qed.

(** What a log needs of the cache: its own blocks are not pinned. *)
Definition log_clean (dv start : Z) (dirt : gset (Z * Z)) : Prop :=
  forall bn, in_log start bn -> (dv, bn) ∉ dirt.

Lemma log_key_clean dv start n blocks dirt i :
  log_geom dv start n blocks -> log_clean dv start dirt -> (i < n)%nat -> log_key dv start i ∉ dirt.
Proof.
  intros Hg Hcl Hi. unfold log_key. destruct (log_key_eq _ _ _ _ i Hg Hi) as [-> Hin]. by apply Hcl.
Qed.

Lemma wp_write_log s cur dirt e dv start n blocks (Q : unit -> env kernel -> kernel -> Prop) :
  cache s [] cur dirt -> log_is dv start n blocks s -> log_geom dv start n blocks ->
  log_clean dv start dirt -> (forall i, (i < n)%nat -> home_key dv blocks i ∈ dirt) -> (size dirt < head)%nat ->
  (forall s', after (log_writes dv start blocks cur <$> seq 0 n) s cur dirt s' -> Q tt e s') ->
  wp write_log Q e s.
Proof.
  intros Hc Hl Hg Hcl Hh Hsz HQ. unfold write_log. apply wp_bind, wp_get.
  pose proof Hl as (_ & _ & -> & _). rewrite Nat2Z.id. apply wp_bind.
  apply (wp_blocks (log_writes dv start blocks cur) _ n s cur dirt e); [done| |intros s' Ha; by apply wp_ret, HQ].
  intros i si R Hi Hai HR. pose proof Hai as [Hci Hdi Hoi].
  assert (Hdd : dirt ∖ keys (log_writes dv start blocks cur <$> seq 0 i) = dirt).
  { apply set_eq. intros k. rewrite elem_of_difference, keys_sub. split; [by intros [? _]|].
    intros Hk. split; [done|]. intros (j & Hj & ->). revert Hk. eapply log_key_clean; [done|done|lia]. }
  rewrite Hdd in *.
  eapply (wp_log_block si _ dirt e R dv start n blocks i); [exact Hci|by eapply log_is_only|done|done| |by apply Hh|done|].
  { by eapply log_key_clean. }
  intros s' Ha. apply HR. rewrite upd_all_other in Ha; [done|].
  rewrite keys_fst, keys_sub. intros (j & Hj & E). symmetry in E. revert E. simpl.
  intros E. symmetry in E. revert E. eapply home_not_log; [done|done|lia].
Qed.

Lemma wp_install_trans s cur dirt e dv start n blocks (Q : unit -> env kernel -> kernel -> Prop) :
  cache s [] cur dirt -> log_is dv start n blocks s -> log_geom dv start n blocks ->
  log_clean dv start dirt -> NoDup (home_key dv blocks <$> seq 0 n) ->
  (size dirt < head)%nat ->
  (forall i, (i < n)%nat -> home_key dv blocks i ∈ dirt) \/ (size dirt + 1 < head)%nat ->
  (forall s', after (home_writes dv start blocks cur <$> seq 0 n) s cur dirt s' -> Q tt e s') ->
  wp install_trans Q e s.
Proof.
  intros Hc Hl Hg Hcl Hnd Hsz Hh HQ. unfold install_trans. apply wp_bind, wp_get.
  pose proof Hl as (_ & _ & -> & _). rewrite Nat2Z.id. apply wp_bind.
  apply (wp_blocks (home_writes dv start blocks cur) _ n s cur dirt e); [done| |intros s' Ha; by apply wp_ret, HQ].
  intros i si R Hi Hai HR. pose proof Hai as [Hci Hdi Hoi].
  set (ws := home_writes dv start blocks cur <$> seq 0 i) in *.
  assert (Hsub : (size (dirt ∖ keys ws) <= size dirt)%nat) by (apply subseteq_size; set_solver).
  eapply (wp_install_block si _ _ e R dv start n blocks i); [exact Hci|by eapply log_is_only|done|done| |lia| |].
  - intros [Hk _]%elem_of_difference. revert Hk. by eapply log_key_clean.
  - destruct Hh as [Hh|Hh]; [left|right; lia]. apply elem_of_difference. split; [by apply Hh|].
    unfold ws. rewrite keys_sub. intros (j & Hj & E). simpl in E.
    assert (i = j); [|lia]. eapply NoDup_lookup; [exact Hnd|..].
    + rewrite list_lookup_fmap, lookup_seq_lt by lia. done.
    + rewrite list_lookup_fmap, lookup_seq_lt by lia. simpl. by rewrite <- E.
  - intros s' Ha. apply HR. rewrite upd_all_other in Ha; [done|].
    unfold ws. rewrite keys_fst, keys_sub. intros (j & Hj & E). symmetry in E. revert E. simpl.
    eapply home_not_log; [done|lia|done].
Qed.

(** ** The header *)

(** The header block for [n] blocks, written over [d]. *)
Definition header_of (d : list Z) (n : nat) (blocks : list Z) : list Z :=
  foldl (fun d i => put32 d (4 + 4 * i) (lget blocks i)) (put32 d 0 (Z.of_nat n)) (seq 0 n).

Lemma fill_header b e l : forall s,
  for_each l (fun i =>
    bn ← lg (fun l => lget (lh_block l) i);
    bufset b (fun q => set_bdata (put32 (bdata q) (4 + 4 * i) bn) q);;
    mret (None : option unit)) e s =
  Done None e (on_buf b (fun q => set_bdata
    (foldl (fun d i => put32 d (4 + 4 * i) (lget (lh_block (k_log s)) i)) (bdata q) l) q) s).
Proof.
  induction l as [|i l IH]; intros s.
  - simpl. unfold mret, M_ret. f_equal. rewrite (on_buf_at b _ id).
    + unfold on_buf. rewrite list_alter_id by done. by destruct s.
    + simpl. by destruct (buf_of b s).
  - cbn [for_each]. unfold lg, bufset. erewrite bind_Done; [|do 2 (erewrite bind_Done by done); done].
    cbv beta iota. unfold lg, bufset in IH. rewrite IH. f_equal. rewrite on_buf_on_buf. done.
Qed.

Definition head_key (dv start : Z) : Z * Z := (dv, start).

Lemma wp_write_head s cur dirt e dv start n blocks (Q : unit -> env kernel -> kernel -> Prop) :
  cache s [] cur dirt -> log_is dv start n blocks s -> log_geom dv start n blocks ->
  log_clean dv start dirt -> (size dirt < head)%nat ->
  (forall s', after [(head_key dv start, header_of (cur (head_key dv start)) n blocks)] s cur dirt s' ->
     Q tt e s') ->
  wp write_head Q e s.
Proof.
  intros Hc Hl Hg Hcl Hsz HQ. pose proof (lg_dev _ _ _ _ Hg) as Hdv. pose proof Hl as (Hld & Hls & Hln & Hlb).
  pose proof (lg_start _ _ _ _ Hg) as Hst. assert (Hin : in_log start start) by (unfold in_log; lia).
  assert (Hsv : serves dv start) by (by apply (lg_serves _ _ _ _ Hg)). specialize (Hcl start Hin).
  unfold write_head. apply wp_bind, wp_get, wp_bind, wp_get. rewrite Hld, Hls, (u32_small start) by lia.
  apply wp_bind. eapply (wp_bread s [] cur dirt dv start); [done..|set_solver|by right; simpl; lia|].
  intros b s1 _ Hc1 Hk1 _ Hd1 Ho1. assert (Hb : b ∈ [b]) by (by left).
  apply wp_bind, wp_get. rewrite (bio_only_log _ _ Ho1), Hln, Nat2Z.id.
  apply wp_bind, wp_modify. apply wp_bind. eapply wp_intro; [apply fill_header|].
  rewrite on_buf_on_buf.
  set (hdr := header_of (cur (head_key dv start)) n blocks).
  match goal with |- wp _ _ _ ?x => assert (Hs2 : x = on_buf b (set_bdata hdr) s1) end.
  { apply on_buf_at. unfold compose. simpl. rewrite (held_data _ _ _ _ _ Hc1 Hb), Hk1.
    rewrite (bio_only_log _ _ Ho1), Hlb. done. }
  rewrite Hs2. clear Hs2.
  pose proof (cache_store _ _ _ _ _ hdr Hc1 Hb) as Hc2. rewrite Hk1 in Hc2.
  set (s2 := on_buf b (set_bdata hdr) s1) in *.
  assert (Hk2 : key (buf_of b s2) = (dv, start)).
  { rewrite <- Hk1. unfold s2, buf_of, on_buf. simpl. by apply (alter_field key). }
  destruct (key_eq _ _ _ Hk2) as [Hd2 Hb2].
  assert (Hcur : upd_cur (dv, start) hdr cur (dv, start) = hdr) by (unfold upd_cur; by rewrite decide_True).
  apply wp_bind. eapply (wp_bwrite s2); [done|done|by rewrite Hd2, Hb2|].
  intros s3 Hc3 Hk3 Hd3 Ho3. rewrite Hk2, Hcur, Hd2, Hb2 in Hd3. rewrite Hk2 in Hc3.
  change (k_disk s2) with (k_disk s1) in Hd3. rewrite Hd1 in Hd3.
  destruct (key_eq _ dv start (eq_trans (Hk3 b) Hk2)) as [Hd3' Hb3'].
  eapply (wp_brelse s3 [b] [] _ _ b); [done|done| |].
  { right. rewrite Hk3, Hk2, Hcur, Hd3', Hb3', Hd3. unfold disk_read, disk_write. simpl.
    by rewrite lookup_insert_eq. }
  intros s4 Hc4 Hk4 Hd4 Ho4. apply HQ. split.
  - assert (Hkk : forall d, dirt ∖ keys [(head_key dv start, d)] = dirt ∖ {[(dv, start)]})
      by (intros d; unfold keys; set_solver).
    rewrite Hkk. exact Hc4.
  - by rewrite Hd4, Hd3.
  - eapply bio_only_trans; [exact Ho1|]. eapply bio_only_trans; [apply (bio_only_on_buf b)|].
    eauto with frame.
Qed.

(** ** commit *)

(** All the writes of a transaction, in order: the log, the header, the home locations, and
    the cleared header. *)
Definition commit_writes (dv start : Z) (n : nat) (blocks : list Z) (cur : Z * Z -> list Z) : list bwrite_t :=
  let hdr := header_of (cur (head_key dv start)) n blocks in
  (log_writes dv start blocks cur <$> seq 0 n) ++ [(head_key dv start, hdr)] ++
  ((fun i => (home_key dv blocks i, cur (home_key dv blocks i))) <$> seq 0 n) ++
  [(head_key dv start, put32 hdr 0 0)].

Lemma cache_log l s held cur dirt : cache s held cur dirt -> cache (set_k_log l s) held cur dirt.
Proof. by intros []; split. Qed.

Lemma upd_all_self ws cur : (forall w, w ∈ ws -> w.2 = cur w.1) -> forall k, upd_all ws cur k = cur k.
Proof.
  induction ws as [|[k' d] ws IH]; intros Hw k; [done|]. simpl.
  rewrite (upd_all_ext ws _ cur).
  - apply IH. intros w Hin. apply Hw. by right.
  - intros k0. unfold upd_cur. destruct (decide (k0 = k')) as [->|]; [|done]. by apply (Hw (k', d)); left.
Qed.

(** The value a block has after writes to distinct blocks. *)
Lemma upd_all_at (wf : nat -> bwrite_t) n cur i :
  NoDup ((fun i => (wf i).1) <$> seq 0 n) -> (i < n)%nat -> upd_all (wf <$> seq 0 n) cur (wf i).1 = (wf i).2.
Proof.
  intros Hnd Hi. replace (seq 0 n) with (seq 0 i ++ i :: seq (S i) (n - S i)).
  2: { replace n with (i + S (n - S i))%nat at 2 by lia. by rewrite seq_app. }
  rewrite fmap_app, upd_all_app. simpl. rewrite upd_all_other.
  { unfold upd_cur. by rewrite decide_True. }
  rewrite <- list_fmap_compose. intros (j & E & Hj%elem_of_seq)%list_elem_of_fmap. simpl in E.
  assert (i = j); [|lia]. eapply NoDup_lookup; [exact Hnd|..].
  - rewrite list_lookup_fmap, lookup_seq_lt by lia. done.
  - rewrite list_lookup_fmap, lookup_seq_lt by lia. simpl. by rewrite E.
Qed.

Lemma log_keys_nodup dv start n blocks :
  log_geom dv start n blocks -> NoDup (log_key dv start <$> seq 0 n).
Proof.
  intros Hg. apply NoDup_fmap_2_strong; [|apply NoDup_seq].
  intros x y Hx%elem_of_seq Hy%elem_of_seq E. unfold log_key in E.
  destruct (log_key_eq _ _ _ _ x Hg ltac:(lia)) as [Ex _]. destruct (log_key_eq _ _ _ _ y Hg ltac:(lia)) as [Ey _].
  rewrite Ex, Ey in E. injection E. lia.
Qed.

Lemma head_not_home dv start n blocks i :
  log_geom dv start n blocks -> (i < n)%nat -> home_key dv blocks i <> head_key dv start.
Proof.
  intros Hg Hi [= E]. destruct (lg_home _ _ _ _ Hg i Hi) as [Hh _]. apply Hh. rewrite E.
  pose proof (lg_start _ _ _ _ Hg). unfold in_log. lia.
Qed.

Lemma head_not_log dv start n blocks i :
  log_geom dv start n blocks -> (i < n)%nat -> log_key dv start i <> head_key dv start.
Proof.
  intros Hg Hi E. destruct (log_key_eq _ _ _ _ i Hg Hi) as [E' _]. unfold log_key, head_key in E.
  injection E as E. lia.
Qed.

(** The transaction in memory: [n] distinct blocks, pinned in the cache. *)
Record transaction (dv start : Z) (n : nat) (blocks : list Z) (dirt : gset (Z * Z)) (s : kernel) : Prop := {
  tr_log : log_is dv start n blocks s;
  tr_geom : log_geom dv start n blocks;
  tr_homes : NoDup (home_key dv blocks <$> seq 0 n);
  tr_dirt : forall k, k ∈ dirt <-> exists i, (i < n)%nat /\ k = home_key dv blocks i
}.

(** There is a buffer left for a block of the log. *)
Lemma tr_size dv start n blocks dirt s : transaction dv start n blocks dirt s -> (size dirt < head)%nat.
Proof.
  intros Ht. pose proof (lg_n _ _ _ _ (tr_geom _ _ _ _ _ _ Ht)) as Hn.
  apply Nat.le_lt_trans with n; [|unfold head; lia].
  rewrite <- (length_seq n 0), <- (length_fmap (home_key dv blocks)).
  unfold size, set_size. apply submseteq_length, NoDup_submseteq; [apply NoDup_elements|].
  intros k Hk%elem_of_elements. apply (tr_dirt _ _ _ _ _ _ Ht) in Hk as (i & Hi & ->).
  apply list_elem_of_fmap. exists i. split; [done|]. apply elem_of_seq. lia.
Qed.

Lemma tr_clean dv start n blocks dirt s : transaction dv start n blocks dirt s -> log_clean dv start dirt.
Proof.
  intros Ht bn Hin (i & Hi & E)%(tr_dirt _ _ _ _ _ _ Ht).
  destruct (lg_home _ _ _ _ (tr_geom _ _ _ _ _ _ Ht) i Hi) as [Hh _]. apply Hh. unfold home_key in E. congruence.
Qed.

Lemma cache_ext s held cur cur' dirt :
  (forall k, cur k = cur' k) -> cache s held cur dirt -> cache s held cur' dirt.
Proof.
  intros E []. split; try done.
  - intros b Hb Hv. rewrite <- E. by apply ca_valid.
  - intros k Hk Hd Hn. rewrite <- E. by apply ca_clean.
Qed.

(** The blocks of the cache are no pinned ones of the log. *)
Lemma minus_log dv start dirt (ws : list bwrite_t) :
  log_clean dv start dirt -> (forall k, k ∈ keys ws -> k.1 = dv /\ in_log start k.2) -> dirt ∖ keys ws = dirt.
Proof.
  intros Hcl Hk. apply set_eq. intros k. rewrite elem_of_difference. split; [by intros [? _]|].
  intros Hin. split; [done|]. intros [<- Hl]%Hk. apply (Hcl k.2 Hl). by destruct k.
Qed.

Lemma head_in_log dv start n blocks : log_geom dv start n blocks -> in_log start start.
Proof. intros Hg. pose proof (lg_start _ _ _ _ Hg). unfold in_log. lia. Qed.

(** The contents after the log and its header were written. *)
Lemma logged_at dv start n blocks cur D hdr i :
  log_geom dv start n blocks -> (i < n)%nat ->
  upd_all [(head_key dv start, hdr)] (upd_all (log_writes dv start blocks cur <$> seq 0 n) D) (log_key dv start i) =
  cur (home_key dv blocks i).
Proof.
  intros Hg Hi. rewrite (upd_all_other [_]).
  - apply (upd_all_at (log_writes dv start blocks cur) n D i); [|done].
    by apply (log_keys_nodup dv start n blocks).
  - intros E%list_elem_of_singleton. revert E. by eapply head_not_log.
Qed.

(** The first half of a commit: the blocks and the header go to the log. *)
Lemma wp_log_and_head {B} s cur dirt e dv start n blocks (rest : K B) (Q : B -> env kernel -> kernel -> Prop) :
  cache s [] cur dirt -> log_is dv start n blocks s -> log_geom dv start n blocks ->
  log_clean dv start dirt -> (forall i, (i < n)%nat -> home_key dv blocks i ∈ dirt) -> (size dirt < head)%nat ->
  (forall s', after ((log_writes dv start blocks cur <$> seq 0 n) ++
       [(head_key dv start, header_of (cur (head_key dv start)) n blocks)]) s cur dirt s' ->
     wp rest Q e s') ->
  wp (write_log;; write_head;; rest) Q e s.
Proof.
  intros Hc Hl Hg Hcl Hh Hsz HQ. set (ws1 := log_writes dv start blocks cur <$> seq 0 n) in *.
  assert (Hk1 : forall k, k ∈ keys ws1 -> exists i, (i < n)%nat /\ k = log_key dv start i).
  { intros k (j & Hj & ->)%keys_sub. by exists j. }
  assert (Hd1 : dirt ∖ keys ws1 = dirt).
  { apply (minus_log dv start); [done|]. intros k (i & Hi & ->)%Hk1. split; [done|]. unfold log_key. simpl.
    by destruct (log_key_eq _ _ _ _ i Hg Hi) as [-> ?]. }
  apply wp_bind. eapply (wp_write_log s); try done. intros s1 Ha1. fold ws1 in Ha1.
  pose proof Ha1 as [Hc1 _ Ho1].
  assert (Hhd : upd_all ws1 cur (head_key dv start) = cur (head_key dv start)).
  { apply upd_all_other. rewrite keys_fst. intros (i & Hi & E)%Hk1. symmetry in E. revert E.
    by eapply head_not_log. }
  apply wp_bind. eapply (wp_write_head s1); [exact Hc1|by eapply log_is_only|done|by rewrite Hd1|by rewrite Hd1|].
  intros s2 Ha2. rewrite Hhd in Ha2. apply HQ. by eapply after_app.
Qed.

(** What a commit and a recovery end with: the blocks of the log go to their home
    locations, and the header is cleared. *)
Definition install_writes (dv start : Z) (n : nat) (blocks : list Z) (cur : Z * Z -> list Z) : list bwrite_t :=
  (home_writes dv start blocks cur <$> seq 0 n) ++ [(head_key dv start, put32 (cur (head_key dv start)) 0 0)].

Lemma wp_install_and_clear s cur dirt e dv start n blocks (Q : unit -> env kernel -> kernel -> Prop) :
  cache s [] cur dirt -> log_is dv start n blocks s -> log_geom dv start n blocks ->
  log_clean dv start dirt -> NoDup (home_key dv blocks <$> seq 0 n) -> (size dirt < head)%nat ->
  (forall i, (i < n)%nat -> home_key dv blocks i ∈ dirt) \/ (size dirt + 1 < head)%nat ->
  (forall s' ws, ws = install_writes dv start n blocks cur ->
     cache s' [] (upd_all ws cur) (dirt ∖ keys ws) -> k_disk s' = disk_all ws (k_disk s) ->
     bio_only (on_log (set_lh_n 0) s) s' -> Q tt e s') ->
  wp (install_trans;; modify (on_log (set_lh_n 0));; write_head) Q e s.
Proof.
  intros Hc Hl Hg Hcl Hnd Hsz Hh HQ. set (ws1 := home_writes dv start blocks cur <$> seq 0 n).
  apply wp_bind. eapply (wp_install_trans s); try done. intros s1 [Hc1 Hd1 Ho1]. fold ws1 in Hc1, Hd1.
  apply wp_bind, wp_modify. pose proof Hl as (Hld & Hls & _ & Hlb).
  assert (Hhd : upd_all ws1 cur (head_key dv start) = cur (head_key dv start)).
  { apply upd_all_other. unfold ws1. rewrite keys_fst, keys_sub. intros (i & Hi & E). symmetry in E. revert E.
    by eapply head_not_home. }
  eapply (wp_write_head (on_log (set_lh_n 0) s1) (upd_all ws1 cur) (dirt ∖ keys ws1) _ dv start 0 blocks).
  - by apply cache_log.
  - unfold log_is, on_log. simpl. by rewrite (bio_only_log _ _ Ho1).
  - destruct Hg. split; try done. intros i Hi. lia.
  - intros bn Hbn [Hin _]%elem_of_difference. by apply (Hcl bn).
  - eapply Nat.le_lt_trans; [|exact Hsz]. apply subseteq_size. set_solver.
  - intros s2 [Hc2 Hd2 Ho2]. rewrite Hhd in *. eapply (HQ s2 _ eq_refl).
    + unfold install_writes. fold ws1. rewrite upd_all_app.
      rewrite minus_keys_app. exact Hc2.
    + unfold install_writes. rewrite disk_all_app. fold ws1. by rewrite <- Hd1.
    + eapply bio_only_trans; [|exact Ho2]. destruct Ho1 as (bc & d & pt & -> & Hlen). by exists bc, d, pt.
Qed.

Lemma install_is_home dv start n blocks cur :
  log_geom dv start n blocks ->
  let hdr := header_of (cur (head_key dv start)) n blocks in
  let ws1 := (log_writes dv start blocks cur <$> seq 0 n) ++ [(head_key dv start, hdr)] in
  ws1 ++ install_writes dv start n blocks (upd_all ws1 cur) = commit_writes dv start n blocks cur.
Proof.
  intros Hg hdr ws1. unfold commit_writes, install_writes, ws1. fold hdr.
  rewrite <- (app_assoc (_ <$> _)). do 2 f_equal. f_equal.
  - apply list_fmap_ext. intros ? i [-> Hi]%lookup_seq. unfold home_writes. f_equal.
    rewrite upd_all_app. by apply (logged_at dv start n blocks).
  - rewrite upd_all_app. simpl. unfold upd_cur. by rewrite decide_True.
Qed.

Lemma wp_commit s cur dirt e dv start n blocks (Q : unit -> env kernel -> kernel -> Prop) :
  cache s [] cur dirt -> transaction dv start n blocks dirt s -> (0 < n)%nat ->
  (forall s' ws, ws = commit_writes dv start n blocks cur ->
     k_disk s' = disk_all ws (k_disk s) -> cache s' [] (upd_all ws cur) ∅ ->
     bio_only (on_log (set_lh_n 0) s) s' -> Q tt e s') ->
  wp commit Q e s.
Proof.
  intros Hc Ht Hn HQ. pose proof (tr_clean _ _ _ _ _ _ Ht) as Hcl.
  pose proof (tr_size _ _ _ _ _ _ Ht) as Hsz. destruct Ht as [Hl Hg Hnd Hdirt].
  assert (Hh : forall i, (i < n)%nat -> home_key dv blocks i ∈ dirt).
  { intros i Hi. apply Hdirt. by exists i. }
  unfold commit. apply wp_bind, wp_get. pose proof Hl as (_ & _ & -> & _).
  destruct (0 <? Z.of_nat n) eqn:E; [|lia]. unfold when.
  eapply (wp_log_and_head s cur dirt); try done. intros s1 [Hc1 Hd1 Ho1].
  pose proof (install_is_home dv start n blocks cur Hg) as Hw. cbv zeta in Hw.
  set (ws1 := _ ++ [(head_key dv start, _)]) in *.
  assert (Hdd : dirt ∖ keys ws1 = dirt).
  { apply (minus_log dv start); [done|]. intros k Hk%keys_fst. unfold ws1 in Hk. rewrite fmap_app in Hk.
    apply elem_of_app in Hk as [Hk|Hk%list_elem_of_singleton].
    - apply keys_fst, keys_sub in Hk as (j & Hj & ->). split; [done|]. simpl.
      by destruct (log_key_eq _ _ _ _ j Hg Hj) as [-> ?].
    - subst k. split; [done|]. by eapply head_in_log. }
  rewrite Hdd in Hc1.
  eapply (wp_install_and_clear s1); [exact Hc1|by eapply log_is_only|done|done|done|done|by left|].
  intros s2 ws2 -> Hc2 Hd2 Ho2. set (ws2 := install_writes _ _ _ _ _) in *.
  apply (HQ s2 (ws1 ++ ws2)); [exact Hw|by rewrite disk_all_app, <- Hd1| |].
  - rewrite upd_all_app. assert (dirt ∖ keys ws2 = ∅) as <-; [|done].
    apply set_eq. intros k. rewrite elem_of_difference. split; [|set_solver].
    intros [(i & Hi & ->)%Hdirt Hk]. exfalso. apply Hk. apply keys_fst. unfold ws2, install_writes.
    rewrite fmap_app. apply elem_of_app. left. apply keys_fst, keys_sub. by exists i.
  - eapply bio_only_trans; [|exact Ho2]. destruct Ho1 as (bc & d & pt & -> & Hlen). by exists bc, d, pt.
Qed.

End code.
