(* ===== verification/LogOps.v ===== *)
(** The operations of log.c that file system calls use: [begin_op], [log_write] and [end_op]. *)

From S2P Require Import Prelude Params Mem State Spinlock Console Kalloc Vm VmTables VmSpace VmAlloc.
From S2P Require Import VmCopy Proc ProcSpec Ide Bio BioRing BioSpec BioProps Log LogSpec.

Lemma lget_insert_eq d i v : (i < length d)%nat -> lget (<[i:=v]> d) i = v.
Proof. intros Hi. unfold lget. rewrite nth_lookup, list_lookup_insert_eq; done. Qed.

Lemma lget_insert_ne d i j v : i <> j -> lget (<[i:=v]> d) j = lget d j.
Proof. intros Hi. unfold lget. by rewrite !nth_lookup, list_lookup_insert_ne. Qed.

(** * log_write *)

(** The search of [log_write] finds the block, or the end of the list. *)
Lemma log_slot_spec blocks bn n i0 :
  let i := log_slot blocks bn i0 n in
  (i0 <= i <= i0 + n)%nat /\ (forall j, (i0 <= j < i)%nat -> u32 (lget blocks j) <> bn) /\
  ((i < i0 + n)%nat -> u32 (lget blocks i) = bn).
Proof.
  revert i0. induction n as [|n IH]; intros i0; simpl.
  { split; [lia|]. split; intros; lia. }
  destruct (u32 (lget blocks i0) =? bn) eqn:E.
  { split; [lia|]. split; [intros; lia|]. intros _. lia. }
  destruct (IH (S i0)) as (H1 & H2 & H3). split; [lia|]. split.
  - intros j Hj. destruct (decide (j = i0)) as [->|]; [lia|]. apply H2. lia.
  - intros Hlt. apply H3. lia.
Qed.

Definition add_block (bn : Z) (l : log_t) : log_t :=
  let i := log_slot (lh_block l) bn 0 (Z.to_nat (lh_n l)) in
  let l := set_lh_block (<[i := s32 bn]> (lh_block l)) l in
  if Z.of_nat i =? lh_n l then set_lh_n (lh_n l + 1) l else l.

(** What a file system call that writes blocks changes: the cache, the disk, the log in memory and sleeping processes. *)
Definition fs_only (s s' : kernel) : Prop :=
  exists bc d pt lg, s' = set_k_log lg (set_k_bcache bc (set_k_disk d (set_k_ptable pt s))) /\
    outstanding lg = outstanding (k_log s) /\ committing lg = committing (k_log s).

Lemma fs_only_refl s : fs_only s s.
Proof. exists (k_bcache s), (k_disk s), (k_ptable s), (k_log s). split; [by destruct s|done]. Qed.

Lemma fs_only_trans s1 s2 s3 : fs_only s1 s2 -> fs_only s2 s3 -> fs_only s1 s3.
Proof.
  intros (bc & d & pt & lg & -> & H1 & H2) (bc' & d' & pt' & lg' & -> & H3 & H4). exists bc', d', pt', lg'.
  simpl in *. split_and!; [done|congruence..].
Qed.

Lemma bio_fs_only s s' : bio_only s s' -> fs_only s s'.
Proof. intros (bc & d & pt & -> & _). exists bc, d, pt, (k_log s). split; [by destruct s|done]. Qed.

#[export] Hint Resolve fs_only_refl bio_fs_only : frame.
#[export] Hint Extern 8 (fs_only _ _) => eapply fs_only_trans; [eassumption|] : frame.
#[export] Hint Extern 9 (fs_only _ _) => eapply fs_only_trans; [apply bio_fs_only; eassumption|] : frame.

Lemma fs_only_on_buf b f s : fs_only s (on_buf b f s).
Proof. apply bio_fs_only, bio_only_on_buf. Qed.

Section ops.
Context `{Symbols} `{Driver} {Hdrv : SyncDriver}.

Lemma log_write_eq b e s :
  ready L_log s -> lh_n (k_log s) < LOGSIZE -> lh_n (k_log s) < lsize (k_log s) - 1 -> 1 <= outstanding (k_log s) ->
  log_write b e s = Done tt e (on_buf b (setflags B_DIRTY) (on_log (add_block (blockno (buf_of b s))) s)).
Proof.
  intros Hr Hn Hsz Ho. unfold log_write. erewrite bind_Done by done.
  destruct (_ || _) eqn:E; [lia|]. destruct (_ <? 1) eqn:E'; [lia|].
  erewrite bind_Done by (by apply acquire_ready). unfold bufget, lg, bufset.
  do 5 (erewrite bind_Done by done). set (s' := on_buf b _ (on_log (add_block _) s)).
  assert (Es : forall x, x = acquired L_log s' -> release L_log e x = Done tt e s').
  { intros x ->. by apply release_acquired. }
  apply Es. unfold s', add_block, on_buf, on_log. simpl.
  by destruct (_ =? _).
Qed.

(** Adding a block to a transaction. *)
Lemma add_block_transaction dv start n blocks dirt s bn :
  transaction dv start n blocks dirt s -> length blocks = Z.to_nat LOGSIZE -> Z.of_nat n < LOGSIZE - 1 ->
  0 <= bn < 4294967296 -> ~ in_log start bn -> serves dv bn ->
  exists blocks', transaction dv start (if decide ((dv, bn) ∈ dirt) then n else S n) blocks'
    (dirt ∪ {[(dv, bn)]}) (on_log (add_block bn) s).
Proof.
  intros [Hl Hg Hnd Hdirt] Hlen Hn Hbn Hout Hsv. pose proof Hl as (Hld & Hls & Hln & Hlb).
  destruct (log_slot_spec blocks bn n 0) as (Hi & Hbefore & Hat). set (i := log_slot blocks bn 0 n) in *.
  set (blocks' := <[i := s32 bn]> blocks). exists blocks'.
  assert (Hhome : home_key dv blocks' i = (dv, bn)).
  { unfold home_key, blocks'. rewrite lget_insert_eq, u32_s32, u32_small by lia. done. }
  assert (Hother : forall j, j <> i -> home_key dv blocks' j = home_key dv blocks j).
  { intros j Hj. unfold home_key, blocks'. by rewrite lget_insert_ne. }
  assert (Hin : (dv, bn) ∈ dirt <-> (i < n)%nat).
  { rewrite Hdirt. split.
    - intros (j & Hj & [= E]). destruct (decide (j < i)%nat); [|lia]. by destruct (Hbefore j ltac:(lia)).
    - intros Hlt. exists i. split; [done|]. unfold home_key. by rewrite Hat by lia. }
  set (n' := if decide _ then n else S n).
  assert (Hn' : (n' = n /\ (i < n)%nat) \/ (n' = S n /\ i = n)).
  { unfold n'. destruct (decide _) as [Hd|Hd]; rewrite Hin in Hd; [by left|right]. lia. }
  assert (Hkeys : forall j, (j < n')%nat -> j = i \/ (j < n)%nat /\ j <> i) by (intros j; lia).
  split.
  - unfold log_is, on_log, add_block. simpl. rewrite Hlb, Hln, Nat2Z.id. fold i.
    destruct (_ =? _) eqn:E; simpl; (split_and!; [done|done| |done]); lia.
  - split; try apply Hg; [lia|]. intros j Hj. destruct (Hkeys j Hj) as [->|[Hjn Hji]].
    + injection Hhome as ->. done.
    + pose proof (Hother j Hji) as E. injection E as ->. by apply Hg.
  - apply NoDup_fmap_2_strong; [|apply NoDup_seq]. intros x y Hx%elem_of_seq Hy%elem_of_seq E.
    assert (Hold : forall j, (j < n)%nat -> j <> i -> home_key dv blocks j <> (dv, bn)).
    { intros j Hjn Hji Ej. destruct (decide (i < n)%nat) as [Hlt|].
      - apply Hji. eapply NoDup_lookup; [exact Hnd|..];
          rewrite list_lookup_fmap, lookup_seq_lt by lia; simpl; [done|]. rewrite Ej. unfold home_key.
        by rewrite Hat by lia.
      - injection Ej. apply Hbefore. lia. }
    destruct (Hkeys x ltac:(lia)) as [->|[Hxn Hxi]], (Hkeys y ltac:(lia)) as [->|[Hyn Hyi]];
      rewrite ?Hhome, ?Hother in E by done; [done|..].
    + by destruct (Hold y Hyn Hyi).
    + by destruct (Hold x Hxn Hxi).
    + eapply NoDup_lookup; [exact Hnd|..]; rewrite list_lookup_fmap, lookup_seq_lt by lia; simpl; [done|by rewrite E].
  - intros k. rewrite elem_of_union, elem_of_singleton, Hdirt. split.
    + intros [(j & Hj & ->)| ->].
      * destruct (decide (j = i)) as [->|Hji].
        -- exists i. split; [lia|]. rewrite Hhome. unfold home_key. by rewrite Hat by lia.
        -- exists j. split; [lia|]. by rewrite Hother.
      * exists i. split; [lia|done].
    + intros (j & Hj & ->). destruct (Hkeys j Hj) as [->|[Hjn Hji]]; [by right|left].
      exists j. by rewrite Hother.
Qed.

(** * begin_op *)

Lemma begin_op_eq e s :
  ready L_log s -> committing (k_log s) = 0 ->
  lh_n (k_log s) + (outstanding (k_log s) + 1) * MAXOPBLOCKS <= LOGSIZE ->
  begin_op e s = Done tt e (on_log (fun l => set_outstanding (outstanding l + 1) l) s).
Proof.
  intros Hr Hc Hroom. unfold begin_op. erewrite bind_Done by (by apply acquire_ready).
  apply loop_env_first. erewrite bind_Done by done. simpl. rewrite Hc. simpl. destruct (_ <? _) eqn:E; [lia|].
  erewrite bind_Done by done. erewrite bind_Done; [done|].
  by apply (release_acquired L_log e (on_log (fun l => set_outstanding (outstanding l + 1) l) s)).
Qed.

(** The process that runs, and the locks it needs to wait for the log. *)
Record log_party (p : nat) (s : kernel) : Prop := {
  lp_running : running p s;
  lp_range : (p < Z.to_nat NPROC)%nat;
  lp_table : ptable_ok s;
  lp_log : ready L_log s;
  lp_ptable : ready L_ptable s
}.

(** The rest of the kernel gives the processor back with the locks free. *)
Definition log_others (p : nat) (f : kernel -> kernel) : Prop :=
  forall s, log_party p s ->
    exists s2, f (acquired L_ptable s) = acquired L_ptable s2 /\ log_party p s2 /\
      ifl (k_cpu s2) = ifl (k_cpu s).

Definition log_busy (l : log_t) : bool :=
  cbool (committing l) || (LOGSIZE <? lh_n l + (outstanding l + 1) * MAXOPBLOCKS).

Lemma log_party_on_proc p i f s : log_party p s -> log_party p (on_proc i f s).
Proof.
  intros [H1 H2 H3 H4 H5]. split; try done. unfold ptable_ok in *. simpl. by rewrite length_alter.
Qed.

Lemma log_party_log p f s : log_party p s -> log_party p (on_log f s).
Proof. by intros []. Qed.

(** What one operation more changes. *)
Definition reserved (s : kernel) : kernel := on_log (fun l => set_outstanding (outstanding l + 1) l) s.

(** [log_waits p e s e' t]: process [p] sleeps for the log in [s], and again as long as the log
    is busy when it wakes up; the steps of [e] up to [e'] are what runs in between, and [t] is where
    they lead. *)
Inductive log_waits (p : nat) : env kernel -> kernel -> env kernel -> kernel -> Prop :=
| lw_now e s : log_waits p e s e s
| lw_sleep f e s s2 e' t :
    log_busy (k_log s) = true -> f (acquired L_ptable (on_proc p (go_to_sleep CH_log) s)) = acquired L_ptable s2 ->
    log_waits p e (on_proc p (set_pchan None) s2) e' t -> log_waits p (f :: e) s e' t.

Lemma log_waits_more p e s f e1 t s2 :
  log_waits p e s (f :: e1) t -> log_busy (k_log t) = true ->
  f (acquired L_ptable (on_proc p (go_to_sleep CH_log) t)) = acquired L_ptable s2 ->
  log_waits p e s e1 (on_proc p (set_pchan None) s2).
Proof.
  intros Hw Hb Hf. remember (f :: e1) as e2 eqn:E. induction Hw as [e s|g e s s3 e' t Hbs Hg Hw IH]; subst.
  - eapply lw_sleep; [done|exact Hf|apply lw_now].
  - eapply lw_sleep; [done|exact Hg|]. by apply IH.
Qed.

Lemma log_waits_busy p e s e' t : log_waits p e s e' t -> log_busy (k_log t) = true -> log_busy (k_log s) = true.
Proof. by intros []. Qed.

Lemma wpb_log_sleep (B : Prop) p (Q : unit -> env kernel -> kernel -> Prop) e s :
  Forall (log_others p) e -> log_party p s ->
  (forall f e' s2, e = f :: e' -> Forall (log_others p) e' ->
     f (acquired L_ptable (on_proc p (go_to_sleep CH_log) s)) = acquired L_ptable s2 ->
     log_party p (on_proc p (set_pchan None) s2) -> Q tt e' (acquired L_log (on_proc p (set_pchan None) s2))) ->
  B -> wpb B (sleep CH_log (Some L_log)) Q e (acquired L_log s).
Proof.
  intros He Hp HQ HB. apply (wpb_sleep _ p); [done|apply Hp..| |done].
  intros f e' ->. apply Forall_cons in He as [Hf He'].
  destruct (Hf (on_proc p (go_to_sleep CH_log) s)) as (s2 & Heq & Hp2 & Hi); [by apply log_party_on_proc|].
  exists s2. split_and!; try done; try apply Hp2. eapply HQ; [done|done|done|by apply log_party_on_proc].
Qed.

(** * A file system call that writes blocks *)

(** The state inside an operation that has [n] blocks of the log in use. *)
Record in_op (dv start : Z) (n : nat) (dirt : gset (Z * Z)) (s : kernel) : Prop := {
  op_trans : exists blocks, transaction dv start n blocks dirt s;
  op_ready : ready L_log s;
  op_len : length (lh_block (k_log s)) = Z.to_nat LOGSIZE;
  op_size : LOGSIZE <= lsize (k_log s);
  op_count : 1 <= outstanding (k_log s)
}.

Lemma in_op_bio dv start n dirt s s' : bio_only s s' -> in_op dv start n dirt s -> in_op dv start n dirt s'.
Proof.
  intros Ho [[blocks [Hl Hg Hnd Hd]] Hr Hlen Hsz Hcnt]. split; rewrite ?(bio_only_log _ _ Ho); try done.
  - exists blocks. split; [by eapply log_is_only|done..].
  - by destruct Ho as (bc & d & pt & -> & _).
Qed.

Lemma length_add_block bn l : length (lh_block (add_block bn l)) = length (lh_block l).
Proof. unfold add_block. simpl. destruct (_ =? _); simpl; by rewrite length_insert. Qed.

Lemma add_block_fields bn l : lsize (add_block bn l) = lsize l /\ outstanding (add_block bn l) = outstanding l.
Proof. unfold add_block. simpl. by destruct (_ =? _). Qed.

Lemma wp_log_write s held cur dirt b e dv start n bn (Q : unit -> env kernel -> kernel -> Prop) :
  cache s held cur dirt -> in_op dv start n dirt s -> b ∈ held -> key (buf_of b s) = (dv, bn) ->
  0 <= bn < 4294967296 -> ~ in_log start bn -> serves dv bn -> Z.of_nat n < LOGSIZE - 1 ->
  (forall s' n', (n' <= S n)%nat -> cache s' held cur (dirt ∪ {[(dv, bn)]}) ->
     in_op dv start n' (dirt ∪ {[(dv, bn)]}) s' -> (forall c, key (buf_of c s') = key (buf_of c s)) ->
     k_disk s' = k_disk s -> fs_only s s' -> Q tt e s') ->
  wp (log_write b) Q e s.
Proof.
  intros Hc [[blocks Ht] Hr Hlen Hsz Ho] Hb Hk Hbn Hout Hsv Hn HQ.
  pose proof (tr_log _ _ _ _ _ _ Ht) as (_ & _ & Hln & Hlb). destruct (key_eq _ _ _ Hk) as [_ Hbno].
  destruct (add_block_transaction _ _ _ _ _ _ bn Ht) as (blocks' & Ht'); [by rewrite <- Hlb|done..|].
  eapply wp_intro; [apply log_write_eq; [done|lia..]|]. rewrite Hbno.
  apply (HQ _ (if decide ((dv, bn) ∈ dirt) then n else S n)).
  - destruct (decide _); lia.
  - rewrite <- Hk. apply (cache_mark (on_log (add_block bn) s)); [|done]. by apply cache_log.
  - split; try done.
    + exists blocks'. destruct Ht'. by split.
    + simpl. by rewrite length_add_block.
    + simpl. by rewrite (proj1 (add_block_fields _ _)).
    + simpl. by rewrite (proj2 (add_block_fields _ _)).
  - intros c. unfold buf_of, on_buf. simpl. by apply (alter_field key).
  - done.
  - exists (alter (setflags B_DIRTY) b (k_bcache s)), (k_disk s), (k_ptable s), (add_block bn (k_log s)).
    unfold add_block. split; [by destruct s|]. simpl. by destruct (_ =? _).
Qed.

(** A held buffer gets new contents, which are logged, and is released. *)
Lemma wp_write_release {A} s b held cur dirt e dv start n bn f d (rest : K A) (Q : A -> env kernel -> kernel -> Prop) :
  cache s (b :: held) cur dirt -> in_op dv start n dirt s -> key (buf_of b s) = (dv, bn) ->
  f (buf_of b s) = set_bdata d (buf_of b s) ->
  0 <= bn < 4294967296 -> ~ in_log start bn -> serves dv bn -> Z.of_nat n < LOGSIZE - 1 ->
  (forall s' n', (n' <= S n)%nat -> cache s' held (upd_cur (dv, bn) d cur) (dirt ∪ {[(dv, bn)]}) ->
     in_op dv start n' (dirt ∪ {[(dv, bn)]}) s' -> (forall c, key (buf_of c s') = key (buf_of c s)) ->
     fs_only s s' -> wp rest Q e s') ->
  wp (bufset b f;; log_write b;; brelse b;; rest) Q e s.
Proof.
  intros Hc Hop Hk Hf Hbn Hout Hsv Hn HQ. unfold bufset. apply wp_bind, wp_modify.
  rewrite (on_buf_at b f (set_bdata d)) by done. set (s1 := on_buf b (set_bdata d) s).
  assert (Hk1 : forall c, key (buf_of c s1) = key (buf_of c s)).
  { intros c. unfold s1, buf_of, on_buf. simpl. by apply (alter_field key). }
  pose proof (cache_store _ _ _ _ b d Hc ltac:(by left)) as Hc1. rewrite Hk in Hc1. fold s1 in Hc1.
  apply wp_bind. eapply (wp_log_write s1 (b :: held) _ dirt b e dv start n bn);
    [done|by eapply in_op_bio, Hop; apply bio_only_on_buf|by left|by rewrite Hk1|done..|].
  intros s2 n' Hn' Hc2 Hop2 Hk2 _ Ho2. apply wp_bind.
  eapply (wp_brelse s2 (b :: held) held); [done|done| |].
  { left. rewrite Hk2, Hk1, Hk. set_solver. }
  intros s3 Hc3 Hk3 _ Ho3. eapply HQ; [done|done|by eapply in_op_bio| |].
  - intros c. by rewrite Hk3, Hk2, Hk1.
  - eapply fs_only_trans; [apply (fs_only_on_buf b)|]. eauto with frame.
Qed.

Lemma wp_write_release_last s b held cur dirt e dv start n bn f d (Q : unit -> env kernel -> kernel -> Prop) :
  cache s (b :: held) cur dirt -> in_op dv start n dirt s -> key (buf_of b s) = (dv, bn) ->
  f (buf_of b s) = set_bdata d (buf_of b s) ->
  0 <= bn < 4294967296 -> ~ in_log start bn -> serves dv bn -> Z.of_nat n < LOGSIZE - 1 ->
  (forall s' n', (n' <= S n)%nat -> cache s' held (upd_cur (dv, bn) d cur) (dirt ∪ {[(dv, bn)]}) ->
     in_op dv start n' (dirt ∪ {[(dv, bn)]}) s' -> (forall c, key (buf_of c s') = key (buf_of c s)) ->
     fs_only s s' -> Q tt e s') ->
  wp (bufset b f;; log_write b;; brelse b) Q e s.
Proof.
  intros Hc Hop Hk Hf Hbn Hout Hsv Hn HQ.
  assert (Hw : wp (bufset b f;; log_write b;; brelse b;; mret tt) Q e s).
  { by eapply wp_write_release. }
  apply wp_bind. apply wp_bind_inv in Hw. eapply wp_mono; [exact Hw|]. clear. intros [] e s Hw.
  apply wp_bind. apply wp_bind_inv in Hw. eapply wp_mono; [exact Hw|]. clear. intros [] e s Hw.
  apply wp_bind_inv in Hw. eapply wp_mono; [exact Hw|]. by intros [].
Qed.

(** * Theorems *)


(** [log_write] adds a block to the transaction: the buffer is pinned in the cache until
    the commit, and the transaction has the block exactly once, however often it is written. *)
Theorem log_write_spec s held cur dirt b e dv start n blocks bn :
  cache s held cur dirt -> transaction dv start n blocks dirt s -> ready L_log s ->
  length blocks = Z.to_nat LOGSIZE -> b ∈ held -> key (buf_of b s) = (dv, bn) ->
  0 <= bn < 4294967296 -> ~ in_log start bn -> serves dv bn ->
  Z.of_nat n < LOGSIZE - 1 -> LOGSIZE <= lsize (k_log s) -> 1 <= outstanding (k_log s) ->
  exists s' blocks', log_write b e s = Done tt e s' /\ k_disk s' = k_disk s /\
    cache s' held cur (dirt ∪ {[(dv, bn)]}) /\
    transaction dv start (if decide ((dv, bn) ∈ dirt) then n else S n) blocks' (dirt ∪ {[(dv, bn)]}) s'.
Proof.
  intros Hc Ht Hr Hlen Hb Hk Hbn Hout Hsv Hn Hsz Ho. pose proof (tr_log _ _ _ _ _ _ Ht) as (_ & _ & Hln & _).
  destruct (key_eq _ _ _ Hk) as [_ Hbno].
  destruct (add_block_transaction _ _ _ _ _ _ bn Ht) as (blocks' & Ht'); [done..|].
  exists (on_buf b (setflags B_DIRTY) (on_log (add_block bn) s)), blocks'. split_and!.
  - rewrite <- Hbno. apply log_write_eq; [done|lia..].
  - done.
  - rewrite <- Hk. apply (cache_mark (on_log (add_block bn) s)); [|done]. by apply cache_log.
  - destruct Ht'. by split.
Qed.

(** C36: The space that [begin_op] hands out is one block more than the log has.  From an empty
    log of the [LOGSIZE] blocks that mkfs reserves, header included, three operations of
    [MAXOPBLOCKS] blocks each are admitted, but [log_write] panics at the last of their
    blocks. *)
Theorem log_overcommitted e s :
  ready L_log s -> committing (k_log s) = 0 -> lh_n (k_log s) = 0 -> outstanding (k_log s) = 0 ->
  lsize (k_log s) = LOGSIZE ->
  exists s3, (begin_op;; begin_op;; begin_op) e s = Done tt e s3 /\ outstanding (k_log s3) = 3 /\
    forall s' b, lsize (k_log s') = lsize (k_log s3) ->
      lh_n (k_log s') = outstanding (k_log s3) * MAXOPBLOCKS - 1 ->
      log_write b e s' = Panic "too big a transaction" s'.
Proof.
  intros Hr Hc Hn Ho Hsz. set (f := fun l => set_outstanding (outstanding l + 1) l).
  exists (on_log f (on_log f (on_log f s))). split; [|split].
  - erewrite bind_Done by (apply begin_op_eq; [done|done|simpl; lia]). fold f.
    erewrite bind_Done by (apply begin_op_eq; [done|done|simpl; lia]). fold f.
    apply begin_op_eq; [done|done|simpl; lia].
  - simpl. lia.
  - simpl. intros s' b Hsz' Hn'. unfold log_write. erewrite bind_Done by done.
    destruct (_ || _) eqn:E; [done|lia].
Qed.

End ops.

(** * Witnesses *)

#[local] Existing Instance built_symbols.
#[local] Existing Instance bw_driver | 0.
#[local] Existing Instance bw_sync | 0.

(** A process runs, with an empty log of [LOGSIZE] blocks at block 2 of the memory disk and
    [k] operations in progress. *)
Definition lw_boot (k : Z) : kernel :=
  set_k_log (mkLog 2 LOGSIZE k 0 1 0 (replicate (Z.to_nat LOGSIZE) 0))
    (set_lock L_log (mkLock 0 "log" None) (on_cpu (set_cpu_proc (Some 0%nat)) bw_boot)).

Definition lw_state (k : Z) : kernel := after_binit (lw_boot k).

Lemma lw_cache k :
  cache (lw_state k) [] (fun b => disk_read b.1 b.2 (k_disk boot_state)) ∅ /\
  exists bs, lw_state k = set_k_bcache bs (set_lock L_bcache (mkLock 0 "bcache" None) (lw_boot k)).
Proof.
  destruct bw_boot_ok as (H1 & H2 & H3 & H4 & H5).
  exact (after_binit_cache (lw_boot k) H1 H2 H3 (conj H3 (proj2 H4)) H5).
Qed.

Lemma lw_ready k : ready L_log (lw_state k).
Proof. destruct (lw_cache k) as [_ [bs ->]]. split; [by split|]. by eexists. Qed.

Lemma lw_running k : running 0 (lw_state k).
Proof. destruct (lw_cache k) as [_ [bs ->]]. by split_and!. Qed.

Lemma lw_log k : k_log (lw_state k) = mkLog 2 LOGSIZE k 0 1 0 (replicate (Z.to_nat LOGSIZE) 0).
Proof. by destruct (lw_cache k) as [_ [bs ->]]. Qed.

Lemma lw_party k : log_party 0 (lw_state k).
Proof.
  destruct (ca_ptable _ _ _ _ (proj1 (lw_cache k))) as [Hpt Hpo].
  exact (Build_log_party _ _ (lw_running k) (proj1 (Nat.ltb_lt 0 (Z.to_nat NPROC)) eq_refl) Hpo (lw_ready k) Hpt).
Qed.

Lemma lw_transaction k : transaction 1 2 0 (replicate (Z.to_nat LOGSIZE) 0) ∅ (lw_state k).
Proof.
  split.
  - unfold log_is. by rewrite lw_log.
  - split; [done|lia|lia|intros i Hi; lia|]. intros bn Hb. unfold in_log in Hb. apply in_built_image. lia.
  - apply NoDup_nil_2.
  - intros b. split; [set_solver|]. intros (i & Hi & _). lia.
Qed.

Lemma lw_free k : lh_n (k_log (lw_state k)) = 0 /\ committing (k_log (lw_state k)) = 0 /\
  outstanding (k_log (lw_state k)) = k /\ lsize (k_log (lw_state k)) = LOGSIZE.
Proof. by rewrite lw_log. Qed.

Lemma lw_not_busy : ~ log_busy (k_log (lw_state 0)) = true.
Proof. by rewrite lw_log. Qed.


Lemma log_overcommitted_witness :
  exists s3, (begin_op;; begin_op;; begin_op) [] (lw_state 0) = Done tt [] s3 /\ outstanding (k_log s3) = 3.
Proof.
  destruct (lw_free 0) as (H1 & H2 & H3 & H4).
  destruct (log_overcommitted [] (lw_state 0) (lw_ready 0) H2 H1 H3 H4) as (s3 & Heq & Ho & _).
  exists s3. split; [exact Heq|exact Ho].
Defined.

(** One operation runs. *)
Record one_op (s : kernel) : Prop := {
  oo_ready : ready L_log s;
  oo_count : outstanding (k_log s) = 1;
  oo_commit : committing (k_log s) = 0;
  oo_size : lsize (k_log s) = LOGSIZE
}.

Lemma bio_only_op s s' : bio_only s s' -> one_op s -> one_op s'.
Proof. intros (bc & d & pt & -> & _) []. by split. Qed.

Lemma transaction_log_eq dv start n blocks dirt s s' :
  k_log s' = k_log s -> transaction dv start n blocks dirt s -> transaction dv start n blocks dirt s'.
Proof. intros E [Hl ? ? ?]. split; [|done..]. unfold log_is. by rewrite E. Qed.

Lemma bio_only_transaction dv start n blocks dirt s s' :
  bio_only s s' -> transaction dv start n blocks dirt s -> transaction dv start n blocks dirt s'.
Proof. intros Ho [Hl ? ? ?]. split; [by eapply log_is_only|done..]. Qed.

(** It has the buffer of block 40. *)
Lemma lw_reading : exists b s cur, cache s [b] cur ∅ /\ key (buf_of b s) = (1, 40) /\
  transaction 1 2 0 (replicate (Z.to_nat LOGSIZE) 0) ∅ s /\ one_op s /\ k_disk s = k_disk boot_state.
Proof.
  destruct (lw_cache 1) as [Hc [bs Hbs]]. pose proof (lw_transaction 1) as Ht. destruct (lw_free 1) as (H1 & H2 & H3 & H4).
  pose proof (Build_one_op _ (lw_ready 1) H3 H2 H4) as Hop. clear H1 H2 H3 H4.
  assert (Hd : k_disk (lw_state 1) = k_disk boot_state) by (by rewrite Hbs). clear Hbs.
  revert Hc Ht Hop Hd. generalize (lw_state 1), (fun b : Z * Z => disk_read b.1 b.2 (k_disk boot_state)).
  intros s cur Hc Ht Hop Hd.
  assert (Hw : wp (bread 1 40) (fun b _ s' => cache s' [b] cur ∅ /\ key (buf_of b s') = (1, 40) /\
    bio_only s s' /\ k_disk s' = k_disk s) [] s).
  { apply (wp_bread s [] cur ∅); [done|apply device_one|apply in_built_image; lia|apply none_held|right; apply room_left|].
    intros b s' _ Hc' Hk _ Hd' Ho. by split_and!. }
  apply wp_elim in Hw as (b & e & s' & _ & Hc' & Hk & Ho & Hd'). exists b, s', cur.
  split_and!; [done|done|by eapply bio_only_transaction|by eapply bio_only_op|congruence].
Qed.

Lemma log_write_spec_witness :
  exists b s s' cur blocks, log_write b [] s = Done tt [] s' /\ cache s' [b] cur {[(1, 40)]} /\
    transaction 1 2 1 blocks {[(1, 40)]} s'.
Proof.
  destruct lw_reading as (b & s & cur & Hc & Hk & Ht & [Hr H3 H2 H4] & Hd).
  destruct (log_write_spec s [b] cur ∅ b [] 1 2 0 (replicate (Z.to_nat LOGSIZE) 0) 40 Hc Ht Hr eq_refl
    ltac:(by left) Hk ltac:(lia) ltac:(unfold in_log; lia) (in_built_image 40 ltac:(lia))
    ltac:(lia) ltac:(lia) ltac:(lia)) as (s' & blocks & Heq & _ & Hc' & Ht').
  exists b, s, s', cur, blocks. split; [exact Heq|].
  assert (E : (∅ ∪ {[(1, 40)]} : gset (Z * Z)) = {[(1, 40)]}) by set_solver. rewrite E in Hc', Ht'.
  split; [exact Hc'|]. rewrite decide_False in Ht' by set_solver. exact Ht'.
Defined.
