(* ===== verification/LogCrash.v ===== *)
(** Crash safety of the log of log.c.

    A commit makes a sequence of block writes, and a crash can come between any two of them.
    [commit_crash_safe] shows that recovery then finds all of the transaction or none of it,
    and [recovery_restartable] that a crash during recovery changes nothing of that. *)

From S2P Require Import Prelude Params Mem State Spinlock Console Kalloc Vm VmTables VmSpace VmAlloc.
From S2P Require Import VmCopy Proc ProcSpec Ide Bio BioRing BioSpec BioProps Log LogSpec LogOps.

(** * The header on disk *)

Lemma bytes_u32 v :
  v mod 256 mod 256 + 256 * (v / 256 mod 256 mod 256) + 65536 * (v / 65536 mod 256 mod 256) +
  16777216 * (v / 16777216 mod 256) = v mod 4294967296.
Proof. Z.div_mod_to_equations. lia. Qed.

Lemma length_put32 d o v : length (put32 d o v) = length d.
Proof. unfold put32. by rewrite !length_insert. Qed.

Lemma get32_put32 d o v : (o + 3 < length d)%nat -> get32 (put32 d o v) o = u32 v.
Proof.
  intros Hl. unfold get32, put32.
  rewrite lget_insert_eq by (rewrite !length_insert; lia).
  rewrite (lget_insert_ne _ o), lget_insert_eq by (rewrite ?length_insert; lia).
  rewrite (lget_insert_ne _ o), (lget_insert_ne _ (o + 1)), lget_insert_eq by (rewrite ?length_insert; lia).
  rewrite (lget_insert_ne _ o), (lget_insert_ne _ (o + 1)), (lget_insert_ne _ (o + 2)), lget_insert_eq by lia.
  unfold u8. rewrite bytes_u32. apply u32_u32.
Qed.

Lemma get32_put32_ne d o o' v : (o + 3 < o')%nat \/ (o' + 3 < o)%nat -> get32 (put32 d o v) o' = get32 d o'.
Proof. intros Ho. unfold get32, put32. by rewrite !lget_insert_ne by lia. Qed.

(** [n] words written from offset 4 on. *)
Lemma fill_other d blocks o k m :
  (o + 3 < 4 + 4 * k)%nat ->
  get32 (foldl (fun d i => put32 d (4 + 4 * i) (lget blocks i)) d (seq k m)) o = get32 d o.
Proof.
  revert k d. induction m as [|m IH]; intros k d Ho; [done|]. simpl. rewrite IH by lia.
  apply get32_put32_ne. lia.
Qed.

Lemma fill_at d blocks k m i :
  (k <= i < k + m)%nat -> (4 + 4 * (k + m) <= length d)%nat ->
  get32 (foldl (fun d i => put32 d (4 + 4 * i) (lget blocks i)) d (seq k m)) (4 + 4 * i) = u32 (lget blocks i).
Proof.
  revert k d. induction m as [|m IH]; intros k d Hi Hl; [lia|]. simpl.
  destruct (decide (i = k)) as [->|].
  - rewrite fill_other by lia. apply get32_put32. lia.
  - apply IH; [lia|rewrite length_put32; lia].
Qed.

(** What [read_head] reads is what [write_head] wrote. *)
Lemma hb_n_header d n blocks :
  Z.of_nat n < LOGSIZE -> length d = Z.to_nat BSIZE -> hb_n (header_of d n blocks) = Z.of_nat n.
Proof.
  intros Hn Hd. unfold hb_n, header_of. rewrite fill_other by lia. rewrite get32_put32 by lia.
  rewrite s32_u32, s32_small; lia.
Qed.

Lemma hb_block_header d n blocks i :
  Z.of_nat n < LOGSIZE -> length d = Z.to_nat BSIZE -> (i < n)%nat ->
  hb_block (header_of d n blocks) i = s32 (lget blocks i).
Proof.
  intros Hn Hd Hi. unfold hb_block, header_of. rewrite fill_at; [apply s32_u32|lia|].
  rewrite length_put32. lia.
Qed.

Lemma length_header d n blocks : length (header_of d n blocks) = length d.
Proof.
  unfold header_of. rewrite <- (length_put32 d 0 (Z.of_nat n)). generalize (put32 d 0 (Z.of_nat n)), (seq 0 n).
  intros d' l. revert d'. induction l as [|i l IH]; intros d'; [done|]. simpl. rewrite IH. apply length_put32.
Qed.

Lemma hb_n_cleared d : length d = Z.to_nat BSIZE -> hb_n (put32 d 0 0) = 0.
Proof. intros Hd. unfold hb_n. rewrite get32_put32 by lia. done. Qed.

(** * Recovery *)

(** The blocks that the header of the disk contents [D] names. *)
Definition head_n (dv start : Z) (D : Z * Z -> list Z) : nat := Z.to_nat (hb_n (D (head_key dv start))).
Definition head_blocks (dv start : Z) (D : Z * Z -> list Z) : list Z :=
  hb_block (D (head_key dv start)) <$> seq 0 (head_n dv start D).

(** The writes of a recovery from [D]. *)
Definition recovery_writes (dv start : Z) (D : Z * Z -> list Z) : list bwrite_t :=
  install_writes dv start (head_n dv start D) (head_blocks dv start D) D.

Definition contents (d : disk_t) (k : Z * Z) : list Z := disk_read k.1 k.2 d.

Section recovery.
Context `{Symbols} `{Driver} {Hdrv : SyncDriver}.

(** The header of [D] is one that a commit wrote: it names distinct blocks outside of the log. *)
Record log_valid (dv start : Z) (D : Z * Z -> list Z) : Prop := {
  lv_len : length (D (head_key dv start)) = Z.to_nat BSIZE;
  lv_n : 0 <= hb_n (D (head_key dv start));
  lv_geom : log_geom dv start (head_n dv start D) (head_blocks dv start D);
  lv_homes : NoDup (home_key dv (head_blocks dv start D) <$> seq 0 (head_n dv start D))
}.

(** The kernel after a reboot from the disk [d]: an empty cache, and a log at [start]. *)
Record rebooted (dv start : Z) (d : disk_t) (r : kernel) : Prop := {
  rb_disk : k_disk r = d;
  rb_cache : cache r [] (contents d) ∅;
  rb_dev : ldev (k_log r) = dv;
  rb_start : lstart (k_log r) = start;
  rb_block : length (lh_block (k_log r)) = Z.to_nat LOGSIZE
}.

Lemma on_log_on_log f g s : on_log f (on_log g s) = on_log (fun l => f (g l)) s.
Proof. by destruct s. Qed.

Lemma copy_head lh e l : forall s,
  for_each l (fun i =>
    modify (on_log (fun l => set_lh_block (<[i := hb_block lh i]> (lh_block l)) l));;
    mret (None : option unit)) e s =
  Done None e (on_log (fun lg => set_lh_block (foldl (fun bs i => <[i := hb_block lh i]> bs) (lh_block lg) l) lg) s).
Proof.
  induction l as [|i l IH]; intros s.
  - simpl. unfold mret, M_ret. f_equal. unfold on_log. destruct s. simpl. f_equal. by destruct k_log.
  - cbn [for_each]. erewrite bind_Done; [|erewrite bind_Done by done; done]. cbv beta iota.
    rewrite IH, on_log_on_log. done.
Qed.

Lemma copied_at lh bs k m i :
  (k <= i < k + m)%nat -> (k + m <= length bs)%nat ->
  lget (foldl (fun bs i => <[i := hb_block lh i]> bs) bs (seq k m)) i = hb_block lh i.
Proof.
  revert k bs. induction m as [|m IH]; intros k bs Hi Hl; [lia|]. simpl. destruct (decide (i = k)) as [->|].
  - assert (Hother : forall m' k' bs', (k < k')%nat ->
      lget (foldl (fun bs i => <[i := hb_block lh i]> bs) bs' (seq k' m')) k = lget bs' k).
    { induction m' as [|m' IH']; intros k' bs' Hk; [done|]. simpl. rewrite IH' by lia.
      apply lget_insert_ne. lia. }
    rewrite Hother by lia. apply lget_insert_eq. lia.
  - apply IH; [lia|]. rewrite length_insert. lia.
Qed.

Lemma wp_read_head s cur dirt e dv start (Q : unit -> env kernel -> kernel -> Prop) :
  cache s [] cur dirt -> ldev (k_log s) = dv -> lstart (k_log s) = start ->
  length (lh_block (k_log s)) = Z.to_nat LOGSIZE -> log_valid dv start cur ->
  log_clean dv start dirt -> (size dirt < head)%nat ->
  (forall s' blocks, cache s' [] cur dirt -> k_disk s' = k_disk s ->
     log_is dv start (head_n dv start cur) blocks s' ->
     (forall i, (i < head_n dv start cur)%nat -> lget blocks i = lget (head_blocks dv start cur) i) -> Q tt e s') ->
  wp read_head Q e s.
Proof.
  intros Hc Hdv Hst Hlb Hv Hcl Hsz HQ. pose proof (lv_geom _ _ _ Hv) as Hg.
  pose proof (lg_dev _ _ _ _ Hg) as Hnd. pose proof (lg_start _ _ _ _ Hg) as Hs0.
  pose proof (head_in_log _ _ _ _ Hg) as Hin.
  unfold read_head, lg, bufget. do 2 (apply wp_bind, wp_get). rewrite Hdv, Hst, (u32_small start) by lia.
  apply wp_bind. eapply (wp_bread s [] cur dirt dv start);
    [done|done|by apply (lg_serves _ _ _ _ Hg)|set_solver|by right; simpl; lia|].
  intros b s1 _ Hc1 Hk1 _ Hd1 Ho1. assert (Hb : b ∈ [b]) by (by left).
  apply wp_bind, wp_get. rewrite (held_data _ _ _ _ _ Hc1 Hb), Hk1. apply wp_bind, wp_modify, wp_bind.
  eapply wp_intro; [apply copy_head|]. rewrite on_log_on_log. cbv beta.
  change (cur (dv, start)) with (cur (head_key dv start)). fold (head_n dv start cur).
  match goal with |- wp _ _ _ (on_log ?f s1) => set (s2 := on_log f s1) end.
  eapply (wp_brelse s2 [b] [] cur dirt b); [by apply cache_log|done| |].
  { right. change (buf_of b s2) with (buf_of b s1). change (k_disk s2) with (k_disk s1).
    destruct (key_eq _ _ _ Hk1) as [-> ->]. rewrite Hk1, Hd1. apply (ca_clean _ _ _ _ Hc (dv, start)); [done| |set_solver].
    by apply Hcl. }
  intros s3 Hc3 _ Hd3 Ho3.
  eapply (HQ s3 _ Hc3); [by rewrite Hd3; change (k_disk s2) with (k_disk s1)| |].
  - unfold log_is. rewrite (bio_only_log _ _ Ho3). unfold s2, on_log. simpl. rewrite (bio_only_log _ _ Ho1).
    split; [done|]. split; [done|]. split; [|reflexivity]. unfold head_n. rewrite Z2Nat.id; [done|apply Hv].
  - intros i Hi. simpl. rewrite copied_at; [|lia|].
    + unfold lget, head_blocks. by rewrite nth_lookup, list_lookup_fmap, lookup_seq_lt by done.
    + pose proof (lg_n _ _ _ _ Hg). lia.
Qed.

(** Only the first [n] entries of the block list matter. *)
Lemma home_key_agree dv blocks blocks' (n : nat) :
  (forall i, (i < n)%nat -> lget blocks i = lget blocks' i) ->
  forall i, (i < n)%nat -> home_key dv blocks i = home_key dv blocks' i.
Proof. intros E i Hi. unfold home_key. by rewrite E. Qed.

Lemma log_geom_agree dv start n blocks blocks' :
  (forall i, (i < n)%nat -> lget blocks i = lget blocks' i) ->
  log_geom dv start n blocks' -> log_geom dv start n blocks.
Proof. intros E []. split; try done. intros i Hi. rewrite E by done. by apply lg_home. Qed.

Lemma homes_agree dv n blocks blocks' :
  (forall i, (i < n)%nat -> lget blocks i = lget blocks' i) ->
  home_key dv blocks <$> seq 0 n = home_key dv blocks' <$> seq 0 n.
Proof.
  intros E. apply list_fmap_ext. intros ? i [-> Hi]%lookup_seq. by eapply home_key_agree.
Qed.

Lemma install_writes_agree dv start n blocks blocks' D :
  (forall i, (i < n)%nat -> lget blocks i = lget blocks' i) ->
  install_writes dv start n blocks D = install_writes dv start n blocks' D.
Proof.
  intros E. unfold install_writes. f_equal. apply list_fmap_ext. intros ? i [-> Hi]%lookup_seq.
  unfold home_writes. f_equal. by eapply home_key_agree.
Qed.

Lemma contents_all ws d k : contents (disk_all ws d) k = upd_all ws (contents d) k.
Proof. apply disk_all_read. Qed.

Lemma wp_recover dv start d r e (Q : unit -> env kernel -> kernel -> Prop) :
  rebooted dv start d r -> log_valid dv start (contents d) ->
  (forall r', k_disk r' = disk_all (recovery_writes dv start (contents d)) d ->
     cache r' [] (contents (k_disk r')) ∅ -> lh_n (k_log r') = 0 -> Q tt e r') ->
  wp recover_from_log Q e r.
Proof.
  intros [Hd Hc Hdv Hst Hlb] Hv HQ.
  assert (Hcl : log_clean dv start ∅) by (intros bn _; set_solver).
  assert (Hsz : (size (∅ : gset (Z * Z)) < head)%nat) by (rewrite size_empty; unfold head; lia).
  unfold recover_from_log. apply wp_bind. eapply (wp_read_head r); try done.
  intros s1 blocks Hc1 Hd1 Hl1 Hag.
  eapply (wp_install_and_clear s1 _ ∅ e dv start _ blocks); [exact Hc1|done| |done| |done| |].
  - eapply log_geom_agree; [done|apply Hv].
  - erewrite homes_agree by done. apply Hv.
  - right. rewrite size_empty. unfold head. lia.
  - intros s2 ws -> Hc2 Hd2 Ho2. rewrite (install_writes_agree _ _ _ _ _ _ Hag) in Hc2, Hd2.
    fold (recovery_writes dv start (contents d)) in Hc2, Hd2. apply HQ.
    + by rewrite Hd2, Hd1, Hd.
    + rewrite Hd2, Hd1, Hd. eapply cache_ext; [intros k; symmetry; apply contents_all|].
      set (ws := recovery_writes _ _ _) in *. assert (∅ ∖ keys ws = ∅) as <- by set_solver. done.
    + by rewrite (bio_only_log _ _ Ho2).
Qed.

(** ** Interrupted sequences of writes *)

Lemma upd_all_take_other j (ws : list bwrite_t) D k : k ∉ ws.*1 -> upd_all (take j ws) D k = D k.
Proof.
  intros Hk. apply upd_all_other. intros Hin. apply Hk. rewrite <- (take_drop j ws), fmap_app.
  apply elem_of_app. by left.
Qed.

Lemma upd_all_written (ws : list bwrite_t) f g k : k ∈ ws.*1 -> upd_all ws f k = upd_all ws g k.
Proof.
  revert f g. induction ws as [|[k' d] ws IH]; intros f g Hk; [by apply not_elem_of_nil in Hk|].
  simpl in *. destruct (decide (k ∈ ws.*1)) as [Hin|Hnin]; [by apply IH|].
  rewrite !upd_all_other by done. apply elem_of_cons in Hk as [->|]; [|done]. unfold upd_cur.
  by rewrite !decide_True.
Qed.

(** Writes started again from the beginning have the effect of the writes. *)
Lemma upd_all_again j (ws : list bwrite_t) D k : upd_all ws (upd_all (take j ws) D) k = upd_all ws D k.
Proof.
  destruct (decide (k ∈ ws.*1)); [by apply upd_all_written|].
  rewrite !(upd_all_other ws) by done. by apply upd_all_take_other.
Qed.

(** The blocks that are no part of the log. *)
Definition outside (dv start : Z) (k : Z * Z) : Prop := k.1 <> nodev /\ ~ (k.1 = dv /\ in_log start k.2).

Definition recovered (dv start : Z) (D : Z * Z -> list Z) : Z * Z -> list Z :=
  upd_all (recovery_writes dv start D) D.

(** What recovery does depends on the contents of the blocks only. *)
Lemma recovery_writes_ext dv start D D' :
  (forall k, D k = D' k) -> recovery_writes dv start D = recovery_writes dv start D'.
Proof.
  intros E. unfold recovery_writes, install_writes, head_blocks, head_n. rewrite <- !(E (head_key dv start)). f_equal.
  apply list_fmap_ext. intros ? i [-> Hi]%lookup_seq. unfold home_writes. f_equal. apply E.
Qed.

Lemma recovered_ext dv start D D' : (forall k, D k = D' k) -> forall k, recovered dv start D k = recovered dv start D' k.
Proof. intros E k. unfold recovered. rewrite (recovery_writes_ext _ _ _ _ E). by apply upd_all_ext. Qed.

Lemma log_valid_ext dv start D D' : (forall k, D k = D' k) -> log_valid dv start D -> log_valid dv start D'.
Proof. intros E []. split; unfold head_blocks, head_n in *; by rewrite <- !(E (head_key dv start)). Qed.

(** A reboot from a disk with contents [D]. *)
Lemma recover_contents dv start d r e D :
  rebooted dv start d r -> (forall k, contents d k = D k) -> log_valid dv start D ->
  log_valid dv start (contents (k_disk r)) /\
  exists r', recover_from_log e r = Done tt e r' /\ lh_n (k_log r') = 0 /\
    cache r' [] (contents (k_disk r')) ∅ /\
    k_disk r' = disk_all (recovery_writes dv start D) d /\
    forall k, contents (k_disk r') k = recovered dv start D k.
Proof.
  intros Hr E Hv. rewrite (rb_disk _ _ _ _ Hr).
  assert (Hv' : log_valid dv start (contents d)) by (eapply (log_valid_ext _ _ D); [by intros k; rewrite E|done]).
  split; [done|]. apply wp_run. eapply wp_recover; [done|done|]. intros r' Hd Hc Hn. split; [done|].
  split; [done|]. split; [done|]. rewrite (recovery_writes_ext _ _ _ _ E) in Hd. split; [done|].
  intros k. rewrite Hd, contents_all. apply upd_all_ext, E.
Qed.

(** ** What recovery makes of a header *)

(** No committed transaction: nothing changes. *)
Lemma clean_valid dv start n blocks D :
  log_geom dv start n blocks -> length (D (head_key dv start)) = Z.to_nat BSIZE ->
  hb_n (D (head_key dv start)) = 0 -> log_valid dv start D.
Proof.
  intros [] Hlen Hn. split; [done|lia| |]; unfold head_n; rewrite Hn; [|apply NoDup_nil_2].
  split; [done|done|done| |done]. intros i Hi. simpl in Hi. lia.
Qed.

Lemma clean_recovered dv start D k :
  hb_n (D (head_key dv start)) = 0 -> k <> head_key dv start -> recovered dv start D k = D k.
Proof.
  intros Hn Hk. apply upd_all_other. unfold recovery_writes, install_writes, head_n. rewrite Hn. simpl.
  by intros ->%list_elem_of_singleton.
Qed.

(** A committed transaction: the blocks get the contents that the log has for them. *)
Record logged (dv start : Z) (n : nat) (blocks : list Z) (cur D : Z * Z -> list Z) : Prop := {
  lo_len : length (D (head_key dv start)) = Z.to_nat BSIZE;
  lo_n : hb_n (D (head_key dv start)) = Z.of_nat n;
  lo_block : forall i, (i < n)%nat -> hb_block (D (head_key dv start)) i = s32 (lget blocks i);
  lo_data : forall i, (i < n)%nat -> D (log_key dv start i) = cur (home_key dv blocks i);
  lo_other : forall k, outside dv start k -> (forall i, (i < n)%nat -> k <> home_key dv blocks i) -> D k = cur k
}.

Lemma logged_home dv start n blocks cur D i :
  logged dv start n blocks cur D -> (i < n)%nat ->
  home_key dv (head_blocks dv start D) i = home_key dv blocks i.
Proof.
  intros Hl Hi. unfold home_key, head_blocks, head_n. rewrite (lo_n _ _ _ _ _ _ Hl), Nat2Z.id.
  unfold lget at 1. rewrite nth_lookup, list_lookup_fmap, lookup_seq_lt by done. simpl.
  by rewrite (lo_block _ _ _ _ _ _ Hl), u32_s32.
Qed.

Lemma logged_homes dv start n blocks cur D :
  logged dv start n blocks cur D ->
  head_n dv start D = n /\
  home_key dv (head_blocks dv start D) <$> seq 0 n = home_key dv blocks <$> seq 0 n.
Proof.
  intros Hl. split; [unfold head_n; by rewrite (lo_n _ _ _ _ _ _ Hl), Nat2Z.id|].
  apply list_fmap_ext. intros ? i [-> Hi]%lookup_seq. by eapply logged_home.
Qed.

Lemma logged_valid dv start n blocks cur D :
  log_geom dv start n blocks -> NoDup (home_key dv blocks <$> seq 0 n) ->
  logged dv start n blocks cur D -> log_valid dv start D.
Proof.
  intros Hg Hnd Hl. destruct (logged_homes _ _ _ _ _ _ Hl) as [En Eh].
  split; [apply Hl|rewrite (lo_n _ _ _ _ _ _ Hl); lia| |by rewrite En, Eh].
  rewrite En. split; try apply Hg. intros i Hi. pose proof (logged_home _ _ _ _ _ _ i Hl Hi) as E.
  unfold home_key in E. injection E as E. rewrite E. by apply Hg.
Qed.

Lemma logged_recovered dv start n blocks cur D k :
  NoDup (home_key dv blocks <$> seq 0 n) -> logged dv start n blocks cur D ->
  outside dv start k -> k <> head_key dv start -> recovered dv start D k = cur k.
Proof.
  intros Hnd Hl Hout Hk. destruct (logged_homes _ _ _ _ _ _ Hl) as [En Eh].
  unfold recovered, recovery_writes, install_writes. rewrite En, upd_all_app, (upd_all_other [_])
    by (by intros ->%list_elem_of_singleton).
  destruct (decide (k ∈ home_key dv blocks <$> seq 0 n)) as [Hin|Hnin].
  - apply list_elem_of_fmap in Hin as (i & -> & Hi%elem_of_seq). rewrite <- (logged_home _ _ _ _ _ _ i Hl) by lia.
    rewrite (upd_all_at (home_writes dv start (head_blocks dv start D) D) n D i : _ -> _ -> _ (home_key _ _ _) = _);
      [|by change (NoDup (home_key dv (head_blocks dv start D) <$> seq 0 n)); rewrite Eh|lia].
    rewrite (logged_home _ _ _ _ _ _ i Hl) by lia. apply (lo_data _ _ _ _ _ _ Hl). lia.
  - rewrite upd_all_other.
    + apply (lo_other _ _ _ _ _ _ Hl); [done|]. intros i Hi ->. apply Hnin. apply list_elem_of_fmap.
      exists i. split; [done|]. apply elem_of_seq. lia.
    + rewrite <- list_fmap_compose. by rewrite <- Eh in Hnin.
Qed.

(** ** A crash during a commit *)

Section crash.
Context (dv start : Z) (n : nat) (blocks : list Z) (cur D0 : Z * Z -> list Z).
Context (Hg : log_geom dv start n blocks) (Hnd : NoDup (home_key dv blocks <$> seq 0 n)).
Context (Hlen : length (D0 (head_key dv start)) = Z.to_nat BSIZE).
Context (Hclean : hb_n (D0 (head_key dv start)) = 0).
Context (Hsame : forall k, k.1 <> nodev -> (forall i, (i < n)%nat -> k <> home_key dv blocks i) -> cur k = D0 k).

Abbreviation L := (log_writes dv start blocks cur <$> seq 0 n).
Abbreviation hdr := (header_of (cur (head_key dv start)) n blocks).
Abbreviation H' := ((fun i => (home_key dv blocks i, cur (home_key dv blocks i))) <$> seq 0 n).

Lemma head_same : cur (head_key dv start) = D0 (head_key dv start).
Proof.
  apply Hsame; [apply Hg|]. intros i Hi E. symmetry in E. revert E. by eapply head_not_home.
Qed.

Lemma head_not_L : head_key dv start ∉ (L : list bwrite_t).*1.
Proof.
  rewrite keys_fst, keys_sub. intros (i & Hi & E). symmetry in E. revert E. by eapply head_not_log.
Qed.

Lemma L_inside k : k ∈ (L : list bwrite_t).*1 -> ~ outside dv start k.
Proof.
  rewrite keys_fst, keys_sub. intros (i & Hi & ->) [_ Ho]. apply Ho. simpl. split; [done|].
  by destruct (log_key_eq _ _ _ _ i Hg Hi) as [-> ?].
Qed.

Lemma head_inside : ~ outside dv start (head_key dv start).
Proof. intros [_ Ho]. apply Ho. split; [done|]. by eapply head_in_log. Qed.

Lemma in_homes k : k ∈ (H' : list bwrite_t).*1 <-> exists i, (i < n)%nat /\ k = home_key dv blocks i.
Proof. by rewrite keys_fst, keys_sub. Qed.

(** Before the header is written, the transaction has not happened. *)
Lemma crash_early j :
  let D := upd_all (take j L) D0 in
  log_valid dv start D /\ forall k, outside dv start k -> recovered dv start D k = D0 k.
Proof.
  intros D. assert (Eh : D (head_key dv start) = D0 (head_key dv start))
    by (apply upd_all_take_other, head_not_L).
  split; [eapply clean_valid; [done|by rewrite Eh..]|].
  intros k Ho. rewrite clean_recovered; [|by rewrite Eh|by intros ->; apply head_inside].
  apply upd_all_take_other. by intros ?%L_inside.
Qed.

(** Once it is written, the log has all of the transaction, *)
Lemma crash_logged j : logged dv start n blocks cur (upd_all (take j H') (upd_all [(head_key dv start, hdr)] (upd_all L D0))).
Proof.
  pose proof (lg_n _ _ _ _ Hg) as Hn. assert (Hl' : length (cur (head_key dv start)) = Z.to_nat BSIZE)
    by (by rewrite head_same).
  set (D1 := upd_all [(head_key dv start, hdr)] (upd_all L D0)). set (D := upd_all _ D1).
  assert (Eh : D (head_key dv start) = hdr).
  { unfold D. rewrite upd_all_take_other.
    - unfold D1. simpl. unfold upd_cur. by rewrite decide_True.
    - intros (i & Hi & E)%in_homes. symmetry in E. revert E. by eapply head_not_home. }
  split; try rewrite Eh.
  - by rewrite length_header.
  - by apply hb_n_header.
  - intros i Hi. by apply hb_block_header.
  - intros i Hi. unfold D. rewrite upd_all_take_other; [by apply (logged_at dv start n blocks)|].
    intros (i' & Hi' & E)%in_homes. symmetry in E. revert E. by eapply home_not_log.
  - intros k Ho Hk. unfold D. rewrite upd_all_take_other by (intros (i & Hi & E)%in_homes; by eapply Hk).
    unfold D1. rewrite upd_all_other by (intros ->%list_elem_of_singleton; by apply head_inside).
    rewrite upd_all_other by (by intros ?%L_inside). symmetry. apply Hsame; [apply Ho|done].
Qed.

(** and after the last write all blocks are at their home locations. *)
Lemma crash_done :
  let D := upd_all (commit_writes dv start n blocks cur) D0 in
  log_valid dv start D /\ hb_n (D (head_key dv start)) = 0 /\ forall k, outside dv start k -> D k = cur k.
Proof.
  intros D. assert (Eh : D (head_key dv start) = put32 hdr 0 0).
  { unfold D, commit_writes. rewrite !upd_all_app. simpl. unfold upd_cur at 1. by rewrite decide_True. }
  assert (Hl' : length hdr = Z.to_nat BSIZE) by (by rewrite length_header, head_same).
  assert (Hn0 : hb_n (D (head_key dv start)) = 0) by (rewrite Eh; by apply hb_n_cleared).
  split; [|split; [done|]].
  - eapply clean_valid; [done| |done]. by rewrite Eh, length_put32.
  - intros k Ho. assert (k <> head_key dv start) by (intros ->; by apply head_inside).
    unfold D, commit_writes. rewrite !upd_all_app, (upd_all_other [_]) by (by intros ->%list_elem_of_singleton).
    destruct (decide (k ∈ (H' : list bwrite_t).*1)) as [Hin|Hnin].
    + apply in_homes in Hin as (i & Hi & ->).
      apply (upd_all_at (fun i => (home_key dv blocks i, cur (home_key dv blocks i)) : bwrite_t) n _ i); done.
    + rewrite upd_all_other by done. rewrite (upd_all_other [_]) by (by intros ->%list_elem_of_singleton).
      rewrite upd_all_other by (by intros ?%L_inside). symmetry. apply Hsame; [apply Ho|].
      intros i Hi ->. apply Hnin, in_homes. by exists i.
Qed.

Lemma crash_commit k :
  let D := upd_all (take k (commit_writes dv start n blocks cur)) D0 in
  log_valid dv start D /\
  forall b, outside dv start b -> recovered dv start D b = if (k <=? n)%nat then D0 b else cur b.
Proof.
  intros D. assert (HL : length (L : list bwrite_t) = n) by (by rewrite length_fmap, length_seq).
  destruct (k <=? n)%nat eqn:E; [apply Nat.leb_le in E|apply Nat.leb_gt in E].
  { unfold D, commit_writes. rewrite take_app_le by lia. apply crash_early. }
  destruct (decide (k <= 2 * n + 1)%nat) as [Hk|Hk].
  - assert (ED : D = upd_all (take (k - n - 1) H') (upd_all [(head_key dv start, hdr)] (upd_all L D0))).
    { unfold D, commit_writes. rewrite take_app_ge, HL by lia.
      assert (k - n = S (k - n - 1))%nat as -> by lia. set (j := (k - n - 1)%nat). simpl. rewrite Nat.sub_0_r.
      rewrite take_app_le by (rewrite length_fmap, length_seq; lia). by rewrite upd_all_app. }
    rewrite ED. pose proof (crash_logged (k - n - 1)) as Hlo. split; [by eapply logged_valid|].
    intros b Ho. eapply logged_recovered; [done|done|done|]. intros ->. by apply head_inside.
  - unfold D. rewrite take_ge.
    + destruct crash_done as (Hv & Hn0 & Hcur). split; [done|]. intros b Ho. rewrite clean_recovered; [by apply Hcur|done|].
      intros ->. by apply head_inside.
    + unfold commit_writes. rewrite !length_app, !length_fmap, !length_seq. simpl. lia.
Qed.

End crash.

(** ** A crash during a recovery *)

Lemma recovery_again dv start D k :
  log_valid dv start D ->
  let D' := upd_all (take k (recovery_writes dv start D)) D in
  log_valid dv start D' /\
  forall b, outside dv start b -> recovered dv start D' b = recovered dv start D b.
Proof.
  intros Hv D'. pose proof (lv_geom _ _ _ Hv) as Hg. set (n := head_n dv start D) in *.
  set (bl := head_blocks dv start D) in *. set (hw := home_writes dv start bl D <$> seq 0 n).
  assert (Hlw : length hw = n) by (unfold hw; by rewrite length_fmap, length_seq).
  assert (Hkw : forall b, b ∈ hw.*1 -> exists i, (i < n)%nat /\ b = home_key dv bl i).
  { intros b. unfold hw. rewrite keys_fst, keys_sub. done. }
  destruct (decide (k <= n)%nat) as [Hk|Hk].
  - assert (ED : D' = upd_all (take k hw) D).
    { unfold D', recovery_writes, install_writes. rewrite take_app_le; [done|].
      fold n. rewrite length_fmap, length_seq. lia. }
    assert (Eh : D' (head_key dv start) = D (head_key dv start)).
    { rewrite ED. apply upd_all_take_other. intros (i & Hi & E)%Hkw. symmetry in E. revert E. by eapply head_not_home. }
    assert (El : forall i, (i < n)%nat -> D' (log_key dv start i) = D (log_key dv start i)).
    { intros i Hi. rewrite ED. apply upd_all_take_other. intros (i' & Hi' & E)%Hkw. symmetry in E. revert E.
      by eapply home_not_log. }
    assert (En : head_n dv start D' = n) by (unfold n, head_n; by rewrite Eh).
    assert (Eb : head_blocks dv start D' = bl) by (unfold bl, head_blocks; by rewrite En, Eh).
    assert (Ew : recovery_writes dv start D' = recovery_writes dv start D).
    { unfold recovery_writes, install_writes. fold n bl. rewrite En, Eb, Eh. f_equal. apply list_fmap_ext.
      intros ? i [-> Hi]%lookup_seq. unfold home_writes. by rewrite El. }
    split.
    + destruct Hv. split; rewrite ?Eh, ?En, ?Eb; done.
    + intros b _. unfold recovered. rewrite Ew. apply upd_all_again.
  - assert (ED : D' = recovered dv start D).
    { unfold D'. rewrite take_ge; [done|]. unfold recovery_writes, install_writes. fold n.
      rewrite length_app, length_fmap, length_seq. simpl. lia. }
    assert (Eh : D' (head_key dv start) = put32 (D (head_key dv start)) 0 0).
    { rewrite ED. unfold recovered, recovery_writes, install_writes. rewrite upd_all_app. simpl.
      unfold upd_cur. by rewrite decide_True. }
    assert (En : hb_n (D' (head_key dv start)) = 0) by (rewrite Eh; apply hb_n_cleared, Hv).
    split; [eapply clean_valid; [done| |done]; rewrite Eh, length_put32; apply Hv|].
    intros b Ho. rewrite clean_recovered; [by rewrite ED|done|]. intros ->.
    apply Ho. split; [done|]. by eapply head_in_log.
Qed.

(** * Theorems *)

(** C1: Commits are atomic with respect to crashes.  For a transaction of [n] blocks in a
    clean log, [commit] returns with every block outside of the log written and the log
    cleared.  Its writes are [ws], and whenever the power fails after the first [k] of them,
    the kernel that boots from that disk recovers, without a panic, to the contents
    from before the transaction if the header was not written, and to those of all its blocks
    if it was; no other block of the disk changes. *)
Theorem commit_crash_safe dv start n blocks s cur dirt e :
  cache s [] cur dirt -> transaction dv start n blocks dirt s -> (0 < n)%nat ->
  length (disk_read dv start (k_disk s)) = Z.to_nat BSIZE -> hb_n (disk_read dv start (k_disk s)) = 0 ->
  exists s' ws, commit e s = Done tt e s' /\ lh_n (k_log s') = 0 /\
    k_disk s' = disk_all ws (k_disk s) /\
    (forall b, outside dv start b -> contents (k_disk s') b = cur b) /\
    forall k r er, rebooted dv start (disk_all (take k ws) (k_disk s)) r ->
      log_valid dv start (contents (k_disk r)) /\
      exists r', recover_from_log er r = Done tt er r' /\ lh_n (k_log r') = 0 /\
        forall b, outside dv start b ->
          contents (k_disk r') b = if (k <=? n)%nat then contents (k_disk s) b else cur b.
Proof.
  intros Hc Ht Hn Hlen Hcl. pose proof Ht as [_ Hg Hnd Hdirt].
  assert (Hsame : forall k, k.1 <> nodev -> (forall i, (i < n)%nat -> k <> home_key dv blocks i) ->
    cur k = contents (k_disk s) k).
  { intros k Hk Hh. apply (ca_clean _ _ _ _ Hc); [done| |set_solver]. intros (i & Hi & ->)%Hdirt.
    by eapply Hh. }
  assert (exists s', commit e s = Done tt e s' /\ lh_n (k_log s') = 0 /\
    k_disk s' = disk_all (commit_writes dv start n blocks cur) (k_disk s)) as (s' & Hrun & Hn' & Hd').
  { apply wp_run. eapply wp_commit; [done..|]. intros s' ws -> Hd _ Ho. by rewrite (bio_only_log _ _ Ho). }
  exists s', (commit_writes dv start n blocks cur). split; [done|]. split; [done|]. split; [done|]. split.
  - intros b Ho. rewrite Hd', contents_all.
    by apply (crash_done dv start n blocks cur (contents (k_disk s)) Hg Hnd Hlen Hsame).
  - intros k r er Hr.
    destruct (crash_commit dv start n blocks cur (contents (k_disk s)) Hg Hnd Hlen Hcl Hsame k) as [Hv Hrec].
    edestruct (recover_contents dv start _ r er _ Hr (contents_all _ _) Hv) as (Hv' & r' & Hr' & Hn0 & _ & _ & Hc').
    split; [done|]. exists r'. split; [done|]. split; [done|]. intros b Ho. rewrite Hc'. by apply Hrec.
Qed.

(** C27: Recovery can be interrupted and started again.  From a disk whose log is valid,
    [recover_from_log] returns with an empty log in memory and on the disk.  Whenever the
    power fails after the first [k] of its writes, the log is valid again, and
    the next recovery leaves the same contents in every block outside of the log. *)
Theorem recovery_restartable dv start d r e :
  rebooted dv start d r -> log_valid dv start (contents d) ->
  exists r' ws, recover_from_log e r = Done tt e r' /\
    k_disk r' = disk_all ws d /\ lh_n (k_log r') = 0 /\ hb_n (contents (k_disk r') (dv, start)) = 0 /\
    forall k r1 e1, rebooted dv start (disk_all (take k ws) d) r1 ->
      log_valid dv start (contents (k_disk r1)) /\
      exists r1', recover_from_log e1 r1 = Done tt e1 r1' /\
        forall b, outside dv start b -> contents (k_disk r1') b = contents (k_disk r') b.
Proof.
  intros Hr Hv. destruct (recover_contents dv start d r e _ Hr (fun _ => eq_refl) Hv)
    as (_ & r' & Hrun & Hn & _ & Hd & Hc).
  exists r', (recovery_writes dv start (contents d)). split; [done|]. split; [done|]. split; [done|]. split.
  { rewrite Hc. unfold recovered, recovery_writes, install_writes. rewrite upd_all_app. simpl.
    unfold upd_cur. rewrite decide_True by done. apply hb_n_cleared, Hv. }
  intros k r1 e1 Hr1. destruct (recovery_again dv start (contents d) k Hv) as [Hv1 Hagain].
  destruct (recover_contents dv start _ r1 e1 _ Hr1 (contents_all _ _) Hv1) as (Hv1' & r1' & Hrun1 & _ & _ & _ & Hc1).
  split; [done|]. exists r1'. split; [done|]. intros b Ho. rewrite Hc1, Hc. by apply Hagain.
Qed.

(** ** end_op *)

Lemma committed_contents s cur dirt dv start n blocks :
  cache s [] cur dirt -> transaction dv start n blocks dirt s ->
  length (disk_read dv start (k_disk s)) = Z.to_nat BSIZE ->
  forall b, outside dv start b -> upd_all (commit_writes dv start n blocks cur) (contents (k_disk s)) b = cur b.
Proof.
  intros Hc [_ Hg Hnd Hdirt] Hlen. apply crash_done; [done|done|done|].
  intros k Hk Hh. apply (ca_clean _ _ _ _ Hc); [done| |set_solver]. intros (i & Hi & ->)%Hdirt.
  by eapply Hh.
Qed.

Lemma committed_header s cur dirt dv start n blocks :
  cache s [] cur dirt -> transaction dv start n blocks dirt s ->
  length (disk_read dv start (k_disk s)) = Z.to_nat BSIZE ->
  length (upd_all (commit_writes dv start n blocks cur) (contents (k_disk s)) (dv, start)) = Z.to_nat BSIZE.
Proof.
  intros Hc [_ Hg Hnd Hdirt] Hlen. destruct (crash_done dv start n blocks cur (contents (k_disk s)) Hg Hnd Hlen) as [Hv _]; [|apply (lv_len _ _ _ Hv)].
  intros k Hk Hh. apply (ca_clean _ _ _ _ Hc); [done| |set_solver]. intros (i & Hi & ->)%Hdirt.
  by eapply Hh.
Qed.

Lemma cache_woken ch s held cur dirt : cache s held cur dirt -> cache (woken ch s) held cur dirt.
Proof.
  intros []. split; try done. destruct ca_ptable as [? Hl]. split; [done|]. unfold ptable_ok in *. simpl.
  by rewrite length_fmap.
Qed.

(** [commit] for any number of blocks, as [end_op] calls it. *)
Lemma wp_commit_any s cur dirt e dv start n blocks (Q : unit -> env kernel -> kernel -> Prop) :
  cache s [] cur dirt -> transaction dv start n blocks dirt s ->
  length (disk_read dv start (k_disk s)) = Z.to_nat BSIZE ->
  (forall s' cur', cache s' [] cur' ∅ -> bio_only (on_log (set_lh_n 0) s) s' ->
     (forall b, outside dv start b -> contents (k_disk s') b = cur b) ->
     length (disk_read dv start (k_disk s')) = Z.to_nat BSIZE -> Q tt e s') ->
  wp commit Q e s.
Proof.
  intros Hc Ht Hlen HQ. destruct (decide (n = 0%nat)) as [->|Hn].
  - pose proof (tr_log _ _ _ _ _ _ Ht) as (_ & _ & Hln & _).
    assert (Es : on_log (set_lh_n 0) s = s).
    { unfold on_log. destruct s. simpl in *. f_equal. destruct k_log. simpl in *. by rewrite Hln. }
    assert (Hd : dirt = ∅).
    { apply set_eq. intros k. rewrite (tr_dirt _ _ _ _ _ _ Ht). split; [intros (i & Hi & _); lia|set_solver]. }
    unfold commit. apply wp_bind, wp_get. rewrite Hln. simpl. apply wp_ret.
    apply (HQ s cur); [by rewrite <- Hd|rewrite Es; apply bio_only_refl| |done].
    intros b Ho. symmetry. apply (ca_clean _ _ _ _ Hc); [apply Ho|rewrite Hd|]; set_solver.
  - eapply wp_commit; [done|done|lia|]. intros s' ws -> Hd Hc' Ho. eapply HQ; [done|done| |].
    + intros b Hb. rewrite Hd, contents_all. by eapply committed_contents.
    + change (disk_read dv start (k_disk s')) with (contents (k_disk s') (dv, start)).
      rewrite Hd, contents_all. by eapply committed_header.
Qed.

(** The last operation commits. *)
Lemma end_op_last s cur dirt e dv start n blocks :
  cache s [] cur dirt -> transaction dv start n blocks dirt s ->
  length (disk_read dv start (k_disk s)) = Z.to_nat BSIZE ->
  ready L_log s -> committing (k_log s) = 0 -> outstanding (k_log s) = 1 ->
  exists s', end_op e s = Done tt e s' /\
    (exists bc d pt, s' = set_k_log (set_outstanding 0 (set_committing 0 (set_lh_n 0 (k_log s))))
       (set_k_bcache bc (set_k_disk d (set_k_ptable pt s)))) /\
    length (disk_read dv start (k_disk s')) = Z.to_nat BSIZE /\
    (exists cur', cache s' [] cur' ∅) /\ (forall b, outside dv start b -> contents (k_disk s') b = cur b).
Proof.
  intros Hc Ht Hlen Hr Hcm Ho. destruct (ca_ptable _ _ _ _ Hc) as [Hpt Hpo].
  apply wp_run. unfold end_op. apply wp_bind, wp_acquire; [done|]. apply wp_bind, wp_modify.
  apply wp_bind, wp_get. simpl. rewrite Hcm. simpl. apply wp_bind, wp_get. simpl. rewrite Ho. simpl.
  set (s1 := on_log (set_committing 1) (on_log (fun l => set_outstanding (outstanding l - 1) l) s)).
  apply wp_bind, wp_modify, wp_bind. apply (wp_release _ _ _ _ s1); [done|done|].
  unfold when. apply wp_bind. eapply (wp_commit_any s1 cur dirt); [by do 2 apply cache_log| |done|].
  { destruct Ht. by split. }
  intros s2 cur' Hc2 Ho2 Hcont Hlen2.
  assert (Hlog : set_committing 0 (k_log s2) = set_outstanding 0 (set_committing 0 (set_lh_n 0 (k_log s)))).
  { rewrite (bio_only_log _ _ Ho2). destruct s. simpl in *. destruct k_log. simpl in *. by rewrite Ho. }
  assert (Hr2 : ready L_log s2) by (by destruct Ho2 as (bc & d & pt & -> & _)).
  destruct (ca_ptable _ _ _ _ Hc2) as [Hpt2 Hpo2].
  apply wp_bind, wp_acquire; [done|]. apply wp_bind, wp_modify, wp_bind.
  eapply wp_intro; [apply wakeup_eq; [by apply (ready_acquired L_log)|done]|].
  apply (wp_release _ _ _ _ (woken (Some CH_log) (on_log (set_committing 0) s2))); [done|done|].
  split; [done|]. split_and!; [|done| |done].
  - rewrite <- Hlog. destruct Ho2 as (bc & d & pt & -> & _). by eexists _, _, _.
  - exists cur'. by apply cache_woken, cache_log.
Qed.

(** C31: [end_op] of the last operation commits: all blocks of the transaction are on the
    disk when it returns, the log is empty, and waiting operations may start; the end of
    another one only gives its space back and wakes up those who wait for it. *)
Theorem end_op_spec s cur dirt e dv start n blocks :
  cache s [] cur dirt -> transaction dv start n blocks dirt s ->
  length (disk_read dv start (k_disk s)) = Z.to_nat BSIZE ->
  ready L_log s -> committing (k_log s) = 0 -> 1 <= outstanding (k_log s) ->
  exists s', end_op e s = Done tt e s' /\
    outstanding (k_log s') = outstanding (k_log s) - 1 /\ committing (k_log s') = 0 /\
    if outstanding (k_log s) =? 1 then
      lh_n (k_log s') = 0 /\ (exists cur', cache s' [] cur' ∅) /\
      (forall b, outside dv start b -> contents (k_disk s') b = cur b)
    else
      k_disk s' = k_disk s /\ transaction dv start n blocks dirt s' /\
      k_ptable s' = k_ptable (woken (Some CH_log) s).
Proof.
  intros Hc Ht Hlen Hr Hcm Ho. destruct (outstanding (k_log s) =? 1) eqn:E.
  { destruct (end_op_last s cur dirt e dv start n blocks) as (s' & Hrun & (bc & d & pt & Es) & _ & H4 & H5); [done..|lia|].
    exists s'. split_and!; [done|rewrite Es; simpl; lia|by rewrite Es|by rewrite Es|done|done]. }
  destruct (ca_ptable _ _ _ _ Hc) as [Hpt Hpo].
  apply wp_run. unfold end_op. apply wp_bind, wp_acquire; [done|]. apply wp_bind, wp_modify.
  apply wp_bind, wp_get. simpl. rewrite Hcm. simpl. apply wp_bind, wp_get. simpl.
  set (dec := fun l => set_outstanding (outstanding l - 1) l).
  assert ((outstanding (k_log s) - 1 =? 0) = false) as -> by lia.
  apply wp_bind. eapply wp_intro; [apply wakeup_eq; [by apply (ready_acquired L_log)|done]|].
  apply wp_bind. apply (wp_release _ _ _ _ (woken (Some CH_log) (on_log dec s))); [done|done|].
  apply wp_ret. split; [done|]. simpl. split_and!; try done. destruct Ht. by split.
Qed.

End recovery.

(** * Witnesses *)

#[local] Existing Instance built_symbols.
#[local] Existing Instance bw_driver | 0.
#[local] Existing Instance bw_sync | 0.

Definition rw_state (d : disk_t) : kernel := after_binit (set_k_disk d (lw_boot 0)).

Lemma rw_rebooted d : rebooted 1 2 d (rw_state d).
Proof.
  destruct bw_boot_ok as (H1 & H2 & H3 & H4 & H5).
  destruct (after_binit_cache (set_k_disk d (lw_boot 0)) H1 H2 H3 (conj H3 (proj2 H4)) H5) as [Hc [bs E]].
  unfold rw_state. rewrite E in *. split; [reflexivity|exact Hc|reflexivity..].
Qed.

(** Block 40 has new contents, which wait to be committed. *)
Lemma lw_pending : exists s cur blocks, cache s [] cur {[(1, 40)]} /\ transaction 1 2 1 blocks {[(1, 40)]} s /\
  one_op s /\ k_disk s = k_disk boot_state /\ cur (1, 40) = [7].
Proof.
  destruct lw_reading as (b & s & cur & Hc & Hk & Ht & Hop & Hd). assert (Hin : b ∈ [b]) by (by left).
  pose proof (cache_store _ _ _ _ _ [7] Hc Hin) as Hc1. rewrite Hk in Hc1.
  set (s1 := on_buf b (set_bdata [7]) s) in *. set (cur1 := upd_cur (1, 40) [7] cur) in *.
  assert (Hk1 : key (buf_of b s1) = (1, 40)).
  { rewrite <- Hk. unfold s1, buf_of, on_buf. simpl. by apply (alter_field key). }
  assert (Ht1 : transaction 1 2 0 (replicate (Z.to_nat LOGSIZE) 0) ∅ s1).
  { eapply bio_only_transaction; [apply (bio_only_on_buf b)|exact Ht]. }
  destruct (add_block_transaction _ _ _ _ _ _ 40 Ht1) as (blocks & Ht2);
    [done|lia|lia|unfold in_log; lia|apply in_built_image; lia|].
  set (s2 := on_buf b (setflags B_DIRTY) (on_log (add_block 40) s1)).
  assert (Hc2 : cache s2 [b] cur1 (∅ ∪ {[key (buf_of b (on_log (add_block 40) s1))]})).
  { apply (cache_mark (on_log (add_block 40) s1)); [|done]. by apply cache_log. }
  change (key (buf_of b (on_log (add_block 40) s1))) with (key (buf_of b s1)) in Hc2. rewrite Hk1 in Hc2.
  assert (E : (∅ ∪ {[(1, 40)]} : gset (Z * Z)) = {[(1, 40)]}) by set_solver. rewrite E in *.
  rewrite decide_False in Ht2 by set_solver.
  assert (Ht3 : transaction 1 2 1 blocks {[(1, 40)]} s2) by (destruct Ht2; by split).
  assert (Hop2 : one_op s2).
  { destruct Hop as [H1 H2 H3 H4]. unfold s2, s1, on_buf, on_log, add_block. split; [exact H1|..];
      simpl; (destruct (_ =? _); [done|done]). }
  assert (Hk2 : key (buf_of b s2) = (1, 40)).
  { rewrite <- Hk1. unfold s2, buf_of, on_buf. simpl. by apply (alter_field key). }
  assert (Hd2 : k_disk s2 = k_disk boot_state) by exact Hd.
  clearbody s2. clear Hc1 Hk1 Ht1 Ht2 s1 Hc Hk Ht Hop Hd.
  assert (Hw : exists s3, brelse b [] s2 = Done tt [] s3 /\ (cache s3 [] cur1 {[(1, 40)]} /\ bio_only s2 s3 /\
    k_disk s3 = k_disk s2)).
  { apply wp_run. eapply (wp_brelse s2 [b] []); [exact Hc2|done|left; rewrite Hk2; set_solver|].
    intros s3 Hc3 _ Hd3 Ho3. by split_and!. }
  destruct Hw as (s3 & _ & Hc3 & Ho3 & Hd3). exists s3, cur1, blocks.
  split_and!; [done|by eapply bio_only_transaction|by eapply bio_only_op|congruence|].
  unfold cur1, upd_cur. by rewrite decide_True.
Qed.

Lemma clean_boot_head : length (disk_read 1 2 (k_disk boot_state)) = Z.to_nat BSIZE /\
  hb_n (disk_read 1 2 (k_disk boot_state)) = 0.
Proof. by vm_compute. Qed.

Lemma outside_40 : outside 1 2 (1, 40).
Proof. split; [apply device_one|]. unfold in_log. simpl. lia. Qed.

(** A crash right after the second write, that of the header. *)
Lemma commit_crash_safe_witness :
  exists s s' ws r', commit [] s = Done tt [] s' /\
    recover_from_log [] (rw_state (disk_all (take 2 ws) (k_disk s))) = Done tt [] r' /\
    contents (k_disk r') (1, 40) = [7].
Proof.
  destruct lw_pending as (s & cur & blocks & Hc & Ht & Hop & Hd & Hcur). pose proof clean_boot_head as [Hl Hn].
  rewrite <- Hd in Hl, Hn.
  destruct (commit_crash_safe 1 2 1 blocks s cur _ [] Hc Ht (Nat.lt_0_1) Hl Hn) as (s' & ws & Heq & _ & _ & _ & Hcrash).
  destruct (Hcrash 2%nat _ [] (rw_rebooted _)) as (_ & r' & Hr & _ & Hb).
  exists s, s', ws, r'. split; [exact Heq|]. split; [exact Hr|]. rewrite <- Hcur. exact (Hb _ outside_40).
Defined.

Lemma recovery_restartable_witness :
  exists r', recover_from_log [] (rw_state (k_disk boot_state)) = Done tt [] r' /\ lh_n (k_log r') = 0.
Proof.
  pose proof clean_boot_head as [Hl Hn].
  destruct (recovery_restartable 1 2 _ _ [] (rw_rebooted (k_disk boot_state))
    (clean_valid 1 2 0 _ (contents (k_disk boot_state)) (tr_geom _ _ _ _ _ _ (lw_transaction 0)) Hl Hn))
    as (r' & ws & Heq & _ & Hn0 & _).
  exists r'. split; [exact Heq|exact Hn0].
Defined.

Lemma end_op_spec_witness :
  exists s s', end_op [] s = Done tt [] s' /\ outstanding (k_log s') = 0 /\ contents (k_disk s') (1, 40) = [7].
Proof.
  destruct lw_pending as (s & cur & blocks & Hc & Ht & [H1 H2 H3 H4] & Hd & Hcur). pose proof clean_boot_head as [Hl _].
  rewrite <- Hd in Hl.
  destruct (end_op_spec s cur _ [] 1 2 1 blocks Hc Ht Hl H1 H3 ltac:(lia)) as (s' & Heq & Ho & _ & Hif).
  rewrite H2 in Ho, Hif. destruct Hif as (_ & _ & Hb).
  exists s, s'. split; [exact Heq|]. split; [exact Ho|]. rewrite <- Hcur. exact (Hb _ outside_40).
Defined.
