(* ===== verification/Umem.v ===== *)
(** How the kernel reaches user memory: through the current page table, with a page
    fault where a page is missing.

    [pgfault] is the T_PGFLT branch of [trap] (trap.c), which allocates a page for a
    process with the lazy allocator; it runs for faults in user mode and, since the
    kernel dereferences user pointers directly, for faults in the middle of a system
    call.  An access whose fault is not repaired faults again for ever. *)

From S2P Require Import Prelude Params Mem State Spinlock Console Kalloc Vm Proc.

Section umem.
Context `{Symbols}.

Definition pgfault (cr2 : Z) : K unit :=
  let faulting_va := PGROUNDDOWN cr2 in
  p ← myproc;
  ty ← pget p page_allocator_type;
  if ty =? 1 then
    psz ← pget p sz;
    hs ← pget p heap_start;
    if (psz <=? faulting_va) || (faulting_va <? hs) then
      cprintf ("Unhandled page fault for va:0x%x!" +:+ nl) [CInt faulting_va];;
      pset p (set_killed 1)
    else
      mem ← kalloc;
      if mem =? 0 then
        cprintf ("Out of memory during lazy allocation!" +:+ nl) [];;
        pset p (set_killed 1)
      else
        kmemset mem 0 PGSIZE;;
        pd ← pget p pgdir;
        r ← mappages pd faulting_va PGSIZE (v2p mem) (Z.lor PTE_W PTE_U);
        if r <? 0 then
          kfree mem;;
          cprintf ("Mapping failed for lazy allocation!" +:+ nl) [];;
          pset p (set_killed 1)
        else mret tt
  else
    cprintf ("Unhandled page fault for va:0x%x!" +:+ nl) [CInt faulting_va];;
    pset p (set_killed 1).

(** The physical address behind [va] in the current page table. *)
Definition vphys (va : Z) (s : kernel) : option Z :=
  let x := pte_of (k_mem s) (p2v (cr3 (k_cpu s))) va in
  if present x then Some (PTE_ADDR x + va mod PGSIZE) else None.

(** One access to [va] by kernel code. *)
Definition uaccess (va : Z) : K Z :=
  o ← get (vphys va);
  match o with
  | Some pa => mret pa
  | None =>
      pgfault va;;
      o ← get (vphys va);
      match o with Some pa => mret pa | None => hang end
  end.

Definition uld8 (va : Z) : K Z :=
  pa ← uaccess va;
  get (fun s => ld8 (k_mem s) pa).

Definition ust8 (va v : Z) : K unit :=
  pa ← uaccess va;
  modify (on_mem (fun m => st8 m pa v)).

Definition uld32 (va : Z) : K Z :=
  b0 ← uld8 va;
  b1 ← uld8 (u32 (va + 1));
  b2 ← uld8 (u32 (va + 2));
  b3 ← uld8 (u32 (va + 3));
  mret (b0 + 256 * b1 + 65536 * b2 + 16777216 * b3).

Fixpoint uread (va : Z) (n : nat) : K (list Z) :=
  match n with
  | O => mret []
  | S n' => b ← uld8 va; bs ← uread (u32 (va + 1)) n'; mret (b :: bs)
  end.

Fixpoint uwrite (va : Z) (bs : list Z) : K unit :=
  match bs with
  | [] => mret tt
  | b :: bs' => ust8 va b;; uwrite (u32 (va + 1)) bs'
  end.

(** Where [readi] and a device's read put their bytes, and where [writei] and a
    device's write get them: a variable of the kernel, a kernel address, or a user
    address. *)
Inductive dest := DKernel | DPhys (a : Z) | DUser (va : Z).
Inductive source := SKernel (bs : list Z) | SUser (va : Z).

Definition put_bytes (d : dest) (off : Z) (bs : list Z) : K unit :=
  match d with
  | DKernel => mret tt
  | DPhys a => kcopyin (a + off) bs
  | DUser va => uwrite (u32 (va + off)) bs
  end.

Definition get_bytes (src : source) (off n : Z) : K (list Z) :=
  match src with
  | SKernel bs => mret (take (Z.to_nat n) (drop (Z.to_nat off) bs))
  | SUser va => uread (u32 (va + off)) (Z.to_nat n)
  end.

End umem.
