(* ===== verification/UmemSpec.v ===== *)
(** Lazy allocation: what the page fault handler does for a process, and what the
    kernel sees when it reads and writes user memory through it. *)

From S2P Require Import Prelude Params Mem State Spinlock Console Kalloc Vm VmTables VmSpace VmAlloc.
From S2P Require Import VmCopy Proc ProcSpec Umem.

Section umem_spec.
Context `{Symbols} {Hsym : SymbolsOk}.

(** Process [p], with directory [pd], is on the processor. *)
Record user_proc (p : nat) (pd : Z) (s : kernel) : Prop := {
  up_cur : cpu_proc (k_cpu s) = Some p;
  up_range : (p < Z.to_nat NPROC)%nat;
  up_table : ptable_ok s;
  up_pgdir : pgdir (proc_of p s) = pd;
  up_cr3 : p2v (cr3 (k_cpu s)) = pd;
  up_cons : cons_ready s
}.

(** [va] belongs to the process and its page comes on demand. *)
Record lazy_at (p : nat) (va : Z) (s : kernel) : Prop := {
  la_type : page_allocator_type (proc_of p s) = 1;
  la_user : user va;
  la_size : PGROUNDDOWN va < sz (proc_of p s);
  la_heap : heap_start (proc_of p s) <= PGROUNDDOWN va
}.

Lemma page_base va : user va ->
  PGROUNDDOWN va mod PGSIZE = 0 /\ 0 <= PGROUNDDOWN va <= va /\ va < PGROUNDDOWN va + PGSIZE /\
  PGROUNDDOWN va + PGSIZE <= KERNBASE.
Proof. unfold user. intros Hva. rewrite PGROUNDDOWN_eq by lia. mlia. Qed.

Lemma pte_of_base m pd va : user va -> pte_of m pd (PGROUNDDOWN va) = pte_of m pd va.
Proof.
  intros Hva. pose proof (page_base va Hva). unfold user in Hva.
  apply pte_of_page; [lia|lia|mlia].
Qed.

(** A page that is neither free nor a table nor a user page goes back to the free list. *)
Lemma uvm_inv_freed v s pd l :
  uvm_inv s pd l -> page_ok v -> v ∉ l -> ~ pt_page (k_mem s) pd v ->
  (forall va, user va -> present (pte_of (k_mem s) pd va) = true -> frame (k_mem s) pd va <> v) ->
  uvm_inv (freed v s) pd (v :: l) /\
  (forall va, 0 <= va < 4294967296 -> pte_of (k_mem (freed v s)) pd va = pte_of (k_mem s) pd va).
Proof.
  intros [Hi Hfr Hinj] Hv Hn Hnp Hvf.
  destruct (freed_inv v s pd l Hi Hv Hn Hnp) as (Hi' & Hpte & Hpde).
  assert (Hfe : forall va, user va -> frame (k_mem (freed v s)) pd va = frame (k_mem s) pd va).
  { intros va Hu. unfold frame. by rewrite Hpte by (by apply user_range). }
  split; [split; [done|..]|done].
  - intros va Hu. rewrite Hfe, Hpte by (done || by apply user_range). intros Hp.
    destruct (Hfr va Hu Hp) as (Hok & Hnl & Hnt). split_and!; [done| |].
    + rewrite not_elem_of_cons. split; [by apply Hvf|done].
    + by rewrite (pt_page_same (k_mem s)).
  - intros va va' Hu Hu'. rewrite !Hfe, !Hpte by (done || by apply user_range). by apply Hinj.
Qed.

(** The process is marked killed, and its memory is as it was. *)
Definition fault_failed (pd : Z) (p : nat) (s : kernel) (l : list Z) (s' : kernel) : Prop :=
  exists k s1, s' = on_proc p (set_killed 1) s1 /\ alloc_only (set_k_cons k s) s1 /\
    uvm_inv s1 pd l /\
    (forall va, 0 <= va < 4294967296 -> pte_of (k_mem s1) pd va = pte_of (k_mem s) pd va) /\
    (forall a, outside a (fun q => pt_page (k_mem s) pd q \/ q ∈ l) -> ld8 (k_mem s1) a = ld8 (k_mem s) a).

Lemma fault_refused pd p k s l :
  uvm_inv s pd l -> fault_failed pd p s l (on_proc p (set_killed 1) (set_k_cons k s)).
Proof.
  intros Hu. exists k, (set_k_cons k s). split; [done|]. split; [apply alloc_only_refl|].
  split; [by apply uvm_inv_cons|done].
Qed.

(** No page table can be had for the page [v]: it is given back. *)
Lemma fault_unmapped pd p a k s v s1 :
  uvm_inv s pd [v] -> alloced pd a a s [v] s1 [] -> ~ pt_page (k_mem s1) pd v ->
  fault_failed pd p s [v] (on_proc p (set_killed 1) (set_k_cons k (freed v s1))).
Proof.
  intros Hu Ha Hnp. pose proof Ha as [Hu1 Ho1 _ Hp1 _ Hn1 Hm1].
  assert (Hv : page_ok v) by (eapply free_page_ok; [apply Hu|by left]).
  assert (Hpte : forall va, 0 <= va < 4294967296 -> pte_of (k_mem s1) pd va = pte_of (k_mem s) pd va).
  { intros va Hva. specialize (Hp1 va Hva). destruct (_ && _) eqn:E; [lia|done]. }
  destruct (uvm_inv_freed v s1 pd [] Hu1 Hv (not_elem_of_nil v) Hnp) as (Hu2 & Hpte2).
  { intros va Huv. unfold frame. rewrite Hpte by (by apply user_range).
    by apply (uvm_fresh s pd v []). }
  exists k, (set_k_cons k (freed v s1)). split_and!; [done| |by apply uvm_inv_cons| |].
  - apply alloc_only_cons. eapply alloc_only_trans; [done|apply alloc_only_freed].
  - intros va Hva. simpl. by rewrite Hpte2, Hpte.
  - intros b Hb. change (ld8 (k_mem (freed v s1)) b = ld8 (k_mem s) b).
    rewrite freed_mem; [by apply Hm1|]. apply Hb. right. by left.
Qed.

(** The state after the fault at [va] was repaired. *)
Definition fault_repaired (pd va : Z) (s : kernel) (l : list Z) (s' : kernel) : Prop :=
  exists l', alloced pd (PGROUNDDOWN va) (PGROUNDDOWN va + PGSIZE) s l s' l' /\
    (length l <= 2 + length l')%nat.

Lemma myproc_eq p e s : cpu_proc (k_cpu s) = Some p -> myproc e s = Done p e s.
Proof. intros Hp. unfold myproc. erewrite bind_Done by done. by rewrite Hp. Qed.

Lemma wp_pgfault p pd va e s l :
  user_proc p pd s -> uvm_inv s pd l -> lazy_at p va s -> present (pte_of (k_mem s) pd va) = false ->
  wp (pgfault va) (fun _ e' s' => e' = e /\
    (fault_repaired pd va s l s' \/ (length l <= 1)%nat /\ fault_failed pd p s l s')) e s.
Proof.
  intros Hp Hu [Hty Hva Hsz Hhs] Hun. destruct (page_base va Hva) as (Hal & Hlo & Hlt & Hhi).
  pose proof (uv_vm _ _ _ Hu) as Hi.
  unfold pgfault. apply wp_bind. eapply wp_intro; [by apply myproc_eq, Hp|].
  unfold pget. repeat wp_step. rewrite Hty. simpl (1 =? 1). cbv iota. repeat wp_step.
  destruct ((sz (proc_of p s) <=? PGROUNDDOWN va) || _) eqn:E; [lia|]. wp_step.
  eapply wp_kalloc; [apply Hi|apply Hi|]. destruct l as [|v l].
  { simpl (0 =? 0). cbv iota. apply wp_bind, wp_cprintf; [apply Hp|]. intros k _.
    apply wp_modify. split; [done|]. right. split; [simpl; lia|]. by apply fault_refused. }
  intros Hv _ _. pose proof (page_ok_range v Hv). destruct (v =? 0) eqn:E0; [lia|].
  pose proof (wp_alloc_page pd (PGROUNDDOWN va) (PGROUNDDOWN va) e s (v :: l) s v l
    (alloced_refl _ _ _ _ Hu) (vi_ready _ _ _ Hi) ltac:(lia) ltac:(lia) Hal Hhi) as Hw.
  rewrite pte_of_base in Hw by done. specialize (Hw Hun).
  apply wp_bind_inv in Hw. unfold wp at 1, kmemset, modify in Hw. cbv beta iota in Hw.
  apply wp_bind, wp_modify, wp_bind, wp_get, wp_bind.
  change (pgdir (proc_of p (on_mem _ (popped s)))) with (pgdir (proc_of p s)).
  rewrite (up_pgdir _ _ _ Hp). eapply wp_mono; [exact Hw|]. clear Hw.
  intros r e' s1 (-> & [(-> & l2 & Ha & Hl)|(-> & -> & Ha & Hnp)]).
  - simpl. apply wp_ret. split; [done|]. left. exists l2. split; [done|simpl; lia].
  - simpl. apply wp_bind. pose proof (al_inv _ _ _ _ _ _ _ Ha) as [Hi1 _ _].
    eapply wp_kfree; [done|apply not_elem_of_nil|apply Hi1|apply Hi1|]. intros _.
    apply wp_bind, wp_cprintf.
    { eapply (alloc_only_cons_ready s1); [apply alloc_only_freed|].
      eapply alloc_only_cons_ready; [apply Ha|apply Hp]. }
    intros k _. apply wp_modify. split; [done|]. right. split; [simpl; lia|].
    by eapply fault_unmapped.
Qed.

(** ** Accesses *)

Lemma vphys_eq p pd va s :
  user_proc p pd s -> vphys va s =
    if present (pte_of (k_mem s) pd va) then Some (PTE_ADDR (pte_of (k_mem s) pd va) + va mod PGSIZE) else None.
Proof. intros Hp. unfold vphys. by rewrite (up_cr3 _ _ _ Hp). Qed.

Lemma frame_phys m pd va : v2p (frame m pd va) = PTE_ADDR (pte_of m pd va).
Proof.
  unfold frame. pose proof (pte_of_range m pd va). rewrite v2p_p2v; [done|].
  rewrite PTE_ADDR_eq. mlia.
Qed.

(** The memory of a process as the process sees it: a page that is not there yet reads
    as zeros. *)
Definition uview (m : memory) (pd va : Z) : Z :=
  if present (pte_of m pd va) then ubyte m pd va else 0.

Lemma uld8_present p pd va e s :
  user_proc p pd s -> present (pte_of (k_mem s) pd va) = true ->
  uld8 va e s = Done (ubyte (k_mem s) pd va) e s.
Proof.
  intros Hp Hpr. unfold uld8, uaccess. unfold ubyte. rewrite frame_phys.
  erewrite bind_Done; [done|]. erewrite bind_Done by done. rewrite (vphys_eq p pd) by done.
  by rewrite Hpr.
Qed.

Lemma ust8_present p pd va c e s :
  user_proc p pd s -> present (pte_of (k_mem s) pd va) = true ->
  ust8 va c e s = Done tt e (on_frame pd va [c] s).
Proof.
  intros Hp Hpr. unfold ust8, uaccess. erewrite bind_Done.
  2: { erewrite bind_Done by done. rewrite (vphys_eq p pd) by done. rewrite Hpr. reflexivity. }
  unfold modify, on_frame, on_mem. by rewrite frame_phys.
Qed.

(** Repairing a fault does not change what the process sees. *)
Lemma repaired_view pd va s l s' va' :
  uvm_inv s pd l -> user va -> present (pte_of (k_mem s) pd va) = false ->
  fault_repaired pd va s l s' -> user va' ->
  uview (k_mem s') pd va' = uview (k_mem s) pd va'.
Proof.
  intros Hu Hva Hun (l' & Ha & _) Hva'. destruct (page_base va Hva) as (Hal & Hlo & Hlt & Hhi).
  unfold uview. destruct ((PGROUNDDOWN va <=? va') && (va' <? PGROUNDDOWN va + PGSIZE)) eqn:E.
  - rewrite (alloced_present _ _ _ _ _ _ _ va' Ha) by (done || lia).
    rewrite (pte_of_page (k_mem s) pd va' va), Hun; [|by apply user_range..|].
    2: { revert E Hal Hlo Hlt. generalize (PGROUNDDOWN va). intros b E Hal Hlo Hlt. mlia. }
    unfold ubyte. apply (al_zero _ _ _ _ _ _ _ Ha); [lia|]. apply Z.mod_pos_bound. lia.
  - pose proof (al_pte _ _ _ _ _ _ _ Ha va' (user_range va' Hva')) as Hp. rewrite E in Hp.
    unfold ubyte, frame. rewrite Hp. destruct (present (pte_of (k_mem s) pd va')) eqn:Hpr; [|done].
    destruct (uv_frame _ _ _ Hu va' Hva' Hpr) as (Hok & Hnl & Hnt).
    apply (al_mem _ _ _ _ _ _ _ Ha). intros q Hq.
    assert (Hqok : page_ok q).
    { destruct Hq; [by eapply vm_page_ok; [apply Hu|]|by eapply free_page_ok; [apply Hu|]]. }
    assert (Hne : frame (k_mem s) pd va' <> q) by (destruct Hq; congruence).
    pose proof (page_disjoint _ _ Hok Hqok Hne). fold (frame (k_mem s) pd va').
    pose proof (Z.mod_pos_bound va' PGSIZE ltac:(lia)). lia.
Qed.

Lemma alloc_only_proc p pd s s' : alloc_only s s' -> user_proc p pd s -> user_proc p pd s'.
Proof.
  intros Ho [H1 H2 H3 H4 H5 H6]. pose proof (alloc_only_cons_ready s s' Ho H6).
  destruct Ho as (m & km & n & -> & E). by split.
Qed.

Lemma alloc_only_lazy p va s s' : alloc_only s s' -> lazy_at p va s -> lazy_at p va s'.
Proof. by intros (m & km & n & -> & E) []; split. Qed.

(** [s'] has the same process on the processor, with the memory [view]. *)
Record sees (p : nat) (pd : Z) (s s' : kernel) (l : list Z) (view : Z -> Z) : Prop := {
  se_proc : user_proc p pd s';
  se_same : alloc_only s s';
  se_inv : exists l', uvm_inv s' pd l' /\ (length l <= 2 + length l')%nat;
  se_view : forall va, user va -> uview (k_mem s') pd va = view va
}.

(** The page of [va] is there after an access, and the process sees the same memory. *)
Lemma wp_uaccess p pd va e s l :
  user_proc p pd s -> uvm_inv s pd l -> lazy_at p va s -> (2 <= length l)%nat ->
  wp (uaccess va) (fun pa e' s' => e' = e /\ pa = v2p (frame (k_mem s') pd va) + va mod PGSIZE /\
    present (pte_of (k_mem s') pd va) = true /\ sees p pd s s' l (uview (k_mem s) pd)) e s.
Proof.
  intros Hp Hu Hla Hl. pose proof (la_user _ _ _ Hla) as Hva.
  unfold uaccess. apply wp_bind, wp_get. rewrite (vphys_eq p pd) by done.
  destruct (present (pte_of (k_mem s) pd va)) eqn:Hpr.
  - apply wp_ret. rewrite frame_phys. split_and!; [done..|].
    split; [done|apply alloc_only_refl| |done]. exists l. split; [done|lia].
  - apply wp_bind. eapply wp_mono; [by apply wp_pgfault|].
    intros _ e' s' (-> & [Hr|[Hl' _]]); [|lia]. pose proof Hr as (l' & Ha & Hl2).
    assert (Hp' : user_proc p pd s') by (eapply alloc_only_proc; [apply Ha|done]).
    destruct (page_base va Hva) as (Hal & Hlo & Hlt & Hhi).
    assert (Hpr' : present (pte_of (k_mem s') pd va) = true) by (eapply alloced_present; [done..|lia]).
    apply wp_bind, wp_get. rewrite (vphys_eq p pd), Hpr' by done. apply wp_ret.
    rewrite frame_phys. split_and!; [done..|]. split; [done|apply Ha| |].
    + exists l'. split; [apply Ha|done].
    + intros va' Hva'. by apply (repaired_view pd va s l).
Qed.

Lemma on_frame_proc p pd va bs s : user_proc p pd s -> user_proc p pd (on_frame pd va bs s).
Proof. by intros []; split. Qed.

(** ** Growing *)

Lemma switchuvm_eq q e s :
  irq_ok s -> pgdir q <> 0 ->
  switchuvm q e s = Done tt e (on_cpu (fun c => set_cr3 (v2p (pgdir q))
    (set_ts_esp0 (u32 (default 0 (i ← cpu_proc c; q ← k_ptable s !! i; Some (kstack q)) + KSTACKSIZE))
      (set_ts_ss0 (Z.shiftl SEG_KDATA 3) c))) s).
Proof.
  intros Hirq Hpd. unfold switchuvm. erewrite bind_Done by apply pushcli_eq.
  do 4 (erewrite bind_Done by done). rewrite (proj2 (Z.eqb_neq _ _) Hpd).
  erewrite bind_Done by done. rewrite <- popcli_pushed; [done|exact Hirq].
Qed.

(** * Properties *)

(** C6: Lazy allocation is transparent to the kernel's own accesses: with two free pages, a
    read or a write of any address of a process that uses the lazy allocator succeeds,
    whether or not its page is there yet.  The read returns the byte the process sees
    (zero where nothing was written) and the write changes this one byte; the rest of
    what the process sees, the process, and everything but memory and the free list are
    the same. *)
Theorem lazy_transparent p pd va c e s l :
  user_proc p pd s -> uvm_inv s pd l -> lazy_at p va s -> (2 <= length l)%nat ->
  wp (uld8 va) (fun b e' s' => e' = e /\ b = uview (k_mem s) pd va /\
    sees p pd s s' l (uview (k_mem s) pd)) e s /\
  wp (ust8 va c) (fun _ e' s' => e' = e /\
    sees p pd s s' l (fun va' => if va' =? va then u8 c else uview (k_mem s) pd va')) e s.
Proof.
  intros Hp Hu Hla Hl. pose proof (la_user _ _ _ Hla) as Hva. split.
  - apply wp_bind. eapply wp_mono; [by apply wp_uaccess|].
    intros pa e' s' (-> & -> & Hpr & Hs). apply wp_get. split; [done|]. split; [|done].
    rewrite <- (se_view _ _ _ _ _ _ Hs) by done. unfold uview. by rewrite Hpr.
  - apply wp_bind. eapply wp_mono; [by apply wp_uaccess|].
    intros pa e' s1 (-> & -> & Hpr & [Hp1 Ho (l1 & Hu1 & Hl1) Hv]). apply wp_modify. split; [done|].
    change (on_mem _ s1) with (on_frame pd va [c] s1).
    pose proof (Z.mod_pos_bound va PGSIZE ltac:(lia)) as Hmod.
    destruct (on_frame_inv pd va [c] s1 l1 Hu1 Hva Hpr) as (Hu2 & Hpte & Hb); [simpl; lia|].
    split.
    + by apply on_frame_proc.
    + eapply alloc_only_trans; [done|]. by do 3 eexists; split; [reflexivity|].
    + exists l1. split; done.
    + intros va' Hva'. rewrite <- Hv by done. unfold uview. rewrite Hpte by (by apply user_range).
      destruct (present (pte_of (k_mem s1) pd va')) eqn:E.
      * rewrite Hb by done. simpl.
        destruct (va' =? va) eqn:E1; [|destruct ((va <=? va') && _) eqn:E2; [lia|done]].
        replace va' with va in * by lia. destruct ((va <=? va) && _) eqn:E2; [|lia].
        by rewrite Z.sub_diag.
      * destruct (va' =? va) eqn:E1; [|done]. replace va' with va in * by lia. congruence.
Qed.

(** The page fault handler, for an address of a process with the lazy allocator whose
    page is missing: a page of zeros, writable by the user, is mapped there and nothing
    else changes, unless fewer than two pages are free; then either the same happens or
    the process is marked killed, its memory is untouched and no page is lost. *)
Lemma pgfault_spec p pd va e s l :
  user_proc p pd s -> uvm_inv s pd l -> lazy_at p va s -> present (pte_of (k_mem s) pd va) = false ->
  wp (pgfault va) (fun _ e' s' => e' = e /\
    (fault_repaired pd va s l s' \/ (length l <= 1)%nat /\ fault_failed pd p s l s')) e s.
Proof. apply wp_pgfault. Qed.

(** A fault outside of the process, or of a process that does not use the lazy
    allocator, marks the process killed and changes no memory. *)
Lemma pgfault_refused p pd cr2 e s l :
  user_proc p pd s -> uvm_inv s pd l ->
  page_allocator_type (proc_of p s) <> 1 \/ sz (proc_of p s) <= PGROUNDDOWN cr2 \/
    PGROUNDDOWN cr2 < heap_start (proc_of p s) ->
  wp (pgfault cr2) (fun _ e' s' => e' = e /\
    (exists k, s' = on_proc p (set_killed 1) (set_k_cons k s)) /\ uvm_inv s' pd l) e s.
Proof.
  intros Hp Hu Hbad. unfold pgfault. apply wp_bind. eapply wp_intro; [by apply myproc_eq, Hp|].
  assert (Hk : forall fmt args, wp (cprintf fmt args;; pset p (set_killed 1)) (fun _ e' s' => e' = e /\
    (exists k, s' = on_proc p (set_killed 1) (set_k_cons k s)) /\ uvm_inv s' pd l) e s).
  { intros fmt args. apply wp_bind, wp_cprintf; [apply Hp|]. intros k _. apply wp_modify.
    split; [done|]. split; [by exists k|]. apply (uvm_inv_cons k) in Hu.
    destruct Hu as [[Hf Hwf Hsep Hr] Hfr Hinj].
    split; [split|..]; try done. by eapply free_rep_ext, Hf. }
  unfold pget. repeat wp_step. destruct (_ =? 1) eqn:E; [|apply Hk].
  repeat wp_step. destruct ((sz (proc_of p s) <=? PGROUNDDOWN cr2) || _) eqn:E2; [apply Hk|lia].
Qed.

(** C39: The handler assumes that a fault means a missing page.  A user access that faults on
    a page that is mapped, such as the guard page under the stack, makes it panic with
    [remap] when the process uses the lazy allocator and a page is free: the whole kernel stops. *)
Theorem pgfault_present_panics p pd va e s v l :
  user_proc p pd s -> uvm_inv s pd (v :: l) -> lazy_at p va s -> present (pte_of (k_mem s) pd va) = true ->
  exists s', pgfault va e s = Panic "remap" s'.
Proof.
  intros Hp Hu [Hty Hva Hsz Hhs] Hpr. destruct (page_base va Hva) as (Hal & Hlo & Hlt & Hhi).
  pose proof (uv_vm _ _ _ Hu) as Hi.
  assert (Hv : page_ok v) by (eapply free_page_ok; [apply Hu|by left]).
  destruct (uvm_inv_take s pd v l (fun m => memset m (v2p v) 0 PGSIZE) Hu) as (Hu' & Hpte & _).
  { intros m a Hout. rewrite ld8_memset by lia. by zif. }
  exists (on_mem (fun m => memset m (v2p v) 0 PGSIZE) (popped s)).
  unfold pgfault, pget. erewrite bind_Done by (by apply myproc_eq, Hp).
  erewrite bind_Done by done. rewrite Hty. simpl (1 =? 1). cbv iota.
  do 2 (erewrite bind_Done by done).
  destruct ((sz (proc_of p s) <=? PGROUNDDOWN va) || _) eqn:E; [lia|].
  assert (Hk : kalloc e s = Done v e (popped s)).
  { rewrite kalloc_eq by apply Hi. pose proof (fr_chain _ _ (vi_free _ _ _ Hi)) as [-> _].
    pose proof (page_ok_range v Hv). unfold cbool. destruct (v =? 0) eqn:E0; [lia|done]. }
  erewrite bind_Done by exact Hk. pose proof (page_ok_range v Hv). destruct (v =? 0) eqn:E0; [lia|].
  do 2 (erewrite bind_Done by done). erewrite bind_Panic; [done|].
  rewrite (up_pgdir _ _ _ Hp : pgdir (proc_of p (on_mem _ (popped s))) = pd).
  apply mappages_present; [apply Hu'|lia|].
  rewrite Hpte by (rewrite PGROUNDDOWN_eq; mlia).
  rewrite (PGROUNDDOWN_eq (PGROUNDDOWN va)), Hal, Z.sub_0_r by lia. by rewrite pte_of_base.
Qed.

(** Growing a process with the lazy allocator changes the size and nothing else: no page
    is taken and no mapping made, and every new address is one whose page comes on
    demand; beyond KERNBASE the call is refused. *)
Lemma growproc_lazy p pd n e s :
  user_proc p pd s -> irq_ok s -> pd <> 0 -> page_allocator_type (proc_of p s) = 1 ->
  0 < n -> 0 <= sz (proc_of p s) < KERNBASE -> sz (proc_of p s) + n < 4294967296 ->
  wp (growproc n) (fun r e' s' => e' = e /\ k_mem s' = k_mem s /\ k_kmem s' = k_kmem s /\
    if KERNBASE <=? sz (proc_of p s) + n then r = -1 /\ proc_of p s' = proc_of p s
    else r = 0 /\ proc_of p s' = set_sz (sz (proc_of p s) + n) (proc_of p s) /\
         p2v (cr3 (k_cpu s')) = p2v (v2p pd) /\
         forall va, heap_start (proc_of p s) <= PGROUNDDOWN va -> user va ->
           PGROUNDDOWN va < sz (proc_of p s) + n -> lazy_at p va s') e s.
Proof.
  intros Hp Hirq Hpd Hty Hn Hsz Hmax.
  unfold growproc. apply wp_bind. eapply wp_intro; [by apply myproc_eq, Hp|].
  unfold pget, pset. wp_step. wp_step. destruct (0 <? n) eqn:E; [|lia].
  wp_step. wp_step. rewrite Hty. simpl (1 =? 1). cbv iota.
  rewrite u32_small by lia. destruct (KERNBASE <=? _) eqn:Ek.
  - apply wp_bind, wp_cprintf; [apply Hp|]. intros k _. by apply wp_ret.
  - do 4 wp_step.
    assert (Hq : proc_of p (on_proc p (set_sz (sz (proc_of p s) + n)) s) =
      set_sz (sz (proc_of p s) + n) (proc_of p s)) by (by apply proc_of_on_proc; apply Hp).
    rewrite Hq. wp_step. eapply wp_intro; [apply switchuvm_eq|].
    + exact Hirq.
    + simpl. by rewrite (up_pgdir _ _ _ Hp).
    + apply wp_ret. set (s' := on_cpu _ _).
      assert (Hq' : proc_of p s' = set_sz (sz (proc_of p s) + n) (proc_of p s)) by exact Hq.
      split_and!; try done.
      * subst s'. simpl. by rewrite (up_pgdir _ _ _ Hp).
      * intros va Hhs Hva Hlt. by split; rewrite ?Hq'.
Qed.

End umem_spec.

(** * The properties at concrete states *)

#[local] Existing Instance built_symbols.

(** Process 0 is on the processor with a size of three pages, none of them mapped, and
    eight pages are free. *)
Definition uw_proc (ty : Z) (q : proc_t) : proc_t :=
  set_pgdir wdir (set_page_allocator_type ty (set_sz 0x3000 q)).
Definition uw_run (ty : Z) (s : kernel) : kernel :=
  on_cpu (fun c => set_cr3 (v2p wdir) (set_cpu_proc (Some 0%nat) c)) (on_proc 0 (uw_proc ty) s).
Definition uw_state (ty : Z) : kernel := uw_run ty (wstate 8).

Lemma uw_run_cons ty s : cons_ready s -> cons_ready (uw_run ty s).
Proof. done. Qed.

Lemma uw_run_inv ty s l : uvm_inv s wdir l -> uvm_inv (uw_run ty s) wdir l.
Proof.
  intros [[Hf Hwf Hsep Hr] Hfr Hinj]. split; [split|..]; try done. by eapply free_rep_ext, Hf.
Qed.

Lemma uw_run_mem ty s : k_mem (uw_run ty s) = k_mem s.
Proof. done. Qed.

Lemma uw_proc_of ty : proc_of 0 (uw_state ty) = uw_proc ty zero_proc.
Proof. reflexivity. Qed.

Lemma uw_ok ty : user_proc 0 wdir (uw_state ty).
Proof.
  split; [reflexivity|apply Nat.ltb_lt; by vm_compute|reflexivity|reflexivity|by vm_compute|].
  apply uw_run_cons, wstate_cons. lia.
Qed.

Lemma uw_inv ty : uvm_inv (uw_state ty) wdir (wpages 8).
Proof. apply uw_run_inv, wdir_inv. lia. Qed.

Lemma uw_lazy va : 0 <= va < 0x3000 -> lazy_at 0 va (uw_state 1).
Proof.
  intros Hva. assert (0 <= PGROUNDDOWN va <= va) by (rewrite PGROUNDDOWN_eq; mlia).
  split; rewrite ?uw_proc_of; simpl; [done|unfold user; lia|lia|lia].
Qed.

Lemma uw_unmapped ty va : user va -> present (pte_of (k_mem (uw_state ty)) wdir va) = false.
Proof.
  intros Hva. unfold uw_state. rewrite uw_run_mem.
  rewrite wdir_unmapped; [done|lia|done].
Qed.

Lemma lazy_transparent_witness :
  exists s', ust8 0x1234 77 [] (uw_state 1) = Done tt [] s' /\ uview (k_mem s') wdir 0x1234 = 77.
Proof.
  destruct (lazy_transparent 0 wdir 0x1234 77 [] (uw_state 1) (wpages 8) (uw_ok 1) (uw_inv 1)
    (uw_lazy 0x1234 ltac:(lia)) ltac:(rewrite length_wpages; lia)) as [_ Hw].
  apply wp_elim in Hw as ([] & e' & s' & Heq & -> & Hs). exists s'. split; [exact Heq|].
  rewrite (se_view _ _ _ _ _ _ Hs) by (unfold user; lia). reflexivity.
Defined.

Lemma pgfault_spec_witness :
  exists s', pgfault 0x1234 [] (uw_state 1) = Done tt [] s' /\
    fault_repaired wdir 0x1234 (uw_state 1) (wpages 8) s'.
Proof.
  pose proof (pgfault_spec 0 wdir 0x1234 [] (uw_state 1) (wpages 8) (uw_ok 1) (uw_inv 1)
    (uw_lazy 0x1234 ltac:(lia)) (uw_unmapped 1 0x1234 ltac:(unfold user; lia))) as Hw.
  apply wp_elim in Hw as ([] & e' & s' & Heq & -> & Hs). exists s'. split; [exact Heq|]. clear Heq.
  destruct Hs as [Hs|[Hl _]]; [exact Hs|]. rewrite length_wpages in Hl. lia.
Defined.

Lemma pgfault_refused_witness :
  exists s', pgfault 0x5000 [] (uw_state 0) = Done tt [] s' /\ killed (proc_of 0 s') = 1.
Proof.
  pose proof (pgfault_refused 0 wdir 0x5000 [] (uw_state 0) (wpages 8) (uw_ok 0) (uw_inv 0)
    ltac:(left; discriminate)) as Hw.
  apply wp_elim in Hw as ([] & e' & s' & Heq & -> & (k & Hs) & _). exists s'. split; [exact Heq|].
  clear Heq. subst s'. reflexivity.
Defined.

Lemma pgfault_present_panics_witness :
  exists s s', pgfault 0x1234 [] s = Panic "remap" s'.
Proof.
  pose proof (wp_pgfault 0 wdir 0x1234 [] (uw_state 1) (wpages 8) (uw_ok 1) (uw_inv 1)
    (uw_lazy 0x1234 ltac:(lia)) (uw_unmapped 1 0x1234 ltac:(unfold user; lia))) as Hw.
  apply wp_elim in Hw as ([] & e' & s & _ & -> & Hs).
  destruct Hs as [(l & Ha & Hl)|[Hl _]]; rewrite length_wpages in Hl; [|lia].
  destruct l as [|v l]; [simpl in Hl; lia|]. exists s.
  apply (pgfault_present_panics 0 wdir 0x1234 [] s v l).
  - apply (alloc_only_proc _ _ (uw_state 1)); [apply Ha|apply uw_ok].
  - apply Ha.
  - apply (alloc_only_lazy _ _ (uw_state 1)); [apply Ha|apply uw_lazy; lia].
  - apply (alloced_present _ _ _ _ _ _ _ _ Ha); [unfold user; lia|].
    change (PGROUNDDOWN 0x1234) with 0x1000. lia.
Defined.

Lemma growproc_lazy_witness :
  exists s', growproc 0x5000 [] (uw_state 1) = Done 0 [] s' /\ sz (proc_of 0 s') = 0x8000.
Proof.
  pose proof (growproc_lazy 0 wdir 0x5000 [] (uw_state 1) (uw_ok 1) ltac:(by split) ltac:(discriminate)
    eq_refl ltac:(lia) ltac:(by split) ltac:(by vm_compute)) as Hw.
  apply wp_elim in Hw as (r & e' & s' & Heq & -> & _ & _ & Hr). clear - Heq Hr.
  change (KERNBASE <=? _) with false in Hr. cbv iota in Hr. destruct Hr as (-> & Hq & _).
  exists s'. split; [exact Heq|]. rewrite Hq. reflexivity.
Defined.
