(* ===== verification/Fs.v ===== *)
(** fs.c: blocks, inodes, inode contents, directories and path names.

    An inode pointer is an index into [icache.inode].  [struct dinode] and [struct
    dirent] are read and written as bytes of a block.  A device file is read and
    written through [devsw]; the class [DevSw] stands for the function pointers. *)

From S2P Require Import Prelude Params Mem State Spinlock Console Kalloc Vm Proc Ide Bio Log Umem.

Class DevSw := {
  dev_read : Z -> nat -> dest -> Z -> K (Z * list Z);
  dev_write : Z -> nat -> source -> Z -> K Z
}.

Section fs.
Context `{Symbols} `{Driver}.

Definition I_BUSY : Z := 0x1.
Definition I_VALID : Z := 0x2.

Definition inode_of (i : nat) (s : kernel) : inode_t := default zero_inode (k_icache s !! i).
Definition on_inode (i : nat) (f : inode_t -> inode_t) (s : kernel) : kernel :=
  set_k_icache (alter f i (k_icache s)) s.
Definition iget_f {A} (i : nat) (f : inode_t -> A) : K A := get (fun s => f (inode_of i s)).
Definition iset (i : nat) (f : inode_t -> inode_t) : K unit := modify (on_inode i f).

(** 16-bit fields in a block. *)
Definition get16 (d : list Z) (o : nat) : Z := u8 (lget d o) + 256 * u8 (lget d (o + 1)).
Definition put16 (d : list Z) (o : nat) (v : Z) : list Z :=
  let v := u16 v in <[o := v mod 256]> (<[(o + 1)%nat := v / 256]> d).

(** [memmove] between a block and a local variable. *)
Definition splice (d : list Z) (o : nat) (bs : list Z) : list Z :=
  take o d ++ bs ++ drop (o + length bs) d.

Definition IBLOCK (i : Z) (sb : superblock) : Z := u32 (i / IPB + sb_inodestart sb).
Definition BBLOCK (b : Z) (sb : superblock) : Z := u32 (b / BPB + sb_bmapstart sb).

(** ** Blocks *)

(** Read the super block. *)
Definition sb_decode (d : list Z) : superblock :=
  mkSb (get32 d 0) (get32 d 4) (get32 d 8) (get32 d 12) (get32 d 16) (get32 d 20) (get32 d 24).

Definition readsb (dev : Z) : K superblock :=
  bp ← bread dev 1;
  d ← bufget bp bdata;
  brelse bp;;
  mret (sb_decode d).

(** Zero a block. *)
Definition bzero (dev bno : Z) : K unit :=
  bp ← bread dev bno;
  bufset bp (set_bdata zero_block);;
  log_write bp;;
  brelse bp.

(** [bp->data[bi/8]] and the mask [1 << (bi % 8)]. *)
Definition bit_mask (bi : Z) : Z := Z.shiftl 1 (bi mod 8).
Definition bit_test (d : list Z) (bi : Z) : bool :=
  cbool (Z.land (lget d (Z.to_nat (bi / 8))) (bit_mask bi)).
Definition bit_set (d : list Z) (bi : Z) : list Z :=
  let k := Z.to_nat (bi / 8) in <[k := u8 (Z.lor (lget d k) (bit_mask bi))]> d.
Definition bit_clear (d : list Z) (bi : Z) : list Z :=
  let k := Z.to_nat (bi / 8) in <[k := u8 (Z.land (lget d k) (Z.lnot (bit_mask bi)))]> d.

(** The inner loop of [balloc]: the first clear bit from [bi] on. *)
Fixpoint first_clear (d : list Z) (b size bi : Z) (fuel : nat) : option Z :=
  match fuel with
  | O => None
  | S fuel' =>
      if (bi <? BPB) && (b + bi <? size)
      then if bit_test d bi then first_clear d b size (bi + 1) fuel' else Some bi
      else None
  end.

(** Allocate a zeroed disk block. *)
Definition balloc (dev : Z) : K Z :=
  sb ← get k_sb;
  loop (Z.to_nat (sb_size sb / BPB + 2)) (fun b =>
    if negb (b <? sb_size sb) then panic "balloc: out of blocks"
    else
      bp ← bread dev (BBLOCK b sb);
      d ← bufget bp bdata;
      match first_clear d b (sb_size sb) 0 (S (Z.to_nat BPB)) with
      | Some bi =>
          bufset bp (set_bdata (bit_set d bi));;
          log_write bp;;
          brelse bp;;
          bzero dev (b + bi);;
          mret (inr (b + bi))
      | None =>
          brelse bp;;
          mret (inl (b + BPB))
      end) 0.

(** Free a disk block. *)
Definition bfree (dev b : Z) : K unit :=
  sb ← readsb dev;
  modify (set_k_sb sb);;
  bp ← bread dev (BBLOCK b sb);
  let bi := b mod BPB in
  d ← bufget bp bdata;
  if negb (bit_test d bi) then panic "freeing free block" else
  bufset bp (set_bdata (bit_clear d bi));;
  log_write bp;;
  brelse bp.

(** ** Inodes *)

Definition iinit (dev : Z) : K unit :=
  initlock L_icache "icache";;
  sb ← readsb dev;
  modify (set_k_sb sb);;
  cprintf ("sb: size %d nblocks %d ninodes %d nlog %d logstart %d inodestart %d bmap start %d" +:+ nl)
    [CInt (sb_size sb); CInt (sb_nblocks sb); CInt (sb_ninodes sb); CInt (sb_nlog sb);
     CInt (sb_logstart sb); CInt (sb_inodestart sb); CInt (sb_bmapstart sb)].

(** [(struct dinode* )bp->data + inum%IPB]: the offset of an inode in its block, and
    its fields. *)
Definition dinode_off (inum : Z) : nat := Z.to_nat (inum mod IPB * sizeof_dinode).

Definition dinode_encode (q : inode_t) (d : list Z) (o : nat) : list Z :=
  let d := put16 d o (itype q) in
  let d := put16 d (o + 2) (imajor q) in
  let d := put16 d (o + 4) (iminor q) in
  let d := put16 d (o + 6) (inlink q) in
  let d := put32 d (o + 8) (isize q) in
  foldl (fun d k => put32 d (o + 12 + 4 * k) (lget (iaddrs q) k)) d (seq 0 13).

Definition dinode_addrs (d : list Z) (o : nat) : list Z :=
  (fun k => get32 d (o + 12 + 4 * k)%nat) <$> seq 0 13.

Definition dinode_decode (d : list Z) (o : nat) (q : inode_t) : inode_t :=
  mkInode (idev q) (inum q) (iref q) (iflags q)
    (s16 (get16 d o)) (s16 (get16 d (o + 2))) (s16 (get16 d (o + 4))) (s16 (get16 d (o + 6)))
    (get32 d (o + 8)) (dinode_addrs d o).

(** Find the inode with number inum on device dev and return the in-memory copy. *)
Definition iget (dev n : Z) : K nat :=
  acquire L_icache;;
  r ← for_fold (seq 0 (Z.to_nat NINODE)) (fun i acc =>
    match acc with
    | inr j => mret (inr j)
    | inl empty =>
        q ← get (inode_of i);
        if (0 <? iref q) && (idev q =? dev) && (inum q =? n) then
          iset i (fun q => set_iref (iref q + 1) q);;
          release L_icache;;
          mret (inr i)
        else if bool_decide (empty = None) && (iref q =? 0) then mret (inl (Some i))
        else mret (inl empty)
    end) (inl None : option nat + nat);
  match r with
  | inr i => mret i
  | inl None => panic "iget: no inodes"
  | inl (Some i) =>
      iset i (set_idev dev);;
      iset i (set_inum n);;
      iset i (set_iref 1);;
      iset i (set_iflags 0);;
      release L_icache;;
      mret i
  end.

(** Allocate a new inode with the given type on device dev. *)
Definition ialloc (dev type : Z) : K nat :=
  sb ← get k_sb;
  r ← for_each (seqZ 1 (sb_ninodes sb - 1)) (fun n =>
    bp ← bread dev (IBLOCK n sb);
    d ← bufget bp bdata;
    let o := dinode_off n in
    if get16 d o =? 0 then
      bufset bp (set_bdata (put16 (splice d o (replicate (Z.to_nat sizeof_dinode) 0)) o type));;
      log_write bp;;
      brelse bp;;
      i ← iget dev n;
      mret (Some i)
    else
      brelse bp;;
      mret None);
  match r with
  | Some i => mret i
  | None => panic "ialloc: no inodes"
  end.

(** Copy a modified in-memory inode to disk. *)
Definition iupdate (i : nat) : K unit :=
  q ← get (inode_of i);
  sb ← get k_sb;
  bp ← bread (idev q) (IBLOCK (inum q) sb);
  bufset bp (fun b => set_bdata (dinode_encode q (bdata b) (dinode_off (inum q))) b);;
  log_write bp;;
  brelse bp.

(** Increment reference count for ip. *)
Definition idup (i : nat) : K nat :=
  acquire L_icache;;
  iset i (fun q => set_iref (iref q + 1) q);;
  release L_icache;;
  mret i.

(** Lock the given inode.  Reads the inode from disk if necessary. *)
Definition ilock (ip : option nat) : K unit :=
  match ip with
  | None => panic "ilock"
  | Some i =>
      r ← iget_f i iref;
      if r <? 1 then panic "ilock" else
      acquire L_icache;;
      loop_env (fun _ : unit =>
        fl ← iget_f i iflags;
        if cbool (Z.land fl I_BUSY) then sleep (CH_inode i) (Some L_icache);; mret (inl tt)
        else mret (inr tt)) tt;;
      iset i (fun q => set_iflags (Z.lor (iflags q) I_BUSY) q);;
      release L_icache;;
      fl ← iget_f i iflags;
      if cbool (Z.land fl I_VALID) then mret tt
      else
        q ← get (inode_of i);
        sb ← get k_sb;
        bp ← bread (idev q) (IBLOCK (inum q) sb);
        d ← bufget bp bdata;
        iset i (dinode_decode d (dinode_off (inum q)));;
        brelse bp;;
        iset i (fun q => set_iflags (Z.lor (iflags q) I_VALID) q);;
        ty ← iget_f i itype;
        if ty =? 0 then panic "ilock: no type" else mret tt
  end.

(** Unlock the given inode. *)
Definition iunlock (ip : option nat) : K unit :=
  match ip with
  | None => panic "iunlock"
  | Some i =>
      q ← get (inode_of i);
      if negb (cbool (Z.land (iflags q) I_BUSY)) || (iref q <? 1) then panic "iunlock" else
      acquire L_icache;;
      iset i (fun q => set_iflags (Z.land (iflags q) (Z.lnot I_BUSY)) q);;
      wakeup (CH_inode i);;
      release L_icache
  end.

(** Truncate inode (discard contents). *)
Definition itrunc (i : nat) : K unit :=
  for_each (seq 0 (Z.to_nat NDIRECT)) (fun k =>
    a ← iget_f i (fun q => lget (iaddrs q) k);
    dev ← iget_f i idev;
    when (cbool a) (
      bfree dev a;;
      iset i (fun q => set_iaddrs (<[k := 0]> (iaddrs q)) q));;
    mret (None : option unit));;
  let ind := Z.to_nat NDIRECT in
  a ← iget_f i (fun q => lget (iaddrs q) ind);
  when (cbool a) (
    dev ← iget_f i idev;
    bp ← bread dev a;
    for_each (seq 0 (Z.to_nat NINDIRECT)) (fun j =>
      d ← bufget bp bdata;
      let x := get32 d (4 * j) in
      when (cbool x) (bfree dev x);;
      mret (None : option unit));;
    brelse bp;;
    bfree dev a;;
    iset i (fun q => set_iaddrs (<[ind := 0]> (iaddrs q)) q));;
  iset i (set_isize 0);;
  iupdate i.

(** Drop a reference to an in-memory inode. *)
Definition iput (i : nat) : K unit :=
  acquire L_icache;;
  q ← get (inode_of i);
  (if (iref q =? 1) && cbool (Z.land (iflags q) I_VALID) && (inlink q =? 0) then
     if cbool (Z.land (iflags q) I_BUSY) then panic "iput busy" else
     iset i (fun q => set_iflags (Z.lor (iflags q) I_BUSY) q);;
     release L_icache;;
     itrunc i;;
     iset i (set_itype 0);;
     iupdate i;;
     acquire L_icache;;
     iset i (set_iflags 0);;
     wakeup (CH_inode i)
   else mret tt);;
  iset i (fun q => set_iref (iref q - 1) q);;
  release L_icache.

(** Common idiom: unlock, then put. *)
Definition iunlockput (i : nat) : K unit :=
  iunlock (Some i);;
  iput i.

(** ** Inode content *)

(** Return the disk block address of the nth block in inode ip, allocating one if
    there is none. *)
Definition bmap (i : nat) (bn : Z) : K Z :=
  dev ← iget_f i idev;
  if bn <? NDIRECT then
    a ← iget_f i (fun q => lget (iaddrs q) (Z.to_nat bn));
    if a =? 0 then
      a ← balloc dev;
      iset i (fun q => set_iaddrs (<[Z.to_nat bn := a]> (iaddrs q)) q);;
      mret a
    else mret a
  else
    let bn := bn - NDIRECT in
    if bn <? NINDIRECT then
      let ind := Z.to_nat NDIRECT in
      a ← iget_f i (fun q => lget (iaddrs q) ind);
      a ← (if a =? 0 then
             a ← balloc dev;
             iset i (fun q => set_iaddrs (<[ind := a]> (iaddrs q)) q);;
             mret a
           else mret a);
      bp ← bread dev a;
      d ← bufget bp bdata;
      let x := get32 d (Z.to_nat (4 * bn)) in
      x ← (if x =? 0 then
             x ← balloc dev;
             bufset bp (fun b => set_bdata (put32 (bdata b) (Z.to_nat (4 * bn)) x) b);;
             log_write bp;;
             mret x
           else mret x);
      brelse bp;;
      mret x
    else panic "bmap: out of range".

(** stat.h: [struct stat]. *)
Record stat := mkStat { st_type : Z; st_dev : Z; st_ino : Z; st_nlink : Z; st_size : Z }.

(** Copy stat information from inode. *)
Definition stati (i : nat) : K stat :=
  get (fun s => let q := inode_of i s in
                mkStat (itype q) (idev q) (inum q) (inlink q) (isize q)).

End fs.

Section files.
Context `{Symbols} `{Driver} `{DevSw}.

(** [ip->major < 0 || ip->major >= NDEV || !devsw[ip->major].read] *)
Definition no_device (major : Z) (devs : list bool) : bool :=
  (major <? 0) || (NDEV <=? major) || negb (default false (devs !! Z.to_nat major)).

(** Read data from inode.  The bytes go to [d] and are also returned. *)
Definition readi (i : nat) (d : dest) (off n : Z) : K (Z * list Z) :=
  q ← get (inode_of i);
  if itype q =? T_DEV then
    devs ← get k_devsw;
    if no_device (imajor q) devs then mret (-1, []) else dev_read (imajor q) i d n
  else if (isize q <? off) || (u32 (off + n) <? off) then mret (-1, [])
  else
    let n := if isize q <? u32 (off + n) then isize q - off else n in
    loop (Z.to_nat (n / BSIZE + 3)) (fun '(tot, off, acc) =>
      if negb (tot <? n) then mret (inr (s32 n, acc))
      else
        a ← bmap i (off / BSIZE);
        bp ← bread (idev q) a;
        let m := Z.min (n - tot) (BSIZE - off mod BSIZE) in
        data ← bufget bp bdata;
        let bs := take (Z.to_nat m) (drop (Z.to_nat (off mod BSIZE)) data) in
        put_bytes d tot bs;;
        brelse bp;;
        mret (inl (tot + m, off + m, acc ++ bs))) (0, off, []).

(** Write data to inode. *)
Definition writei (i : nat) (src : source) (off n : Z) : K Z :=
  q ← get (inode_of i);
  if itype q =? T_DEV then
    devs ← get k_devsw;
    if no_device (imajor q) devs then mret (-1) else dev_write (imajor q) i src n
  else if (isize q <? off) || (u32 (off + n) <? off) then mret (-1)
  else if MAXFILE * BSIZE <? u32 (off + n) then mret (-1)
  else
    off ← loop (Z.to_nat (n / BSIZE + 3)) (fun '(tot, off) =>
      if negb (tot <? n) then mret (inr off)
      else
        a ← bmap i (off / BSIZE);
        bp ← bread (idev q) a;
        let m := Z.min (n - tot) (BSIZE - off mod BSIZE) in
        bs ← get_bytes src tot m;
        bufset bp (fun b => set_bdata (splice (bdata b) (Z.to_nat (off mod BSIZE)) bs) b);;
        log_write bp;;
        brelse bp;;
        mret (inl (tot + m, off + m))) (0, off);
    sz ← iget_f i isize;
    when ((0 <? n) && (sz <? off)) (
      iset i (set_isize off);;
      iupdate i);;
    mret (s32 n).

(** ** Directories *)

Definition namecmp (s t : Z -> Z) : Z := strncmp s t 0 (Z.to_nat DIRSIZ).

(** [struct dirent]: a 16-bit inode number and a name of [DIRSIZ] bytes. *)
Definition de_inum (de : list Z) : Z := get16 de 0.
Definition de_name (de : list Z) : list Z := drop 2 de.

(** Look for a directory entry in a directory.  Returns its inode and offset. *)
Definition dirlookup (dp : nat) (name : Z -> Z) : K (option (nat * Z)) :=
  ty ← iget_f dp itype;
  if negb (ty =? T_DIR) then panic "dirlookup not DIR" else
  size ← iget_f dp isize;
  loop (Z.to_nat (size / sizeof_dirent + 2)) (fun off =>
    size ← iget_f dp isize;
    if negb (off <? size) then mret (inr None)
    else
      r ← readi dp DKernel off sizeof_dirent;
      if negb (r.1 =? sizeof_dirent) then panic "dirlink read" else
      let de := r.2 in
      if de_inum de =? 0 then mret (inl (off + sizeof_dirent))
      else if namecmp name (lstr (de_name de)) =? 0 then
        dev ← iget_f dp idev;
        ip ← iget dev (de_inum de);
        mret (inr (Some (ip, off)))
      else mret (inl (off + sizeof_dirent))) 0.

(** Write a new directory entry (name, inum) into the directory dp. *)
Definition dirlink (dp : nat) (name : Z -> Z) (n : Z) : K Z :=
  r ← dirlookup dp name;
  match r with
  | Some (ip, _) => iput ip;; mret (-1)
  | None =>
      size ← iget_f dp isize;
      r ← loop (Z.to_nat (size / sizeof_dirent + 2)) (fun '(off, de) =>
        size ← iget_f dp isize;
        if negb (off <? size) then mret (inr (off, de))
        else
          r ← readi dp DKernel off sizeof_dirent;
          if negb (r.1 =? sizeof_dirent) then panic "dirlink read" else
          if de_inum r.2 =? 0 then mret (inr (off, r.2))
          else mret (inl (off + sizeof_dirent, r.2))) (0, replicate (Z.to_nat sizeof_dirent) 0);
      let '(off, de) := r in
      let de := put16 (take 2 de ++ strncpy (de_name de) name DIRSIZ) 0 n in
      w ← writei dp (SKernel de) off sizeof_dirent;
      if negb (w =? sizeof_dirent) then panic "dirlink" else mret 0
  end.

(** ** Paths *)

(** [while( *path == '/') path++]. *)
Fixpoint skip_slashes (path : list Z) : list Z :=
  match path with
  | c :: path' => if c =? chr "/" then skip_slashes path' else path
  | [] => []
  end.

(** Split at the next slash. *)
Fixpoint until_slash (path : list Z) : list Z * list Z :=
  match path with
  | c :: path' =>
      if c =? chr "/" then ([], path)
      else let '(s, rest) := until_slash path' in (c :: s, rest)
  | [] => ([], [])
  end.

(** Copy the next path element from path into name; [path] is the string without
    its NUL. *)
Definition skipelem (path name : list Z) : option (list Z * list Z) :=
  match skip_slashes path with
  | [] => None
  | path =>
      let '(s, rest) := until_slash path in
      let name :=
        if DIRSIZ <=? Z.of_nat (length s) then splice name 0 (take (Z.to_nat DIRSIZ) s)
        else splice name 0 (s ++ [0]) in
      Some (skip_slashes rest, name)
  end.

(** Look up and return the inode for a path name; with [nameiparent], the inode of
    the parent and the final path element.  Every round consumes an element of the
    path. *)
Definition namex (path : list Z) (nameiparent : bool) (name : list Z) : K (option nat * list Z) :=
  ip ← (match path with
        | c :: _ => if c =? chr "/" then iget ROOTDEV ROOTINO
                    else p ← myproc; d ← pget p cwd; match d with Some d => idup d | None => hang end
        | [] => p ← myproc; d ← pget p cwd; match d with Some d => idup d | None => hang end
        end);
  loop (S (length path)) (fun '(ip, path, name) =>
    match skipelem path name with
    | None =>
        if nameiparent then iput ip;; mret (inr (None, name))
        else mret (inr (Some ip, name))
    | Some (path, name) =>
        ilock (Some ip);;
        ty ← iget_f ip itype;
        if negb (ty =? T_DIR) then iunlockput ip;; mret (inr (None, name))
        else if nameiparent && bool_decide (path = []) then
          iunlock (Some ip);; mret (inr (Some ip, name))
        else
          next ← dirlookup ip (lstr name);
          match next with
          | None => iunlockput ip;; mret (inr (None, name))
          | Some (next, _) => iunlockput ip;; mret (inl (next, path, name))
          end
    end) (ip, path, name).

Definition namei (path : list Z) : K (option nat) :=
  r ← namex path false (replicate (Z.to_nat DIRSIZ) 0);
  mret r.1.

Definition nameiparent (path name : list Z) : K (option nat * list Z) := namex path true name.

(** log.c: [initlog] needs the super block. *)
Definition initlog (dev : Z) : K unit :=
  if BSIZE <=? 4 + 4 * LOGSIZE then panic "initlog: too big logheader" else
  initlock L_log "log";;
  sb ← readsb dev;
  modify (on_log (set_lstart (sb_logstart sb)));;
  modify (on_log (set_lsize (sb_nlog sb)));;
  modify (on_log (set_ldev dev));;
  recover_from_log.

End files.
