(* ===== verification/FsSpec.v ===== *)
(** What the functions of fs.c promise: inodes on disk, bitmaps, the contents of files, and
    path names. *)

From S2P Require Import Prelude Params Mem State Spinlock Console Kalloc Vm VmTables VmSpace VmAlloc.
From S2P Require Import VmCopy Proc ProcSpec Ide Bio BioRing BioSpec BioProps Log LogSpec LogOps LogCrash.
From S2P Require Import Umem Fs.

(** * Inodes on disk *)

Lemma length_put16 d o v : length (put16 d o v) = length d.
Proof. unfold put16. by rewrite !length_insert. Qed.

Lemma get16_put16 d o v : (o + 1 < length d)%nat -> get16 (put16 d o v) o = u16 v.
Proof.
  intros Hl. unfold get16, put16.
  rewrite lget_insert_eq by (rewrite !length_insert; lia).
  rewrite (lget_insert_ne _ o), lget_insert_eq by (rewrite ?length_insert; lia).
  unfold u8, u16. Z.div_mod_to_equations. lia.
Qed.

Lemma get16_put16_ne d o o' v : (o + 1 < o')%nat \/ (o' + 1 < o)%nat -> get16 (put16 d o v) o' = get16 d o'.
Proof. intros Ho. unfold get16, put16. by rewrite !lget_insert_ne by lia. Qed.

Lemma get16_put32_ne d o o' v : (o + 3 < o')%nat \/ (o' + 1 < o)%nat -> get16 (put32 d o v) o' = get16 d o'.
Proof. intros Ho. unfold get16, put32. by rewrite !lget_insert_ne by lia. Qed.

Lemma get32_put16_ne d o o' v : (o + 1 < o')%nat \/ (o' + 3 < o)%nat -> get32 (put16 d o v) o' = get32 d o'.
Proof. intros Ho. unfold get32, put16. by rewrite !lget_insert_ne by lia. Qed.

Lemma s16_u16 x : s16 (u16 x) = s16 x.
Proof. unfold s16, u16. Z.div_mod_to_equations. lia. Qed.

(** The words of [l] stored from offset [o] on. *)
Definition put_words (d : list Z) (o : nat) (l : nat -> Z) (ks : list nat) : list Z :=
  foldl (fun d k => put32 d (o + 4 * k) (l k)) d ks.

Lemma length_put_words d o l ks : length (put_words d o l ks) = length d.
Proof.
  unfold put_words. revert d. induction ks as [|k ks IH]; intros d; [done|]. simpl. rewrite IH. apply length_put32.
Qed.

Lemma put_words_outside d o l k m (P : list Z -> Prop) :
  P d -> (forall d k', (k <= k' < k + m)%nat -> P d -> P (put32 d (o + 4 * k') (l k'))) ->
  P (put_words d o l (seq k m)).
Proof.
  unfold put_words. revert d k. induction m as [|m IH]; intros d k Hd Hs; [done|]. simpl. apply IH.
  - apply Hs; [lia|done].
  - intros d' k' Hk. apply Hs. lia.
Qed.

Lemma put_words_at d o l k m i :
  (k <= i < k + m)%nat -> (o + 4 * (k + m) <= length d)%nat ->
  get32 (put_words d o l (seq k m)) (o + 4 * i) = u32 (l i).
Proof.
  revert d k. induction m as [|m IH]; intros d k Hi Hl; [lia|]. change (put_words d o l (seq k (S m))) with
    (put_words (put32 d (o + 4 * k) (l k)) o l (seq (S k) m)).
  destruct (decide (i = k)) as [->|].
  - apply (put_words_outside _ o l (S k) m (fun d' => get32 d' (o + 4 * k) = u32 (l k))).
    + apply get32_put32. lia.
    + intros d' k' Hk' E. rewrite get32_put32_ne by lia. done.
  - apply IH; [lia|]. rewrite length_put32. lia.
Qed.

(** An inode in memory whose fields fit the ones on disk. *)
Record inode_ok (q : inode_t) : Prop := {
  io_type : s16 (itype q) = itype q;
  io_major : s16 (imajor q) = imajor q;
  io_minor : s16 (iminor q) = iminor q;
  io_nlink : s16 (inlink q) = inlink q;
  io_size : u32 (isize q) = isize q;
  io_addrs : length (iaddrs q) = 13%nat /\ Forall (fun a => u32 a = a) (iaddrs q)
}.

Lemma encode_shape q d o :
  dinode_encode q d o = put_words (put32 (put16 (put16 (put16 (put16 d o (itype q)) (o + 2) (imajor q)) (o + 4) (iminor q))
    (o + 6) (inlink q)) (o + 8) (isize q)) (o + 12) (fun k => lget (iaddrs q) k) (seq 0 13).
Proof. done. Qed.

Lemma length_encode q d o : length (dinode_encode q d o) = length d.
Proof. by rewrite encode_shape, length_put_words, length_put32, !length_put16. Qed.

Lemma encode_get16 q d o o' :
  (o' + 1 < o + 8)%nat \/ (o + 64 <= o')%nat ->
  get16 (dinode_encode q d o) o' =
  get16 (put16 (put16 (put16 (put16 d o (itype q)) (o + 2) (imajor q)) (o + 4) (iminor q)) (o + 6) (inlink q)) o'.
Proof.
  intros Ho. rewrite encode_shape. apply (put_words_outside _ (o + 12) _ 0 13 (fun d' => get16 d' o' = _)).
  - apply get16_put32_ne. lia.
  - intros d' k' Hk E. rewrite <- E. apply get16_put32_ne. lia.
Qed.

Lemma encode_get32 q d o o' :
  (o' + 3 < o)%nat \/ (o + 64 <= o')%nat -> get32 (dinode_encode q d o) o' = get32 d o'.
Proof.
  intros Ho. rewrite encode_shape. apply (put_words_outside _ (o + 12) _ 0 13 (fun d' => get32 d' o' = _)).
  - rewrite get32_put32_ne, !get32_put16_ne by lia. done.
  - intros d' k' Hk E. rewrite <- E. apply get32_put32_ne. lia.
Qed.

Lemma encode_size q d o : (o + 64 <= length d)%nat -> get32 (dinode_encode q d o) (o + 8) = u32 (isize q).
Proof.
  intros Hl. rewrite encode_shape. apply (put_words_outside _ (o + 12) _ 0 13 (fun d' => get32 d' (o + 8) = _)).
  - apply get32_put32. rewrite !length_put16. lia.
  - intros d' k' Hk E. rewrite <- E. apply get32_put32_ne. lia.
Qed.

Lemma encode_addrs q d o :
  inode_ok q -> (o + 64 <= length d)%nat -> dinode_addrs (dinode_encode q d o) o = iaddrs q.
Proof.
  intros Hok Hl. destruct (io_addrs _ Hok) as [Hlen Hall]. apply list_eq. intros i.
  unfold dinode_addrs. rewrite list_lookup_fmap. destruct (decide (i < 13)%nat) as [Hi|Hi].
  - rewrite lookup_seq_lt by done. destruct (lookup_lt_is_Some_2 (iaddrs q) i) as [a Ha]; [lia|].
    rewrite Ha. transitivity (Some (get32 (dinode_encode q d o) (o + 12 + 4 * i))); [done|]. f_equal. rewrite encode_shape, put_words_at; [|lia|rewrite length_put32, !length_put16; lia].
    unfold lget. rewrite (nth_lookup_Some _ _ _ _ Ha). by eapply Forall_lookup_1 in Hall.
  - rewrite lookup_seq_ge by lia. simpl. symmetry. apply lookup_ge_None. lia.
Qed.

(** Decoding what has been encoded, and what encoding leaves alone. *)
Lemma dinode_codec q q0 d o :
  inode_ok q -> (o + Z.to_nat sizeof_dinode <= length d)%nat ->
  dinode_decode (dinode_encode q d o) o q0 =
    mkInode (idev q0) (inum q0) (iref q0) (iflags q0) (itype q) (imajor q) (iminor q) (inlink q) (isize q) (iaddrs q) /\
  forall o', (o' + Z.to_nat sizeof_dinode <= o)%nat \/ (o + Z.to_nat sizeof_dinode <= o')%nat ->
    dinode_decode (dinode_encode q d o) o' q0 = dinode_decode d o' q0.
Proof.
  intros Hok Hl. change (Z.to_nat sizeof_dinode) with 64%nat in *. split.
  - unfold dinode_decode. rewrite encode_size, encode_addrs, !encode_get16 by (done || lia).
    rewrite (get16_put16 _ (o + 6)), !(get16_put16_ne _ (o + 6)) by (rewrite ?length_put16; lia).
    rewrite (get16_put16 _ (o + 4)), !(get16_put16_ne _ (o + 4)) by (rewrite ?length_put16; lia).
    rewrite (get16_put16 _ (o + 2)), !(get16_put16_ne _ (o + 2)) by (rewrite ?length_put16; lia).
    rewrite get16_put16 by lia. rewrite !s16_u16. destruct Hok. congruence.
  - intros o' Ho. unfold dinode_decode, dinode_addrs.
    rewrite !encode_get16, encode_get32 by lia. rewrite !get16_put16_ne by lia. f_equal.
    apply list_fmap_ext. intros i k [-> Hk]%lookup_seq. apply encode_get32. lia.
Qed.

(** Inodes survive the disk.  Decoding the bytes that [iupdate] encodes gives back all
    fields of the inode, and encoding an inode changes no other inode of the block, so an inode that
    is written and read again, with others written in between, is the same. *)
Theorem dinode_roundtrip q q0 d o :
  inode_ok q -> (o + Z.to_nat sizeof_dinode <= length d)%nat ->
  dinode_decode (dinode_encode q d o) o q0 =
    mkInode (idev q0) (inum q0) (iref q0) (iflags q0) (itype q) (imajor q) (iminor q) (inlink q) (isize q) (iaddrs q) /\
  forall o', (o' + Z.to_nat sizeof_dinode <= o)%nat \/ (o + Z.to_nat sizeof_dinode <= o')%nat ->
    dinode_decode (dinode_encode q d o) o' q0 = dinode_decode d o' q0.
Proof. apply dinode_codec. Qed.

(** * The contents of files *)

(** The block of the disk that has block [k] of a file. *)
Definition file_block (q : inode_t) (cur : Z * Z -> list Z) (k : Z) : Z :=
  if k <? NDIRECT then lget (iaddrs q) (Z.to_nat k)
  else get32 (cur (idev q, lget (iaddrs q) (Z.to_nat NDIRECT))) (Z.to_nat (4 * (k - NDIRECT))).

(** The bytes of a file. *)
Definition file_byte (q : inode_t) (cur : Z * Z -> list Z) (p : Z) : Z :=
  lget (cur (idev q, file_block q cur (p / BSIZE))) (Z.to_nat (p mod BSIZE)).
Definition file_bytes (q : inode_t) (cur : Z * Z -> list Z) (off n : Z) : list Z :=
  file_byte q cur <$> seqZ off n.

Lemma file_bytes_app q cur off a b :
  0 <= a -> 0 <= b -> file_bytes q cur off (a + b) = file_bytes q cur off a ++ file_bytes q cur (off + a) b.
Proof. intros Ha Hb. unfold file_bytes. by rewrite seqZ_app, fmap_app. Qed.

(** A stretch of one block. *)
Lemma file_bytes_block q cur off m :
  0 <= off -> 0 <= m <= BSIZE - off mod BSIZE ->
  length (cur (idev q, file_block q cur (off / BSIZE))) = Z.to_nat BSIZE ->
  take (Z.to_nat m) (drop (Z.to_nat (off mod BSIZE)) (cur (idev q, file_block q cur (off / BSIZE)))) =
  file_bytes q cur off m.
Proof.
  intros Ho Hm Hlen. apply list_eq. intros i. unfold file_bytes. rewrite list_lookup_fmap.
  destruct (decide (Z.of_nat i < m)) as [Hi|Hi].
  - rewrite lookup_take_lt, lookup_drop, lookup_seqZ_lt by lia. simpl. unfold file_byte.
    assert ((off + Z.of_nat i) / BSIZE = off / BSIZE /\ (off + Z.of_nat i) mod BSIZE = off mod BSIZE + Z.of_nat i)
      as [-> ->] by (Z.div_mod_to_equations; lia).
    pose proof (Z.mod_pos_bound off BSIZE ltac:(lia)).
    destruct (lookup_lt_is_Some_2 (cur (idev q, file_block q cur (off / BSIZE))) (Z.to_nat (off mod BSIZE) + i)) as [x Hx]; [lia|].
    rewrite Hx. unfold lget. rewrite nth_lookup. replace (Z.to_nat (off mod BSIZE + Z.of_nat i)) with
      (Z.to_nat (off mod BSIZE) + i)%nat by lia. by rewrite Hx.
  - rewrite lookup_seqZ_ge by lia. apply lookup_ge_None. rewrite length_take, length_drop. lia.
Qed.

Section files.
Context `{Symbols} `{Driver} {Hdrv : SyncDriver} `{DevSw}.

(** Block [bn] of the device of [q] can be read while [held] are held. *)
Definition readable_block (s : kernel) (held : list nat) (dev bn : Z) : Prop :=
  bn <> 0 /\ serves dev bn /\ forall c, c ∈ held -> key (buf_of c s) <> (dev, bn).

(** A file whose blocks below its size are all allocated. *)
Record file_ok (s : kernel) (held : list nat) (cur : Z * Z -> list Z) (q : inode_t) : Prop := {
  fo_dev : idev q <> nodev;
  fo_size : 0 <= isize q <= MAXFILE * BSIZE;
  fo_blocks : forall k, 0 <= k -> k * BSIZE < isize q ->
    readable_block s held (idev q) (file_block q cur k) /\
    length (cur (idev q, file_block q cur k)) = Z.to_nat BSIZE;
  fo_indirect : NDIRECT * BSIZE < isize q ->
    readable_block s held (idev q) (lget (iaddrs q) (Z.to_nat NDIRECT))
}.

Lemma bio_only_inode i s s' : bio_only s s' -> inode_of i s' = inode_of i s.
Proof. by intros (bc & d & pt & -> & _). Qed.

(** Releasing a buffer that was only read. *)
Lemma clean_release s held cur dirt s' dev bn b :
  cache s held cur dirt -> dev <> nodev -> (forall c, c ∈ held -> key (buf_of c s) <> (dev, bn)) ->
  k_disk s' = k_disk s -> key (buf_of b s') = (dev, bn) ->
  key (buf_of b s') ∈ dirt \/
  cur (key (buf_of b s')) = disk_read (bdev (buf_of b s')) (blockno (buf_of b s')) (k_disk s').
Proof.
  intros Hc Hdev Hh Hd Hk. destruct (key_eq _ _ _ Hk) as [-> ->]. rewrite Hk, Hd.
  destruct (decide ((dev, bn) ∈ dirt)); [by left|right]. by apply (ca_clean _ _ _ _ Hc (dev, bn)).
Qed.

(** [bmap] of an allocated block finds it. *)
Lemma wp_bmap s held cur dirt i k e (Q : Z -> env kernel -> kernel -> Prop) :
  cache s held cur dirt -> (size dirt + length held < head)%nat ->
  file_ok s held cur (inode_of i s) -> 0 <= k -> k * BSIZE < isize (inode_of i s) ->
  (forall s', cache s' held cur dirt -> (forall c, c ∈ held -> key (buf_of c s') = key (buf_of c s)) ->
     k_disk s' = k_disk s -> bio_only s s' -> Q (file_block (inode_of i s) cur k) e s') ->
  wp (bmap i k) Q e s.
Proof.
  intros Hc Hroom Hf Hk0 Hk HQ. set (q := inode_of i s) in *.
  destruct (fo_blocks _ _ _ _ Hf k Hk0 Hk) as [(Hnz & Hsv & Hh) _].
  pose proof (fo_size _ _ _ _ Hf) as Hsz. pose proof (fo_dev _ _ _ _ Hf) as Hdev.
  unfold bmap, iget_f. apply wp_bind, wp_get. fold q. unfold file_block in *.
  destruct (k <? NDIRECT) eqn:Ek.
  - apply wp_bind, wp_get. fold q. rewrite (proj2 (Z.eqb_neq _ _) Hnz). apply wp_ret.
    apply HQ; [done|done|done|apply bio_only_refl].
  - destruct (fo_indirect _ _ _ _ Hf ltac:(lia)) as (Hinz & Hisv & Hih).
    assert ((k - NDIRECT <? NINDIRECT) = true) as -> by (unfold MAXFILE in Hsz; lia).
    apply wp_bind, wp_get. fold q. set (ind := lget (iaddrs q) (Z.to_nat NDIRECT)) in *.
    rewrite (proj2 (Z.eqb_neq _ _) Hinz). apply wp_bind, wp_ret. unfold bufget.
    apply wp_bind. eapply (wp_bread s held cur dirt); [done..|by right|].
    intros b s1 Hb Hc1 Hk1 Hsame Hd1 Ho1. apply wp_bind, wp_get.
    rewrite (held_data _ _ _ _ b Hc1), Hk1 by (by left). rewrite (proj2 (Z.eqb_neq _ _) Hnz).
    apply wp_bind, wp_ret, wp_bind.
    eapply (wp_brelse s1 (b :: held) held cur dirt b); [done|done|by apply (clean_release s held cur dirt s1 (idev q) ind)|].
    intros s2 Hc2 Hk2 Hd2 Ho2. apply wp_ret, HQ; [done| |congruence|eauto with frame].
    intros c Hin. by rewrite Hk2, Hsame.
Qed.

(** A file stays one while buffers change. *)
Lemma file_ok_same s s' held cur q :
  (forall c, c ∈ held -> key (buf_of c s') = key (buf_of c s)) -> file_ok s held cur q -> file_ok s' held cur q.
Proof.
  intros E [Hd Hs Hb Hi].
  assert (Hr : forall dev bn, readable_block s held dev bn -> readable_block s' held dev bn).
  { intros dev bn (Hz & Hsv & Hn). split_and!; [done|done|]. intros c Hc. rewrite E by done. by apply Hn. }
  split; [done|done| |].
  - intros k Hk Hks. destruct (Hb k Hk Hks) as [? ?]. split; [by apply Hr|done].
  - intros Hn. by apply Hr, Hi.
Qed.

(** The rounds that [readi] and [writei] have to do from [off] to [en]. *)
Definition rounds (off en : Z) : nat :=
  if off <? en then Z.to_nat ((en - 1) / BSIZE - off / BSIZE + 1) else 0.

Lemma rounds_fuel off n : 0 <= off -> 0 <= n -> (rounds off (off + n) < Z.to_nat (n / BSIZE + 3))%nat.
Proof. intros Ho Hn. unfold rounds. destruct (_ <? _); mlia. Qed.

Lemma rounds_next off en :
  0 <= off < en -> (rounds (off + Z.min (en - off) (BSIZE - off mod BSIZE)) en < rounds off en)%nat.
Proof.
  intros Ho. set (m := Z.min _ _). assert (Hm : m = en - off \/ m = BSIZE - off mod BSIZE) by lia.
  assert (Hm' : 0 < m) by (unfold m; mlia). unfold rounds. destruct (off <? en) eqn:E; [|lia].
  destruct (off + m <? en) eqn:E2; [|mlia]. clearbody m. assert (m = BSIZE - off mod BSIZE) as -> by lia. mlia.
Qed.

(** [readi] reads the file. *)
Lemma readi_ok s held cur dirt i off n e :
  cache s held cur dirt -> (size dirt + length held < head)%nat ->
  itype (inode_of i s) <> T_DEV -> file_ok s held cur (inode_of i s) ->
  0 <= off <= isize (inode_of i s) -> 0 <= n < 2147483648 ->
  let m := Z.min n (isize (inode_of i s) - off) in
  exists s', readi i DKernel off n e s = Done (m, file_bytes (inode_of i s) cur off m) e s' /\
    cache s' held cur dirt /\ bio_only s s' /\ k_disk s' = k_disk s.
Proof.
  intros Hc Hroom Hty Hf Hoff Hn m. set (q := inode_of i s) in *. pose proof (fo_size _ _ _ _ Hf) as Hsz.
  assert (Hmax : MAXFILE * BSIZE = 71680) by done.
  assert (Hw : wp (readi i DKernel off n) (fun r e' s' => r = (m, file_bytes q cur off m) /\ e' = e /\
    cache s' held cur dirt /\ bio_only s s' /\ k_disk s' = k_disk s) e s).
  2: { apply wp_elim in Hw as (r & e' & s' & Hrun & -> & -> & HQ). by exists s'. }
  unfold readi. apply wp_bind, wp_get. fold q. rewrite (proj2 (Z.eqb_neq _ _) Hty).
  rewrite !(u32_small (off + n)) by lia.
  destruct (_ || _) eqn:E; [lia|]. clear E.
  assert ((if isize q <? off + n then isize q - off else n) = m) as -> by (unfold m; zif; lia).
  assert (Hm : 0 <= m <= isize q - off) by lia. clearbody m.
  apply (wp_loop (fun '(tot, off', acc) e' s' => e' = e /\ 0 <= tot <= m /\ off' = off + tot /\
      acc = file_bytes q cur off tot /\ cache s' held cur dirt /\
      (forall c, c ∈ held -> key (buf_of c s') = key (buf_of c s)) /\ bio_only s s' /\ k_disk s' = k_disk s)
    (fun '(_, off', _) => rounds off' (off + m))).
  { apply rounds_fuel; lia. }
  { split_and!; try done; [lia..|apply bio_only_refl]. }
  intros [[tot off'] acc] e' s1 (-> & Htot & -> & -> & Hc1 & Hk1 & Ho1 & Hd1). pose proof (bio_only_inode i _ _ Ho1) as Hq1. fold q in Hq1.
  destruct (tot <? m) eqn:Et; simpl.
  2: { apply wp_ret. assert (tot = m) as -> by lia. split_and!; try done. f_equal. apply s32_small. lia. }
  set (off' := off + tot). pose proof (Z.mod_pos_bound off' BSIZE ltac:(lia)) as Hmod.
  assert (Hblk : 0 <= off' / BSIZE /\ off' / BSIZE * BSIZE < isize q) by (unfold off'; mlia).
  destruct (fo_blocks _ _ _ _ Hf (off' / BSIZE)) as [(Hnz & Hsv & Hh) Hlen]; [apply Hblk..|].
  apply wp_bind. eapply (wp_bmap s1 held cur dirt); [done|done|rewrite Hq1; by eapply file_ok_same|apply Hblk|rewrite Hq1; apply Hblk|].
  rewrite Hq1. intros s2 Hc2 Hk2 Hd2 Ho2. set (bn := file_block q cur (off' / BSIZE)) in *.
  assert (Hh2 : forall c, c ∈ held -> key (buf_of c s2) <> (idev q, bn)).
  { intros c Hin. rewrite Hk2, Hk1 by done. by apply Hh. }
  apply wp_bind. eapply (wp_bread s2 held cur dirt); [done|apply Hf|done|done|by right|].
  intros b s3 Hb Hc3 Hk3 Hsame Hd3 Ho3. unfold bufget. apply wp_bind, wp_get.
  rewrite (held_data _ _ _ _ b Hc3), Hk3 by (by left). apply wp_bind, wp_ret.
  apply wp_bind. eapply (wp_brelse s3 (b :: held) held cur dirt b);
    [done|done|apply (clean_release s2 held cur dirt s3 (idev q) bn); [done|apply Hf|done|done|done]|].
  intros s4 Hc4 Hk4 Hd4 Ho4. apply wp_ret. set (k := Z.min (m - tot) (BSIZE - off' mod BSIZE)).
  assert (Hkb : 0 <= k <= BSIZE - off' mod BSIZE) by (unfold k; lia).
  split.
  - split_and!; try done; [lia|lia|unfold off'; lia| | | |congruence].
    + rewrite file_bytes_app by lia. f_equal. apply (file_bytes_block q cur off' k); [lia|exact Hkb|done].
    + intros c Hin. by rewrite Hk4, Hsame, Hk2, Hk1.
    + eauto 6 with frame.
  - unfold k. replace (m - tot) with (off + m - off') by lia. apply rounds_next. lia.
Qed.

(** C14: [readi] reads the file.  For a file whose blocks are allocated and an offset within it, a
    read of [n] bytes into kernel memory returns how many there are up to the end of the file, at most [n], and
    exactly these bytes of the file, through the direct blocks and the indirect one; the
    cache and the disk have the same contents afterwards. *)
Theorem readi_spec s held cur dirt i off n e :
  cache s held cur dirt -> (size dirt + length held < head)%nat ->
  itype (inode_of i s) <> T_DEV -> file_ok s held cur (inode_of i s) ->
  0 <= off <= isize (inode_of i s) -> 0 <= n < 2147483648 ->
  let m := Z.min n (isize (inode_of i s) - off) in
  exists s', readi i DKernel off n e s = Done (m, file_bytes (inode_of i s) cur off m) e s' /\
    cache s' held cur dirt /\ inode_of i s' = inode_of i s /\ k_disk s' = k_disk s.
Proof.
  intros Hc Hroom Hty Hf Hoff Hn m. destruct (readi_ok s held cur dirt i off n e) as (s' & Hrun & Hc' & Ho & Hd); [done..|].
  exists s'. split_and!; [done|done|by apply bio_only_inode|done].
Qed.

End files.

(** * Path names *)

(** The pieces of a path between slashes, and the elements of a path: the ones that are not empty. *)
Fixpoint pieces (path : list Z) : list (list Z) :=
  match path with
  | [] => [[]]
  | c :: path' =>
      if c =? chr "/" then [] :: pieces path'
      else match pieces path' with
           | w :: ws => (c :: w) :: ws
           | [] => [[c]]
           end
  end.

Definition elems (path : list Z) : list (list Z) := filter (fun w => w <> []) (pieces path).

Definition no_slash (w : list Z) : Prop := Forall (fun c => c <> chr "/") w.

Lemma pieces_app w path : no_slash w -> pieces (w ++ chr "/" :: path) = w :: pieces path.
Proof.
  induction 1 as [|c w Hc _ IH]; simpl; [done|]. by rewrite (proj2 (Z.eqb_neq _ _) Hc), IH.
Qed.

Lemma pieces_last w : no_slash w -> pieces w = [w].
Proof. induction 1 as [|c w Hc _ IH]; simpl; [done|]. by rewrite (proj2 (Z.eqb_neq _ _) Hc), IH. Qed.

Lemma skip_slashes_spec path :
  elems (skip_slashes path) = elems path /\ (length (skip_slashes path) <= length path)%nat /\
  (forall c p, skip_slashes path = c :: p -> c <> chr "/").
Proof.
  induction path as [|c path (IH1 & IH2 & IH3)]; [done|]. cbn [skip_slashes].
  destruct (c =? chr "/") eqn:E.
  - split; [|split; [simpl; lia|done]]. rewrite IH1. unfold elems. cbn [pieces]. rewrite E.
    by rewrite filter_cons_False by auto.
  - split_and!; [done|lia|]. intros c' p' [= -> ->]. lia.
Qed.

Lemma until_slash_spec path :
  let '(w, rest) := until_slash path in
  path = w ++ rest /\ no_slash w /\ (rest = [] \/ exists p, rest = chr "/" :: p).
Proof.
  induction path as [|c path IH]; [by split_and!; [|constructor|left]|]. cbn [until_slash].
  destruct (c =? chr "/") eqn:E.
  - apply Z.eqb_eq in E as ->. split_and!; [done|constructor|]. right. by exists path.
  - destruct (until_slash path) as [w rest]. destruct IH as (-> & Hw & Hr).
    split_and!; [done| |done]. constructor; [lia|done].
Qed.

Lemma elems_step w rest :
  no_slash w -> w <> [] -> (rest = [] \/ exists p, rest = chr "/" :: p) ->
  elems (w ++ rest) = w :: elems rest.
Proof.
  intros Hw Hne [->|[p ->]]; unfold elems.
  - rewrite app_nil_r, pieces_last, filter_cons_True by done. done.
  - rewrite pieces_app, filter_cons_True by done. cbn [pieces]. rewrite Z.eqb_refl.
    by rewrite (filter_cons_False _ []) by auto.
Qed.

(** A name of at most [DIRSIZ] bytes in its array: terminated unless it fills the array. *)
Definition named (name w : list Z) : Prop :=
  length name = Z.to_nat DIRSIZ /\
  let n := Nat.min (length w) (Z.to_nat DIRSIZ) in
  take n name = take n w /\ ((n < Z.to_nat DIRSIZ)%nat -> name !! n = Some 0).

Lemma splice_front d bs :
  (length bs <= length d)%nat -> length (splice d 0 bs) = length d /\ take (length bs) (splice d 0 bs) = bs.
Proof.
  intros Hl. unfold splice. simpl. split.
  - rewrite length_app, length_drop. lia.
  - by rewrite take_app_length.
Qed.

(** [skipelem] takes the first element off a path. *)
Lemma skipelem_ok path name :
  length name = Z.to_nat DIRSIZ ->
  match elems path with
  | [] => skipelem path name = None
  | w :: ws => exists rest name', skipelem path name = Some (rest, name') /\
      named name' w /\ elems rest = ws /\ (rest = [] <-> ws = []) /\ (length rest < length path)%nat
  end.
Proof.
  intros Hlen. destruct (skip_slashes_spec path) as (He & Hl & Hc). unfold skipelem. rewrite <- He.
  destruct (skip_slashes path) as [|c p] eqn:Ep; [done|]. specialize (Hc c p eq_refl).
  pose proof (until_slash_spec (c :: p)) as Hu. destruct (until_slash (c :: p)) as [w rest] eqn:Eu.
  destruct Hu as (Ecp & Hw & Hr).
  assert (Hne : w <> []).
  { intros ->. simpl in Ecp. destruct Hr as [->|[p' ->]]; [done|]. congruence. }
  rewrite Ecp, elems_step by done. destruct (skip_slashes_spec rest) as (He' & Hl' & Hc').
  eexists _, _. split; [reflexivity|]. split_and!.
  - unfold named. destruct (DIRSIZ <=? _) eqn:E.
    + assert (Hn : length (take (Z.to_nat DIRSIZ) w) = Z.to_nat DIRSIZ) by (rewrite length_take; lia).
      destruct (splice_front name (take (Z.to_nat DIRSIZ) w)) as [Hl1 Ht1]; [lia|].
      rewrite Hn in Ht1. rewrite Nat.min_r by lia. split_and!; [lia|done|lia].
    + destruct (splice_front name (w ++ [0])) as [Hl1 Ht1]; [rewrite length_app; simpl; lia|].
      rewrite Nat.min_l by lia. split_and!; [lia| |].
      * rewrite length_app in Ht1. apply (f_equal (take (length w))) in Ht1.
        rewrite take_take, Nat.min_l in Ht1 by lia. by rewrite Ht1, take_app_length, firstn_all.
      * intros _. rewrite <- (lookup_take_lt _ (length (w ++ [0]))) by (rewrite length_app; simpl; lia).
        rewrite Ht1. by apply list_lookup_middle.
  - done.
  - rewrite <- He'. destruct (skip_slashes rest) as [|c' p'] eqn:Er; [done|]. split; [done|].
    specialize (Hc' c' p' eq_refl). pose proof (until_slash_spec (c' :: p')) as Hu'.
    destruct (until_slash (c' :: p')) as [w' r'] eqn:Eu'. destruct Hu' as (Ecp' & Hw' & Hr').
    rewrite Ecp', elems_step; [done|done| |done]. intros ->. simpl in Ecp'.
    destruct Hr' as [->|[p2 ->]]; [done|congruence].
  - assert (length w <> 0%nat) by (by destruct w). apply (f_equal length) in Ecp. rewrite length_app in Ecp.
    lia.
Qed.

(** [skipelem] splits a path into its elements.  Repeated or trailing slashes do not
    matter: it fails when the path has no element left; otherwise the name is the first element,
    cut to [DIRSIZ] bytes, the rest of the path has exactly the remaining elements, it is empty when
    there are none, and it is shorter, so walking a path ends. *)
Lemma skipelem_spec path name :
  length name = Z.to_nat DIRSIZ ->
  match elems path with
  | [] => skipelem path name = None
  | w :: ws => exists rest name', skipelem path name = Some (rest, name') /\
      named name' w /\ elems rest = ws /\ (rest = [] <-> ws = []) /\ (length rest < length path)%nat
  end.
Proof. apply skipelem_ok. Qed.

(** * Witnesses *)

#[local] Existing Instance built_symbols.
#[local] Existing Instance bw_driver | 0.
#[local] Existing Instance bw_sync | 0.

(** No device files. *)
#[local] Instance fw_devsw : DevSw := {|
  dev_read := fun _ _ _ _ => mret (-1, []);
  dev_write := fun _ _ _ _ => mret (-1)
|}.

(** A file of 600 bytes in blocks 60 and 61. *)
Definition fw_inode : inode_t := mkInode 1 5 1 2 T_FILE 0 0 1 600 ([60; 61] ++ replicate 11 0).
Definition fw_disk : disk_t :=
  mkDisk {[(1, 60) := replicate (Z.to_nat BSIZE) 7]} [].
Definition fw_boot : kernel := set_k_icache [fw_inode] (set_k_disk fw_disk (lw_boot 1)).
Definition fw_state : kernel := after_binit fw_boot.

Lemma dinode_roundtrip_witness :
  dinode_decode (dinode_encode fw_inode zero_block 64) 64 zero_inode =
  mkInode 0 0 0 0 T_FILE 0 0 1 600 ([60; 61] ++ replicate 11 0).
Proof.
  assert (Hok : inode_ok fw_inode).
  { split; try reflexivity. split; [reflexivity|]. by repeat constructor. }
  exact (proj1 (dinode_roundtrip fw_inode zero_inode zero_block 64 Hok ltac:(apply Nat.leb_le; reflexivity))).
Defined.

Lemma skipelem_spec_witness :
  exists rest name', skipelem (str "//usr//bin/") (replicate 14 0) = Some (rest, name') /\ elems rest = [str "bin"].
Proof.
  destruct (skipelem_spec (str "//usr//bin/") (replicate 14 0) eq_refl) as (rest & name' & Heq & _ & He & _).
  exists rest, name'. split; [exact Heq|exact He].
Defined.

Lemma fw_cache :
  cache fw_state [] (contents fw_disk) ∅ /\
  exists bs, fw_state = set_k_bcache bs (set_lock L_bcache (mkLock 0 "bcache" None) fw_boot).
Proof.
  destruct bw_boot_ok as (H1 & H2 & H3 & H4 & H5).
  exact (after_binit_cache fw_boot H1 H2 H3 (conj H3 (proj2 H4)) H5).
Qed.

Lemma fw_file s : file_ok s [] (contents fw_disk) fw_inode.
Proof.
  assert (Hr : forall bn, 0 < bn < 100 -> readable_block s [] 1 bn).
  { intros bn Hbn. split_and!; [lia|apply in_built_image; lia|apply none_held]. }
  split; [apply device_one|by split| |].
  - intros k Hk Hks. simpl in Hks. assert (k = 0 \/ k = 1) as [-> | ->] by lia.
    + split; [apply Hr; vm_compute; done|by vm_compute].
    + split; [apply Hr; vm_compute; done|by vm_compute].
  - intros Hk. exfalso. simpl in Hk. lia.
Qed.

(** Four bytes around the end of the first block. *)
Lemma readi_spec_witness : exists s', readi 0 DKernel 510 4 [] fw_state = Done (4, [7; 7; 0; 0]) [] s'.
Proof.
  destruct fw_cache as [Hc [bs E]].
  assert (Hi : inode_of 0 fw_state = fw_inode) by (rewrite E; reflexivity). clear E.
  pose proof (fw_file fw_state) as Hf. rewrite <- Hi in Hf.
  destruct (readi_spec fw_state [] (contents fw_disk) ∅ 0 510 4 [] Hc room_left ltac:(rewrite Hi; done) Hf
    ltac:(rewrite Hi; simpl; lia) ltac:(lia)) as (s' & Heq & _).
  rewrite Hi in Heq. exists s'. exact Heq.
Defined.
