(* ===== verification/FsLock.v ===== *)
(** fs.c, [ilock]: the first lock of an inode reads it from the disk. *)

From S2P Require Import Prelude Params Mem State Spinlock Console Kalloc Vm VmTables VmSpace VmAlloc.
From S2P Require Import VmCopy Proc ProcSpec Ide Bio BioRing BioSpec BioProps Log LogSpec LogOps LogCrash.
From S2P Require Import Umem Fs FsSpec.

(** The table of inodes is now [l], and requests of bio.c may have been made. *)
Definition ic (l : list inode_t) (s s' : kernel) : Prop := bio_only (set_k_icache l s) s'.

Lemma bio_only_icache s s' : bio_only s s' -> k_icache s' = k_icache s.
Proof. by intros (bc & d & pt & -> & _). Qed.

Lemma bio_only_ready lk s s' : bio_only s s' -> ready lk s -> ready lk s'.
Proof. by intros (bc & d & pt & -> & _). Qed.

Lemma bio_only_set_icache l s s' : bio_only s s' -> bio_only (set_k_icache l s) (set_k_icache l s').
Proof. intros (bc & d & pt & -> & Hp). by exists bc, d, pt. Qed.

Lemma set_icache_id s : set_k_icache (k_icache s) s = s.
Proof. by destruct s. Qed.

Lemma ic_set l s : ic l s (set_k_icache l s).
Proof. apply bio_only_refl. Qed.

Lemma ic_bio s s' : bio_only s s' -> ic (k_icache s) s s'.
Proof. unfold ic. by rewrite set_icache_id. Qed.

Lemma ic_trans l l' s s1 s2 : ic l s s1 -> ic l' s1 s2 -> ic l' s s2.
Proof.
  unfold ic. intros H1 H2. eapply bio_only_trans; [|exact H2].
  exact (bio_only_set_icache l' _ _ H1).
Qed.

Lemma ic_icache l s s' : ic l s s' -> k_icache s' = l.
Proof. intros H. by rewrite (bio_only_icache _ _ H). Qed.

Lemma ic_ready l lk s s' : ic l s s' -> ready lk s -> ready lk s'.
Proof. intros H Hr. by apply (bio_only_ready lk _ _ H). Qed.

Lemma ic_sb l s s' : ic l s s' -> k_sb s' = k_sb s.
Proof. by intros (bc & d & pt & -> & _). Qed.

Lemma ic_cpu l s s' : ic l s s' -> k_cpu s' = k_cpu s.
Proof. by intros (bc & d & pt & -> & _). Qed.

Lemma alter_insert {A} (f : A -> A) (l : list A) : forall i x, l !! i = Some x -> alter f i l = <[i := f x]> l.
Proof. induction l as [|y l IH]; intros [|i] x Hx; simplify_eq/=; [done|]. f_equal. by apply IH. Qed.

Lemma on_inode_insert i q f s : k_icache s !! i = Some q -> on_inode i f s = set_k_icache (<[i := f q]> (k_icache s)) s.
Proof. intros Hq. unfold on_inode. by rewrite (alter_insert _ _ _ _ Hq). Qed.

Lemma inode_of_lookup i s : (i < length (k_icache s))%nat -> k_icache s !! i = Some (inode_of i s).
Proof. intros Hi. unfold inode_of. by destruct (lookup_lt_is_Some_2 _ _ Hi) as [q ->]. Qed.

(** One more update of entry [i]. *)
Lemma ic_on_inode i q f s s' :
  (i < length (k_icache s))%nat -> ic (<[i := q]> (k_icache s)) s s' -> ic (<[i := f q]> (k_icache s)) s (on_inode i f s').
Proof.
  intros Hi H. eapply ic_trans; [exact H|]. rewrite (on_inode_insert i q).
  - rewrite (ic_icache _ _ _ H), list_insert_insert_eq. apply ic_set.
  - rewrite (ic_icache _ _ _ H). by apply list_lookup_insert_eq.
Qed.

Section lock.
Context `{Symbols} `{Driver} {Hdrv : SyncDriver} `{DevSw}.

Lemma cache_on_inode i f s held cur dirt : cache s held cur dirt -> cache (on_inode i f s) held cur dirt.
Proof. intros []. by split. Qed.

(** What the inode is once it is locked: as it was if it is valid, else as the disk has it. *)
Definition locked_inode (cur : Z * Z -> list Z) (sb : superblock) (q : inode_t) : inode_t :=
  if cbool (Z.land (iflags q) I_VALID) then set_iflags (Z.lor (iflags q) I_BUSY) q
  else set_iflags (Z.lor (Z.lor (iflags q) I_BUSY) I_VALID)
    (dinode_decode (cur (idev q, IBLOCK (inum q) sb)) (dinode_off (inum q)) q).

(** An inode that can be locked at once, and read if it has to be. *)
Record lockable (s : kernel) (held : list nat) (cur : Z * Z -> list Z) (i : nat) : Prop := {
  lo_index : (i < length (k_icache s))%nat;
  lo_ready : ready L_icache s;
  lo_ref : 1 <= iref (inode_of i s);
  lo_free : Z.land (iflags (inode_of i s)) I_BUSY = 0;
  lo_dev : idev (inode_of i s) <> nodev;
  lo_block : readable_block s held (idev (inode_of i s)) (IBLOCK (inum (inode_of i s)) (k_sb s));
  lo_type : itype (locked_inode cur (k_sb s) (inode_of i s)) <> 0 \/ cbool (Z.land (iflags (inode_of i s)) I_VALID) = true
}.

Lemma wp_ilock s held cur dirt i e (Q : unit -> env kernel -> kernel -> Prop) :
  cache s held cur dirt -> (size dirt + length held < head)%nat -> lockable s held cur i ->
  (forall s', cache s' held cur dirt -> ic (<[i := locked_inode cur (k_sb s) (inode_of i s)]> (k_icache s)) s s' ->
     k_disk s' = k_disk s -> Q tt e s') ->
  wp (ilock (Some i)) Q e s.
Proof.
  intros Hc Hroom [Hi Hr Href Hbusy Hdev (Hnz & Hsv & Hh) Hty] HQ. unfold ilock, iget_f, iset. set (q := inode_of i s) in *.
  apply wp_bind, wp_get. fold q. rewrite (proj2 (Z.ltb_ge _ _)) by lia.
  apply wp_bind, wp_acquire; [done|]. apply wp_bind.
  apply (wpb_loop_env _ (fun _ e' s' => e' = e /\ s' = acquired L_icache s)); [done|].
  intros [] e' s' [-> ->]. apply wp_bind, wp_get. change (inode_of i (acquired L_icache s)) with q. rewrite Hbusy.
  apply wp_ret. apply wp_bind, wp_modify. set (lock := fun q : inode_t => set_iflags (Z.lor (iflags q) I_BUSY) q).
  apply wp_bind. apply (wp_release _ _ _ _ (on_inode i lock s)); [done|done|]. set (s1 := on_inode i lock s).
  assert (I1 : ic (<[i := lock q]> (k_icache s)) s s1).
  { unfold s1. rewrite (on_inode_insert i q) by (by apply inode_of_lookup). apply ic_set. }
  assert (Eq : forall p t, ic (<[i := p]> (k_icache s)) s t -> inode_of i t = p).
  { intros p t Ht. unfold inode_of. by rewrite (ic_icache _ _ _ Ht), list_lookup_insert_eq. }
  assert (Hfl : cbool (Z.land (iflags (lock q)) I_VALID) = cbool (Z.land (iflags q) I_VALID)).
  { cbn [lock set_iflags iflags]. rewrite Z.land_lor_distr_l. change (Z.land I_BUSY I_VALID) with 0. by rewrite Z.lor_0_r. }
  apply wp_bind, wp_get. rewrite (Eq _ _ I1), Hfl. unfold locked_inode in HQ, Hty.
  destruct (cbool (Z.land (iflags q) I_VALID)) eqn:Ev.
  { apply wp_ret, HQ; [by apply cache_on_inode|done|done]. }
  destruct Hty as [Hty|]; [|done]. apply wp_bind, wp_get. rewrite (Eq _ _ I1). apply wp_bind, wp_get.
  change (k_sb s1) with (k_sb s). change (idev (lock q)) with (idev q). change (inum (lock q)) with (inum q).
  set (bn := IBLOCK (inum q) (k_sb s)) in *. unfold bufget.
  apply wp_bind. eapply (wp_bread s1 held cur dirt); [by apply cache_on_inode|done|done|done|by right|].
  intros b s2 Hb Hc2 Hk2 Hsame Hd2 Ho2. apply wp_bind, wp_get. rewrite (held_data _ _ _ _ b Hc2), Hk2 by (by left).
  apply wp_bind, wp_modify. set (load := dinode_decode _ _).
  assert (I2 : ic (<[i := load (lock q)]> (k_icache s)) s (on_inode i load s2)).
  { apply ic_on_inode; [done|]. eapply bio_only_trans; [exact I1|exact Ho2]. }
  apply wp_bind. eapply (wp_brelse (on_inode i load s2) (b :: held) held cur dirt b);
    [by apply cache_on_inode|done|apply (clean_release s1 held cur dirt _ (idev q) bn); [by apply cache_on_inode|done|done|exact Hd2|exact Hk2]|].
  intros s3 Hc3 Hk3 Hd3 Ho3. apply wp_bind, wp_modify, wp_bind, wp_get. set (done_ := fun q : inode_t => set_iflags (Z.lor (iflags q) I_VALID) q).
  assert (I3 : ic (<[i := done_ (load (lock q))]> (k_icache s)) s (on_inode i done_ s3)).
  { apply ic_on_inode; [done|]. eapply bio_only_trans; [exact I2|exact Ho3]. }
  rewrite (Eq _ _ I3). match goal with |- context [itype ?x =? 0] => assert (Hty' : itype x <> 0) by exact Hty end.
  rewrite (proj2 (Z.eqb_neq _ _) Hty'). apply wp_ret, HQ.
  - by apply cache_on_inode.
  - exact I3.
  - change (k_disk s3 = k_disk s). rewrite Hd3. exact Hd2.
Qed.

End lock.
