(* ===== verification/FsDir.v ===== *)
(** fs.c, [iget] and [dirlookup]: the table of inodes in use and the search for a name. *)

From S2P Require Import Prelude Params Mem State Spinlock Console Kalloc Vm VmTables VmSpace VmAlloc.
From S2P Require Import VmCopy Proc ProcSpec Ide Bio BioRing BioSpec BioProps Log LogSpec LogOps LogCrash.
From S2P Require Import Umem Fs FsSpec FsLock.

(** * [iget] *)

(** Entry [q] is inode [n] of [dev], in use. *)
Definition in_use (dev n : Z) (q : inode_t) : Prop := 0 < iref q /\ idev q = dev /\ inum q = n.
#[export] Instance in_use_dec dev n q : Decision (in_use dev n q).
Proof. unfold in_use. apply _. Defined.

Definition unused (q : inode_t) : Prop := iref q = 0.
#[export] Instance unused_dec q : Decision (unused q).
Proof. unfold unused. apply _. Defined.

(** The entry [iget] gives out, and what it becomes. *)
Definition iget_slot (dev n : Z) (l : list inode_t) : option (nat * inode_t) :=
  match list_find (in_use dev n) l with
  | Some (i, q) => Some (i, set_iref (iref q + 1) q)
  | None =>
      match list_find unused l with
      | Some (i, q) => Some (i, set_iflags 0 (set_iref 1 (set_inum n (set_idev dev q))))
      | None => None
      end
  end.

(** No inode is in the table twice. *)
Definition icache_unique (l : list inode_t) : Prop :=
  forall i j p q, l !! i = Some p -> l !! j = Some q -> 0 < iref p -> 0 < iref q ->
    idev p = idev q -> inum p = inum q -> i = j.

Lemma iget_slot_props dev n l i q :
  iget_slot dev n l = Some (i, q) ->
  (i < length l)%nat /\ in_use dev n q /\ (icache_unique l -> icache_unique (<[i := q]> l)).
Proof.
  unfold iget_slot. intros H.
  assert (Hc : (i < length l)%nat /\ in_use dev n q /\
    forall j p, j <> i -> l !! j = Some p -> in_use dev n p -> icache_unique l -> False).
  { destruct (list_find (in_use dev n) l) as [[k p]|] eqn:E.
    - injection H as <- <-. apply list_find_Some in E as (E1 & (E2 & E3 & E4) & _). split_and!; [by eapply lookup_lt_Some| |].
      + unfold in_use. cbn [set_iref iref idev inum]. split_and!; [lia|done|done].
      + intros j p' Hj Hp (P1 & P2 & P3) Hu. apply Hj, (Hu j k p' p); congruence.
    - destruct (list_find unused l) as [[k p]|] eqn:E'; [|done]. injection H as <- <-.
      apply list_find_Some in E' as (E1 & _). split_and!; [by eapply lookup_lt_Some|done|].
      intros j p' _ Hp Huse _. apply list_find_None in E. rewrite Forall_lookup in E. by apply (E j p'). }
  destruct Hc as (H1 & H2 & H3). split_and!; [done|done|]. intros Hu a b p p' Ha Hb Pa Pb Ed En.
  destruct (decide (a = i)) as [->|Na], (decide (b = i)) as [->|Nb]; [done| | |].
  - rewrite list_lookup_insert_eq in Ha by done. injection Ha as <-. rewrite list_lookup_insert_ne in Hb by done.
    exfalso. destruct H2 as (_ & <- & <-). by apply (H3 b p').
  - rewrite list_lookup_insert_eq in Hb by done. injection Hb as <-. rewrite list_lookup_insert_ne in Ha by done.
    exfalso. destruct H2 as (_ & <- & <-). by apply (H3 a p).
  - rewrite list_lookup_insert_ne in Ha, Hb by done. by apply (Hu a b p p').
Qed.

Section dir.
Context `{Symbols} `{Driver} {Hdrv : SyncDriver} `{DevSw}.

(** One round of the search of [iget]. *)
Definition iget_round (dev n : Z) (i : nat) (acc : option nat + nat) : K (option nat + nat) :=
  match acc with
  | inr j => mret (inr j)
  | inl empty =>
      q ← get (inode_of i);
      if (0 <? iref q) && (idev q =? dev) && (inum q =? n) then
        iset i (fun q => set_iref (iref q + 1) q);;
        release L_icache;;
        mret (inr i)
      else if bool_decide (empty = None) && (iref q =? 0) then mret (inl (Some i))
      else mret (inl empty)
  end.

Lemma iget_scan_done dev n ks j e s : for_fold ks (iget_round dev n) (inr j) e s = Done (inr j) e s.
Proof. induction ks as [|k ks IH]; simpl; [done|]. by erewrite bind_Done by done. Qed.

Lemma in_use_bool dev n q : (0 <? iref q) && (idev q =? dev) && (inum q =? n) = bool_decide (in_use dev n q).
Proof.
  unfold in_use. symmetry. destruct (Z.ltb_spec 0 (iref q)), (Z.eqb_spec (idev q) dev), (Z.eqb_spec (inum q) n); simpl;
    first [apply bool_decide_eq_true_2|apply bool_decide_eq_false_2]; intuition lia.
Qed.

Lemma iget_round_eq dev n i empty e s q : ready L_icache s -> inode_of i s = q ->
  iget_round dev n i (inl empty) e (acquired L_icache s) =
  if decide (in_use dev n q) then Done (inr i) e (on_inode i (fun q => set_iref (iref q + 1) q) s)
  else Done (inl (if bool_decide (empty = None) && (iref q =? 0) then Some i else empty)) e (acquired L_icache s).
Proof.
  intros Hr Hq. unfold iget_round. erewrite bind_Done by done. change (inode_of i (acquired L_icache s)) with (inode_of i s).
  rewrite Hq, in_use_bool. case_bool_decide; case_decide; try done.
  - unfold iset. erewrite bind_Done by done. erewrite bind_Done; [done|].
    change (on_inode i ?f (acquired L_icache s)) with (acquired L_icache (on_inode i f s)). by apply release_acquired.
  - by destruct (_ && _).
Qed.

Lemma iget_scan dev n s e : ready L_icache s -> forall rest pre empty,
  k_icache s = pre ++ rest ->
  for_fold (seq (length pre) (length rest)) (iget_round dev n) (inl empty) e (acquired L_icache s) =
  match list_find (in_use dev n) rest with
  | Some (i, _) => Done (inr (length pre + i)%nat) e (on_inode (length pre + i) (fun q => set_iref (iref q + 1) q) s)
  | None => Done (inl match empty with
                      | Some _ => empty
                      | None => (fun p => (length pre + p.1)%nat) <$> list_find unused rest
                      end) e (acquired L_icache s)
  end.
Proof.
  intros Hr. induction rest as [|q rest IH]; intros pre empty Hl; [by destruct empty|].
  assert (Hq : inode_of (length pre) s = q) by (unfold inode_of; by rewrite Hl, list_lookup_middle).
  cbn [length seq for_fold list_find]. pose proof (iget_round_eq dev n (length pre) empty e s q Hr Hq) as E.
  case_decide.
  - erewrite bind_Done by exact E. rewrite iget_scan_done. by rewrite Nat.add_0_r.
  - erewrite bind_Done by exact E. specialize (IH (pre ++ [q])). rewrite length_app, Nat.add_1_r in IH.
    rewrite IH by (by rewrite <- app_assoc).
    destruct (list_find (in_use dev n) rest) as [[i p]|]; simpl; [by rewrite Nat.add_succ_r|].
    destruct empty as [x|]; simpl; [done|]. destruct (Z.eqb_spec (iref q) 0), (decide (unused q)); try done.
    + cbn [fmap option_fmap option_map fst]. by rewrite Nat.add_0_r.
    + destruct (list_find unused rest) as [[i p]|]; simpl; [by rewrite Nat.add_succ_r|done].
Qed.

Lemma alter_twice {A} (f g : A -> A) (l : list A) : forall i, alter f i (alter g i l) = alter (f ∘ g) i l.
Proof. induction l as [|y l IH]; intros [|i]; [done..|]. cbn. f_equal. apply IH. Qed.

Lemma on_inode_acquired i f lk s : on_inode i f (acquired lk s) = acquired lk (on_inode i f s).
Proof. done. Qed.

Lemma on_inode_twice i f g s : on_inode i f (on_inode i g s) = on_inode i (f ∘ g) s.
Proof. unfold on_inode. cbn [k_icache set_k_icache]. by rewrite alter_twice. Qed.

Lemma iget_eq dev n e s : ready L_icache s -> length (k_icache s) = Z.to_nat NINODE ->
  iget dev n e s =
  match iget_slot dev n (k_icache s) with
  | Some (i, q) => Done i e (set_k_icache (<[i := q]> (k_icache s)) s)
  | None => Panic "iget: no inodes" (acquired L_icache s)
  end.
Proof.
  intros Hr Hlen. unfold iget. erewrite bind_Done by (by apply acquire_ready).
  pose proof (iget_scan dev n s e Hr (k_icache s) [] None eq_refl) as E. rewrite Hlen in E. cbn [length] in E.
  unfold iget_slot. destruct (list_find (in_use dev n) (k_icache s)) as [[i q]|] eqn:Ef.
  - erewrite bind_Done by exact E. cbn iota. apply list_find_Some in Ef as (Hq & _). cbn [plus].
    by rewrite (on_inode_insert i q) by done.
  - erewrite bind_Done by exact E. destruct (list_find unused (k_icache s)) as [[i q]|] eqn:Eu; [|done].
    apply list_find_Some in Eu as (Hq & _). cbn [fmap option_fmap option_map plus fst].
    unfold iset. do 4 erewrite bind_Done by done. erewrite bind_Done.
    2: { rewrite !on_inode_acquired. by apply release_acquired. }
    rewrite !on_inode_twice. by rewrite (on_inode_insert i q) by done.
Qed.

(** [iget] gives out the entry of the inode when it is in the table, with one more
    reference, and otherwise the first unused entry, made to be the inode with one reference and
    not valid.  When neither exists it panics.  The entry is of the inode asked for, and if no
    inode was in the table twice, none is afterwards. *)
Lemma iget_spec dev n e s : ready L_icache s -> length (k_icache s) = Z.to_nat NINODE ->
  match iget_slot dev n (k_icache s) with
  | Some (i, q) =>
      iget dev n e s = Done i e (set_k_icache (<[i := q]> (k_icache s)) s) /\ (i < Z.to_nat NINODE)%nat /\ in_use dev n q /\
      (icache_unique (k_icache s) -> icache_unique (<[i := q]> (k_icache s)))
  | None => iget dev n e s = Panic "iget: no inodes" (acquired L_icache s)
  end.
Proof.
  intros Hr Hlen. rewrite (iget_eq dev n e s Hr Hlen). destruct (iget_slot dev n (k_icache s)) as [[i q]|] eqn:E; [|done].
  apply iget_slot_props in E as (Hi & Hu & Hq). rewrite Hlen in Hi. split_and!; done.
Qed.

(** With an unused entry in the table [iget] does not panic. *)
Lemma iget_slot_some dev n l : Exists unused l -> exists i q, iget_slot dev n l = Some (i, q).
Proof.
  intros Hl. unfold iget_slot. destruct (list_find (in_use dev n) l) as [[i q]|]; [by eexists _, _|].
  destruct (list_find unused l) as [[i q]|] eqn:E; [by eexists _, _|]. apply list_find_None in E.
  exfalso. apply Exists_exists in Hl as (q & Hin & Hq). by apply (proj1 (Forall_forall _ _) E q Hin).
Qed.

(** * [dirlookup] *)

(** Entry [k] of a directory, and whether it is in use and has the name. *)
Definition dir_entry (q : inode_t) (cur : Z * Z -> list Z) (k : Z) : list Z := file_bytes q cur (16 * k) 16.
Definition dir_hit (name : Z -> Z) (de : list Z) : bool :=
  negb (de_inum de =? 0) && (namecmp name (lstr (de_name de)) =? 0).

(** What a search of the directory [q] from entry [0] ends with. *)
Definition looked_up (name : Z -> Z) (q : inode_t) (cur : Z * Z -> list Z) (l : list inode_t)
    (r : option (nat * Z)) (l' : list inode_t) : Prop :=
  match r with
  | None => (forall k, 0 <= k < isize q / 16 -> dir_hit name (dir_entry q cur k) = false) /\ l' = l
  | Some (ip, off) => exists k q', off = 16 * k /\ 0 <= k < isize q / 16 /\ dir_hit name (dir_entry q cur k) = true /\
      (forall k', 0 <= k' < k -> dir_hit name (dir_entry q cur k') = false) /\
      iget_slot (idev q) (de_inum (dir_entry q cur k)) l = Some (ip, q') /\ l' = <[ip := q']> l
  end.

Lemma cache_set_icache l s held cur dirt : cache s held cur dirt -> cache (set_k_icache l s) held cur dirt.
Proof. intros []. by split. Qed.

Lemma file_ok_none s s' cur q : file_ok s [] cur q -> file_ok s' [] cur q.
Proof. apply file_ok_same. by intros c Hc%elem_of_nil. Qed.

(** A directory in a table of inodes that has room. *)
Record dir_ok (s : kernel) (cur : Z * Z -> list Z) (dp : nat) : Prop := {
  do_type : itype (inode_of dp s) = T_DIR;
  do_file : file_ok s [] cur (inode_of dp s);
  do_size : isize (inode_of dp s) mod 16 = 0;
  do_ready : ready L_icache s;
  do_table : length (k_icache s) = Z.to_nat NINODE;
  do_room : Exists unused (k_icache s)
}.

(** Before the round at offset [off]: no entry below it has the name. *)
Definition searching (s : kernel) (cur : Z * Z -> list Z) (dirt : gset (Z * Z)) (name : Z -> Z) (q : inode_t)
    (off : Z) (s' : kernel) : Prop :=
  bio_only s s' /\ cache s' [] cur dirt /\ k_disk s' = k_disk s /\
  exists k, off = 16 * k /\ 0 <= k <= isize q / 16 /\ forall k', 0 <= k' < k -> dir_hit name (dir_entry q cur k') = false.

(** After the search. *)
Definition searched (s : kernel) (cur : Z * Z -> list Z) (dirt : gset (Z * Z)) (name : Z -> Z) (q : inode_t)
    (r : option (nat * Z)) (t : kernel) : Prop :=
  cache t [] cur dirt /\ k_disk t = k_disk s /\ exists l', ic l' s t /\ looked_up name q cur (k_icache s) r l'.

(** The next round, after an entry that is not the one. *)
Lemma search_next s cur dirt name q k s1 s2 :
  searching s cur dirt name q (16 * k) s1 -> isize q mod 16 = 0 -> 16 * k < isize q -> dir_hit name (dir_entry q cur k) = false ->
  bio_only s s2 -> cache s2 [] cur dirt -> k_disk s2 = k_disk s ->
  searching s cur dirt name q (16 * k + 16) s2 /\
  (Z.to_nat ((isize q - (16 * k + 16)) / 16) < Z.to_nat ((isize q - 16 * k) / 16))%nat.
Proof.
  intros (_ & _ & _ & k1 & Ek & Hk & Hno) Hm Hlt Hh Ho Hc Hd. assert (k1 = k) as -> by lia.
  split; [|Z.div_mod_to_equations; lia]. split_and!; [done|done|done|]. exists (k + 1).
  split_and!; [lia|lia|Z.div_mod_to_equations; lia|]. intros k' Hk'. destruct (decide (k' = k)) as [->|]; [done|apply Hno; lia].
Qed.

Lemma dirlookup_ok s cur dirt dp name e :
  cache s [] cur dirt -> (size dirt < head)%nat -> dir_ok s cur dp ->
  exists r t, dirlookup dp name e s = Done r e t /\ searched s cur dirt name (inode_of dp s) r t.
Proof.
  intros Hc Hroom [Hty Hf Hsz Hr Hlen Hex]. set (q := inode_of dp s) in *. pose proof (fo_size _ _ _ _ Hf) as Hb.
  assert (Hw : wp (dirlookup dp name) (fun r e' t => e' = e /\ searched s cur dirt name q r t) e s).
  2: { apply wp_elim in Hw as (r & e' & t & Hrun & -> & H'). by exists r, t. }
  unfold dirlookup, iget_f. apply wp_bind, wp_get. fold q. rewrite Hty. cbn [Z.eqb negb T_DIR Pos.eqb].
  apply wp_bind, wp_get. fold q. change sizeof_dirent with 16.
  apply (wp_loop (fun off e' s' => e' = e /\ searching s cur dirt name q off s') (fun off => Z.to_nat ((isize q - off) / 16))).
  { Z.div_mod_to_equations. lia. }
  { split; [done|]. split_and!; [apply bio_only_refl|done|done|]. exists 0. split_and!; [done|lia|Z.div_mod_to_equations; lia|lia]. }
  intros off e' s1 [-> Hs]. pose proof Hs as (Ho & Hc1 & Hd1 & k & -> & Hk & Hno). apply wp_bind, wp_get.
  rewrite (bio_only_inode dp _ _ Ho). fold q. destruct (Z.ltb_spec (16 * k) (isize q)) as [Hlt|Hge]; cbn [negb].
  2: { apply wp_ret. split; [done|]. split_and!; [done|done|]. exists (k_icache s). split; [by apply ic_bio|].
       split; [|done]. intros k' Hk'. apply Hno. Z.div_mod_to_equations. lia. }
  destruct (readi_ok s1 [] cur dirt dp (16 * k) 16 e) as (s2 & Hrun & Hc2 & Ho2 & Hd2);
    rewrite ?(bio_only_inode dp _ _ Ho); fold q; [done|simpl; lia|by rewrite Hty|by eapply file_ok_none|lia|lia|].
  rewrite (bio_only_inode dp _ _ Ho) in Hrun. fold q in Hrun. replace (Z.min 16 (isize q - 16 * k)) with 16 in Hrun by (Z.div_mod_to_equations; lia).
  apply wp_bind. eapply wp_intro; [exact Hrun|]. cbn [fst snd Z.eqb Pos.eqb negb]. fold (dir_entry q cur k). set (de := dir_entry q cur k).
  pose proof (bio_only_trans _ _ _ Ho Ho2) as Ho'. assert (Hk' : k < isize q / 16) by (Z.div_mod_to_equations; lia).
  destruct (dir_hit name de) eqn:Eh; pose proof Eh as Eb; unfold dir_hit in Eb.
  - apply andb_true_iff in Eb as [En%negb_true_iff Ec]. rewrite En, Ec. apply wp_bind, wp_get.
    rewrite (bio_only_inode dp _ _ Ho'). fold q. apply wp_bind.
    destruct (iget_slot_some (idev q) (de_inum de) _ Hex) as (ip & q' & Eslot). pose proof (bio_only_icache _ _ Ho') as Ei.
    pose proof (iget_eq (idev q) (de_inum de) e s2 (bio_only_ready _ _ _ Ho' Hr) ltac:(by rewrite Ei)) as Eget.
    rewrite Ei, Eslot in Eget. eapply wp_intro; [exact Eget|].
    apply wp_ret. split; [done|]. split_and!; [by apply cache_set_icache|by rewrite <- Hd1, <- Hd2|]. exists (<[ip := q']> (k_icache s)).
    split; [by apply bio_only_set_icache|]. exists k, q'. split_and!; [done|lia|lia|done|done|done|done].
  - destruct (search_next s cur dirt name q k s1 s2 Hs Hsz Hlt Eh Ho' Hc2 ltac:(congruence)) as [Hn1 Hn2].
    destruct (de_inum de =? 0); [by apply wp_ret|]. cbn [negb andb] in Eb. rewrite Eb. by apply wp_ret.
Qed.

(** [dirlookup] finds a name in a directory.  It returns the offset of the first entry in
    use that has the name, with the entry of the inode table that [iget] gives out for its number,
    and it returns 0 only when no entry in use has the name; then the table is as it was.  The
    cache and the disk keep their contents. *)
Lemma dirlookup_spec s cur dirt dp name e :
  cache s [] cur dirt -> (size dirt < head)%nat -> dir_ok s cur dp ->
  exists r s', dirlookup dp name e s = Done r e s' /\ cache s' [] cur dirt /\ k_disk s' = k_disk s /\
    looked_up name (inode_of dp s) cur (k_icache s) r (k_icache s').
Proof.
  intros Hc Hroom Hd. destruct (dirlookup_ok s cur dirt dp name e Hc Hroom Hd) as (r & t & Hrun & Hc' & Hd' & l' & Hl & Hr).
  exists r, t. rewrite (ic_icache _ _ _ Hl). by split_and!.
Qed.
End dir.

(** * Witnesses *)

#[local] Existing Instance built_symbols.
#[local] Existing Instance bw_driver | 0.
#[local] Existing Instance bw_sync | 0.
#[local] Existing Instance fw_devsw.

(** A directory in block 60 with an unused entry and the entries a and b, in entry 0 of the table. *)
Definition dw_entry (n : Z) (name : list Z) : list Z := [n; 0] ++ name ++ replicate (14 - length name) 0.
Definition dw_block : list Z := dw_entry 0 (str "b") ++ dw_entry 7 (str "a") ++ dw_entry 9 (str "b") ++ replicate 464 0.
Definition dw_inode : inode_t := mkInode 1 5 1 3 T_DIR 0 0 1 48 ([60] ++ replicate 12 0).
Definition dw_disk : disk_t := mkDisk {[(1, 60) := dw_block]} [].
Definition dw_boot : kernel :=
  set_k_icache (dw_inode :: replicate 49 zero_inode) (set_lock L_icache (mkLock 0 "icache" None) (set_k_disk dw_disk (lw_boot 1))).
Definition dw_state : kernel := after_binit dw_boot.

Lemma dw_cache :
  cache dw_state [] (contents dw_disk) ∅ /\
  exists bs, dw_state = set_k_bcache bs (set_lock L_bcache (mkLock 0 "bcache" None) dw_boot).
Proof.
  destruct bw_boot_ok as (H1 & H2 & H3 & H4 & H5).
  exact (after_binit_cache dw_boot H1 H2 H3 (conj H3 (proj2 H4)) H5).
Qed.

Lemma dw_table : k_icache dw_state = dw_inode :: replicate 49 zero_inode /\ ready L_icache dw_state.
Proof. destruct dw_cache as [_ [bs ->]]. split; [reflexivity|]. split; [by split|]. by eexists. Qed.

Lemma iget_spec_witness :
  iget_slot 1 9 (k_icache dw_state) = Some (1%nat, mkInode 1 9 1 0 0 0 0 0 0 (replicate 13 0)) /\
  exists s', iget 1 9 [] dw_state = Done 1%nat [] s'.
Proof.
  destruct dw_table as [Et Hr]. pose proof (iget_spec 1 9 [] dw_state Hr ltac:(rewrite Et; reflexivity)) as Hi.
  assert (Es : iget_slot 1 9 (k_icache dw_state) = Some (1%nat, mkInode 1 9 1 0 0 0 0 0 0 (replicate 13 0))) by (rewrite Et; vm_compute; reflexivity).
  rewrite Es in Hi. destruct Hi as [Hi _]. split; [exact Es|]. eexists. exact Hi.
Defined.

Lemma dw_file s : file_ok s [] (contents dw_disk) dw_inode.
Proof.
  assert (Hr : forall bn, 0 < bn < 100 -> readable_block s [] 1 bn).
  { intros bn Hbn. split_and!; [lia|apply in_built_image; lia|apply none_held]. }
  split; [apply device_one|by split| |intros Hk; exfalso; simpl in Hk; lia].
  intros k Hk Hks. simpl in Hks. assert (k = 0) as -> by lia. split; [apply Hr; vm_compute; done|by vm_compute].
Qed.

Lemma dw_dir : dir_ok dw_state (contents dw_disk) 0.
Proof.
  destruct dw_table as [Et Hr]. assert (Ei : inode_of 0 dw_state = dw_inode) by (unfold inode_of; rewrite Et; reflexivity).
  split; rewrite ?Ei, ?Et; [reflexivity|apply dw_file|reflexivity|exact Hr|reflexivity|].
  apply Exists_cons. right. apply Exists_cons. left. reflexivity.
Qed.

(** The name b is found in the third entry: the first one is not in use. *)
Lemma dirlookup_spec_witness : exists s', dirlookup 0 (lstr (str "b")) [] dw_state = Done (Some (1%nat, 32)) [] s'.
Proof.
  destruct dw_table as [Et _]. assert (Ei : inode_of 0 dw_state = dw_inode) by (unfold inode_of; rewrite Et; reflexivity).
  destruct (dirlookup_spec dw_state (contents dw_disk) ∅ 0 (lstr (str "b")) [] (proj1 dw_cache)
    ltac:(rewrite size_empty; apply Nat.ltb_lt; reflexivity) dw_dir) as (r & s' & Hrun & _ & _ & Hl).
  rewrite Ei, Et in Hl. exists s'. rewrite Hrun. destruct r as [[ip off]|]; cbn [looked_up] in Hl.
  - destruct Hl as (k & q' & Eo & Hk & Hh & Hno & Hs & _). change (isize dw_inode / 16) with 3 in Hk.
    assert (k = 2) as Ek.
    { assert (k = 0 \/ k = 1 \/ k = 2) as [E|[E|E]] by lia; rewrite E in Hh; vm_compute in Hh; [discriminate Hh..|exact E]. }
    rewrite Eo, Ek. rewrite Ek in Hs. vm_compute in Hs. injection Hs as Hip _. rewrite <- Hip. reflexivity.
  - destruct Hl as [Hno _]. exfalso. specialize (Hno 2 ltac:(change (isize dw_inode / 16) with 3; lia)). vm_compute in Hno. discriminate Hno.
Defined.
