(* ===== verification/FsTable.v ===== *)
(** fs.c: the references that the inode table counts, and [iunlockput].

    The table holds inodes of the root device.  An entry that is valid agrees with the
    disk; [refs] counts the references to an inode and [spare] the unused entries. *)

From S2P Require Import Prelude Params Mem State Spinlock Console Kalloc Vm VmTables VmSpace VmAlloc.
From S2P Require Import VmCopy Proc ProcSpec Ide Bio BioRing BioSpec BioProps Log LogSpec LogOps LogCrash.
From S2P Require Import Umem Fs FsSpec FsLock FsDir.

(** * Sums over the table *)

Fixpoint tsum (f : inode_t -> Z) (l : list inode_t) : Z :=
  match l with [] => 0 | q :: l' => f q + tsum f l' end.

Lemma tsum_insert f l : forall i p q, l !! i = Some p -> tsum f (<[i := q]> l) = tsum f l - f p + f q.
Proof. induction l as [|x l IH]; intros [|i] p q Hp; simplify_eq/=; [lia|]. rewrite (IH _ _ q Hp). lia. Qed.

(** The references to inode [n]. *)
Definition refs (n : Z) : list inode_t -> Z := tsum (fun q => if decide (in_use ROOTDEV n q) then iref q else 0).

(** The unused entries. *)
Definition spare : list inode_t -> Z := tsum (fun q => if decide (unused q) then 1 else 0).

Lemma spare_exists l : 1 <= spare l -> Exists unused l.
Proof.
  unfold spare. induction l as [|q l IH]; simpl; [lia|]. intros H. destruct (decide (unused q)); [by left|]. right. apply IH. lia.
Qed.

Section table.
Variables (cur : Z * Z -> list Z) (sb : superblock) (live : Z -> Prop).

(** Inode [n] as the disk has it. *)
Definition disk_inode (n : Z) : inode_t :=
  dinode_decode (cur (ROOTDEV, IBLOCK n sb)) (dinode_off n) (mkInode ROOTDEV n 0 0 0 0 0 0 0 []).

(** An entry without what is only in memory. *)
Definition bare (q : inode_t) : inode_t := set_iflags 0 (set_iref 0 q).

(** An entry of the table; [lk] is whether it is locked. *)
Record entry_ok (lk : bool) (q : inode_t) : Prop := {
  eo_ref : 0 <= iref q;
  eo_dev : 0 < iref q -> idev q = ROOTDEV /\ live (inum q);
  eo_valid : 0 < iref q -> cbool (Z.land (iflags q) I_VALID) = true -> bare q = disk_inode (inum q);
  eo_busy : 0 < iref q -> Z.land (iflags q) I_BUSY = if lk then I_BUSY else 0
}.

(** The table, with entry [lk] locked. *)
Record table_ok (lk : option nat) (l : list inode_t) : Prop := {
  to_length : length l = Z.to_nat NINODE;
  to_unique : icache_unique l;
  to_entry : forall i q, l !! i = Some q -> entry_ok (bool_decide (lk = Some i)) q
}.

(** Replacing an entry. *)
Lemma unique_insert l i p q :
  icache_unique l -> l !! i = Some p -> (0 < iref q -> 0 < iref p /\ idev q = idev p /\ inum q = inum p) ->
  icache_unique (<[i := q]> l).
Proof.
  intros H2 Hp Hq a b x y Ha Hb Hx Hy Hd Hn.
  apply list_lookup_insert_Some in Ha as [(-> & -> & _)|[Na Ha]], Hb as [(-> & -> & _)|[Nb Hb]]; [done| | |].
  - destruct (Hq Hx) as (P1 & P2 & P3). apply (H2 a b p y); congruence.
  - destruct (Hq Hy) as (P1 & P2 & P3). apply (H2 a b x p); congruence.
  - by apply (H2 a b x y).
Qed.

Lemma table_insert lk lk' l i q :
  table_ok lk l -> icache_unique (<[i := q]> l) ->
  entry_ok (bool_decide (lk' = Some i)) q -> (forall j, j <> i -> lk = Some j <-> lk' = Some j) ->
  table_ok lk' (<[i := q]> l).
Proof.
  intros [H1 H2 H3] Hu He Hl. split; [by rewrite length_insert|done|].
  intros j x Hx. apply list_lookup_insert_Some in Hx as [(<- & <- & _)|[Nj Hx]]; [done|].
  specialize (H3 j x Hx). by rewrite <- (bool_decide_ext _ _ (Hl j (not_eq_sym Nj))).
Qed.

Lemma refs_insert n l i p q : l !! i = Some p ->
  refs n (<[i := q]> l) = refs n l - (if decide (in_use ROOTDEV n p) then iref p else 0) + (if decide (in_use ROOTDEV n q) then iref q else 0).
Proof. apply tsum_insert. Qed.

Lemma spare_insert l i p q : l !! i = Some p ->
  spare (<[i := q]> l) = spare l - (if decide (unused p) then 1 else 0) + (if decide (unused q) then 1 else 0).
Proof. apply tsum_insert. Qed.

(** The flags. *)
Lemma land_set f b : Z.land (Z.lor f b) b = b.
Proof. apply Z.bits_inj'. intros n Hn. rewrite Z.land_spec, Z.lor_spec. by destruct (Z.testbit f n), (Z.testbit b n). Qed.

Lemma land_clear f b : Z.land (Z.land f (Z.lnot b)) b = 0.
Proof. apply Z.bits_inj'. intros n Hn. rewrite !Z.land_spec, Z.lnot_spec, Z.bits_0 by done. by destruct (Z.testbit f n), (Z.testbit b n). Qed.

Lemma land_busy_valid f : Z.land (Z.land f (Z.lnot I_BUSY)) I_VALID = Z.land f I_VALID.
Proof. rewrite <- Z.land_assoc. done. Qed.

Lemma lor_valid_busy f : Z.land (Z.lor f I_VALID) I_BUSY = Z.land f I_BUSY.
Proof. rewrite Z.land_lor_distr_l. change (Z.land I_VALID I_BUSY) with 0. apply Z.lor_0_r. Qed.

(** [ilock] of an entry in use. *)
Lemma table_lock l i q :
  table_ok None l -> l !! i = Some q -> 0 < iref q ->
  let q' := locked_inode cur sb q in
  table_ok (Some i) (<[i := q']> l) /\ bare q' = disk_inode (inum q) /\ iref q' = iref q /\ idev q' = idev q /\ inum q' = inum q /\
  (forall n, refs n (<[i := q']> l) = refs n l) /\ spare (<[i := q']> l) = spare l.
Proof.
  intros Ht Hq Hr q'. destruct (to_entry _ _ Ht i q Hq) as [E1 E2 E3 E4]. destruct (E2 Hr) as [E5 E6].
  assert (Hs : iref q' = iref q /\ idev q' = idev q /\ inum q' = inum q).
  { unfold q', locked_inode. by destruct (cbool _). }
  destruct Hs as (S1 & S2 & S3).
  assert (Hb : bare q' = disk_inode (inum q)).
  { unfold q', locked_inode. destruct (cbool _) eqn:Ev; [by rewrite <- (E3 Hr eq_refl)|]. unfold disk_inode, bare, dinode_decode.
    cbn [set_iflags set_iref idev inum iref iflags itype imajor iminor inlink isize iaddrs]. by rewrite E5. }
  assert (Hu : forall n, in_use ROOTDEV n q' <-> in_use ROOTDEV n q) by (intros n; unfold in_use; by rewrite S1, S2, S3).
  split_and!; [|done|done|done|done| |].
  - apply (table_insert None); [done|by apply (unique_insert _ _ q); [apply Ht|done|rewrite S1, S2, S3]| |].
    + rewrite bool_decide_eq_true_2 by done. split; rewrite ?S1, ?S2, ?S3; [done|done|done|]. intros _. unfold q', locked_inode.
      destruct (cbool _); cbn [set_iflags iflags]; [|rewrite lor_valid_busy]; apply land_set.
    + intros j Hj. split; [done|]. intros [= ->]. done.
  - intros n. rewrite (refs_insert n l i q q' Hq), S1. rewrite (decide_ext _ _ _ _ (Hu n)). lia.
  - rewrite (spare_insert l i q q' Hq). unfold unused in *. repeat case_decide; lia.
Qed.

(** [iget] of a live inode. *)
Lemma iget_slot_cases n l j q' :
  iget_slot ROOTDEV n l = Some (j, q') ->
  exists p, l !! j = Some p /\
    (in_use ROOTDEV n p /\ q' = set_iref (iref p + 1) p \/
     unused p /\ q' = set_iflags 0 (set_iref 1 (set_inum n (set_idev ROOTDEV p)))).
Proof.
  unfold iget_slot. destruct (list_find (in_use ROOTDEV n) l) as [[i p]|] eqn:E.
  - intros [= <- <-]. apply list_find_Some in E as (E1 & E2 & _). exists p. by auto.
  - destruct (list_find unused l) as [[i p]|] eqn:E'; [|done]. intros [= <- <-]. apply list_find_Some in E' as (E1 & E2 & _).
    exists p. by auto.
Qed.

Lemma table_get lk l n j q' :
  table_ok lk l -> live n -> iget_slot ROOTDEV n l = Some (j, q') ->
  (forall i p, lk = Some i -> l !! i = Some p -> 0 < iref p) ->
  table_ok lk (<[j := q']> l) /\ (forall m, refs m (<[j := q']> l) = refs m l + (if decide (m = n) then 1 else 0)) /\
  spare (<[j := q']> l) + (if decide (iref q' = 1) then 1 else 0) = spare l.
Proof.
  intros Ht Hn Hs Hlk. destruct (iget_slot_props _ _ _ _ _ Hs) as (Hj & Hu & Hun). specialize (Hun (to_unique _ _ Ht)).
  destruct (iget_slot_cases _ _ _ _ Hs) as (p & Hp & Hc). destruct (to_entry _ _ Ht j p Hp) as [E1 E2 E3 E4].
  split_and!.
  - apply (table_insert lk); [done|done| |done]. destruct Hc as [[(U1 & U2 & U3) ->]|[U ->]].
    + split; cbn [set_iref iref idev inum iflags]; [lia|by rewrite U3|by intros _ Hv; apply E3|by intros _; apply E4].
    + split; cbn [set_iflags set_iref set_inum set_idev iref idev inum iflags]; [lia|done|done|]. intros _.
      rewrite bool_decide_eq_false_2; [done|]. intros Ej. specialize (Hlk j p Ej Hp). unfold unused in U. lia.
  - intros m. rewrite (refs_insert m l j p q' Hp). destruct Hc as [[(U1 & U2 & U3) ->]|[U ->]].
    + unfold in_use. cbn [set_iref iref idev inum]. repeat case_decide; lia.
    + unfold in_use, unused in *. cbn [set_iflags set_iref set_inum set_idev iref idev inum]. repeat case_decide; lia.
  - rewrite (spare_insert l j p q' Hp). destruct Hc as [[(U1 & U2 & U3) ->]|[U ->]]; unfold unused in *;
      cbn [set_iflags set_iref set_inum set_idev iref]; repeat case_decide; lia.
Qed.

(** [iunlockput] of an entry. *)
Definition unlocked_put (q : inode_t) : inode_t :=
  set_iref (iref q - 1) (set_iflags (Z.land (iflags q) (Z.lnot I_BUSY)) q).

Lemma table_put l i q :
  table_ok (Some i) l -> l !! i = Some q -> 0 < iref q ->
  let q' := unlocked_put q in
  table_ok None (<[i := q']> l) /\ (forall m, refs m (<[i := q']> l) = refs m l - (if decide (m = inum q) then 1 else 0)) /\
  spare (<[i := q']> l) = spare l + (if decide (iref q = 1) then 1 else 0).
Proof.
  intros Ht Hq Hr q'. destruct (to_entry _ _ Ht i q Hq) as [E1 E2 E3 E4]. destruct (E2 Hr) as [E5 E6].
  split_and!.
  - apply (table_insert (Some i)); [done|by apply (unique_insert _ _ q); [apply Ht|done|]| |].
    + split; cbn [q' unlocked_put set_iref set_iflags iref idev inum iflags]; [lia|done| |].
      * intros _. rewrite land_busy_valid. by apply E3.
      * intros _. apply land_clear.
    + intros j Hj. split; [intros [= ->]|]; done.
  - intros m. rewrite (refs_insert m l i q q' Hq). unfold in_use. cbn [q' unlocked_put set_iref set_iflags iref idev inum].
    repeat case_decide; lia.
  - rewrite (spare_insert l i q q' Hq). unfold unused. cbn [q' unlocked_put set_iref set_iflags iref]. repeat case_decide; lia.
Qed.

End table.

Section put.
Context `{Symbols} `{Driver} {Hdrv : SyncDriver} `{DevSw}.

Lemma bio_only_woken ch s : bio_only s (woken ch s).
Proof.
  exists (k_bcache s), (k_disk s), (wake ch <$> k_ptable s). split; [by destruct s|]. intros Hp. by rewrite length_fmap.
Qed.

Lemma inode_of_some i q s : k_icache s !! i = Some q -> inode_of i s = q.
Proof. intros Hq. unfold inode_of. by rewrite Hq. Qed.

(** Unlocking an inode and dropping a reference that is not the last one of a deleted file. *)
Lemma wp_iunlockput s held cur dirt i q e (Q : unit -> env kernel -> kernel -> Prop) :
  cache s held cur dirt -> ready L_icache s -> k_icache s !! i = Some q ->
  Z.land (iflags q) I_BUSY = I_BUSY -> 0 < iref q -> inlink q <> 0 ->
  (forall s', cache s' held cur dirt -> ic (<[i := unlocked_put q]> (k_icache s)) s s' -> k_disk s' = k_disk s -> Q tt e s') ->
  wp (iunlockput i) Q e s.
Proof.
  intros Hc Hr Hq Hb Hpos Hln HQ. destruct (ca_ptable _ _ _ _ Hc) as [Hp Hpok].
  unfold iunlockput, iunlock, iput, iset. apply wp_bind, wp_bind, wp_get. rewrite (inode_of_some i q s Hq), Hb.
  rewrite (proj2 (Z.ltb_ge _ _)) by lia. cbn [cbool I_BUSY Z.eqb negb orb].
  apply wp_bind, wp_acquire; [done|]. apply wp_bind, wp_modify. set (un := fun q : inode_t => set_iflags (Z.land (iflags q) (Z.lnot I_BUSY)) q).
  apply wp_bind. eapply wp_intro; [apply wakeup_eq; [by apply (ready_acquired L_icache)|done]|].
  set (s1 := woken (Some (CH_inode i)) (on_inode i un s)). apply (wp_release _ _ _ _ s1); [done|done|].
  apply wp_bind, wp_acquire; [done|]. apply wp_bind, wp_get.
  assert (I1 : ic (<[i := un q]> (k_icache s)) s s1).
  { unfold s1. rewrite (on_inode_insert i q) by done. apply bio_only_woken. }
  assert (Eq1 : k_icache s1 !! i = Some (un q)).
  { rewrite (ic_icache _ _ _ I1). apply list_lookup_insert_eq. by eapply lookup_lt_Some. }
  change (inode_of i (acquired L_icache s1)) with (inode_of i s1). rewrite (inode_of_some i _ _ Eq1).
  change (inlink (un q)) with (inlink q). rewrite (proj2 (Z.eqb_neq _ _) Hln), andb_false_r.
  apply wp_bind, wp_ret, wp_bind, wp_modify. set (dec := fun q : inode_t => set_iref (iref q - 1) q).
  apply (wp_release _ _ _ _ (on_inode i dec s1)); [done|done|]. apply HQ.
  - apply cache_on_inode, cache_woken, cache_on_inode, Hc.
  - apply (ic_on_inode i (un q) dec); [by eapply lookup_lt_Some|done].
  - done.
Qed.

End put.
