(* ===== verification/FsName.v ===== *)
(** fs.c, [namei]: the search for a path, against the tree of directories on the disk.

    [walk] follows the elements of a path from inode to inode of the disk.  [namei]
    returns the inode at its end, with one more reference and no other change to the
    references that the inode table counts. *)

From S2P Require Import Prelude Params Mem State Spinlock Console Kalloc Vm VmTables VmSpace VmAlloc.
From S2P Require Import VmCopy Proc ProcSpec Ide Bio BioRing BioSpec BioProps Log LogSpec LogOps LogCrash.
From S2P Require Import Umem Fs FsSpec FsLock FsDir FsTable.

(** * Names *)

(** [strncmp] does not look beyond the NUL. *)
Lemma strncmp_prefix p p' q n : forall i,
  (forall k, i <= k < i + Z.of_nat n -> (forall m, i <= m < k -> p m <> 0) -> p k = p' k) ->
  strncmp p q i n = strncmp p' q i n.
Proof.
  induction n as [|n IH]; intros i Hp; [done|]. cbn [strncmp]. rewrite <- (Hp i) by lia.
  destruct (cbool (p i)) eqn:Ec; [|done]. cbn [andb]. destruct (p i =? q i); [|done]. apply IH.
  intros k Hk Hm. apply Hp; [lia|]. intros m Hm'. destruct (decide (m = i)) as [->|]; [|apply Hm; lia].
  unfold cbool in Ec. lia.
Qed.

(** The name that [namex] has taken from the path. *)
Definition word (w : list Z) : Z -> Z := lstr (take (Z.to_nat DIRSIZ) w).

Lemma lstr_nth l k : 0 <= k -> lstr l k = default 0 (l !! Z.to_nat k).
Proof. intros Hk. unfold lstr. by rewrite (proj2 (Z.ltb_ge _ _) Hk). Qed.

Lemma namecmp_named name w t : named name w -> namecmp (lstr name) t = namecmp (word w) t.
Proof.
  intros (Hl & Ht & Hz). unfold namecmp. apply strncmp_prefix. change (Z.to_nat DIRSIZ) with 14%nat in *. set (n := Nat.min (length w) 14) in *.
  intros k Hk Hm. unfold word. rewrite !lstr_nth by lia. change (Z.to_nat DIRSIZ) with 14%nat.
  destruct (decide (Z.to_nat k < n)%nat) as [Hlt|Hge].
  - apply (f_equal (fun l => l !! Z.to_nat k)) in Ht. rewrite !lookup_take_lt in Ht by lia. rewrite Ht. by rewrite lookup_take_lt by lia.
  - destruct (decide (Z.to_nat k = n)) as [E|Hne].
    + rewrite E, Hz by lia. simpl. rewrite lookup_ge_None_2; [done|]. rewrite length_take. lia.
    + exfalso. apply (Hm (Z.of_nat n)); [lia|]. rewrite lstr_nth, Nat2Z.id, Hz by lia. done.
Qed.

(** * The tree on the disk *)

Section tree.
Variables (cur : Z * Z -> list Z) (sb : superblock).

(** The inode number that directory [q] has for a name. *)
Definition dir_get (q : inode_t) (name : Z -> Z) : option Z :=
  match list_find (fun k => dir_hit name (dir_entry q cur k) = true) (seqZ 0 (isize q / 16)) with
  | Some (_, k) => Some (de_inum (dir_entry q cur k))
  | None => None
  end.

(** Follow a path from inode [n]. *)
Fixpoint walk (n : Z) (ws : list (list Z)) : option Z :=
  match ws with
  | [] => Some n
  | w :: ws' =>
      let q := disk_inode cur sb n in
      if itype q =? T_DIR then n' ← dir_get q (word w); walk n' ws' else None
  end.

Lemma looked_up_get name w q l r l' :
  named name w -> looked_up (lstr name) q cur l r l' ->
  match r with
  | None => dir_get q (word w) = None /\ l' = l
  | Some (ip, _) => exists n q', dir_get q (word w) = Some n /\ (exists k, 0 <= k < isize q / 16 /\ de_inum (dir_entry q cur k) = n /\ n <> 0) /\
      iget_slot (idev q) n l = Some (ip, q') /\ l' = <[ip := q']> l
  end.
Proof.
  intros Hw. assert (Eh : forall de, dir_hit (lstr name) de = dir_hit (word w) de).
  { intros de. unfold dir_hit. by rewrite (namecmp_named name w) by done. }
  unfold looked_up, dir_get. destruct r as [[ip off]|].
  - intros (k & q' & -> & Hk & Hh & Hno & Hs & ->). exists (de_inum (dir_entry q cur k)), q'.
    assert (Hf : list_find (fun k => dir_hit (word w) (dir_entry q cur k) = true) (seqZ 0 (isize q / 16)) = Some (Z.to_nat k, k)).
    { apply list_find_Some. split_and!.
      - rewrite lookup_seqZ_lt by lia. f_equal. lia.
      - by rewrite <- Eh.
      - intros j y Hj Hlt. apply lookup_seqZ in Hj as [-> Hj]. rewrite <- Eh, Hno by lia. done. }
    rewrite Hf. split_and!; [done| |done|done]. exists k. split_and!; [lia|lia|done|].
    apply andb_true_iff in Hh as [Hh _]. apply negb_true_iff in Hh. lia.
  - intros [Hno ->]. split; [|done].
    assert (Hf : list_find (fun k => dir_hit (word w) (dir_entry q cur k) = true) (seqZ 0 (isize q / 16)) = None).
    { apply list_find_None, Forall_lookup. intros j y Hj. apply lookup_seqZ in Hj as [-> Hj]. rewrite <- Eh, Hno by lia. done. }
    by rewrite Hf.
Qed.

End tree.

(** * One step of [namex] on the table *)

Definition one (P : Prop) `{Decision P} : Z := if decide P then 1 else 0.

Lemma busy_entry cur sb live i l q : table_ok cur sb live (Some i) l -> l !! i = Some q -> 0 < iref q -> Z.land (iflags q) I_BUSY = I_BUSY.
Proof. intros Ht Hq Hr. rewrite (eo_busy _ _ _ _ _ (to_entry _ _ _ _ _ Ht i q Hq) Hr). by rewrite bool_decide_eq_true_2. Qed.

Lemma step_found cur sb live ip l q n j p :
  table_ok cur sb live (Some ip) l -> l !! ip = Some q -> 0 < iref q -> live n -> iget_slot ROOTDEV n l = Some (j, p) ->
  2 <= spare l + one (iref q = 1) ->
  let l2 := <[j := p]> l in
  exists q2 p3, l2 !! ip = Some q2 /\ 0 < iref q2 /\ inlink q2 = inlink q /\ Z.land (iflags q2) I_BUSY = I_BUSY /\
    let l3 := <[ip := unlocked_put q2]> l2 in
    table_ok cur sb live None l3 /\ l3 !! j = Some p3 /\ 0 < iref p3 /\ inum p3 = n /\
    (forall m, refs m l3 = refs m l + one (m = n) - one (m = inum q)) /\ 2 <= spare l3 + one (iref p3 = 1).
Proof.
  intros Ht Hq Hr Hn Hs Hsp l2. destruct (iget_slot_props _ _ _ _ _ Hs) as (Hj & (U1 & U2 & U3) & _).
  assert (Hip : (ip < length l)%nat) by (by eapply lookup_lt_Some).
  destruct (table_get cur sb live (Some ip) l n j p Ht Hn Hs) as (Ht2 & Hr2 & Hs2).
  { intros i x [= <-] Hx. congruence. }
  fold l2 in Ht2, Hr2, Hs2. destruct (decide (j = ip)) as [->|Hne].
  - assert (Hp : l2 !! ip = Some p) by (by apply list_lookup_insert_eq).
    destruct (iget_slot_cases _ _ _ _ Hs) as (x & Hx & [[(V1 & V2 & V3) ->]|[V _]]); rewrite Hq in Hx; injection Hx as <-; [|unfold unused in V; lia].
    destruct (table_put cur sb live l2 ip _ Ht2 Hp U1) as (Ht3 & Hr3 & Hs3).
    eexists _, _. split_and!; [exact Hp|exact U1|done|by eapply busy_entry|]. intros l3. split_and!; [exact Ht3| | | | |].
    + apply list_lookup_insert_eq. unfold l2. by rewrite length_insert.
    + cbn [unlocked_put set_iref set_iflags iref]. lia.
    + done.
    + intros m. rewrite Hr3, Hr2. cbn [set_iref inum]. unfold one. rewrite V3. lia.
    + cbn [unlocked_put set_iref set_iflags iref] in *. fold l3 in Hs3. unfold one in *. rewrite Hs3. revert Hs2 Hsp. repeat case_decide; lia.
  - assert (Hp : l2 !! ip = Some q) by (unfold l2; by rewrite list_lookup_insert_ne).
    destruct (table_put cur sb live l2 ip q Ht2 Hp Hr) as (Ht3 & Hr3 & Hs3).
    exists q, p. split_and!; [exact Hp|exact Hr|done|by eapply busy_entry|]. intros l3. split_and!; [exact Ht3| |done|done| |].
    + unfold l3. rewrite list_lookup_insert_ne by done. by apply list_lookup_insert_eq.
    + intros m. rewrite Hr3, Hr2. unfold one. lia.
    + fold l3 in Hs3. unfold one in *. rewrite Hs3. lia.
Qed.

(** * [namex] *)

Section namei.
Context `{Symbols} `{Driver} {Hdrv : SyncDriver} `{DevSw}.
Variables (cur : Z * Z -> list Z) (sb : superblock) (live : Z -> Prop) (dirt : gset (Z * Z)).

(** A file system: the inodes in [live] can be read and have a type and a link, and what is in
    a directory of them is one of them. *)
Record tree_ok (s : kernel) : Prop := {
  tr_block : forall n, live n -> readable_block s [] ROOTDEV (IBLOCK n sb);
  tr_type : forall n, live n -> itype (disk_inode cur sb n) <> 0 /\ inlink (disk_inode cur sb n) <> 0;
  tr_dir : forall n, live n -> itype (disk_inode cur sb n) = T_DIR ->
    file_ok s [] cur (disk_inode cur sb n) /\ isize (disk_inode cur sb n) mod 16 = 0;
  tr_entry : forall n k, live n -> itype (disk_inode cur sb n) = T_DIR -> 0 <= k < isize (disk_inode cur sb n) / 16 ->
    de_inum (dir_entry (disk_inode cur sb n) cur k) <> 0 -> live (de_inum (dir_entry (disk_inode cur sb n) cur k))
}.

(** What of the state is as at the start [s]. *)
Record since (s t : kernel) : Prop := {
  si_cache : cache t [] cur dirt;
  si_disk : k_disk t = k_disk s;
  si_ic : ic (k_icache t) s t;
  si_table : table_ok cur sb live None (k_icache t)
}.

(** The walk has a reference to inode [n], entry [ip]. *)
Definition at_inode (s t : kernel) (ip : nat) (n : Z) : Prop :=
  since s t /\ (forall m, refs m (k_icache t) = refs m (k_icache s) + one (m = n)) /\
  exists q, k_icache t !! ip = Some q /\ 0 < iref q /\ inum q = n /\ 2 <= spare (k_icache t) + one (iref q = 1).

(** The walk has ended without one. *)
Definition given_back (s t : kernel) : Prop :=
  since s t /\ forall m, refs m (k_icache t) = refs m (k_icache s).

(** The part of the loop of [namex] after [skipelem]. *)
Definition namex_step (ip : nat) (path name : list Z) : K (nat * list Z * list Z + option nat * list Z) :=
  ilock (Some ip);;
  ty ← iget_f ip itype;
  if negb (ty =? T_DIR) then iunlockput ip;; mret (inr (None, name))
  else if false && bool_decide (path = []) then
    iunlock (Some ip);; mret (inr (Some ip, name))
  else
    next ← dirlookup ip (lstr name);
    match next with
    | None => iunlockput ip;; mret (inr (None, name))
    | Some (next, _) => iunlockput ip;; mret (inl (next, path, name))
    end.

Definition step_post (s : kernel) (n : Z) (w : list Z) (path name : list Z)
    (r : nat * list Z * list Z + option nat * list Z) (t : kernel) : Prop :=
  match r with
  | inl (ip', path', name') => path' = path /\ name' = name /\
      exists n', (forall ws, walk cur sb n (w :: ws) = walk cur sb n' ws) /\ at_inode s t ip' n'
  | inr (ip', _) => ip' = None /\ (forall ws, walk cur sb n (w :: ws) = None) /\ given_back s t
  end.

(** Inode [n] is locked, as entry [ip]. *)
Record dir_held (s t : kernel) (ip : nat) (n : Z) (q : inode_t) : Prop := {
  ho_cache : cache t [] cur dirt;
  ho_disk : k_disk t = k_disk s;
  ho_ic : ic (k_icache t) s t;
  ho_table : table_ok cur sb live (Some ip) (k_icache t);
  ho_entry : k_icache t !! ip = Some q;
  ho_ref : 0 < iref q;
  ho_inode : bare q = disk_inode cur sb n;
  ho_live : live n;
  ho_refs : forall m, refs m (k_icache t) = refs m (k_icache s) + one (m = n);
  ho_spare : 2 <= spare (k_icache t) + one (iref q = 1)
}.

(** What of a locked inode is as on the disk. *)
Lemma held_fields s t ip n q : dir_held s t ip n q ->
  idev q = ROOTDEV /\ inum q = n /\ itype q = itype (disk_inode cur sb n) /\ inlink q = inlink (disk_inode cur sb n) /\
  isize q = isize (disk_inode cur sb n) /\ (forall k, dir_entry q cur k = dir_entry (disk_inode cur sb n) cur k) /\
  (forall name, dir_get cur q name = dir_get cur (disk_inode cur sb n) name) /\
  (file_ok s [] cur (disk_inode cur sb n) -> file_ok t [] cur q).
Proof.
  intros [_ _ _ _ _ _ Hb _ _ _]. rewrite <- Hb. split_and!; try done.
  - by apply (f_equal idev) in Hb.
  - by apply (f_equal inum) in Hb.
  - intros Hf. apply (file_ok_none s). destruct Hf. by split.
Qed.

(** Unlocking and dropping a reference to what is locked. *)
Lemma wp_give_back s t e ip q {A} (r : A) (Q : A -> env kernel -> kernel -> Prop) :
  ready L_icache s -> cache t [] cur dirt -> k_disk t = k_disk s -> ic (k_icache t) s t ->
  k_icache t !! ip = Some q -> Z.land (iflags q) I_BUSY = I_BUSY -> 0 < iref q -> inlink q <> 0 ->
  (forall t', cache t' [] cur dirt -> k_disk t' = k_disk s -> ic (k_icache t') s t' ->
     k_icache t' = <[ip := unlocked_put q]> (k_icache t) -> Q r e t') ->
  wp (iunlockput ip;; mret r) Q e t.
Proof.
  intros Hr Hc Hd Hic Hq Hb Hpos Hln HQ. apply wp_bind.
  eapply (wp_iunlockput t [] cur dirt ip q); [done|by eapply ic_ready|done..|].
  intros t' Hc' Hic' Hd'. apply wp_ret, HQ; [done|congruence| |by eapply ic_icache].
  rewrite (ic_icache _ _ _ Hic'). by eapply ic_trans.
Qed.

Section step.
Context (s : kernel) (Hready : ready L_icache s) (Hsb : k_sb s = sb) (Hroom : (size dirt < head)%nat) (Htree : tree_ok s).

Lemma wp_lock_step t ip n e (Q : unit -> env kernel -> kernel -> Prop) :
  at_inode s t ip n -> (forall t1 q1, dir_held s t1 ip n q1 -> Q tt e t1) -> wp (ilock (Some ip)) Q e t.
Proof.
  intros ([Hc Hd Hic Ht] & Hrefs & q & Hq & Hpos & Hn & Hsp) HQ. set (l := k_icache t) in *.
  destruct (eo_dev _ _ _ _ _ (to_entry _ _ _ _ _ Ht ip q Hq) Hpos) as [Hdev Hlive].
  rewrite Hn in Hlive. destruct (tr_type _ Htree n Hlive) as [Hty Hln].
  destruct (table_lock cur sb live l ip q Ht Hq Hpos) as (Ht1 & Hb & R1 & R2 & R3 & Hr1 & Hs1).
  rewrite Hn in Hb. set (q1 := locked_inode cur sb q) in *. assert (Hip : (ip < length l)%nat) by (by eapply lookup_lt_Some).
  eapply (wp_ilock t [] cur dirt); [done|simpl; lia| |].
  { split; fold l; rewrite ?(inode_of_some ip q t Hq), ?(ic_sb _ _ _ Hic), ?Hsb.
    - done.
    - by eapply ic_ready.
    - lia.
    - apply (eo_busy _ _ _ _ _ (to_entry _ _ _ _ _ Ht ip q Hq) Hpos).
    - by rewrite Hdev.
    - rewrite Hdev, Hn. destruct (tr_block _ Htree n Hlive) as (B1 & B2 & _). split_and!; [done|done|by intros c ?%elem_of_nil].
    - left. fold q1. change (itype (bare q1) <> 0). by rewrite Hb. }
  rewrite (inode_of_some ip q t Hq), (ic_sb _ _ _ Hic), Hsb. fold q1 l. intros t1 Hc1 Hic1 Hd1.
  pose proof (ic_icache _ _ _ Hic1) as El. apply (HQ t1 q1). split; rewrite ?El; [done|congruence|by eapply ic_trans|done| |lia|done|done| |].
  - by apply list_lookup_insert_eq.
  - intros m. by rewrite Hr1, Hrefs.
  - by rewrite Hs1, R1.
Qed.

Lemma wp_back_step t ip n q e {A} (r : A) (Q : A -> env kernel -> kernel -> Prop) :
  dir_held s t ip n q -> (forall t', given_back s t' -> Q r e t') -> wp (iunlockput ip;; mret r) Q e t.
Proof.
  intros Hh HQ. destruct (held_fields _ _ _ _ _ Hh) as (F1 & F2 & F3 & F4 & _). destruct Hh as [Hc Hd Hic Ht Hq Hpos Hb Hl Hrefs Hsp].
  destruct (table_put cur sb live _ ip q Ht Hq Hpos) as (Ht3 & Hr3 & _).
  apply (wp_give_back s t e ip q); [done|done|done|done|done|by eapply busy_entry|done|rewrite F4; by apply (tr_type _ Htree)|].
  intros t' Hc' Hd' Hic' E'. apply HQ. split; [split; [done|done|done|by rewrite E']|].
  intros m. rewrite E', Hr3, Hrefs, F2. unfold one. lia.
Qed.

(** The next inode was found: unlocking the directory leaves the walk there. *)
Definition moving (t : kernel) (ip j : nat) (n' : Z) : Prop :=
  forall e A (r : A) (Q : A -> env kernel -> kernel -> Prop),
    (forall t', at_inode s t' j n' -> Q r e t') -> wp (iunlockput ip;; mret r) Q e t.

Lemma wp_search_step t ip n q name w e :
  dir_held s t ip n q -> itype q = T_DIR -> named name w ->
  wp (dirlookup ip (lstr name)) (fun r e' t' => e' = e /\
    match r with
    | None => dir_get cur (disk_inode cur sb n) (word w) = None /\ dir_held s t' ip n q
    | Some (j, _) => exists n', dir_get cur (disk_inode cur sb n) (word w) = Some n' /\ moving t' ip j n'
    end) e t.
Proof.
  intros Hh Hty Hw. destruct (held_fields _ _ _ _ _ Hh) as (F1 & F2 & F3 & F4 & F5 & F6 & F7 & F8).
  pose proof Hh as [Hc Hd Hic Ht Hq Hpos Hb Hl Hrefs Hsp]. rewrite F3 in Hty. destruct (tr_dir _ Htree n Hl Hty) as [Hfile Hmod].
  pose proof (inode_of_some ip q t Hq) as Einode.
  destruct (dirlookup_ok t cur dirt ip (lstr name) e Hc Hroom) as (r & t2 & Hrun & Hc2 & Hd2 & l2 & Hic2 & Hlook).
  { split; rewrite ?Einode; [by rewrite F3|by apply F8|by rewrite F5|by eapply ic_ready|by apply Ht|].
    apply spare_exists. unfold one in Hsp. destruct (decide _); lia. }
  eapply wp_intro; [exact Hrun|]. split; [done|]. rewrite Einode in Hlook. apply (looked_up_get cur _ w) in Hlook; [|done].
  rewrite F7 in Hlook. pose proof (ic_icache _ _ _ Hic2) as El2. destruct r as [[j off]|].
  2: { destruct Hlook as [Hg ->]. split; [done|]. split; rewrite ?El2; [done|congruence|by eapply ic_trans|done..]. }
  destruct Hlook as (n' & p & Hg & (k & Hk & Hkn & Hn0) & Hslot & ->). exists n'. split; [done|]. rewrite F1 in Hslot. rewrite F6 in Hkn. rewrite F5 in Hk.
  assert (Hlive' : live n') by (rewrite <- Hkn; apply (tr_entry _ Htree n k); [done|done|done|congruence]).
  destruct (step_found cur sb live ip _ q n' j p Ht Hq Hpos Hlive' Hslot Hsp) as (q2 & p3 & G1 & G2 & G3 & G4 & G5 & G6 & G7 & G8 & G9 & G10).
  intros e2 A r Q HQ. apply (wp_give_back s t2 e2 ip q2); rewrite ?El2; [done|done|congruence|by eapply ic_trans|done|done|done| |].
  - rewrite G3, F4. by apply (tr_type _ Htree).
  - intros t' Hc' Hd' Hic' E'. apply HQ. split; [split; [done|done|done|by rewrite E']|]. rewrite E'. split.
    + intros m. rewrite G9, Hrefs, F2. unfold one. lia.
    + by exists p3.
Qed.

Lemma wp_namex_step t ip n w path name e :
  at_inode s t ip n -> named name w ->
  wp (namex_step ip path name) (fun r e' t' => e' = e /\ step_post s n w path name r t') e t.
Proof.
  intros Hat Hw. unfold namex_step. apply wp_bind. eapply wp_lock_step; [done|]. intros t1 q1 Hh.
  destruct (held_fields _ _ _ _ _ Hh) as (F1 & F2 & F3 & _). apply wp_bind, wp_get.
  rewrite (inode_of_some ip q1 t1 (ho_entry _ _ _ _ _ Hh)).
  destruct (Z.eqb_spec (itype q1) T_DIR) as [Hdir|Hdir]; cbn [negb andb]; rewrite F3 in Hdir.
  2: { eapply wp_back_step; [done|]. intros t' Hb. split; [done|]. split_and!; [done| |done].
       intros ws. cbn [walk]. by rewrite (proj2 (Z.eqb_neq _ _) Hdir). }
  apply wp_bind. eapply wp_mono; [apply (wp_search_step t1 ip n q1 name w); [done|by rewrite F3|done]|].
  intros [[j off]|] e' t2 [-> Hpost].
  - destruct Hpost as (n' & Hg & Hm). apply Hm. intros t' Hat'. split; [done|]. split_and!; [done|done|]. exists n'. split; [|done].
    intros ws. cbn [walk]. by rewrite (proj2 (Z.eqb_eq _ _) Hdir), Hg.
  - destruct Hpost as [Hg Hh2]. eapply wp_back_step; [done|]. intros t' Hb. split; [done|]. split_and!; [done| |done].
    intros ws. cbn [walk]. by rewrite (proj2 (Z.eqb_eq _ _) Hdir), Hg.
Qed.

(** The loop, from an inode that the walk has a reference to. *)
Lemma wp_namex_loop t ip n path name e :
  at_inode s t ip n -> length name = Z.to_nat DIRSIZ ->
  wp (loop (S (length path)) (fun '(ip, path, name) =>
    match skipelem path name with
    | None => if false then iput ip;; mret (inr (None, name)) else mret (inr (Some ip, name))
    | Some (path, name) => namex_step ip path name
    end) (ip, path, name)) (fun r e' t' => e' = e /\
    match walk cur sb n (elems path) with
    | Some m => exists ip', r.1 = Some ip' /\ at_inode s t' ip' m
    | None => r.1 = None /\ given_back s t'
    end) e t.
Proof.
  intros Hat Hlen. set (res := walk cur sb n (elems path)).
  apply (wp_loop (fun '(ip, path, name) e' t' => e' = e /\ length name = Z.to_nat DIRSIZ /\
    exists n, at_inode s t' ip n /\ walk cur sb n (elems path) = res) (fun '(_, path, _) => length path)); [lia|by eauto|].
  clearbody res. clear ip n path name t Hat Hlen. intros [[ip path] name] e' t (-> & Hlen & n & Hat & <-).
  pose proof (skipelem_ok path name Hlen) as Hsk. destruct (elems path) as [|w ws].
  - rewrite Hsk. apply wp_ret. split; [done|]. by exists ip.
  - destruct Hsk as (rest & name' & -> & Hw & <- & _ & Hlt).
    eapply wp_mono; [by apply (wp_namex_step t ip n w)|]. intros [[[ip' path'] name2]|[r nm]] e' t' [-> Hpost].
    + destruct Hpost as (-> & -> & n' & Hwalk & Hat'). split; [|done]. split_and!; [done|apply Hw|]. exists n'. by rewrite Hwalk.
    + destruct Hpost as (-> & Hwalk & Hb). rewrite Hwalk. by split_and!.
Qed.

End step.

(** Where the walk starts: the root, or the current directory of the process. *)
Definition starts_at (s : kernel) (path : list Z) (n : Z) : Prop :=
  if match path with c :: _ => c =? chr "/" | [] => false end then n = ROOTINO
  else exists p d q, cpu_proc (k_cpu s) = Some p /\ cwd (proc_of p s) = Some d /\ k_icache s !! d = Some q /\
         0 < iref q /\ inum q = n.

Lemma start_at_root s e :
  ready L_icache s -> cache s [] cur dirt -> table_ok cur sb live None (k_icache s) -> 2 <= spare (k_icache s) -> live ROOTINO ->
  exists ip t, iget ROOTDEV ROOTINO e s = Done ip e t /\ at_inode s t ip ROOTINO.
Proof.
  intros Hr Hc Ht Hsp Hl. destruct (iget_slot_some ROOTDEV ROOTINO (k_icache s)) as (j & q & Hs); [apply spare_exists; lia|].
  exists j, (set_k_icache (<[j := q]> (k_icache s)) s). rewrite iget_eq, Hs by (done || apply Ht). split; [done|].
  destruct (table_get cur sb live None _ _ _ _ Ht Hl Hs) as (Ht2 & Hr2 & Hs2); [done|].
  destruct (iget_slot_props _ _ _ _ _ Hs) as (Hj & (U1 & U2 & U3) & _). split_and!.
  - split; [by apply cache_set_icache|done|apply ic_set|done].
  - exact Hr2.
  - exists q. split_and!; [by apply list_lookup_insert_eq|done|done|]. cbn [k_icache set_k_icache]. unfold one. lia.
Qed.

Lemma start_at_cwd s e d q :
  ready L_icache s -> cache s [] cur dirt -> table_ok cur sb live None (k_icache s) -> 2 <= spare (k_icache s) ->
  k_icache s !! d = Some q -> 0 < iref q ->
  exists t, idup d e s = Done d e t /\ at_inode s t d (inum q).
Proof.
  intros Hr Hc Ht Hsp Hq Hpos. destruct (eo_dev _ _ _ _ _ (to_entry _ _ _ _ _ Ht d q Hq) Hpos) as [Hdev Hl].
  assert (Hs : iget_slot ROOTDEV (inum q) (k_icache s) = Some (d, set_iref (iref q + 1) q)).
  { unfold iget_slot. rewrite (proj2 (list_find_Some _ _ d q)); [done|]. split_and!; [done|done|].
    intros j y Hj Hlt (V1 & V2 & V3). pose proof (to_unique _ _ _ _ _ Ht j d y q Hj Hq V1 Hpos ltac:(congruence) V3). lia. }
  exists (set_k_icache (<[d := set_iref (iref q + 1) q]> (k_icache s)) s). split.
  { unfold idup, iset. erewrite bind_Done by (by apply acquire_ready). erewrite bind_Done by done.
    rewrite on_inode_acquired. erewrite bind_Done by (by apply release_acquired). by rewrite (on_inode_insert d q) by done. }
  destruct (table_get cur sb live None _ _ _ _ Ht Hl Hs) as (Ht2 & Hr2 & Hs2); [done|]. split_and!.
  - split; [by apply cache_set_icache|done|apply ic_set|done].
  - exact Hr2.
  - eexists. split_and!; [apply list_lookup_insert_eq; by eapply lookup_lt_Some|cbn [set_iref iref]; lia|done|].
    cbn [k_icache set_k_icache]. unfold one. cbn [set_iref iref] in *. lia.
Qed.

(** The state that [namei] is called in. *)
Record names_ok (s : kernel) : Prop := {
  no_cache : cache s [] cur dirt;
  no_room : (size dirt < head)%nat;
  no_ready : ready L_icache s;
  no_sb : k_sb s = sb;
  no_table : table_ok cur sb live None (k_icache s);
  no_spare : 2 <= spare (k_icache s);
  no_tree : tree_ok s;
  no_root : live ROOTINO
}.

Lemma namei_ok s path n e :
  names_ok s -> starts_at s path n ->
  exists r t, namei path e s = Done r e t /\
    match walk cur sb n (elems path) with
    | Some m => exists ip, r = Some ip /\ at_inode s t ip m
    | None => r = None /\ given_back s t
    end.
Proof.
  intros [Hc Hroom Hr Hsb Ht Hsp Htr Hroot] Hst.
  assert (Hw : wp (namei path) (fun r e' t => e' = e /\
    match walk cur sb n (elems path) with
    | Some m => exists ip, r = Some ip /\ at_inode s t ip m
    | None => r = None /\ given_back s t
    end) e s).
  2: { apply wp_elim in Hw as (r & e' & t & Hrun & -> & Hpost). by exists r, t. }
  unfold namei. apply wp_bind. unfold namex. apply wp_bind.
  assert (Hloop : forall t ip, at_inode s t ip n -> wp (loop (S (length path)) (fun '(ip, path, name) =>
    match skipelem path name with
    | None => if false then iput ip;; mret (inr (None, name)) else mret (inr (Some ip, name))
    | Some (path, name) => namex_step ip path name
    end) (ip, path, replicate (Z.to_nat DIRSIZ) 0)) (fun r e' t' => wp (mret r.1) (fun r e' t => e' = e /\
    match walk cur sb n (elems path) with
    | Some m => exists ip, r = Some ip /\ at_inode s t ip m
    | None => r = None /\ given_back s t
    end) e' t') e t).
  { intros t ip Hat. eapply wp_mono; [by apply (wp_namex_loop s Hr Hsb Hroom Htr t ip n)|]. intros r e' t' Hpost. by apply wp_ret. }
  destruct (start_at_root s e Hr Hc Ht Hsp Hroot) as (rt & t0 & Hget & Hat0). unfold starts_at in Hst.
  destruct path as [|c path]; [|destruct (c =? chr "/")].
  2: { subst n. eapply wp_intro; [exact Hget|]. by apply Hloop. }
  all: destruct Hst as (p & d & q & E1 & E2 & Hq & Hpos & <-); unfold myproc, pget; apply wp_bind, wp_bind, wp_get; rewrite E1;
    apply wp_ret, wp_bind, wp_get; rewrite E2; destruct (start_at_cwd s e d q Hr Hc Ht Hsp Hq Hpos) as (t1 & Hdup & Hat1);
    eapply wp_intro; [exact Hdup|]; by apply Hloop.
Qed.

(** C5: [namei] follows a path as the directories of the disk have it, from the root for a
    path that starts with a slash and else from the current directory.  When every element but
    the last is a directory that has the next, it returns an entry of the inode table for the
    inode at the end and the table counts one more reference to this inode, and no other
    change; otherwise it returns 0 and the table counts the references it did before.  No inode
    stays locked, and the cache and the disk keep their contents.  The inode table has two unused entries. *)
Theorem namei_spec s path n e :
  names_ok s -> starts_at s path n ->
  exists r t, namei path e s = Done r e t /\ cache t [] cur dirt /\ k_disk t = k_disk s /\
    table_ok cur sb live None (k_icache t) /\
    match walk cur sb n (elems path) with
    | Some m => exists ip q, r = Some ip /\ k_icache t !! ip = Some q /\ in_use ROOTDEV m q /\
        forall m', refs m' (k_icache t) = refs m' (k_icache s) + one (m' = m)
    | None => r = None /\ forall m', refs m' (k_icache t) = refs m' (k_icache s)
    end.
Proof.
  intros Hn Hst. destruct (namei_ok s path n e Hn Hst) as (r & t & Hrun & Hpost). exists r, t. split; [done|].
  destruct (walk cur sb n (elems path)) as [m|].
  - destruct Hpost as (ip & -> & [Hc Hd Hic Ht] & Hrefs & q & Hq & Hpos & Hm & _). split_and!; [done..|].
    exists ip, q. split_and!; [done|done| |done]. destruct (eo_dev _ _ _ _ _ (to_entry _ _ _ _ _ Ht ip q Hq) Hpos). by split_and!.
  - destruct Hpost as (-> & [Hc Hd Hic Ht] & Hrefs). by split_and!.
Qed.

End namei.
