(* ===== verification/FsAlloc.v ===== *)
(** Allocating disk blocks: the bitmap of free blocks, [balloc] and [bzero] of fs.c. *)

From S2P Require Import Prelude Params Mem State Spinlock Console Kalloc Vm VmTables VmSpace VmAlloc.
From S2P Require Import VmCopy Proc ProcSpec Ide Bio BioRing BioSpec BioProps Log LogSpec LogOps LogCrash.
From S2P Require Import Umem Fs FsSpec.

(** * Bits of a block *)

(** Bit [bi] of a block of bytes. *)
Definition bit_of (d : list Z) (bi : Z) : bool := Z.testbit (lget d (Z.to_nat (bi / 8))) (bi mod 8).

Lemma bit_test_of d bi : bit_test d bi = bit_of d bi.
Proof.
  unfold bit_test, bit_of, bit_mask. rewrite Z.shiftl_1_l.
  assert (0 <= bi mod 8) by (apply Z.mod_pos_bound; lia). rewrite land_pow2 by done.
  destruct (Z.testbit _ _); [|done]. unfold cbool. apply negb_true_iff, Z.eqb_neq.
  pose proof (Z.pow_pos_nonneg 2 (bi mod 8)). lia.
Qed.

Lemma u8_testbit x k : 0 <= k < 8 -> Z.testbit (u8 x) k = Z.testbit x k.
Proof. intros Hk. unfold u8. change 256 with (2 ^ 8). by rewrite Z.mod_pow2_bits_low by lia. Qed.

Lemma bit_set_of d bi bj :
  0 <= bi -> 0 <= bj -> (Z.to_nat (bi / 8) < length d)%nat ->
  bit_of (bit_set d bi) bj = bool_decide (bi = bj) || bit_of d bj.
Proof.
  intros Hi Hj Hl. unfold bit_of, bit_set. pose proof (Z.mod_pos_bound bj 8 ltac:(lia)) as Hbj.
  pose proof (Z.mod_pos_bound bi 8 ltac:(lia)) as Hbi.
  destruct (decide (bi / 8 = bj / 8)) as [E|E].
  - rewrite E in *. rewrite lget_insert_eq by done. rewrite u8_testbit, Z.lor_spec by done. unfold bit_mask.
    rewrite Z.shiftl_1_l, Z.pow2_bits_eqb by lia. rewrite orb_comm. f_equal. case_bool_decide.
    + subst. by apply Z.eqb_refl.
    + apply Z.eqb_neq. intros E2. mlia.
  - rewrite lget_insert_ne by mlia. by rewrite bool_decide_false by congruence.
Qed.

Lemma bit_clear_of d bi bj :
  0 <= bi -> 0 <= bj -> (Z.to_nat (bi / 8) < length d)%nat ->
  bit_of (bit_clear d bi) bj = negb (bool_decide (bi = bj)) && bit_of d bj.
Proof.
  intros Hi Hj Hl. unfold bit_of, bit_clear. pose proof (Z.mod_pos_bound bj 8 ltac:(lia)) as Hbj.
  pose proof (Z.mod_pos_bound bi 8 ltac:(lia)) as Hbi.
  destruct (decide (bi / 8 = bj / 8)) as [E|E].
  - rewrite E in *. rewrite lget_insert_eq by done. rewrite u8_testbit, Z.land_spec, Z.lnot_spec by lia. unfold bit_mask.
    rewrite Z.shiftl_1_l, Z.pow2_bits_eqb by lia. rewrite andb_comm. f_equal. f_equal. case_bool_decide.
    + subst. by apply Z.eqb_refl.
    + apply Z.eqb_neq. intros E2. mlia.
  - rewrite lget_insert_ne by mlia. by rewrite bool_decide_false by congruence.
Qed.

(** The search of [balloc] in one block of the bitmap. *)
Lemma first_clear_spec d b size bi fuel :
  0 <= bi <= BPB -> (Z.to_nat (BPB - bi) < fuel)%nat ->
  match first_clear d b size bi fuel with
  | Some x => bi <= x < BPB /\ b + x < size /\ bit_of d x = false /\ forall y, bi <= y < x -> bit_of d y = true
  | None => forall y, bi <= y < BPB -> b + y < size -> bit_of d y = true
  end.
Proof.
  revert bi. induction fuel as [|fuel IH]; intros bi Hb Hf; [lia|]. cbn [first_clear]. rewrite bit_test_of.
  destruct (_ && _) eqn:E; [|intros y Hy Hs; lia].
  destruct (bit_of d bi) eqn:Eb.
  - specialize (IH (bi + 1) ltac:(lia) ltac:(lia)). destruct (first_clear _ _ _ _ _) as [x|].
    + destruct IH as (H1 & H2 & H3 & H4). split_and!; [lia|lia|done|done|]. intros y Hy.
      destruct (decide (y = bi)) as [->|]; [done|]. apply H4. lia.
    + intros y Hy Hs. destruct (decide (y = bi)) as [->|]; [done|]. apply IH; lia.
  - split_and!; [lia|lia|lia|done|]. intros y Hy. lia.
Qed.

(** * balloc *)

Lemma size_add (X : gset (Z * Z)) k : (size (X ∪ {[k]}) <= size X + 1)%nat.
Proof.
  rewrite size_union_alt. assert (size ({[k]} ∖ X) <= size ({[k]} : gset (Z * Z)))%nat by (apply subseteq_size; set_solver).
  rewrite size_singleton in *. lia.
Qed.

Section balloc.
Context `{Symbols} `{Driver} {Hdrv : SyncDriver}.

(** Whether the bitmap says that block [x] is in use. *)
Definition used (dev : Z) (sb : superblock) (cur : Z * Z -> list Z) (x : Z) : bool :=
  bit_of (cur (dev, BBLOCK x sb)) (x mod BPB).

(** A block that an operation can change while [held] are held. *)
Record writable_block (s : kernel) (held : list nat) (dv start bn : Z) : Prop := {
  wb_range : 0 <= bn < 4294967296;
  wb_log : ~ in_log start bn;
  wb_serves : serves dv bn;
  wb_free : forall c, c ∈ held -> key (buf_of c s) <> (dv, bn)
}.

(** The blocks of the bitmap, and the blocks that it says are free. *)
Record bitmap_ok (s : kernel) (held : list nat) (dv start : Z) (sb : superblock) (cur : Z * Z -> list Z) : Prop := {
  bo_dev : dv <> nodev;
  bo_map : forall x, 0 <= x < sb_size sb ->
    writable_block s held dv start (BBLOCK x sb) /\ length (cur (dv, BBLOCK x sb)) = Z.to_nat BSIZE;
  bo_free : forall x, 0 <= x < sb_size sb -> used dv sb cur x = false ->
    writable_block s held dv start x /\ forall y, 0 <= y < sb_size sb -> BBLOCK y sb <> x
}.

Lemma writable_same s s' held dv start bn :
  (forall c, c ∈ held -> key (buf_of c s') = key (buf_of c s)) ->
  writable_block s held dv start bn -> writable_block s' held dv start bn.
Proof. intros E [H1 H2 H3 H4]. split; try done. intros c Hc. rewrite E by done. by apply H4. Qed.

Lemma wp_bzero s held cur dirt e dv start n bn (Q : unit -> env kernel -> kernel -> Prop) :
  cache s held cur dirt -> in_op dv start n dirt s -> dv <> nodev -> writable_block s held dv start bn ->
  (size dirt + length held < head)%nat -> Z.of_nat n < LOGSIZE - 1 ->
  (forall s' n', (n' <= S n)%nat -> cache s' held (upd_cur (dv, bn) zero_block cur) (dirt ∪ {[(dv, bn)]}) ->
     in_op dv start n' (dirt ∪ {[(dv, bn)]}) s' -> (forall c, c ∈ held -> key (buf_of c s') = key (buf_of c s)) ->
     fs_only s s' -> Q tt e s') ->
  wp (bzero dv bn) Q e s.
Proof.
  intros Hc Hop Hdev [Hr Hl Hs Hh] Hroom Hn HQ. unfold bzero. apply wp_bind.
  eapply (wp_bread s held cur dirt); [done..|by right|]. intros b s1 Hb Hc1 Hk1 Hsame _ Ho1.
  eapply (wp_write_release_last s1 b held); [done|by eapply in_op_bio|done|done|done..|].
  intros s2 n' Hn' Hc2 Hop2 Hk2 Ho2. eapply HQ; [done|done|done| |eauto with frame].
  intros c Hin. by rewrite Hk2, Hsame.
Qed.

(** Marking a block as used changes no other bit. *)
Lemma used_set dv sb cur x y :
  0 <= x -> 0 <= y -> length (cur (dv, BBLOCK x sb)) = Z.to_nat BSIZE ->
  x / BPB + sb_bmapstart sb < 4294967296 -> y / BPB + sb_bmapstart sb < 4294967296 -> 0 <= sb_bmapstart sb ->
  used dv sb (upd_cur (dv, BBLOCK x sb) (bit_set (cur (dv, BBLOCK x sb)) (x mod BPB)) cur) y =
  bool_decide (x = y) || used dv sb cur y.
Proof.
  intros Hx Hy Hlen Hbx Hby Hb0. unfold used, upd_cur.
  pose proof (Z.mod_pos_bound x BPB ltac:(lia)). pose proof (Z.mod_pos_bound y BPB ltac:(lia)).
  assert (EB : forall z, 0 <= z -> z / BPB + sb_bmapstart sb < 4294967296 -> BBLOCK z sb = z / BPB + sb_bmapstart sb).
  { intros z Hz Hzb. unfold BBLOCK. apply u32_small. mlia. }
  destruct (decide _) as [[= E]|Hne].
  - rewrite E in *. rewrite bit_set_of; [|lia|lia|rewrite Hlen; mlia]. f_equal.
    rewrite !EB in E by done. apply bool_decide_ext. split; [|by intros ->]. intros E2. mlia.
  - rewrite bool_decide_false; [done|]. intros ->. congruence.
Qed.

(** Rounds of the outer loop of [balloc] from block [b] on. *)
Definition map_rounds (size b : Z) : nat := if b <? size then Z.to_nat ((size - b) / BPB + 1) else 0.

Lemma map_rounds_fuel size : 0 <= size -> (map_rounds size 0 < Z.to_nat (size / BPB + 2))%nat.
Proof. intros Hs. unfold map_rounds. destruct (_ <? _); mlia. Qed.

Lemma map_rounds_next size b : 0 <= b < size -> (map_rounds size (b + BPB) < map_rounds size b)%nat.
Proof. intros Hb. unfold map_rounds. destruct (b <? size) eqn:E; [|lia]. destruct (b + BPB <? size) eqn:E2; mlia. Qed.

(** The bit that [balloc] found: the first free block. *)
Lemma found_first dv sb cur b bi :
  0 <= b -> b mod BPB = 0 -> 0 <= bi < BPB ->
  (forall y, 0 <= y < b -> used dv sb cur y = true) ->
  bit_of (cur (dv, BBLOCK b sb)) bi = false -> (forall y, 0 <= y < bi -> bit_of (cur (dv, BBLOCK b sb)) y = true) ->
  BBLOCK (b + bi) sb = BBLOCK b sb /\ (b + bi) mod BPB = bi /\
  used dv sb cur (b + bi) = false /\ forall y, 0 <= y < b + bi -> used dv sb cur y = true.
Proof.
  intros Hb Hm Hbi Hall Hclear Hset.
  assert (EB : forall z, 0 <= z < BPB -> BBLOCK (b + z) sb = BBLOCK b sb /\ (b + z) mod BPB = z).
  { intros z Hz. unfold BBLOCK. split; [f_equal; f_equal|]; mlia. }
  destruct (EB bi Hbi) as [E1 E2]. split_and!; [done|done| |].
  - unfold used. by rewrite E1, E2.
  - intros y Hy. destruct (decide (y < b)); [apply Hall; lia|].
    destruct (EB (y - b) ltac:(lia)) as [F1 F2]. replace (b + (y - b)) with y in F1, F2 by lia.
    unfold used. rewrite F1, F2. apply Hset. lia.
Qed.

Lemma used_rest dv sb cur b (size : Z) :
  0 <= b -> b mod BPB = 0 ->
  (forall y, 0 <= y < b -> y < size -> used dv sb cur y = true) ->
  (forall y, 0 <= y < BPB -> b + y < size -> bit_of (cur (dv, BBLOCK b sb)) y = true) ->
  forall y, 0 <= y < b + BPB -> y < size -> used dv sb cur y = true.
Proof.
  intros Hb Hm Hall Hset y Hy Hys. destruct (decide (y < b)); [apply Hall; lia|].
  assert (BBLOCK y sb = BBLOCK b sb /\ y mod BPB = y - b) as [E1 E2].
  { unfold BBLOCK. split; [f_equal; f_equal|]; mlia. }
  unfold used. rewrite E1, E2. apply Hset; lia.
Qed.

(** The bitmap and the contents after [balloc] took block [x]. *)
Definition taken (dv : Z) (sb : superblock) (x : Z) (cur : Z * Z -> list Z) : Z * Z -> list Z :=
  upd_cur (dv, x) zero_block
    (upd_cur (dv, BBLOCK x sb) (bit_set (cur (dv, BBLOCK x sb)) (x mod BPB)) cur).

Lemma taken_used s held dv start sb cur x y :
  bitmap_ok s held dv start sb cur -> 0 <= x < sb_size sb -> 0 <= y < sb_size sb -> used dv sb cur x = false ->
  0 <= sb_bmapstart sb -> sb_size sb / BPB + sb_bmapstart sb < 4294967296 ->
  used dv sb (taken dv sb x cur) y = bool_decide (x = y) || used dv sb cur y.
Proof.
  intros Hok Hx Hy Hfree Hb0 Hb. destruct (bo_free _ _ _ _ _ _ Hok x Hx Hfree) as [_ Hne].
  rewrite <- used_set; [|lia|lia|by apply (bo_map _ _ _ _ _ _ Hok)|mlia|mlia|lia].
  unfold used, taken. unfold upd_cur at 1. rewrite decide_False; [done|]. intros [= E]. by apply (Hne y).
Qed.

Lemma wp_balloc s held cur dirt e dv start n (Q : Z -> env kernel -> kernel -> Prop) :
  let sb := k_sb s in
  cache s held cur dirt -> in_op dv start n dirt s -> bitmap_ok s held dv start sb cur ->
  (size dirt + length held + 1 < head)%nat -> Z.of_nat n + 2 < LOGSIZE ->
  (exists x, 0 <= x < sb_size sb /\ used dv sb cur x = false) ->
  (forall s' n' x, 0 <= x < sb_size sb -> used dv sb cur x = false -> (forall y, 0 <= y < x -> used dv sb cur y = true) ->
     (n' <= n + 2)%nat -> cache s' held (taken dv sb x cur) (dirt ∪ {[(dv, BBLOCK x sb)]} ∪ {[(dv, x)]}) ->
     in_op dv start n' (dirt ∪ {[(dv, BBLOCK x sb)]} ∪ {[(dv, x)]}) s' ->
     (forall c, c ∈ held -> key (buf_of c s') = key (buf_of c s)) -> fs_only s s' -> Q x e s') ->
  wp (balloc dv) Q e s.
Proof.
  intros sb Hc Hop Hok Hroom Hn (x0 & Hx0 & Hfree0) HQ. unfold balloc. apply wp_bind, wp_get. fold sb.
  apply (wp_loop (fun b e' s' => e' = e /\ 0 <= b /\ b mod BPB = 0 /\
      (forall y, 0 <= y < b -> y < sb_size sb -> used dv sb cur y = true) /\
      cache s' held cur dirt /\ in_op dv start n dirt s' /\ fs_only s s' /\
      (forall c, c ∈ held -> key (buf_of c s') = key (buf_of c s))) (map_rounds (sb_size sb))).
  { apply map_rounds_fuel. lia. }
  { split_and!; try done; [|apply fs_only_refl]. intros y Hy. lia. }
  intros b e' s1 (-> & Hb & Hbm & Hall & Hc1 & Hop1 & Ho1 & Hk1).
  destruct (b <? sb_size sb) eqn:Eb; cbn [negb].
  2: { rewrite Hall in Hfree0; [done|lia|lia]. }
  destruct (bo_map _ _ _ _ _ _ Hok b ltac:(lia)) as [[Hr Hl Hs Hh]%(writable_same s s1) Hlen]; [|done].
  apply wp_bind. eapply (wp_bread s1 held cur dirt); [done|apply Hok|done|done|by right; lia|].
  intros bp s2 Hbp Hc2 Hk2 Hsame Hd2 Ho2. unfold bufget. apply wp_bind, wp_get.
  rewrite (held_data _ _ _ _ bp Hc2), Hk2 by (by left).
  pose proof (first_clear_spec (cur (dv, BBLOCK b sb)) b (sb_size sb) 0 (S (Z.to_nat BPB)) ltac:(lia) ltac:(lia)) as Hfc.
  destruct (first_clear _ _ _ _ _) as [bi|].
  - destruct Hfc as (Hbi & Hsz & Hclear & Hset).
    destruct (found_first dv sb cur b bi) as (EB & Em & Hu & Hfirst); [done|done|done| |done|done|].
    { intros y Hy. apply Hall; lia. }
    destruct (bo_free _ _ _ _ _ _ Hok (b + bi) ltac:(lia) Hu) as [Hw Hnb].
    eapply (wp_write_release s2 bp held cur dirt e dv start n); [done|by eapply in_op_bio|exact Hk2|done|done..|lia|].
    intros s3 n3 Hn3 Hc3 Hop3 Hk3 Ho3. apply wp_bind.
    eapply (wp_bzero s3 held); [exact Hc3|exact Hop3|apply Hok| | |lia|].
    + eapply writable_same, Hw. intros c Hin. rewrite Hk3, Hsame by done. by apply Hk1.
    + pose proof (size_add dirt (dv, BBLOCK b sb)). lia.
    + intros s4 n4 Hn4 Hc4 Hop4 Hk4 Ho4. apply wp_ret.
      apply (HQ s4 n4); [lia|done|done|lia|unfold taken; by rewrite EB, Em|by rewrite EB| |].
      * intros c Hin. rewrite Hk4, Hk3, Hsame by done. by apply Hk1.
      * eauto with frame.
  - apply wp_bind.
    eapply (wp_brelse s2 (bp :: held) held cur dirt bp);
      [done|done|by apply (clean_release s1 held cur dirt s2 dv (BBLOCK b sb)); try apply Hok|].
    intros s3 Hc3 Hk3 Hd3 Ho3. apply wp_ret. split.
    + split_and!; [done|lia|mlia| |done| | |].
      * by apply used_rest.
      * eapply in_op_bio; [exact Ho3|]. by eapply in_op_bio.
      * eauto with frame.
      * intros c Hin. rewrite Hk3, Hsame by done. by apply Hk1.
    + apply map_rounds_next. lia.
Qed.

(** [balloc] takes the first free block of the disk.  Whenever the bitmap has a clear bit, the search
    through its blocks ends with the lowest one; that bit and no other is set, the block is
    zeroed, all other blocks keep their contents, and both changes are part of the
    transaction. *)
Lemma balloc_spec s held cur dirt e dv start n :
  let sb := k_sb s in
  cache s held cur dirt -> in_op dv start n dirt s -> bitmap_ok s held dv start sb cur ->
  0 <= sb_bmapstart sb -> sb_size sb / BPB + sb_bmapstart sb < 4294967296 ->
  (size dirt + length held + 1 < head)%nat -> Z.of_nat n + 2 < LOGSIZE ->
  (exists x, 0 <= x < sb_size sb /\ used dv sb cur x = false) ->
  exists x s' n' cur' dirt', balloc dv e s = Done x e s' /\
    0 <= x < sb_size sb /\ used dv sb cur x = false /\ (forall y, 0 <= y < x -> used dv sb cur y = true) /\
    (forall y, 0 <= y < sb_size sb -> used dv sb cur' y = bool_decide (x = y) || used dv sb cur y) /\
    cur' (dv, x) = zero_block /\ (forall k, k <> (dv, x) -> k <> (dv, BBLOCK x sb) -> cur' k = cur k) /\
    cache s' held cur' dirt' /\ in_op dv start n' dirt' s' /\ dirt' = dirt ∪ {[(dv, BBLOCK x sb)]} ∪ {[(dv, x)]}.
Proof.
  intros sb Hc Hop Hok Hb0 Hb Hroom Hn Hfree.
  assert (Hw := wp_balloc s held cur dirt e dv start n (fun x e' s' => e' = e /\ 0 <= x < sb_size sb /\
    used dv sb cur x = false /\ (forall y, 0 <= y < x -> used dv sb cur y = true) /\
    exists n', cache s' held (taken dv sb x cur) (dirt ∪ {[(dv, BBLOCK x sb)]} ∪ {[(dv, x)]}) /\
      in_op dv start n' (dirt ∪ {[(dv, BBLOCK x sb)]} ∪ {[(dv, x)]}) s') Hc Hop Hok Hroom Hn Hfree).
  apply wp_elim in Hw as (x & e' & s' & Hrun & -> & Hx & Hu & Hfirst & n' & Hc' & Hop').
  { exists x, s', n', (taken dv sb x cur), (dirt ∪ {[(dv, BBLOCK x sb)]} ∪ {[(dv, x)]}). split_and!; try done.
    - lia.
    - lia.
    - intros y Hy. by apply (taken_used s held dv start).
    - unfold taken, upd_cur. by rewrite decide_True.
    - intros k Hk1 Hk2. unfold taken, upd_cur. by rewrite !decide_False. }
  intros s' n' x Hx Hu Hfirst _ Hc' Hop' _ _. repeat (split; [done|]). by exists n'.
Qed.

End balloc.

(** * A disk with a bitmap *)

#[local] Existing Instance built_symbols.
#[local] Existing Instance bw_driver | 0.
#[local] Existing Instance bw_sync | 0.

(** 100 blocks, of which the first 59 are in use: boot, super block, log, inodes and bitmap. *)
Definition aw_sb : superblock := mkSb 100 41 200 30 2 32 58.
Definition aw_map : list Z := replicate 7 255 ++ [7] ++ replicate 504 0.
Definition aw_disk : disk_t := mkDisk {[(1, 58) := aw_map]} [].
Definition aw_boot : kernel := set_k_sb aw_sb (set_k_disk aw_disk (lw_boot 1)).
Definition aw_state : kernel := after_binit aw_boot.

Lemma aw_cache :
  cache aw_state [] (contents aw_disk) ∅ /\
  exists bs, aw_state = set_k_bcache bs (set_lock L_bcache (mkLock 0 "bcache" None) aw_boot).
Proof.
  destruct bw_boot_ok as (H1 & H2 & H3 & H4 & H5).
  exact (after_binit_cache aw_boot H1 H2 H3 (conj H3 (proj2 H4)) H5).
Qed.

Lemma aw_op : in_op 1 2 0 ∅ aw_state.
Proof.
  destruct aw_cache as [_ [bs ->]]. split; [|split; [by split|by eexists]|done|done|done].
  exists (replicate (Z.to_nat LOGSIZE) 0). eapply transaction_log_eq, (lw_transaction 1). by rewrite lw_log.
Qed.

Lemma aw_bits x : 0 <= x < 59 -> used 1 aw_sb (contents aw_disk) x = true.
Proof.
  intros Hx. assert (Hall : forallb (used 1 aw_sb (contents aw_disk)) (seqZ 0 59) = true) by (by vm_compute).
  rewrite forallb_forall in Hall. apply Hall, list_elem_of_In, elem_of_seqZ. lia.
Qed.

Lemma aw_bitmap : bitmap_ok aw_state [] 1 2 aw_sb (contents aw_disk).
Proof.
  assert (EB : forall x, 0 <= x < 100 -> BBLOCK x aw_sb = 58).
  { intros x Hx. unfold BBLOCK. rewrite Z.div_small by lia. done. }
  assert (Hw : forall x, 32 <= x < 100 -> writable_block aw_state [] 1 2 x).
  { intros x Hx. split; [lia|unfold in_log; lia|apply in_built_image; lia|apply none_held]. }
  split; [done| |].
  - intros x Hx. rewrite EB by exact Hx. split; [apply Hw; lia|by vm_compute].
  - intros x Hx Hu. simpl in Hx. destruct (decide (x < 59)) as [Hlt|].
    { rewrite aw_bits in Hu by lia. done. }
    split; [apply Hw; lia|]. intros y Hy. rewrite EB by exact Hy. lia.
Qed.

Lemma balloc_spec_witness : exists x s', balloc 1 [] aw_state = Done x [] s' /\ 0 <= x < 100.
Proof.
  destruct aw_cache as [Hc [bs E]]. assert (Esb : k_sb aw_state = aw_sb) by (rewrite E; reflexivity). clear E.
  assert (Hfree : exists x, 0 <= x < sb_size (k_sb aw_state) /\ used 1 (k_sb aw_state) (contents aw_disk) x = false).
  { rewrite Esb. exists 59. split; [simpl; lia|by vm_compute]. }
  pose proof aw_bitmap as Hb. rewrite <- Esb in Hb.
  destruct (balloc_spec aw_state [] (contents aw_disk) ∅ [] 1 2 0 Hc aw_op Hb
    ltac:(rewrite Esb; simpl; lia) ltac:(rewrite Esb; by vm_compute)
    ltac:(rewrite size_empty; unfold head; simpl; lia) ltac:(lia) Hfree) as (x & s' & _ & _ & _ & Heq & Hx & _).
  rewrite Esb in Hx. exists x, s'. split; [exact Heq|exact Hx].
Defined.
