(* ===== verification/FsWrite.v ===== *)
(** Writing files: [bmap] with allocation, and [writei].

    A file is seen through its slots: the blocks that its inode and its indirect block
    name, and the indirect block itself.  [fdata] is what the file holds, with zeros where
    there is no block.  [bmap] changes slots but not what the file holds; [writei] changes
    exactly the bytes it is asked to. *)

From S2P Require Import Prelude Params Mem State Spinlock Console Kalloc Vm Proc Ide Bio BioRing BioSpec BioProps Log LogSpec LogOps LogCrash Umem Fs FsSpec FsLock FsAlloc.

(** * Lists *)

Lemma filter_same (P P' : Z -> Prop) `{!forall x, Decision (P x), !forall x, Decision (P' x)} (l : list Z) :
  (forall y, y ∈ l -> P' y <-> P y) -> filter P l = filter P' l.
Proof.
  induction l as [|a l IH]; intros Heq; [done|]. rewrite !filter_cons, IH by (intros y Hy; apply Heq; by right).
  pose proof (Heq a ltac:(by left)) as Ea. destruct (decide (P a)), (decide (P' a)); tauto.
Qed.

Lemma filter_remove (P P' : Z -> Prop) `{!forall x, Decision (P x), !forall x, Decision (P' x)} (l : list Z) x :
  NoDup l -> x ∈ l -> P x -> (forall y, y ∈ l -> P' y <-> P y /\ y <> x) ->
  length (filter P l) = S (length (filter P' l)).
Proof.
  induction l as [|a l IH]; intros Hnd Hin HP Heq; [by apply elem_of_nil in Hin|].
  apply NoDup_cons in Hnd as [Ha Hnd]. rewrite !filter_cons.
  destruct (decide (a = x)) as [->|Hne].
  - rewrite (decide_True (P := P x)) by done. rewrite (decide_False (P := P' x)).
    2: { intros HP'. apply Heq in HP' as [_ ?]; [done|by left]. }
    simpl. f_equal. f_equal. apply filter_same. intros y Hy. rewrite Heq by (by right).
    split; [by intros []|]. intros HPy. split; [done|]. by intros ->.
  - assert (Hl : length (filter P l) = S (length (filter P' l))).
    { apply IH; [done|by apply elem_of_cons in Hin as [|]|done|]. intros y Hy. apply Heq. by right. }
    pose proof (Heq a ltac:(by left)) as Ea. destruct (decide (P a)), (decide (P' a)); simpl; try tauto; lia.
Qed.

Lemma lget_replicate n o : lget (replicate n 0) o = 0.
Proof. unfold lget. rewrite nth_lookup. destruct (replicate n 0 !! o) eqn:E; [|done]. by apply lookup_replicate in E as [-> _]. Qed.

Lemma zero_block_word o : get32 zero_block o = 0.
Proof. unfold get32, zero_block. by rewrite !lget_replicate. Qed.

Lemma size_union_le (X Y : gset (Z * Z)) : (size (X ∪ Y) <= size X + size Y)%nat.
Proof. rewrite size_union_alt. pose proof (subseteq_size (Y ∖ X) Y ltac:(set_solver)). lia. Qed.

Lemma size_list_le (l : list (Z * Z)) : (size (list_to_set l : gset (Z * Z)) <= length l)%nat.
Proof. induction l as [|b l IH]; [done|]. simpl. pose proof (size_union_le {[b]} (list_to_set l)). rewrite size_singleton in *. lia. Qed.

(** * The blocks of a file *)

(** Slot [k] of a file: below [MAXFILE] the block with its [k]th block of data, at [MAXFILE] the
    indirect block; 0 where there is none. *)
Definition slot (q : inode_t) (cur : Z * Z -> list Z) (k : Z) : Z :=
  let ind := lget (iaddrs q) (Z.to_nat NDIRECT) in
  if k =? MAXFILE then ind
  else if k <? NDIRECT then lget (iaddrs q) (Z.to_nat k)
  else if ind =? 0 then 0 else get32 (cur (idev q, ind)) (Z.to_nat (4 * (k - NDIRECT))).

Lemma slot_indirect q cur : slot q cur MAXFILE = lget (iaddrs q) (Z.to_nat NDIRECT).
Proof. done. Qed.

Lemma slot_near q cur k : k < NDIRECT -> slot q cur k = lget (iaddrs q) (Z.to_nat k).
Proof. intros Hk. assert (Emax : MAXFILE = 140) by done. unfold slot. zif; lia || done. Qed.

Lemma slot_far q cur k : NDIRECT <= k < MAXFILE ->
  slot q cur k = if slot q cur MAXFILE =? 0 then 0
    else get32 (cur (idev q, slot q cur MAXFILE)) (Z.to_nat (4 * (k - NDIRECT))).
Proof. intros Hk. rewrite slot_indirect. unfold slot. rewrite (proj2 (Z.eqb_neq _ _)), (proj2 (Z.ltb_ge _ _)) by lia. done. Qed.

(** The byte at [p] of what a file holds. *)
Definition fdata (q : inode_t) (cur : Z * Z -> list Z) (p : Z) : Z :=
  let a := slot q cur (p / BSIZE) in
  if a =? 0 then 0 else lget (cur (idev q, a)) (Z.to_nat (p mod BSIZE)).

(** How many slots of [T] have no block. *)
Definition missing (q : inode_t) (cur : Z * Z -> list Z) (T : list Z) : nat :=
  length (filter (fun k => slot q cur k = 0) T).

(** The slots that a write of [n] bytes at [off] needs. *)
Definition touched (off n : Z) : list Z :=
  seqZ (off / BSIZE) (Z.of_nat (rounds off (off + n))) ++ (if NDIRECT * BSIZE <? off + n then [MAXFILE] else []).

Section write.
Context `{Symbols} `{Driver} {Hdrv : SyncDriver} `{DevSw}.
Context (dv start : Z) (sb : superblock).

Definition in_bitmap (bn : Z) : Prop := exists y, 0 <= y < sb_size sb /\ BBLOCK y sb = bn.

(** How many blocks of the disk are free. *)
Definition nfree (cur : Z * Z -> list Z) : nat :=
  length (filter (fun x => used dv sb cur x = false) (seqZ 0 (sb_size sb))).

(** A block outside the log that the disk has. *)
Record good_block (bn : Z) : Prop := {
  gb_range : 0 <= bn < 4294967296;
  gb_log : ~ in_log start bn;
  gb_serves : serves dv bn
}.

(** A block that the bitmap says is in use, other than the bitmap's own. *)
Record owned (cur : Z * Z -> list Z) (bn : Z) : Prop := {
  ow_good : good_block bn;
  ow_range : 0 < bn < sb_size sb;
  ow_used : used dv sb cur bn = true;
  ow_len : length (cur (dv, bn)) = Z.to_nat BSIZE;
  ow_map : ~ in_bitmap bn
}.

(** A disk with a bitmap. *)
Record map_ok (cur : Z * Z -> list Z) : Prop := {
  mo_dev : dv <> nodev;
  mo_start : 0 <= sb_bmapstart sb;
  mo_end : sb_size sb / BPB + sb_bmapstart sb < 4294967296;
  mo_boot : used dv sb cur 0 = true;
  mo_blocks : forall bn, in_bitmap bn -> good_block bn /\ length (cur (dv, bn)) = Z.to_nat BSIZE;
  mo_free : forall x, 0 <= x < sb_size sb -> used dv sb cur x = false -> good_block x /\ ~ in_bitmap x
}.

(** A file: its slots name distinct blocks of its own, and all its bytes have one. *)
Record file_wf (cur : Z * Z -> list Z) (q : inode_t) : Prop := {
  fl_dev : idev q = dv;
  fl_ok : inode_ok q;
  fl_size : 0 <= isize q <= MAXFILE * BSIZE;
  fl_slot : forall k, 0 <= k <= MAXFILE -> slot q cur k <> 0 -> owned cur (slot q cur k);
  fl_inj : forall j k, 0 <= j <= MAXFILE -> 0 <= k <= MAXFILE -> slot q cur j <> 0 ->
    slot q cur j = slot q cur k -> j = k;
  fl_alloc : forall k, 0 <= k -> k * BSIZE < isize q -> slot q cur k <> 0;
  fl_inode : owned cur (IBLOCK (inum q) sb);
  fl_other : forall k, 0 <= k <= MAXFILE -> slot q cur k <> IBLOCK (inum q) sb
}.

(** The file gets block [x], which was free, in slot [k]. *)
Record alloc_at (k x : Z) (cur : Z * Z -> list Z) (q : inode_t) (cur' : Z * Z -> list Z) (q' : inode_t) : Prop := {
  al_slot : 0 <= k <= MAXFILE /\ slot q cur k = 0;
  al_free : 0 <= x < sb_size sb /\ used dv sb cur x = false;
  al_shape : q' = set_iaddrs (iaddrs q') q;
  al_ok : inode_ok q';
  al_slots : forall j, 0 <= j <= MAXFILE -> slot q' cur' j = if decide (j = k) then x else slot q cur j;
  al_used : forall y, 0 <= y < sb_size sb -> used dv sb cur' y = bool_decide (x = y) || used dv sb cur y;
  al_new : cur' (dv, x) = zero_block;
  al_same : forall b, b <> (dv, x) -> (b.1 = dv -> ~ in_bitmap b.2) ->
    (b = (dv, slot q cur MAXFILE) -> slot q cur MAXFILE = 0) -> cur' b = cur b;
  al_len : forall bn, length (cur (dv, bn)) = Z.to_nat BSIZE -> length (cur' (dv, bn)) = Z.to_nat BSIZE
}.

Lemma owned_zero cur : ~ owned cur 0.
Proof. intros [_ ? _ _ _]. lia. Qed.

Lemma inode_block_nonzero cur q : file_wf cur q -> IBLOCK (inum q) sb <> 0.
Proof. intros Hf E. apply (owned_zero cur). rewrite <- E. apply Hf. Qed.

(** The new block is none of those in use. *)
Lemma alloc_fresh k x cur q cur' q' bn : alloc_at k x cur q cur' q' -> used dv sb cur bn = true -> bn <> x.
Proof. intros Ha Hu ->. destruct (al_free _ _ _ _ _ _ Ha). congruence. Qed.

Lemma alloc_owned k x cur q cur' q' bn : alloc_at k x cur q cur' q' -> owned cur bn -> owned cur' bn.
Proof.
  intros Ha [Hg Hr Hu Hl Hm]. split; [done|done| |by apply (al_len _ _ _ _ _ _ Ha)|done].
  rewrite (al_used _ _ _ _ _ _ Ha) by lia. by rewrite Hu, orb_true_r.
Qed.

Lemma alloc_map k x cur q cur' q' : alloc_at k x cur q cur' q' -> map_ok cur -> map_ok cur'.
Proof.
  intros Ha [Hd Hs He Hb Hm Hf]. destruct (al_free _ _ _ _ _ _ Ha) as [Hx Hxf].
  assert (Hu : forall y, 0 <= y < sb_size sb -> used dv sb cur' y = false -> used dv sb cur y = false).
  { intros y Hy. rewrite (al_used _ _ _ _ _ _ Ha) by done. by intros [_ ?]%orb_false_iff. }
  split; [done|done|done| | |].
  - rewrite (al_used _ _ _ _ _ _ Ha) by lia. by rewrite Hb, orb_true_r.
  - intros bn Hbn. destruct (Hm bn Hbn) as [? ?]. split; [done|]. by apply (al_len _ _ _ _ _ _ Ha).
  - intros y Hy Hy'. by apply Hf, Hu.
Qed.

Lemma alloc_nfree k x cur q cur' q' : alloc_at k x cur q cur' q' -> nfree cur = S (nfree cur').
Proof.
  intros Ha. destruct (al_free _ _ _ _ _ _ Ha) as [Hx Hxf]. unfold nfree.
  apply (filter_remove _ _ _ x); [apply NoDup_seqZ|apply elem_of_seqZ; lia|done|].
  intros y Hy%elem_of_seqZ. rewrite (al_used _ _ _ _ _ _ Ha), orb_false_iff, bool_decide_eq_false by lia. naive_solver.
Qed.

Lemma alloc_nonzero k x cur q cur' q' : alloc_at k x cur q cur' q' -> map_ok cur -> x <> 0.
Proof. intros Ha Hm. apply not_eq_sym, (alloc_fresh _ _ _ _ _ _ _ Ha), Hm. Qed.

Lemma alloc_missing k x cur q cur' q' T :
  alloc_at k x cur q cur' q' -> map_ok cur -> NoDup T -> k ∈ T -> (forall j, j ∈ T -> 0 <= j <= MAXFILE) ->
  missing q cur T = S (missing q' cur' T).
Proof.
  intros Ha Hm Hnd Hk HT. pose proof (alloc_nonzero _ _ _ _ _ _ Ha Hm) as Hx0. destruct (al_slot _ _ _ _ _ _ Ha) as [Hk0 Hks].
  unfold missing. apply (filter_remove _ _ _ k); [done|done|done|].
  intros y Hy. rewrite (al_slots _ _ _ _ _ _ Ha) by (by apply HT). destruct (decide (y = k)); naive_solver.
Qed.

Lemma alloc_new_owned k x cur q cur' q' : alloc_at k x cur q cur' q' -> map_ok cur -> owned cur' x.
Proof.
  intros Ha Hm. pose proof (alloc_nonzero _ _ _ _ _ _ Ha Hm) as Hx0. destruct (al_free _ _ _ _ _ _ Ha) as [Hx Hxf].
  destruct (mo_free _ Hm x Hx Hxf) as [Hg Hb]. split; [done|lia| |by rewrite (al_new _ _ _ _ _ _ Ha)|done].
  rewrite (al_used _ _ _ _ _ _ Ha) by done. by rewrite bool_decide_true.
Qed.

Lemma alloc_wf k x cur q cur' q' : alloc_at k x cur q cur' q' -> map_ok cur -> file_wf cur q -> file_wf cur' q'.
Proof.
  intros Ha Hm [Hd Hok Hsz Hsl Hinj Hal Hin Hoth]. pose proof (alloc_new_owned _ _ _ _ _ _ Ha Hm) as Hxo.
  pose proof (al_slots _ _ _ _ _ _ Ha) as Hs. destruct (al_slot _ _ _ _ _ _ Ha) as [Hk Hk0].
  pose proof (alloc_owned _ _ _ _ _ _ (IBLOCK (inum q) sb) Ha Hin) as Hin'.
  assert (Hfr : forall j, 0 <= j <= MAXFILE -> slot q cur j <> x).
  { intros j Hj E. destruct (decide (slot q cur j = 0)) as [E0|E0].
    - apply (alloc_nonzero _ _ _ _ _ _ Ha Hm). congruence.
    - by apply (alloc_fresh _ _ _ _ _ _ (slot q cur j) Ha); [apply Hsl|]. }
  assert (Hq : idev q' = idev q /\ isize q' = isize q /\ inum q' = inum q) by (rewrite (al_shape _ _ _ _ _ _ Ha); done).
  destruct Hq as (E1 & E2 & E3). split; rewrite ?E1, ?E2, ?E3; try done.
  - apply Ha.
  - intros j Hj. rewrite Hs by done. destruct (decide (j = k)); [done|]. intros Hn. by eapply alloc_owned, Hsl.
  - intros i j Hi Hj. rewrite !Hs by done. destruct (decide (i = k)), (decide (j = k)); subst; intros Hn E; try done.
    + by destruct (Hfr j Hj).
    + by destruct (Hfr i Hi).
    + by apply Hinj.
  - intros j Hj Hjs. rewrite Hs by (split; [lia|]; unfold MAXFILE in *; nia).
    destruct (decide (j = k)); [by eapply alloc_nonzero|by apply Hal].
  - intros j Hj. rewrite Hs by done. destruct (decide (j = k)); [|by apply Hoth].
    apply not_eq_sym, (alloc_fresh _ _ _ _ _ _ _ Ha), Hin.
Qed.

(** A new block holds what the file had there: nothing. *)
Lemma alloc_data k x cur q cur' q' p :
  alloc_at k x cur q cur' q' -> map_ok cur -> file_wf cur q -> 0 <= p < MAXFILE * BSIZE -> fdata q' cur' p = fdata q cur p.
Proof.
  intros Ha Hm Hf Hp. pose proof (alloc_nonzero _ _ _ _ _ _ Ha Hm) as Hx0. destruct (al_slot _ _ _ _ _ _ Ha) as [Hk Hk0].
  assert (Hpk : 0 <= p / BSIZE < MAXFILE) by (unfold MAXFILE in *; mlia).
  assert (E1 : idev q' = dv) by (rewrite (al_shape _ _ _ _ _ _ Ha); apply Hf). pose proof (fl_dev _ _ Hf) as E2.
  unfold fdata. rewrite (al_slots _ _ _ _ _ _ Ha), E1, E2 by lia. destruct (decide (p / BSIZE = k)) as [->|Hne].
  - rewrite Hk0, (proj2 (Z.eqb_neq _ _) Hx0), (al_new _ _ _ _ _ _ Ha). unfold zero_block. by rewrite lget_replicate.
  - destruct (slot q cur (p / BSIZE) =? 0) eqn:E; [done|]. apply Z.eqb_neq in E.
    pose proof (fl_slot _ _ Hf (p / BSIZE) ltac:(lia) E) as Ho. f_equal. apply (al_same _ _ _ _ _ _ Ha).
    + intros [= Eb]. by apply (alloc_fresh _ _ _ _ _ _ (slot q cur (p / BSIZE)) Ha); [apply Ho|].
    + intros _. apply Ho.
    + intros [= Eb]. apply (fl_inj _ _ Hf) in Eb; lia.
Qed.

(** * Growing files *)

(** What allocation and writing may change: free blocks become the file's, and of the blocks in
    use only those of the bitmap and of the file change. *)
Definition elsewhere (cur : Z * Z -> list Z) (q : inode_t) (b : Z * Z) : Prop :=
  b.1 = dv -> (0 <= b.2 < sb_size sb -> used dv sb cur b.2 = true) /\ ~ in_bitmap b.2 /\
    forall j, 0 <= j <= MAXFILE -> slot q cur j = b.2 -> b.2 = 0.

Record enlarges (cur : Z * Z -> list Z) (q : inode_t) (cur' : Z * Z -> list Z) (q' : inode_t) : Prop := {
  gw_shape : q' = set_iaddrs (iaddrs q') q;
  gw_slot : forall j, 0 <= j <= MAXFILE -> slot q' cur' j = slot q cur j \/
    slot q cur j = 0 /\ 0 <= slot q' cur' j < sb_size sb /\ used dv sb cur (slot q' cur' j) = false;
  gw_used : forall y, 0 <= y < sb_size sb -> used dv sb cur y = true -> used dv sb cur' y = true;
  gw_frame : forall b, elsewhere cur q b -> cur' b = cur b
}.

Lemma grows_refl cur q : enlarges cur q cur q.
Proof. split; [by destruct q|by left|done|done]. Qed.

Lemma grows_elsewhere cur q cur' q' b :
  map_ok cur -> enlarges cur q cur' q' -> elsewhere cur q b -> elsewhere cur' q' b.
Proof.
  intros Hm [_ Hs Hu _] Hb Hd. destruct (Hb Hd) as (Hu1 & Hm1 & Hs1). split_and!; [|done|].
  - intros Hr. by apply Hu, Hu1.
  - intros j Hj Ej. destruct (Hs j Hj) as [E|(E & Hr & Hf)]; [apply (Hs1 j); congruence|].
    rewrite Ej in Hr, Hf. by rewrite Hu1 in Hf.
Qed.

Lemma grows_trans cur1 q1 cur2 q2 cur3 q3 :
  map_ok cur1 -> enlarges cur1 q1 cur2 q2 -> enlarges cur2 q2 cur3 q3 -> enlarges cur1 q1 cur3 q3.
Proof.
  intros Hm G12 G23. assert (Hel : forall b, elsewhere cur1 q1 b -> elsewhere cur2 q2 b) by (intros b; by apply grows_elsewhere).
  destruct G12 as [A1 A2 A3 A4], G23 as [B1 B2 B3 B4]. split.
  - rewrite B1, A1. done.
  - intros j Hj. destruct (A2 j Hj) as [E|(E & Hr & Hf)], (B2 j Hj) as [E'|(E' & Hr' & Hf')].
    + left. congruence.
    + right. split_and!; [congruence|lia|lia|]. destruct (used dv sb cur1 (slot q3 cur3 j)) eqn:Eu; [|done].
      apply A3 in Eu; [congruence|done].
    + right. rewrite E'. done.
    + right. split_and!; [done|lia|lia|]. destruct (used dv sb cur1 (slot q3 cur3 j)) eqn:Eu; [|done].
      apply A3 in Eu; [congruence|done].
  - intros y Hy Hu. by apply B3, A3.
  - intros b Hb. rewrite B4 by (by apply Hel). by apply A4.
Qed.

Lemma alloc_grows k x cur q cur' q' : alloc_at k x cur q cur' q' -> file_wf cur q -> enlarges cur q cur' q'.
Proof.
  intros Ha Hf. destruct (al_slot _ _ _ _ _ _ Ha) as [Hk Hk0], (al_free _ _ _ _ _ _ Ha) as [Hx Hxf]. split.
  - apply Ha.
  - intros j Hj. rewrite (al_slots _ _ _ _ _ _ Ha) by done. destruct (decide (j = k)) as [->|]; [by right|by left].
  - intros y Hy Hu. rewrite (al_used _ _ _ _ _ _ Ha) by done. by rewrite Hu, orb_true_r.
  - intros b Hb. apply (al_same _ _ _ _ _ _ Ha).
    + intros ->. destruct Hb as (Hu & _); [done|]. simpl in Hu. rewrite Hu in Hxf; [done|lia].
    + intros Hd. by apply Hb.
    + intros ->. apply (Hb eq_refl) with MAXFILE; [|done]. done.
Qed.

(** ** The ways to get a block *)

Lemma map_bitmap s held cur :
  map_ok cur -> (forall c, c ∈ held -> exists bn, key (buf_of c s) = (dv, bn) /\ owned cur bn) ->
  bitmap_ok s held dv start sb cur.
Proof.
  intros [Hd Hs He Hb Hm Hf] Hh.
  assert (Hw : forall bn, good_block bn -> ~ owned cur bn -> writable_block s held dv start bn).
  { intros bn [Hr Hl Hsv] Hno. split; [done..|]. intros c Hc E. destruct (Hh c Hc) as (bn' & E' & Ho).
    rewrite E in E'. injection E' as <-. done. }
  split; [done| |].
  - intros x Hx. destruct (Hm (BBLOCK x sb)) as [Hg Hl]; [by exists x|]. split; [|done].
    apply Hw; [done|]. intros Ho. apply (ow_map _ _ Ho). by exists x.
  - intros x Hx Hu. destruct (Hf x Hx Hu) as [Hg Hb']. split.
    + apply Hw; [done|]. intros Ho. pose proof (ow_used _ _ Ho). congruence.
    + intros y Hy E. apply Hb'. by exists y.
Qed.

Lemma taken_same x cur b :
  0 <= x < sb_size sb -> b <> (dv, x) -> (b.1 = dv -> ~ in_bitmap b.2) -> taken dv sb x cur b = cur b.
Proof.
  intros Hx Hne Hm. unfold taken, upd_cur. rewrite decide_False by done. rewrite decide_False; [done|].
  intros ->. apply (Hm eq_refl). by exists x.
Qed.

Lemma taken_len x cur bn :
  map_ok cur -> 0 <= x < sb_size sb -> length (cur (dv, bn)) = Z.to_nat BSIZE ->
  length (taken dv sb x cur (dv, bn)) = Z.to_nat BSIZE.
Proof.
  intros Hm Hx Hl. unfold taken, upd_cur. case_decide; [done|]. case_decide as E; [|done].
  unfold bit_set. rewrite length_insert. apply Hm. by exists x.
Qed.

Lemma taken_bits x cur y :
  map_ok cur -> 0 <= x < sb_size sb -> 0 <= y < sb_size sb -> used dv sb cur x = false ->
  used dv sb (taken dv sb x cur) y = bool_decide (x = y) || used dv sb cur y.
Proof.
  intros Hm Hx Hy Hu. apply (taken_used boot_state [] dv start); [|done..|apply Hm|apply Hm].
  apply map_bitmap; [done|]. intros c Hc. by apply elem_of_nil in Hc.
Qed.

(** Where the inode has the address of slot [k]. *)
Definition addr_index (k : Z) : nat := Z.to_nat (if k =? MAXFILE then NDIRECT else k).

Lemma inode_ok_addr q k x : inode_ok q -> u32 x = x -> inode_ok (set_iaddrs (<[k := x]> (iaddrs q)) q).
Proof. intros [] Hx. split; try done. simpl. rewrite length_insert. split; [apply io_addrs|]. by apply Forall_insert; [apply io_addrs|]. Qed.

Lemma lget_insert d i j v : (i < length d)%nat -> lget (<[i := v]> d) j = if decide (j = i) then v else lget d j.
Proof. intros Hi. destruct (decide (j = i)) as [->|Hne]; [by apply lget_insert_eq|by apply lget_insert_ne]. Qed.

Lemma alloc_addr k x cur q :
  map_ok cur -> file_wf cur q -> 0 <= k <= MAXFILE -> (addr_index k < 13)%nat -> slot q cur k = 0 ->
  0 <= x < sb_size sb -> used dv sb cur x = false ->
  (forall j, 0 <= j <= MAXFILE -> slot (set_iaddrs (<[addr_index k := x]> (iaddrs q)) q) (taken dv sb x cur) j =
     if decide (j = k) then x else slot q cur j) ->
  alloc_at k x cur q (taken dv sb x cur) (set_iaddrs (<[addr_index k := x]> (iaddrs q)) q).
Proof.
  intros Hm Hf Hk Hi Hk0 Hx Hu Hs. destruct (mo_free _ Hm x Hx Hu) as [Hg Hxb].
  split; [done|done|done| |done| | | |].
  - apply inode_ok_addr; [apply Hf|]. apply u32_small, Hg.
  - intros y Hy. by apply taken_bits.
  - unfold taken, upd_cur. by rewrite decide_True.
  - intros b Hb1 Hb2 _. by apply taken_same.
  - intros bn Hl. by apply taken_len.
Qed.

Lemma alloc_direct k x cur q :
  map_ok cur -> file_wf cur q -> 0 <= k < NDIRECT -> slot q cur k = 0 ->
  0 <= x < sb_size sb -> used dv sb cur x = false ->
  alloc_at k x cur q (taken dv sb x cur) (set_iaddrs (<[Z.to_nat k := x]> (iaddrs q)) q).
Proof.
  intros Hm Hf Hk Hk0 Hx Hu. assert (Hlen : length (iaddrs q) = 13%nat) by apply (fl_ok _ _ Hf).
  assert (Emax : MAXFILE = 140 /\ NDIRECT = 12) by done. destruct Emax as [Emax End].
  assert (Ei : Z.to_nat k = addr_index k) by (unfold addr_index; zif; lia). rewrite Ei.
  apply alloc_addr; [done|done|lia|rewrite <- Ei; lia|done..|]. rewrite <- Ei.
  intros j Hj. set (q' := set_iaddrs _ _).
  assert (Eind : slot q' (taken dv sb x cur) MAXFILE = slot q cur MAXFILE).
  { rewrite !slot_indirect. apply lget_insert_ne. lia. }
  destruct (decide (j < NDIRECT)) as [Hn|Hn].
  { rewrite !slot_near by done. unfold q'. cbn [iaddrs set_iaddrs]. rewrite lget_insert by lia. repeat case_decide; try done; lia. }
  rewrite (decide_False (P := j = k)) by lia. destruct (decide (j = MAXFILE)) as [->|]; [done|].
  rewrite (slot_far q' _ j), (slot_far q _ j), Eind by lia. destruct (_ =? 0) eqn:E; [done|]. apply Z.eqb_neq in E.
  pose proof (fl_slot _ _ Hf MAXFILE ltac:(lia) E) as Ho. change (idev q') with (idev q). rewrite (fl_dev _ _ Hf).
  rewrite taken_same; [done|done| |].
  - intros [= Eb]. pose proof (ow_used _ _ Ho). congruence.
  - intros _. apply Ho.
Qed.

Lemma alloc_indirect x cur q :
  map_ok cur -> file_wf cur q -> slot q cur MAXFILE = 0 -> 0 <= x < sb_size sb -> used dv sb cur x = false ->
  alloc_at MAXFILE x cur q (taken dv sb x cur) (set_iaddrs (<[Z.to_nat NDIRECT := x]> (iaddrs q)) q).
Proof.
  intros Hm Hf Hk0 Hx Hu. assert (Hlen : length (iaddrs q) = 13%nat) by apply (fl_ok _ _ Hf).
  assert (Emax : MAXFILE = 140 /\ NDIRECT = 12) by done. destruct Emax as [Emax End].
  change (Z.to_nat NDIRECT) with (addr_index MAXFILE).
  apply alloc_addr; [done|done|lia|unfold addr_index; simpl; lia|done..|].
  change (addr_index MAXFILE) with (Z.to_nat NDIRECT). intros j Hj. set (q' := set_iaddrs _ _).
  assert (Eind : slot q' (taken dv sb x cur) MAXFILE = x).
  { rewrite !slot_indirect. apply lget_insert_eq. rewrite Hlen. simpl. lia. }
  destruct (decide (j < NDIRECT)) as [Hn|Hn].
  { rewrite !slot_near by done. rewrite decide_False by lia. apply lget_insert_ne. lia. }
  case_decide as Ej; [by rewrite Ej|]. rewrite (slot_far q' _ j), (slot_far q _ j), Eind, Hk0 by lia. change (idev q') with (idev q).
  rewrite (fl_dev _ _ Hf). unfold taken, upd_cur. rewrite decide_True by done. rewrite zero_block_word. by destruct (x =? 0).
Qed.

(** Storing into a block that is not the bitmap's moves no bit. *)
Lemma store_bits a d cur y : ~ in_bitmap a -> 0 <= y < sb_size sb -> used dv sb (upd_cur (dv, a) d cur) y = used dv sb cur y.
Proof. intros Ha Hy. unfold used, upd_cur. rewrite decide_False; [done|]. intros [= E]. apply Ha. by exists y. Qed.

Lemma upd_cur_eq b d cur : upd_cur b d cur b = d.
Proof. unfold upd_cur. by rewrite decide_True. Qed.

Lemma upd_cur_ne b d cur b' : b' <> b -> upd_cur b d cur b' = cur b'.
Proof. intros Hne. unfold upd_cur. by rewrite decide_False. Qed.

Lemma alloc_entry k x cur q ind :
  map_ok cur -> file_wf cur q -> NDIRECT <= k < MAXFILE -> slot q cur MAXFILE = ind -> ind <> 0 -> slot q cur k = 0 ->
  0 <= x < sb_size sb -> used dv sb cur x = false ->
  alloc_at k x cur q
    (upd_cur (dv, ind) (put32 (taken dv sb x cur (dv, ind)) (Z.to_nat (4 * (k - NDIRECT))) x) (taken dv sb x cur)) q.
Proof.
  intros Hm Hf Hk Hind Hi0 Hk0 Hx Hu. assert (Emax : MAXFILE = 140 /\ NDIRECT = 12) by done. destruct Emax as [Emax End].
  destruct (mo_free _ Hm x Hx Hu) as [Hg Hxb].
  assert (Ho : owned cur ind) by (rewrite <- Hind; apply Hf; [lia|congruence]).
  assert (Hne : ind <> x). { intros ->. pose proof (ow_used _ _ Ho). congruence. }
  assert (Et : taken dv sb x cur (dv, ind) = cur (dv, ind)).
  { apply taken_same; [done|congruence|intros _; apply Ho]. }
  rewrite Et. set (d := put32 _ _ _). pose proof (ow_len _ _ Ho) as Hlen.
  assert (Hd : length d = Z.to_nat BSIZE) by (unfold d; by rewrite length_put32).
  split; [by split; [lia|]|done|by destruct q|apply Hf| | | | |].
  - intros j Hj. destruct (decide (j < NDIRECT)) as [Hn|Hn]; [rewrite decide_False by lia; by rewrite !slot_near|].
    destruct (decide (j = MAXFILE)) as [->|Hjm]; [by rewrite decide_False by lia|].
    rewrite (slot_far q (upd_cur _ _ _) j), (slot_far q cur j), slot_indirect, <- (slot_indirect q cur), Hind by lia.
    rewrite (proj2 (Z.eqb_neq _ _) Hi0), (fl_dev _ _ Hf), upd_cur_eq. unfold d. case_decide as Ej.
    + rewrite Ej, get32_put32 by (rewrite Hlen; change (Z.to_nat BSIZE) with 512%nat; lia). apply u32_small, Hg.
    + apply get32_put32_ne. lia.
  - intros y Hy. rewrite store_bits by (done || apply Ho). by apply taken_bits.
  - rewrite upd_cur_ne by congruence. apply upd_cur_eq.
  - intros b Hb1 Hb2 Hb3. rewrite upd_cur_ne; [by apply taken_same|]. intros ->. rewrite Hind in Hb3. by apply Hi0, Hb3.
  - intros bn Hl. destruct (decide (bn = ind)) as [->|Hbn]; [by rewrite upd_cur_eq|].
    rewrite upd_cur_ne by congruence. by apply taken_len.
Qed.

(** ** Storing into a block of the file, or into the block of its inode *)

Lemma store_slot a d cur q j :
  file_wf cur q -> a <> slot q cur MAXFILE -> 0 <= j <= MAXFILE -> slot q (upd_cur (dv, a) d cur) j = slot q cur j.
Proof.
  intros Hf Ha Hj. destruct (decide (j < NDIRECT)); [by rewrite !slot_near|]. destruct (decide (j = MAXFILE)) as [->|]; [done|].
  rewrite (slot_far q (upd_cur _ _ _) j), (slot_far q cur j), slot_indirect, <- (slot_indirect q cur) by lia.
  rewrite (fl_dev _ _ Hf). by rewrite upd_cur_ne by congruence.
Qed.

Lemma store_owned a d cur bn : owned cur a -> length d = Z.to_nat BSIZE -> owned cur bn -> owned (upd_cur (dv, a) d cur) bn.
Proof.
  intros Ha Hd [Hg Hr Hu Hl Hm]. split; try done.
  - by rewrite store_bits by (lia || apply Ha).
  - destruct (decide (bn = a)) as [->|]; [by rewrite upd_cur_eq|by rewrite upd_cur_ne by congruence].
Qed.

Lemma store_map a d cur : owned cur a -> map_ok cur -> map_ok (upd_cur (dv, a) d cur).
Proof.
  intros Ha [Hd Hs He Hb Hm Hf]. split; [done..| | |].
  - rewrite store_bits; [done|apply Ha|]. pose proof (ow_range _ _ Ha). lia.
  - intros bn Hbn. rewrite upd_cur_ne; [by apply Hm|]. intros [= ->]. by apply (ow_map _ _ Ha).
  - intros x Hx. rewrite store_bits by (done || apply Ha). by apply Hf.
Qed.

Lemma store_nfree a d cur : owned cur a -> nfree (upd_cur (dv, a) d cur) = nfree cur.
Proof.
  intros Ha. unfold nfree. f_equal. apply filter_same. intros y Hy%elem_of_seqZ. rewrite store_bits; [done|apply Ha|lia].
Qed.

Lemma store_missing a d cur q T :
  file_wf cur q -> a <> slot q cur MAXFILE -> (forall j, j ∈ T -> 0 <= j <= MAXFILE) ->
  missing q (upd_cur (dv, a) d cur) T = missing q cur T.
Proof. intros Hf Ha HT. unfold missing. f_equal. apply filter_same. intros y Hy. rewrite store_slot; auto. Qed.

Lemma store_wf a d cur q :
  file_wf cur q -> owned cur a -> a <> slot q cur MAXFILE -> length d = Z.to_nat BSIZE -> file_wf (upd_cur (dv, a) d cur) q.
Proof.
  intros Hf Ha Hne Hd. assert (Es : forall j, 0 <= j <= MAXFILE -> slot q (upd_cur (dv, a) d cur) j = slot q cur j).
  { intros j Hj. by apply store_slot. }
  destruct Hf as [Hdv Hok Hsz Hsl Hinj Hal Hin Hoth]. split; [done..| | | | |].
  - intros k Hk. rewrite Es by done. intros Hn. by apply store_owned; [| |apply Hsl].
  - intros j k Hj Hk. rewrite !Es by done. by apply Hinj.
  - intros k Hk Hks. rewrite Es by (split; [lia|]; unfold MAXFILE in *; nia). by apply Hal.
  - by apply store_owned.
  - intros k Hk. rewrite Es by done. by apply Hoth.
Qed.

Lemma store_grows k d cur q :
  file_wf cur q -> 0 <= k < MAXFILE -> slot q cur k <> 0 -> enlarges cur q (upd_cur (dv, slot q cur k) d cur) q.
Proof.
  intros Hf Hk Hn. pose proof (fl_slot _ _ Hf k ltac:(lia) Hn) as Ho.
  assert (Hne : slot q cur k <> slot q cur MAXFILE). { intros E. apply (fl_inj _ _ Hf) in E; lia. }
  split; [by destruct q| | |].
  - intros j Hj. left. by apply store_slot.
  - intros y Hy. by rewrite store_bits by (done || apply Ho).
  - intros b Hb. apply upd_cur_ne. intros ->. apply Hn. apply (Hb eq_refl) with k; [lia|done].
Qed.

(** * The state of the kernel in the middle of a write *)

Lemma in_op_size n dirt s : in_op dv start n dirt s -> n = size dirt.
Proof.
  intros [[blocks Ht] _ _ _ _]. assert (E : dirt = list_to_set (home_key dv blocks <$> seq 0 n)).
  { apply set_eq. intros k. rewrite elem_of_list_to_set, list_elem_of_fmap, (tr_dirt _ _ _ _ _ _ Ht).
    setoid_rewrite elem_of_seq. split; intros (j & ? & ?); exists j; naive_solver lia. }
  rewrite E, size_list_to_set by apply Ht. by rewrite length_fmap, length_seq.
Qed.

(** What a file system call on inode [i] changes. *)
Definition file_only (i : nat) (s s' : kernel) : Prop := exists q, fs_only (on_inode i (fun _ => q) s) s'.

Lemma alter_same {A} (l : list A) : forall i x, default x (l !! i) = x -> alter (fun _ => x) i l = l.
Proof. induction l as [|y l IH]; intros [|i] x E; simpl in *; [done|done|by rewrite E|]. f_equal. by apply IH. Qed.

Lemma alter_const_twice {A} (l : list A) x y : forall i, alter (fun _ => x) i (alter (fun _ => y) i l) = alter (fun _ => x) i l.
Proof. induction l as [|z l IH]; intros [|i]; simpl; [done|done|done|]. f_equal. apply IH. Qed.

Lemma fs_file_only i s s' : fs_only s s' -> file_only i s s'.
Proof.
  intros Hs. exists (inode_of i s). replace (on_inode i _ s) with s; [done|]. unfold on_inode. rewrite alter_same; [by destruct s|].
  unfold inode_of. by destruct (k_icache s !! i).
Qed.

Lemma file_only_trans i s1 s2 s3 : file_only i s1 s2 -> file_only i s2 s3 -> file_only i s1 s3.
Proof.
  intros (q & bc & d & pt & lg & -> & A1 & A2) (q' & bc' & d' & pt' & lg' & -> & A3 & A4). exists q', bc', d', pt', lg'.
  unfold on_inode in *. cbn in *. rewrite alter_const_twice. split_and!; [done|congruence..].
Qed.

Lemma alter_default {A} (f : A -> A) d (l : list A) : forall i, alter f i l = alter (fun _ => f (default d (l !! i))) i l.
Proof. induction l as [|y l IH]; intros [|i]; simpl; [done|done|done|]. f_equal. apply IH. Qed.

Lemma file_only_inode i f s : file_only i s (on_inode i f s).
Proof.
  exists (f (inode_of i s)). replace (on_inode i (fun _ => _) s) with (on_inode i f s); [apply fs_only_refl|].
  unfold on_inode, inode_of. by rewrite (alter_default f zero_inode).
Qed.

Record file_state (i : nat) (s : kernel) (cur : Z * Z -> list Z) (dirt : gset (Z * Z)) (q : inode_t) : Prop := {
  st_cache : cache s [] cur dirt;
  st_op : in_op dv start (size dirt) dirt s;
  st_sb : k_sb s = sb;
  st_inode : k_icache s !! i = Some q;
  st_map : map_ok cur;
  st_file : file_wf cur q
}.

Lemma fs_only_inode s s' : fs_only s s' -> k_icache s' = k_icache s /\ k_sb s' = k_sb s.
Proof. by intros (bc & d & pt & lg & -> & _). Qed.

Lemma in_op_on_inode i f n dirt s : in_op dv start n dirt s -> in_op dv start n dirt (on_inode i f s).
Proof. intros [(blocks & []) ? ? ? ?]. split; try done. exists blocks. by split. Qed.

Lemma state_inode i s cur dirt q : file_state i s cur dirt q -> inode_of i s = q.
Proof. intros Hs. unfold inode_of. by rewrite (st_inode _ _ _ _ _ Hs). Qed.

(** A step of the write: from one state of the file to another. *)
Section step.
Context (i : nat) (T : list Z) (HTnd : NoDup T) (HT : forall j, j ∈ T -> 0 <= j <= MAXFILE).

Record reaches (s : kernel) (cur : Z * Z -> list Z) (dirt : gset (Z * Z)) (q : inode_t)
    (s' : kernel) (cur' : Z * Z -> list Z) (dirt' : gset (Z * Z)) (q' : inode_t) : Prop := {
  re_state : file_state i s' cur' dirt' q';
  re_only : file_only i s s';
  re_grows : enlarges cur q cur' q';
  re_other : forall j, 0 <= j <= MAXFILE -> j ∉ T -> slot q' cur' j = slot q cur j;
  re_room : (missing q' cur' T <= nfree cur')%nat;
  re_dirt : dirt ⊆ dirt';
  re_bound : forall b, b ∈ dirt' -> b ∈ dirt \/ b.1 = dv /\ in_bitmap b.2 \/
    exists j, j ∈ T /\ slot q' cur' j <> 0 /\ b = (dv, slot q' cur' j);
  re_count : forall T', NoDup T' -> (forall j, j ∈ T -> j ∈ T') -> (forall j, j ∈ T' -> 0 <= j <= MAXFILE) ->
    (missing q cur T' + nfree cur' = missing q' cur' T' + nfree cur)%nat
}.

Lemma reaches_fs s s' cur dirt q :
  file_state i s cur dirt q -> (missing q cur T <= nfree cur)%nat -> cache s' [] cur dirt -> in_op dv start (size dirt) dirt s' ->
  fs_only s s' -> reaches s cur dirt q s' cur dirt q.
Proof.
  intros Hs Hr Hc Hop Ho. destruct (fs_only_inode _ _ Ho) as [E1 E2]. split; try done.
  - destruct Hs. split; [done|done|by rewrite E2|by rewrite E1|done|done].
  - by apply fs_file_only.
  - apply grows_refl.
  - by left.
Qed.

Lemma reaches_trans s1 cur1 dirt1 q1 s2 cur2 dirt2 q2 s3 cur3 dirt3 q3 :
  map_ok cur1 -> file_wf cur2 q2 ->
  reaches s1 cur1 dirt1 q1 s2 cur2 dirt2 q2 -> reaches s2 cur2 dirt2 q2 s3 cur3 dirt3 q3 ->
  reaches s1 cur1 dirt1 q1 s3 cur3 dirt3 q3.
Proof.
  intros Hm Hf2 [A1 A2 A3 A4 A5 A6 A7 A8] [B1 B2 B3 B4 B5 B6 B7 B8]. split; [done| | | |done| | |].
  - by eapply file_only_trans.
  - by eapply grows_trans.
  - intros j Hj Hn. by rewrite B4, A4.
  - by etrans.
  - intros b [Hb|[Hb|Hb]]%B7; [|auto..]. destruct (A7 b Hb) as [?|[?|(j & Hj & Hn & ->)]]; [auto..|].
    right; right. exists j. destruct (gw_slot _ _ _ _ B3 j (HT j Hj)) as [E|[E _]]; [|done]. by rewrite E.
  - intros T' Hnd Hin HT'. specialize (A8 T' Hnd Hin HT'). specialize (B8 T' Hnd Hin HT'). lia.
Qed.

(** The blocks that the step adds to the transaction. *)
Definition bitmap_blocks : nat := Z.to_nat (sb_size sb / BPB + 1).

Lemma reaches_size s cur dirt q s' cur' dirt' q' :
  reaches s cur dirt q s' cur' dirt' q' -> map_ok cur -> (size dirt' <= size dirt + bitmap_blocks + length T)%nat.
Proof.
  clear HTnd HT. intros Hr Hm. set (maps := list_to_set ((fun b => (dv, u32 (b + sb_bmapstart sb))) <$> seqZ 0 (sb_size sb / BPB + 1)) : gset (Z * Z)).
  set (slots := list_to_set ((fun j => (dv, slot q' cur' j)) <$> T) : gset (Z * Z)).
  assert (Hsub : dirt' ⊆ dirt ∪ maps ∪ slots).
  { intros b [Hb|[[Hb1 (y & Hy & Hb2)]|(j & Hj & _ & ->)]]%(re_bound _ _ _ _ _ _ _ _ Hr).
    - set_solver.
    - apply elem_of_union_l, elem_of_union_r, elem_of_list_to_set, list_elem_of_fmap. exists (y / BPB). split.
      + destruct b. simpl in *. by subst.
      + apply elem_of_seqZ. mlia.
    - apply elem_of_union_r, elem_of_list_to_set, list_elem_of_fmap. by exists j. }
  apply subseteq_size in Hsub. pose proof (size_union_le (dirt ∪ maps) slots). pose proof (size_union_le dirt maps).
  assert (size maps <= bitmap_blocks)%nat by (etrans; [apply size_list_le|rewrite length_fmap, length_seqZ; done]).
  assert (size slots <= length T)%nat by (etrans; [apply size_list_le|by rewrite length_fmap]). lia.
Qed.

(** Taking a free block, with buffers of blocks in use held. *)
Lemma wp_balloc_free s held cur dirt e (Q : Z -> env kernel -> kernel -> Prop) :
  cache s held cur dirt -> in_op dv start (size dirt) dirt s -> k_sb s = sb -> map_ok cur ->
  (forall c, c ∈ held -> exists bn, key (buf_of c s) = (dv, bn) /\ owned cur bn) ->
  (size dirt + length held + 3 < head)%nat -> nfree cur <> 0%nat ->
  (forall s' x, 0 <= x < sb_size sb -> used dv sb cur x = false ->
     let dirt' := dirt ∪ {[(dv, BBLOCK x sb)]} ∪ {[(dv, x)]} in
     cache s' held (taken dv sb x cur) dirt' -> in_op dv start (size dirt') dirt' s' ->
     (forall c, c ∈ held -> key (buf_of c s') = key (buf_of c s)) -> fs_only s s' -> Q x e s') ->
  wp (balloc dv) Q e s.
Proof.
  intros Hc Hop Hsb Hm Hh Hroom Hfree HQ. assert (Ehd : head = 30%nat) by done.
  eapply wp_balloc; [done|exact Hop|rewrite Hsb; by apply map_bitmap|lia|unfold LOGSIZE; lia| |].
  - rewrite Hsb. unfold nfree in Hfree. destruct (filter _ _) as [|x l] eqn:E; [done|].
    assert (Hx : x ∈ x :: l) by (by left). rewrite <- E in Hx. apply list_elem_of_filter in Hx as [Hx1 Hx2%elem_of_seqZ].
    exists x. split; [lia|done].
  - rewrite Hsb. intros s' n' x Hx Hu _ _ Hc' Hop' Hk Ho. apply HQ; try done.
    by rewrite <- (in_op_size _ _ _ Hop').
Qed.

Lemma alloc_reaches k x s cur dirt q s' cur' dirt' q' :
  file_state i s cur dirt q -> (missing q cur T <= nfree cur)%nat -> k ∈ T -> alloc_at k x cur q cur' q' ->
  cache s' [] cur' dirt' -> in_op dv start (size dirt') dirt' s' -> k_sb s' = sb -> k_icache s' !! i = Some q' ->
  file_only i s s' -> dirt ⊆ dirt' ->
  (forall b, b ∈ dirt' -> b ∈ dirt \/ b = (dv, BBLOCK x sb) \/ b = (dv, x) \/
     MAXFILE ∈ T /\ slot q cur MAXFILE <> 0 /\ b = (dv, slot q cur MAXFILE)) ->
  reaches s cur dirt q s' cur' dirt' q'.
Proof.
  intros Hs Hr Hk Ha Hc Hop Hsb Hi Ho Hd Hb. pose proof (st_map _ _ _ _ _ Hs) as Hm. pose proof (st_file _ _ _ _ _ Hs) as Hf.
  pose proof (al_slots _ _ _ _ _ _ Ha) as Hsl. pose proof (alloc_nonzero _ _ _ _ _ _ Ha Hm) as Hx0.
  destruct (al_slot _ _ _ _ _ _ Ha) as [Hk0 Hks]. split; [|done| | | |done| |].
  - split; [done..|by eapply alloc_map|by eapply alloc_wf].
  - by eapply alloc_grows.
  - intros j Hj Hn. rewrite Hsl by done. rewrite decide_False; [done|]. by intros ->.
  - rewrite (alloc_nfree _ _ _ _ _ _ Ha), (alloc_missing _ _ _ _ _ _ T Ha) in Hr by done. lia.
  - intros b [?|[->|[->|(Hm1 & Hm2 & ->)]]]%Hb; [by left|..].
    + right; left. split; [done|]. exists x. split; [apply Ha|done].
    + right; right. exists k. rewrite Hsl, decide_True by done. done.
    + right; right. exists MAXFILE. rewrite Hsl by done. rewrite decide_False; [done|]. intros E. congruence.
  - intros T' Hnd Hin HT'. rewrite (alloc_nfree _ _ _ _ _ _ Ha), (alloc_missing _ _ _ _ _ _ T' Ha) by auto. lia.
Qed.

Lemma missing_free q cur k : (missing q cur T <= nfree cur)%nat -> k ∈ T -> slot q cur k = 0 -> nfree cur <> 0%nat.
Proof.
  intros Hr Hk E. assert (0 < missing q cur T)%nat; [|lia]. unfold missing.
  assert (Hin : k ∈ filter (fun k => slot q cur k = 0) T) by (by apply list_elem_of_filter).
  destruct (filter _ _); [by apply elem_of_nil in Hin|simpl; lia].
Qed.

(** The part of [bmap] that looks up an address of the inode. *)
Lemma wp_ensure k s cur dirt q e (Q : Z -> env kernel -> kernel -> Prop) :
  file_state i s cur dirt q -> (missing q cur T <= nfree cur)%nat -> k ∈ T -> 0 <= k < NDIRECT \/ k = MAXFILE ->
  (size dirt + 3 < head)%nat ->
  (forall s' cur' dirt' q', reaches s cur dirt q s' cur' dirt' q' -> (size dirt' <= size dirt + 2)%nat ->
     (forall p, 0 <= p < MAXFILE * BSIZE -> fdata q' cur' p = fdata q cur p) ->
     slot q' cur' k <> 0 -> Q (slot q' cur' k) e s') ->
  wp (if slot q cur k =? 0 then
        a ← balloc dv; iset i (fun q => set_iaddrs (<[addr_index k := a]> (iaddrs q)) q);; mret a
      else mret (slot q cur k)) Q e s.
Proof.
  intros Hs Hr Hk Hkr Hroom HQ. destruct (slot q cur k =? 0) eqn:E.
  2: { apply wp_ret. apply (HQ s cur dirt q); [|lia|done|lia].
       apply reaches_fs; [done|done|apply Hs|apply Hs|apply fs_only_refl]. }
  apply Z.eqb_eq in E. pose proof Hs as [Hc Hop Hsb Hi Hm Hf]. apply wp_bind.
  eapply (wp_balloc_free s []); [done|done|done|done| |simpl; lia|by apply (missing_free q cur k)|].
  { intros c Hin. by apply elem_of_nil in Hin. }
  intros s1 x Hx Hu dirt' Hc1 Hop1 _ Ho1. unfold iset. apply wp_bind, wp_modify, wp_ret.
  set (q' := set_iaddrs (<[addr_index k := x]> (iaddrs q)) q).
  assert (Ha : alloc_at k x cur q (taken dv sb x cur) q').
  { unfold q', addr_index. destruct Hkr as [Hkr| ->]; [|by apply alloc_indirect].
    assert (Emax : MAXFILE = 140 /\ NDIRECT = 12) by done. rewrite (proj2 (Z.eqb_neq _ _)) by lia. by apply alloc_direct. }
  destruct (fs_only_inode _ _ Ho1) as [E1 E2].
  assert (Esl : slot q' (taken dv sb x cur) k = x) by (rewrite (al_slots _ _ _ _ _ _ Ha), decide_True; [done|done|apply Ha]).
  rewrite <- Esl at 1. apply (HQ _ _ dirt').
  - eapply (alloc_reaches k x); [done|done|done|done|by apply cache_on_inode|by apply in_op_on_inode|by rewrite <- Hsb| | | |].
    + cbn. rewrite E1, list_lookup_alter_eq, Hi. done.
    + eapply file_only_trans; [by apply fs_file_only|apply file_only_inode].
    + set_solver.
    + set_solver.
  - unfold dirt'. pose proof (size_add dirt (dv, BBLOCK x sb)). pose proof (size_add (dirt ∪ {[(dv, BBLOCK x sb)]}) (dv, x)). lia.
  - intros p Hp. by eapply alloc_data.
  - rewrite Esl. by eapply alloc_nonzero.
Qed.

(** A held buffer gets new contents, which are logged. *)
Lemma wp_store_log {A} s b cur dirt e bn f d (rest : K A) (Q : A -> env kernel -> kernel -> Prop) :
  cache s [b] cur dirt -> in_op dv start (size dirt) dirt s -> key (buf_of b s) = (dv, bn) ->
  f (buf_of b s) = set_bdata d (buf_of b s) -> good_block bn -> Z.of_nat (size dirt) < LOGSIZE - 1 ->
  (forall s', let dirt' := dirt ∪ {[(dv, bn)]} in
     cache s' [b] (upd_cur (dv, bn) d cur) dirt' -> in_op dv start (size dirt') dirt' s' ->
     key (buf_of b s') = (dv, bn) -> fs_only s s' -> wp rest Q e s') ->
  wp (bufset b f;; log_write b;; rest) Q e s.
Proof.
  intros Hc Hop Hk Hf [Hr Hl Hsv] Hn HQ. unfold bufset. apply wp_bind, wp_modify.
  rewrite (on_buf_at b f (set_bdata d)) by done. set (s1 := on_buf b (set_bdata d) s).
  assert (Hk1 : key (buf_of b s1) = (dv, bn)).
  { rewrite <- Hk. unfold s1, buf_of, on_buf. simpl. by apply (alter_field key). }
  pose proof (cache_store _ _ _ _ b d Hc ltac:(by left)) as Hc1. rewrite Hk in Hc1. fold s1 in Hc1.
  apply wp_bind. eapply (wp_log_write s1 [b] _ dirt b e dv start (size dirt) bn);
    [done|by eapply in_op_bio, Hop; apply bio_only_on_buf|by left|done..|].
  intros s2 n' _ Hc2 Hop2 Hk2 _ Ho2. apply HQ; [done| |by rewrite Hk2|].
  - by rewrite <- (in_op_size _ _ _ Hop2).
  - eapply fs_only_trans; [apply (fs_only_on_buf b)|exact Ho2].
Qed.

(** The part of [bmap] that looks up an entry of the indirect block. *)
Definition bmap_entry (a bn : Z) : K Z :=
  bp ← bread dv a;
  d ← bufget bp bdata;
  let x := get32 d (Z.to_nat (4 * bn)) in
  x ← (if x =? 0 then
         x ← balloc dv;
         bufset bp (fun b => set_bdata (put32 (bdata b) (Z.to_nat (4 * bn)) x) b);;
         log_write bp;;
         mret x
       else mret x);
  brelse bp;;
  mret x.

Lemma wp_entry k s cur dirt q e (Q : Z -> env kernel -> kernel -> Prop) :
  file_state i s cur dirt q -> (missing q cur T <= nfree cur)%nat -> k ∈ T -> NDIRECT <= k < MAXFILE -> MAXFILE ∈ T ->
  slot q cur MAXFILE <> 0 -> (size dirt + 4 < head)%nat ->
  (forall s' cur' dirt' q', reaches s cur dirt q s' cur' dirt' q' -> (size dirt' <= size dirt + 3)%nat ->
     (forall p, 0 <= p < MAXFILE * BSIZE -> fdata q' cur' p = fdata q cur p) ->
     slot q' cur' k <> 0 -> Q (slot q' cur' k) e s') ->
  wp (bmap_entry (slot q cur MAXFILE) (k - NDIRECT)) Q e s.
Proof.
  intros Hs Hr Hk Hkr HM Hi0 Hroom HQ. pose proof Hs as [Hc Hop Hsb Hi Hm Hf].
  assert (Ehd : head = 30%nat) by done.
  set (ind := slot q cur MAXFILE) in *. assert (Ho : owned cur ind) by (by apply Hf).
  unfold bmap_entry, bufget. apply wp_bind.
  eapply (wp_bread s [] cur dirt); [done|apply Hm|apply Ho|apply none_held|right; simpl; lia|].
  intros b s1 _ Hc1 Hk1 _ Hd1 Ho1. apply wp_bind, wp_get. rewrite (held_data _ _ _ _ b Hc1), Hk1 by (by left).
  assert (Eslot : slot q cur k = get32 (cur (dv, ind)) (Z.to_nat (4 * (k - NDIRECT)))).
  { rewrite slot_far by done. fold ind. by rewrite (proj2 (Z.eqb_neq _ _) Hi0), (fl_dev _ _ Hf). }
  cbv zeta. rewrite <- Eslot. destruct (slot q cur k =? 0) eqn:E.
  2: { apply wp_bind, wp_ret, wp_bind. eapply (wp_brelse s1 [b] [] cur dirt b); [done|done| |].
       { apply (clean_release s [] cur dirt s1 dv ind); [done|apply Hm|apply none_held|done|done]. }
       intros s2 Hc2 _ Hd2 Ho2. apply wp_ret, (HQ s2 cur dirt q); [|lia|done|lia].
       apply reaches_fs; [done|done|done|by do 2 (eapply in_op_bio; [eassumption|])|eauto with frame]. }
  apply Z.eqb_eq in E. destruct (fs_only_inode _ _ (bio_fs_only _ _ Ho1)) as [Ei1 Es1].
  apply wp_bind, wp_bind. eapply (wp_balloc_free s1 [b] cur dirt);
    [done|by eapply in_op_bio|by rewrite Es1|done| |simpl; lia|by apply (missing_free q cur k)|].
  { intros c ->%list_elem_of_singleton. by exists ind. }
  intros s2 x Hx Hu dirt1 Hc2 Hop2 Hk2 Ho2. assert (Hsz1 : (size dirt1 <= size dirt + 2)%nat).
  { unfold dirt1. pose proof (size_add dirt (dv, BBLOCK x sb)). pose proof (size_add (dirt ∪ {[(dv, BBLOCK x sb)]}) (dv, x)). lia. }
  pose proof (alloc_entry k x cur q ind Hm Hf Hkr eq_refl Hi0 E Hx Hu) as Ha. set (cur' := upd_cur _ _ _) in Ha.
  assert (Hkb : key (buf_of b s2) = (dv, ind)) by (rewrite Hk2; [done|by left]).
  eapply (wp_store_log s2 b (taken dv sb x cur) dirt1 e ind); [done|done|done| |apply Ho|unfold LOGSIZE; lia|].
  { by rewrite (held_data _ _ _ _ b Hc2), Hkb by (by left). }
  fold cur'. intros s3 dirt' Hc3 Hop3 Hk3 Ho3. apply wp_ret, wp_bind.
  eapply (wp_brelse s3 [b] [] cur' dirt' b); [done|done|left; rewrite Hk3; unfold dirt'; set_solver|].
  intros s4 Hc4 _ _ Ho4. apply wp_ret.
  assert (Esl : slot q cur' k = x) by (rewrite (al_slots _ _ _ _ _ _ Ha), decide_True; [done|done|lia]).
  assert (Hfs : fs_only s s4) by eauto 6 with frame. destruct (fs_only_inode _ _ Hfs) as [Ei4 Es4].
  rewrite <- Esl at 1. apply (HQ s4 cur' dirt').
  - eapply (alloc_reaches k x); [done|done|done|done|done|by eapply in_op_bio|by rewrite Es4|by rewrite Ei4|by apply fs_file_only|set_solver|].
    unfold dirt', dirt1. intros bb. fold ind. set_solver.
  - unfold dirt'. pose proof (size_add dirt1 (dv, ind)). lia.
  - intros p Hp. by eapply alloc_data.
  - rewrite Esl. by eapply alloc_nonzero.
Qed.

(** [bmap] finds the block of the file, or gives the file one, which holds zeros. *)
Lemma wp_bmap_grow k s cur dirt q e (Q : Z -> env kernel -> kernel -> Prop) :
  file_state i s cur dirt q -> (missing q cur T <= nfree cur)%nat -> k ∈ T -> 0 <= k < MAXFILE ->
  (NDIRECT <= k -> MAXFILE ∈ T) -> (size dirt + 6 < head)%nat ->
  (forall s' cur' dirt' q', reaches s cur dirt q s' cur' dirt' q' ->
     (forall p, 0 <= p < MAXFILE * BSIZE -> fdata q' cur' p = fdata q cur p) ->
     slot q' cur' k <> 0 -> Q (slot q' cur' k) e s') ->
  wp (bmap i k) Q e s.
Proof.
  intros Hs Hr Hk Hkr HM Hroom HQ. assert (Emax : MAXFILE = 140 /\ NDIRECT = 12 /\ NINDIRECT = 128) by done.
  destruct Emax as (Emax & End & Eni). pose proof (state_inode _ _ _ _ _ Hs) as Eq.
  pose proof (fl_dev _ _ (st_file _ _ _ _ _ Hs)) as Edev.
  unfold bmap, iget_f. apply wp_bind, wp_get. rewrite Eq, Edev. destruct (k <? NDIRECT) eqn:Ek.
  - apply wp_bind, wp_get. rewrite Eq, <- (slot_near q cur) by lia.
    assert (Ei : addr_index k = Z.to_nat k) by (unfold addr_index; zif; lia). rewrite <- Ei.
    apply (wp_ensure k s cur dirt q); [done|done|done|lia|lia|]. intros s' cur' dirt' q' Hre _ Hd Hn. by eapply HQ.
  - rewrite (proj2 (Z.ltb_lt (k - NDIRECT) NINDIRECT)) by lia. cbv zeta. apply wp_bind, wp_get.
    rewrite Eq, <- (slot_indirect q cur). apply wp_bind. change (Z.to_nat NDIRECT) with (addr_index MAXFILE).
    apply (wp_ensure MAXFILE s cur dirt q); [done|done|apply HM; lia|by right|lia|].
    intros s1 cur1 dirt1 q1 Hre1 Hsz1 Hd1 Hn1. apply (wp_entry k s1 cur1 dirt1 q1); [apply Hre1|apply Hre1|done|lia|apply HM; lia|done|lia|].
    intros s2 cur2 dirt2 q2 Hre2 _ Hd2 Hn2. apply (HQ s2 cur2 dirt2 q2); [| |done].
    + eapply reaches_trans; [apply Hs|apply Hre1|exact Hre1|exact Hre2].
    + intros p Hp. by rewrite Hd2, Hd1.
Qed.

(** Storing into a block of data. *)
Lemma store_reaches k s cur dirt q s' d :
  file_state i s cur dirt q -> (missing q cur T <= nfree cur)%nat -> k ∈ T -> 0 <= k < MAXFILE -> slot q cur k <> 0 ->
  length d = Z.to_nat BSIZE ->
  let a := slot q cur k in let dirt' := dirt ∪ {[(dv, a)]} in
  cache s' [] (upd_cur (dv, a) d cur) dirt' -> in_op dv start (size dirt') dirt' s' -> fs_only s s' ->
  reaches s cur dirt q s' (upd_cur (dv, a) d cur) dirt' q.
Proof.
  intros Hs Hr Hk Hkr Hn Hd a dirt' Hc Hop Ho. destruct (fs_only_inode _ _ Ho) as [E1 E2].
  pose proof Hs as [_ _ Hsb Hi Hm Hf]. pose proof (fl_slot _ _ Hf k ltac:(lia) Hn) as Hown.
  assert (Hne : a <> slot q cur MAXFILE). { intros E. apply (fl_inj _ _ Hf) in E; lia. }
  split.
  - split; [done|done|by rewrite E2|by rewrite E1|by apply store_map|by apply store_wf].
  - by apply fs_file_only.
  - by apply store_grows.
  - intros j Hj _. by apply store_slot.
  - by rewrite store_nfree, store_missing.
  - set_solver.
  - intros b [Hb|Hb%elem_of_singleton]%elem_of_union; [by left|right; right]. exists k.
    rewrite store_slot by (done || lia). done.
  - intros T' _ _ HT'. by rewrite store_nfree, store_missing.
Qed.

End step.

(** ** The bytes of a write *)

Lemma splice_at d o bs j :
  (o + length bs <= length d)%nat ->
  lget (splice d o bs) j = if decide (o <= j < o + length bs)%nat then lget bs (j - o) else lget d j.
Proof.
  intros Hl. unfold lget, splice. case_decide as Hj; rewrite !nth_lookup.
  - rewrite lookup_app_r by (rewrite length_take; lia). rewrite length_take, lookup_app_l by lia. do 2 f_equal. lia.
  - destruct (decide (j < o)%nat).
    + rewrite lookup_app_l by (rewrite length_take; lia). f_equal. by apply lookup_take_lt.
    + rewrite lookup_app_r by (rewrite length_take; lia). rewrite length_take, lookup_app_r by lia.
      rewrite lookup_drop. do 2 f_equal. lia.
Qed.

Lemma splice_length d o bs : (o + length bs <= length d)%nat -> length (splice d o bs) = length d.
Proof. intros Hl. unfold splice. rewrite !length_app, length_take, length_drop. lia. Qed.

Lemma store_data off bs cur q p :
  file_wf cur q -> 0 <= off < MAXFILE * BSIZE -> Z.of_nat (length bs) <= BSIZE - off mod BSIZE ->
  slot q cur (off / BSIZE) <> 0 -> 0 <= p < MAXFILE * BSIZE ->
  let a := slot q cur (off / BSIZE) in
  fdata q (upd_cur (dv, a) (splice (cur (dv, a)) (Z.to_nat (off mod BSIZE)) bs) cur) p =
  if decide (off <= p < off + Z.of_nat (length bs)) then lget bs (Z.to_nat (p - off)) else fdata q cur p.
Proof.
  intros Hf Hoff Hbs Hn Hp a. assert (Emax : MAXFILE = 140 /\ BSIZE = 512) by done. destruct Emax as [Emax Ebs].
  assert (Hk : 0 <= off / BSIZE < MAXFILE /\ 0 <= p / BSIZE < MAXFILE) by mlia. destruct Hk as [Hk Hpk].
  pose proof (Z.mod_pos_bound off BSIZE ltac:(lia)) as Hmod. pose proof (Z.mod_pos_bound p BSIZE ltac:(lia)) as Hmodp.
  assert (Hne : a <> slot q cur MAXFILE). { intros E. apply (fl_inj _ _ Hf) in E; lia. }
  pose proof (ow_len _ _ (fl_slot _ _ Hf (off / BSIZE) ltac:(lia) Hn)) as Hlen. fold a in Hlen.
  unfold fdata. rewrite store_slot, (fl_dev _ _ Hf) by (done || lia).
  destruct (decide (p / BSIZE = off / BSIZE)) as [E|E].
  - rewrite E. fold a in Hn |- *. rewrite (proj2 (Z.eqb_neq _ _) Hn), upd_cur_eq.
    rewrite splice_at by (rewrite Hlen; lia).
    assert (Hpo : p - off = p mod BSIZE - off mod BSIZE) by mlia.
    repeat case_decide; try lia; try done. f_equal. lia.
  - rewrite decide_False by mlia. destruct (_ =? 0) eqn:E0; [done|]. apply Z.eqb_neq in E0.
    rewrite upd_cur_ne; [done|]. intros [= E1]. apply (fl_inj _ _ Hf) in E1; lia.
Qed.

(** Where the bytes of a write come from: memory that the file system does not change. *)
Definition supplies (i : nat) (src : source) (data : list Z) (e : env kernel) (s : kernel) : Prop :=
  forall t tot m, file_only i s t -> 0 <= tot -> 0 <= m -> tot + m <= Z.of_nat (length data) ->
    get_bytes src tot m e t = Done (take (Z.to_nat m) (drop (Z.to_nat tot) data)) e t.

Lemma supplies_kernel i data e s : supplies i (SKernel data) data e s.
Proof. intros t tot m _ _ _ _. done. Qed.

(** ** The loop of [writei] *)

Definition write_round (i : nat) (dev : Z) (src : source) (n : Z) : Z * Z -> K (Z * Z + Z) := fun '(tot, off) =>
  if negb (tot <? n) then mret (inr off)
  else
    a ← bmap i (off / BSIZE);
    bp ← bread dev a;
    let m := Z.min (n - tot) (BSIZE - off mod BSIZE) in
    bs ← get_bytes src tot m;
    bufset bp (fun b => set_bdata (splice (bdata b) (Z.to_nat (off mod BSIZE)) bs) b);;
    log_write bp;;
    brelse bp;;
    mret (inl (tot + m, off + m)).

(** Some of the write is done: [tot] bytes. *)
Record partly (i : nat) (T : list Z) (s : kernel) (cur : Z * Z -> list Z) (dirt : gset (Z * Z)) (q : inode_t) (off : Z) (data : list Z)
    (tot : Z) (s' : kernel) (cur' : Z * Z -> list Z) (dirt' : gset (Z * Z)) (q' : inode_t) : Prop := {
  pa_reaches : reaches i T s cur dirt q s' cur' dirt' q';
  pa_data : forall p, 0 <= p < MAXFILE * BSIZE ->
    fdata q' cur' p = if decide (off <= p < off + tot) then lget data (Z.to_nat (p - off)) else fdata q cur p;
  pa_logged : 0 < tot -> forall k, off / BSIZE <= k -> k * BSIZE < off + tot -> slot q' cur' k <> 0 /\ (dv, slot q' cur' k) ∈ dirt'
}.

Lemma lget_part data tot m j : (j < m)%nat -> lget (take m (drop tot data)) j = lget data (tot + j).
Proof. intros Hj. unfold lget. by rewrite !nth_lookup, lookup_take_lt, lookup_drop. Qed.

Lemma wp_write_round i T s cur dirt q off data src tot s1 cur1 dirt1 q1 e (Q : Z * Z + Z -> env kernel -> kernel -> Prop) :
  let n := Z.of_nat (length data) in
  NoDup T -> (forall j, j ∈ T -> 0 <= j <= MAXFILE) ->
  map_ok cur -> supplies i src data e s -> 0 <= off -> off + n <= MAXFILE * BSIZE -> 0 <= tot < n ->
  let off' := off + tot in let k := off' / BSIZE in
  k ∈ T -> (NDIRECT <= k -> MAXFILE ∈ T) -> (size dirt + bitmap_blocks + length T + 6 < head)%nat ->
  partly i T s cur dirt q off data tot s1 cur1 dirt1 q1 ->
  let m := Z.min (n - tot) (BSIZE - off' mod BSIZE) in
  (forall s' cur' dirt' q', partly i T s cur dirt q off data (tot + m) s' cur' dirt' q' -> Q (inl (tot + m, off' + m)) e s') ->
  wp (write_round i dv src n (tot, off')) Q e s1.
Proof.
  intros n HTnd HT Hm0 Hsup Hoff Hmax Htot off' k Hk HM Hroom Hp m HQ. pose proof Hp as [Hre Hdata Hlog].
  pose proof (reaches_size _ _ _ _ _ _ _ _ _ _ Hre Hm0) as Hsz1. assert (Ehd : head = 30%nat) by done.
  assert (Emax : MAXFILE = 140 /\ BSIZE = 512) by done. destruct Emax as [Emax Ebs].
  assert (Hkr : 0 <= k < MAXFILE) by (unfold k, off'; mlia).
  pose proof (Z.mod_pos_bound off' BSIZE ltac:(lia)) as Hmod. assert (Hm : 0 < m <= BSIZE - off' mod BSIZE) by lia.
  unfold write_round. rewrite (proj2 (Z.ltb_lt tot n)) by lia. cbn [negb]. apply wp_bind. fold k.
  apply (wp_bmap_grow i T HTnd HT k s1 cur1 dirt1 q1); [apply Hre|apply Hre|done|done|done|lia|].
  intros s2 cur2 dirt2 q2 Hre2 Hd2 Hn2. set (a := slot q2 cur2 k) in *.
  assert (Hre12 : reaches i T s cur dirt q s2 cur2 dirt2 q2).
  { eapply reaches_trans; [done|done|apply Hre|exact Hre|exact Hre2]. }
  pose proof (re_state _ _ _ _ _ _ _ _ _ _ Hre2) as Hst2. pose proof Hst2 as [Hc2 Hop2 Hsb2 Hi2 Hm2 Hf2].
  pose proof (fl_slot _ _ Hf2 k ltac:(lia) Hn2) as Hown. fold a in Hown.
  pose proof (reaches_size _ _ _ _ _ _ _ _ _ _ Hre12 Hm0) as Hsz2.
  apply wp_bind. eapply (wp_bread s2 [] cur2 dirt2); [done|apply Hm2|apply Hown|apply none_held|right; simpl; lia|].
  intros b s3 _ Hc3 Hk3 _ _ Ho3. cbv zeta. fold m. apply wp_bind.
  eapply wp_intro; [apply Hsup; [|lia..]|].
  { eapply file_only_trans; [apply Hre12|]. by apply fs_file_only, bio_fs_only. }
  set (bs := take _ _). assert (Hbs : Z.of_nat (length bs) = m).
  { unfold bs. rewrite length_take, length_drop. lia. }
  eapply (wp_write_release s3 b [] cur2 dirt2 e dv start (size dirt2) a);
    [done|by eapply in_op_bio|done|by rewrite (held_data _ _ _ _ b Hc3), Hk3 by (by left)|apply Hown..|unfold LOGSIZE; lia|].
  set (d := splice _ _ _). intros s4 n' _ Hc4 Hop4 _ Ho4. apply wp_ret.
  rewrite (in_op_size _ _ _ Hop4) in Hop4.
  assert (Hlen : length d = Z.to_nat BSIZE).
  { unfold d. rewrite splice_length; [apply Hown|]. rewrite (ow_len _ _ Hown). lia. }
  assert (Hre4 : reaches i T s2 cur2 dirt2 q2 s4 (upd_cur (dv, a) d cur2) (dirt2 ∪ {[(dv, a)]}) q2).
  { apply store_reaches; try done; [apply Hre2|eauto with frame]. }
  eapply HQ. split.
  - eapply reaches_trans; [done|done|exact Hf2|exact Hre12|exact Hre4].
  - intros p Hp'. unfold d, a, k. rewrite store_data; [|done|unfold off'; lia|lia|done|done]. rewrite Hbs, Hd2, Hdata by done.
    unfold off'. repeat case_decide; try lia; try done. unfold bs. rewrite lget_part by lia. f_equal. lia.
  - intros _ j Hj1 Hj2. assert (Hne : a <> slot q2 cur2 MAXFILE). { intros E. apply (fl_inj _ _ Hf2) in E; lia. }
    rewrite store_slot by (done || unfold off' in *; mlia). destruct (decide (j = k)) as [->|Hjk]; [split; [done|set_solver]|].
    destruct (Hlog) with j as [Hn Hin]; [unfold k, off' in *; mlia|done|unfold k, off' in *; mlia|].
    destruct (gw_slot _ _ _ _ (re_grows _ _ _ _ _ _ _ _ _ _ Hre2) j) as [E|[E _]]; [mlia| |done].
    rewrite E. split; [done|]. apply elem_of_union_l. by apply (re_dirt _ _ _ _ _ _ _ _ _ _ Hre2).
Qed.

Lemma touched_slots off n j : 0 <= off -> 0 <= n -> off + n <= MAXFILE * BSIZE -> j ∈ touched off n -> 0 <= j <= MAXFILE.
Proof.
  intros Ho Hn Hm [Hj%elem_of_seqZ|Hj]%elem_of_app.
  - assert (Emax : MAXFILE = 140 /\ BSIZE = 512) by done. unfold rounds in Hj. destruct (_ <? _); mlia.
  - destruct (_ <? _); [apply list_elem_of_singleton in Hj as ->; done|by apply elem_of_nil in Hj].
Qed.

Lemma touched_NoDup off n : 0 <= off -> 0 <= n -> off + n <= MAXFILE * BSIZE -> NoDup (touched off n).
Proof.
  intros Ho Hn Hm. assert (Emax : MAXFILE = 140 /\ BSIZE = 512) by done. unfold touched. apply NoDup_app. split_and!.
  - apply NoDup_seqZ.
  - intros j Hj%elem_of_seqZ Hj'. destruct (_ <? _) in Hj'; [|by apply elem_of_nil in Hj'].
    apply list_elem_of_singleton in Hj' as ->. unfold rounds in Hj. destruct (_ <? _); mlia.
  - destruct (_ <? _); [apply NoDup_singleton|apply NoDup_nil_2].
Qed.

Lemma touched_block off n k :
  0 <= off -> 0 < n -> off / BSIZE <= k -> k * BSIZE < off + n -> k ∈ touched off n /\ (NDIRECT <= k -> MAXFILE ∈ touched off n).
Proof.
  intros Ho Hn0 Hk Hn. unfold touched. split.
  - apply elem_of_app. left. apply elem_of_seqZ. split; [done|]. unfold rounds. destruct (_ <? _) eqn:E; mlia.
  - intros Hd. apply elem_of_app. right. rewrite (proj2 (Z.ltb_lt _ _)) by mlia. by left.
Qed.

Lemma wp_write_loop i s cur dirt q off data src e (Q : Z -> env kernel -> kernel -> Prop) :
  let n := Z.of_nat (length data) in let T := touched off n in
  file_state i s cur dirt q -> supplies i src data e s -> 0 <= off -> off + n <= MAXFILE * BSIZE ->
  (missing q cur T <= nfree cur)%nat -> (size dirt + bitmap_blocks + length T + 6 < head)%nat ->
  (forall s' cur' dirt' q', partly i T s cur dirt q off data n s' cur' dirt' q' -> Q (off + n) e s') ->
  wp (loop (Z.to_nat (n / BSIZE + 3)) (write_round i dv src n) (0, off)) Q e s.
Proof.
  intros n T Hs Hsup Hoff Hmax Hfree Hroom HQ.
  apply (wp_loop (fun '(tot, off') e' s' => e' = e /\ 0 <= tot <= n /\ off' = off + tot /\
      exists cur' dirt' q', partly i T s cur dirt q off data tot s' cur' dirt' q') (fun '(_, off') => rounds off' (off + n))).
  { apply rounds_fuel; lia. }
  { split_and!; [done|lia|lia|lia|]. exists cur, dirt, q. split.
    - apply reaches_fs; [done|done|apply Hs|apply Hs|apply fs_only_refl].
    - intros p Hp. by rewrite decide_False by lia.
    - lia. }
  intros [tot off'] e' s1 (-> & Htot & -> & cur1 & dirt1 & q1 & Hp).
  destruct (tot <? n) eqn:Et.
  2: { unfold write_round. rewrite Et. apply wp_ret. assert (tot = n) as -> by lia. by eapply HQ. }
  destruct (touched_block off n ((off + tot) / BSIZE)) as [Hk HM]; [done|lia|mlia|mlia|].
  eapply (wp_write_round i T s cur dirt q off data src tot s1 cur1 dirt1 q1);
    [by apply touched_NoDup; lia|intros j; apply touched_slots; lia|apply Hs|done..|lia|done|done|done|done|].
  intros s' cur' dirt' q' Hp'. fold n in Hp' |- *. split.
  - pose proof (Z.mod_pos_bound (off + tot) BSIZE ltac:(lia)). split_and!; [done|lia|lia|lia|]. by exists cur', dirt', q'.
  - replace (n - tot) with (off + n - (off + tot)) by lia. apply rounds_next. lia.
Qed.

(** ** The end of [writei] *)

(** What a write of [data] at [off] does. *)
Record wrote (i : nat) (s : kernel) (cur : Z * Z -> list Z) (dirt : gset (Z * Z)) (q : inode_t) (off : Z) (data : list Z)
    (s' : kernel) (cur' : Z * Z -> list Z) (dirt' : gset (Z * Z)) (q' : inode_t) : Prop := {
  wr_state : file_state i s' cur' dirt' q';
  wr_only : file_only i s s';
  wr_shape : q' = set_isize (Z.max (isize q) (off + Z.of_nat (length data))) (set_iaddrs (iaddrs q') q);
  wr_data : forall p, 0 <= p < MAXFILE * BSIZE ->
    fdata q' cur' p = if decide (off <= p < off + Z.of_nat (length data)) then lget data (Z.to_nat (p - off)) else fdata q cur p;
  wr_frame : forall b, elsewhere cur q b -> b <> (dv, IBLOCK (inum q) sb) -> cur' b = cur b;
  wr_inode : cur' (dv, IBLOCK (inum q) sb) =
    if isize q <? off + Z.of_nat (length data)
    then dinode_encode q' (cur (dv, IBLOCK (inum q) sb)) (dinode_off (inum q)) else cur (dv, IBLOCK (inum q) sb);
  wr_in_place : off + Z.of_nat (length data) <= isize q -> q' = q;
  wr_dirt : dirt ⊆ dirt';
  wr_logged : data <> [] -> forall k, off / BSIZE <= k -> k * BSIZE < off + Z.of_nat (length data) -> (dv, slot q' cur' k) ∈ dirt';
  wr_size : (size dirt' <= size dirt + bitmap_blocks + length (touched off (Z.of_nat (length data))) + 1)%nat;
  wr_elsewhere : forall b, elsewhere cur q b -> elsewhere cur' q' b;
  wr_count : forall T', NoDup T' -> (forall j, j ∈ touched off (Z.of_nat (length data)) -> j ∈ T') ->
    (forall j, j ∈ T' -> 0 <= j <= MAXFILE) -> (missing q cur T' + nfree cur' = missing q' cur' T' + nfree cur)%nat
}.

Lemma inode_elsewhere cur q : file_wf cur q -> elsewhere cur q (dv, IBLOCK (inum q) sb).
Proof.
  intros Hf _. pose proof (fl_inode _ _ Hf) as Ho. split_and!; [intros _; apply Ho|apply Ho|].
  intros j Hj E. by destruct (fl_other _ _ Hf j Hj).
Qed.

(** A file whose slots did not change has the same inode. *)
Lemma same_slots cur q cur' q' :
  file_wf cur q -> file_wf cur' q' -> enlarges cur q cur' q' -> (forall j, 0 <= j <= MAXFILE -> slot q' cur' j = slot q cur j) -> q' = q.
Proof.
  intros Hf Hf' Hg Hs. assert (Emax : MAXFILE = 140 /\ NDIRECT = 12) by done. destruct Emax as [Emax End].
  destruct (io_addrs _ (fl_ok _ _ Hf)) as [Hl _], (io_addrs _ (fl_ok _ _ Hf')) as [Hl' _].
  assert (E : iaddrs q' = iaddrs q).
  { apply (nth_ext _ _ 0 0); [congruence|]. intros j Hj. change (lget (iaddrs q') j = lget (iaddrs q) j).
    destruct (decide (j = 12%nat)) as [->|Hne].
    - change 12%nat with (Z.to_nat NDIRECT). rewrite <- (slot_indirect q' cur'), <- (slot_indirect q cur). apply Hs. lia.
    - rewrite <- (Nat2Z.id j), <- (slot_near q' cur'), <- (slot_near q cur) by lia. apply Hs. lia. }
  rewrite (gw_shape _ _ _ _ Hg), E. by destruct q.
Qed.

(** A write inside the file needs no block. *)
Lemma in_place cur q off n j :
  file_wf cur q -> 0 <= off -> 0 <= n -> off + n <= isize q -> j ∈ touched off n -> slot q cur j <> 0.
Proof.
  intros Hf Ho Hn Hsz Hj. assert (Emax : MAXFILE = 140 /\ BSIZE = 512 /\ NDIRECT = 12) by done. destruct Emax as (Emax & Ebs & End).
  apply elem_of_app in Hj as [Hj%elem_of_seqZ|Hj].
  - apply (fl_alloc _ _ Hf); unfold rounds in Hj; destruct (_ <? _) eqn:E; mlia.
  - destruct (_ <? _) eqn:E; [|by apply elem_of_nil in Hj]. apply list_elem_of_singleton in Hj as ->.
    pose proof (fl_alloc _ _ Hf NDIRECT ltac:(lia) ltac:(lia)) as H12. rewrite slot_far in H12 by lia.
    intros E0. by rewrite E0 in H12.
Qed.

(** The size of the file grows, and its inode is written. *)
Lemma grown_wf cur q sz : file_wf cur q -> isize q <= sz <= MAXFILE * BSIZE ->
  (forall k, isize q <= k * BSIZE < sz -> slot q cur k <> 0) -> file_wf cur (set_isize sz q).
Proof.
  intros [Hdv Hok Hsz Hsl Hinj Hal Hin Hoth] Hs Hnew. assert (Emax : MAXFILE * BSIZE = 71680) by done. split; try done.
  - destruct Hok. split; try done. simpl. apply u32_small. lia.
  - simpl. lia.
  - simpl. intros k Hk Hks. change (slot q cur k <> 0). destruct (decide (k * BSIZE < isize q)); [by apply Hal|apply Hnew; lia].
Qed.

Lemma wp_iupdate i s cur dirt q e (Q : unit -> env kernel -> kernel -> Prop) :
  file_state i s cur dirt q -> (size dirt + 2 < head)%nat ->
  let b := (dv, IBLOCK (inum q) sb) in
  let cur' := upd_cur b (dinode_encode q (cur b) (dinode_off (inum q))) cur in
  (forall s', file_state i s' cur' (dirt ∪ {[b]}) q -> fs_only s s' -> Q tt e s') ->
  wp (iupdate i) Q e s.
Proof.
  intros Hs Hroom b cur' HQ. pose proof Hs as [Hc Hop Hsb Hi Hm Hf]. pose proof (fl_inode _ _ Hf) as Ho.
  assert (Ehd : head = 30%nat) by done.
  unfold iupdate. apply wp_bind, wp_get. rewrite (state_inode _ _ _ _ _ Hs). apply wp_bind, wp_get. rewrite Hsb, (fl_dev _ _ Hf).
  apply wp_bind. eapply (wp_bread s [] cur dirt); [done|apply Hm|apply Ho|apply none_held|right; simpl; lia|].
  intros bp s1 _ Hc1 Hk1 _ _ Ho1.
  eapply (wp_write_release_last s1 bp [] cur dirt e dv start (size dirt) (IBLOCK (inum q) sb));
    [done|by eapply in_op_bio|done|by rewrite (held_data _ _ _ _ bp Hc1), Hk1 by (by left)|apply Ho..|unfold LOGSIZE; lia|].
  fold b cur'. intros s2 n' _ Hc2 Hop2 _ Ho2. rewrite (in_op_size _ _ _ Hop2) in Hop2.
  assert (Hfs : fs_only s s2) by eauto with frame. destruct (fs_only_inode _ _ Hfs) as [E1 E2].
  apply HQ; [|done]. split; [done|done|by rewrite E2|by rewrite E1|by apply store_map|].
  apply store_wf; [done|done| |by rewrite length_encode; apply Ho].
  apply not_eq_sym, (fl_other _ _ Hf). done.
Qed.

(** The block of the inode is none of the file's. *)
Lemma store_inode_data d cur q p :
  file_wf cur q -> 0 <= p < MAXFILE * BSIZE -> fdata q (upd_cur (dv, IBLOCK (inum q) sb) d cur) p = fdata q cur p.
Proof.
  intros Hf Hp. assert (Hk : 0 <= p / BSIZE <= MAXFILE) by (assert (MAXFILE = 140 /\ BSIZE = 512) by done; mlia).
  unfold fdata. rewrite store_slot, (fl_dev _ _ Hf); [|done| |done].
  - destruct (_ =? 0); [done|]. rewrite upd_cur_ne; [done|]. intros [= E]. by apply (fl_other _ _ Hf (p / BSIZE)).
  - apply not_eq_sym, (fl_other _ _ Hf). done.
Qed.

Section end_of_write.
Context (i : nat) (s : kernel) (cur : Z * Z -> list Z) (dirt : gset (Z * Z)) (q : inode_t) (off : Z) (data : list Z).
Let n : Z := Z.of_nat (length data).
Context (Hs : file_state i s cur dirt q) (Hoff : 0 <= off <= isize q) (Hmax : off + n <= MAXFILE * BSIZE).
Context (s1 : kernel) (cur1 : Z * Z -> list Z) (dirt1 : gset (Z * Z)) (q1 : inode_t).
Context (Hp : partly i (touched off n) s cur dirt q off data n s1 cur1 dirt1 q1).

Let Hre := pa_reaches _ _ _ _ _ _ _ _ _ _ _ _ _ Hp.
Let Hf := st_file _ _ _ _ _ Hs.
Let Hf1 := st_file _ _ _ _ _ (re_state _ _ _ _ _ _ _ _ _ _ Hre).

Lemma partly_size : isize q1 = isize q /\ inum q1 = inum q.
Proof. rewrite (gw_shape _ _ _ _ (re_grows _ _ _ _ _ _ _ _ _ _ Hre)). done. Qed.

Lemma partly_inode : cur1 (dv, IBLOCK (inum q) sb) = cur (dv, IBLOCK (inum q) sb).
Proof. apply (gw_frame _ _ _ _ (re_grows _ _ _ _ _ _ _ _ _ _ Hre)). by apply inode_elsewhere. Qed.

Lemma partly_in_place : off + n <= isize q -> q1 = q.
Proof.
  intros Hn. apply (same_slots cur _ cur1); [done|done|apply Hre|]. intros j Hj.
  destruct (decide (j ∈ touched off n)) as [Hin|Hin]; [|by apply (re_other _ _ _ _ _ _ _ _ _ _ Hre)].
  destruct (gw_slot _ _ _ _ (re_grows _ _ _ _ _ _ _ _ _ _ Hre) j Hj) as [|[E _]]; [done|].
  destruct (in_place cur q off n j); try done; lia.
Qed.

Lemma written_in_place : off + n <= isize q -> wrote i s cur dirt q off data s1 cur1 dirt1 q1.
Proof.
  intros Hn. pose proof (partly_in_place Hn) as Eq. pose proof Hre as [Hst Hon Hg _ _ Hd _ Hcnt].
  split; [done|done| |apply Hp| | |done|done| | |intros b; apply grows_elsewhere; [apply Hs|done]|exact Hcnt].
  - fold n. rewrite Z.max_l, Eq by lia. by destruct q.
  - intros b Hb _. by apply (gw_frame _ _ _ _ Hg).
  - fold n. rewrite (proj2 (Z.ltb_ge _ _)) by lia. apply partly_inode.
  - intros Hne k Hk1 Hk2. apply (pa_logged _ _ _ _ _ _ _ _ _ _ _ _ _ Hp); [|done|done]. destruct data; [done|]. unfold n. simpl. lia.
  - pose proof (reaches_size _ _ _ _ _ _ _ _ _ _ Hre (st_map _ _ _ _ _ Hs)). unfold n in *. lia.
Qed.

Lemma grown_state (Hn : isize q < off + n) :
  file_state i (on_inode i (set_isize (off + n)) s1) cur1 dirt1 (set_isize (off + n) q1).
Proof.
  destruct partly_size as [E1 E2]. pose proof (re_state _ _ _ _ _ _ _ _ _ _ Hre) as [Hc Hop Hsb Hi Hm _].
  split; [by apply cache_on_inode|by apply in_op_on_inode|done| |done|].
  - cbn. by rewrite list_lookup_alter_eq, Hi.
  - apply grown_wf; [done|lia|]. rewrite E1. intros k Hk. apply (pa_logged _ _ _ _ _ _ _ _ _ _ _ _ _ Hp); [lia|mlia|lia].
Qed.

Lemma written_grown s3 (Hn : isize q < off + n) :
  let q2 := set_isize (off + n) q1 in
  let b := (dv, IBLOCK (inum q2) sb) in
  let cur2 := upd_cur b (dinode_encode q2 (cur1 b) (dinode_off (inum q2))) cur1 in
  file_state i s3 cur2 (dirt1 ∪ {[b]}) q2 -> fs_only (on_inode i (set_isize (off + n)) s1) s3 ->
  wrote i s cur dirt q off data s3 cur2 (dirt1 ∪ {[b]}) q2.
Proof.
  intros q2 b cur2 Hst Ho. destruct partly_size as [E1 E2]. pose proof (st_file _ _ _ _ _ (grown_state Hn)) as Hf2.
  assert (Eb : b = (dv, IBLOCK (inum q) sb)) by (unfold b; by rewrite <- E2).
  pose proof (re_grows _ _ _ _ _ _ _ _ _ _ Hre) as Hg.
  assert (Hne2 : IBLOCK (inum q2) sb <> slot q2 cur1 MAXFILE) by (apply not_eq_sym, (fl_other _ _ Hf2); done).
  assert (Hown2 : owned cur1 (IBLOCK (inum q2) sb)) by apply Hf2.
  split; [done| | | | | |fold n; lia| | | | |].
  - eapply file_only_trans; [apply Hre|]. eapply file_only_trans; [apply file_only_inode|by apply fs_file_only].
  - fold n. rewrite Z.max_r by lia. unfold q2. rewrite (gw_shape _ _ _ _ Hg). done.
  - intros p Hpr. unfold cur2, b. rewrite store_inode_data by done. apply (pa_data _ _ _ _ _ _ _ _ _ _ _ _ _ Hp p Hpr).
  - intros b' Hb' Hne. unfold cur2. rewrite upd_cur_ne by congruence. by apply (gw_frame _ _ _ _ Hg).
  - fold n. rewrite (proj2 (Z.ltb_lt _ _)) by lia. rewrite <- Eb. unfold cur2. rewrite upd_cur_eq, Eb, partly_inode. unfold q2. simpl. by rewrite E2.
  - pose proof (re_dirt _ _ _ _ _ _ _ _ _ _ Hre). set_solver.
  - fold n. intros Hne k Hk1 Hk2. assert (Hn0 : 0 < n) by (destruct data; [done|unfold n; simpl; lia]).
    unfold cur2, b. rewrite store_slot; [|done|apply not_eq_sym, (fl_other _ _ Hf2); done|assert (MAXFILE = 140 /\ BSIZE = 512) by done; mlia].
    apply elem_of_union_l. apply (pa_logged _ _ _ _ _ _ _ _ _ _ _ _ _ Hp Hn0 k Hk1 Hk2).
  - pose proof (reaches_size _ _ _ _ _ _ _ _ _ _ Hre (st_map _ _ _ _ _ Hs)). pose proof (size_add dirt1 b). unfold n in *. lia.
  - intros b' Hb' Hd. destruct (grows_elsewhere _ _ _ _ b' (st_map _ _ _ _ _ Hs) Hg Hb' Hd) as (H1' & H2' & H3'). split_and!; [|done|].
    + intros Hr. unfold cur2, b. rewrite store_bits by (done || apply Hown2). by apply H1'.
    + intros j Hj. unfold cur2, b. rewrite store_slot by done. by apply H3'.
  - intros T' Hnd Hin HT'. unfold cur2, b. rewrite store_nfree, store_missing by done. by apply (re_count _ _ _ _ _ _ _ _ _ _ Hre).
Qed.

End end_of_write.

(** Memory of the process whose pages are all there. *)
Lemma supplies_user i va data e s :
  (forall j, 0 <= j < Z.of_nat (length data) -> exists pa, vphys (u32 (va + j)) s = Some pa /\ ld8 (k_mem s) pa = lget data (Z.to_nat j)) ->
  supplies i (SUser va) data e s.
Proof.
  intros Hmem t tot m Ho Htot Hm Hlen. unfold get_bytes.
  assert (Hv : forall a, vphys a t = vphys a s) by (by destruct Ho as (q & bc & d & pt & lg & -> & _)).
  assert (Ek : k_mem t = k_mem s) by (by destruct Ho as (q & bc & d & pt & lg & -> & _)). clear Ho.
  revert tot Htot Hlen. replace m with (Z.of_nat (Z.to_nat m)) by lia. rewrite Nat2Z.id. generalize (Z.to_nat m). clear m Hm.
  intros m. induction m as [|m IH]; intros tot Htot Hlen; [done|]. cbn [uread].
  destruct (Hmem tot) as (pa & Hpa & Hb); [lia|].
  assert (Eu : uld8 (u32 (va + tot)) e t = Done (lget data (Z.to_nat tot)) e t).
  { unfold uld8, uaccess. rewrite <- Hb, <- Ek. erewrite bind_Done; [done|]. erewrite bind_Done by done. by rewrite Hv, Hpa. }
  rewrite (bind_Done _ _ _ _ _ _ _ Eu).
  replace (u32 (u32 (va + tot) + 1)) with (u32 (va + (tot + 1))) by (unfold u32; rewrite Zplus_mod_idemp_l; f_equal; lia).
  rewrite (bind_Done _ _ _ _ _ _ _ (IH (tot + 1) ltac:(lia) ltac:(lia))).
  replace (Z.to_nat (tot + 1)) with (S (Z.to_nat tot)) by lia.
  destruct (lookup_lt_is_Some_2 data (Z.to_nat tot)) as [x Hx]; [lia|].
  rewrite (drop_S _ x (Z.to_nat tot)) by done. unfold lget. by rewrite nth_lookup, Hx.
Qed.

Lemma writei_ok i src s cur dirt q off data e :
  let n := Z.of_nat (length data) in
  file_state i s cur dirt q -> itype q <> T_DEV -> supplies i src data e s ->
  0 <= off <= isize q -> off + n <= MAXFILE * BSIZE ->
  (missing q cur (touched off n) <= nfree cur)%nat -> (size dirt + bitmap_blocks + length (touched off n) + 6 < head)%nat ->
  exists s' cur' dirt' q', writei i src off n e s = Done n e s' /\ wrote i s cur dirt q off data s' cur' dirt' q'.
Proof.
  intros n Hs Hty Hsup Hoff Hmax Hfree Hroom. assert (Emax : MAXFILE * BSIZE = 71680) by done.
  assert (Hw : wp (writei i src off n) (fun r e' s' => r = n /\ e' = e /\ exists cur' dirt' q', wrote i s cur dirt q off data s' cur' dirt' q') e s).
  2: { apply wp_elim in Hw as (r & e' & s' & Hrun & -> & -> & cur' & dirt' & q' & HQ). by exists s', cur', dirt', q'. }
  unfold writei. apply wp_bind, wp_get. rewrite (state_inode _ _ _ _ _ Hs), (proj2 (Z.eqb_neq _ _) Hty), (fl_dev _ _ (st_file _ _ _ _ _ Hs)).
  rewrite !(u32_small (off + n)), !(proj2 (Z.ltb_ge _ _)) by lia. cbn [orb]. apply wp_bind.
  apply (wp_write_loop i s cur dirt q off data src); [done|done|lia|done..|].
  intros s1 cur1 dirt1 q1 Hp. pose proof (pa_reaches _ _ _ _ _ _ _ _ _ _ _ _ _ Hp) as Hre. fold n.
  destruct (partly_size i s cur dirt q off data s1 cur1 dirt1 q1 Hp) as [Esz _].
  unfold iget_f, iset. apply wp_bind, wp_get. rewrite (state_inode _ _ _ _ _ (re_state _ _ _ _ _ _ _ _ _ _ Hre)), Esz.
  destruct (isize q <? off + n) eqn:Eg.
  2: { rewrite andb_false_r. apply wp_bind, wp_ret, wp_ret. rewrite s32_small by lia. split_and!; [done|done|].
       exists cur1, dirt1, q1. apply written_in_place; try done. fold n. lia. }
  rewrite (proj2 (Z.ltb_lt 0 n)) by lia. cbn [andb when]. apply wp_bind, wp_bind, wp_modify.
  pose proof (reaches_size _ _ _ _ _ _ _ _ _ _ Hre (st_map _ _ _ _ _ Hs)) as Hsz.
  eapply wp_iupdate; [apply (grown_state i s cur dirt q off data); try done; fold n; lia|fold n in Hsz; lia|].
  intros s3 Hst3 Ho3. apply wp_ret. rewrite s32_small by lia. split_and!; [done|done|].
  eexists _, _, _. apply (written_grown i s cur dirt q off data Hs Hoff Hmax s1 cur1 dirt1 q1 Hp); [fold n; lia|done|done].
Qed.

(** ** Reading what was written *)

Lemma slot_block cur q k : file_wf cur q -> 0 <= k -> k * BSIZE < isize q -> file_block q cur k = slot q cur k.
Proof.
  intros Hf Hk Hks. pose proof (fl_alloc _ _ Hf k Hk Hks) as Hn. pose proof (fl_size _ _ Hf).
  assert (Emax : MAXFILE = 140 /\ BSIZE = 512 /\ NDIRECT = 12) by done. unfold file_block. destruct (k <? NDIRECT) eqn:E.
  - by rewrite slot_near by lia.
  - rewrite slot_far in * by lia. rewrite slot_indirect in *. by destruct (_ =? 0).
Qed.

Lemma wf_file_ok s cur q : map_ok cur -> file_wf cur q -> file_ok s [] cur q.
Proof.
  intros Hm Hf. assert (Emax : MAXFILE = 140 /\ BSIZE = 512 /\ NDIRECT = 12) by done. pose proof (fl_size _ _ Hf) as Hsz.
  pose proof (fl_dev _ _ Hf) as Ed.
  assert (Hown : forall a, owned cur a -> readable_block s [] (idev q) a).
  { intros a Ho. split_and!; [pose proof (ow_range _ _ Ho); lia|rewrite Ed; apply Ho|apply none_held]. }
  split; [rewrite Ed; apply Hm|done| |].
  - intros k Hk Hks. rewrite slot_block by done. pose proof (fl_slot _ _ Hf k ltac:(lia) (fl_alloc _ _ Hf k Hk Hks)) as Ho.
    split; [by apply Hown|]. rewrite Ed. apply Ho.
  - intros Hn. apply Hown. rewrite <- (slot_indirect q cur). apply Hf; [lia|]. intros E.
    apply (fl_alloc _ _ Hf NDIRECT); [lia|lia|]. rewrite slot_far by lia. by rewrite E.
Qed.

Lemma fdata_byte cur q p : file_wf cur q -> 0 <= p < isize q -> fdata q cur p = file_byte q cur p.
Proof.
  intros Hf Hp. assert (Hk : 0 <= p / BSIZE /\ p / BSIZE * BSIZE < isize q) by mlia. destruct Hk as [Hk Hks].
  unfold fdata, file_byte. rewrite slot_block by done. by rewrite (proj2 (Z.eqb_neq _ _) (fl_alloc _ _ Hf _ Hk Hks)).
Qed.

Lemma written_bytes i s cur dirt q off data s' cur' dirt' q' :
  0 <= off -> wrote i s cur dirt q off data s' cur' dirt' q' -> file_bytes q' cur' off (Z.of_nat (length data)) = data.
Proof.
  intros Hoff Hw. pose proof (st_file _ _ _ _ _ (wr_state _ _ _ _ _ _ _ _ _ _ _ Hw)) as Hf. pose proof (fl_size _ _ Hf) as Hsz.
  assert (Hge : off + Z.of_nat (length data) <= isize q') by (rewrite (wr_shape _ _ _ _ _ _ _ _ _ _ _ Hw); simpl; lia).
  apply (nth_ext _ _ 0 0); unfold file_bytes; rewrite length_fmap, length_seqZ, Nat2Z.id; [done|]. intros j Hj.
  rewrite nth_lookup, list_lookup_fmap, lookup_seqZ_lt by lia. simpl.
  rewrite <- fdata_byte, (wr_data _ _ _ _ _ _ _ _ _ _ _ Hw), decide_True by (done || lia). unfold lget. f_equal. lia.
Qed.

(** The inode on disk is the one in memory. *)
Definition saved (cur : Z * Z -> list Z) (q : inode_t) : Prop :=
  dinode_decode (cur (dv, IBLOCK (inum q) sb)) (dinode_off (inum q)) q = q.

Lemma written_saved i s cur dirt q off data s' cur' dirt' q' :
  file_wf cur q -> wrote i s cur dirt q off data s' cur' dirt' q' -> saved cur q -> saved cur' q'.
Proof.
  intros Hf Hw Hsv. pose proof (wr_inode _ _ _ _ _ _ _ _ _ _ _ Hw) as Hin. destruct (isize q <? _) eqn:E.
  - pose proof (st_file _ _ _ _ _ (wr_state _ _ _ _ _ _ _ _ _ _ _ Hw)) as Hf'.
    assert (En : inum q' = inum q) by (by rewrite (wr_shape _ _ _ _ _ _ _ _ _ _ _ Hw)). unfold saved. rewrite En, Hin.
    destruct (dinode_codec q' q' (cur (dv, IBLOCK (inum q) sb)) (dinode_off (inum q))) as [-> _]; [apply Hf'| |by destruct q'].
    rewrite (ow_len _ _ (fl_inode _ _ Hf)). unfold dinode_off. assert (IPB = 8 /\ sizeof_dinode = 64 /\ BSIZE = 512) by done. mlia.
  - rewrite (wr_in_place _ _ _ _ _ _ _ _ _ _ _ Hw) in * by lia. unfold saved. by rewrite Hin.
Qed.

(** The slots of a write are distinct blocks of the transaction. *)
Lemma written_logs i s cur dirt q off data s' cur' dirt' q' m :
  0 <= off -> wrote i s cur dirt q off data s' cur' dirt' q' -> Z.of_nat m * BSIZE <= Z.of_nat (length data) -> (m <= size dirt')%nat.
Proof.
  intros Hoff Hw Hm. assert (Ebs : BSIZE = 512) by done. destruct (decide (m = 0%nat)) as [->|Hm0]; [lia|].
  pose proof (st_file _ _ _ _ _ (wr_state _ _ _ _ _ _ _ _ _ _ _ Hw)) as Hf. pose proof (fl_size _ _ Hf) as Hsz.
  assert (Hge : off + Z.of_nat (length data) <= isize q') by (rewrite (wr_shape _ _ _ _ _ _ _ _ _ _ _ Hw); simpl; lia).
  set (ks := seqZ (off / BSIZE) (Z.of_nat m)).
  assert (Hks : forall k, k ∈ ks -> off / BSIZE <= k /\ k * BSIZE < off + Z.of_nat (length data)) by (intros k Hk%elem_of_seqZ; mlia).
  assert (Hnz : forall k, k ∈ ks -> 0 <= k <= MAXFILE /\ slot q' cur' k <> 0).
  { intros k Hk%Hks. assert (MAXFILE = 140) by done. split; [mlia|]. apply (fl_alloc _ _ Hf); mlia. }
  assert (Hnd : NoDup ((fun k => (dv, slot q' cur' k)) <$> ks)).
  { apply NoDup_fmap_2_strong; [|apply NoDup_seqZ]. intros j k Hj%Hnz Hk%Hnz [= E]. by apply (fl_inj _ _ Hf); try apply Hj; try apply Hk. }
  replace m with (size (list_to_set ((fun k => (dv, slot q' cur' k)) <$> ks) : gset (Z * Z))).
  - apply subseteq_size. intros b (k & -> & Hk)%elem_of_list_to_set%list_elem_of_fmap.
    apply (wr_logged _ _ _ _ _ _ _ _ _ _ _ Hw); [intros ->; simpl in *; lia|by apply Hks..].
  - rewrite size_list_to_set by done. unfold ks. rewrite length_fmap, length_seqZ. lia.
Qed.

Lemma in_op_count n dirt s : in_op dv start n dirt s -> lh_n (k_log s) = Z.of_nat (size dirt).
Proof. intros Hop. rewrite <- (in_op_size _ _ _ Hop). destruct Hop as [[blocks Ht] _ _ _ _]. apply (tr_log _ _ _ _ _ _ Ht). Qed.

(** * Theorems *)

(** C13: [writei] writes the file.  For a regular file, an offset within it, an end below the
    largest size, and as many free blocks as the write lacks, it returns [n]; the file then
    has the new bytes where they were asked for and its old bytes everywhere else, through
    direct and indirect blocks allocated on the way; its size is the old one or the end of
    the write, and its inode is on the disk as in memory.  No block in use by anything else
    changes, every change is in the transaction, and [readi] returns what was written.  The blocks of the
    transaction, of the bitmap and of the write fit into the cache, with six to spare. *)
Theorem writei_spec i src s cur dirt q off data e :
  let n := Z.of_nat (length data) in
  file_state i s cur dirt q -> itype q <> T_DEV -> supplies i src data e s ->
  0 <= off <= isize q -> off + n <= MAXFILE * BSIZE ->
  (missing q cur (touched off n) <= nfree cur)%nat -> (size dirt + bitmap_blocks + length (touched off n) + 6 < head)%nat ->
  saved cur q ->
  exists s' cur' dirt' q', writei i src off n e s = Done n e s' /\ file_state i s' cur' dirt' q' /\
    isize q' = Z.max (isize q) (off + n) /\ saved cur' q' /\
    (forall p, 0 <= p < isize q' ->
       file_byte q' cur' p = if decide (off <= p < off + n) then lget data (Z.to_nat (p - off)) else file_byte q cur p) /\
    (forall b, elsewhere cur q b -> b <> (dv, IBLOCK (inum q) sb) -> cur' b = cur b) /\
    (size dirt' <= size dirt + bitmap_blocks + length (touched off n) + 1)%nat /\
    exists s'', readi i DKernel off n e s' = Done (n, data) e s''.
Proof.
  intros n Hs Hty Hsup Hoff Hmax Hfree Hroom Hsv. destruct (writei_ok i src s cur dirt q off data e) as (s' & cur' & dirt' & q' & Hrun & Hw); [done..|].
  pose proof (wr_state _ _ _ _ _ _ _ _ _ _ _ Hw) as Hs'. pose proof Hs' as [Hc' _ _ _ Hm' Hf']. pose proof (st_file _ _ _ _ _ Hs) as Hf.
  pose proof (wr_shape _ _ _ _ _ _ _ _ _ _ _ Hw) as Hq. fold n in Hq.
  assert (Esz : isize q' = Z.max (isize q) (off + n)) by (rewrite Hq; done).
  exists s', cur', dirt', q'. split_and!; [done|done|done| | | |apply Hw|].
  - by eapply written_saved.
  - pose proof (fl_size _ _ Hf'). intros p Hp. rewrite <- fdata_byte, (wr_data _ _ _ _ _ _ _ _ _ _ _ Hw) by (done || lia). fold n.
    case_decide; [done|]. apply fdata_byte; [done|lia].
  - apply Hw.
  - pose proof (wr_size _ _ _ _ _ _ _ _ _ _ _ Hw) as Hsz. fold n in Hsz. pose proof (state_inode _ _ _ _ _ Hs') as Ei.
    assert (Emax : MAXFILE * BSIZE = 71680) by done.
    destruct (readi_ok s' [] cur' dirt' i off n e) as (s'' & Hrd & _); rewrite ?Ei.
    + done.
    + simpl. lia.
    + rewrite Hq. done.
    + by apply wf_file_ok.
    + lia.
    + lia.
    + exists s''. rewrite Hrd, Ei, Z.min_l by lia. pose proof (written_bytes i s cur dirt q off data s' cur' dirt' q' ltac:(lia) Hw) as Eb. fold n in Eb. by rewrite Eb.
Qed.

(** C37: One write can take more of the log than is set aside for an operation.  [filewrite] gives
    [writei] up to [(LOGSIZE-1-1-2)/2] blocks at a time, and every one of them goes into the
    log: more than the [MAXOPBLOCKS] blocks that [begin_op] reserves. *)
Theorem write_exceeds_reservation i src s cur q off data e :
  let n := (LOGSIZE - 1 - 1 - 2) / 2 * 512 in
  Z.of_nat (length data) = n -> file_state i s cur ∅ q -> itype q <> T_DEV -> supplies i src data e s ->
  0 <= off <= isize q -> off + n <= MAXFILE * BSIZE ->
  (missing q cur (touched off n) <= nfree cur)%nat -> (bitmap_blocks + length (touched off n) + 6 < head)%nat ->
  lh_n (k_log s) = 0 /\
  exists s', writei i src off n e s = Done n e s' /\ outstanding (k_log s') >= 1 /\ lh_n (k_log s') > MAXOPBLOCKS.
Proof.
  intros n Hn Hs Hty Hsup Hoff Hmax Hfree Hroom. split.
  { rewrite (in_op_count _ _ _ (st_op _ _ _ _ _ Hs)). by rewrite size_empty. }
  destruct (writei_ok i src s cur ∅ q off data e) as (s' & cur' & dirt' & q' & Hrun & Hw); rewrite ?Hn in *; try done. exists s'. pose proof (st_op _ _ _ _ _ (wr_state _ _ _ _ _ _ _ _ _ _ _ Hw)) as Hop.
  split_and!; [done|pose proof (op_count _ _ _ _ _ Hop); lia|]. rewrite (in_op_count _ _ _ Hop).
  pose proof (written_logs i s cur ∅ q off data s' cur' dirt' q' 13 ltac:(lia) Hw) as H13. rewrite Hn in H13.
  assert (n = 6656 /\ BSIZE = 512 /\ MAXOPBLOCKS = 10) by done. lia.
Qed.

End write.

(** * A disk with an empty file or directory *)

#[local] Existing Instance built_symbols.
#[local] Existing Instance bw_driver | 0.
#[local] Existing Instance bw_sync | 0.
#[local] Existing Instance fw_devsw.

Definition ew_inode (ty : Z) : inode_t := mkInode 1 5 1 3 ty 0 0 1 0 (replicate 13 0).
Definition ew_disk (ty : Z) : disk_t := mkDisk (<[(1, 32) := dinode_encode (ew_inode ty) zero_block 320]> {[(1, 58) := aw_map]}) [].
Definition ew_boot (ty : Z) : kernel :=
  set_k_icache (ew_inode ty :: replicate 49 zero_inode) (set_lock L_icache (mkLock 0 "icache" None)
    (set_k_sb aw_sb (set_k_disk (ew_disk ty) (lw_boot 1)))).
Definition ew_state (ty : Z) : kernel := after_binit (ew_boot ty).

Section empty.
Context (ty : Z) (Hty : s16 ty = ty).

Lemma ew_cache :
  cache (ew_state ty) [] (contents (ew_disk ty)) ∅ /\
  exists bs, ew_state ty = set_k_bcache bs (set_lock L_bcache (mkLock 0 "bcache" None) (ew_boot ty)).
Proof.
  destruct bw_boot_ok as (H1 & H2 & H3 & H4 & H5).
  exact (after_binit_cache (ew_boot ty) H1 H2 H3 (conj H3 (proj2 H4)) H5).
Qed.

Lemma ew_op : in_op 1 2 0 ∅ (ew_state ty).
Proof.
  destruct ew_cache as [_ [bs ->]]. split; [|split; [by split|by eexists]|done|done|done].
  exists (replicate (Z.to_nat LOGSIZE) 0). eapply transaction_log_eq, (lw_transaction 1). by rewrite lw_log.
Qed.

Lemma ew_good bn : 32 <= bn < 100 -> good_block 1 2 bn.
Proof. intros Hb. split; [lia|unfold in_log; lia|apply in_built_image; lia]. Qed.

Lemma ew_bitmap bn : in_bitmap aw_sb bn <-> bn = 58.
Proof.
  split.
  - intros (y & Hy & <-). unfold BBLOCK. simpl in Hy. rewrite Z.div_small by lia. done.
  - intros ->. exists 0. by split.
Qed.

Lemma ew_used x : 0 <= x < 100 -> used 1 aw_sb (contents (ew_disk ty)) x = (x <? 59).
Proof.
  intros Hx. assert (Hall : forallb (fun x => Bool.eqb (used 1 aw_sb (contents (ew_disk ty)) x) (x <? 59)) (seqZ 0 100) = true) by (by vm_compute).
  rewrite forallb_forall in Hall. apply Bool.eqb_prop, (Hall x), list_elem_of_In, elem_of_seqZ. lia.
Qed.

Lemma ew_map : map_ok 1 2 aw_sb (contents (ew_disk ty)).
Proof.
  split; [done|done|by vm_compute|by vm_compute| |].
  - intros bn ->%ew_bitmap. split; [apply ew_good; lia|by vm_compute].
  - intros x Hx Hu. simpl in Hx. rewrite ew_used in Hu by lia. split; [apply ew_good; lia|]. intros E%ew_bitmap. lia.
Qed.

Lemma ew_slots k : 0 <= k <= MAXFILE -> slot (ew_inode ty) (contents (ew_disk ty)) k = 0.
Proof.
  intros Hk. assert (Hall : forallb (fun k => slot (ew_inode ty) (contents (ew_disk ty)) k =? 0) (seqZ 0 141) = true) by (by vm_compute).
  rewrite forallb_forall in Hall. apply Z.eqb_eq, Hall, list_elem_of_In, elem_of_seqZ. assert (MAXFILE = 140) by done. lia.
Qed.

Lemma ew_file : file_wf 1 2 aw_sb (contents (ew_disk ty)) (ew_inode ty).
Proof.
  split; [done| |done| | | | |].
  - split; try done. split; [done|]. by apply Forall_replicate.
  - intros k Hk. by rewrite ew_slots.
  - intros j k Hj Hk. by rewrite (ew_slots j).
  - simpl. intros k Hk Hks. lia.
  - split; [by apply ew_good|done|by vm_compute|by vm_compute|]. by intros E%ew_bitmap.
  - intros k Hk. by rewrite ew_slots.
Qed.

Lemma ew_ok : file_state 1 2 aw_sb 0 (ew_state ty) (contents (ew_disk ty)) ∅ (ew_inode ty).
Proof.
  split; [apply ew_cache|rewrite size_empty; apply ew_op| | |apply ew_map|apply ew_file]; by destruct ew_cache as [_ [bs ->]].
Qed.

Lemma ew_saved : saved 1 aw_sb (contents (ew_disk ty)) (ew_inode ty).
Proof. unfold saved. destruct (dinode_codec (ew_inode ty) (ew_inode ty) zero_block 320) as [E _]; [apply ew_file|simpl; lia|]. exact E. Qed.

End empty.

Lemma writei_spec_witness :
  exists s' s'', writei 0 (SKernel [7; 8; 9]) 0 3 [] (ew_state T_FILE) = Done 3 [] s' /\ readi 0 DKernel 0 3 [] s' = Done (3, [7; 8; 9]) [] s''.
Proof.
  destruct (writei_spec 1 2 aw_sb 0 (SKernel [7; 8; 9]) (ew_state T_FILE) (contents (ew_disk T_FILE)) ∅ (ew_inode T_FILE) 0 [7; 8; 9] []
    (ew_ok T_FILE eq_refl) ltac:(done) (supplies_kernel _ _ _ _) ltac:(simpl; lia) ltac:(by vm_compute)
    ltac:(apply Nat.leb_le; by vm_compute) ltac:(apply Nat.ltb_lt; by vm_compute) (ew_saved T_FILE eq_refl))
    as (s' & _ & _ & _ & Hw & _ & _ & _ & _ & _ & _ & s'' & Hr).
  exists s', s''. split; [exact Hw|exact Hr].
Defined.

Lemma write_exceeds_reservation_witness :
  exists s', writei 0 (SKernel (replicate (Z.to_nat 6656) 7)) 0 6656 [] (ew_state T_FILE) = Done 6656 [] s' /\ lh_n (k_log s') > MAXOPBLOCKS.
Proof.
  destruct (write_exceeds_reservation 1 2 aw_sb 0 (SKernel (replicate (Z.to_nat 6656) 7)) (ew_state T_FILE)
    (contents (ew_disk T_FILE)) (ew_inode T_FILE) 0 (replicate (Z.to_nat 6656) 7) []
    ltac:(by vm_compute) (ew_ok T_FILE eq_refl) ltac:(done) (supplies_kernel _ _ _ _) ltac:(simpl; lia) ltac:(by vm_compute)
    ltac:(apply Nat.leb_le; by vm_compute) ltac:(apply Nat.ltb_lt; by vm_compute)) as (_ & s' & Hw & _ & Hl).
  exists s'. split; [exact Hw|exact Hl].
Defined.
