(* ===== verification/FsLink.v ===== *)
(** fs.c, [dirlink]: a new entry of a directory, which [dirlookup] then finds. *)

From S2P Require Import Prelude Params Mem State Spinlock Console Kalloc Vm Proc Ide Bio BioRing BioSpec BioProps Log LogSpec LogOps LogCrash Umem Fs FsSpec FsLock FsDir FsAlloc FsWrite.

(** * The name in an entry *)

Lemma strncpy_pad_keeps n : forall s i, length (strncpy_pad s i n) = length s /\ forall j, (j < i)%nat -> strncpy_pad s i n !! j = s !! j.
Proof.
  induction n as [|n IH]; intros s i; simpl; [done|]. destruct (IH (<[i := 0]> s) (S i)) as [Hl Hk]. split.
  - by rewrite Hl, length_insert.
  - intros j Hj. rewrite Hk by lia. by rewrite list_lookup_insert_ne by lia.
Qed.

Lemma strncpy_from_keeps t n : forall s i,
  length (strncpy_from s t i n) = length s /\ forall j, (j < i)%nat -> strncpy_from s t i n !! j = s !! j.
Proof.
  induction n as [|n IH]; intros s i; simpl; [done|]. set (s' := <[i := t (Z.of_nat i)]> s).
  assert (Hs : length s' = length s /\ forall j, (j < i)%nat -> s' !! j = s !! j).
  { unfold s'. rewrite length_insert. split; [done|]. intros j Hj. by rewrite list_lookup_insert_ne by lia. }
  destruct Hs as [Hsl Hsk]. destruct (cbool _).
  - destruct (IH s' (S i)) as [Hl Hk]. split; [congruence|]. intros j Hj. rewrite Hk by lia. by apply Hsk.
  - destruct (strncpy_pad_keeps n s' (S i)) as [Hl Hk]. split; [congruence|]. intros j Hj. rewrite Hk by lia. by apply Hsk.
Qed.

Lemma lstr_at l i c : l !! i = Some c -> lstr l (Z.of_nat i) = c.
Proof. intros E. unfold lstr. rewrite (proj2 (Z.ltb_ge _ _)) by lia. by rewrite Nat2Z.id, E. Qed.

(** A copied name compares equal to the name. *)
Lemma strncpy_cmp t n : forall s i, (i + n <= length s)%nat -> strncmp t (lstr (strncpy_from s t i n)) (Z.of_nat i) n = 0.
Proof.
  induction n as [|n IH]; intros s i Hl; simpl; [done|]. set (c := t (Z.of_nat i)). set (s' := <[i := c]> s).
  assert (Hi : s' !! i = Some c) by (apply list_lookup_insert_eq; lia).
  assert (Hl' : length s' = length s) by apply length_insert.
  destruct (cbool c) eqn:Ec.
  - rewrite (lstr_at _ i c) by (by rewrite (proj2 (strncpy_from_keeps _ _ _ _)) by lia). rewrite Z.eqb_refl. cbn [andb].
    replace (Z.of_nat i + 1) with (Z.of_nat (S i)) by lia. apply IH. lia.
  - rewrite (lstr_at _ i c) by (by rewrite (proj2 (strncpy_pad_keeps _ _ _)) by lia). cbn [andb]. lia.
Qed.

(** The entry that [dirlink] writes. *)
Definition new_entry (de : list Z) (name : Z -> Z) (n : Z) : list Z := put16 (take 2 de ++ strncpy (de_name de) name DIRSIZ) 0 n.

Lemma new_entry_ok de name n : length de = 16%nat -> 0 < n < 65536 ->
  length (new_entry de name n) = 16%nat /\ de_inum (new_entry de name n) = n /\ dir_hit name (new_entry de name n) = true.
Proof.
  intros Hl Hn. unfold new_entry, strncpy. set (nm := strncpy_from _ _ _ _).
  assert (Hnm : length nm = 14%nat).
  { unfold nm. rewrite (proj1 (strncpy_from_keeps _ _ _ _)). unfold de_name. rewrite length_drop. lia. }
  assert (Hall : length (take 2 de ++ nm) = 16%nat) by (rewrite length_app, length_take; lia).
  assert (Hinum : de_inum (put16 (take 2 de ++ nm) 0 n) = n).
  { unfold de_inum. rewrite get16_put16 by lia. unfold u16. apply Z.mod_small. lia. }
  assert (Hname : de_name (put16 (take 2 de ++ nm) 0 n) = nm).
  { unfold de_name, put16. rewrite !drop_insert_lt by lia. apply drop_app_length'. rewrite length_take. lia. }
  split_and!; [by rewrite length_put16|done|]. unfold dir_hit. rewrite Hinum, Hname. apply andb_true_iff. split.
  - apply negb_true_iff, Z.eqb_neq. lia.
  - apply Z.eqb_eq. unfold namecmp, nm. apply (strncpy_cmp name (Z.to_nat DIRSIZ) _ 0). unfold de_name. rewrite length_drop, Hl. done.
Qed.

(** * Directories *)

(** The first entry that is not in use, or the end. *)
Definition free_entry (q : inode_t) (cur : Z * Z -> list Z) : Z :=
  match list_find (fun k => de_inum (dir_entry q cur k) = 0) (seqZ 0 (isize q / 16)) with
  | Some (_, k) => k
  | None => isize q / 16
  end.

Lemma free_entry_spec q cur k :
  0 <= k <= isize q / 16 -> (k < isize q / 16 -> de_inum (dir_entry q cur k) = 0) ->
  (forall j, 0 <= j < k -> de_inum (dir_entry q cur j) <> 0) -> free_entry q cur = k.
Proof.
  intros Hk He Hno. unfold free_entry. destruct (list_find _ _) as [[i j]|] eqn:E.
  - apply list_find_Some in E as (Hi & Hj & Hfirst). apply lookup_seqZ in Hi as [-> Hi].
    destruct (decide (k < 0 + Z.of_nat i)) as [Hlt|]; [|destruct (decide (k = 0 + Z.of_nat i)); [done|exfalso; eapply Hno, Hj; lia]].
    exfalso. apply (Hfirst (Z.to_nat k) k); [|lia|apply He; lia]. apply lookup_seqZ. lia.
  - apply list_find_None in E. rewrite Forall_forall in E. destruct (decide (k = isize q / 16)); [done|].
    exfalso. apply (E k); [apply elem_of_seqZ; lia|apply He; lia].
Qed.

Section link.
Context `{Symbols} `{Driver} {Hdrv : SyncDriver} `{DevSw}.
Context (dv start : Z) (sb : superblock).

Lemma state_bio i s t cur dirt q :
  file_state dv start sb i s cur dirt q -> bio_only s t -> cache t [] cur dirt -> file_state dv start sb i t cur dirt q.
Proof.
  intros [_ Hop Hsb Hi Hm Hf] Ho Hc. destruct (fs_only_inode _ _ (bio_fs_only _ _ Ho)) as [E1 E2].
  split; [done|by eapply in_op_bio|by rewrite E2|by rewrite E1|done|done].
Qed.

(** The search of [dirlink] for an entry. *)
Definition find_entry (dp : nat) : Z * list Z -> K (Z * list Z + Z * list Z) := fun '(off, de) =>
  size ← iget_f dp isize;
  if negb (off <? size) then mret (inr (off, de))
  else
    r ← readi dp DKernel off sizeof_dirent;
    if negb (r.1 =? sizeof_dirent) then panic "dirlink read" else
    if de_inum r.2 =? 0 then mret (inr (off, r.2))
    else mret (inl (off + sizeof_dirent, r.2)).

Lemma wp_find_entry s cur dirt dp e (Q : Z * list Z -> env kernel -> kernel -> Prop) :
  let q := inode_of dp s in
  cache s [] cur dirt -> (size dirt < head)%nat -> itype q <> T_DEV -> file_ok s [] cur q -> isize q mod 16 = 0 ->
  (forall de t, length de = 16%nat -> bio_only s t -> cache t [] cur dirt -> k_disk t = k_disk s ->
     Q (16 * free_entry q cur, de) e t) ->
  wp (loop (Z.to_nat (isize q / 16 + 2)) (find_entry dp) (0, replicate 16 0)) Q e s.
Proof.
  intros q Hc Hroom Hty Hf Hsz HQ. pose proof (fo_size _ _ _ _ Hf) as Hb.
  apply (wp_loop (fun '(off, de) e' t => e' = e /\ length de = 16%nat /\ bio_only s t /\ cache t [] cur dirt /\ k_disk t = k_disk s /\
      exists k, off = 16 * k /\ 0 <= k <= isize q / 16 /\ forall j, 0 <= j < k -> de_inum (dir_entry q cur j) <> 0)
    (fun '(off, _) => Z.to_nat ((isize q - off) / 16))).
  { Z.div_mod_to_equations. lia. }
  { split_and!; [done|done|apply bio_only_refl|done|done|]. exists 0. split_and!; [lia|lia|Z.div_mod_to_equations; lia|lia]. }
  intros [off de] e' s1 (-> & Hde & Ho & Hc1 & Hd1 & k & -> & Hk & Hno). unfold find_entry, iget_f. apply wp_bind, wp_get.
  rewrite (bio_only_inode dp _ _ Ho). fold q. destruct (Z.ltb_spec (16 * k) (isize q)) as [Hlt|Hge]; cbn [negb].
  2: { apply wp_ret. assert (k = isize q / 16) as Ek by (Z.div_mod_to_equations; lia).
       rewrite <- (free_entry_spec q cur k); [by apply HQ|lia|lia|done]. }
  destruct (readi_ok s1 [] cur dirt dp (16 * k) 16 e) as (s2 & Hrun & Hc2 & Ho2 & Hd2);
    rewrite ?(bio_only_inode dp _ _ Ho); fold q; [done|simpl; lia|done|by eapply file_ok_none|lia|lia|].
  rewrite (bio_only_inode dp _ _ Ho) in Hrun. fold q in Hrun. replace (Z.min 16 (isize q - 16 * k)) with 16 in Hrun by (Z.div_mod_to_equations; lia).
  apply wp_bind. eapply wp_intro; [exact Hrun|]. cbn [fst snd Z.eqb Pos.eqb negb]. fold (dir_entry q cur k).
  pose proof (bio_only_trans _ _ _ Ho Ho2) as Ho'.
  assert (Hlen : length (dir_entry q cur k) = 16%nat) by (unfold dir_entry, file_bytes; by rewrite length_fmap, length_seqZ).
  destruct (Z.eqb_spec (de_inum (dir_entry q cur k)) 0) as [E0|E0]; apply wp_ret.
  - rewrite <- (free_entry_spec q cur k); [|lia|done|done]. apply HQ; [done|done|done|congruence].
  - split; [|Z.div_mod_to_equations; lia]. split_and!; [done|done|done|done|congruence|]. exists (k + 1).
    split_and!; [lia|lia|Z.div_mod_to_equations; lia|]. intros j Hj. destruct (decide (j = k)) as [->|]; [done|apply Hno; lia].
Qed.

(** The directory after entry [k] was written. *)
Lemma written_entries dp s cur dirt q k de s' cur' dirt' q' :
  wrote dv start sb dp s cur dirt q (16 * k) de s' cur' dirt' q' -> length de = 16%nat -> file_wf dv start sb cur q ->
  isize q mod 16 = 0 -> 0 <= k <= isize q / 16 ->
  isize q' = Z.max (isize q) (16 * k + 16) /\ dir_entry q' cur' k = de /\
  forall j, 0 <= j < isize q' / 16 -> j <> k -> j < isize q / 16 /\ dir_entry q' cur' j = dir_entry q cur j.
Proof.
  intros Hw Hl Hf Hsz Hk. pose proof (st_file _ _ _ _ _ _ _ _ (wr_state _ _ _ _ _ _ _ _ _ _ _ _ _ _ Hw)) as Hf'.
  assert (Esz : isize q' = Z.max (isize q) (16 * k + 16)) by (rewrite (wr_shape _ _ _ _ _ _ _ _ _ _ _ _ _ _ Hw), Hl; done).
  pose proof (fl_size _ _ _ _ _ Hf') as Hmax. split_and!; [done| |].
  - pose proof (written_bytes dv start sb dp s cur dirt q (16 * k) de s' cur' dirt' q' ltac:(lia) Hw) as Hb. by rewrite Hl in Hb.
  - intros j Hj Hjk. assert (Hjq : j < isize q / 16) by (Z.div_mod_to_equations; lia). split; [done|].
    unfold dir_entry, file_bytes. apply list_fmap_ext. intros i p Hp. apply lookup_seqZ in Hp as [-> Hi].
    rewrite <- (fdata_byte dv start sb), (wr_data _ _ _ _ _ _ _ _ _ _ _ _ _ _ Hw), Hl, decide_False by (done || (Z.div_mod_to_equations; lia)).
    apply (fdata_byte dv start sb); [done|Z.div_mod_to_equations; lia].
Qed.

(** A table of inodes with room keeps it when an entry in use changes. *)
Lemma file_only_table i s s' :
  file_only i s s' -> length (k_icache s') = length (k_icache s) /\ (ready L_icache s -> ready L_icache s') /\
  forall j, j <> i -> k_icache s' !! j = k_icache s !! j.
Proof.
  intros (q & bc & d & pt & lg & -> & _). cbn. split_and!; [by rewrite length_alter|done|]. intros j Hj. by apply list_lookup_alter_ne.
Qed.

Lemma dir_ok_written dp s cur dirt q k de s' cur' dirt' q' :
  file_state dv start sb dp s cur dirt q -> dir_ok s cur dp -> 0 < iref q ->
  wrote dv start sb dp s cur dirt q (16 * k) de s' cur' dirt' q' -> length de = 16%nat ->
  dir_ok s' cur' dp.
Proof.
  intros Hs [Hty Hfo Hsz Hr Hlen Hex] Hiref Hw Hl. rewrite (state_inode _ _ _ _ _ _ _ _ Hs) in *.
  pose proof (wr_state _ _ _ _ _ _ _ _ _ _ _ _ _ _ Hw) as Hs'. pose proof (wr_shape _ _ _ _ _ _ _ _ _ _ _ _ _ _ Hw) as Hq.
  destruct (file_only_table _ _ _ (wr_only _ _ _ _ _ _ _ _ _ _ _ _ _ _ Hw)) as (E1 & E2 & E3).
  split; rewrite ?(state_inode _ _ _ _ _ _ _ _ Hs').
  - rewrite Hq. done.
  - apply (wf_file_ok dv start sb); apply Hs'.
  - rewrite Hq, Hl. cbn [isize set_isize set_iaddrs]. change (Z.of_nat 16) with 16. destruct (Z.max_spec (isize q) (16 * k + 16)) as [[_ ->]|[_ ->]]; [|done]. Z.div_mod_to_equations. lia.
  - by apply E2.
  - congruence.
  - apply Exists_exists in Hex as (p & (j & Hj)%list_elem_of_lookup & Hp). apply Exists_exists. exists p. split; [|done].
    apply list_elem_of_lookup. exists j. rewrite E3; [done|]. intros ->. rewrite (st_inode _ _ _ _ _ _ _ _ Hs) in Hj. injection Hj as ->.
    unfold unused in Hp. lia.
Qed.

Lemma wp_dirlink dp name n s cur dirt q e (Q : Z -> env kernel -> kernel -> Prop) :
  let k := free_entry q cur in
  file_state dv start sb dp s cur dirt q -> dir_ok s cur dp ->
  (forall j, 0 <= j < isize q / 16 -> dir_hit name (dir_entry q cur j) = false) ->
  16 * k + 16 <= MAXFILE * BSIZE -> (missing q cur (touched (16 * k) 16) <= nfree dv sb cur)%nat ->
  (size dirt + bitmap_blocks sb + length (touched (16 * k) 16) + 6 < head)%nat -> 0 < n < 65536 -> 0 <= k <= isize q / 16 ->
  (forall t de s' cur' dirt' q', length de = 16%nat -> bio_only s t -> file_state dv start sb dp t cur dirt q ->
     wrote dv start sb dp t cur dirt q (16 * k) (new_entry de name n) s' cur' dirt' q' -> Q 0 e s') ->
  wp (dirlink dp name n) Q e s.
Proof.
  intros k Hs Hd Habs Hmax Hfree Hroom Hn Hk HQ. pose proof (state_inode _ _ _ _ _ _ _ _ Hs) as Eq. pose proof Hd as [Hty Hfo Hsz _ _ _].
  rewrite Eq in *. unfold dirlink. apply wp_bind.
  destruct (dirlookup_ok s cur dirt dp name e) as (r & t & Hrun & Hc & Hdk & l' & Hic & Hl); [apply Hs|lia|done|].
  rewrite Eq in Hl. eapply wp_intro; [exact Hrun|]. destruct r as [[ip off]|].
  { destruct Hl as (j & q' & _ & Hj & Hh & _). by rewrite Habs in Hh. }
  destruct Hl as [_ ->]. unfold ic in Hic. rewrite set_icache_id in Hic. pose proof (state_bio _ _ _ _ _ _ Hs Hic Hc) as Ht.
  pose proof (state_inode _ _ _ _ _ _ _ _ Ht) as Eqt. unfold iget_f. apply wp_bind, wp_get. rewrite Eqt. apply wp_bind.
  change (Z.to_nat (isize q / sizeof_dirent + 2)) with (Z.to_nat (isize q / 16 + 2)). rewrite <- Eqt at 1.
  apply (wp_find_entry t cur dirt dp e); rewrite ?Eqt; [done|lia|by rewrite Hty|by eapply file_ok_none|done|].
  intros de t2 Hde Ho2 Hc2 _. fold k. pose proof (state_bio _ _ _ _ _ _ Ht Ho2 Hc2) as Ht2.
  destruct (new_entry_ok de name n Hde Hn) as (Hl & _ & _).
  destruct (writei_ok dv start sb dp (SKernel (new_entry de name n)) t2 cur dirt q (16 * k) (new_entry de name n) e) as (s' & cur' & dirt' & q' & Hw & Hwr);
    rewrite ?Hl; [done|by rewrite Hty|apply supplies_kernel|Z.div_mod_to_equations; lia|done|done|done|].
  rewrite Hl in Hw. apply wp_bind. eapply wp_intro; [exact Hw|]. apply wp_ret.
  eapply HQ; [exact Hde| |exact Ht2|exact Hwr]. by eapply bio_only_trans.
Qed.

Lemma free_entry_range q cur : 0 <= isize q -> 0 <= free_entry q cur <= isize q / 16.
Proof.
  intros Hs. unfold free_entry. destruct (list_find _ _) as [[i k]|] eqn:E; [|Z.div_mod_to_equations; lia].
  apply list_find_Some in E as (Hi & _). apply lookup_seqZ in Hi. lia.
Qed.

(** A search for a name that one entry has. *)
Lemma looked_up_one name q cur l r l' k n :
  looked_up name q cur l r l' -> 0 <= k < isize q / 16 -> dir_hit name (dir_entry q cur k) = true -> de_inum (dir_entry q cur k) = n ->
  (forall j, 0 <= j < isize q / 16 -> j <> k -> dir_hit name (dir_entry q cur j) = false) ->
  exists ip q', r = Some (ip, 16 * k) /\ l' !! ip = Some q' /\ in_use (idev q) n q'.
Proof.
  intros Hl Hk Hh Hn Hno. destruct r as [[ip off]|].
  - destruct Hl as (j & q' & -> & Hj & Hhj & _ & Hs & ->). destruct (decide (j = k)) as [->|]; [|by rewrite Hno in Hhj].
    rewrite Hn in Hs. apply iget_slot_props in Hs as (Hi & Hu & _). exists ip, q'. split_and!; [done| |done].
    by apply list_lookup_insert_eq.
  - destruct Hl as [Hl _]. by rewrite Hl in Hh.
Qed.

(** * Theorem *)

(** C15: [dirlink] adds a name to a directory.  If no entry has the name, and there is
    room for one more, it returns 0; the first entry that was not in use, or a new one at the
    end, then has the name and the number, and every other entry and every block in use by
    anything else is as before.  [dirlookup] finds the name in that entry, with the inode of
    that number. *)
Theorem dirlink_spec dp name n s cur dirt q e :
  let k := free_entry q cur in
  file_state dv start sb dp s cur dirt q -> dir_ok s cur dp -> 0 < iref q ->
  (forall j, 0 <= j < isize q / 16 -> dir_hit name (dir_entry q cur j) = false) ->
  16 * k + 16 <= MAXFILE * BSIZE -> (missing q cur (touched (16 * k) 16) <= nfree dv sb cur)%nat ->
  (size dirt + bitmap_blocks sb + length (touched (16 * k) 16) + 6 < head)%nat -> 0 < n < 65536 ->
  exists s' cur' dirt' q', dirlink dp name n e s = Done 0 e s' /\ file_state dv start sb dp s' cur' dirt' q' /\
    isize q' = Z.max (isize q) (16 * k + 16) /\
    (forall j, 0 <= j < isize q' / 16 -> j <> k -> dir_entry q' cur' j = dir_entry q cur j) /\
    (forall b, elsewhere dv sb cur q b -> b <> (dv, IBLOCK (inum q) sb) -> cur' b = cur b) /\
    exists ip s'', dirlookup dp name e s' = Done (Some (ip, 16 * k)) e s'' /\
      idev (inode_of ip s'') = dv /\ inum (inode_of ip s'') = n.
Proof.
  intros k Hs Hd Hiref Habs Hmax Hfree Hroom Hn. pose proof (st_file _ _ _ _ _ _ _ _ Hs) as Hf.
  pose proof (free_entry_range q cur ltac:(apply Hf)) as Hk. fold k in Hk.
  assert (Hsz : isize q mod 16 = 0) by (rewrite <- (state_inode _ _ _ _ _ _ _ _ Hs); apply Hd).
  assert (Hw := wp_dirlink dp name n s cur dirt q e (fun r e' s' => r = 0 /\ e' = e /\ exists t de cur' dirt' q', length de = 16%nat /\
    bio_only s t /\ file_state dv start sb dp t cur dirt q /\
    wrote dv start sb dp t cur dirt q (16 * k) (new_entry de name n) s' cur' dirt' q') Hs Hd Habs Hmax Hfree Hroom Hn Hk).
  apply wp_elim in Hw as (r & e' & s' & Hrun & -> & -> & t & de & cur' & dirt' & q' & Hde & Ho & Ht & Hw).
  2: { intros t de s' cur' dirt' q' Hde Ho Ht Hwr. split_and!; [done|done|]. by exists t, de, cur', dirt', q'. }
  destruct (new_entry_ok de name n Hde Hn) as (Hl & Hnum & Hhit).
  destruct (written_entries _ _ _ _ _ _ _ _ _ _ _ Hw Hl Hf Hsz Hk) as (Esz & Ek & Eother).
  assert (Hdt : dir_ok t cur dp).
  { destruct Hd as [A1 A2 A3 A4 A5 A6]. pose proof (bio_only_icache _ _ Ho) as Ei. pose proof (bio_only_inode dp _ _ Ho) as Eq.
    split; rewrite ?Eq, ?Ei; try done; [by eapply file_ok_none|by eapply bio_only_ready]. }
  pose proof (dir_ok_written _ _ _ _ _ _ _ _ _ _ _ Ht Hdt Hiref Hw Hl) as Hd'. pose proof (wr_state _ _ _ _ _ _ _ _ _ _ _ _ _ _ Hw) as Hs'.
  pose proof (wr_size _ _ _ _ _ _ _ _ _ _ _ _ _ _ Hw) as Hsize. rewrite Hl in Hsize. change (Z.of_nat 16) with 16 in Hsize.
  exists s', cur', dirt', q'. split_and!; [done|done|done| |apply Hw|].
  { intros j Hj Hjk. by apply Eother. }
  destruct (dirlookup_ok s' cur' dirt' dp name e) as (r & s'' & Hlk & _ & _ & l' & Hic & Hres); [apply Hs'|lia|done|].
  rewrite (state_inode _ _ _ _ _ _ _ _ Hs') in Hres.
  destruct (looked_up_one _ _ _ _ _ _ k n Hres) as (ip & p & -> & Hp & _ & Hdev & Hinum); rewrite ?Ek; try done.
  { rewrite Esz. split; [lia|]. apply Z.lt_le_trans with ((16 * k + 16) / 16); [Z.div_mod_to_equations; lia|apply Z.div_le_mono; lia]. }
  { intros j Hj Hjk. destruct (Eother j Hj Hjk) as [Hjq ->]. apply Habs. lia. }
  exists ip, s''. unfold inode_of. rewrite (ic_icache _ _ _ Hic), Hp. split_and!; [done| |done]. cbn. rewrite Hdev. apply Hs'.
Qed.

End link.

(** * An empty directory *)

#[local] Existing Instance built_symbols.
#[local] Existing Instance bw_driver | 0.
#[local] Existing Instance bw_sync | 0.
#[local] Existing Instance fw_devsw.

Lemma ew_dir : dir_ok (ew_state T_DIR) (contents (ew_disk T_DIR)) 0.
Proof.
  pose proof (ew_ok T_DIR eq_refl) as Hs. split; rewrite ?(state_inode _ _ _ _ _ _ _ _ Hs).
  - done.
  - apply (wf_file_ok 1 2 aw_sb); [apply ew_map|by apply ew_file].
  - done.
  - destruct (ew_cache T_DIR) as [_ [bs ->]]. split; [by split|by eexists].
  - by destruct (ew_cache T_DIR) as [_ [bs ->]].
  - destruct (ew_cache T_DIR) as [_ [bs ->]]. apply Exists_cons. right. apply Exists_cons. by left.
Qed.

Lemma ew_free_entry : free_entry (ew_inode T_DIR) (contents (ew_disk T_DIR)) = 0.
Proof. by vm_compute. Qed.

Lemma dirlink_spec_witness :
  exists s' ip s'', dirlink 0 (lstr (str "a")) 7 [] (ew_state T_DIR) = Done 0 [] s' /\
    dirlookup 0 (lstr (str "a")) [] s' = Done (Some (ip, 0)) [] s'' /\ inum (inode_of ip s'') = 7.
Proof.
  destruct (dirlink_spec 1 2 aw_sb 0 (lstr (str "a")) 7 (ew_state T_DIR) (contents (ew_disk T_DIR)) ∅ (ew_inode T_DIR) []
    (ew_ok T_DIR eq_refl) ew_dir ltac:(done) ltac:(simpl; intros j Hj; change (0 / 16) with 0 in Hj; lia) ltac:(by vm_compute)
    ltac:(apply Nat.leb_le; by vm_compute) ltac:(apply Nat.ltb_lt; by vm_compute) ltac:(lia))
    as (s' & _ & _ & _ & Hw & _ & _ & _ & _ & ip & s'' & Hl & _ & Hn).
  rewrite ew_free_entry in Hl. exists s', ip, s''. split; [exact Hw|]. split; [exact Hl|exact Hn].
Defined.
