(* ===== verification/Mkfs.v ===== *)
(** mkfs.c: the program of the build host that makes the file system image.

    The image is the contents of its blocks.  The files it is made from are the names on the command line with
    what [read] returns for each of them, piece by piece.  [None] is a failed assertion or
    a read beyond the end of the image.  The structures
    that mkfs writes are encoded as fs.c decodes them: [xint] and [xshort] are what put32 and put16
    do, little-endian bytes. *)

From S2P Require Import Prelude Params Mem State Spinlock Console Proc Ide Bio Log Umem Fs.

Definition NINODES : Z := 200.

(** Disk layout: [ boot block | sb block | log | inode blocks | free bit map | data blocks ] *)
Definition nbitmap : Z := FSSIZE / (BSIZE * 8) + 1.
Definition ninodeblocks : Z := NINODES / IPB + 1.
Definition nlog : Z := LOGSIZE.
Definition nmeta : Z := 2 + nlog + ninodeblocks + nbitmap.
Definition nblocks : Z := FSSIZE - nmeta.

Definition mkfs_sb : superblock :=
  mkSb FSSIZE nblocks NINODES nlog 2 (2 + nlog) (2 + nlog + ninodeblocks).

(** The image and the variables [freeinode] and [freeblock]. *)
Record mkfs_t := mkMkfs {
  mk_image : Z -> list Z;
  mk_freeinode : Z;
  mk_freeblock : Z
}.

Definition wsect (sec : Z) (buf : list Z) (m : mkfs_t) : mkfs_t :=
  mkMkfs (fun b => if b =? sec then buf else mk_image m b) (mk_freeinode m) (mk_freeblock m).

(** The image file has the [FSSIZE] blocks that main writes first: reading beyond them fails, and a block is only
    written after it was read. *)
Definition rsect (sec : Z) (m : mkfs_t) : option (list Z) :=
  if sec <? FSSIZE then Some (mk_image m sec) else None.

(** [freeblock++] and [freeinode++]. *)
Definition next_block (m : mkfs_t) : Z * mkfs_t :=
  (mk_freeblock m, mkMkfs (mk_image m) (mk_freeinode m) (u32 (mk_freeblock m + 1))).
Definition next_inode (m : mkfs_t) : Z * mkfs_t :=
  (mk_freeinode m, mkMkfs (mk_image m) (u32 (mk_freeinode m + 1)) (mk_freeblock m)).

(** [struct dinode] is the part of [inode_t] that is on disk; the other fields stay zero. *)
Definition winode (n : Z) (ip : inode_t) (m : mkfs_t) : option mkfs_t :=
  let bn := IBLOCK n mkfs_sb in
  buf ← rsect bn m;
  Some (wsect bn (dinode_encode ip buf (dinode_off n)) m).
Definition rinode (n : Z) (m : mkfs_t) : option inode_t :=
  buf ← rsect (IBLOCK n mkfs_sb) m;
  Some (dinode_decode buf (dinode_off n) zero_inode).

Definition mkfs_ialloc (type : Z) (m : mkfs_t) : option (Z * mkfs_t) :=
  let '(n, m) := next_inode m in
  m ← winode n (mkInode 0 0 0 0 type 0 0 1 0 (replicate 13 0)) m;
  Some (n, m).

(** [din.addrs[k] = x]. *)
Definition put_addr (k : Z) (x : Z) (q : inode_t) : inode_t :=
  mkInode (idev q) (inum q) (iref q) (iflags q) (itype q) (imajor q) (iminor q) (inlink q) (isize q)
    (<[Z.to_nat k := x]> (iaddrs q)).
Definition put_isize (x : Z) (q : inode_t) : inode_t :=
  mkInode (idev q) (inum q) (iref q) (iflags q) (itype q) (imajor q) (iminor q) (inlink q) x (iaddrs q).

(** [if(din.addrs[k] == 0) din.addrs[k] = freeblock++]. *)
Definition get_addr (k : Z) (q : inode_t) (m : mkfs_t) : inode_t * mkfs_t :=
  if lget (iaddrs q) (Z.to_nat k) =? 0 then let '(x, m) := next_block m in (put_addr k x q, m) else (q, m).

(** The block [x] for block [fbn] of the file. *)
Definition append_block (fbn : Z) (q : inode_t) (m : mkfs_t) : option (Z * inode_t * mkfs_t) :=
  if fbn <? NDIRECT then
    let '(q, m) := get_addr fbn q m in
    Some (lget (iaddrs q) (Z.to_nat fbn), q, m)
  else
    let '(q, m) := get_addr NDIRECT q m in
    let ind := lget (iaddrs q) (Z.to_nat NDIRECT) in
    let o := Z.to_nat (4 * (fbn - NDIRECT)) in
    indirect ← rsect ind m;
    if get32 indirect o =? 0 then
      let '(x, m) := next_block m in
      let indirect := put32 indirect o x in
      Some (get32 indirect o, q, wsect ind indirect m)
    else Some (get32 indirect o, q, m).

(** The loop of [iappend]; each round takes at least one byte. *)
Fixpoint iappend_loop (fuel : nat) (off : Z) (p : list Z) (q : inode_t) (m : mkfs_t) : option (Z * inode_t * mkfs_t) :=
  match p, fuel with
  | [], _ => Some (off, q, m)
  | _, O => None
  | _, S fuel' =>
      let fbn := off / BSIZE in
      if negb (fbn <? MAXFILE) then None  (* assert(fbn < MAXFILE) *)
      else
        '(x, q, m) ← append_block fbn q m;
        let n1 := Z.min (Z.of_nat (length p)) ((fbn + 1) * BSIZE - off) in
        buf ← rsect x m;
        let buf := splice buf (Z.to_nat (off - fbn * BSIZE)) (take (Z.to_nat n1) p) in
        iappend_loop fuel' (off + n1) (drop (Z.to_nat n1) p) q (wsect x buf m)
  end.

Definition iappend (n : Z) (p : list Z) (m : mkfs_t) : option mkfs_t :=
  q ← rinode n m;
  '(off, q, m) ← iappend_loop (length p) (isize q) p q m;
  winode n (put_isize off q) m.

(** [bzero(buf, BSIZE); for(i = 0; i < used; i++) buf[i/8] |= 1 << (i%8)]. *)
Definition used_bits (used : Z) : list Z := foldl bit_set zero_block (seqZ 0 used).

Definition mkfs_balloc (used : Z) (m : mkfs_t) : option mkfs_t :=
  if negb (used <? BSIZE * 8) then None  (* assert(used < BSIZE*8) *)
  else Some (wsect (sb_bmapstart mkfs_sb) (used_bits used) m).

(** A directory entry: [bzero], the number and [strncpy] of the name. *)
Definition dirent (n : Z) (name : list Z) : list Z :=
  put16 (replicate 2 0 ++ take (Z.to_nat DIRSIZ) (name ++ replicate (Z.to_nat DIRSIZ) 0)) 0 n.

(** [while((cc = read(fd, buf, sizeof(buf))) > 0) iappend(inum, buf, cc)]. *)
Fixpoint append_all (n : Z) (pieces : list (list Z)) (m : mkfs_t) : option mkfs_t :=
  match pieces with
  | [] => Some m
  | p :: pieces' => m ← iappend n p m; append_all n pieces' m
  end.

(** Skip leading _ in name when writing to file system. *)
Definition image_name (arg : list Z) : list Z :=
  match arg with c :: arg' => if c =? chr "_" then arg' else arg | [] => [] end.

(** One round of the loop over the command line. *)
Definition add_file (arg : list Z) (pieces : list (list Z)) (m : mkfs_t) : option mkfs_t :=
  if bool_decide (chr "/" ∈ arg) then None  (* assert(index(argv[i], '/') == 0) *)
  else
    '(n, m) ← mkfs_ialloc T_FILE m;
    m ← iappend ROOTINO (dirent n (image_name arg)) m;
    append_all n pieces m.

Fixpoint add_files (files : list (list Z * list (list Z))) (m : mkfs_t) : option mkfs_t :=
  match files with
  | [] => Some m
  | (arg, pieces) :: files' => m ← add_file arg pieces m; add_files files' m
  end.

(** The super block, as [memmove(buf, &sb, sizeof(sb))] writes it. *)
Definition sb_encode (sb : superblock) : list Z :=
  put32 (put32 (put32 (put32 (put32 (put32 (put32 zero_block 0 (sb_size sb)) 4 (sb_nblocks sb)) 8 (sb_ninodes sb))
    12 (sb_nlog sb)) 16 (sb_logstart sb)) 20 (sb_inodestart sb)) 24 (sb_bmapstart sb).

(** The image before the first file: zeroes, the super block, and the root directory with "." and "..". *)
Definition mkfs_init : option mkfs_t :=
  let m := wsect 1 (sb_encode mkfs_sb) (mkMkfs (fun _ => zero_block) 1 nmeta) in
  '(rootino, m) ← mkfs_ialloc T_DIR m;
  if negb (rootino =? ROOTINO) then None  (* assert(rootino == ROOTINO) *)
  else
    m ← iappend rootino (dirent rootino (str ".")) m;
    iappend rootino (dirent rootino (str "..")) m.

(** fix size of root inode dir *)
Definition fix_root (m : mkfs_t) : option mkfs_t :=
  q ← rinode ROOTINO m;
  winode ROOTINO (put_isize ((isize q / BSIZE + 1) * BSIZE) q) m.

Definition mkfs_main (files : list (list Z * list (list Z))) : option mkfs_t :=
  m ← mkfs_init;
  m ← add_files files m;
  m ← fix_root m;
  mkfs_balloc (mk_freeblock m) m.
