(* ===== verification/MkfsSpec.v ===== *)
(** The image that mkfs makes: the kernel finds every file in it, with its contents. *)

From S2P Require Import Prelude Params Mem State Spinlock Console Kalloc Vm VmTables VmSpace VmAlloc.
From S2P Require Import VmCopy Proc ProcSpec Ide Bio BioRing BioSpec BioProps Log LogSpec LogOps LogCrash.
From S2P Require Import Umem Fs FsSpec FsAlloc Mkfs.

(** * Blocks *)

Lemma lget_splice d o bs i :
  (o + length bs <= length d)%nat ->
  lget (splice d o bs) i = if decide (o <= i < o + length bs)%nat then lget bs (i - o) else lget d i.
Proof.
  intros Hl. unfold splice, lget. destruct (decide (o <= i < o + length bs)%nat) as [Hi|Hi].
  - rewrite app_nth2 by (rewrite length_take; lia). rewrite length_take, Nat.min_l by lia.
    by rewrite app_nth1 by lia.
  - destruct (decide (i < o)%nat) as [Hlt|Hge].
    + rewrite app_nth1 by (rewrite length_take; lia). by rewrite !nth_lookup, lookup_take_lt.
    + rewrite app_nth2, app_nth2 by (rewrite length_take; lia). rewrite length_take, Nat.min_l by lia.
      rewrite !nth_lookup, lookup_drop. do 2 f_equal. lia.
Qed.

Lemma length_splice d o bs : (o + length bs <= length d)%nat -> length (splice d o bs) = length d.
Proof. intros Hl. unfold splice. rewrite !length_app, length_take, length_drop. lia. Qed.

Lemma lget_zero i : lget zero_block i = 0.
Proof.
  unfold lget, zero_block. rewrite nth_lookup. destruct (replicate _ 0 !! i) eqn:E; [|done].
  by apply lookup_replicate in E as [-> _].
Qed.

Lemma lget_beyond l i : (length l <= i)%nat -> lget l i = 0.
Proof. intros Hi. unfold lget. by apply nth_overflow. Qed.

Lemma get32_zero o : get32 zero_block o = 0.
Proof. unfold get32. by rewrite !lget_zero. Qed.

(** * Files in the image *)

Definition fblk (im : Z -> list Z) (q : inode_t) (k : Z) : Z := file_block q (fun kb => im kb.2) k.

(** Who uses a block: block [k] of inode [i] is [(i, k)], its indirect block [(i, -1)]. *)
Definition owners : Type := Z -> option (Z * Z).

(** The image: what is not in use is zero, and freeblock is above everything in use. *)
Record img_inv (m : mkfs_t) (own : owners) : Prop := {
  ii_range : forall b w, own b = Some w -> nmeta <= b < mk_freeblock m;
  ii_len : forall b, length (mk_image m b) = Z.to_nat BSIZE;
  ii_zero : forall b, mk_freeblock m <= b -> mk_image m b = zero_block;
  ii_free : nmeta <= mk_freeblock m
}.

(** Inode [q] with number [i] has [n] blocks, an indirect block if [ind], and contents [c] followed by zeros. *)
Record file_inv (im : Z -> list Z) (own : owners) (i : Z) (q : inode_t) (n : Z) (ind : bool) (c : list Z) : Prop := {
  fi_addrs : length (iaddrs q) = 13%nat /\ Forall (fun a => u32 a = a) (iaddrs q);
  fi_count : 0 <= n <= MAXFILE /\ Z.of_nat (length c) <= BSIZE * n /\ (NDIRECT < n -> ind = true);
  fi_own : forall k, 0 <= k < n -> own (fblk im q k) = Some (i, k);
  fi_direct : forall k, n <= k < NDIRECT -> lget (iaddrs q) (Z.to_nat k) = 0;
  fi_ind : if ind then own (lget (iaddrs q) (Z.to_nat NDIRECT)) = Some (i, -1) /\
             forall k, n <= k < MAXFILE -> NDIRECT <= k -> fblk im q k = 0
           else lget (iaddrs q) (Z.to_nat NDIRECT) = 0;
  fi_data : forall p, 0 <= p < BSIZE * n ->
    lget (im (fblk im q (p / BSIZE))) (Z.to_nat (p mod BSIZE)) = lget c (Z.to_nat p)
}.

(** Blocks that belong to the file are the same in both images. *)
Lemma file_inv_frame im own im' own' i q n ind c :
  (forall b k, own b = Some (i, k) -> im' b = im b /\ own' b = Some (i, k)) ->
  file_inv im own i q n ind c -> file_inv im' own' i q n ind c.
Proof.
  intros Hf [Ha Hc Ho Hd Hi Hdt].
  assert (Eb : forall k, 0 <= k < MAXFILE -> (NDIRECT <= k -> ind = true) -> fblk im' q k = fblk im q k).
  { intros k Hk Hki. unfold fblk, file_block. destruct (Z.ltb_spec k NDIRECT); [done|]. simpl.
    destruct ind; [|by discriminate Hki]. destruct Hi as [Hi _]. by rewrite (proj1 (Hf _ _ Hi)). }
  assert (Ek : forall k, 0 <= k < n -> fblk im' q k = fblk im q k).
  { intros k Hk. apply Eb; [lia|]. intros Hk'. apply Hc. lia. }
  constructor; [done|done| |done| |].
  - intros k Hk. rewrite Ek by done. by apply Hf, Ho.
  - destruct ind; [|done]. destruct Hi as [Hi Hz]. split; [by apply Hf|]. intros k Hk Hk'.
    rewrite Eb by (lia || done). by apply Hz.
  - intros p Hp. assert (Hk : 0 <= p / BSIZE < n) by (Z.div_mod_to_equations; lia).
    rewrite Ek by done. rewrite (proj1 (Hf _ _ (Ho _ Hk))). by apply Hdt.
Qed.

(** * Taking blocks *)

(** Block [b] is given to [w]. *)
Definition claim (b : Z) (w : Z * Z) (own : owners) : owners := fun b' => if b' =? b then Some w else own b'.

(** Inode [i] got [a] blocks more; no block of another inode and no block below nmeta has changed. *)
Record grew (i a : Z) (m : mkfs_t) (own : owners) (m' : mkfs_t) (own' : owners) : Prop := {
  gr_inode : mk_freeinode m' = mk_freeinode m;
  gr_block : mk_freeblock m' = mk_freeblock m + a;
  gr_meta : forall b, b < nmeta -> mk_image m' b = mk_image m b;
  gr_own : forall b j k, own b = Some (j, k) -> own' b = Some (j, k) /\ (j <> i -> mk_image m' b = mk_image m b)
}.

Lemma grew_refl i m own : grew i 0 m own m own.
Proof. constructor; [done|lia|done|done]. Qed.

Lemma grew_trans i a b m own m1 own1 m2 own2 :
  grew i a m own m1 own1 -> grew i b m1 own1 m2 own2 -> grew i (a + b) m own m2 own2.
Proof.
  intros [A1 A2 A3 A4] [B1 B2 B3 B4]. constructor; [congruence|lia| |].
  - intros x Hx. by rewrite B3, A3.
  - intros x j k Hx. destruct (A4 x j k Hx) as [Hx1 E1]. destruct (B4 x j k Hx1) as [Hx2 E2]. split; [done|].
    intros Hj. by rewrite E2, E1.
Qed.

(** The next free block. *)
Lemma next_block_ok m own w :
  img_inv m own -> mk_freeblock m < 4294967295 ->
  let m' := (next_block m).2 in
  mk_freeblock m' = mk_freeblock m + 1 /\ mk_image m' = mk_image m /\ mk_freeinode m' = mk_freeinode m /\
  img_inv m' (claim (mk_freeblock m) w own) /\ own (mk_freeblock m) = None.
Proof.
  intros [Hr Hl Hz Hf] Hb m'. assert (Eb : mk_freeblock m' = mk_freeblock m + 1).
  { subst m'. simpl. unfold u32. rewrite Z.mod_small; [done|]. change nmeta with 59 in Hf. lia. }
  split_and!; [done|done|done| |].
  - constructor; [|done| |lia].
    + intros b w'. unfold claim. rewrite Eb. destruct (Z.eqb_spec b (mk_freeblock m)); [lia|]. intros ?%Hr. lia.
    + intros b Hb'. apply Hz. lia.
  - destruct (own (mk_freeblock m)) eqn:E; [|done]. apply Hr in E. lia.
Qed.

Lemma claim_grew i k m own m' :
  own (mk_freeblock m) = None -> mk_freeblock m' = mk_freeblock m + 1 -> mk_image m' = mk_image m ->
  mk_freeinode m' = mk_freeinode m -> grew i 1 m own m' (claim (mk_freeblock m) (i, k) own).
Proof.
  intros Hn Eb Ei En. constructor; [done|done|by rewrite Ei|]. intros b j k' Hb. unfold claim.
  destruct (Z.eqb_spec b (mk_freeblock m)) as [->|]; [congruence|]. by rewrite Ei.
Qed.

Lemma claim_own (own : owners) f w b v : own f = None -> own b = Some v -> claim f w own b = Some v.
Proof. intros Hf Hb. unfold claim. destruct (Z.eqb_spec b f) as [->|]; [congruence|done]. Qed.

Lemma lget_put_addr k k' x q :
  length (iaddrs q) = 13%nat -> 0 <= k < 13 -> 0 <= k' ->
  lget (iaddrs (put_addr k x q)) (Z.to_nat k') = if k' =? k then x else lget (iaddrs q) (Z.to_nat k').
Proof.
  intros Hl Hk Hk'. unfold put_addr. cbn [iaddrs]. destruct (Z.eqb_spec k' k) as [->|].
  - apply lget_insert_eq. lia.
  - apply lget_insert_ne. lia.
Qed.

Lemma put_addr_addrs k x q :
  u32 x = x -> length (iaddrs q) = 13%nat /\ Forall (fun a => u32 a = a) (iaddrs q) ->
  length (iaddrs (put_addr k x q)) = 13%nat /\ Forall (fun a => u32 a = a) (iaddrs (put_addr k x q)).
Proof.
  intros Hx [Hl Hf]. unfold put_addr. cbn [iaddrs]. rewrite length_insert. split; [done|]. by apply Forall_insert.
Qed.

(** A direct block: [din.addrs[fbn] = freeblock++]. *)
Lemma take_direct m own i q n ind c :
  img_inv m own -> file_inv (mk_image m) own i q n ind c -> n < NDIRECT -> mk_freeblock m < 4294967295 ->
  file_inv (mk_image m) (claim (mk_freeblock m) (i, n) own) i (put_addr n (mk_freeblock m) q) (n + 1) ind c.
Proof.
  intros Hi [Ha Hc Ho Hd Hind Hdt] Hn Hb. destruct (next_block_ok m own (i, n) Hi Hb) as (_ & _ & _ & _ & Hnone).
  pose proof (ii_free _ _ Hi) as Hf. change nmeta with 59 in Hf. destruct Ha as [Hl Hall].
  assert (Eb : forall k, 0 <= k -> k <> n -> fblk (mk_image m) (put_addr n (mk_freeblock m) q) k = fblk (mk_image m) q k).
  { intros k Hk Hne. unfold fblk, file_block. rewrite !lget_put_addr by lia. rewrite (proj2 (Z.eqb_neq k n) Hne).
    by rewrite (proj2 (Z.eqb_neq NDIRECT n)) by lia. }
  assert (En : fblk (mk_image m) (put_addr n (mk_freeblock m) q) n = mk_freeblock m).
  { unfold fblk, file_block. rewrite (proj2 (Z.ltb_lt n NDIRECT)), lget_put_addr, Z.eqb_refl by lia. done. }
  constructor.
  - apply put_addr_addrs; [|done]. unfold u32. apply Z.mod_small. lia.
  - split_and!; [lia|lia|lia|]. intros Hlt. apply Hc. lia.
  - intros k Hk. destruct (decide (k = n)) as [->|Hne].
    + rewrite En. unfold claim. by rewrite Z.eqb_refl.
    + rewrite Eb by lia. apply claim_own; [done|]. apply Ho. lia.
  - intros k Hk. rewrite lget_put_addr by lia. rewrite (proj2 (Z.eqb_neq k n)) by lia. apply Hd. lia.
  - destruct ind.
    + rewrite lget_put_addr by lia. rewrite (proj2 (Z.eqb_neq NDIRECT n)) by lia. destruct Hind as [Hind Hz].
      split; [by apply claim_own|]. intros k Hk Hk'. rewrite Eb by lia. apply Hz; lia.
    + rewrite lget_put_addr by lia. by rewrite (proj2 (Z.eqb_neq NDIRECT n)) by lia.
  - intros p Hp. destruct (decide (p / BSIZE = n)) as [Epn|Hne].
    + rewrite Epn, En, (ii_zero _ _ Hi), lget_zero by lia. symmetry. apply lget_beyond. Z.div_mod_to_equations. lia.
    + rewrite Eb by (Z.div_mod_to_equations; lia). apply Hdt. Z.div_mod_to_equations. lia.
Qed.

(** The indirect block: [din.addrs[NDIRECT] = freeblock++]. *)
Lemma take_indirect m own i q c :
  img_inv m own -> file_inv (mk_image m) own i q NDIRECT false c -> mk_freeblock m < 4294967295 ->
  file_inv (mk_image m) (claim (mk_freeblock m) (i, -1) own) i (put_addr NDIRECT (mk_freeblock m) q) NDIRECT true c.
Proof.
  intros Hi [Ha Hc Ho Hd Hind Hdt] Hb. destruct (next_block_ok m own (i, -1) Hi Hb) as (_ & _ & _ & _ & Hnone).
  pose proof (ii_free _ _ Hi) as Hf. change nmeta with 59 in Hf. destruct Ha as [Hl Hall].
  assert (Eb : forall k, 0 <= k < NDIRECT -> fblk (mk_image m) (put_addr NDIRECT (mk_freeblock m) q) k = fblk (mk_image m) q k).
  { intros k Hk. unfold fblk, file_block. rewrite (proj2 (Z.ltb_lt k NDIRECT)), lget_put_addr by lia.
    by rewrite (proj2 (Z.eqb_neq k NDIRECT)) by lia. }
  assert (E12 : lget (iaddrs (put_addr NDIRECT (mk_freeblock m) q)) (Z.to_nat NDIRECT) = mk_freeblock m).
  { by rewrite lget_put_addr, Z.eqb_refl by lia. }
  constructor.
  - apply put_addr_addrs; [|done]. unfold u32. apply Z.mod_small. lia.
  - split_and!; [lia|lia|lia|done].
  - intros k Hk. rewrite Eb by lia. apply claim_own; [done|]. apply Ho. lia.
  - intros k Hk. lia.
  - rewrite E12. split; [unfold claim; by rewrite Z.eqb_refl|]. intros k Hk Hk'. unfold fblk, file_block.
    rewrite (proj2 (Z.ltb_ge k NDIRECT)), E12 by lia. cbn [snd]. rewrite (ii_zero _ _ Hi) by lia. apply get32_zero.
  - intros p Hp. assert (0 <= p / BSIZE < NDIRECT) by (Z.div_mod_to_equations; lia). rewrite Eb by lia. by apply Hdt.
Qed.

(** An entry of the indirect block: [indirect[fbn - NDIRECT] = freeblock++]. *)
Definition entry_off (k : Z) : nat := Z.to_nat (4 * (k - NDIRECT)).

Lemma take_entry m own i q n c :
  img_inv m own -> file_inv (mk_image m) own i q n true c -> NDIRECT <= n < MAXFILE -> mk_freeblock m < 4294967295 ->
  let a := lget (iaddrs q) (Z.to_nat NDIRECT) in
  let m' := wsect a (put32 (mk_image m a) (entry_off n) (mk_freeblock m)) (next_block m).2 in
  let own' := claim (mk_freeblock m) (i, n) own in
  file_inv (mk_image m') own' i q (n + 1) true c /\ img_inv m' own' /\ grew i 1 m own m' own' /\
  fblk (mk_image m') q n = mk_freeblock m.
Proof.
  intros Hi Hfi Hn Hb a m' own'. destruct (next_block_ok m own (i, n) Hi Hb) as (Eb & Ei & En & Hi1 & Hnone).
  pose proof (ii_free _ _ Hi) as Hf. change nmeta with 59 in Hf. pose proof Hfi as [Ha Hc Ho Hd [Hind Hz] Hdt].
  assert (Hla : length (mk_image m a) = 512%nat) by apply (ii_len _ _ Hi).
  pose proof (ii_range _ _ Hi _ _ Hind) as Hra. fold a in Hind, Hra.
  assert (Eim : forall b, b <> a -> mk_image m' b = mk_image m b).
  { intros b Hne. subst m'. simpl. by rewrite (proj2 (Z.eqb_neq b a) Hne). }
  assert (Ea : mk_image m' a = put32 (mk_image m a) (entry_off n) (mk_freeblock m)) by (subst m'; simpl; by rewrite Z.eqb_refl).
  assert (Efb : u32 (mk_freeblock m) = mk_freeblock m) by (unfold u32; apply Z.mod_small; lia).
  assert (Eo : forall k, 0 <= k < MAXFILE -> k <> n -> fblk (mk_image m') q k = fblk (mk_image m) q k).
  { intros k Hk Hne. unfold fblk, file_block. destruct (Z.ltb_spec k NDIRECT); [done|]. cbn [snd]. fold a. rewrite Ea.
    apply get32_put32_ne. unfold entry_off. lia. }
  assert (Efn : fblk (mk_image m') q n = mk_freeblock m).
  { unfold fblk, file_block. rewrite (proj2 (Z.ltb_ge n NDIRECT)) by lia. cbn [snd]. fold a. rewrite Ea.
    unfold entry_off. rewrite get32_put32; [done|]. rewrite Hla. lia. }
  split_and!; [| | |done].
  - constructor; [done|split_and!; (done || lia)| | | |].
    + intros k Hk. destruct (decide (k = n)) as [->|Hne]; [rewrite Efn; subst own'; unfold claim; by rewrite Z.eqb_refl|].
      rewrite Eo by lia. apply claim_own; [done|]. apply Ho. lia.
    + intros k Hk. apply Hd. lia.
    + fold a. split; [by apply claim_own|]. intros k Hk Hk'. rewrite Eo by lia. apply Hz; lia.
    + intros p Hp. destruct (decide (p / BSIZE = n)) as [Epn|Hne].
      { rewrite Epn, Efn, Eim, (ii_zero _ _ Hi), lget_zero by lia. symmetry. apply lget_beyond. Z.div_mod_to_equations. lia. }
      assert (Hk : 0 <= p / BSIZE < n) by (Z.div_mod_to_equations; lia). rewrite Eo by lia.
      rewrite Eim; [apply Hdt; Z.div_mod_to_equations; lia|]. intros E. pose proof (Ho _ Hk) as Hok. rewrite E, Hind in Hok. injection Hok as ?. lia.
  - destruct Hi1 as [R1 R2 R3 R4]. constructor; [done| | |done].
    + intros b. destruct (decide (b = a)) as [->|Hne]; [rewrite Ea, length_put32; done|]. rewrite Eim by done. apply (ii_len _ _ Hi).
    + intros b Hb'. change (mk_freeblock m') with (mk_freeblock (next_block m).2) in Hb'. rewrite Eim by lia.
      apply (ii_zero _ _ Hi). lia.
  - constructor; [done|done| |].
    + intros b Hb'. apply Eim. lia.
    + intros b j k Hb'. split; [by apply claim_own|]. intros Hj. apply Eim. intros ->. rewrite Hind in Hb'. congruence.
Qed.

(** [append_block] finds or takes the block for the next byte of the file. *)
Definition with_ind (n : Z) : bool := NDIRECT <? n.
Definition cost (n : Z) : Z := n + Z.b2z (with_ind n).

Lemma cost_mono a b : a <= b -> cost a <= cost b.
Proof. unfold cost, with_ind. destruct (Z.ltb_spec NDIRECT a), (Z.ltb_spec NDIRECT b); simpl; lia. Qed.

(** A block of a file is in the image. *)
Lemma rsect_owned m own b w : img_inv m own -> mk_freeblock m <= FSSIZE -> own b = Some w -> rsect b m = Some (mk_image m b).
Proof.
  intros Hi Hf Ho. pose proof (ii_range _ _ Hi _ _ Ho). unfold rsect. by rewrite (proj2 (Z.ltb_lt _ _)) by lia.
Qed.

(** Only the addresses of the inode change. *)
Definition same_fields (q q' : inode_t) : Prop :=
  exists a, q' = mkInode (idev q) (inum q) (iref q) (iflags q) (itype q) (imajor q) (iminor q) (inlink q) (isize q) a.

Lemma same_fields_refl q : same_fields q q.
Proof. exists (iaddrs q). by destruct q. Qed.

Lemma same_fields_put k x q q' : same_fields q q' -> same_fields q (put_addr k x q').
Proof. intros [a ->]. by eexists. Qed.

Lemma same_fields_trans q q1 q2 : same_fields q q1 -> same_fields q1 q2 -> same_fields q q2.
Proof. intros [a ->] [b ->]. by exists b. Qed.

Lemma owned_nonzero m own b w : img_inv m own -> own b = Some w -> (b =? 0) = false.
Proof. intros Hi Hb. pose proof (ii_range _ _ Hi _ _ Hb). change nmeta with 59 in *. lia. Qed.

(** The indirect block is there after [get_addr NDIRECT]. *)
Lemma get_indirect m own i q n c :
  img_inv m own -> file_inv (mk_image m) own i q n (with_ind n) c -> NDIRECT <= n -> mk_freeblock m < 4294967294 ->
  exists q' m' own', get_addr NDIRECT q m = (q', m') /\ img_inv m' own' /\ mk_image m' = mk_image m /\
    file_inv (mk_image m') own' i q' n true c /\ same_fields q q' /\
    grew i (1 - Z.b2z (with_ind n)) m own m' own'.
Proof.
  intros Hi Hfi Hn Hb. unfold get_addr, with_ind in *. destruct (Z.ltb_spec NDIRECT n) as [Hlt|Hge].
  - destruct (fi_ind _ _ _ _ _ _ _ Hfi) as [Hind _]. rewrite (owned_nonzero _ _ _ _ Hi Hind).
    exists q, m, own. split_and!; [done|done|done|done|apply same_fields_refl|apply grew_refl].
  - assert (n = NDIRECT) as -> by lia. rewrite (fi_ind _ _ _ _ _ _ _ Hfi). cbn [Z.eqb].
    destruct (next_block_ok m own (i, -1) Hi ltac:(lia)) as (Eb & Ei & En & Hi1 & Hnone).
    exists (put_addr NDIRECT (mk_freeblock m) q), (next_block m).2, (claim (mk_freeblock m) (i, -1) own).
    split_and!; [done|done|done| |apply same_fields_put, same_fields_refl|by apply claim_grew].
    rewrite Ei. apply take_indirect; [done|done|lia].
Qed.

Lemma append_block_ok m own i q n c k :
  img_inv m own -> file_inv (mk_image m) own i q n (with_ind n) c -> (k = n - 1 \/ k = n) -> 0 <= k < MAXFILE ->
  let n' := Z.max n (k + 1) in
  mk_freeblock m + (cost n' - cost n) <= FSSIZE ->
  exists q' m' own', append_block k q m = Some (fblk (mk_image m') q' k, q', m') /\ img_inv m' own' /\
    file_inv (mk_image m') own' i q' n' (with_ind n') c /\ same_fields q q' /\ grew i (cost n' - cost n) m own m' own'.
Proof.
  intros Hi Hfi Hkn Hk n' Hb. assert (Hcm : cost n <= cost n') by (apply cost_mono; lia). unfold append_block. destruct (Z.ltb_spec k NDIRECT) as [Hd|Hd].
  - unfold get_addr. assert (Ew : with_ind n' = with_ind n) by (unfold with_ind; lia).
    destruct Hkn as [->| ->].
    + assert (En' : n' = n) by lia. pose proof (fi_own _ _ _ _ _ _ _ Hfi (n - 1) ltac:(lia)) as Ho.
      unfold fblk, file_block in Ho. rewrite (proj2 (Z.ltb_lt (n - 1) NDIRECT)) in Ho by lia.
      rewrite (owned_nonzero _ _ _ _ Hi Ho). exists q, m, own. rewrite En'.
      split_and!; [|done|done|apply same_fields_refl|rewrite Z.sub_diag; apply grew_refl].
      unfold fblk, file_block. by rewrite (proj2 (Z.ltb_lt (n - 1) NDIRECT)) by lia.
    + assert (En' : n' = n + 1) by lia. rewrite (fi_direct _ _ _ _ _ _ _ Hfi n) by lia. cbn [Z.eqb].
      destruct (next_block_ok m own (i, n) Hi ltac:(lia)) as (Eb & Ei & En & Hi1 & Hnone).
      exists (put_addr n (mk_freeblock m) q), (next_block m).2, (claim (mk_freeblock m) (i, n) own).
      split_and!; [|done| |apply same_fields_put, same_fields_refl|].
      * unfold fblk, file_block. by rewrite (proj2 (Z.ltb_lt n NDIRECT)) by lia.
      * rewrite Ew, En', Ei. apply take_direct; [done|done|lia|lia].
      * unfold cost. rewrite Ew, En'. replace (n + 1 + _ - _) with 1 by lia. by apply claim_grew.
  - destruct (get_indirect m own i q n c Hi Hfi ltac:(lia) ltac:(lia)) as (q1 & m1 & own1 & -> & Hi1 & Ei1 & Hf1 & Hs1 & Hg1).
    assert (Ew : with_ind n' = true) by (unfold with_ind; lia).
    assert (Erd : forall im, get32 (im (lget (iaddrs q1) (Z.to_nat NDIRECT))) (entry_off k) = fblk im q1 k).
    { intros im. unfold fblk, file_block. by rewrite (proj2 (Z.ltb_ge k NDIRECT)) by lia. }
    assert (Hfr : mk_freeblock m1 <= FSSIZE).
    { rewrite (gr_block _ _ _ _ _ _ Hg1). unfold cost in Hb. rewrite Ew in Hb. simpl Z.b2z in Hb at 1. lia. }
    rewrite (rsect_owned _ _ _ _ Hi1 Hfr (proj1 (fi_ind _ _ _ _ _ _ _ Hf1))). cbn [mbind option_bind].
    fold (entry_off k). rewrite Erd. destruct Hkn as [->| ->].
    + assert (En' : n' = n) by lia. pose proof (fi_own _ _ _ _ _ _ _ Hf1 (n - 1) ltac:(lia)) as Ho.
      rewrite (owned_nonzero _ _ _ _ Hi1 Ho). exists q1, m1, own1. split_and!; [done|done|by rewrite Ew, En'|done|].
      unfold cost. rewrite En'. rewrite En' in Ew. rewrite Ew in *. rewrite Z.sub_diag. exact Hg1.
    + assert (En' : n' = n + 1) by lia. destruct (fi_ind _ _ _ _ _ _ _ Hf1) as [_ Hz]. rewrite (Hz n) by lia. cbn [Z.eqb].
      assert (Hb1 : mk_freeblock m1 < 4294967295) by (rewrite (gr_block _ _ _ _ _ _ Hg1); destruct (with_ind n); simpl; lia).
      destruct (take_entry m1 own1 i q1 n c Hi1 Hf1 ltac:(lia) Hb1) as (Hf2 & Hi2 & Hg2 & Efn).
      rewrite <- Erd in Efn. cbn [next_block] in *. eexists q1, _, (claim (mk_freeblock m1) (i, n) own1).
      split_and!; [|exact Hi2|rewrite Ew, En'; exact Hf2|done|].
      * f_equal. f_equal. f_equal. rewrite <- Erd. unfold entry_off at 3. simpl mk_image at 2. by rewrite Z.eqb_refl.
      * unfold cost. rewrite Ew, En'. replace (n + 1 + Z.b2z true - (n + Z.b2z (with_ind n))) with
          ((1 - Z.b2z (with_ind n)) + 1) by (simpl; lia). eapply grew_trans; [exact Hg1|exact Hg2].
Qed.

(** * Appending *)

(** Bytes written after the last byte of the file. *)
Lemma append_data m own i q n ind c d k :
  img_inv m own -> file_inv (mk_image m) own i q n ind c -> 0 <= k < n ->
  k = Z.of_nat (length c) / BSIZE -> Z.of_nat (length c) mod BSIZE + Z.of_nat (length d) <= BSIZE ->
  let x := fblk (mk_image m) q k in
  let m' := wsect x (splice (mk_image m x) (Z.to_nat (Z.of_nat (length c) mod BSIZE)) d) m in
  img_inv m' own /\ file_inv (mk_image m') own i q n ind (c ++ d) /\ grew i 0 m own m' own.
Proof.
  intros Hi Hfi Hk Ek Hd x m'. pose proof (fi_own _ _ _ _ _ _ _ Hfi k Hk) as Hox. fold x in Hox.
  pose proof (ii_range _ _ Hi _ _ Hox) as Hrx. set (L := Z.of_nat (length c)) in *.
  assert (EL : L = Z.of_nat (length c)) by done. pose proof (Z.mod_pos_bound L BSIZE ltac:(lia)) as HL. assert (Hlx : length (mk_image m x) = 512%nat) by apply (ii_len _ _ Hi).
  assert (Eim : forall b, b <> x -> mk_image m' b = mk_image m b).
  { intros b Hne. subst m'. simpl. by rewrite (proj2 (Z.eqb_neq b x) Hne). }
  assert (Ex : mk_image m' x = splice (mk_image m x) (Z.to_nat (L mod BSIZE)) d) by (subst m'; simpl; by rewrite Z.eqb_refl).
  assert (Hsp : (Z.to_nat (L mod BSIZE) + length d <= length (mk_image m x))%nat) by (rewrite Hlx; lia).
  destruct Hfi as [Ha Hc Ho Hdr Hind Hdt].
  assert (Ef : forall k', 0 <= k' < MAXFILE -> (NDIRECT <= k' -> ind = true) -> fblk (mk_image m') q k' = fblk (mk_image m) q k').
  { intros k' Hk' Hki. unfold fblk, file_block. destruct (Z.ltb_spec k' NDIRECT); [done|]. cbn [snd]. rewrite Eim; [done|].
    rewrite Hki in Hind by done. destruct Hind as [Hind _]. intros E. rewrite E, Hox in Hind. injection Hind as ?. lia. }
  assert (Efn : forall k', 0 <= k' < n -> fblk (mk_image m') q k' = fblk (mk_image m) q k').
  { intros k' Hk'. apply Ef; [lia|]. intros ?. apply Hc. lia. }
  split_and!.
  - destruct Hi as [R1 R2 R3 R4]. constructor; [done| | |done].
    + intros b. destruct (decide (b = x)) as [->|Hne]; [by rewrite Ex, length_splice|by rewrite Eim].
    + intros b Hb. change (mk_freeblock m') with (mk_freeblock m) in Hb. rewrite Eim by lia. by apply R3.
  - constructor; [done| | |done| |].
    + rewrite length_app. destruct Hc as (H1 & H2 & H3). split_and!; [lia|lia| |done]. Z.div_mod_to_equations. lia.
    + intros k' Hk'. rewrite Efn by done. by apply Ho.
    + destruct ind; [|done]. destruct Hind as [Hind Hz]. split; [done|]. intros k' Hk' Hk''. rewrite Ef by (lia || done). by apply Hz.
    + intros p Hp. assert (Hpk : 0 <= p / BSIZE < n) by (Z.div_mod_to_equations; lia).
      rewrite Efn by done. pose proof (Z.mod_pos_bound p BSIZE ltac:(lia)).
      assert (Happ : lget (c ++ d) (Z.to_nat p) = if decide (L <= p) then lget d (Z.to_nat (p - L)) else lget c (Z.to_nat p)).
      { unfold lget. case_decide; [rewrite app_nth2 by lia; f_equal; lia|by rewrite app_nth1 by lia]. }
      assert (Hz : L + Z.of_nat (length d) <= p -> lget d (Z.to_nat (p - L)) = 0 /\ lget c (Z.to_nat p) = 0).
      { intros ?. split; apply lget_beyond; lia. }
      rewrite Happ. destruct (decide (p / BSIZE = k)) as [Epk|Epk].
      * pose proof (Hdt p Hp) as Hold. rewrite Epk in *. fold x in Hold |- *. rewrite Ex, lget_splice by done.
        destruct (decide (L <= p)) as [HLp|HLp], (decide (_ <= _ < _)%nat) as [Hin|Hin]; [| |exfalso|exact Hold].
        -- f_equal. Z.div_mod_to_equations. lia.
        -- rewrite Hold. destruct Hz as [-> ->]; [Z.div_mod_to_equations; lia|done].
        -- Z.div_mod_to_equations. lia.
      * rewrite Eim.
        -- rewrite Hdt by lia. case_decide; [|done]. destruct Hz as [-> ->]; [Z.div_mod_to_equations; lia|done].
        -- intros E. pose proof (Ho _ Hpk) as Hop. rewrite E, Hox in Hop. injection Hop as ?. lia.
  - constructor; [done|simpl; lia| |].
    + intros b Hb. apply Eim. lia.
    + intros b j k' Hb. split; [done|]. intros Hj. apply Eim. intros ->. rewrite Hox in Hb. congruence.
Qed.

(** The blocks of a file of [L] bytes. *)
Definition nblk (L : Z) : Z := (L + BSIZE - 1) / BSIZE.

Lemma iappend_loop_ok fuel : forall m own i q c p,
  img_inv m own -> file_inv (mk_image m) own i q (nblk (Z.of_nat (length c))) (with_ind (nblk (Z.of_nat (length c)))) c ->
  (length p <= fuel)%nat -> Z.of_nat (length (c ++ p)) <= MAXFILE * BSIZE ->
  mk_freeblock m + cost (nblk (Z.of_nat (length (c ++ p)))) - cost (nblk (Z.of_nat (length c))) <= FSSIZE ->
  let L := Z.of_nat (length (c ++ p)) in
  exists q' m' own', iappend_loop fuel (Z.of_nat (length c)) p q m = Some (L, q', m') /\
    img_inv m' own' /\ file_inv (mk_image m') own' i q' (nblk L) (with_ind (nblk L)) (c ++ p) /\ same_fields q q' /\
    grew i (cost (nblk L) - cost (nblk (Z.of_nat (length c)))) m own m' own'.
Proof.
  induction fuel as [|fuel IH]; intros m own i q c p Hi Hfi Hp Hmax Hb L.
  { destruct p; [|simpl in Hp; lia]. exists q, m, own. subst L. rewrite app_nil_r, Z.sub_diag.
    split_and!; [done|done|done|apply same_fields_refl|apply grew_refl]. }
  destruct p as [|b0 p0].
  { exists q, m, own. subst L. rewrite app_nil_r, Z.sub_diag. split_and!; [done|done|done|apply same_fields_refl|apply grew_refl]. }
  set (p := b0 :: p0) in *. fold L in Hb, Hmax. assert (Hp0 : (0 < length p)%nat) by (simpl; lia).
  set (Lc := Z.of_nat (length c)) in *. assert (EL : L = Lc + Z.of_nat (length p)) by (subst L Lc; rewrite length_app; lia).
  set (k := Lc / BSIZE). set (n := nblk Lc) in *. set (n1 := Z.min (Z.of_nat (length p)) ((k + 1) * BSIZE - Lc)).
  assert (Hk : 0 <= k < MAXFILE) by (subst k; Z.div_mod_to_equations; lia).
  assert (Hkn : k = n - 1 \/ k = n) by (subst k n; unfold nblk; Z.div_mod_to_equations; lia).
  assert (Hn1 : 0 < n1 /\ n1 <= Z.of_nat (length p) /\ Lc mod BSIZE + n1 <= BSIZE) by (subst n1 k; Z.div_mod_to_equations; lia).
  set (d := take (Z.to_nat n1) p). assert (Hd : Z.of_nat (length d) = n1) by (subst d; rewrite length_take; lia).
  assert (Ecd : nblk (Z.of_nat (length (c ++ d))) = Z.max n (k + 1)).
  { rewrite length_app, Nat2Z.inj_add, Hd. fold Lc. subst n k n1. unfold nblk. Z.div_mod_to_equations. lia. }
  assert (Epd : (c ++ d) ++ drop (Z.to_nat n1) p = c ++ p) by (subst d; by rewrite <- app_assoc, take_drop).
  assert (Hcost : cost (Z.max n (k + 1)) <= cost (nblk L)).
  { rewrite <- Ecd. apply cost_mono. rewrite length_app, Nat2Z.inj_add, Hd. fold Lc. unfold nblk. apply Z.div_le_mono; lia. }
  assert (Hc0 : cost n <= cost (Z.max n (k + 1))) by (apply cost_mono; lia).
  destruct (append_block_ok m own i q n c k Hi Hfi Hkn Hk ltac:(lia)) as (q1 & m1 & own1 & Eap & Hi1 & Hf1 & Hs1 & Hg1).
  destruct (append_data m1 own1 i q1 _ _ c d k Hi1 Hf1 ltac:(lia) eq_refl ltac:(fold Lc; lia)) as (Hi2 & Hf2 & Hg2).
  rewrite <- Ecd in Hf2, Hg1. fold Lc in Hi2, Hf2, Hg2.
  match type of Hi2 with img_inv ?M _ => set (m2 := M) in * end.
  assert (Hfr : mk_freeblock m1 <= FSSIZE) by (rewrite (gr_block _ _ _ _ _ _ Hg1), Ecd; lia).
  assert (Hloop : iappend_loop (S fuel) Lc p q m = iappend_loop fuel (Lc + n1) (drop (Z.to_nat n1) p) q1 m2).
  { change (iappend_loop (S fuel) Lc p q m) with
      (if negb (k <? MAXFILE) then None else '(x, q, m) ← append_block k q m; buf ← rsect x m;
       iappend_loop fuel (Lc + n1) (drop (Z.to_nat n1) p) q (wsect x (splice buf (Z.to_nat (Lc - k * BSIZE)) d) m)).
    rewrite (proj2 (Z.ltb_lt _ _)) by lia. cbn [negb]. rewrite Eap. cbn [mbind option_bind].
    rewrite (rsect_owned m1 own1 _ _ Hi1 Hfr (fi_own _ _ _ _ _ _ _ Hf1 k ltac:(lia))). cbn [mbind option_bind]. subst m2.
    replace (Lc - k * BSIZE) with (Lc mod BSIZE) by (subst k; Z.div_mod_to_equations; lia). done. }
  rewrite Hloop. assert (Elc : Lc + n1 = Z.of_nat (length (c ++ d))) by (rewrite length_app; lia). rewrite Elc.
  pose proof (grew_trans _ _ _ _ _ _ _ _ _ Hg1 Hg2) as Hg. rewrite Z.add_0_r in Hg.
  destruct (IH m2 own1 i q1 (c ++ d) (drop (Z.to_nat n1) p) Hi2 Hf2) as (q' & m' & own' & -> & Hi' & Hf' & Hs' & Hg').
  - rewrite length_drop. lia.
  - rewrite Epd. lia.
  - rewrite Epd. fold L. rewrite (gr_block _ _ _ _ _ _ Hg). lia.
  - rewrite Epd in *. fold L in Hf', Hg' |- *. exists q', m', own'. split_and!; [done|done|done|by eapply same_fields_trans|].
    pose proof (grew_trans _ _ _ _ _ _ _ _ _ Hg Hg') as Hgg.
    by replace (cost (nblk L) - cost n) with (cost (nblk (Z.of_nat (length (c ++ d)))) - cost n + (cost (nblk L) - cost (nblk (Z.of_nat (length (c ++ d)))))) by lia.
Qed.
