(* ===== verification/MkfsFiles.v ===== *)
(** The inodes of the image that mkfs makes, and all its files together. *)

From S2P Require Import Prelude Params Mem State Spinlock Console Kalloc Vm VmTables VmSpace VmAlloc.
From S2P Require Import VmCopy Proc ProcSpec Ide Bio BioRing BioSpec BioProps Log LogSpec LogOps LogCrash.
From S2P Require Import Umem Fs FsSpec FsAlloc Mkfs MkfsSpec.

(** * Inodes *)

(** An inode of the image, and the image with another one. *)
Definition inode_in (n : Z) (m : mkfs_t) : inode_t :=
  dinode_decode (mk_image m (IBLOCK n mkfs_sb)) (dinode_off n) zero_inode.
Definition with_inode (n : Z) (q : inode_t) (m : mkfs_t) : mkfs_t :=
  let bn := IBLOCK n mkfs_sb in
  wsect bn (dinode_encode q (mk_image m bn) (dinode_off n)) m.

Lemma iblock_range n : 0 <= n < 208 -> 32 <= IBLOCK n mkfs_sb < 58 /\ (dinode_off n + 64 <= 512)%nat.
Proof.
  intros Hn. unfold IBLOCK, dinode_off. change (sb_inodestart mkfs_sb) with 32. change sizeof_dinode with 64.
  unfold u32. rewrite Z.mod_small by (Z.div_mod_to_equations; lia). Z.div_mod_to_equations. lia.
Qed.

Lemma rinode_eq n m : 0 <= n < 208 -> rinode n m = Some (inode_in n m).
Proof.
  intros Hn. destruct (iblock_range n Hn) as [Hb _]. unfold rinode, rsect. by rewrite (proj2 (Z.ltb_lt _ _)) by lia.
Qed.

Lemma winode_eq n q m : 0 <= n < 208 -> winode n q m = Some (with_inode n q m).
Proof.
  intros Hn. destruct (iblock_range n Hn) as [Hb _]. unfold winode, rsect. by rewrite (proj2 (Z.ltb_lt _ _)) by lia.
Qed.

Lemma iblock_apart n n' : 0 <= n < 208 -> 0 <= n' < 208 -> n <> n' ->
  IBLOCK n mkfs_sb <> IBLOCK n' mkfs_sb \/
  (dinode_off n + 64 <= dinode_off n')%nat \/ (dinode_off n' + 64 <= dinode_off n)%nat.
Proof.
  intros Hn Hn' Hne. unfold IBLOCK, dinode_off. change (sb_inodestart mkfs_sb) with 32. change sizeof_dinode with 64.
  unfold u32. rewrite !Z.mod_small by (Z.div_mod_to_equations; lia). Z.div_mod_to_equations. lia.
Qed.

(** What is written is read back. *)
Definition on_disk (q : inode_t) : Prop := idev q = 0 /\ inum q = 0 /\ iref q = 0 /\ iflags q = 0.

Lemma inode_in_with n q m :
  0 <= n < 208 -> length (mk_image m (IBLOCK n mkfs_sb)) = 512%nat -> inode_ok q -> on_disk q ->
  inode_in n (with_inode n q m) = q.
Proof.
  intros Hn Hl Hq (H1 & H2 & H3 & H4). destruct (iblock_range n Hn) as [_ Ho]. unfold inode_in, with_inode, wsect.
  cbn [mk_image]. rewrite Z.eqb_refl.
  destruct (dinode_codec q zero_inode (mk_image m (IBLOCK n mkfs_sb)) (dinode_off n) Hq) as [-> _].
  - change (Z.to_nat sizeof_dinode) with 64%nat. lia.
  - simpl. destruct q; simpl in *. congruence.
Qed.

Lemma inode_in_with_ne n n' q m :
  0 <= n < 208 -> 0 <= n' < 208 -> n <> n' -> length (mk_image m (IBLOCK n mkfs_sb)) = 512%nat -> inode_ok q ->
  inode_in n' (with_inode n q m) = inode_in n' m.
Proof.
  intros Hn Hn' Hne Hl Hq. destruct (iblock_range n Hn) as [_ Ho]. unfold inode_in, with_inode, wsect. cbn [mk_image].
  destruct (Z.eqb_spec (IBLOCK n' mkfs_sb) (IBLOCK n mkfs_sb)) as [E|]; [|done]. rewrite E.
  destruct (dinode_codec q zero_inode (mk_image m (IBLOCK n mkfs_sb)) (dinode_off n) Hq) as [_ ->]; [|done|].
  - change (Z.to_nat sizeof_dinode) with 64%nat. lia.
  - change (Z.to_nat sizeof_dinode) with 64%nat. destruct (iblock_apart n n' Hn Hn' Hne) as [?|?]; [congruence|lia].
Qed.

Lemma inode_in_same n m m' :
  0 <= n < 208 -> (forall b, b < nmeta -> mk_image m' b = mk_image m b) -> inode_in n m' = inode_in n m.
Proof.
  intros Hn Hb. unfold inode_in. rewrite Hb; [done|]. destruct (iblock_range n Hn). change nmeta with 59. lia.
Qed.

Lemma get32_u32 d o : u32 (get32 d o) = get32 d o.
Proof. unfold get32, u32, u8. Z.div_mod_to_equations. lia. Qed.

Lemma s16_s16 x : s16 (s16 x) = s16 x.
Proof. unfold s16. Z.div_mod_to_equations. lia. Qed.

Lemma inode_in_ok n m : inode_ok (inode_in n m) /\ on_disk (inode_in n m).
Proof.
  split; [|done]. constructor; cbn [inode_in dinode_decode itype imajor iminor inlink isize iaddrs]; try apply s16_s16.
  - apply get32_u32.
  - split; [done|]. unfold dinode_addrs. apply Forall_fmap, Forall_forall. intros k _. apply get32_u32.
Qed.

(** * All files *)

(** The type and the contents of each inode, from number 1 on. *)
Abbreviation files_t := (list (Z * list Z)) (only parsing).

Definition len (c : list Z) : Z := Z.of_nat (length c).

Fixpoint fs_cost (fs : files_t) : Z :=
  match fs with
  | [] => 0
  | f :: fs' => cost (nblk (len f.2)) + fs_cost fs'
  end.

Definition file_in (m : mkfs_t) (own : owners) (i : Z) (ty : Z) (c : list Z) : Prop :=
  let q := inode_in i m in
  itype q = ty /\ inlink q = 1 /\ isize q = len c /\
  file_inv (mk_image m) own i q (nblk (len c)) (with_ind (nblk (len c))) c.

Record fs_inv (m : mkfs_t) (own : owners) (fs : files_t) : Prop := {
  fv_img : img_inv m own;
  fv_count : (length fs <= 200)%nat /\ mk_freeinode m = Z.of_nat (length fs) + 1;
  fv_files : forall j ty c, fs !! j = Some (ty, c) -> file_in m own (Z.of_nat j + 1) ty c;
  fv_blocks : mk_freeblock m = nmeta + fs_cost fs;
  fv_sb : mk_image m 1 = sb_encode mkfs_sb
}.

(** What the image can hold. *)
Definition fits (fs : files_t) : Prop :=
  Forall (fun f => len f.2 <= MAXFILE * BSIZE) fs /\ nmeta + fs_cost fs <= FSSIZE /\ (length fs <= 200)%nat.

Lemma nblk_mono a b : a <= b -> nblk a <= nblk b.
Proof. intros H. unfold nblk. apply Z.div_le_mono; lia. Qed.

Lemma cost_nonneg c : 0 <= cost (nblk (len c)).
Proof. change 0 with (cost (nblk 0)). apply cost_mono, nblk_mono. unfold len. lia. Qed.

Lemma fs_cost_app a b : fs_cost (a ++ b) = fs_cost a + fs_cost b.
Proof. induction a as [|f a IH]; simpl; [done|]. lia. Qed.

Lemma fs_cost_nonneg fs : 0 <= fs_cost fs.
Proof. induction fs as [|f fs IH]; simpl; [done|]. pose proof (cost_nonneg f.2). lia. Qed.

Lemma fs_cost_insert fs : forall j ty c ty' c', fs !! j = Some (ty, c) ->
  fs_cost (<[j := (ty', c')]> fs) = fs_cost fs - cost (nblk (len c)) + cost (nblk (len c')).
Proof.
  induction fs as [|f fs IH]; intros [|j] ty c ty' c' Hj; [done|done| |].
  - injection Hj as ->. cbn [fs_cost insert list_insert snd]. lia.
  - change (<[S j := (ty', c')]> (f :: fs)) with (f :: <[j := (ty', c')]> fs). cbn [fs_cost].
    rewrite (IH j ty c ty' c' Hj). lia.
Qed.

Lemma fits_smaller fs j ty c1 c2 :
  fits (<[j := (ty, c2)]> fs) -> is_Some (fs !! j) -> len c1 <= len c2 -> fits (<[j := (ty, c1)]> fs).
Proof.
  intros (H1 & H2 & H3) [[ty0 c0] Hj] Hle. rewrite length_insert in H3.
  assert (Hl : (j < length fs)%nat) by (by eapply lookup_lt_Some).
  assert (E : <[j := (ty, c1)]> fs = <[j := (ty, c1)]> (<[j := (ty, c2)]> fs)) by (by rewrite list_insert_insert_eq).
  assert (Hc2 : len c2 <= MAXFILE * BSIZE).
  { apply (proj1 (Forall_lookup _ _) H1 j (ty, c2)). by apply list_lookup_insert_eq. }
  split_and!.
  - rewrite E. apply Forall_insert; [done|]. simpl. lia.
  - rewrite (fs_cost_insert fs j ty0 c0 ty c1 Hj). rewrite (fs_cost_insert fs j ty0 c0 ty c2 Hj) in H2.
    pose proof (cost_mono _ _ (nblk_mono _ _ Hle)). lia.
  - by rewrite length_insert.
Qed.

Lemma fits_prefix a b : fits (a ++ b) -> fits a.
Proof.
  intros (H1 & H2 & H3). apply Forall_app in H1 as [H1 _]. rewrite fs_cost_app in H2. rewrite length_app in H3.
  pose proof (fs_cost_nonneg b). split_and!; [done|lia|lia].
Qed.

(** Changing one inode leaves the other files as they are. *)
Lemma file_in_other m own m1 own1 i i' q ty c a :
  img_inv m1 own1 -> grew i a m own m1 own1 -> 0 <= i < 208 -> 0 <= i' < 208 -> i <> i' -> inode_ok q ->
  img_inv m own -> file_in m own i' ty c -> file_in (with_inode i q m1) own1 i' ty c.
Proof.
  intros Hi1 Hg Hi Hi' Hne Hq Hio (H1 & H2 & H3 & H4).
  assert (Er : inode_in i' (with_inode i q m1) = inode_in i' m).
  { rewrite inode_in_with_ne; [|done|done|done|apply (ii_len _ _ Hi1)|done]. apply inode_in_same; [done|apply (gr_meta _ _ _ _ _ _ Hg)]. }
  unfold file_in. rewrite Er. split_and!; [done|done|done|]. eapply file_inv_frame; [|exact H4].
  intros b k Hb. destruct (gr_own _ _ _ _ _ _ Hg b i' k Hb) as [Ho Hm]. split; [|done].
  pose proof (ii_range _ _ Hio _ _ Hb) as Hr. destruct (iblock_range i Hi) as [Hib _]. unfold with_inode, wsect. cbn [mk_image].
  change nmeta with 59 in Hr. rewrite (proj2 (Z.eqb_neq _ _)) by lia. apply Hm. congruence.
Qed.

(** Writing an inode changes no block of a file. *)
Lemma with_inode_inv m own i q : 0 <= i < 208 -> img_inv m own -> img_inv (with_inode i q m) own.
Proof.
  intros Hi [R1 R2 R3 R4]. destruct (iblock_range i Hi) as [Hib _]. change nmeta with 59 in *.
  constructor; [done| | |done]; intros b; unfold with_inode, wsect; cbn [mk_image mk_freeblock].
  - destruct (b =? IBLOCK i mkfs_sb); [rewrite length_encode; apply R2|apply R2].
  - intros Hb. rewrite (proj2 (Z.eqb_neq _ _)) by lia. by apply R3.
Qed.

Lemma with_inode_first i q m : 0 <= i < 208 -> mk_image (with_inode i q m) 1 = mk_image m 1.
Proof.
  intros Hi. destruct (iblock_range i Hi) as [Hib _]. unfold with_inode, wsect. cbn [mk_image].
  by rewrite (proj2 (Z.eqb_neq _ _)) by lia.
Qed.

Lemma with_inode_file_inv m own i j q q' n ind c :
  0 <= i < 208 -> img_inv m own -> file_inv (mk_image m) own j q n ind c -> iaddrs q' = iaddrs q -> idev q' = idev q ->
  file_inv (mk_image (with_inode i q m)) own j q n ind c /\ file_inv (mk_image (with_inode i q' m)) own j q' n ind c.
Proof.
  intros Hi Him Hf Ea Ed. destruct (iblock_range i Hi) as [Hib _].
  assert (Hfr : forall x, file_inv (mk_image (with_inode i x m)) own j q n ind c).
  { intros x. eapply file_inv_frame; [|exact Hf]. intros b k Hb. split; [|done]. pose proof (ii_range _ _ Him _ _ Hb).
    change nmeta with 59 in *. unfold with_inode, wsect. cbn [mk_image]. by rewrite (proj2 (Z.eqb_neq _ _)) by lia. }
  split; [apply Hfr|]. destruct (Hfr q') as [F1 F2 F3 F4 F5 F6].
  assert (Eb : forall im k, fblk im q' k = fblk im q k) by (intros im k; unfold fblk, file_block; by rewrite Ea, Ed).
  constructor; [by rewrite Ea|done| |by rewrite Ea| |].
  - intros k Hk. rewrite Eb. by apply F3.
  - rewrite Ea. destruct ind; [|done]. destruct F5 as [F5 F5']. split; [done|]. intros k Hk Hk'. rewrite Eb. by apply F5'.
  - intros p Hp. rewrite Eb. by apply F6.
Qed.

(** * The operations of mkfs *)

Lemma iappend_ok m own fs j ty c p :
  fs_inv m own fs -> fs !! j = Some (ty, c) -> fits (<[j := (ty, c ++ p)]> fs) ->
  exists m' own', iappend (Z.of_nat j + 1) p m = Some m' /\ fs_inv m' own' (<[j := (ty, c ++ p)]> fs).
Proof.
  intros [Him [Hc Hfi] Hfs Hbl Hsb] Hj (Hf1 & Hf2 & _). pose proof (lookup_lt_Some _ _ _ Hj) as Hlt.
  set (i := Z.of_nat j + 1). assert (Hi : 0 <= i < 208) by (subst i; lia).
  destruct (Hfs j ty c Hj) as (H1 & H2 & H3 & H4). fold i in H1, H2, H3, H4.
  rewrite (fs_cost_insert fs j ty c ty (c ++ p) Hj) in Hf2.
  assert (Hsz : len (c ++ p) <= MAXFILE * BSIZE).
  { apply (proj1 (Forall_lookup _ _) Hf1 j (ty, c ++ p)). by apply list_lookup_insert_eq. }
  unfold iappend. rewrite rinode_eq by done. cbn [mbind option_bind]. rewrite H3. unfold len at 1.
  destruct (iappend_loop_ok (length p) m own i (inode_in i m) c p Him H4 ltac:(lia) Hsz) as (q & m1 & own1 & -> & Hi1 & Hf & Hs & Hg).
  { unfold len in *. lia. }
  fold (len (c ++ p)) in *. fold (len c) in Hg. cbn [mbind option_bind].
  set (q' := put_isize (len (c ++ p)) q). destruct (inode_in_ok i m) as [[K1 K2 K3 K4 K5 K6] K7].
  pose proof (fi_addrs _ _ _ _ _ _ _ Hf) as Hadd. destruct Hs as [ad ->]. cbn [iaddrs] in Hadd.
  assert (Hq' : inode_ok q').
  { constructor; cbn [q' put_isize itype imajor iminor inlink isize iaddrs]; try done. unfold u32. apply Z.mod_small.
    unfold len in *. lia. }
  assert (Er : inode_in i (with_inode i q' m1) = q') by (apply inode_in_with; [done|apply (ii_len _ _ Hi1)|done|done]).
  exists (with_inode i q' m1), own1. split; [by apply winode_eq|]. constructor.
  - by apply with_inode_inv.
  - rewrite length_insert. split; [done|]. cbn [with_inode wsect mk_freeinode]. by rewrite (gr_inode _ _ _ _ _ _ Hg).
  - intros j' ty' c' Hj'. destruct (decide (j' = j)) as [->|Hne].
    + rewrite list_lookup_insert_eq in Hj' by done. injection Hj' as <- <-. unfold file_in. fold i. rewrite Er.
      split_and!; [done|done|done|]. by eapply with_inode_file_inv.
    + rewrite list_lookup_insert_ne in Hj' by done. pose proof (lookup_lt_Some _ _ _ Hj').
      eapply file_in_other; [done|exact Hg|done|lia|lia|done|done|by apply Hfs].
  - cbn [with_inode wsect mk_freeblock]. rewrite (gr_block _ _ _ _ _ _ Hg), Hbl, (fs_cost_insert fs j ty c ty (c ++ p) Hj). lia.
  - by rewrite with_inode_first, (gr_meta _ _ _ _ _ _ Hg).
Qed.

Lemma ialloc_ok m own fs ty :
  fs_inv m own fs -> (length fs < 200)%nat -> s16 ty = ty ->
  exists m', mkfs_ialloc ty m = Some (Z.of_nat (length fs) + 1, m') /\ fs_inv m' own (fs ++ [(ty, [])]).
Proof.
  intros [Him [Hc Hfi] Hfs Hbl Hsb] Hlen Hty. unfold mkfs_ialloc, next_inode. rewrite Hfi.
  set (i := Z.of_nat (length fs) + 1). assert (Hi : 0 <= i < 208) by (subst i; lia).
  set (m1 := mkMkfs _ _ _). set (q := mkInode _ _ _ _ _ _ _ _ _ _).
  assert (Hq : inode_ok q) by (constructor; try done; split; [done|by apply Forall_replicate]).
  assert (Him1 : img_inv m1 own) by (destruct Him; by constructor).
  exists (with_inode i q m1). split; [by rewrite winode_eq|]. constructor.
  - by apply with_inode_inv.
  - rewrite length_app. cbn [length with_inode wsect mk_freeinode m1]. split; [lia|]. unfold u32. rewrite Z.mod_small; lia.
  - intros j ty' c' [Hj|[Hge Hj]]%lookup_app_Some.
    + pose proof (lookup_lt_Some _ _ _ Hj). eapply (file_in_other m1 own m1 own i _ q _ _ 0); [done|apply grew_refl|done|lia|lia|done|done|exact (Hfs _ _ _ Hj)].
    + apply list_lookup_singleton_Some in Hj as [Ej [= <- <-]]. assert (j = length fs) as -> by lia. fold i.
      unfold file_in. rewrite inode_in_with; [|done|apply (ii_len _ _ Him1)|done|done]. split_and!; [done|done|done|].
      constructor; [split; [done|by apply Forall_replicate]|by split_and!| | | |].
      * intros k Hk. change (nblk (len [])) with 0 in Hk. lia.
      * intros k Hk. cbn [q iaddrs]. unfold lget. rewrite nth_lookup. destruct (replicate 13 0 !! Z.to_nat k) eqn:E; [|done]. by apply lookup_replicate in E as [-> _].
      * done.
      * intros p Hp. change (nblk (len [])) with 0 in Hp. lia.
  - rewrite fs_cost_app. cbn [with_inode wsect mk_freeblock m1 fs_cost snd]. rewrite Hbl. change (cost (nblk (len []))) with 0. lia.
  - by rewrite with_inode_first.
Qed.

Lemma append_all_ok pieces : forall m own fs j ty c,
  fs_inv m own fs -> fs !! j = Some (ty, c) -> fits (<[j := (ty, c ++ concat pieces)]> fs) ->
  exists m' own', append_all (Z.of_nat j + 1) pieces m = Some m' /\ fs_inv m' own' (<[j := (ty, c ++ concat pieces)]> fs).
Proof.
  induction pieces as [|p pieces IH]; intros m own fs j ty c Hinv Hj Hfit; cbn [append_all concat].
  - exists m, own. split; [done|]. by rewrite app_nil_r, list_insert_id.
  - cbn [concat] in Hfit. assert (Hlt : (j < length fs)%nat) by (by eapply lookup_lt_Some).
    destruct (iappend_ok m own fs j ty c p Hinv Hj) as (m1 & own1 & -> & Hinv1).
    { eapply fits_smaller; [exact Hfit|done|]. unfold len. rewrite !length_app. lia. }
    cbn [mbind option_bind]. rewrite app_assoc in *.
    destruct (IH m1 own1 (<[j := (ty, c ++ p)]> fs) j ty (c ++ p)) as (m2 & own2 & E & Hinv2); [done|by apply list_lookup_insert_eq| |].
    + by rewrite list_insert_insert_eq.
    + exists m2, own2. rewrite list_insert_insert_eq in Hinv2. done.
Qed.

(** The entry of the root directory for the file that gets inode [n]. *)
Definition entry_of (n : Z) (f : list Z * list (list Z)) : list Z := dirent n (image_name f.1).

Lemma length_dirent n name : length (dirent n name) = 16%nat.
Proof.
  unfold dirent. rewrite length_put16, length_app, length_take, length_app, !length_replicate.
  change (Z.to_nat DIRSIZ) with 14%nat. lia.
Qed.

(** The last element of a list with a first one. *)
Lemma lookup_last {A} (x y : A) l : (x :: l ++ [y]) !! S (length l) = Some y.
Proof. change ((l ++ [y]) !! length l = Some y). by rewrite list_lookup_middle. Qed.

Lemma insert_last {A} (x y z : A) l : <[S (length l) := z]> (x :: l ++ [y]) = x :: l ++ [z].
Proof.
  change (x :: <[length l := z]> (l ++ [y]) = x :: l ++ [z]). f_equal.
  rewrite insert_app_r_alt by lia. by rewrite Nat.sub_diag.
Qed.

Lemma add_file_ok m own root fs arg pieces :
  fs_inv m own ((T_DIR, root) :: fs) -> chr "/" ∉ arg ->
  let n := Z.of_nat (length fs) + 2 in
  let fs' := (T_DIR, root ++ dirent n (image_name arg)) :: fs ++ [(T_FILE, concat pieces)] in
  fits fs' -> exists m' own', add_file arg pieces m = Some m' /\ fs_inv m' own' fs'.
Proof.
  intros Hinv Harg n fs' Hfit. unfold add_file. rewrite bool_decide_eq_false_2 by done.
  assert (Hlen : (length ((T_DIR, root) :: fs) < 200)%nat).
  { destruct Hfit as (_ & _ & H). subst fs'. simpl in *. rewrite length_app in H. simpl in H. lia. }
  destruct (ialloc_ok m own _ T_FILE Hinv Hlen eq_refl) as (m1 & -> & Hinv1). cbn [app mbind option_bind] in Hinv1 |- *.
  replace (Z.of_nat (length ((T_DIR, root) :: fs)) + 1) with n by (subst n; simpl; lia).
  set (fs1 := (T_DIR, root) :: fs ++ [(T_FILE, [])]) in *. set (d := dirent n (image_name arg)) in *.
  assert (Hfit1 : fits ((T_DIR, root ++ d) :: fs ++ [(T_FILE, [])])).
  { rewrite <- (insert_last _ (T_FILE, concat pieces)). eapply (fits_smaller _ _ _ _ (concat pieces)).
    - by rewrite insert_last.
    - rewrite lookup_last. done.
    - unfold len. simpl. lia. }
  change ROOTINO with (Z.of_nat 0 + 1).
  destruct (iappend_ok m1 own fs1 0 T_DIR root d Hinv1 eq_refl Hfit1) as (m2 & own2 & -> & Hinv2).
  cbn [mbind option_bind]. replace n with (Z.of_nat (S (length fs)) + 1) by (subst n; lia).
  change (<[0%nat := (T_DIR, root ++ d)]> fs1) with ((T_DIR, root ++ d) :: fs ++ [(T_FILE, [])]) in Hinv2.
  destruct (append_all_ok pieces m2 own2 _ (S (length fs)) T_FILE [] Hinv2) as (m3 & own3 & -> & Hinv3).
  - apply lookup_last.
  - rewrite insert_last. exact Hfit.
  - rewrite insert_last in Hinv3. by exists m3, own3.
Qed.

Fixpoint entries (n : Z) (files : list (list Z * list (list Z))) : list Z :=
  match files with
  | [] => []
  | f :: files' => entry_of n f ++ entries (n + 1) files'
  end.

Definition as_file (f : list Z * list (list Z)) : Z * list Z := (T_FILE, concat f.2).

Lemma add_files_ok files : forall m own root fs,
  fs_inv m own ((T_DIR, root) :: fs) -> Forall (fun f => chr "/" ∉ f.1) files ->
  let fs' := (T_DIR, root ++ entries (Z.of_nat (length fs) + 2) files) :: fs ++ (as_file <$> files) in
  fits fs' -> exists m' own', add_files files m = Some m' /\ fs_inv m' own' fs'.
Proof.
  induction files as [|[arg pieces] files IH]; intros m own root fs Hinv Hn fs' Hfit; cbn [add_files].
  { exists m, own. subst fs'. cbn [entries fmap list_fmap]. by rewrite !app_nil_r. }
  apply Forall_cons in Hn as [Harg Hn]. subst fs'. cbn [entries fmap list_fmap] in *. unfold entry_of, as_file at 1 in Hfit.
  cbn [fst snd] in Hfit, Harg. set (n := Z.of_nat (length fs) + 2) in *. rewrite app_assoc, cons_middle, app_assoc in Hfit.
  destruct (add_file_ok m own root fs arg pieces Hinv Harg) as (m1 & own1 & -> & Hinv1).
  { fold n. rewrite app_comm_cons in Hfit. apply fits_prefix in Hfit.
    apply (fits_smaller ((T_DIR, root) :: fs ++ [(T_FILE, concat pieces)]) 0 T_DIR _ _ Hfit); [done|]. unfold len. rewrite !length_app. lia. }
  cbn [mbind option_bind]. fold n in Hinv1.
  destruct (IH m1 own1 _ _ Hinv1 Hn) as (m2 & own2 & -> & Hinv2).
  - rewrite length_app. cbn [length]. replace (Z.of_nat (length fs + 1) + 2) with (n + 1) by lia. exact Hfit.
  - exists m2, own2. split; [done|]. rewrite length_app in Hinv2. cbn [length] in Hinv2.
    replace (Z.of_nat (length fs + 1) + 2) with (n + 1) in Hinv2 by lia.
    unfold entry_of, as_file at 1. cbn [fst snd]. by rewrite app_assoc, cons_middle, app_assoc.
Qed.

(** The root directory and the files, as they should be in the image. *)
Definition root_entries (files : list (list Z * list (list Z))) : list Z :=
  dirent ROOTINO (str ".") ++ dirent ROOTINO (str "..") ++ entries 2 files.
Definition image_files (files : list (list Z * list (list Z))) : files_t :=
  (T_DIR, root_entries files) :: (as_file <$> files).

Lemma length_sb_encode sb : length (sb_encode sb) = Z.to_nat BSIZE.
Proof. unfold sb_encode. by rewrite !length_put32. Qed.

Lemma mkfs_init_ok :
  exists m own, mkfs_init = Some m /\ fs_inv m own [(T_DIR, dirent ROOTINO (str ".") ++ dirent ROOTINO (str ".."))].
Proof.
  unfold mkfs_init. set (m0 := wsect 1 _ _).
  assert (H0 : fs_inv m0 (fun _ => None) []).
  { constructor; [|split; [simpl; lia|done]|done|done|done]. constructor; [done| | |done].
    - intros b. subst m0. simpl. destruct (b =? 1); [apply length_sb_encode|done].
    - intros b Hb. subst m0. change (mk_freeblock _) with 59 in Hb. simpl. by rewrite (proj2 (Z.eqb_neq _ _)) by lia. }
  destruct (ialloc_ok m0 _ [] T_DIR H0 ltac:(simpl; lia) eq_refl) as (m1 & -> & H1).
  cbn [mbind option_bind]. change (Z.of_nat (length [])  + 1) with (Z.of_nat 0 + 1). change (negb (Z.of_nat 0 + 1 =? ROOTINO)) with false. cbn iota.
  assert (Hfit : forall c, len c <= 32 -> fits [(T_DIR, c)]).
  { intros c Hc. split_and!; [apply Forall_singleton; simpl; lia| |simpl; lia]. cbn [fs_cost snd].
    pose proof (cost_mono _ _ (nblk_mono _ _ Hc)) as Hm. change (cost (nblk 32)) with 1 in Hm. change nmeta with 59. lia. }
  assert (Hd : forall n name, len (dirent n name) = 16) by (intros; unfold len; by rewrite length_dirent).
  destruct (iappend_ok m1 _ _ 0 T_DIR [] (dirent (Z.of_nat 0 + 1) (str ".")) H1 eq_refl) as (m2 & own2 & -> & H2).
  { apply Hfit. cbn [app]. rewrite Hd. lia. }
  cbn [mbind option_bind].
  destruct (iappend_ok m2 own2 _ 0 T_DIR _ (dirent (Z.of_nat 0 + 1) (str "..")) H2 eq_refl) as (m3 & own3 & -> & H3).
  { apply Hfit. unfold len in *. rewrite length_app, Nat2Z.inj_add. simpl app. rewrite !Hd. lia. }
  exists m3, own3. split; [done|]. exact H3.
Qed.

(** The image before the size of the root directory is rounded and the bitmap is written. *)
Lemma mkfs_files_ok files :
  Forall (fun f => chr "/" ∉ f.1) files -> fits (image_files files) ->
  exists m own, (m0 ← mkfs_init; add_files files m0) = Some m /\ fs_inv m own (image_files files).
Proof.
  intros Hn Hfit. destruct mkfs_init_ok as (m0 & own0 & -> & H0). cbn [mbind option_bind].
  destruct (add_files_ok files m0 own0 _ [] H0 Hn) as (m & own & -> & H1).
  - cbn [length app]. rewrite <- app_assoc. exact Hfit.
  - exists m, own. split; [done|]. cbn [length app] in H1. rewrite <- app_assoc in H1. exact H1.
Qed.
