(* ===== verification/MkfsProps.v ===== *)
(** What the image of mkfs.c contains, and that the kernel reads it back. *)

From S2P Require Import Prelude Params Mem State Spinlock Console Kalloc Vm VmTables VmSpace VmAlloc.
From S2P Require Import VmCopy Proc ProcSpec Ide Bio BioRing BioSpec BioProps Log LogSpec LogOps LogCrash.
From S2P Require Import Umem Fs FsSpec FsAlloc Mkfs MkfsSpec MkfsFiles.

(** The blocks of the image, as the blocks of a device. *)
Definition blocks_of (m : mkfs_t) (kb : Z * Z) : list Z := mk_image m kb.2.

Lemma file_inv_bytes im own i q n ind c :
  file_inv im own i q n ind c -> file_bytes q (fun kb => im kb.2) 0 (len c) = c.
Proof.
  intros Hf. apply list_eq. intros j. unfold file_bytes. rewrite list_lookup_fmap.
  destruct (decide (j < length c)%nat) as [Hj|Hj].
  - rewrite lookup_seqZ_lt by (unfold len; lia). simpl. destruct (lookup_lt_is_Some_2 c j Hj) as [x Hx]. rewrite Hx. f_equal.
    change (lget (im (fblk im q (Z.of_nat j / BSIZE))) (Z.to_nat (Z.of_nat j mod BSIZE)) = x).
    rewrite (fi_data _ _ _ _ _ _ _ Hf) by (destruct (fi_count _ _ _ _ _ _ _ Hf) as (_ & ? & _); lia).
    rewrite Nat2Z.id. unfold lget. by rewrite (nth_lookup_Some _ _ _ _ Hx).
  - rewrite lookup_seqZ_ge by (unfold len; lia). symmetry. apply lookup_ge_None. lia.
Qed.

(** The bitmap. *)
Lemma used_bits_spec u b : 0 <= u <= 4096 -> 0 <= b < 4096 -> bit_of (used_bits u) b = (b <? u) /\ length (used_bits u) = 512%nat.
Proof.
  intros Hu Hb. assert (Hu0 : 0 <= u) by lia. unfold used_bits. revert Hu. pattern u. apply natlike_ind.
  - intros _. cbn [seqZ foldl]. split; [|done]. unfold bit_of. rewrite lget_zero, Z.testbit_0_l. symmetry. apply Z.ltb_ge. lia.
  - intros x Hx IH Hs. destruct IH as [IHb IHl]; [lia|]. rewrite <- Z.add_1_r, seqZ_app, foldl_app by lia.
    rewrite Z.add_0_l, (seqZ_cons x 1) by done. change (seqZ (Z.succ x) (Z.pred 1)) with (@nil Z). cbn [foldl].
    split.
    + rewrite bit_set_of by (rewrite ?IHl; Z.div_mod_to_equations; lia). rewrite IHb.
      case_bool_decide; destruct (Z.ltb_spec b x), (Z.ltb_spec b (x + 1)); try done; lia.
    + unfold bit_set. by rewrite length_insert.
  - exact Hu0.
Qed.

(** * The image *)

(** [fix_root] and [balloc] write the root inode and the bitmap. *)
Definition root_size (files : list (list Z * list (list Z))) : Z := (len (root_entries files) / BSIZE + 1) * BSIZE.

Lemma sb_roundtrip : sb_decode (sb_encode mkfs_sb) = mkfs_sb.
Proof. vm_compute. reflexivity. Qed.

(** The bitmap is not part of a file. *)
Lemma bitmap_file_in m own u i ty c :
  0 <= i < 208 -> img_inv m own -> file_in m own i ty c -> file_in (wsect (sb_bmapstart mkfs_sb) (used_bits u) m) own i ty c.
Proof.
  intros Hi Him (H1 & H2 & H3 & H4). change (sb_bmapstart mkfs_sb) with 58. set (m' := wsect 58 _ m).
  assert (Eim : forall b, b <> 58 -> mk_image m' b = mk_image m b).
  { intros b Hb. subst m'. simpl. by rewrite (proj2 (Z.eqb_neq _ _) Hb). }
  assert (Er : inode_in i m' = inode_in i m).
  { unfold inode_in. rewrite Eim; [done|]. destruct (iblock_range i Hi). lia. }
  unfold file_in. rewrite Er. split_and!; [done|done|done|]. eapply file_inv_frame; [|exact H4].
  intros b k Hb. split; [|done]. apply Eim. pose proof (ii_range _ _ Him _ _ Hb). change nmeta with 59 in *. lia.
Qed.

Definition root_in (m : mkfs_t) (own : owners) (files : list (list Z * list (list Z))) : Prop :=
  let q := inode_in ROOTINO m in
  let n := nblk (len (root_entries files)) in
  itype q = T_DIR /\ inlink q = 1 /\ isize q = root_size files /\
  file_inv (mk_image m) own ROOTINO q n (with_ind n) (root_entries files).

(** The image of [mkfs_main], from what is true before the last two steps. *)
Lemma mkfs_main_ok files :
  Forall (fun f => chr "/" ∉ f.1) files -> fits (image_files files) ->
  exists m own, mkfs_main files = Some m /\ img_inv m own /\ mk_image m 1 = sb_encode mkfs_sb /\
    mk_freeblock m = nmeta + fs_cost (image_files files) /\
    mk_image m (sb_bmapstart mkfs_sb) = used_bits (nmeta + fs_cost (image_files files)) /\
    (forall j f, files !! j = Some f -> file_in m own (Z.of_nat j + 2) T_FILE (concat f.2)) /\
    root_in m own files.
Proof.
  intros Hn Hfit. destruct (mkfs_files_ok files Hn Hfit) as (m & own & Hm & [Him [Hc Hfi] Hfs Hbl Hsb]).
  unfold mkfs_main. destruct mkfs_init as [m0|]; [|done]. cbn [mbind option_bind] in *. rewrite Hm. cbn [mbind option_bind].
  destruct Hfit as (Hf1 & Hf2 & Hf3). destruct (Hfs 0%nat _ _ eq_refl) as (R1 & R2 & R3 & R4).
  change (Z.of_nat 0 + 1) with ROOTINO in R1, R2, R3, R4. set (q := put_isize (root_size files) (inode_in ROOTINO m)).
  assert (Efix : fix_root m = Some (with_inode ROOTINO q m)).
  { unfold fix_root. rewrite rinode_eq by done. cbn [mbind option_bind]. rewrite winode_eq, R3 by done. done. }
  assert (Hrl : 0 <= len (root_entries files) <= MAXFILE * BSIZE).
  { split; [unfold len; lia|]. by apply Forall_cons in Hf1 as [H _]. }
  destruct (inode_in_ok ROOTINO m) as [[K1 K2 K3 K4 K5 K6] K7].
  assert (Hq : inode_ok q).
  { constructor; try done. unfold u32. apply Z.mod_small. cbn [q put_isize isize]. unfold root_size. Z.div_mod_to_equations. lia. }
  rewrite Efix. cbn [mbind option_bind]. set (m1 := with_inode ROOTINO q m). assert (Him1 : img_inv m1 own) by (by apply with_inode_inv).
  unfold mkfs_balloc. change (mk_freeblock m1) with (mk_freeblock m). rewrite Hbl.
  rewrite (proj2 (Z.ltb_lt _ _)) by lia. cbn [negb]. eexists _, own. split; [done|].
  assert (Er1 : inode_in ROOTINO m1 = q) by (apply inode_in_with; [done|apply (ii_len _ _ Him)|done|done]).
  split_and!.
  - destruct Him1 as [I1 I2 I3 I4]. constructor; [done| | |done]; intros b; cbn [wsect mk_image mk_freeblock].
    + destruct (b =? _); [|apply I2]. pose proof (fs_cost_nonneg (image_files files)). change nmeta with 59 in *. apply (used_bits_spec _ 0); lia.
    + change (sb_bmapstart mkfs_sb) with 58. change nmeta with 59 in *. intros Hb. rewrite (proj2 (Z.eqb_neq _ _)) by lia. by apply I3.
  - change (mk_image m1 1 = sb_encode mkfs_sb). subst m1. by rewrite with_inode_first.
  - exact Hbl.
  - cbn [wsect mk_image]. by rewrite Z.eqb_refl.
  - intros j f Hj. pose proof (lookup_lt_Some _ _ _ Hj). unfold image_files in Hf3. cbn [length] in Hf3. rewrite length_fmap in Hf3.
    apply bitmap_file_in; [lia|done|]. eapply (file_in_other m own m own ROOTINO); [done|apply grew_refl|done|lia|unfold ROOTINO; lia|done|done|].
    replace (Z.of_nat j + 2) with (Z.of_nat (S j) + 1) by lia. apply Hfs. cbn [image_files lookup list_lookup].
    change ((as_file <$> files) !! j = Some (as_file f)). by rewrite list_lookup_fmap, Hj.
  - assert (Eb : forall x, inode_in ROOTINO (wsect (sb_bmapstart mkfs_sb) x m1) = q) by (intros x; rewrite <- Er1; done).
    unfold root_in. rewrite Eb. split_and!; [done|done|done|]. destruct (with_inode_file_inv m own ROOTINO ROOTINO _ q _ _ _ ltac:(done) Him R4 eq_refl eq_refl) as [_ Hfq].
    eapply file_inv_frame; [|exact Hfq]. intros b k Hb. split; [|done]. pose proof (ii_range _ _ Him _ _ Hb).
    change nmeta with 59 in *. cbn [wsect mk_image]. change (sb_bmapstart mkfs_sb) with 58. by rewrite (proj2 (Z.eqb_neq _ _)) by lia.
Qed.

(** The inode of file [j] of [image_files], and its blocks. *)
Definition inode_at (m : mkfs_t) (j : nat) : inode_t := inode_in (Z.of_nat j + 1) m.

(** Every file of the image, the root directory included. *)
Lemma image_file_in m own files j ty c :
  (forall j f, files !! j = Some f -> file_in m own (Z.of_nat j + 2) T_FILE (concat f.2)) -> root_in m own files ->
  image_files files !! j = Some (ty, c) ->
  itype (inode_at m j) = ty /\ inlink (inode_at m j) = 1 /\
  isize (inode_at m j) = (if decide (j = 0%nat) then root_size files else len c) /\
  file_inv (mk_image m) own (Z.of_nat j + 1) (inode_at m j) (nblk (len c)) (with_ind (nblk (len c))) c.
Proof.
  intros Hf Hr Hj. unfold inode_at. destruct j as [|j]; cbn [image_files lookup list_lookup] in Hj.
  - injection Hj as <- <-. destruct Hr as (R1 & R2 & R3 & R4). by split_and!.
  - change ((as_file <$> files) !! j = Some (ty, c)) in Hj. rewrite list_lookup_fmap in Hj.
    destruct (files !! j) as [f|] eqn:E; [|done]. injection Hj as <- <-. replace (Z.of_nat (S j) + 1) with (Z.of_nat j + 2) by lia.
    destruct (Hf j f E) as (F1 & F2 & F3 & F4). by split_and!.
Qed.

(** The blocks of a file of contents [c]: its indirect block, if it has one, counts as number -1. *)
Definition block_keys (c : list Z) : list Z := (if with_ind (nblk (len c)) then [-1] else []) ++ seqZ 0 (nblk (len c)).

Definition inode_block (m : mkfs_t) (j : nat) (k : Z) : Z :=
  if k =? -1 then lget (iaddrs (inode_at m j)) (Z.to_nat NDIRECT) else file_block (inode_at m j) (blocks_of m) k.

(** Block [b] belongs to one of the files. *)
Definition block_in_use (m : mkfs_t) (fs : list (Z * list Z)) (b : Z) : Prop :=
  exists j ty c k, fs !! j = Some (ty, c) /\ k ∈ block_keys c /\ inode_block m j k = b.

Lemma length_keys c : Z.of_nat (length (block_keys c)) = cost (nblk (len c)).
Proof.
  pose proof (cost_nonneg c) as Hc. assert (0 <= nblk (len c)) by (unfold nblk, len; Z.div_mod_to_equations; lia).
  unfold block_keys, cost. rewrite length_app, length_seqZ. destruct (with_ind _); simpl; lia.
Qed.

Lemma NoDup_keys c : NoDup (block_keys c).
Proof.
  apply NoDup_app. split_and!; [destruct (with_ind _); [apply NoDup_singleton|constructor]| |apply NoDup_seqZ].
  intros k Hk Hs. apply elem_of_seqZ in Hs. destruct (with_ind _); [apply list_elem_of_singleton in Hk; lia|by apply elem_of_nil in Hk].
Qed.

Lemma file_inv_keys m own j c k :
  file_inv (mk_image m) own (Z.of_nat j + 1) (inode_at m j) (nblk (len c)) (with_ind (nblk (len c))) c ->
  k ∈ block_keys c -> own (inode_block m j k) = Some (Z.of_nat j + 1, k).
Proof.
  intros F Hk. unfold inode_block. apply elem_of_app in Hk as [Hk|Hk].
  - pose proof (fi_ind _ _ _ _ _ _ _ F) as Hi. destruct (with_ind _); [|by apply elem_of_nil in Hk].
    apply list_elem_of_singleton in Hk as ->. apply Hi.
  - apply elem_of_seqZ in Hk. rewrite (proj2 (Z.eqb_neq k (-1))) by lia. apply (fi_own _ _ _ _ _ _ _ F). lia.
Qed.

(** All blocks of the files from the [j]-th inode on. *)
Fixpoint all_blocks (m : mkfs_t) (j : nat) (fs : list (Z * list Z)) : list Z :=
  match fs with
  | [] => []
  | f :: fs => (inode_block m j <$> block_keys f.2) ++ all_blocks m (S j) fs
  end.

Lemma elem_of_all_blocks m b fs : forall j0,
  b ∈ all_blocks m j0 fs <-> exists j ty c k, fs !! j = Some (ty, c) /\ k ∈ block_keys c /\ inode_block m (j0 + j) k = b.
Proof.
  induction fs as [|[ty0 c0] fs IH]; intros j0; simpl.
  - split; [by intros ?%elem_of_nil|]. intros (j & ty & c & k & Hj & _). by rewrite lookup_nil in Hj.
  - rewrite elem_of_app, list_elem_of_fmap, IH. split.
    + intros [(k & -> & Hk)|(j & ty & c & k & Hj & Hk & Hb)].
      * exists 0%nat, ty0, c0, k. by rewrite Nat.add_0_r.
      * exists (S j), ty, c, k. by rewrite Nat.add_succ_r.
    + intros ([|j] & ty & c & k & Hj & Hk & Hb); simpl in Hj.
      * injection Hj as -> ->. left. exists k. by rewrite Nat.add_0_r in Hb.
      * right. exists j, ty, c, k. by rewrite Nat.add_succ_r in Hb.
Qed.

Lemma length_all_blocks m fs : forall j0, Z.of_nat (length (all_blocks m j0 fs)) = fs_cost fs.
Proof.
  induction fs as [|f fs IH]; intros j0; [done|]. simpl.
  rewrite length_app, length_fmap, Nat2Z.inj_add, IH, length_keys. done.
Qed.

Lemma NoDup_all_blocks m (own : owners) fs : forall j0,
  (forall j ty c k, fs !! j = Some (ty, c) -> k ∈ block_keys c -> own (inode_block m (j0 + j) k) = Some (Z.of_nat (j0 + j) + 1, k)) ->
  NoDup (all_blocks m j0 fs).
Proof.
  induction fs as [|[ty0 c0] fs IH]; intros j0 Ho; simpl; [constructor|].
  assert (H0 : forall k, k ∈ block_keys c0 -> own (inode_block m j0 k) = Some (Z.of_nat j0 + 1, k)).
  { intros k Hk. specialize (Ho 0%nat ty0 c0 k eq_refl Hk). by rewrite Nat.add_0_r in Ho. }
  assert (HS : forall j ty c k, fs !! j = Some (ty, c) -> k ∈ block_keys c ->
    own (inode_block m (S j0 + j) k) = Some (Z.of_nat (S j0 + j) + 1, k)).
  { intros j ty c k Hj Hk. specialize (Ho (S j) ty c k Hj Hk). by rewrite Nat.add_succ_r in Ho. }
  apply NoDup_app. split_and!; [|intros b Hb Hb'|by apply IH].
  - apply NoDup_fmap_2_strong; [|apply NoDup_keys]. intros k k' Hk Hk' E. pose proof (H0 k Hk) as O.
    rewrite E, (H0 k' Hk') in O. by injection O.
  - apply list_elem_of_fmap in Hb as (k & -> & Hk). apply elem_of_all_blocks in Hb' as (j & ty & c & k' & Hj & Hk' & E).
    pose proof (HS j ty c k' Hj Hk') as O. rewrite E, (H0 k Hk) in O. injection O. lia.
Qed.

(** The blocks of the files are all blocks from [nmeta] on, as many as there are. *)
Lemma in_use_range m own fs :
  img_inv m own -> mk_freeblock m = nmeta + fs_cost fs ->
  (forall j ty c k, fs !! j = Some (ty, c) -> k ∈ block_keys c -> own (inode_block m j k) = Some (Z.of_nat j + 1, k)) ->
  forall b, block_in_use m fs b <-> nmeta <= b < nmeta + fs_cost fs.
Proof.
  intros Him Hfr Ho b. pose proof (fs_cost_nonneg fs) as Hc.
  assert (Hr : forall b, block_in_use m fs b -> nmeta <= b < nmeta + fs_cost fs).
  { intros b' (j & ty & c & k & Hj & Hk & <-). rewrite <- Hfr. by eapply (ii_range _ _ Him), Ho. }
  assert (Hsub : all_blocks m 0 fs ⊆+ seqZ nmeta (fs_cost fs)).
  { apply NoDup_submseteq; [by apply (NoDup_all_blocks m own)|]. intros b' Hb%elem_of_all_blocks. apply elem_of_seqZ, Hr, Hb. }
  assert (Hperm : all_blocks m 0 fs ≡ₚ seqZ nmeta (fs_cost fs)).
  { apply submseteq_length_Permutation; [done|]. rewrite length_seqZ. pose proof (length_all_blocks m fs 0). lia. }
  rewrite <- elem_of_seqZ, <- Hperm, elem_of_all_blocks. done.
Qed.

(** C23: mkfs makes the file system it is asked for.  When no name has a slash and the files
    fit, it succeeds; the super block of the image is the one that describes its layout; inode
    1 is the root directory and inode j+2 is the j-th file, with one link; the contents of the
    root directory are the entries of ., .. and every file and those of a file its bytes; no
    block belongs to two files or to one twice, indirect blocks included; and the bitmap
    has exactly the blocks before the data blocks and the blocks of the files. *)
Theorem mkfs_image files :
  Forall (fun f => chr "/" ∉ f.1) files -> fits (image_files files) ->
  exists m, mkfs_main files = Some m /\ sb_decode (mk_image m 1) = mkfs_sb /\
    (forall j ty c, image_files files !! j = Some (ty, c) ->
       itype (inode_at m j) = ty /\ inlink (inode_at m j) = 1 /\
       isize (inode_at m j) = (if decide (j = 0%nat) then root_size files else len c) /\
       file_bytes (inode_at m j) (blocks_of m) 0 (len c) = c) /\
    (forall j j' ty ty' c c' k k', image_files files !! j = Some (ty, c) -> image_files files !! j' = Some (ty', c') ->
       k ∈ block_keys c -> k' ∈ block_keys c' -> inode_block m j k = inode_block m j' k' -> j = j' /\ k = k') /\
    (forall b, 0 <= b < BSIZE * 8 ->
       bit_of (mk_image m (sb_bmapstart mkfs_sb)) b = true <-> b < nmeta \/ block_in_use m (image_files files) b).
Proof.
  intros Hn Hfit. destruct (mkfs_main_ok files Hn Hfit) as (m & own & Hm & Him & Hsb & Hfr & Hbm & Hfs & Hroot).
  assert (Ho : forall j ty c k, image_files files !! j = Some (ty, c) -> k ∈ block_keys c ->
    own (inode_block m j k) = Some (Z.of_nat j + 1, k)).
  { intros j ty c k Hj. destruct (image_file_in _ _ _ _ _ _ Hfs Hroot Hj) as (_ & _ & _ & F). by apply file_inv_keys. }
  exists m. split_and!; [done|rewrite Hsb; apply sb_roundtrip| | |].
  - intros j ty c Hj. destruct (image_file_in _ _ _ _ _ _ Hfs Hroot Hj) as (F1 & F2 & F3 & F4). split_and!; [done..|].
    exact (file_inv_bytes _ _ _ _ _ _ _ F4).
  - intros j j' ty ty' c c' k k' Hj Hj' Hk Hk' E. pose proof (Ho _ _ _ _ Hj Hk) as O.
    rewrite E, (Ho _ _ _ _ Hj' Hk') in O. injection O as ??. lia.
  - intros b Hb. rewrite Hbm. destruct Hfit as (_ & Hf & _). pose proof (fs_cost_nonneg (image_files files)).
    rewrite (in_use_range m own) by done. change nmeta with 59 in *. 
    destruct (used_bits_spec (59 + fs_cost (image_files files)) b) as [-> _]; [lia|lia|]. lia.
Qed.

Lemma length_entries files : forall n, length (entries n files) = (16 * length files)%nat.
Proof. induction files as [|f files IH]; intros n; [done|]. cbn [entries length]. rewrite length_app, IH. unfold entry_of. rewrite length_dirent. lia. Qed.

Lemma len_root_entries files : len (root_entries files) = 16 * (Z.of_nat (length files) + 2).
Proof. unfold len, root_entries. rewrite !length_app, !length_dirent, length_entries. lia. Qed.

(** mkfs gives the root directory a size that is always larger than its contents.  When the
    entries end at the end of a block, the size includes a whole block that the
    directory does not have: its address is 0. *)
Theorem mkfs_root_hole files :
  Forall (fun f => chr "/" ∉ f.1) files -> fits (image_files files) -> len (root_entries files) mod BSIZE = 0 ->
  exists m, mkfs_main files = Some m /\ isize (inode_at m 0) = len (root_entries files) + BSIZE /\
    file_block (inode_at m 0) (blocks_of m) (len (root_entries files) / BSIZE) = 0.
Proof.
  intros Hn Hfit Hmod. destruct (mkfs_main_ok files Hn Hfit) as (m & own & Hm & Him & _ & _ & _ & _ & R1 & R2 & R3 & R4).
  exists m. split_and!; [done| |].
  - unfold inode_at. change (Z.of_nat 0 + 1) with ROOTINO. rewrite R3. unfold root_size. Z.div_mod_to_equations. lia.
  - destruct Hfit as (_ & _ & Hlen). unfold image_files in Hlen. cbn [length] in Hlen. rewrite length_fmap in Hlen.
    pose proof (len_root_entries files) as Hl. change (Z.of_nat 0 + 1) with ROOTINO.
    assert (Hk : nblk (len (root_entries files)) <= len (root_entries files) / BSIZE < NDIRECT) by (unfold nblk; Z.div_mod_to_equations; lia).
    pose proof (fi_direct _ _ _ _ _ _ _ R4 _ Hk) as Hz. unfold file_block. by rewrite (proj2 (Z.ltb_lt _ _)) by lia.
Qed.

(** * Witnesses *)

(** Two files, one read in two pieces. *)
Definition mw_files : list (list Z * list (list Z)) :=
  [(str "README", [str "hello "; str "world"]); (str "_init", [replicate 700 7])].

Lemma mw_no_slash : Forall (fun f => chr "/" ∉ f.1) mw_files.
Proof. repeat constructor; apply (bool_decide_unpack _); vm_compute; exact I. Qed.

Lemma mw_fits : fits (image_files mw_files).
Proof.
  split_and!; [|by vm_compute|by apply Nat.leb_le].
  change (Forall (fun f => len f.2 <= MAXFILE * BSIZE) (image_files mw_files)). apply Forall_forall. intros f Hf.
  apply Z.leb_le. revert f Hf. apply Forall_forall. repeat constructor; vm_compute; reflexivity.
Qed.

Lemma mkfs_image_witness :
  exists m, mkfs_main mw_files = Some m /\ isize (inode_at m 2) = 700 /\
    file_bytes (inode_at m 1) (blocks_of m) 0 11 = str "hello world".
Proof.
  destruct (mkfs_image mw_files mw_no_slash mw_fits) as (m & Hm & _ & Hf & _). exists m. split; [exact Hm|].
  destruct (Hf 2%nat T_FILE (replicate 700 7) eq_refl) as (_ & _ & Hs & _).
  destruct (Hf 1%nat T_FILE (str "hello world") eq_refl) as (_ & _ & _ & Hb). split; [exact Hs|exact Hb].
Defined.

(** Thirty empty files: with . and .. the entries fill a block. *)
Definition hw_files : list (list Z * list (list Z)) := (fun k => ([97 + Z.of_nat k], [])) <$> seq 0 30.

Lemma mkfs_root_hole_witness :
  exists m, mkfs_main hw_files = Some m /\ isize (inode_at m 0) = 1024 /\ file_block (inode_at m 0) (blocks_of m) 1 = 0.
Proof.
  assert (Hs : Forall (fun f => chr "/" ∉ f.1) hw_files).
  { apply (bool_decide_unpack _). vm_compute. exact I. }
  assert (Hf : fits (image_files hw_files)).
  { split_and!; [apply (bool_decide_unpack _); vm_compute; exact I|vm_compute; discriminate|apply Nat.leb_le; reflexivity]. }
  destruct (mkfs_root_hole hw_files Hs Hf eq_refl) as (m & Hm & Hz & Hb). exists m. split; [exact Hm|]. split; [exact Hz|exact Hb].
Defined.
