(* ===== verification/MkfsBoot.v ===== *)
(** mkfs.c and fs.c together: the kernel finds and reads the files of the image.

    The kernel starts with a cache of the image and an empty inode table.  [namei] of a slash
    and the name of a file returns the inode of this file, and [readi] its contents. *)

From S2P Require Import Prelude Params Mem State Spinlock Console Kalloc Vm VmTables VmSpace VmAlloc.
From S2P Require Import VmCopy Proc ProcSpec Ide Bio BioRing BioSpec BioProps Log LogSpec LogOps LogCrash.
From S2P Require Import Umem Fs FsSpec FsLock FsDir FsTable FsName FsAlloc Mkfs MkfsSpec MkfsFiles MkfsProps.

(** * Directory entries *)

Definition namechars (w : list Z) : Prop := Forall (fun c => 0 < c < 256) w.

Lemma lstr_drop l i : 0 <= i -> lstr l i = match drop (Z.to_nat i) l with c :: _ => c | [] => 0 end.
Proof.
  intros Hi. rewrite lstr_nth by done. rewrite <- (Nat.add_0_r (Z.to_nat i)) at 1. rewrite <- lookup_drop.
  by destruct (drop (Z.to_nat i) l).
Qed.

(** [strncmp] of two strings that fit is 0 exactly when they are equal. *)
Lemma strncmp_equal a b n : forall i, 0 <= i -> namechars a -> namechars b ->
  (length a <= Z.to_nat i + n)%nat -> (length b <= Z.to_nat i + n)%nat ->
  strncmp (lstr a) (lstr b) i n = 0 <-> drop (Z.to_nat i) a = drop (Z.to_nat i) b.
Proof.
  induction n as [|n IH]; intros i Hi Ha Hb La Lb.
  { rewrite !drop_ge by lia. done. }
  cbn [strncmp]. rewrite !lstr_drop by done.
  assert (Hd : forall l : list Z, drop (Z.to_nat (i + 1)) l = drop 1 (drop (Z.to_nat i) l)) by (intros l; rewrite drop_drop; f_equal; lia).
  specialize (IH (i + 1) ltac:(lia) Ha Hb ltac:(lia) ltac:(lia)). rewrite !Hd in IH.
  pose proof (Forall_drop _ (Z.to_nat i) _ Ha) as Fa. pose proof (Forall_drop _ (Z.to_nat i) _ Hb) as Fb.
  destruct (drop (Z.to_nat i) a) as [|x a'], (drop (Z.to_nat i) b) as [|y b']; cbn [drop] in IH; rewrite ?drop_0 in IH.
  - done.
  - apply Forall_cons in Fb as [Hy _]. cbn [cbool Z.eqb negb andb]. unfold u8. rewrite (Z.mod_small y) by lia. split; [change (0 mod 256) with 0; lia|done].
  - apply Forall_cons in Fa as [Hx _]. unfold cbool. rewrite (proj2 (Z.eqb_neq x 0)) by lia. cbn [negb andb].
    unfold u8. rewrite (Z.mod_small x) by lia. split; [change (0 mod 256) with 0; lia|done].
  - apply Forall_cons in Fa as [Hx _], Fb as [Hy _]. unfold cbool. rewrite (proj2 (Z.eqb_neq x 0)) by lia. cbn [negb andb].
    destruct (Z.eqb_spec x y) as [->|Hne].
    + rewrite IH. split; [by intros ->|by intros [= ->]].
    + unfold u8. rewrite !Z.mod_small by lia. split; [lia|]. intros [= -> _]. done.
Qed.

Lemma de_inum_dirent n name : 0 <= n < 65536 -> de_inum (dirent n name) = n.
Proof.
  intros Hn. unfold de_inum, dirent. rewrite get16_put16.
  - unfold u16. by apply Z.mod_small.
  - rewrite length_app. simpl. lia.
Qed.

Lemma drop_dirent n name : de_name (dirent n name) = take 14 (name ++ replicate 14 0).
Proof. done. Qed.

Lemma dir_hit_dirent n name w : 0 < n < 65536 -> namechars name -> namechars w ->
  dir_hit (word w) (dirent n name) = bool_decide (take 14 w = take 14 name).
Proof.
  intros Hn Hc Hw. unfold dir_hit. rewrite de_inum_dirent, (proj2 (Z.eqb_neq n 0)) by lia. cbn [negb andb].
  assert (E : namecmp (word w) (lstr (de_name (dirent n name))) = 0 <-> take 14 w = take 14 name).
  { rewrite drop_dirent. unfold namecmp. change (Z.to_nat DIRSIZ) with 14%nat.
    assert (Hs : forall p q q' n i, (forall k, i <= k < i + Z.of_nat n -> q k = q' k) -> strncmp p q i n = strncmp p q' i n).
    { intros p q q'. induction n0 as [|n0 IH]; intros i Hq; [done|]. cbn [strncmp]. rewrite <- Hq by lia.
      rewrite (IH (i + 1)); [done|]. intros k Hk. apply Hq. lia. }
    rewrite (Hs _ _ (lstr (take 14 name))).
    - unfold word. change (Z.to_nat DIRSIZ) with 14%nat. apply strncmp_equal; [done|by apply Forall_take..| |]; rewrite length_take; lia.
    - intros k Hk. rewrite !lstr_nth by lia. rewrite !lookup_take_lt by lia. destruct (decide (Z.to_nat k < length name)%nat).
      + by rewrite lookup_app_l.
      + rewrite lookup_app_r, (lookup_ge_None_2 name (Z.to_nat k)) by lia. change (default 0 None) with 0. destruct (replicate 14 0 !! _) eqn:Er; [|done].
        by apply lookup_replicate in Er as [-> _]. }
  case_bool_decide as Hb; [apply Z.eqb_eq, E, Hb|].
  apply Z.eqb_neq. by rewrite E.
Qed.

(** * The root directory *)

(** The entries of the root directory. *)
Fixpoint file_entries (n : Z) (files : list (list Z * list (list Z))) : list (list Z) :=
  match files with [] => [] | f :: files' => entry_of n f :: file_entries (n + 1) files' end.
Definition root_list (files : list (list Z * list (list Z))) : list (list Z) :=
  dirent ROOTINO (str ".") :: dirent ROOTINO (str "..") :: file_entries 2 files.

Lemma root_list_concat files : root_entries files = concat (root_list files).
Proof.
  unfold root_entries, root_list. cbn [concat]. do 2 f_equal. generalize 2. induction files as [|f files IH]; intros n; [done|].
  cbn [entries file_entries concat]. by rewrite IH.
Qed.

Lemma root_list_lookup files k de : root_list files !! k = Some de ->
  match k with
  | 0%nat => de = dirent ROOTINO (str ".")
  | 1%nat => de = dirent ROOTINO (str "..")
  | S (S j) => exists f, files !! j = Some f /\ de = dirent (Z.of_nat k) (image_name f.1)
  end.
Proof.
  destruct k as [|[|j]]; cbn [root_list lookup list_lookup]; [by intros [= <-]..|].
  change (file_entries 2 files !! j = Some de -> exists f, files !! j = Some f /\ de = dirent (Z.of_nat (S (S j))) (image_name f.1)).
  replace (Z.of_nat (S (S j))) with (2 + Z.of_nat j) by lia. generalize 2. revert j.
  induction files as [|f files IH]; intros [|j] n Hj; [done|done| |].
  - injection Hj as <-. exists f. by rewrite Z.add_0_r.
  - apply IH in Hj as (f' & Hf & ->). exists f'. split; [done|]. f_equal. lia.
Qed.

(** The bytes of an entry. *)
Lemma lget_all d n : length d = n -> (fun p => lget d (Z.to_nat p)) <$> seqZ 0 (Z.of_nat n) = d.
Proof.
  intros Hl. apply list_eq. intros i. rewrite list_lookup_fmap. destruct (decide (i < n)%nat) as [Hi|Hi].
  - rewrite lookup_seqZ_lt by lia. cbn [fmap option_fmap option_map]. destruct (lookup_lt_is_Some_2 d i ltac:(lia)) as [x Hx]. rewrite Hx.
    f_equal. unfold lget. replace (Z.to_nat (0 + Z.of_nat i)) with i by lia. by rewrite (nth_lookup_Some _ _ _ _ Hx).
  - rewrite lookup_seqZ_ge by lia. symmetry. apply lookup_ge_None. lia.
Qed.

Lemma concat_chunk (l : list (list Z)) : Forall (fun d => length d = 16%nat) l -> forall k,
  (fun p => lget (concat l) (Z.to_nat p)) <$> seqZ (16 * Z.of_nat k) 16 = default (replicate 16 0) (l !! k).
Proof.
  induction 1 as [|d l Hd Hl IH]; intros k.
  - cbn [concat]. unfold lget. rewrite (list_fmap_ext _ (fun _ => 0)) by (intros i x _; by destruct (Z.to_nat x)).
    reflexivity.
  - destruct k as [|k].
    + change (seqZ (16 * Z.of_nat 0) 16) with (seqZ 0 (Z.of_nat 16)). change (default _ _) with d. etransitivity; [|exact (lget_all d 16 Hd)].
      apply list_fmap_ext. intros i x Hx. apply lookup_seqZ in Hx as [-> Hi]. cbn [concat]. unfold lget. by rewrite app_nth1 by lia.
    + specialize (IH k). change ((d :: l) !! S k) with (l !! k). rewrite <- IH.
      replace (16 * Z.of_nat (S k)) with (16 + 16 * Z.of_nat k) by lia. rewrite <- fmap_add_seqZ, <- list_fmap_compose.
      apply list_fmap_ext. intros i x Hx. apply lookup_seqZ in Hx as [-> Hi]. cbn [concat compose]. unfold lget.
      rewrite app_nth2 by lia. f_equal. lia.
Qed.

(** Names that a directory can keep apart. *)
Definition entry_name (f : list Z * list (list Z)) : list Z := image_name f.1.
Record names_good (files : list (list Z * list (list Z))) : Prop := {
  ng_chars : Forall (fun f => namechars (entry_name f) /\ entry_name f <> []) files;
  ng_distinct : NoDup (str "." :: str ".." :: (take 14 ∘ entry_name <$> files))
}.

(** The entry [k] of the root directory has a name [w] only if it is the one of the file. *)
Lemma root_list_hit files j f k de :
  names_good files -> (length files <= 199)%nat -> files !! j = Some f -> root_list files !! k = Some de ->
  dir_hit (word (entry_name f)) de = bool_decide (k = S (S j)).
Proof.
  intros [Hc Hd] Hlen Hj Hk. pose proof (proj1 (Forall_lookup _ _) Hc j f Hj) as [Hw _]. apply root_list_lookup in Hk.
  assert (Hn : (str "." :: str ".." :: (take 14 ∘ entry_name <$> files)) !! S (S j) = Some (take 14 (entry_name f))).
  { change ((take 14 ∘ entry_name <$> files) !! j = Some (take 14 (entry_name f))). by rewrite list_lookup_fmap, Hj. }
  assert (Hgo : forall n name, 0 < n < 65536 -> namechars name ->
    (str "." :: str ".." :: (take 14 ∘ entry_name <$> files)) !! k = Some (take 14 name) ->
    dir_hit (word (entry_name f)) (dirent n name) = bool_decide (k = S (S j))).
  { intros n name Hn' Hna Hl. rewrite dir_hit_dirent by done. apply bool_decide_ext. split; [|intros ->; congruence].
    intros E. rewrite <- E in Hl. by apply (NoDup_lookup _ _ _ _ Hd Hl Hn). }
  destruct k as [|[|k]]; [subst de; by apply Hgo; repeat constructor..|].
  destruct Hk as (g & Hg & ->). pose proof (lookup_lt_Some _ _ _ Hg). apply Hgo; [lia| |].
  - by apply (proj1 (Forall_lookup _ _) Hc k g Hg).
  - change ((take 14 ∘ entry_name <$> files) !! k = Some (take 14 (image_name g.1))). by rewrite list_lookup_fmap, Hg.
Qed.

(** * The image in the cache of the kernel *)

Section boot.
Context `{Symbols} `{Driver} {Hdrv : SyncDriver} `{DevSw}.
Variables (m : mkfs_t) (own : owners) (cur : Z * Z -> list Z).
Hypothesis Him : img_inv m own.
Hypothesis Hfree : mk_freeblock m <= FSSIZE.
Hypothesis Hcur : forall b, 0 <= b < FSSIZE -> cur (ROOTDEV, b) = mk_image m b.
Hypothesis Hserve : forall b, 0 < b < FSSIZE -> serves ROOTDEV b.

Lemma disk_inode_image i : 0 <= i < 208 -> disk_inode cur mkfs_sb i = set_inum i (set_idev ROOTDEV (inode_in i m)).
Proof.
  intros Hi. destruct (iblock_range i Hi) as [Hb _]. unfold disk_inode, inode_in. by rewrite Hcur by lia.
Qed.

Lemma file_block_image i n ind c k :
  0 <= i < 208 -> file_inv (mk_image m) own i (inode_in i m) n ind c -> 0 <= k < n ->
  file_block (disk_inode cur mkfs_sb i) cur k = fblk (mk_image m) (inode_in i m) k.
Proof.
  intros Hi Hf Hk. rewrite disk_inode_image by done. unfold fblk, file_block. cbn [set_inum set_idev iaddrs idev].
  destruct (Z.ltb_spec k NDIRECT) as [|Hge]; [done|]. destruct (fi_count _ _ _ _ _ _ _ Hf) as (_ & _ & Hind).
  pose proof (fi_ind _ _ _ _ _ _ _ Hf) as Hi'. rewrite Hind in Hi' by lia. destruct Hi' as [Ho _].
  pose proof (ii_range _ _ Him _ _ Ho) as Hr. change nmeta with 59 in Hr. cbn [snd]. by rewrite Hcur by lia.
Qed.

Lemma owned_block b w : own b = Some w -> 0 < b < FSSIZE /\ cur (ROOTDEV, b) = mk_image m b /\ length (mk_image m b) = Z.to_nat BSIZE.
Proof.
  intros Ho. pose proof (ii_range _ _ Him _ _ Ho) as Hr. change nmeta with 59 in Hr.
  split_and!; [lia|lia|apply Hcur; lia|apply (ii_len _ _ Him)].
Qed.

(** A file of the image is a file for the kernel. *)
Lemma file_ok_image s i n ind c :
  0 <= i < 208 -> file_inv (mk_image m) own i (inode_in i m) n ind c -> 0 <= isize (inode_in i m) <= BSIZE * n ->
  file_ok s [] cur (disk_inode cur mkfs_sb i).
Proof.
  intros Hi Hf Hsz. destruct (fi_count _ _ _ _ _ _ _ Hf) as (Hn & _ & Hind).
  assert (Esz : isize (disk_inode cur mkfs_sb i) = isize (inode_in i m)) by (by rewrite disk_inode_image).
  assert (Hrd : forall b w, own b = Some w -> readable_block s [] ROOTDEV b).
  { intros b w Ho. destruct (owned_block b w Ho) as (Hb & _). split_and!; [lia|by apply Hserve|by intros x ?%elem_of_nil]. }
  split; rewrite ?Esz.
  - done.
  - split; [lia|]. etransitivity; [apply Hsz|]. lia.
  - change (idev (disk_inode cur mkfs_sb i)) with ROOTDEV. intros k Hk Hks. assert (Hkn : 0 <= k < n) by lia.
    pose proof (fi_own _ _ _ _ _ _ _ Hf k Hkn) as Ho. rewrite (file_block_image i n ind c k) by done.
    destruct (owned_block _ _ Ho) as (_ & -> & Hl). split; [by eapply Hrd|done].
  - intros Hk. change (idev (disk_inode cur mkfs_sb i)) with ROOTDEV. pose proof (fi_ind _ _ _ _ _ _ _ Hf) as Hi'. rewrite Hind in Hi' by lia.
    destruct Hi' as [Ho _]. rewrite disk_inode_image by done. by eapply Hrd.
Qed.

Lemma file_bytes_image i n ind c off k :
  0 <= i < 208 -> file_inv (mk_image m) own i (inode_in i m) n ind c -> 0 <= off -> off + k <= BSIZE * n ->
  file_bytes (disk_inode cur mkfs_sb i) cur off k = (fun p => lget c (Z.to_nat p)) <$> seqZ off k.
Proof.
  intros Hi Hf Hoff Hk. unfold file_bytes. apply list_fmap_ext. intros j p Hp. apply lookup_seqZ in Hp as [-> Hj].
  set (p := off + Z.of_nat j). assert (Hpk : 0 <= p / BSIZE < n) by (subst p; Z.div_mod_to_equations; lia).
  unfold file_byte. change (idev (disk_inode cur mkfs_sb i)) with ROOTDEV. rewrite (file_block_image i n ind c) by done.
  destruct (owned_block _ _ (fi_own _ _ _ _ _ _ _ Hf _ Hpk)) as (_ & -> & _). apply (fi_data _ _ _ _ _ _ _ Hf). lia.
Qed.

(** ** The tree *)

Variable files : list (list Z * list (list Z)).
Hypothesis Hcount : (length files <= 199)%nat.
Hypothesis Hfiles : forall j f, files !! j = Some f -> file_in m own (Z.of_nat j + 2) T_FILE (concat f.2).
Hypothesis Hroot : root_in m own files.
Hypothesis Hwhole : len (root_entries files) mod BSIZE <> 0.

Definition live_inode (n : Z) : Prop := 1 <= n < Z.of_nat (length files) + 2.

(** Every live inode is a file of the image. *)
Lemma live_file n : live_inode n ->
  0 <= n < 208 /\ exists ty c, itype (disk_inode cur mkfs_sb n) = ty /\ inlink (disk_inode cur mkfs_sb n) = 1 /\
    (ty = T_DIR -> n = ROOTINO) /\ ty <> 0 /\ 0 <= isize (disk_inode cur mkfs_sb n) <= BSIZE * nblk (len c) /\
    file_inv (mk_image m) own n (inode_in n m) (nblk (len c)) (with_ind (nblk (len c))) c.
Proof.
  intros Hn. unfold live_inode in Hn. split; [lia|]. rewrite disk_inode_image by lia. cbn [set_inum set_idev itype inlink isize].
  destruct (lookup_lt_is_Some_2 (image_files files) (Z.to_nat (n - 1))) as [[ty c] Hj].
  { unfold image_files. cbn [length]. rewrite length_fmap. lia. }
  destruct (image_file_in m own files _ ty c Hfiles Hroot Hj) as (F1 & F2 & F3 & F4). unfold inode_at in *.
  replace (Z.of_nat (Z.to_nat (n - 1)) + 1) with n in * by lia. exists ty, c.
  assert (Hlen : len c <= BSIZE * nblk (len c)) by (unfold nblk; Z.div_mod_to_equations; lia). assert (0 <= len c) by (unfold len; lia).
  destruct (decide (n = 1)) as [->|Hne].
  - injection Hj as <- <-. rewrite decide_True in F3 by done.
    split_and!; try done; rewrite F3; unfold root_size; unfold nblk in *; Z.div_mod_to_equations; lia.
  - assert (Hty : ty = T_FILE).
    { replace (Z.to_nat (n - 1)) with (S (Z.to_nat (n - 2))) in Hj by lia. cbn [image_files lookup list_lookup] in Hj.
      change ((as_file <$> files) !! Z.to_nat (n - 2) = Some (ty, c)) in Hj. rewrite list_lookup_fmap in Hj.
      destruct (files !! _) as [f|]; [|done]. by injection Hj as <- <-. }
    rewrite decide_False in F3 by lia. split_and!; [done|done|rewrite Hty; by intros ?%Z.eqb_eq|by rewrite Hty|lia|lia|done].
Qed.

(** An entry of the root directory. *)
Lemma root_entry_image k :
  0 <= k < isize (disk_inode cur mkfs_sb ROOTINO) / 16 ->
  dir_entry (disk_inode cur mkfs_sb ROOTINO) cur k = default (replicate 16 0) (root_list files !! Z.to_nat k).
Proof.
  intros Hk. destruct Hroot as (_ & _ & R3 & R4). assert (Esz : isize (disk_inode cur mkfs_sb ROOTINO) = root_size files) by (by rewrite disk_inode_image).
  rewrite Esz in Hk. unfold dir_entry. rewrite (file_bytes_image ROOTINO _ _ _ _ _ ltac:(done) R4) by (unfold root_size in Hk; unfold nblk; Z.div_mod_to_equations; lia).
  rewrite root_list_concat. replace (16 * k) with (16 * Z.of_nat (Z.to_nat k)) by lia. apply concat_chunk.
  unfold root_list. constructor; [apply length_dirent|]. constructor; [apply length_dirent|]. generalize 2. clear.
  induction files as [|f l IH]; intros n; [done|]. constructor; [apply length_dirent|apply IH].
Qed.

Lemma root_entry_inum k : de_inum (default (replicate 16 0) (root_list files !! k)) <> 0 ->
  live_inode (de_inum (default (replicate 16 0) (root_list files !! k))).
Proof.
  unfold live_inode. destruct (root_list files !! k) as [de|] eqn:E; [|done]. change (default (replicate 16 0) (Some de)) with de. intros _.
  apply root_list_lookup in E. destruct k as [|[|j]]; [subst de; rewrite de_inum_dirent by done; unfold ROOTINO; lia..|].
  destruct E as (f & Hf & ->). pose proof (lookup_lt_Some _ _ _ Hf). rewrite de_inum_dirent; lia.
Qed.

Lemma image_tree s : tree_ok cur mkfs_sb live_inode s.
Proof.
  split.
  - intros n Hn. destruct (iblock_range n ltac:(unfold live_inode in Hn; lia)) as [Hb _]. split_and!; [lia|apply Hserve; lia|by intros x ?%elem_of_nil].
  - intros n Hn. destruct (live_file n Hn) as (_ & ty & c & -> & -> & _ & Hty & _). done.
  - intros n Hn Hd. destruct (live_file n Hn) as (Hi & ty & c & Ety & _ & Hr & _ & Hsz & Hf). split.
    + apply (file_ok_image s n _ _ c Hi Hf). by rewrite disk_inode_image in Hsz.
    + assert (n = ROOTINO) as -> by (apply Hr; congruence). destruct Hroot as (_ & _ & R3 & _).
      rewrite disk_inode_image by done. cbn [set_inum set_idev isize]. rewrite R3. unfold root_size. Z.div_mod_to_equations. lia.
  - intros n k Hn Hd Hk Hz. destruct (live_file n Hn) as (Hi & ty & c & Ety & _ & Hr & _). assert (n = ROOTINO) as -> by (apply Hr; congruence).
    rewrite root_entry_image in * by done. by apply root_entry_inum.
Qed.

Lemma root_list_at j f : files !! j = Some f -> root_list files !! S (S j) = Some (dirent (Z.of_nat j + 2) (image_name f.1)).
Proof.
  intros Hj. change (file_entries 2 files !! j = Some (dirent (Z.of_nat j + 2) (image_name f.1))). rewrite Z.add_comm. clear -Hj.
  revert j Hj. generalize 2. induction files as [|g l IH]; intros n [|j] Hj; [done|done| |].
  - injection Hj as ->. by rewrite Z.add_0_r.
  - change (file_entries (n + 1) l !! j = Some (dirent (n + Z.of_nat (S j)) (image_name f.1))).
    replace (n + Z.of_nat (S j)) with (n + 1 + Z.of_nat j) by lia. by apply IH.
Qed.

(** The root directory has the inode of the file under its name. *)
Lemma root_get j f : names_good files -> files !! j = Some f ->
  dir_get cur (disk_inode cur mkfs_sb ROOTINO) (word (entry_name f)) = Some (Z.of_nat j + 2).
Proof.
  intros Hg Hj. pose proof (lookup_lt_Some _ _ _ Hj) as Hlt. pose proof (len_root_entries files) as Hl.
  assert (Hsz : Z.of_nat (length files) + 2 <= isize (disk_inode cur mkfs_sb ROOTINO) / 16).
  { destruct Hroot as (_ & _ & R3 & _). rewrite disk_inode_image by done. cbn [set_inum set_idev isize]. rewrite R3.
    unfold root_size. Z.div_mod_to_equations. lia. }
  unfold dir_get. rewrite (proj2 (list_find_Some _ _ (S (S j)) (Z.of_nat (S (S j))))).
  - rewrite root_entry_image by lia. rewrite Nat2Z.id, (root_list_at j f Hj).
    change (default _ _) with (dirent (Z.of_nat j + 2) (image_name f.1)). rewrite de_inum_dirent by lia. done.
  - split_and!.
    + rewrite lookup_seqZ_lt by lia. done.
    + rewrite root_entry_image, Nat2Z.id, (root_list_at j f Hj) by lia.
      rewrite (root_list_hit files j f (S (S j))); [by rewrite bool_decide_eq_true_2|done|done|done|by apply root_list_at].
    + intros i y Hy Hi. apply lookup_seqZ in Hy as [-> Hy]. rewrite root_entry_image by lia.
      destruct (root_list files !! Z.to_nat (0 + Z.of_nat i)) as [de|] eqn:Ek; [|done].
      change (dir_hit (word (entry_name f)) de <> true). rewrite (root_list_hit files j f _ de Hg Hcount Hj Ek).
      by rewrite bool_decide_eq_false_2 by lia.
Qed.

Lemma walk_image j f : names_good files -> files !! j = Some f ->
  walk cur mkfs_sb ROOTINO [entry_name f] = Some (Z.of_nat j + 2).
Proof.
  intros Hg Hj. cbn [walk]. rewrite disk_inode_image by (unfold ROOTINO; lia). cbn [set_inum set_idev itype]. destruct Hroot as (-> & _).
  rewrite Z.eqb_refl. rewrite <- disk_inode_image by (unfold ROOTINO; lia). by rewrite (root_get j f Hg Hj).
Qed.

(** A kernel that has just started on the image: the inode table is empty. *)
Record booted (s : kernel) : Prop := {
  bt_cache : cache s [] cur ∅;
  bt_ready : ready L_icache s;
  bt_sb : k_sb s = mkfs_sb;
  bt_length : length (k_icache s) = Z.to_nat NINODE;
  bt_unused : Forall unused (k_icache s)
}.

Lemma spare_unused l : Forall unused l -> spare l = Z.of_nat (length l).
Proof. induction 1 as [|q l Hq Hl IH]; [done|]. unfold spare in *. cbn [tsum length]. rewrite decide_True, IH by done. lia. Qed.

Lemma booted_names s : booted s -> names_ok cur mkfs_sb live_inode ∅ s.
Proof.
  intros [B1 B2 B3 B4 B5]. split; [done|by rewrite size_empty; apply Nat.ltb_lt|done|done| |by rewrite spare_unused, B4|apply image_tree|].
  - rewrite Forall_lookup in B5. unfold unused in B5. split; [done| |].
    + intros i j p q Hp Hq Pp. rewrite (B5 i p Hp) in Pp. lia.
    + intros i q Hq. split; rewrite (B5 i q Hq); [done|lia..].
  - unfold live_inode, ROOTINO. lia.
Qed.

End boot.

Lemma elems_one w : w <> [] -> no_slash w -> elems (chr "/" :: w) = [w].
Proof.
  intros Hw Hn. unfold elems. change (chr "/" :: w) with ([] ++ chr "/" :: w). rewrite pieces_app, pieces_last by (done || constructor).
  by rewrite filter_cons_False, filter_cons_True by auto.
Qed.

Section start.
Context `{Symbols} `{Driver} {Hdrv : SyncDriver} `{DevSw}.

(** Locking the inode that a walk has found, and reading all of it. *)
Lemma lock_and_read cur sb live s t ip n c e :
  ready L_icache s -> k_sb s = sb -> tree_ok cur sb live s -> at_inode cur sb live ∅ s t ip n ->
  file_ok s [] cur (disk_inode cur sb n) -> itype (disk_inode cur sb n) <> T_DEV -> isize (disk_inode cur sb n) = len c ->
  file_bytes (disk_inode cur sb n) cur 0 (len c) = c -> len c < 2147483648 ->
  exists s2 s3, ilock (Some ip) e t = Done tt e s2 /\ inum (inode_of ip s2) = n /\
    readi ip DKernel 0 (len c) e s2 = Done (len c, c) e s3.
Proof.
  intros Hr Hsb Htr Hat Hf Hty Hsz Hbytes Hmax. assert (Hroom : (size (∅ : gset (Z * Z)) < head)%nat) by (rewrite size_empty; by apply Nat.ltb_lt).
  assert (Hw : wp (ilock (Some ip)) (fun _ e' t' => e' = e /\ exists q, dir_held cur sb live ∅ s t' ip n q) e t).
  { eapply wp_lock_step; [done..|]. intros t1 q1 Hh. by eauto. }
  apply wp_elim in Hw as ([] & e' & s2 & Hrun & -> & q & Hh).
  destruct (held_fields _ _ _ _ _ _ _ _ _ Hh) as (F1 & F2 & F3 & _ & F5 & _ & _ & F8).
  pose proof (inode_of_some ip q s2 (ho_entry _ _ _ _ _ _ _ _ _ Hh)) as Ei.
  assert (0 <= len c) by (unfold len; lia).
  destruct (readi_ok s2 [] cur ∅ ip 0 (len c) e) as (s3 & Hread & _); rewrite ?Ei.
  - apply Hh.
  - cbn [length]. by rewrite Nat.add_0_r.
  - by rewrite F3.
  - by apply F8.
  - rewrite F5, Hsz. lia.
  - lia.
  - exists s2, s3. split_and!; [done|by rewrite Ei|]. rewrite Ei, F5, Hsz, Z.sub_0_r, Z.min_id in Hread. rewrite Hread. f_equal. f_equal.
    rewrite <- Hbytes at 2. rewrite <- (ho_inode _ _ _ _ _ _ _ _ _ Hh). done.
Qed.

(** C3: the kernel finds and reads every file that mkfs put into the image.  On a machine
    whose disk has the image and whose inode table is empty, [namei] of a slash and the name of
    the j-th file returns an inode, and after [ilock] of it [readi] returns the contents of
    this file.  Names have to differ in their first 14 bytes, the files have to fit into FSSIZE
    blocks and the entries of the root directory must not fill its last block. *)
Theorem mkfs_boot files m cur s j f e :
  Forall (fun f => chr "/" ∉ f.1) files -> fits (image_files files) ->
  len (root_entries files) mod BSIZE <> 0 -> names_good files -> mkfs_main files = Some m ->
  (forall b, 0 <= b < FSSIZE -> cur (ROOTDEV, b) = mk_image m b) -> (forall b, 0 < b < FSSIZE -> serves ROOTDEV b) ->
  booted cur s -> files !! j = Some f ->
  let c := concat f.2 in
  exists ip s1 s2 s3, namei (chr "/" :: entry_name f) e s = Done (Some ip) e s1 /\ ilock (Some ip) e s1 = Done tt e s2 /\
    inum (inode_of ip s2) = Z.of_nat j + 2 /\ readi ip DKernel 0 (len c) e s2 = Done (len c, c) e s3.
Proof.
  intros Hsl Hfit Hwhole Hg Hmk Hcur Hserve Hb Hj c.
  destruct (mkfs_main_ok files Hsl Hfit) as (m' & own & Hm & Him & Hsb & Hfb & Hbm & Hfs & Hroot). rewrite Hmk in Hm. injection Hm as <-.
  assert (Hcount : (length files <= 199)%nat).
  { destruct Hfit as (_ & _ & Hl). unfold image_files in Hl. cbn [length] in Hl. rewrite length_fmap in Hl. lia. }
  assert (Hfree : mk_freeblock m <= FSSIZE) by (rewrite Hfb; apply Hfit).
  pose proof (booted_names m own cur Him Hfree Hcur Hserve files Hcount Hfs Hroot Hwhole s Hb) as Hn.
  pose proof (walk_image m own cur Him Hfree Hcur files Hcount Hroot Hwhole j f Hg Hj) as Hwalk.
  assert (Hi : 0 <= Z.of_nat j + 2 < 208) by (apply lookup_lt_Some in Hj; lia).
  assert (Helems : elems (chr "/" :: entry_name f) = [entry_name f]).
  { destruct (proj1 (Forall_lookup _ _) (ng_chars _ Hg) j f Hj) as [_ Hne]. apply elems_one; [done|]. apply Forall_forall. intros x Hx ->.
    apply (proj1 (Forall_lookup _ _) Hsl j f Hj). unfold entry_name, image_name in Hx. destruct f.1 as [|a l]; [done|].
    destruct (a =? chr "_"); [by right|done]. }
  destruct (namei_ok cur mkfs_sb (live_inode files) ∅ s (chr "/" :: entry_name f) ROOTINO e Hn) as (r & t & Hrun & Hpost); [reflexivity|].
  rewrite Helems, Hwalk in Hpost. destruct Hpost as (ip & -> & Hat). exists ip, t. destruct (Hfs j f Hj) as (F1 & F2 & F3 & F4).
  pose proof (disk_inode_image m cur Hfree Hcur _ Hi) as Ed. destruct (fi_count _ _ _ _ _ _ _ F4) as (Hk1 & Hk2 & _).
  destruct (lock_and_read cur mkfs_sb (live_inode files) s t ip (Z.of_nat j + 2) c e) as (s2 & s3 & R1 & R2 & R3).
  - apply Hb.
  - apply Hb.
  - apply Hn.
  - exact Hat.
  - apply (file_ok_image m own cur Him Hfree Hcur Hserve s _ _ _ _ Hi F4). rewrite F3. unfold len in *. lia.
  - rewrite Ed. cbn [set_inum set_idev itype]. by rewrite F1.
  - rewrite Ed. exact F3.
  - rewrite (file_bytes_image m own cur Him Hfree Hcur _ _ _ _ 0 (len c) Hi F4) by (unfold c, len in *; lia). by apply lget_all.
  - unfold c, len in *. lia.
  - exists s2, s3. split; [exact Hrun|]. split; [exact R1|]. split; [exact R2|exact R3].
Qed.

End start.

(** * Witnesses *)

#[local] Existing Instance built_symbols.
#[local] Existing Instance bw_driver | 0.
#[local] Existing Instance bw_sync | 0.
#[local] Existing Instance fw_devsw.

(** The image as the contents of the disk. *)
Definition image_disk (m : mkfs_t) : disk_t :=
  mkDisk (list_to_map ((fun b => ((ROOTDEV, b), mk_image m b)) <$> seqZ 0 FSSIZE)) [].

Lemma image_disk_read m b : 0 <= b < FSSIZE -> contents (image_disk m) (ROOTDEV, b) = mk_image m b.
Proof.
  intros Hb. unfold contents, disk_read, image_disk. cbn [dk_blocks fst snd].
  rewrite (elem_of_list_to_map_1 _ _ (mk_image m b)); [done| |].
  - rewrite <- list_fmap_compose. apply NoDup_fmap_2; [|apply NoDup_seqZ]. by intros x y [= ->].
  - apply list_elem_of_fmap. exists b. split; [done|]. by apply elem_of_seqZ.
Qed.

(** A kernel that has started on a disk. *)
Definition mw_boot (d : disk_t) : kernel :=
  set_k_sb mkfs_sb (set_k_icache (replicate 50 zero_inode) (set_lock L_icache (mkLock 0 "icache" None)
    (set_k_disk d (lw_boot 1)))).
Definition mw_state (d : disk_t) : kernel := after_binit (mw_boot d).

Lemma mw_booted d : booted (contents d) (mw_state d).
Proof.
  destruct bw_boot_ok as (H1 & H2 & H3 & H4 & H5).
  destruct (after_binit_cache (mw_boot d) H1 H2 H3 (conj H3 (proj2 H4)) H5) as [Hc [bs E]].
  split; [exact Hc| | | |]; unfold mw_state; rewrite E.
  - split; [by split|]. by eexists.
  - reflexivity.
  - reflexivity.
  - change (Forall unused (replicate 50 zero_inode)). by apply Forall_replicate.
Qed.

Lemma mw_serves b : 0 < b < FSSIZE -> serves ROOTDEV b.
Proof. intros Hb. apply in_built_image. lia. Qed.

Lemma mw_names : names_good mw_files.
Proof.
  split; [|apply (bool_decide_unpack _); vm_compute; exact I].
  repeat constructor; try (apply (bool_decide_unpack _); vm_compute; exact I); vm_compute; discriminate.
Qed.

Lemma mw_whole : len (root_entries mw_files) mod BSIZE <> 0.
Proof. by vm_compute. Qed.

Lemma namei_spec_witness :
  exists m ip t q, mkfs_main mw_files = Some m /\ namei (str "/README") [] (mw_state (image_disk m)) = Done (Some ip) [] t /\
    k_icache t !! ip = Some q /\ in_use ROOTDEV 2 q.
Proof.
  destruct (mkfs_main_ok mw_files mw_no_slash mw_fits) as (m & own & Hm & Him & _ & Hfb & _ & Hfs & Hroot). exists m.
  assert (Hfree : mk_freeblock m <= FSSIZE) by (rewrite Hfb; apply mw_fits).
  assert (Hcount : (length mw_files <= 199)%nat) by (apply Nat.leb_le; reflexivity).
  pose proof (image_disk_read m) as Hcur. set (d := image_disk m) in *. clearbody d.
  pose proof (booted_names m own _ Him Hfree Hcur mw_serves mw_files Hcount Hfs Hroot mw_whole (mw_state d) (mw_booted d)) as Hn.
  pose proof (walk_image m own _ Him Hfree Hcur mw_files Hcount Hroot mw_whole 0 _ mw_names eq_refl) as Hwalk.
  destruct (namei_spec _ _ _ _ (mw_state d) (str "/README") ROOTINO [] Hn eq_refl) as (r & t & Hrun & _ & _ & _ & Hpost).
  change (elems (str "/README")) with [entry_name (str "README", [str "hello "; str "world"])] in Hpost. rewrite Hwalk in Hpost.
  destruct Hpost as (ip & q & Hr & Hq & Hu & _). rewrite Hr in Hrun. exists ip, t, q.
  split; [exact Hm|]. split; [exact Hrun|]. split; [exact Hq|exact Hu].
Defined.

(** The second file of [mw_files]. *)
Lemma mkfs_boot_witness :
  exists m ip s1 s2 s3, mkfs_main mw_files = Some m /\ namei (str "/init") [] (mw_state (image_disk m)) = Done (Some ip) [] s1 /\
    ilock (Some ip) [] s1 = Done tt [] s2 /\ readi ip DKernel 0 700 [] s2 = Done (700, replicate 700 7) [] s3.
Proof.
  destruct (mkfs_main_ok mw_files mw_no_slash mw_fits) as (m & _ & Hm & _). exists m.
  destruct (mkfs_boot mw_files m (contents (image_disk m)) (mw_state (image_disk m)) 1 (str "_init", [replicate 700 7]) []
    mw_no_slash mw_fits mw_whole mw_names Hm (image_disk_read m) mw_serves (mw_booted (image_disk m)) eq_refl)
    as (ip & s1 & s2 & s3 & H1 & H2 & _ & H3).
  exists ip, s1, s2, s3. split; [exact Hm|]. split; [exact H1|]. split; [exact H2|]. exact H3.
Defined.
