(* ===== verification/ConsoleIn.v ===== *)
(** console.c, input half: the line editor [consoleintr], and the console device
    that [devsw] gives to [readi] and [writei]. *)

From S2P Require Import Prelude Params Mem State Spinlock Console Kalloc Vm Proc Ide Bio Log Umem Fs.

Section console_in.
Context `{Symbols} `{Driver}.

Definition INPUT_BUF : Z := 128.
Definition CONSOLE : Z := 1.

(** [C(x)]: Control-x. *)
Definition ctl (x : Z) : Z := x - chr "@".

Definition on_input (f : input_t -> input_t) (s : kernel) : kernel := set_k_input (f (k_input s)) s.
Definition in_get {A} (f : input_t -> A) : K A := get (fun s => f (k_input s)).

(** [input.buf[i % INPUT_BUF]] *)
Definition in_char (i : Z) (b : input_t) : Z := lget (ibuf b) (Z.to_nat (u32 i mod INPUT_BUF)).

(** [input.buf[input.e++ % INPUT_BUF] = c] *)
Definition in_put (c : Z) (b : input_t) : input_t :=
  set_input_e (u32 (input_e b + 1))
    (set_ibuf (<[Z.to_nat (input_e b mod INPUT_BUF) := u8 c]> (ibuf b)) b).

(** [while(input.e != input.w && input.buf[(input.e-1) % INPUT_BUF] != '\n')] *)
Definition kill_line : K unit :=
  b ← get k_input;
  loop (S (Z.to_nat (u32 (input_e b - input_w b)))) (fun _ : unit =>
    b ← get k_input;
    if negb (input_e b =? input_w b) && negb (in_char (input_e b - 1) b =? 10) then
      modify (on_input (set_input_e (u32 (input_e b - 1))));;
      consputc BACKSPACE;;
      mret (inl tt)
    else mret (inr tt)) tt.

(** One character from the keyboard or the serial line; tells whether a process
    listing was asked for. *)
Definition console_char (c : Z) : K bool :=
  if c =? ctl (chr "P") then mret true
  else if c =? ctl (chr "U") then kill_line;; mret false
  else if (c =? ctl (chr "H")) || (c =? 0x7f) then
    b ← get k_input;
    when (negb (input_e b =? input_w b)) (
      modify (on_input (set_input_e (u32 (input_e b - 1))));;
      consputc BACKSPACE);;
    mret false
  else
    b ← get k_input;
    when (negb (c =? 0) && (u32 (input_e b - input_r b) <? INPUT_BUF)) (
      let c := if c =? 13 then 10 else c in
      modify (on_input (in_put c));;
      consputc c;;
      b ← get k_input;
      when ((c =? 10) || (c =? ctl (chr "D")) ||
            (input_e b =? u32 (input_r b + INPUT_BUF))) (
        modify (on_input (fun b => set_input_w (input_e b) b));;
        wakeup CH_input));;
    mret false.

(** [cs]: the characters [getc] returns before a negative value. *)
Definition consoleintr (cs : list Z) : K unit :=
  acquire L_cons;;
  dump ← for_fold cs (fun c dump => d ← console_char c; mret (dump || d)) false;
  release L_cons;;
  when dump procdump.

(** Read a line, or what is left of it.  The result counts the bytes stored. *)
Definition consoleread (ip : nat) (dst : dest) (n : Z) : K (Z * list Z) :=
  iunlock (Some ip);;
  let target := n in
  acquire L_cons;;
  r ← loop (S (Z.to_nat n)) (fun '(n, acc) =>
    if negb (0 <? n) then mret (inr (Some (n, acc)))
    else
      w ← loop_env (fun _ : unit =>
        b ← get k_input;
        if negb (input_r b =? input_w b) then mret (inr true)
        else
          cur ← myproc;
          kd ← pget cur killed;
          if cbool kd then mret (inr false)
          else sleep CH_input (Some L_cons);; mret (inl tt)) tt;
      if negb w then release L_cons;; ilock (Some ip);; mret (inr None)
      else
        b ← get k_input;
        let c := in_char (input_r b) b in
        modify (on_input (set_input_r (u32 (input_r b + 1))));;
        if c =? ctl (chr "D") then
          when (n <? target) (
            modify (on_input (fun b => set_input_r (u32 (input_r b - 1)) b)));;
          mret (inr (Some (n, acc)))
        else
          put_bytes dst (target - n) [c];;
          if c =? 10 then mret (inr (Some (n - 1, acc ++ [c])))
          else mret (inl (n - 1, acc ++ [c]))) (n, []);
  match r with
  | None => mret (-1, [])
  | Some (n, acc) =>
      release L_cons;;
      ilock (Some ip);;
      mret (target - n, acc)
  end.

Definition consolewrite (ip : nat) (src : source) (n : Z) : K Z :=
  iunlock (Some ip);;
  acquire L_cons;;
  for_each (seqZ 0 n) (fun i =>
    bs ← get_bytes src i 1;
    consputc (Z.land (lget bs 0) 0xff);;
    mret (None : option unit));;
  release L_cons;;
  ilock (Some ip);;
  mret n.

Definition consoleinit : K unit :=
  initlock L_cons "console";;
  modify (fun s => set_k_devsw (<[Z.to_nat CONSOLE := true]> (k_devsw s)) s);;
  modify (on_cons (set_locking 1)).

(** The console is the only device of [devsw]; [int n] is the signed reading of the
    count. *)
Definition console_devsw : DevSw := {|
  dev_read := fun major ip d n =>
    if major =? CONSOLE then consoleread ip d (s32 n) else hang;
  dev_write := fun major ip src n =>
    if major =? CONSOLE then consolewrite ip src (s32 n) else hang
|}.

End console_in.
