(* ===== verification/Kbd.v ===== *)
(** kbd.c, kbd.h: from keyboard scan codes to characters.

    [kbd_data] is what [kbdgetc] does with one byte of the controller: the new value
    of its static variable [shift] and the value it returns.  Entries of the tables
    that kbd.h does not mention are zero. *)

From S2P Require Import Prelude.

Definition SHIFT : Z := 0x1.
Definition CTL : Z := 0x2.
Definition ALT : Z := 0x4.
Definition CAPSLOCK : Z := 0x8.
Definition NUMLOCK : Z := 0x10.
Definition SCROLLLOCK : Z := 0x20.
Definition E0ESC : Z := 0x40.

(** A table given by its non-zero entries. *)
Definition table (l : list (Z * Z)) (i : Z) : Z :=
  match find (fun x => x.1 =? i) l with Some x => x.2 | None => 0 end.

Definition shiftcode : Z -> Z :=
  table [(0x1D, CTL); (0x2A, SHIFT); (0x36, SHIFT); (0x38, ALT); (0x9D, CTL); (0xB8, ALT)].

Definition togglecode : Z -> Z :=
  table [(0x3A, CAPSLOCK); (0x45, NUMLOCK); (0x46, SCROLLLOCK)].

Definition normalmap_low : list Z :=
  [0; 27; 49; 50; 51; 52; 53; 54; 55; 56; 57; 48; 45; 61; 8; 9;
   113; 119; 101; 114; 116; 121; 117; 105; 111; 112; 91; 93; 10; 0; 97; 115;
   100; 102; 103; 104; 106; 107; 108; 59; 39; 96; 0; 92; 122; 120; 99; 118;
   98; 110; 109; 44; 46; 47; 0; 42; 0; 32; 0; 0; 0; 0; 0; 0;
   0; 0; 0; 0; 0; 0; 0; 55; 56; 57; 45; 52; 53; 54; 43; 49;
   50; 51; 48; 46].
Definition normalmap (i : Z) : Z :=
  if i <? 84 then nth (Z.to_nat i) normalmap_low 0
  else table [(0x97, 0xE0); (0x9C, 0xA); (0xB5, 0x2F); (0xC8, 0xE2); (0xC9, 0xE6);
    (0xCB, 0xE4); (0xCD, 0xE5); (0xCF, 0xE1); (0xD0, 0xE3);
    (0xD1, 0xE7); (0xD2, 0xE8); (0xD3, 0xE9)] i.

Definition shiftmap_low : list Z :=
  [0; 27; 33; 64; 35; 36; 37; 94; 38; 42; 40; 41; 95; 43; 8; 9;
   81; 87; 69; 82; 84; 89; 85; 73; 79; 80; 123; 125; 10; 0; 65; 83;
   68; 70; 71; 72; 74; 75; 76; 58; 34; 126; 0; 124; 90; 88; 67; 86;
   66; 78; 77; 60; 62; 63; 0; 42; 0; 32; 0; 0; 0; 0; 0; 0;
   0; 0; 0; 0; 0; 0; 0; 55; 56; 57; 45; 52; 53; 54; 43; 49;
   50; 51; 48; 46].
Definition shiftmap (i : Z) : Z :=
  if i <? 84 then nth (Z.to_nat i) shiftmap_low 0
  else table [(0x97, 0xE0); (0x9C, 0xA); (0xB5, 0x2F); (0xC8, 0xE2); (0xC9, 0xE6);
    (0xCB, 0xE4); (0xCD, 0xE5); (0xCF, 0xE1); (0xD0, 0xE3);
    (0xD1, 0xE7); (0xD2, 0xE8); (0xD3, 0xE9)] i.

Definition ctlmap_low : list Z :=
  [0; 0; 0; 0; 0; 0; 0; 0; 0; 0; 0; 0; 0; 0; 0; 0;
   17; 23; 5; 18; 20; 25; 21; 9; 15; 16; 0; 0; 13; 0; 1; 19;
   4; 6; 7; 8; 10; 11; 12; 0; 0; 0; 0; 28; 26; 24; 3; 22;
   2; 14; 13; 0; 0; 239].
Definition ctlmap (i : Z) : Z :=
  if i <? 54 then nth (Z.to_nat i) ctlmap_low 0
  else table [(0x97, 0xE0); (0x9C, 0xD); (0xB5, 0xEF); (0xC8, 0xE2); (0xC9, 0xE6);
    (0xCB, 0xE4); (0xCD, 0xE5); (0xCF, 0xE1); (0xD0, 0xE3);
    (0xD1, 0xE7); (0xD2, 0xE8); (0xD3, 0xE9)] i.

Definition charcode (k : Z) : Z -> Z :=
  if k =? 0 then normalmap else if k =? 1 then shiftmap else ctlmap.

Definition kbd_data (shift data : Z) : Z * Z :=
  if data =? 0xE0 then (Z.lor shift E0ESC, 0)
  else if cbool (Z.land data 0x80) then
    let data := if cbool (Z.land shift E0ESC) then data else Z.land data 0x7F in
    (Z.land shift (Z.lnot (Z.lor (shiftcode data) E0ESC)), 0)
  else
    let '(shift, data) :=
      if cbool (Z.land shift E0ESC)
      then (Z.land shift (Z.lnot E0ESC), Z.lor data 0x80)
      else (shift, data) in
    let shift := Z.lor shift (shiftcode data) in
    let shift := Z.lxor shift (togglecode data) in
    let c := charcode (Z.land shift (Z.lor CTL SHIFT)) data in
    let c :=
      if cbool (Z.land shift CAPSLOCK) then
        if (chr "a" <=? c) && (c <=? chr "z") then c + (chr "A" - chr "a")
        else if (chr "A" <=? c) && (c <=? chr "Z") then c + (chr "a" - chr "A")
        else c
      else c in
    (shift, c).

(** The characters of a sequence of scan codes: what the loop of [consoleintr] sees
    while the controller has data. *)
Fixpoint kbd_chars (shift : Z) (codes : list Z) : Z * list Z :=
  match codes with
  | [] => (shift, [])
  | d :: codes' =>
      let '(shift, c) := kbd_data shift d in
      let '(shift, cs) := kbd_chars shift codes' in
      (shift, c :: cs)
  end.
