(* ===== verification/Pipe.v ===== *)
(** pipe.c: pipes, and file.c: open files.

    A [struct pipe] lives in a page of its own; it is the entry of [k_pipes] for the
    address of the page.  [nread] and [nwrite] count bytes modulo 2^32. *)

From S2P Require Import Prelude Params Mem State Spinlock Console Kalloc Vm Proc Ide Bio Log Umem Fs.

Section pipe.
Context `{Symbols}.

Definition PIPESIZE : Z := 512.

Definition zero_pipe : pipe_t := mkPipe (replicate (Z.to_nat PIPESIZE) 0) 0 0 0 0.
Definition pipe_of (p : Z) (s : kernel) : pipe_t := default zero_pipe (k_pipes s !! p).
Definition on_pipe (p : Z) (f : pipe_t -> pipe_t) (s : kernel) : kernel :=
  set_k_pipes (<[p := f (pipe_of p s)]> (k_pipes s)) s.
Definition pipe_get {A} (p : Z) (f : pipe_t -> A) : K A := get (fun s => f (pipe_of p s)).
Definition pipe_set (p : Z) (f : pipe_t -> pipe_t) : K unit := modify (on_pipe p f).

Definition pipeclose (p writable : Z) : K unit :=
  acquire (L_pipe p);;
  (if cbool writable then
     pipe_set p (set_writeopen 0);;
     wakeup (CH_nread p)
   else
     pipe_set p (set_readopen 0);;
     wakeup (CH_nwrite p));;
  q ← get (pipe_of p);
  if (readopen q =? 0) && (writeopen q =? 0) then
    release (L_pipe p);;
    modify (fun s => set_k_pipes (delete p (k_pipes s)) s);;
    kfree p
  else release (L_pipe p).

(** [p->data[p->nwrite++ % PIPESIZE] = c] *)
Definition pipe_put (c : Z) (q : pipe_t) : pipe_t :=
  set_nwrite (u32 (nwrite q + 1))
    (set_pdata (<[Z.to_nat (nwrite q mod PIPESIZE) := c]> (pdata q)) q).

Definition pipe_full (q : pipe_t) : bool := nwrite q =? u32 (nread q + PIPESIZE).
Definition pipe_empty (q : pipe_t) : bool := nread q =? nwrite q.

(** [c = p->data[p->nread++ % PIPESIZE]] *)
Definition pipe_peek (q : pipe_t) : Z := lget (pdata q) (Z.to_nat (nread q mod PIPESIZE)).
Definition pipe_next (q : pipe_t) : pipe_t := set_nread (u32 (nread q + 1)) q.

(** One round of the loop that waits for room: [inr false] when there is no reader or the
    process is killed. *)
Definition wait_room (a : Z) (_ : unit) : K (unit + bool) :=
  q ← get (pipe_of a);
  if negb (pipe_full q) then mret (inr true)
  else
    cur ← myproc;
    kd ← pget cur killed;
    if (readopen q =? 0) || cbool kd then mret (inr false)
    else
      wakeup (CH_nread a);;
      sleep (CH_nwrite a) (Some (L_pipe a));;
      mret (inl tt).

(** Write [n] bytes at [addr]: wait while the pipe is full; give up when there is no
    reader. *)
Definition pipewrite (p addr n : Z) : K Z :=
  acquire (L_pipe p);;
  r ← for_each (seqZ 0 n) (fun i =>
    w ← loop_env (wait_room p) tt;
    if (w : bool) then
      c ← uld8 (u32 (addr + i));
      pipe_set p (pipe_put c);;
      mret None
    else
      release (L_pipe p);;
      mret (Some (-1)));
  match r with
  | Some r => mret r
  | None =>
      wakeup (CH_nread p);;
      release (L_pipe p);;
      mret n
  end.

(** One round of the loop that waits for data: [inr false] when the process is killed. *)
Definition wait_data (a : Z) (_ : unit) : K (unit + bool) :=
  q ← get (pipe_of a);
  if negb (pipe_empty q && cbool (writeopen q)) then mret (inr true)
  else
    cur ← myproc;
    kd ← pget cur killed;
    if cbool kd then mret (inr false)
    else
      sleep (CH_nread a) (Some (L_pipe a));;
      mret (inl tt).

(** Read at most [n] bytes to [addr]: wait while the pipe is empty and can still be
    written to. *)
Definition piperead (p addr n : Z) : K Z :=
  acquire (L_pipe p);;
  w ← loop_env (wait_data p) tt;
  if negb w then release (L_pipe p);; mret (-1)
  else
    r ← for_each (seqZ 0 n) (fun i =>
      q ← get (pipe_of p);
      if pipe_empty q then mret (Some i)
      else
        pipe_set p pipe_next;;
        ust8 (u32 (addr + i)) (pipe_peek q);;
        mret None);
    wakeup (CH_nwrite p);;
    release (L_pipe p);;
    mret (match r with Some i => i | None => Z.max 0 n end).

End pipe.

(** ** file.c *)

Section file.
Context `{Symbols} `{Driver} `{DevSw}.

Definition file_of (f : nat) (s : kernel) : file_t := default zero_file (k_ftable s !! f).
Definition on_file (f : nat) (g : file_t -> file_t) (s : kernel) : kernel :=
  set_k_ftable (alter g f (k_ftable s)) s.
Definition fget {A} (f : nat) (g : file_t -> A) : K A := get (fun s => g (file_of f s)).
Definition fset (f : nat) (g : file_t -> file_t) : K unit := modify (on_file f g).

Definition fileinit : K unit := initlock L_ftable "ftable".

(** Allocate a file structure. *)
Definition filealloc : K (option nat) :=
  acquire L_ftable;;
  r ← for_each (seq 0 (Z.to_nat NFILE)) (fun f =>
    r ← fget f fref;
    if r =? 0 then
      fset f (set_fref 1);;
      release L_ftable;;
      mret (Some f)
    else mret None);
  match r with
  | Some f => mret (Some f)
  | None => release L_ftable;; mret None
  end.

(** Increment ref count for file f. *)
Definition filedup (f : nat) : K nat :=
  acquire L_ftable;;
  r ← fget f fref;
  if r <? 1 then panic "filedup" else
  fset f (fun q => set_fref (fref q + 1) q);;
  release L_ftable;;
  mret f.

(** Close file f.  (Decrement ref count, close when reaches 0.) *)
Definition fileclose (f : nat) : K unit :=
  acquire L_ftable;;
  r ← fget f fref;
  if r <? 1 then panic "fileclose" else
  fset f (fun q => set_fref (fref q - 1) q);;
  ff ← get (file_of f);
  if 0 <? fref ff then release L_ftable
  else
    fset f (set_fref 0);;
    fset f (set_ftype FD_NONE);;
    release L_ftable;;
    match ftype ff with
    | FD_PIPE => pipeclose (fpipe ff) (writable ff)
    | FD_INODE =>
        begin_op;;
        match fip ff with Some ip => iput ip | None => hang end;;
        end_op
    | FD_NONE => mret tt
    end.

(** Fields of [struct stat] at a user address. *)
Definition ust16 (va v : Z) : K unit := uwrite va [v mod 256; u16 v / 256].
Definition ust32 (va v : Z) : K unit :=
  uwrite va [u32 v mod 256; u32 v / 256 mod 256; u32 v / 65536 mod 256; u32 v / 16777216].

(** Get metadata about file f. *)
Definition filestat (f : nat) (st : Z) : K Z :=
  q ← get (file_of f);
  match ftype q with
  | FD_INODE =>
      ilock (fip q);;
      match fip q with
      | None => hang
      | Some ip =>
          x ← stati ip;
          ust32 (u32 (st + 4)) (st_dev x);;
          ust32 (u32 (st + 8)) (st_ino x);;
          ust16 st (st_type x);;
          ust16 (u32 (st + 12)) (st_nlink x);;
          ust32 (u32 (st + 16)) (st_size x)
      end;;
      iunlock (fip q);;
      mret 0
  | _ => mret (-1)
  end.

(** Read from file f. *)
Definition fileread (f : nat) (addr n : Z) : K Z :=
  q ← get (file_of f);
  if readable q =? 0 then mret (-1) else
  match ftype q with
  | FD_PIPE => piperead (fpipe q) addr n
  | FD_INODE =>
      ilock (fip q);;
      match fip q with
      | None => hang
      | Some ip =>
          r ← readi ip (DUser addr) (foff q) (u32 n);
          when (0 <? r.1) (fset f (fun q => set_foff (u32 (foff q + r.1)) q));;
          iunlock (Some ip);;
          mret r.1
      end
  | FD_NONE => panic "fileread"
  end.

(** Write to file f, a few blocks at a time. *)
Definition filewrite (f : nat) (addr n : Z) : K Z :=
  q ← get (file_of f);
  if writable q =? 0 then mret (-1) else
  match ftype q with
  | FD_PIPE => pipewrite (fpipe q) addr n
  | FD_INODE =>
      let max := ((LOGSIZE - 1 - 1 - 2) / 2) * 512 in
      match fip q with
      | None => hang
      | Some ip =>
          i ← loop (Z.to_nat (n / max + 2)) (fun i =>
            if negb (i <? n) then mret (inr i)
            else
              let n1 := if max <? n - i then max else n - i in
              begin_op;;
              ilock (Some ip);;
              off ← fget f foff;
              r ← writei ip (SUser (u32 (addr + i))) off n1;
              when (0 <? r) (fset f (fun q => set_foff (u32 (foff q + r)) q));;
              iunlock (Some ip);;
              end_op;;
              if r <? 0 then mret (inr i)
              else if negb (r =? n1) then panic "short filewrite"
              else mret (inl (i + r))) 0;
          mret (if i =? n then n else -1)
      end
  | FD_NONE => panic "filewrite"
  end.

(** pipe.c: two files for the two ends of a new pipe. *)
Definition pipealloc : K (option (nat * nat)) :=
  let bad (f0 f1 : option nat) : K (option (nat * nat)) :=
    match f0 with Some f0 => fileclose f0 | None => mret tt end;;
    match f1 with Some f1 => fileclose f1 | None => mret tt end;;
    mret None in
  f0 ← filealloc;
  match f0 with
  | None => bad None None
  | Some a =>
      f1 ← filealloc;
      match f1 with
      | None => bad f0 None
      | Some b =>
          p ← kalloc;
          if p =? 0 then bad f0 f1
          else
            pipe_set p (set_readopen 1);;
            pipe_set p (set_writeopen 1);;
            pipe_set p (set_nwrite 0);;
            pipe_set p (set_nread 0);;
            initlock (L_pipe p) "pipe";;
            fset a (set_ftype FD_PIPE);;
            fset a (set_readable 1);;
            fset a (set_writable 0);;
            fset a (set_fpipe p);;
            fset b (set_ftype FD_PIPE);;
            fset b (set_readable 0);;
            fset b (set_writable 1);;
            fset b (set_fpipe p);;
            mret (Some (a, b))
      end
  end.

End file.
