(* ===== verification/PipeSpec.v ===== *)
(** A pipe is a first-in first-out queue of bytes, whatever the readers and writers do
    while somebody sleeps. *)

From S2P Require Import Prelude Params Mem State Spinlock Console Kalloc Vm VmTables VmSpace VmAlloc.
From S2P Require Import VmCopy Proc ProcSpec Ide Bio Log Umem UmemSpec Fs Pipe.

(** * The ring buffer *)

(** The bytes between [nread] and [nwrite], in the order they were written.  The two
    counters wrap around at 2^32, which the size of the buffer divides. *)
Record pipe_rep (q : pipe_t) (l : list Z) : Prop := {
  pr_size : Z.of_nat (length (pdata q)) = PIPESIZE;
  pr_nread : 0 <= nread q < 4294967296;
  pr_len : Z.of_nat (length l) <= PIPESIZE;
  pr_nwrite : nwrite q = u32 (nread q + Z.of_nat (length l));
  pr_data : forall k x, l !! k = Some x ->
    pdata q !! Z.to_nat ((nread q + Z.of_nat k) mod PIPESIZE) = Some x
}.

Lemma u32_mod_pipe x : u32 x mod PIPESIZE = x mod PIPESIZE.
Proof. unfold u32, PIPESIZE. mlia. Qed.

Lemma pipe_rep_full q l : pipe_rep q l -> pipe_full q = (Z.of_nat (length l) =? PIPESIZE).
Proof.
  intros [_ Hr Hl Hw _]. unfold pipe_full. rewrite Hw. unfold u32, PIPESIZE in *.
  destruct (Z.of_nat (length l) =? 512) eqn:E.
  - apply Z.eqb_eq in E. rewrite E. by apply Z.eqb_refl.
  - apply Z.eqb_neq in E. apply Z.eqb_neq. mlia.
Qed.

Lemma pipe_rep_empty q l : pipe_rep q l -> pipe_empty q = bool_decide (l = []).
Proof.
  intros [_ Hr Hl Hw _]. unfold pipe_empty. rewrite Hw. unfold u32, PIPESIZE in *.
  case_bool_decide as E; [subst; apply Z.eqb_eq; simpl; mlia|].
  destruct l; [done|]. simpl in *. apply Z.eqb_neq. mlia.
Qed.

Lemma pipe_rep_put q l c :
  pipe_rep q l -> Z.of_nat (length l) < PIPESIZE -> pipe_rep (pipe_put c q) (l ++ [c]).
Proof.
  intros [Hs Hr Hl Hw Hd] Hlt. unfold pipe_put.
  split; simpl; rewrite ?length_insert, ?length_app; simpl; [done|done|lia| |].
  - rewrite Hw. unfold u32. rewrite Zplus_mod_idemp_l. f_equal. lia.
  - intros k x Hk. rewrite Hw, u32_mod_pipe. unfold PIPESIZE in *.
    apply lookup_app_Some in Hk as [Hk|[Hk1 Hk2]].
    + pose proof (lookup_lt_Some _ _ _ Hk). rewrite list_lookup_insert_ne by mlia. by apply Hd.
    + destruct (k - length l)%nat as [|j] eqn:E; [|by destruct j]. injection Hk2 as <-.
      assert (k = length l) as -> by lia. apply list_lookup_insert_eq. mlia.
Qed.

Lemma pipe_rep_next q x l : pipe_rep q (x :: l) -> pipe_peek q = x /\ pipe_rep (pipe_next q) l.
Proof.
  intros [Hs Hr Hl Hw Hd]. split.
  - unfold pipe_peek, lget. specialize (Hd 0%nat x eq_refl). rewrite Z.add_0_r in Hd.
    rewrite nth_lookup. by rewrite Hd.
  - simpl in Hl. unfold pipe_next.
    split; simpl; [done|apply u32_range|lia| |].
    + rewrite Hw. unfold u32. rewrite Zplus_mod_idemp_l. f_equal. simpl. lia.
    + intros k y Hk. specialize (Hd (S k) y Hk). rewrite <- Hd. do 2 f_equal.
      unfold u32, PIPESIZE. mlia.
Qed.

(** The buffer and the counters determine the contents. *)
Lemma pipe_rep_fun q l l' : pipe_rep q l -> pipe_rep q l' -> l' = l.
Proof.
  intros [_ Hr Hl Hw Hd] [_ _ Hl' Hw' Hd'].
  assert (Hlen : length l' = length l) by (unfold u32, PIPESIZE in *; mlia).
  apply list_eq_same_length with (length l); [done|done|]. intros i x y _ Hx Hy.
  specialize (Hd i y Hy). specialize (Hd' i x Hx). congruence.
Qed.

Section spec.
Context `{Symbols} {Hsym : SymbolsOk}.

(** * Using a pipe *)

(** Process [p] is about to use the pipe at [a]: nobody holds the locks. *)
Record party (p : nat) (pd a : Z) (s : kernel) : Prop := {
  pa_proc : user_proc p pd s;
  pa_run : running p s;
  pa_pipe : unlocked (L_pipe a) s;
  pa_ptable : unlocked L_ptable s;
  pa_inv : exists fl, uvm_inv s pd fl
}.

Definition holds (a : Z) (s : kernel) (l : list Z) : Prop := pipe_rep (pipe_of a s) l.

(** The user memory behind [pd] is the same. *)
Definition same_user (pd : Z) (s s' : kernel) : Prop :=
  forall va, user va -> pte_of (k_mem s') pd va = pte_of (k_mem s) pd va /\
    (present (pte_of (k_mem s) pd va) = true -> ubyte (k_mem s') pd va = ubyte (k_mem s) pd va).

Lemma same_user_refl pd s : same_user pd s s.
Proof. by split. Qed.

Lemma same_user_trans pd s1 s2 s3 : same_user pd s1 s2 -> same_user pd s2 s3 -> same_user pd s1 s3.
Proof.
  intros H1 H2 va Hva. destruct (H1 va Hva) as [E1 B1], (H2 va Hva) as [E2 B2]. split; [congruence|].
  intros Hp. rewrite B2 by congruence. by apply B1.
Qed.

Lemma party_ready p pd a s : party p pd a s -> ready (L_pipe a) s /\ ready L_ptable s.
Proof. by intros [_ (_ & _ & ?) ? ? _]. Qed.

(** The address space does not depend on the other variables of the kernel. *)
Lemma uvm_inv_ext s s' pd l :
  k_mem s' = k_mem s -> k_kmem s' = k_kmem s -> k_free_frame_cnt s' = k_free_frame_cnt s ->
  k_cpu s' = k_cpu s -> k_locks s' = k_locks s -> uvm_inv s pd l -> uvm_inv s' pd l.
Proof.
  intros E1 E2 E3 E4 E5 [[Hf Hwf Hsep Hr] Hfr Hinj].
  assert (Hf' : free_rep s' l) by (eapply free_rep_ext, Hf; congruence).
  assert (Hr' : kmem_ready s').
  { unfold kmem_ready, ready, irq_ok, unlocked in *. by rewrite E2, E4, E5. }
  split; [split|..]; rewrite ?E1; done.
Qed.

Lemma party_on_proc p pd a i f s :
  (forall q, pgdir (f q) = pgdir q) -> party p pd a s -> party p pd a (on_proc i f s).
Proof.
  intros Hf [[H1 H2 H3 H4 H5 H6] Hr Hl Ht [fl Hu]].
  split; [|done..|exists fl; by eapply uvm_inv_ext, Hu].
  split; [done|done|by apply ptable_ok_on_proc| |done|done].
  destruct (decide (i = p)) as [->|Hne].
  - by rewrite proc_of_on_proc, Hf.
  - by rewrite proc_of_on_proc_ne.
Qed.

Lemma party_woken p pd a ch s : party p pd a s -> party p pd a (woken ch s).
Proof.
  intros [[H1 H2 H3 H4 H5 H6] Hr Hl Ht [fl Hu]].
  split; [|done..|exists fl; by eapply uvm_inv_ext, Hu].
  split; [done|done| | |done|done].
  - unfold ptable_ok, woken. simpl. by rewrite length_fmap.
  - unfold woken, proc_of. simpl. rewrite list_lookup_fmap, lookup_proc_of by done. simpl.
    rewrite <- H4. unfold wake. by destruct (_ && _).
Qed.

Lemma party_acquired p pd a s : party p pd a s -> user_proc p pd (acquired (L_pipe a) s).
Proof.
  intros [[H1 H2 H3 H4 H5 [Hk Hc]] (_ & _ & Hirq) _ _ _]. split; try done. split; [done|].
  intros Hl. apply ready_acquired; [done|by apply Hc].
Qed.

Lemma party_pipes p pd a ps s : party p pd a s -> party p pd a (set_k_pipes ps s).
Proof.
  intros [[] ? ? ? [fl Hu]]. split; [by split|done..|exists fl; by eapply uvm_inv_ext, Hu].
Qed.

Lemma wakeup_party p pd a ch e s :
  party p pd a s ->
  wakeup ch e (acquired (L_pipe a) s) = Done tt e (acquired (L_pipe a) (woken (Some ch) s)).
Proof.
  intros Hp. rewrite wakeup_eq; [done|apply ready_acquired; [done|]|apply Hp].
  by eapply party_ready.
Qed.

(** What the others may do to the pipe at [a] while [p] sleeps: take [R] from the bytes it
    held to the bytes it holds.  They leave the memory of the process alone. *)
Definition others_do (R : list Z -> list Z -> Prop) (p : nat) (pd a : Z) (f : kernel -> kernel) : Prop :=
  forall s l, party p pd a s -> holds a s l ->
    exists s2 l2, f (acquired L_ptable s) = acquired L_ptable s2 /\ party p pd a s2 /\
      ifl (k_cpu s2) = ifl (k_cpu s) /\ holds a s2 l2 /\ R l l2 /\ same_user pd s s2.

(** Sleeping with the pipe locked. *)
Lemma wpb_pipe_sleep (B : Prop) p pd a ch (Q : unit -> env kernel -> kernel -> Prop) e s l :
  party p pd a s -> holds a s l ->
  (forall f e', e = f :: e' -> exists R, others_do R p pd a f /\
     forall s2 l2, party p pd a s2 -> holds a s2 l2 -> R l l2 -> same_user pd s s2 -> Q tt e' (acquired (L_pipe a) s2)) ->
  B ->
  wpb B (sleep ch (Some (L_pipe a))) Q e (acquired (L_pipe a) s).
Proof.
  intros Hp Hl HQ HB. pose proof (party_ready _ _ _ _ Hp) as [Hrp Hrt].
  apply (wpb_sleep _ p); [done|apply Hp|apply Hp|apply Hp|done|done| |done].
  intros f e' He. destruct (HQ f e' He) as (R & Hf & HQ').
  destruct (Hf (on_proc p (go_to_sleep ch) s) l) as (s2 & l2 & Heq & Hp2 & Hi & Hh & HR & Hm).
  { by apply party_on_proc. }
  { exact Hl. }
  exists s2. pose proof (party_ready _ _ _ _ Hp2) as [? ?]. split_and!; try done; [apply Hp2|].
  apply (HQ' _ l2); try done. by apply party_on_proc.
Qed.

(** ** pipewrite *)

(** What others do while the writer sleeps: a step takes [t] bytes out of the pipe. *)
Definition takes (t : nat) (l l2 : list Z) : Prop := l2 = drop t l.
Definition reader (p : nat) (pd a : Z) (t : nat) (f : kernel -> kernel) : Prop :=
  Z.of_nat t <= PIPESIZE /\ others_do (takes t) p pd a f.

(** The first [m] steps of [e] have run; what they took, [ts] says. *)
Definition taken_by (ts : list nat) (m : nat) : nat := sum_list (take m ts).

Lemma taken_next ts m t : ts !! m = Some t -> taken_by ts (S m) = (taken_by ts m + t)%nat.
Proof.
  intros Ht. unfold taken_by. rewrite (take_S_r _ _ t) by done. rewrite sum_list_with_app. simpl. lia.
Qed.

(** The pipe holds what the readers have left of [l]. *)
Definition left_of (a : Z) (e : env kernel) (ts : list nat) (l : list Z) (e' : env kernel) (s : kernel) : Prop :=
  exists m, (m <= length e)%nat /\ e' = drop m e /\ (taken_by ts m <= length l)%nat /\ holds a s (drop (taken_by ts m) l).

(** The writer gives up when there is no reader, or when it was killed. *)
Definition no_use (p : nat) (a : Z) (s : kernel) : Prop := readopen (pipe_of a s) = 0 \/ killed (proc_of p s) <> 0.

Lemma wpb_wait_room (B : Prop) p pd a e ts l e1 s :
  Forall2 (reader p pd a) ts e ->
  (forall m, holds a s (drop (taken_by ts m) l) -> Z.of_nat (length l) - Z.of_nat (taken_by ts m) = PIPESIZE -> B) ->
  party p pd a s -> left_of a e ts l e1 s ->
  wpb B (loop_env (wait_room a) tt) (fun r e' s' => exists s2, s' = acquired (L_pipe a) s2 /\ party p pd a s2 /\
      left_of a e ts l e' s2 /\ same_user pd s s2 /\
      if (r : bool) then pipe_full (pipe_of a s2) = false else no_use p a s2 /\ pipe_full (pipe_of a s2) = true /\ B)
    e1 (acquired (L_pipe a) s).
Proof.
  intros Hts HB Hp Hl.
  apply (wpb_loop_env _ (fun _ e' s' => exists s2, s' = acquired (L_pipe a) s2 /\ party p pd a s2 /\
      left_of a e ts l e' s2 /\ same_user pd s s2 /\ (s2 = s \/ B))).
  { exists s. split_and!; [done..|apply same_user_refl|by left]. }
  clear e1 Hl. intros [] e1 s' (s1 & -> & Hp1 & Hl & Hm & Hb). unfold wait_room.
  apply wpb_bind. eapply wpb_intro; [done|].
  change (pipe_of a (acquired (L_pipe a) s1)) with (pipe_of a s1).
  destruct (pipe_full (pipe_of a s1)) eqn:Ef; cbn [negb]; [|by exists s1].
  pose proof Hl as (m & Hml & -> & Hle & Hh). pose proof Ef as Efull. rewrite (pipe_rep_full _ _ Hh), Z.eqb_eq, length_drop in Efull.
  assert (HB' : B). { destruct Hb as [->|]; [|done]. apply (HB m); [done|lia]. }
  apply wpb_bind. eapply wpb_intro; [by apply myproc_eq, Hp1|].
  apply wpb_bind. eapply wpb_intro; [done|].
  destruct (_ || _) eqn:Eu.
  { exists s1. split_and!; try done. apply orb_true_iff in Eu as [Eu|Eu]; [left; lia|right].
    change (proc_of p (acquired (L_pipe a) s1)) with (proc_of p s1) in Eu. unfold cbool in Eu. lia. }
  apply wpb_bind. eapply wpb_intro; [by eapply wakeup_party|].
  apply wpb_bind. eapply (wpb_pipe_sleep _ p pd a); [by apply party_woken|exact Hh| |done].
  intros f e' He. assert (Hf : e !! m = Some f) by (by rewrite <- (Nat.add_0_r m), <- lookup_drop, He).
  destruct (Forall2_lookup_r _ _ _ _ _ Hts Hf) as (t & Ht & Htp & Hdo). exists (takes t). split; [done|].
  intros s2 l2 Hp2 Hl2 -> Hm2. pose proof (lookup_lt_Some _ _ _ Hf) as Hlt. split.
  - exists s2. split_and!; [done|done| |by eapply same_user_trans|by right].
    exists (S m). rewrite (taken_next _ _ t) by done. split_and!; [lia| |lia|].
    + rewrite (drop_S _ _ _ Hf) in He. by injection He.
    + by rewrite <- drop_drop.
  - rewrite He. simpl. lia.
Qed.

(** The bytes of the buffer at [addr]. *)
Definition ubytes (m : memory) (pd addr n : Z) : list Z :=
  (fun i => ubyte m pd (addr + i)) <$> seqZ 0 n.

Lemma ubytes_take m pd addr n k :
  0 <= k < n -> take (Z.to_nat (k + 1)) (ubytes m pd addr n) =
    take (Z.to_nat k) (ubytes m pd addr n) ++ [ubyte m pd (addr + k)].
Proof.
  intros Hk. replace (Z.to_nat (k + 1)) with (S (Z.to_nat k)) by lia.
  apply take_S_r. unfold ubytes. rewrite list_lookup_fmap.
  rewrite (lookup_seqZ_lt 0 n (Z.to_nat k)) by lia. simpl. do 3 f_equal. lia.
Qed.

Lemma left_put a e ts l e' s c :
  left_of a e ts l e' s -> pipe_full (pipe_of a s) = false -> left_of a e ts (l ++ [c]) e' (on_pipe a (pipe_put c) s).
Proof.
  intros (m & Hm & -> & Hle & Hh) Hf. exists m. split_and!; [done|done|rewrite length_app; lia|].
  rewrite drop_app_le by done. pose proof (pr_len _ _ Hh). rewrite (pipe_rep_full _ _ Hh) in Hf.
  unfold holds, pipe_of. simpl. rewrite lookup_insert_eq. apply pipe_rep_put; [done|lia].
Qed.

Lemma wpb_pipewrite p pd a addr n e ts s l :
  Forall2 (reader p pd a) ts e -> party p pd a s -> holds a s l ->
  0 <= addr -> 0 <= n -> addr + n <= KERNBASE ->
  (forall i, 0 <= i < n -> present (pte_of (k_mem s) pd (addr + i)) = true) ->
  let bs := ubytes (k_mem s) pd addr n in
  let crowded := PIPESIZE < Z.of_nat (length l) + n in
  wpb crowded (pipewrite a addr n) (fun r e' s' => party p pd a s' /\ same_user pd s s' /\
    (r = n /\ left_of a e ts (l ++ bs) e' s' \/
     r = -1 /\ crowded /\ no_use p a s' /\ exists k, 0 <= k < n /\ left_of a e ts (l ++ take (Z.to_nat k) bs) e' s')) e s.
Proof.
  intros Hts Hp Hl Haddr Hn Hhi Hpres bs crowded. unfold pipewrite.
  assert (Hlen : Z.of_nat (length bs) = n) by (unfold bs, ubytes; rewrite length_fmap, length_seqZ; lia).
  apply wpb_bind. eapply wpb_intro; [apply acquire_ready; by eapply party_ready|].
  apply wpb_bind.
  apply (wpb_for_each _ (fun ix e' s' => exists k, 0 <= k <= n /\ ix = seqZ k (n - k) /\
    exists s1, s' = acquired (L_pipe a) s1 /\ party p pd a s1 /\ same_user pd s s1 /\ left_of a e ts (l ++ take (Z.to_nat k) bs) e' s1)).
  { exists 0. split; [lia|]. rewrite Z.sub_0_r. split_and!; [done|]. exists s.
    split_and!; [done|done|apply same_user_refl|]. exists 0%nat. unfold taken_by. simpl. rewrite app_nil_r. split_and!; [lia|done|lia|done]. }
  { intros e' s' (k & Hk & Hnil & s1 & -> & Hp1 & Hm & Hl1).
    assert (k = n) as ->.
    { apply (f_equal length) in Hnil. rewrite length_seqZ in Hnil. simpl in Hnil. lia. }
    apply wpb_bind. eapply wpb_intro; [by eapply wakeup_party|].
    apply wpb_bind. eapply wpb_intro.
    { apply release_acquired. by eapply party_ready, party_woken. }
    split; [by apply party_woken|]. split; [done|]. left. split; [done|]. rewrite take_ge in Hl1 by lia. exact Hl1. }
  intros i ix e1 s' _ (k & Hk & His & s1 & -> & Hp1 & Hm & Hl1).
  assert (Hkn : k < n).
  { apply (f_equal length) in His. rewrite length_seqZ in His. simpl in His. lia. }
  rewrite seqZ_cons in His by lia. injection His as -> ->.
  apply wpb_bind. eapply wpb_mono; [apply (wpb_wait_room crowded p pd a e ts (l ++ take (Z.to_nat k) bs) e1 s1 Hts); [|done|exact Hl1]|].
  { intros m _ Hc. rewrite length_app, length_take in Hc. unfold crowded. lia. }
  intros [|] e2 s' (s2 & -> & Hp2 & Hl2 & Hm2 & Hfull).
  - assert (Hu : user (addr + k)) by (unfold user; lia).
    pose proof (same_user_trans _ _ _ _ Hm Hm2) as Hm'. destruct (Hm' _ Hu) as [Hpte Hb].
    specialize (Hpres k ltac:(lia)). rewrite u32_small by (unfold user in Hu; lia).
    apply wpb_bind. eapply wpb_intro.
    { apply (uld8_present p pd); [by apply party_acquired|]. simpl. by rewrite Hpte. }
    change (k_mem (acquired (L_pipe a) s2)) with (k_mem s2). rewrite Hb by done.
    set (c := ubyte _ _ _). exists (k + 1). split; [lia|]. split; [f_equal; lia|].
    exists (on_pipe a (pipe_put c) s2). split; [done|].
    split; [by apply party_pipes|]. split; [done|].
    unfold bs. rewrite ubytes_take, app_assoc by lia. by apply left_put.
  - destruct Hfull as (Hno & _ & Hc). apply wpb_bind. eapply wpb_intro; [apply release_acquired; by eapply party_ready|].
    split; [done|]. split; [by eapply same_user_trans|]. right. split_and!; [done|done|done|]. exists k. split; [lia|done].
Qed.

(** ** piperead *)

(** Others only write while the reader sleeps. *)
Definition writes (l l2 : list Z) : Prop := l `prefix_of` l2.

Lemma wpb_wait_data p pd a e s l :
  Forall (others_do writes p pd a) e -> party p pd a s -> holds a s l ->
  wpb (l = [] /\ writeopen (pipe_of a s) <> 0) (loop_env (wait_data a) tt) (fun r e' s' =>
    exists s2 l2, s' = acquired (L_pipe a) s2 /\ party p pd a s2 /\ holds a s2 l2 /\
      writes l l2 /\ same_user pd s s2 /\ (l <> [] \/ writeopen (pipe_of a s) = 0 -> s2 = s /\ e' = e) /\
      if (r : bool) then l2 <> [] \/ writeopen (pipe_of a s2) = 0 else l = [] /\ l2 = []) e (acquired (L_pipe a) s).
Proof.
  intros He Hp Hl.
  apply (wpb_loop_env _ (fun _ e' s' => Forall (others_do writes p pd a) e' /\
    exists s2 l2, s' = acquired (L_pipe a) s2 /\ party p pd a s2 /\ holds a s2 l2 /\
      writes l l2 /\ same_user pd s s2 /\
      (l <> [] \/ writeopen (pipe_of a s) = 0 -> s2 = s /\ e' = e))).
  { split; [done|]. exists s, l. split_and!; [done..|apply same_user_refl|done]. }
  clear He. intros [] e1 s' (He & s1 & l1 & -> & Hp1 & Hl1 & Hw & Hm & Hnow). unfold wait_data.
  apply wpb_bind. eapply wpb_intro; [done|].
  change (pipe_of a (acquired (L_pipe a) s1)) with (pipe_of a s1).
  rewrite (pipe_rep_empty _ _ Hl1). case_bool_decide as E1; simpl.
  2: { exists s1, l1. split_and!; try done. by left. }
  subst l1. assert (l = []) as Hnil by (by apply prefix_nil_inv in Hw).
  unfold cbool at 1. destruct (writeopen (pipe_of a s1) =? 0) eqn:E2; simpl.
  { exists s1, []. split_and!; try done. right. lia. }
  apply wpb_bind. eapply wpb_intro; [by apply myproc_eq, Hp1|].
  apply wpb_bind. eapply wpb_intro; [done|].
  destruct (cbool _).
  { exists s1, []. by split_and!. }
  assert (Hopen : writeopen (pipe_of a s) <> 0).
  { intros E. destruct Hnow as [-> _]; [by right|]. lia. }
  apply wpb_bind. eapply (wpb_pipe_sleep _ p pd a _ _ _ _ []); [done|exact Hl1| |done].
  intros f e2 ->. apply Forall_cons in He as [Hf He2]. exists writes. split; [done|].
  intros s2 l2 Hp2 Hl2 Hw2 Hm2. split; [|simpl; lia]. split; [done|].
  exists s2, l2. split_and!; [done..|by etrans|by eapply same_user_trans|]. intros [?|?]; done.
Qed.

(** The copy loop: [k] bytes of [l2] are in the buffer, the others still in the pipe. *)
Definition copied_out (pd a addr : Z) (l2 fl : list Z) (k : nat) (s0 s' : kernel) : Prop :=
  exists sm ps, s' = acquired (L_pipe a) (set_k_pipes ps sm) /\
    written pd addr l2 k s0 fl sm /\ pipe_rep (default zero_pipe (ps !! a)) (drop k l2).

Lemma written_party p pd a addr l2 k s0 fl sm :
  party p pd a s0 -> written pd addr l2 k s0 fl sm -> party p pd a sm.
Proof.
  intros [[H1 H2 H3 H4 H5 H6] Hr Hl Ht _] [Hu (m & ->) _ _]. split; [by split|done..|by exists fl].
Qed.

Lemma written_0 pd addr l2 s fl : uvm_inv s pd fl -> written pd addr l2 0 s fl s.
Proof. intros Hu. split; [done|by exists (k_mem s); destruct s|done|]. intros va' _ _. by zif. Qed.

(** One byte. *)
Lemma copy_out_step p pd a addr l2 fl k e s0 sm ps x :
  let q := default zero_pipe (ps !! a) in
  party p pd a s0 -> written pd addr l2 k s0 fl sm -> pipe_rep q (drop k l2) -> l2 !! k = Some x ->
  0 <= addr -> addr + Z.of_nat k < KERNBASE ->
  present (pte_of (k_mem s0) pd (addr + Z.of_nat k)) = true ->
  pipe_peek q = x /\
  wp (pipe_set a pipe_next;; ust8 (u32 (addr + Z.of_nat k)) x;; mret (None : option Z))
    (fun r e' s' => r = None /\ e' = e /\ copied_out pd a addr l2 fl (S k) s0 s') e
    (acquired (L_pipe a) (set_k_pipes ps sm)).
Proof.
  intros q Hp Hw Hq Hx Ha Hhi Hpres. pose proof (lookup_lt_Some _ _ _ Hx) as Hlt.
  rewrite (drop_S l2 x k Hx) in Hq. destruct (pipe_rep_next _ _ _ Hq) as [Hpk Hq']. split; [done|].
  assert (Hu : user (addr + Z.of_nat k)) by (unfold user; lia).
  rewrite u32_small by (unfold user in Hu; lia).
  apply wp_bind, wp_modify.
  set (ps1 := <[a := pipe_next q]> ps). set (s1 := set_k_pipes ps1 sm).
  change (on_pipe a pipe_next (acquired (L_pipe a) (set_k_pipes ps sm))) with (acquired (L_pipe a) s1).
  assert (Hp1 : party p pd a s1) by (by eapply party_pipes, written_party).
  apply wp_bind. eapply wp_intro.
  { apply (ust8_present p pd); [by apply party_acquired|]. simpl.
    by rewrite (wr_pte _ _ _ _ _ _ _ Hw) by (by apply user_range). }
  apply wp_ret. split; [done|]. split; [done|].
  exists (on_frame pd (addr + Z.of_nat k) [x] sm), ps1. split; [done|].
  split; [|unfold ps1; by rewrite lookup_insert_eq].
  pose proof (Z.mod_pos_bound (addr + Z.of_nat k) PGSIZE ltac:(lia)).
  pose proof (written_step pd addr l2 k 1 s0 fl sm Hw Ha ltac:(lia) Hu Hpres ltac:(lia)) as Hw'.
  rewrite (drop_S l2 x k Hx) in Hw'. simpl in Hw'. by rewrite Nat.add_1_r in Hw'.
Qed.

(** The whole loop. *)
Lemma wp_copy_out p pd a addr n e s0 l2 fl :
  party p pd a s0 -> holds a s0 l2 -> uvm_inv s0 pd fl ->
  0 <= addr -> 0 <= n -> addr + n <= KERNBASE ->
  (forall i, 0 <= i < n -> present (pte_of (k_mem s0) pd (addr + i)) = true) ->
  wp (for_each (seqZ 0 n) (fun i =>
        q ← get (pipe_of a);
        if pipe_empty q then mret (Some i)
        else pipe_set a pipe_next;; ust8 (u32 (addr + i)) (pipe_peek q);; mret None))
    (fun r e' s' => e' = e /\ exists k, Z.of_nat k = Z.min n (Z.of_nat (length l2)) /\
       match r with Some i => i = Z.of_nat k | None => Z.of_nat k = n end /\
       copied_out pd a addr l2 fl k s0 s') e (acquired (L_pipe a) s0).
Proof.
  intros Hp Hl Hu Ha Hn Hhi Hpres.
  apply (wp_for_each (fun ix e' s' => e' = e /\ exists k : nat, Z.of_nat k <= n /\ (k <= length l2)%nat /\
    ix = seqZ (Z.of_nat k) (n - Z.of_nat k) /\ copied_out pd a addr l2 fl k s0 s')).
  - split; [done|]. exists 0%nat. split_and!; [lia|lia|by rewrite Z.sub_0_r|].
    exists s0, (k_pipes s0). split_and!; [by destruct s0|by apply written_0|exact Hl].
  - intros e' s' (-> & k & Hk & Hkl & Hnil & Hc). split; [done|]. exists k.
    apply (f_equal length) in Hnil. rewrite length_seqZ in Hnil. simpl in Hnil.
    split_and!; [lia|lia|done].
  - intros i ix e' s' _ (-> & k & Hk & Hkl & Hix & sm & ps & -> & Hw & Hq).
    assert (Hkn : Z.of_nat k < n).
    { apply (f_equal length) in Hix. rewrite length_seqZ in Hix. simpl in Hix. lia. }
    rewrite seqZ_cons in Hix by lia. injection Hix as -> ->.
    apply wp_bind, wp_get.
    change (pipe_of a (acquired _ _)) with (default zero_pipe (ps !! a)).
    rewrite (pipe_rep_empty _ _ Hq). case_bool_decide as Hd.
    + apply wp_ret. split; [done|]. exists k.
      apply (f_equal length) in Hd. rewrite length_drop in Hd. simpl in Hd.
      split_and!; [lia|done|]. by exists sm, ps.
    + assert (Hlt : (k < length l2)%nat).
      { destruct (decide (k < length l2)%nat); [done|]. destruct Hd. apply drop_ge. lia. }
      destruct (lookup_lt_is_Some_2 l2 k Hlt) as [x Hx].
      destruct (copy_out_step p pd a addr l2 fl k e s0 sm ps x) as [-> Hs]; try done; [lia|by apply Hpres; lia|].
      eapply wp_mono; [exact Hs|]. clear Hs. intros r e' s' (-> & -> & Hc). split; [done|].
      exists (S k). split_and!; [lia|lia|f_equal; lia|done].
Qed.

(** * Properties *)

(** C9: A pipe delivers what was written, in order, whatever the readers do while the writer
    sleeps.  If [pipewrite] returns [n], all bytes of the buffer went into the pipe after
    what it held, and the pipe now holds this stream without exactly the bytes that the steps
    of the readers which ran took from its front: without any, it holds all of it.  It returns -1
    only if there is no reader or the process was killed, and then the same holds of the bytes
    written so far.  It panics and loops in no case, and it waits or gives up only if the
    bytes do not fit. *)
Theorem pipewrite_fifo p pd a addr n e ts s l :
  Forall2 (reader p pd a) ts e -> party p pd a s -> holds a s l ->
  0 <= addr -> 0 <= n -> addr + n <= KERNBASE ->
  (forall i, 0 <= i < n -> present (pte_of (k_mem s) pd (addr + i)) = true) ->
  let bs := ubytes (k_mem s) pd addr n in
  let crowded := PIPESIZE < Z.of_nat (length l) + n in
  wpb crowded (pipewrite a addr n) (fun r e' s' => party p pd a s' /\ same_user pd s s' /\
    (r = n /\ left_of a e ts (l ++ bs) e' s' \/
     r = -1 /\ crowded /\ no_use p a s' /\ exists k, 0 <= k < n /\ left_of a e ts (l ++ take (Z.to_nat k) bs) e' s')) e s.
Proof. apply wpb_pipewrite. Qed.


End spec.

(** * The properties at concrete states *)

#[local] Existing Instance built_symbols.

(** Process 0 runs with the directory [wdir] of [s]; the pipe at [pw_pipe] holds one byte. *)
Definition pw_pipe : Z := 0x80500000.
Definition pw_open : pipe_t := pipe_put 7 (mkPipe (replicate (Z.to_nat PIPESIZE) 0) 0 0 1 1).
Definition pw_world (s : kernel) : kernel :=
  set_k_pipes {[pw_pipe := pw_open]}
    (set_k_cons (k_cons boot_state)
      (set_k_locks (<[L_pipe pw_pipe := mkLock 0 "pipe" None]>
                     (<[L_ptable := mkLock 0 "ptable" None]> {[L_kmem := mkLock 0 "kmem" None]}))
        (set_k_cpu (mkCpu 0 0 false false (Some 0%nat) (v2p wdir) 0 0)
          (set_k_ptable (set_pgdir wdir zero_proc :: replicate 63 zero_proc) s)))).

Lemma pw_party s l : uvm_inv s wdir l -> party 0 wdir pw_pipe (pw_world s).
Proof.
  intros [[Hf Hwf Hsep Hr] Hfr Hinj].
  split.
  - split; [done|apply Nat.ltb_lt; by vm_compute|done|done|by vm_compute|].
    split; [by vm_compute|]. by intros [].
  - by repeat split.
  - by eexists.
  - by eexists.
  - exists l. split; [split|..]; try done; [by eapply free_rep_ext, Hf|].
    intros _. split; [by split|by eexists].
Qed.

Lemma pw_holds s : holds pw_pipe (pw_world s) [7].
Proof.
  unfold holds. change (pipe_of pw_pipe (pw_world s)) with pw_open.
  apply (pipe_rep_put _ [] 7); [|done]. split; try done.
Qed.

(** A reader that takes everything while the writer sleeps. *)
Definition drain (s : kernel) : kernel :=
  on_pipe pw_pipe (fun q => set_nread (nwrite q) q) (on_proc 0 (set_pstate RUNNING) s).

Lemma drain_reads : reader 0 wdir pw_pipe 512 drain.
Proof.
  split; [done|]. intros s l Hp [Hs Hr Hl Hw Hd]. exists (drain s), []. split; [done|].
  split; [by apply party_pipes, party_on_proc|]. split; [done|]. split_and!.
  - unfold holds, drain, on_pipe, pipe_of at 1. simpl. rewrite lookup_insert_eq. simpl.
    change (pipe_of pw_pipe (on_proc _ _ s)) with (pipe_of pw_pipe s).
    split; simpl; [done|rewrite Hw; apply u32_range|done| |done].
    rewrite Hw, Z.add_0_r. by rewrite u32_u32.
  - unfold takes. rewrite drop_ge; [done|]. unfold PIPESIZE in Hl. lia.
  - done.
Qed.

Lemma pipewrite_fifo_witness :
  exists s e' s', pipewrite pw_pipe 0xffe 4 [drain] s = Done 4 e' s' /\
    left_of pw_pipe [drain] [512%nat] (7 :: ubytes (k_mem s) wdir 0xffe 4) e' s'.
Proof.
  destruct (two_pages 8 ltac:(lia)) as (s & l & Hu & _ & Hp).
  pose proof (pipewrite_fifo 0 wdir pw_pipe 0xffe 4 [drain] [512%nat] (pw_world s) [7]
    ltac:(constructor; [exact drain_reads|constructor]) (pw_party s l Hu) (pw_holds s)
    ltac:(lia) ltac:(lia) ltac:(lia)
    ltac:(intros i Hi; exact (proj1 (Hp (0xffe + i) ltac:(lia))))) as Hw.
  apply wpb_elim in Hw as (r & e' & s' & Heq & _ & _ & Hr); [|by vm_compute].
  exists (pw_world s), e', s'. destruct Hr as [[-> Hr]|(_ & Hc & _)]; [|by vm_compute in Hc].
  split; [exact Heq|exact Hr].
Defined.

