(* ===== verification/FileWrite.v ===== *)
(** file.c, [filewrite]: a write to a file, from the memory of the process to the disk.

    Each piece of the bytes opens a transaction, locks the inode, writes the file, moves the offset and
    commits; the theorem follows the bytes through all of it, over any number of pieces. *)

From S2P Require Import Prelude Params Mem State Spinlock Console Kalloc Vm VmTables VmSpace VmAlloc.
From S2P Require Import VmCopy Proc ProcSpec Ide Bio BioRing BioSpec BioProps Log LogSpec LogOps LogCrash.
From S2P Require Import Umem Fs FsSpec FsLock FsDir FsTable FsAlloc FsWrite Pipe.

Lemma alter_ext_at {A} (g h : A -> A) (l : list A) : forall i, (forall x, l !! i = Some x -> g x = h x) -> alter g i l = alter h i l.
Proof. induction l as [|y l IH]; intros [|i] Hx; simpl; [done|done|by rewrite Hx|]. f_equal. by apply IH. Qed.

Section filewrite.
Context `{Symbols} `{Driver} {Hdrv : SyncDriver} `{DevSw}.
Context (dv start : Z) (sb : superblock).

Lemma transaction_same_log n blocks dirt s s' :
  k_log s' = k_log s -> transaction dv start n blocks dirt s -> transaction dv start n blocks dirt s'.
Proof. intros E [Hl ? ? ?]. split; [|done..]. unfold log_is. by rewrite E. Qed.

(** The log between operations. *)
Record log_idle (s : kernel) : Prop := {
  li_trans : exists blocks, transaction dv start 0 blocks ∅ s;
  li_ready : ready L_log s;
  li_len : length (lh_block (k_log s)) = Z.to_nat LOGSIZE;
  li_size : LOGSIZE <= lsize (k_log s);
  li_none : outstanding (k_log s) = 0;
  li_commit : committing (k_log s) = 0;
  li_header : length (disk_read dv start (k_disk s)) = Z.to_nat BSIZE
}.

(** An operation begins. *)
Definition begun (s : kernel) : kernel := on_log (fun l => set_outstanding (outstanding l + 1) l) s.

Lemma idle_begins s e : log_idle s -> begin_op e s = Done tt e (begun s) /\ in_op dv start 0 ∅ (begun s).
Proof.
  intros [[blocks Ht] Hr Hl Hsz Ho Hc Hh]. pose proof (tr_log _ _ _ _ _ _ Ht) as (_ & _ & Hn & _). split.
  - apply begin_op_eq; [done|done|]. rewrite Hn, Ho. done.
  - split; [|done|done|done|simpl; lia]. exists blocks. destruct Ht. by split.
Qed.

(** Unlocking an inode. *)
Definition unlocked_inode (q : inode_t) : inode_t := set_iflags (Z.land (iflags q) (Z.lnot I_BUSY)) q.

Lemma iunlock_eq i q e s :
  ready L_icache s -> ready L_ptable s -> ptable_ok s -> k_icache s !! i = Some q -> Z.land (iflags q) I_BUSY = I_BUSY -> 1 <= iref q ->
  iunlock (Some i) e s = Done tt e (woken (Some (CH_inode i)) (on_inode i unlocked_inode s)).
Proof.
  intros Hr Hp Hpo Hq Hb Href. unfold iunlock, iset. erewrite bind_Done by done. rewrite (inode_of_some i q s Hq), Hb.
  rewrite (proj2 (Z.ltb_ge _ _)) by lia. cbn [cbool I_BUSY Z.eqb negb orb].
  erewrite bind_Done by (by apply acquire_ready). erewrite bind_Done by done.
  erewrite bind_Done by (apply wakeup_eq; [by apply (ready_acquired L_icache)|done]).
  by apply (release_acquired L_icache e (woken (Some (CH_inode i)) (on_inode i unlocked_inode s))).
Qed.

(** A locked inode is busy, and it is the inode that it was. *)
Lemma busy_bit x y : Z.land (Z.lor (Z.lor x I_BUSY) y) I_BUSY = I_BUSY.
Proof.
  apply Z.bits_inj'. intros n Hn. rewrite Z.land_spec, !Z.lor_spec.
  destruct (Z.testbit x n), (Z.testbit I_BUSY n), (Z.testbit y n); done.
Qed.

Lemma locked_busy cur q :
  let q' := locked_inode cur sb q in
  Z.land (iflags q') I_BUSY = I_BUSY /\ iref q' = iref q /\ idev q' = idev q /\ inum q' = inum q.
Proof.
  unfold locked_inode. destruct (cbool _); cbn [set_iflags iflags iref idev inum dinode_decode]; split_and!; try done.
  - rewrite <- (Z.lor_0_r (Z.lor _ _)). apply busy_bit.
  - apply busy_bit.
Qed.

(** The header of the log is no block of a file. *)
Lemma header_kept i s cur dirt q off data s' cur' dirt' q' :
  file_state dv start sb i s cur dirt q -> wrote dv start sb i s cur dirt q off data s' cur' dirt' q' ->
  0 <= start -> cur' (dv, start) = cur (dv, start) /\ (dv, start) ∉ dirt'.
Proof.
  intros Hs Hw Hst. assert (Hin : in_log start start) by (unfold in_log, LOGSIZE; lia).
  pose proof (st_map _ _ _ _ _ _ _ _ Hs) as Hm. pose proof (st_file _ _ _ _ _ _ _ _ Hs) as Hf.
  assert (Hgood : forall bn, good_block dv start bn -> bn <> start) by (intros bn [_ Hl _] ->; done). split.
  - apply (wr_frame _ _ _ _ _ _ _ _ _ _ _ _ _ _ Hw).
    + intros _. split_and!.
      * simpl. intros Hr. destruct (used dv sb cur start) eqn:E; [done|]. by destruct (Hgood start); [apply (mo_free _ _ _ _ Hm)|].
      * intros Hb. by destruct (Hgood start); [apply (mo_blocks _ _ _ _ Hm)|].
      * simpl. intros j Hj E. destruct (decide (start = 0)) as [|Hn]; [done|]. exfalso. apply (Hgood (slot q cur j)); [|done].
        apply (fl_slot _ _ _ _ _ Hf); [done|congruence].
    + intros [= E]. apply (Hgood (IBLOCK (inum q) sb)); [|done]. apply (fl_inode _ _ _ _ _ Hf).
  - destruct (st_op _ _ _ _ _ _ _ _ (wr_state _ _ _ _ _ _ _ _ _ _ _ _ _ _ Hw)) as [[blocks Ht] _ _ _ _].
    intros (j & Hj & E)%(tr_dirt _ _ _ _ _ _ Ht). injection E as E.
    apply (lg_home _ _ _ _ (tr_geom _ _ _ _ _ _ Ht) j Hj). by rewrite <- E.
Qed.

(** * Between two pieces

    A commit changes the blocks of the log, and no other block from what the cache showed. *)
Definition agree (cur cur' : Z * Z -> list Z) : Prop := forall b, outside dv start b -> cur' b = cur b.

Section agree.
Context (cur cur' : Z * Z -> list Z) (q : inode_t).
Context (Ha : agree cur cur') (Hm : map_ok dv start sb cur) (Hf : file_wf dv start sb cur q).

Lemma ag_block bn : good_block dv start bn -> cur' (dv, bn) = cur (dv, bn).
Proof. intros [_ Hl _]. apply Ha. split; [apply (mo_dev _ _ _ _ Hm)|]. by intros [_ ?]. Qed.

Lemma ag_used y : 0 <= y < sb_size sb -> used dv sb cur' y = used dv sb cur y.
Proof. intros Hy. unfold used. rewrite ag_block; [done|]. apply (mo_blocks _ _ _ _ Hm). by exists y. Qed.

Lemma ag_owned bn : owned dv start sb cur bn -> owned dv start sb cur' bn.
Proof. intros [Hg Hr Hu Hl Hb]. split; [done|done|by rewrite ag_used by lia|by rewrite ag_block|done]. Qed.

Lemma ag_map : map_ok dv start sb cur'.
Proof.
  pose proof (ow_range _ _ _ _ _ (fl_inode _ _ _ _ _ Hf)) as Hr. pose proof Hm as [Hd Hs He Hb Hbl Hfr]. split; [done..| | |].
  - rewrite ag_used; [done|lia].
  - intros bn Hbn. destruct (Hbl bn Hbn) as [Hg Hl]. by rewrite ag_block.
  - intros x Hx. rewrite ag_used by done. by apply Hfr.
Qed.

Lemma ag_slot k : 0 <= k <= MAXFILE -> slot q cur' k = slot q cur k.
Proof.
  intros Hk. destruct (decide (k < NDIRECT)); [by rewrite !slot_near|]. destruct (decide (k = MAXFILE)) as [->|]; [done|].
  rewrite (slot_far q cur'), (slot_far q cur), (slot_indirect q cur'), <- (slot_indirect q cur) by lia.
  destruct (Z.eqb_spec (slot q cur MAXFILE) 0) as [|Hn]; [done|]. rewrite (fl_dev _ _ _ _ _ Hf), ag_block; [done|].
  by apply (fl_slot _ _ _ _ _ Hf).
Qed.

Lemma ag_wf : file_wf dv start sb cur' q.
Proof.
  pose proof Hf as [Hdv Hok Hsz Hsl Hinj Hal Hin Hoth]. split; [done..| | | | |].
  - intros k Hk. rewrite ag_slot by done. intros Hn. by apply ag_owned, Hsl.
  - intros j k Hj Hk. rewrite !ag_slot by done. by apply Hinj.
  - intros k Hk Hks. rewrite ag_slot by (split; [lia|]; unfold MAXFILE in *; nia). by apply Hal.
  - by apply ag_owned.
  - intros k Hk. rewrite ag_slot by done. by apply Hoth.
Qed.

Lemma ag_data p : 0 <= p < MAXFILE * BSIZE -> fdata q cur' p = fdata q cur p.
Proof.
  intros Hp. assert (Hk : 0 <= p / BSIZE <= MAXFILE) by (assert (MAXFILE = 140 /\ BSIZE = 512) by done; mlia).
  unfold fdata. rewrite ag_slot by done. destruct (Z.eqb_spec (slot q cur (p / BSIZE)) 0) as [|Hn]; [done|].
  rewrite (fl_dev _ _ _ _ _ Hf), ag_block; [done|]. by apply (fl_slot _ _ _ _ _ Hf).
Qed.

Lemma ag_missing T : (forall j, j ∈ T -> 0 <= j <= MAXFILE) -> missing q cur' T = missing q cur T.
Proof. intros HT. unfold missing. f_equal. apply filter_same. intros j Hj. by rewrite ag_slot by auto. Qed.

Lemma ag_nfree : nfree dv sb cur' = nfree dv sb cur.
Proof. unfold nfree. f_equal. apply filter_same. intros y Hy%elem_of_seqZ. by rewrite ag_used by lia. Qed.

Lemma ag_elsewhere b : elsewhere dv sb cur q b -> elsewhere dv sb cur' q b.
Proof.
  intros Hb Hd. destruct (Hb Hd) as (H1' & H2' & H3'). split_and!; [|done|].
  - intros Hr. rewrite ag_used by done. by apply H1'.
  - intros j Hj. rewrite ag_slot by done. by apply H3'.
Qed.

Lemma ag_saved : saved dv sb cur q -> saved dv sb cur' q.
Proof. intros Hs. unfold saved. rewrite ag_block; [done|]. apply (fl_inode _ _ _ _ _ Hf). Qed.

End agree.

(** ** What a write of [data] at [off] does to a file on the disk *)

Record extends (off : Z) (data : list Z) (cur : Z * Z -> list Z) (q : inode_t) (cur' : Z * Z -> list Z) (q' : inode_t) : Prop := {
  ex_shape : q' = set_isize (Z.max (isize q) (off + Z.of_nat (length data))) (set_iaddrs (iaddrs q') q);
  ex_data : forall p, 0 <= p < MAXFILE * BSIZE ->
    fdata q' cur' p = if decide (off <= p < off + Z.of_nat (length data)) then lget data (Z.to_nat (p - off)) else fdata q cur p;
  ex_frame : forall b, outside dv start b -> elsewhere dv sb cur q b -> b <> (dv, IBLOCK (inum q) sb) -> cur' b = cur b;
  ex_elsewhere : forall b, elsewhere dv sb cur q b -> elsewhere dv sb cur' q' b;
  ex_count : forall T', NoDup T' -> (forall j, j ∈ touched off (Z.of_nat (length data)) -> j ∈ T') ->
    (forall j, j ∈ T' -> 0 <= j <= MAXFILE) ->
    (missing q cur T' + nfree dv sb cur' = missing q' cur' T' + nfree dv sb cur)%nat
}.

Lemma extends_refl off cur q : off <= isize q -> extends off [] cur q cur q.
Proof.
  intros Ho. split; [|intros p Hp; by rewrite decide_False by (simpl; lia)|done|done|done].
  simpl. rewrite Z.add_0_r, Z.max_l by lia. by destruct q.
Qed.

Lemma touched_mono off n off' n' j :
  off <= off' -> off' + n' <= off + n -> j ∈ touched off' n' -> j ∈ touched off n.
Proof.
  intros Ho Hn [Hj|Hj]%elem_of_app; apply elem_of_app.
  - left. apply elem_of_seqZ in Hj. apply elem_of_seqZ. unfold rounds in *. destruct (Z.ltb_spec off' (off' + n')); [|lia].
    rewrite (proj2 (Z.ltb_lt _ _)) by lia. mlia.
  - right. destruct (Z.ltb_spec (NDIRECT * BSIZE) (off' + n')); [|by apply elem_of_nil in Hj].
    by rewrite (proj2 (Z.ltb_lt _ _)) by lia.
Qed.

Lemma extends_trans off d1 d2 cur q cur1 q1 cur2 q2 :
  extends off d1 cur q cur1 q1 -> extends (off + Z.of_nat (length d1)) d2 cur1 q1 cur2 q2 -> extends off (d1 ++ d2) cur q cur2 q2.
Proof.
  intros [A1 A2 A3 A4 A5] [B1 B2 B3 B4 B5].
  assert (Hnum : inum q1 = inum q /\ isize q1 = Z.max (isize q) (off + Z.of_nat (length d1))) by (by rewrite A1).
  destruct Hnum as [En Es]. split.
  - rewrite length_app, Nat2Z.inj_add. etransitivity; [exact B1|]. rewrite Es.
    replace (Z.max (Z.max _ _) _) with (Z.max (isize q) (off + (Z.of_nat (length d1) + Z.of_nat (length d2)))) by lia.
    rewrite A1. by destruct q.
  - intros p Hp. rewrite B2, A2, length_app, Nat2Z.inj_add by done. unfold lget.
    destruct (decide (off + Z.of_nat (length d1) <= p < off + Z.of_nat (length d1) + Z.of_nat (length d2))).
    + rewrite decide_True, app_nth2 by lia. f_equal. lia.
    + destruct (decide (off <= p < off + Z.of_nat (length d1))); [by rewrite decide_True, app_nth1 by lia|by rewrite decide_False by lia].
  - intros b Ho He Hb. rewrite B3, A3; auto. by rewrite En.
  - auto.
  - intros T' Hnd Hin HT'. rewrite length_app, Nat2Z.inj_add in Hin.
    assert (H1' := A5 T' Hnd ltac:(intros j Hj; apply Hin; eapply touched_mono; [| |exact Hj]; lia) HT').
    assert (H2' := B5 T' Hnd ltac:(intros j Hj; apply Hin; eapply touched_mono; [| |exact Hj]; lia) HT'). lia.
Qed.

(** A write inside a transaction, and a commit. *)
Lemma wrote_extends i s cur q off data s' cur1 dirt q' cur' :
  wrote dv start sb i s cur ∅ q off data s' cur1 dirt q' -> agree cur1 cur' ->
  extends off data cur q cur' q' /\ map_ok dv start sb cur' /\ file_wf dv start sb cur' q'.
Proof.
  intros Hw Ha. pose proof (wr_state _ _ _ _ _ _ _ _ _ _ _ _ _ _ Hw) as [_ _ _ _ Hm Hf].
  split_and!; [|by eapply ag_map|by eapply ag_wf]. split.
  - apply Hw.
  - intros p Hp. rewrite (ag_data cur1 cur' q') by done. by apply (wr_data _ _ _ _ _ _ _ _ _ _ _ _ _ _ Hw).
  - intros b Ho He Hb. rewrite Ha by done. by apply (wr_frame _ _ _ _ _ _ _ _ _ _ _ _ _ _ Hw).
  - intros b Hb. apply (ag_elsewhere cur1); [done..|]. by apply (wr_elsewhere _ _ _ _ _ _ _ _ _ _ _ _ _ _ Hw).
  - intros T' Hnd Hin HT'. rewrite (ag_missing cur1 cur' q'), (ag_nfree cur1 cur') by done.
    by apply (wr_count _ _ _ _ _ _ _ _ _ _ _ _ _ _ Hw).
Qed.

(** * One piece of a write *)

(** The memory at [addr] has [data]. *)
Definition user_bytes (addr : Z) (data : list Z) (s : kernel) : Prop :=
  forall j, 0 <= j < Z.of_nat (length data) -> exists pa, vphys (u32 (addr + j)) s = Some pa /\ ld8 (k_mem s) pa = lget data (Z.to_nat j).

(** The body of the loop in [filewrite], before [rest]. *)
Definition write_piece {A} (f ip : nat) (addr n1 : Z) (rest : Z -> K A) : K A :=
  begin_op;;
  ilock (Some ip);;
  off ← fget f foff;
  r ← writei ip (SUser addr) off n1;
  when (0 <? r) (fset f (fun q => set_foff (u32 (foff q + r)) q));;
  iunlock (Some ip);;
  end_op;;
  rest r.

(** The file [f] is open for writing at [off] on the inode [ip], no operation is in progress, and the disk, whose
    contents are [cur], has a file system; the inode is in order, as it will be seen when it is locked. *)
Record open_file (f ip : nat) (s : kernel) (cur : Z * Z -> list Z) (off : Z) : Prop := {
  of_fd : writable (file_of f s) <> 0 /\ ftype (file_of f s) = FD_INODE /\ fip (file_of f s) = Some ip;
  of_pos : foff (file_of f s) = off /\ (f < length (k_ftable s))%nat;
  of_cache : cache s [] cur ∅;
  of_log : log_idle s;
  of_sb : k_sb s = sb;
  of_lock : lockable s [] cur ip;
  of_map : map_ok dv start sb cur;
  of_file : file_wf dv start sb cur (locked_inode cur sb (inode_of ip s));
  of_saved : saved dv sb cur (locked_inode cur sb (inode_of ip s));
  of_type : itype (locked_inode cur sb (inode_of ip s)) <> T_DEV;
  of_off : 0 <= off <= isize (locked_inode cur sb (inode_of ip s))
}.

Lemma user_bytes_supplies i addr data e s t :
  user_bytes addr data s -> k_mem t = k_mem s -> k_cpu t = k_cpu s -> supplies i (SUser (u32 addr)) data e t.
Proof.
  intros Hu Em Ec. apply supplies_user. intros j Hj. destruct (Hu j Hj) as (pa & Hpa & Hb). exists pa. split; [|by rewrite Em].
  rewrite <- Hpa. unfold vphys. rewrite Em, Ec. unfold u32. rewrite Zplus_mod_idemp_l. done.
Qed.

(** A part of the memory at a later time. *)
Lemma user_bytes_part addr data s t i n :
  user_bytes addr data s -> k_mem t = k_mem s -> k_cpu t = k_cpu s -> 0 <= i -> user_bytes (addr + i) (take n (drop (Z.to_nat i) data)) t.
Proof.
  intros Hu Em Ec Hi j Hj. rewrite length_take, length_drop in Hj. destruct (Hu (i + j)) as (pa & Hpa & Hb); [lia|].
  exists pa. rewrite lget_part by lia. split.
  - rewrite <- Hpa. unfold vphys. rewrite Em, Ec, Z.add_assoc. done.
  - rewrite Em, Hb. f_equal. lia.
Qed.

Lemma relock_flags x : Z.land x I_BUSY = I_BUSY -> Z.lor (Z.land x (Z.lnot I_BUSY)) I_BUSY = x.
Proof.
  intros Hx. apply Z.bits_inj'. intros n Hn. apply (f_equal (fun z => Z.testbit z n)) in Hx. rewrite Z.land_spec in Hx.
  rewrite Z.lor_spec, Z.land_spec, Z.lnot_spec by done. by destruct (Z.testbit x n), (Z.testbit I_BUSY n).
Qed.

Lemma unlocked_flags x :
  Z.land (Z.land x (Z.lnot I_BUSY)) I_BUSY = 0 /\ Z.land (Z.land x (Z.lnot I_BUSY)) I_VALID = Z.land x I_VALID.
Proof.
  rewrite <- !Z.land_assoc. change (Z.land (Z.lnot I_BUSY) I_BUSY) with 0. change (Z.land (Z.lnot I_BUSY) I_VALID) with I_VALID.
  by rewrite Z.land_0_r.
Qed.

Lemma locked_valid cur q : cbool (Z.land (iflags (locked_inode cur sb q)) I_VALID) = true.
Proof.
  unfold locked_inode. destruct (cbool (Z.land (iflags q) I_VALID)) eqn:E; cbn [set_iflags iflags].
  - rewrite Z.land_lor_distr_l. change (Z.land I_BUSY I_VALID) with 0. by rewrite Z.lor_0_r.
  - rewrite Z.land_lor_distr_l, Z.land_diag. unfold cbool. apply negb_true_iff, Z.eqb_neq. intros E0.
    apply Z.lor_eq_0_iff in E0 as [_ E0]. discriminate E0.
Qed.

(** An inode that is unlocked is the same when it is locked again. *)
Lemma locked_again cur cur' q q' : iflags q' = iflags (locked_inode cur sb q) -> locked_inode cur' sb (unlocked_inode q') = q'.
Proof.
  intros E. destruct (unlocked_flags (iflags q')) as [_ Ev]. destruct (locked_busy cur q) as (Hb & _).
  unfold locked_inode, unlocked_inode. cbn [set_iflags iflags]. rewrite Ev, E, locked_valid, <- E, relock_flags by congruence.
  by destruct q'.
Qed.

Section piece.
Context (f ip : nat) (s : kernel) (cur : Z * Z -> list Z) (off : Z) (data : list Z).
Let n : Z := Z.of_nat (length data).
Let q : inode_t := locked_inode cur sb (inode_of ip s).
Context (Hwf : open_file f ip s cur off) (Hn : 0 < n) (Hmax : off + n <= MAXFILE * BSIZE).

(** The state with the inode locked, inside the operation. *)
Lemma locked_state t :
  cache t [] cur ∅ -> ic (<[ip := q]> (k_icache s)) (begun s) t -> file_state dv start sb ip t cur ∅ q.
Proof.
  clear Hn Hmax. intros Hc Hic. destruct (idle_begins s [] (of_log _ _ _ _ _ Hwf)) as [_ Hop].
  destruct Hic as (bc & d & pt & -> & Hpt). split; [done| |apply Hwf| |apply Hwf|apply Hwf].
  - rewrite size_empty. destruct Hop as [[blocks Ht] Hr Hl Hsz Hcnt]. split; [|done..].
    exists blocks. by eapply transaction_same_log, Ht.
  - cbn. apply list_lookup_insert_eq. apply (of_lock _ _ _ _ _ Hwf).
Qed.

(** The log is idle again after the commit. *)
Lemma idle_again t s' n' dirt :
  in_op dv start n' dirt t -> k_log s' = set_outstanding 0 (set_committing 0 (set_lh_n 0 (k_log t))) -> ready L_log s' ->
  length (disk_read dv start (k_disk s')) = Z.to_nat BSIZE -> log_idle s'.
Proof.
  clear. intros [[blocks [(Hd & Hs & _ & Hb) [Hg1 Hg2 _ _ Hg5] _ _]] _ Hl Hsz _] El Hr Hh. split; rewrite ?El; try done.
  exists blocks. split; [by unfold log_is; rewrite El| |constructor|].
  - split; [done|done|done|intros i Hi; lia|done].
  - intros k. split; [by intros ?%elem_of_empty|]. intros (i & Hi & _). lia.
Qed.

(** After [writei], the offset is moved, the inode unlocked and the operation ended. *)
Lemma wp_piece_end {A} t t' cur' dirt' q' e (rest : Z -> K A) (Q : A -> env kernel -> kernel -> Prop) :
  ic (<[ip := q]> (k_icache s)) (begun s) t -> file_state dv start sb ip t cur ∅ q ->
  wrote dv start sb ip t cur ∅ q off data t' cur' dirt' q' ->
  (forall s' cur'', agree cur' cur'' -> open_file f ip s' cur'' (off + n) -> k_mem s' = k_mem s -> k_cpu s' = k_cpu s ->
     locked_inode cur'' sb (inode_of ip s') = q' -> wp (rest n) Q e s') ->
  wp (when (0 <? n) (fset f (fun q => set_foff (u32 (foff q + n)) q));; iunlock (Some ip);; end_op;; rest n) Q e t'.
Proof.
  intros Hic Ht Hw HQ. pose proof (of_off _ _ _ _ _ Hwf) as Hoff. assert (Emax : MAXFILE * BSIZE = 71680) by done.
  destruct (of_log _ _ _ _ _ Hwf) as [_ Hr _ _ Ho Hcm Hh]. destruct (of_pos _ _ _ _ _ Hwf) as [Hfo Hfl]. pose proof (of_lock _ _ _ _ _ Hwf) as Hlk.
  pose proof (wr_state _ _ _ _ _ _ _ _ _ _ _ _ _ _ Hw) as Hs'. pose proof Hs' as [Hc' Hop' Hsb' Hi' Hm' Hf'].
  destruct (ca_ptable _ _ _ _ Hc') as [Hpt Hpo].
  assert (Hkeep : k_ftable t' = k_ftable s /\ ready L_icache t' /\ outstanding (k_log t') = 1 /\ committing (k_log t') = 0 /\
    k_mem t' = k_mem s /\ k_cpu t' = k_cpu s /\ length (k_icache t') = length (k_icache s)).
  { destruct (wr_only _ _ _ _ _ _ _ _ _ _ _ _ _ _ Hw) as (p & bc & d & pt & lg & -> & E1 & E2).
    destruct Hic as (bc2 & d2 & pt2 & -> & _). cbn in E1, E2 |- *. split_and!; [done|apply Hlk|lia|lia|done|done|]. by rewrite length_alter, length_insert. }
  destruct Hkeep as (Eft & Hri & Eo & Ec & Em & Ecpu & Elen).
  rewrite (proj2 (Z.ltb_lt _ _)) by lia. unfold when, fset. apply wp_bind, wp_modify, wp_bind.
  set (mv := fun q => set_foff (u32 (foff q + n)) q). set (t1 := on_file f mv t').
  pose proof (wr_shape _ _ _ _ _ _ _ _ _ _ _ _ _ _ Hw) as Hq. destruct (locked_busy cur (inode_of ip s)) as (Hb & Href & Hdev & Hnum). fold q in Hb, Href, Hdev, Hnum.
  assert (Hq' : iflags q' = iflags q /\ iref q' = iref q /\ idev q' = idev q /\ inum q' = inum q /\ itype q' = itype q /\
    isize q' = Z.max (isize q) (off + n)) by (rewrite Hq; done). destruct Hq' as (Q1 & Q2 & Q3 & Q4 & Q5 & Q6).
  eapply wp_intro.
  { apply (iunlock_eq ip q'); [done|done|done|exact Hi'|by rewrite Q1|rewrite Q2, Href; apply Hlk]. }
  set (t2 := woken _ _).
  destruct (header_kept _ _ _ _ _ _ _ _ _ _ _ Ht Hw) as [Ehd Hnd].
  { destruct Hop' as [[blocks Htr] _ _ _ _]. apply (lg_start _ _ _ _ (tr_geom _ _ _ _ _ _ Htr)). }
  pose proof Hop' as [[blocks Htr] Hrl _ _ _].
  destruct (end_op_last t2 cur' dirt' e dv start (size dirt') blocks) as (s' & Hend & (bc & d & pt & Es') & Hhd' & (cur'' & Hc'') & Hdisk);
    [|by eapply transaction_same_log, Htr| |done|done|done|].
  { apply cache_woken, cache_on_inode. destruct Hc'. by split. }
  { change (k_disk t2) with (k_disk t'). pose proof (mo_dev _ _ _ _ (of_map _ _ _ _ _ Hwf)) as Hdv.
    pose proof (ca_clean _ _ _ _ Hc' (dv, start) Hdv Hnd (none_held _ _)) as E1.
    pose proof (ca_clean _ _ _ _ (of_cache _ _ _ _ _ Hwf) (dv, start) Hdv (not_elem_of_empty _) (none_held _ _)) as E2.
    cbn [fst snd] in E1, E2. by rewrite <- E1, Ehd, E2. }
  apply wp_bind. eapply wp_intro; [exact Hend|].
  assert (Hag : agree cur' cur'').
  { intros b Hb'. rewrite <- Hdisk by done. apply (ca_clean _ _ _ _ Hc''); [apply Hb'|apply not_elem_of_empty|apply none_held]. }
  assert (Hino : inode_of ip s' = unlocked_inode q') by (rewrite Es'; unfold inode_of; cbn; by rewrite list_lookup_alter_eq, Hi').
  assert (Hrel : locked_inode cur'' sb (inode_of ip s') = q') by (rewrite Hino; eapply locked_again; exact Q1).
  assert (Hfile : k_ftable s' = alter mv f (k_ftable s)) by (rewrite Es'; cbn; by rewrite Eft).
  assert (Hfs : file_of f s' = set_foff (off + n) (file_of f s)).
  { unfold file_of. rewrite Hfile, list_lookup_alter_eq. destruct (lookup_lt_is_Some_2 _ _ Hfl) as [x Hx]. unfold file_of in Hfo. rewrite Hx in *.
    simpl in *. unfold mv. by rewrite Hfo, u32_small by lia. }
  apply (HQ s' cur'' Hag); [|by rewrite Es'|by rewrite Es'|done].
  destruct (unlocked_flags (iflags q')) as [Hfree Hval].
  split; rewrite ?Hrel, ?Hfs; [apply Hwf|split; [done|rewrite Hfile, length_alter; done]|done| |rewrite Es'; exact Hsb'| |by eapply ag_map|by eapply ag_wf| |rewrite Q5; apply Hwf|lia].
  - eapply (idle_again t2); [|by rewrite Es'|by rewrite Es'|done]. destruct Hop' as [[bl2 Ht2] ? ? ? ?]. split; try done.
    exists bl2. by eapply transaction_same_log, Ht2.
  - split; rewrite ?Hino; cbn [unlocked_inode set_iflags iref iflags idev inum]; rewrite ?Q2, ?Q3, ?Q4, ?Href, ?Hdev, ?Hnum; try apply Hlk.
    + rewrite Es'. cbn. rewrite length_alter, Elen. apply Hlk.
    + by rewrite Es'.
    + done.
    + replace (k_sb s') with (k_sb s) by (rewrite Es'; cbn; rewrite Hsb'; apply Hwf).
      destruct (lo_block _ _ _ _ Hlk) as (Hn0 & Hsv & _). split_and!; [done|done|apply none_held].
    + right. rewrite Hval, Q1. apply locked_valid.
  - apply (ag_saved cur'); [done..|]. eapply (written_saved dv start sb); [apply Hwf|exact Hw|apply Hwf].
Qed.

Lemma wp_piece {A} addr e (rest : Z -> K A) (Q : A -> env kernel -> kernel -> Prop) :
  (missing q cur (touched off n) <= nfree dv sb cur)%nat -> (bitmap_blocks sb + length (touched off n) + 6 < head)%nat ->
  user_bytes addr data s ->
  (forall s' cur', open_file f ip s' cur' (off + n) -> k_mem s' = k_mem s -> k_cpu s' = k_cpu s ->
     extends off data cur q cur' (locked_inode cur' sb (inode_of ip s')) -> wp (rest n) Q e s') ->
  wp (write_piece f ip (u32 addr) n rest) Q e s.
Proof.
  intros Hfree Hroom Hu HQ. unfold write_piece. apply wp_bind. eapply wp_intro; [apply idle_begins, Hwf|]. apply wp_bind.
  assert (Hsb : k_sb (begun s) = sb) by apply Hwf.
  eapply (wp_ilock (begun s) [] cur ∅ ip e).
  - apply cache_log, Hwf.
  - rewrite size_empty. unfold head. simpl. lia.
  - destruct (of_lock _ _ _ _ _ Hwf). by split.
  - rewrite Hsb. change (inode_of ip (begun s)) with (inode_of ip s). fold q. change (k_icache (begun s)) with (k_icache s).
    intros t Hc Hic _. pose proof (locked_state t Hc Hic) as Ht.
    assert (Hkeep : k_ftable t = k_ftable s /\ k_mem t = k_mem s /\ k_cpu t = k_cpu s) by (by destruct Hic as (bc & d & pt & -> & _)).
    destruct Hkeep as (E1 & E2 & E3). unfold fget. apply wp_bind, wp_get.
    replace (foff (file_of f t)) with off by (unfold file_of; rewrite E1; symmetry; apply Hwf).
    destruct (writei_ok dv start sb ip (SUser (u32 addr)) t cur ∅ q off data e) as (t' & cur' & dirt' & q' & Hrun & Hw);
      [done|apply Hwf|by eapply user_bytes_supplies|apply (of_off _ _ _ _ _ Hwf)|done|done|rewrite size_empty; exact Hroom|].
    apply wp_bind. eapply wp_intro; [exact Hrun|]. eapply wp_piece_end; [done|done|done|]. intros s' cur'' Hag Hof Em Ec Hrel.
    eapply HQ; [exact Hof|done|done|]. rewrite Hrel. by eapply wrote_extends.
Qed.

End piece.

(** * Theorem *)

Lemma missing_subset q cur T T' : NoDup T -> (forall j, j ∈ T -> j ∈ T') -> (missing q cur T <= missing q cur T')%nat.
Proof.
  intros Hnd Hin. apply submseteq_length, NoDup_submseteq; [by apply NoDup_filter|].
  intros j [Hj1 Hj2]%list_elem_of_filter. apply list_elem_of_filter. auto.
Qed.

Lemma touched_length off n : 0 <= off -> 0 <= n <= 6656 -> (length (touched off n) <= 15)%nat.
Proof.
  intros Ho Hn. unfold touched. rewrite length_app, length_seqZ, Nat2Z.id.
  assert (rounds off (off + n) <= 14)%nat by (unfold rounds; destruct (_ <? _); mlia).
  destruct (_ <? _); simpl; lia.
Qed.

(** [i] bytes have been written. *)
Definition written_to (f ip : nat) (s : kernel) (cur : Z * Z -> list Z) (off : Z) (data : list Z) (i : Z) (s' : kernel) : Prop :=
  exists cur', open_file f ip s' cur' (off + i) /\ k_mem s' = k_mem s /\ k_cpu s' = k_cpu s /\
    extends off (take (Z.to_nat i) data) cur (locked_inode cur sb (inode_of ip s)) cur' (locked_inode cur' sb (inode_of ip s')).

(** The next piece. *)
Lemma wp_next_piece {A} f ip addr s cur off data i n1 s1 e (rest : Z -> K A) (Q : A -> env kernel -> kernel -> Prop) :
  let n := Z.of_nat (length data) in let q := locked_inode cur sb (inode_of ip s) in
  0 <= off -> off + n <= MAXFILE * BSIZE -> (missing q cur (touched off n) <= nfree dv sb cur)%nat -> (bitmap_blocks sb + 21 < head)%nat ->
  user_bytes addr data s -> 0 <= i -> 0 < n1 <= 6656 -> i + n1 <= n -> written_to f ip s cur off data i s1 ->
  (forall s', written_to f ip s cur off data (i + n1) s' -> wp (rest n1) Q e s') ->
  wp (write_piece f ip (u32 (addr + i)) n1 rest) Q e s1.
Proof.
  intros n q Hoff Hmax Hfree Hroom Hu Hi Hn1 Hin (cur1 & Hof & Em & Ec & Hex) HQ.
  set (piece := take (Z.to_nat n1) (drop (Z.to_nat i) data)).
  assert (Hlen : Z.of_nat (length piece) = n1) by (unfold piece; rewrite length_take, length_drop; lia).
  assert (Hti : Z.of_nat (length (take (Z.to_nat i) data)) = i) by (rewrite length_take; lia).
  set (T := touched off n) in *.
  assert (HT : NoDup T /\ forall j, j ∈ T -> 0 <= j <= MAXFILE) by (split; [apply touched_NoDup; lia|intros j; apply touched_slots; lia]).
  pose proof (ex_count _ _ _ _ _ _ Hex T (proj1 HT)) as Hcnt. rewrite Hti in Hcnt.
  specialize (Hcnt ltac:(intros j; apply touched_mono; lia) (proj2 HT)). fold q in Hcnt.
  assert (Hsub : (missing (locked_inode cur1 sb (inode_of ip s1)) cur1 (touched (off + i) n1) <=
    missing (locked_inode cur1 sb (inode_of ip s1)) cur1 T)%nat).
  { apply missing_subset; [apply touched_NoDup; lia|]. intros j. apply touched_mono; lia. }
  pose proof (touched_length (off + i) n1 ltac:(lia) ltac:(lia)) as Ht.
  pose proof (user_bytes_part addr data s s1 i (Z.to_nat n1) Hu Em Ec Hi) as Hup. fold piece in Hup. rewrite <- Hlen.
  apply (wp_piece f ip s1 cur1 (off + i) piece Hof); rewrite ?Hlen; [lia|lia|lia|lia|done|].
  intros s' cur' Hof' Em' Ec' Hex'. apply HQ. exists cur'. split_and!; [by rewrite Z.add_assoc|congruence|congruence|].
  replace (take (Z.to_nat (i + n1)) data) with (take (Z.to_nat i) data ++ piece).
  - eapply extends_trans; [exact Hex|]. by rewrite Hti.
  - unfold piece. rewrite Z2Nat.inj_add by lia. apply take_take_drop.
Qed.

(** C4: [filewrite] stores the bytes.  For an open file and bytes of the process, in any number of pieces,
    when no other operation is in progress, the file does not become too large, the blocks that the write needs
    are free and the bitmap has at most eight blocks, it returns the number of bytes and moves the offset past
    them.  The disk then has the file with the new bytes where they were
    asked for and the old ones elsewhere, its inode with the new size, and every block in use by
    anything else as before; the file is open as it was, and everything is committed. *)
Theorem filewrite_spec f ip addr s cur off data e :
  let n := Z.of_nat (length data) in let q := locked_inode cur sb (inode_of ip s) in
  open_file f ip s cur off -> user_bytes addr data s ->
  off + n <= MAXFILE * BSIZE -> (missing q cur (touched off n) <= nfree dv sb cur)%nat -> (bitmap_blocks sb + 21 < head)%nat ->
  exists s' cur', filewrite f addr n e s = Done n e s' /\ open_file f ip s' cur' (off + n) /\
    (forall b, outside dv start b -> contents (k_disk s') b = cur' b) /\
    let q' := locked_inode cur' sb (inode_of ip s') in
    isize q' = Z.max (isize q) (off + n) /\
    (forall p, 0 <= p < isize q' ->
       file_byte q' cur' p = if decide (off <= p < off + n) then lget data (Z.to_nat (p - off)) else file_byte q cur p) /\
    (forall b, outside dv start b -> elsewhere dv sb cur q b -> b <> (dv, IBLOCK (inum q) sb) -> cur' b = cur b).
Proof.
  intros n q Hof Hu Hmax Hfree Hroom. pose proof (of_off _ _ _ _ _ Hof) as Hoff.
  assert (Hw : wp (filewrite f addr n) (fun r e' s' => r = n /\ e' = e /\ written_to f ip s cur off data n s') e s).
  { destruct (of_fd _ _ _ _ _ Hof) as (Hwr & Hft & Hfip).
    unfold filewrite. apply wp_bind, wp_get. rewrite (proj2 (Z.eqb_neq _ _) Hwr), Hft, Hfip. cbv zeta.
    change (LOGSIZE - 1 - 1 - 2) with 26 in *. change (26 / 2 * 512) with 6656 in *. apply wp_bind.
    apply (wp_loop (fun i e' s' => e' = e /\ 0 <= i <= n /\ written_to f ip s cur off data i s')
      (fun i => Z.to_nat ((n - i + 6655) / 6656))).
    - mlia.
    - split; [done|]. split; [lia|]. exists cur. rewrite Z.add_0_r. split_and!; [done..|]. apply extends_refl. lia.
    - intros i e' s1 (-> & Hi & Hwi). destruct (Z.ltb_spec i n) as [Hlt|Hge]; cbn [negb].
      2: { apply wp_ret, wp_ret. assert (i = n) as -> by lia. rewrite Z.eqb_refl. done. }
      set (n1 := if 6656 <? n - i then 6656 else n - i).
      assert (Hn1 : 0 < n1 <= 6656 /\ i + n1 <= n /\ (n1 = 6656 \/ i + n1 = n)) by (unfold n1; destruct (Z.ltb_spec 6656 (n - i)); lia).
      destruct Hn1 as (Hn1 & Hin & Hn2). clearbody n1.
      apply (wp_next_piece f ip addr s cur off data i n1 s1 e); [lia|done|done|done|done|lia|done|done|done|].
      intros s' Hw'. cbv beta. rewrite (proj2 (Z.ltb_ge n1 0)), Z.eqb_refl by lia. cbn [negb]. apply wp_ret.
      split; [split; [done|]; split; [lia|done]|]. mlia. }
  apply wp_elim in Hw as (r & e' & s' & Hrun & -> & -> & cur' & Hof' & _ & _ & Hex).
  rewrite take_ge in Hex by lia. fold q in Hex. set (q' := locked_inode cur' sb (inode_of ip s')) in *.
  pose proof (of_file _ _ _ _ _ Hof') as Hf'. fold q' in Hf'. pose proof (fl_size _ _ _ _ _ Hf') as Hsz.
  assert (Es : isize q' = Z.max (isize q) (off + n)) by (by rewrite (ex_shape _ _ _ _ _ _ Hex)).
  exists s', cur'. split; [done|]. split; [done|]. split; [|cbv zeta; fold q'; split_and!; [done| |apply Hex]].
  - intros b Hb. symmetry. apply (ca_clean _ _ _ _ (of_cache _ _ _ _ _ Hof')); [apply Hb|apply not_elem_of_empty|apply none_held].
  - intros p Hp. rewrite <- (fdata_byte dv start sb), (ex_data _ _ _ _ _ _ Hex) by (done || lia). fold n.
    case_decide; [done|]. apply (fdata_byte dv start sb); [apply Hof|]. fold q. fold q in Hoff. lia.
Qed.

End filewrite.

(** * A process writes to an empty file *)

#[local] Existing Instance built_symbols.
#[local] Existing Instance bw_driver | 0.
#[local] Existing Instance bw_sync | 0.
#[local] Existing Instance fw_devsw.

(** Every byte of the memory is 1, so that all addresses are mapped. *)
Definition vw_boot : kernel :=
  set_k_mem (fun _ => 1) (set_k_ftable [mkFile FD_INODE 1 1 1 0 (Some 0%nat) 0]
    (set_k_icache (set_iflags 2 (ew_inode T_FILE) :: replicate 49 zero_inode) (set_lock L_icache (mkLock 0 "icache" None)
      (set_k_sb aw_sb (set_k_disk (ew_disk T_FILE) (lw_boot 0)))))).
Definition vw_state : kernel := after_binit vw_boot.

Lemma vw_cache :
  cache vw_state [] (contents (ew_disk T_FILE)) ∅ /\
  exists bs, vw_state = set_k_bcache bs (set_lock L_bcache (mkLock 0 "bcache" None) vw_boot).
Proof.
  destruct bw_boot_ok as (H1 & H2 & H3 & H4 & H5).
  exact (after_binit_cache vw_boot H1 H2 H3 (conj H3 (proj2 H4)) H5).
Qed.

Lemma vw_idle : log_idle 1 2 vw_state.
Proof.
  destruct vw_cache as [_ [bs ->]]. split; [|split; [by split|by eexists]|done|done|done|done|by vm_compute].
  exists (replicate (Z.to_nat LOGSIZE) 0). eapply transaction_log_eq, (lw_transaction 0). by rewrite lw_log.
Qed.

Lemma vw_lockable : lockable vw_state [] (contents (ew_disk T_FILE)) 0.
Proof.
  destruct vw_cache as [_ [bs ->]]. split; [simpl; lia|split; [by split|by eexists]|done|done|done| |by right].
  split_and!; [done|apply in_built_image; vm_compute; done|apply none_held].
Qed.

Lemma vw_locked : locked_inode (contents (ew_disk T_FILE)) aw_sb (inode_of 0 vw_state) = ew_inode T_FILE.
Proof. destruct vw_cache as [_ [bs ->]]. done. Qed.

Lemma vw_file : open_file 1 2 aw_sb 0 0 vw_state (contents (ew_disk T_FILE)) 0.
Proof.
  split; rewrite ?vw_locked; [| |apply vw_cache|apply vw_idle| |apply vw_lockable|apply ew_map|by apply ew_file|by apply ew_saved|done|done];
    destruct vw_cache as [_ [bs ->]]; [done| |done]. split; [done|simpl; lia].
Qed.

(** More than one piece. *)
Definition vw_data : list Z := replicate (Z.to_nat 7000) 1.

Lemma vw_length : Z.of_nat (length vw_data) = 7000.
Proof. done. Qed.

Lemma vw_byte j : 0 <= j < 7000 -> lget vw_data (Z.to_nat j) = 1.
Proof. intros Hj. unfold lget, vw_data. apply nth_lookup_Some. apply lookup_replicate_2. lia. Qed.

Lemma vw_bytes : user_bytes 0x1000 vw_data vw_state.
Proof.
  destruct vw_cache as [_ [bs ->]]. intros j Hj. rewrite vw_length in Hj.
  eexists. split; [reflexivity|]. by rewrite vw_byte.
Qed.

Lemma filewrite_spec_witness :
  exists s' cur', filewrite 0 0x1000 7000 [] vw_state = Done 7000 [] s' /\ foff (file_of 0 s') = 7000 /\
    file_byte (locked_inode cur' aw_sb (inode_of 0 s')) cur' 6999 = 1.
Proof.
  assert (H1 : (missing (locked_inode (contents (ew_disk T_FILE)) aw_sb (inode_of 0 vw_state)) (contents (ew_disk T_FILE))
    (touched 0 (Z.of_nat (length vw_data))) <= nfree 1 aw_sb (contents (ew_disk T_FILE)))%nat).
  { rewrite vw_locked. apply Nat.leb_le. vm_compute. reflexivity. }
  assert (H2 : (bitmap_blocks aw_sb + 21 < head)%nat) by (apply Nat.ltb_lt; vm_compute; reflexivity).
  assert (H3 : 0 + Z.of_nat (length vw_data) <= MAXFILE * BSIZE) by (vm_compute; congruence).
  destruct (filewrite_spec 1 2 aw_sb 0 0 0x1000 vw_state (contents (ew_disk T_FILE)) 0 vw_data [] vw_file vw_bytes H3 H1 H2)
    as (s' & cur' & Hrun & Hof & _ & Hsz & Hby & _).
  rewrite vw_length in Hrun, Hof, Hsz, Hby. exists s', cur'. split; [exact Hrun|].
  split; [apply (of_pos _ _ _ _ _ _ _ _ Hof)|]. rewrite vw_locked in Hsz. rewrite Hby; [|rewrite Hsz; simpl; lia].
  rewrite decide_True by lia. apply vw_byte. lia.
Defined.
