(* ===== verification/Syscall.v ===== *)
(** syscall.c: fetching system call arguments, and sysfile.c: the file system calls.

    A system call runs with the current process's trap frame in memory at [tf]; a
    string argument is given by its bytes, which [fetchstr] walks through up to the
    terminating NUL. *)

From S2P Require Import Prelude Params Mem State Spinlock Console Kalloc Vm.
From S2P Require Import Proc Ide Bio Log Umem Fs Pipe.

Section syscall.
Context `{Symbols} `{Driver} `{DevSw}.

(** x86.h: offsets in [struct trapframe]. *)
Definition tf_eax : Z := 28.
Definition tf_es : Z := 40.
Definition tf_ds : Z := 44.
Definition tf_trapno : Z := 48.
Definition tf_err : Z := 52.
Definition tf_eip : Z := 56.
Definition tf_cs : Z := 60.
Definition tf_eflags : Z := 64.
Definition tf_esp : Z := 68.
Definition tf_ss : Z := 72.

Definition tf_get (o : Z) : K Z :=
  p ← myproc;
  t ← pget p tf;
  kread32 (t + o).

Definition tf_set (o v : Z) : K unit :=
  p ← myproc;
  t ← pget p tf;
  kwrite32 (t + o) v.

(** Fetch the int at addr from the current process. *)
Definition fetchint (addr : Z) : K (option Z) :=
  p ← myproc;
  psz ← pget p sz;
  if (psz <=? addr) || (psz <? u32 (addr + 4)) then mret None
  else v ← uld32 addr; mret (Some (s32 v)).

(** Fetch the nul-terminated string at addr from the current process. *)
Definition fetchstr (addr : Z) : K (option (list Z)) :=
  p ← myproc;
  psz ← pget p sz;
  if psz <=? addr then mret None
  else
    loop (Z.to_nat (psz - addr + 1)) (fun '(s, acc) =>
      if negb (s <? psz) then mret (inr None)
      else
        c ← uld8 s;
        if c =? 0 then mret (inr (Some acc))
        else mret (inl (s + 1, acc ++ [c]))) (addr, []).

(** Fetch the nth 32-bit system call argument. *)
Definition argint (n : Z) : K (option Z) :=
  esp ← tf_get tf_esp;
  fetchint (u32 (esp + 4 + 4 * n)).

(** Fetch the nth word-sized system call argument as a pointer to a block of memory
    of size bytes. *)
Definition argptr (n size : Z) : K (option Z) :=
  i ← argint n;
  match i with
  | None => mret None
  | Some i =>
      p ← myproc;
      psz ← pget p sz;
      if (psz <=? u32 i) || (psz <? u32 (u32 i + size)) then mret None
      else mret (Some (u32 i))
  end.

(** Fetch the nth word-sized system call argument as a string. *)
Definition argstr (n : Z) : K (option (list Z)) :=
  a ← argint n;
  match a with
  | None => mret None
  | Some a => fetchstr (u32 a)
  end.

(** Fetch the nth word-sized system call argument as a file descriptor. *)
Definition argfd (n : Z) : K (option (Z * nat)) :=
  fd ← argint n;
  match fd with
  | None => mret None
  | Some fd =>
      if (fd <? 0) || (NOFILE <=? fd) then mret None
      else
        p ← myproc;
        f ← pget p (fun q => mjoin (ofile q !! Z.to_nat fd));
        match f with
        | None => mret None
        | Some f => mret (Some (fd, f))
        end
  end.

(** Allocate a file descriptor for the given file. *)
Definition fdalloc (f : nat) : K Z :=
  p ← myproc;
  r ← for_each (seqZ 0 NOFILE) (fun fd =>
    o ← pget p (fun q => mjoin (ofile q !! Z.to_nat fd));
    match o with
    | None =>
        pset p (fun q => set_ofile (<[Z.to_nat fd := Some f]> (ofile q)) q);;
        mret (Some fd)
    | Some _ => mret None
    end);
  mret (default (-1) r).

Definition sys_dup : K Z :=
  a ← argfd 0;
  match a with
  | None => mret (-1)
  | Some (_, f) =>
      fd ← fdalloc f;
      if fd <? 0 then mret (-1)
      else filedup f;; mret fd
  end.

(** The arguments (fd, p, n) of read and write. *)
Definition rw_args : K (option (nat * Z * Z)) :=
  a ← argfd 0;
  match a with
  | None => mret None
  | Some (_, f) =>
      n ← argint 2;
      match n with
      | None => mret None
      | Some n =>
          p ← argptr 1 n;
          match p with
          | None => mret None
          | Some p => mret (Some (f, p, n))
          end
      end
  end.

Definition sys_read : K Z :=
  a ← rw_args;
  match a with None => mret (-1) | Some (f, p, n) => fileread f p n end.

Definition sys_write : K Z :=
  a ← rw_args;
  match a with None => mret (-1) | Some (f, p, n) => filewrite f p n end.

Definition set_fd (fd : Z) (f : option nat) : K unit :=
  p ← myproc;
  pset p (fun q => set_ofile (<[Z.to_nat fd := f]> (ofile q)) q).

Definition sys_close : K Z :=
  a ← argfd 0;
  match a with
  | None => mret (-1)
  | Some (fd, f) =>
      set_fd fd None;;
      fileclose f;;
      mret 0
  end.

Definition sizeof_stat : Z := 20.

Definition sys_fstat : K Z :=
  a ← argfd 0;
  match a with
  | None => mret (-1)
  | Some (_, f) =>
      st ← argptr 1 sizeof_stat;
      match st with None => mret (-1) | Some st => filestat f st end
  end.

Definition new_name : list Z := replicate (Z.to_nat DIRSIZ) 0.

(** Create the path new as a link to the same inode as old. *)
Definition sys_link : K Z :=
  old ← argstr 0;
  match old with
  | None => mret (-1)
  | Some old =>
      new ← argstr 1;
      match new with
      | None => mret (-1)
      | Some new =>
          begin_op;;
          ip ← namei old;
          match ip with
          | None => end_op;; mret (-1)
          | Some ip =>
              ilock (Some ip);;
              ty ← iget_f ip itype;
              if ty =? T_DIR then iunlockput ip;; end_op;; mret (-1)
              else
                iset ip (fun q => set_inlink (s16 (inlink q + 1)) q);;
                iupdate ip;;
                iunlock (Some ip);;
                let bad : K Z :=
                  ilock (Some ip);;
                  iset ip (fun q => set_inlink (s16 (inlink q - 1)) q);;
                  iupdate ip;;
                  iunlockput ip;;
                  end_op;;
                  mret (-1) in
                d ← nameiparent new new_name;
                match d with
                | (None, _) => bad
                | (Some dp, name) =>
                    ilock (Some dp);;
                    dd ← iget_f dp idev;
                    di ← iget_f ip idev;
                    n ← iget_f ip inum;
                    r ← (if negb (dd =? di) then mret (-1) else dirlink dp (lstr name) n);
                    if r <? 0 then iunlockput dp;; bad
                    else
                      iunlockput dp;;
                      iput ip;;
                      end_op;;
                      mret 0
                end
          end
      end
  end.

(** Is the directory dp empty except for "." and ".." ? *)
Definition isdirempty (dp : nat) : K bool :=
  size ← iget_f dp isize;
  loop (Z.to_nat (size / sizeof_dirent + 2)) (fun off =>
    size ← iget_f dp isize;
    if negb (off <? size) then mret (inr true)
    else
      r ← readi dp DKernel off sizeof_dirent;
      if negb (r.1 =? sizeof_dirent) then panic "isdirempty: readi" else
      if negb (de_inum r.2 =? 0) then mret (inr false)
      else mret (inl (off + sizeof_dirent))) (2 * sizeof_dirent).

Definition sys_unlink : K Z :=
  path ← argstr 0;
  match path with
  | None => mret (-1)
  | Some path =>
      begin_op;;
      d ← nameiparent path new_name;
      match d with
      | (None, _) => end_op;; mret (-1)
      | (Some dp, name) =>
          let bad : K Z := iunlockput dp;; end_op;; mret (-1) in
          ilock (Some dp);;
          if (namecmp (lstr name) (lstr (str ".")) =? 0) || (namecmp (lstr name) (lstr (str "..")) =? 0)
          then bad
          else
            r ← dirlookup dp (lstr name);
            match r with
            | None => bad
            | Some (ip, off) =>
                ilock (Some ip);;
                nl ← iget_f ip inlink;
                if nl <? 1 then panic "unlink: nlink < 1" else
                ty ← iget_f ip itype;
                em ← (if ty =? T_DIR then isdirempty ip else mret true);
                if negb em then iunlockput ip;; bad
                else
                  w ← writei dp (SKernel (replicate (Z.to_nat sizeof_dirent) 0)) off sizeof_dirent;
                  if negb (w =? sizeof_dirent) then panic "unlink: writei" else
                  when (ty =? T_DIR) (
                    iset dp (fun q => set_inlink (s16 (inlink q - 1)) q);;
                    iupdate dp);;
                  iunlockput dp;;
                  iset ip (fun q => set_inlink (s16 (inlink q - 1)) q);;
                  iupdate ip;;
                  iunlockput ip;;
                  end_op;;
                  mret 0
            end
      end
  end.

Definition create (path : list Z) (type major minor : Z) : K (option nat) :=
  d ← nameiparent path new_name;
  match d with
  | (None, _) => mret None
  | (Some dp, name) =>
      ilock (Some dp);;
      r ← dirlookup dp (lstr name);
      match r with
      | Some (ip, _) =>
          iunlockput dp;;
          ilock (Some ip);;
          ty ← iget_f ip itype;
          if (type =? T_FILE) && (ty =? T_FILE) then mret (Some ip)
          else iunlockput ip;; mret None
      | None =>
          dev ← iget_f dp idev;
          ip ← ialloc dev type;
          ilock (Some ip);;
          iset ip (set_imajor (s16 major));;
          iset ip (set_iminor (s16 minor));;
          iset ip (set_inlink 1);;
          iupdate ip;;
          n ← iget_f ip inum;
          when (type =? T_DIR) (
            iset dp (fun q => set_inlink (s16 (inlink q + 1)) q);;
            iupdate dp;;
            a ← dirlink ip (lstr (str ".")) n;
            if a <? 0 then panic "create dots" else
            dn ← iget_f dp inum;
            b ← dirlink ip (lstr (str "..")) dn;
            if b <? 0 then panic "create dots" else mret tt);;
          r ← dirlink dp (lstr name) n;
          if r <? 0 then panic "create: dirlink" else
          iunlockput dp;;
          mret (Some ip)
      end
  end.

Definition sys_open : K Z :=
  path ← argstr 0;
  match path with
  | None => mret (-1)
  | Some path =>
      omode ← argint 1;
      match omode with
      | None => mret (-1)
      | Some omode =>
          begin_op;;
          ip ← (if cbool (Z.land omode O_CREATE) then create path T_FILE 0 0
                else
                  ip ← namei path;
                  match ip with
                  | None => mret None
                  | Some ip =>
                      ilock (Some ip);;
                      ty ← iget_f ip itype;
                      if (ty =? T_DIR) && negb (omode =? O_RDONLY)
                      then iunlockput ip;; mret None
                      else mret (Some ip)
                  end);
          match ip with
          | None => end_op;; mret (-1)
          | Some ip =>
              f ← filealloc;
              fd ← (match f with None => mret (-1) | Some f => fdalloc f end);
              match f with
              | Some f =>
                  if fd <? 0 then
                    fileclose f;;
                    iunlockput ip;;
                    end_op;;
                    mret (-1)
                  else
                    iunlock (Some ip);;
                    end_op;;
                    fset f (set_ftype FD_INODE);;
                    fset f (set_fip (Some ip));;
                    fset f (set_foff 0);;
                    fset f (set_readable (if cbool (Z.land omode O_WRONLY) then 0 else 1));;
                    fset f (set_writable
                      (if cbool (Z.land omode O_WRONLY) || cbool (Z.land omode O_RDWR) then 1 else 0));;
                    mret fd
              | None =>
                  iunlockput ip;;
                  end_op;;
                  mret (-1)
              end
          end
      end
  end.

Definition sys_mkdir : K Z :=
  begin_op;;
  path ← argstr 0;
  ip ← (match path with None => mret None | Some path => create path T_DIR 0 0 end);
  match ip with
  | None => end_op;; mret (-1)
  | Some ip => iunlockput ip;; end_op;; mret 0
  end.

Definition sys_mknod : K Z :=
  begin_op;;
  path ← argstr 0;
  ip ← (match path with
        | None => mret None
        | Some path =>
            major ← argint 1;
            match major with
            | None => mret None
            | Some major =>
                minor ← argint 2;
                match minor with
                | None => mret None
                | Some minor => create path T_DEV major minor
                end
            end
        end);
  match ip with
  | None => end_op;; mret (-1)
  | Some ip => iunlockput ip;; end_op;; mret 0
  end.

Definition sys_chdir : K Z :=
  begin_op;;
  path ← argstr 0;
  ip ← (match path with None => mret None | Some path => namei path end);
  match ip with
  | None => end_op;; mret (-1)
  | Some ip =>
      ilock (Some ip);;
      ty ← iget_f ip itype;
      if negb (ty =? T_DIR) then iunlockput ip;; end_op;; mret (-1)
      else
        iunlock (Some ip);;
        p ← myproc;
        d ← pget p cwd;
        match d with Some d => iput d | None => hang end;;
        end_op;;
        pset p (set_cwd (Some ip));;
        mret 0
  end.

Definition sys_pipe : K Z :=
  fd ← argptr 0 8;
  match fd with
  | None => mret (-1)
  | Some fd =>
      r ← pipealloc;
      match r with
      | None => mret (-1)
      | Some (rf, wf) =>
          fd0 ← fdalloc rf;
          fd1 ← (if fd0 <? 0 then mret (-1) else fdalloc wf);
          if (fd0 <? 0) || (fd1 <? 0) then
            when (0 <=? fd0) (set_fd fd0 None);;
            fileclose rf;;
            fileclose wf;;
            mret (-1)
          else
            ust32 fd fd0;;
            ust32 (u32 (fd + 4)) fd1;;
            mret 0
      end
  end.

End syscall.
