(* ===== verification/Exec.v ===== *)
(** exec.c, with [loaduvm] of vm.c and [sys_exec] of sysfile.c.

    Local variables of exec.c that the code may leave unset are zero. *)

From S2P Require Import Prelude Params Mem State Spinlock Console Kalloc Vm.
From S2P Require Import Proc Ide Bio Log Umem Fs Pipe Syscall.

Section exec.
Context `{Symbols} `{Driver} `{DevSw}.

(** elf.h *)
Definition ELF_MAGIC : Z := 0x464C457F.
Definition ELF_PROG_LOAD : Z := 1.
Definition sizeof_elfhdr : Z := 52.
Definition sizeof_proghdr : Z := 32.
Definition elf_magic (d : list Z) : Z := get32 d 0.
Definition elf_entry (d : list Z) : Z := get32 d 24.
Definition elf_phoff (d : list Z) : Z := get32 d 28.
Definition elf_phnum (d : list Z) : Z := get16 d 44.
Definition ph_type (d : list Z) : Z := get32 d 0.
Definition ph_off (d : list Z) : Z := get32 d 4.
Definition ph_vaddr (d : list Z) : Z := get32 d 8.
Definition ph_filesz (d : list Z) : Z := get32 d 16.
Definition ph_memsz (d : list Z) : Z := get32 d 20.

(** Load a program segment into pgdir.  addr must be page-aligned and the pages from
    addr to addr+sz must already be mapped. *)
Definition loaduvm (pgdir addr : Z) (ip : nat) (offset sz : Z) : K Z :=
  if cbool (addr mod PGSIZE) then panic "loaduvm: addr must be page aligned" else
  loop (Z.to_nat (sz / PGSIZE + 2)) (fun i =>
    if negb (i <? sz) then mret (inr 0)
    else
      pte ← walkpgdir pgdir (u32 (addr + i)) 0;
      if pte =? 0 then panic "loaduvm: address should exist" else
      v ← kread32 pte;
      let pa := PTE_ADDR v in
      let n := if sz - i <? PGSIZE then sz - i else PGSIZE in
      r ← readi ip (DPhys (p2v pa)) (u32 (offset + i)) n;
      if negb (u32 r.1 =? n) then mret (inr (-1))
      else mret (inl (i + PGSIZE))) 0.

(** The loop over the program headers: the size of the image, or an error. *)
Definition load_segments (pgdir : Z) (ip : nat) (elf : list Z) : K (option Z) :=
  loop (S (Z.to_nat (elf_phnum elf))) (fun '(i, off, sz) =>
    if negb (i <? elf_phnum elf) then mret (inr (Some sz))
    else
      r ← readi ip DKernel (u32 off) sizeof_proghdr;
      if negb (r.1 =? sizeof_proghdr) then mret (inr None) else
      let ph := r.2 in
      let next (sz : Z) : K ((Z * Z * Z) + option Z) :=
        mret (inl (i + 1, u32 (off + sizeof_proghdr), sz)) in
      if negb (ph_type ph =? ELF_PROG_LOAD) then next sz
      else if ph_memsz ph <? ph_filesz ph then mret (inr None)
      else
        sz ← allocuvm pgdir sz (u32 (ph_vaddr ph + ph_memsz ph));
        if sz =? 0 then mret (inr None)
        else
          l ← loaduvm pgdir (ph_vaddr ph) ip (ph_off ph) (ph_filesz ph);
          if l <? 0 then mret (inr None) else next sz) (0, elf_phoff elf, 0).

(** Push the argument strings; the result is the new stack pointer and the addresses
    of the strings, or an error. *)
Definition push_args (pgdir sp : Z) (argv : list (list Z)) : K (option (Z * list Z)) :=
  r ← for_fold argv (fun s acc =>
    match acc with
    | None => mret None
    | Some (sp, addrs) =>
        if MAXARG <=? Z.of_nat (length addrs) then mret None
        else
          let len := Z.of_nat (length s) + 1 in
          let sp := Z.land (u32 (sp - len)) (u32 (Z.lnot 3)) in
          c ← copyout pgdir sp (s ++ [0]);
          if c <? 0 then mret None else mret (Some (sp, addrs ++ [sp]))
    end) (Some (sp, []));
  mret r.

Definition word_bytes (v : Z) : list Z :=
  let v := u32 v in [v mod 256; v / 256 mod 256; v / 65536 mod 256; v / 16777216].

(** [for(last=s=path; *s; s++) if( *s == '/') last = s+1] *)
Fixpoint last_elem (last path : list Z) : list Z :=
  match path with
  | [] => last
  | c :: path' => last_elem (if c =? chr "/" then path' else last) path'
  end.

Definition exec (path : list Z) (argv : list (list Z)) : K Z :=
  let bad (pgdir : Z) (ip : option nat) : K Z :=
    when (cbool pgdir) (freevm pgdir);;
    match ip with Some ip => iunlockput ip;; end_op | None => mret tt end;;
    mret (-1) in
  begin_op;;
  o ← namei path;
  match o with
  | None => end_op;; mret (-1)
  | Some ip =>
      ilock (Some ip);;
      r ← readi ip DKernel 0 sizeof_elfhdr;
      if u32 r.1 <? sizeof_elfhdr then bad 0 (Some ip) else
      let elf := r.2 in
      if negb (elf_magic elf =? ELF_MAGIC) then bad 0 (Some ip) else
      pgdir ← setupkvm;
      if pgdir =? 0 then bad 0 (Some ip) else
      l ← load_segments pgdir ip elf;
      match l with
      | None => bad pgdir (Some ip)
      | Some sz =>
          iunlockput ip;;
          end_op;;
          let sz := PGROUNDUP sz in
          sz ← allocuvm pgdir sz (u32 (sz + 2 * PGSIZE));
          if sz =? 0 then bad pgdir None else
          clearpteu pgdir (u32 (sz - 2 * PGSIZE));;
          a ← push_args pgdir sz argv;
          match a with
          | None => bad pgdir None
          | Some (sp, addrs) =>
              let argc := Z.of_nat (length addrs) in
              let ustack := [0xffffffff; argc; u32 (sp - (argc + 1) * 4)] ++ addrs ++ [0] in
              let sp := u32 (sp - (3 + argc + 1) * 4) in
              c ← copyout pgdir sp (ustack ≫= word_bytes);
              if c <? 0 then bad pgdir None else
              p ← myproc;
              pset p (fun q => set_pname (safestrcpy (pname q) (lstr (last_elem path path)) 16) q);;
              oldpgdir ← pget p State.pgdir;
              pset p (set_pgdir pgdir);;
              pset p (set_sz sz);;
              tf_set tf_eip (elf_entry elf);;
              tf_set tf_esp sp;;
              q ← get (proc_of p);
              switchuvm q;;
              freevm oldpgdir;;
              mret 0
          end
      end
  end.

Definition sys_exec : K Z :=
  path ← argstr 0;
  match path with
  | None => mret (-1)
  | Some path =>
      uargv ← argint 1;
      match uargv with
      | None => mret (-1)
      | Some uargv =>
          argv ← loop (S (Z.to_nat MAXARG)) (fun '(i, argv) =>
            if MAXARG <=? i then mret (inr None)
            else
              u ← fetchint (u32 (u32 uargv + 4 * i));
              match u with
              | None => mret (inr None)
              | Some u =>
                  if u =? 0 then mret (inr (Some argv))
                  else
                    s ← fetchstr (u32 u);
                    match s with
                    | None => mret (inr None)
                    | Some s => mret (inl (i + 1, argv ++ [s]))
                    end
              end) (0, []);
          match argv with
          | None => mret (-1)
          | Some argv => exec path argv
          end
      end
  end.

End exec.
