(* ===== verification/Bootmain.v ===== *)
(** bootmain.c: the boot loader.

    It runs before the kernel, with physical addresses.  The disk controller is an argument: what
    [insl] gets from port 0x1F0 as a function of the bytes last written to the other ports.  That it
    answers the command that the ports hold with that sector is the hypothesis of the theorems.
    [waitdisk], which polls the status port until the controller is ready, has no other effect. *)

From S2P Require Import Prelude Params Mem State Spinlock Console Kalloc Vm Proc Ide Bio Log Umem Fs Exec.

Definition SECTSIZE : Z := 512.

(** The bytes last written to the ports. *)
Definition latch (ports : Z -> Z) (port data : Z) : Z -> Z := fun q => if q =? port then u8 data else ports q.

Section loader.
Variable ports0 : Z -> Z.
Variable ata : (Z -> Z) -> Z -> Z.

(** The command that is issued to read a sector. *)
Definition sector_command (offset : Z) : Z -> Z :=
  let ports := latch ports0 0x1F2 1 in
  let ports := latch ports 0x1F3 offset in
  let ports := latch ports 0x1F4 (Z.shiftr offset 8) in
  let ports := latch ports 0x1F5 (Z.shiftr offset 16) in
  let ports := latch ports 0x1F6 (Z.lor (Z.shiftr offset 24) 0xE0) in
  latch ports 0x1F7 0x20.

(** Read a single sector at offset into dst: [insl] stores it byte after byte. *)
Definition readsect (m : memory) (dst offset : Z) : memory :=
  let ports := sector_command offset in
  fun x => let k := u32 (x - dst) in if k <? SECTSIZE then u8 (ata ports k) else m x.

(** [for(; pa < epa; pa += SECTSIZE, offset++) readsect(pa, offset)]; [None] when the loop does not end in time. *)
Fixpoint readseg_loop (fuel : nat) (m : memory) (pa epa offset : Z) : option memory :=
  if negb (pa <? epa) then Some m
  else match fuel with
       | O => None
       | S fuel' => readseg_loop fuel' (readsect m pa offset) (u32 (pa + SECTSIZE)) epa (u32 (offset + 1))
       end.

(** Read 'count' bytes at 'offset' from kernel into physical address 'pa'.  Might copy more than asked. *)
Definition readseg (m : memory) (pa count offset : Z) : option memory :=
  let epa := u32 (pa + count) in
  let pa := u32 (pa - offset mod SECTSIZE) in
  let offset := offset / SECTSIZE + 1 in
  readseg_loop (S (Z.to_nat (count / SECTSIZE + 1))) m pa epa offset.

(** The fields of the ELF header and of a program header in memory. *)
Definition ELFHDR : Z := 0x10000.
Definition bm_magic (m : memory) : Z := ld32 m ELFHDR.
Definition bm_entry (m : memory) : Z := ld32 m (ELFHDR + 24).
Definition bm_phoff (m : memory) : Z := ld32 m (ELFHDR + 28).
Definition bm_phnum (m : memory) : Z := ld16 m (ELFHDR + 44).
Definition bm_off (m : memory) (ph : Z) : Z := ld32 m (ph + 4).
Definition bm_paddr (m : memory) (ph : Z) : Z := ld32 m (ph + 12).
Definition bm_filesz (m : memory) (ph : Z) : Z := ld32 m (ph + 16).
Definition bm_memsz (m : memory) (ph : Z) : Z := ld32 m (ph + 20).

(** Load each program segment (ignores ph flags). *)
Fixpoint load_loop (fuel : nat) (m : memory) (ph eph : Z) : option memory :=
  if negb (ph <? eph) then Some m
  else match fuel with
       | O => None
       | S fuel' =>
           let pa := bm_paddr m ph in
           let filesz := bm_filesz m ph in
           m ← readseg m pa filesz (bm_off m ph);
           let filesz := bm_filesz m ph in
           let memsz := bm_memsz m ph in
           let m := if filesz <? memsz then stosb m (u32 (pa + filesz)) 0 (Z.to_nat (memsz - filesz)) else m in
           load_loop fuel' m (u32 (ph + sizeof_proghdr)) eph
       end.

(** The memory, and the entry point that is called if there is an ELF file. *)
Definition bootmain (m : memory) : option (memory * option Z) :=
  m ← readseg m ELFHDR 4096 0;
  if negb (bm_magic m =? ELF_MAGIC) then Some (m, None)
  else
    let ph := u32 (ELFHDR + bm_phoff m) in
    let eph := u32 (ph + sizeof_proghdr * bm_phnum m) in
    m ← load_loop (Z.to_nat (bm_phnum m)) m ph eph;
    Some (m, Some (bm_entry m)).

(** * Reading a segment *)

(** The controller answers the command to read one sector, with a block address of 28 bits, with the bytes of that sector. *)
Definition ata_reads (disk : Z -> Z) : Prop :=
  forall ports lba k, 0 <= lba < 268435456 -> 0 <= k < 512 ->
    ports 0x1F2 = 1 -> ports 0x1F3 = u8 lba -> ports 0x1F4 = u8 (lba / 256) -> ports 0x1F5 = u8 (lba / 65536) ->
    ports 0x1F6 = 0xE0 + lba / 16777216 -> ports 0x1F7 = 0x20 ->
    u8 (ata ports k) = u8 (disk (512 * lba + k)).

Variable disk : Z -> Z.
Hypothesis Hata : ata_reads disk.

Lemma sector_command_reads off k : 0 <= off < 268435456 -> 0 <= k < 512 -> u8 (ata (sector_command off) k) = u8 (disk (512 * off + k)).
Proof.
  intros Ho Hk. apply Hata; [done|done|done|done| | | |done]; unfold sector_command, latch; cbn [Z.eqb Pos.eqb].
  - by rewrite Z.shiftr_div_pow2.
  - by rewrite Z.shiftr_div_pow2.
  - rewrite Z.shiftr_div_pow2 by lia. change (2 ^ 24) with 16777216.
    assert (Hd : 0 <= off / 16777216 < 16) by (Z.div_mod_to_equations; lia).
    rewrite Z.lor_comm, (lor_add_low 0xE0 _ 5) by (done || lia). unfold u8. rewrite Z.mod_small; lia.
Qed.

Lemma ld8_readsect m dst off x : 0 <= dst -> dst + SECTSIZE <= 4294967296 -> 0 <= off < 268435456 -> 0 <= x < 4294967296 ->
  ld8 (readsect m dst off) x = if (dst <=? x) && (x <? dst + SECTSIZE) then u8 (disk (SECTSIZE * off + (x - dst))) else ld8 m x.
Proof.
  change SECTSIZE with 512. intros Hd Hd' Ho Hx. unfold ld8, readsect. change SECTSIZE with 512.
  assert (E : (u32 (x - dst) <? 512) = (dst <=? x) && (x <? dst + 512)).
  { unfold u32. destruct (Z.leb_spec dst x).
    - rewrite Z.mod_small by lia. cbn [andb]. zif; lia.
    - rewrite <- (Z.mod_unique (x - dst) 4294967296 (-1) (x - dst + 4294967296)) by lia. cbn [andb]. apply Z.ltb_ge. lia. }
  rewrite E. destruct (_ && _) eqn:E2; [|done]. assert (Eu : u32 (x - dst) = x - dst) by (apply u32_small; lia).
  rewrite Eu, <- sector_command_reads by lia. unfold u8. by rewrite Z.mod_mod by lia.
Qed.

(** The sectors read from [pa] on. *)
Definition nsect (pa epa : Z) : Z := if pa <? epa then (epa - pa + 511) / 512 else 0.

Lemma readseg_loop_ok fuel : forall m pa epa off,
  0 <= pa -> epa + 512 <= 4294967296 -> 0 <= off -> off + nsect pa epa < 268435456 -> nsect pa epa <= Z.of_nat fuel ->
  exists m', readseg_loop fuel m pa epa off = Some m' /\
    forall x, 0 <= x < 4294967296 ->
      ld8 m' x = if (pa <=? x) && (x <? pa + 512 * nsect pa epa) then u8 (disk (512 * off + (x - pa))) else ld8 m x.
Proof.
  induction fuel as [|fuel IH]; intros m pa epa off Hpa Hepa Hoff Hoffn Hn; unfold nsect in Hn, Hoffn; cbn [readseg_loop];
    destruct (Z.ltb_spec pa epa) as [Hlt|Hge]; cbn [negb].
  - exfalso. Z.div_mod_to_equations. lia.
  - exists m. split; [done|]. intros x Hx. unfold nsect. rewrite (proj2 (Z.ltb_ge _ _) Hge). by zif.
  - assert (Hstep : nsect pa epa = nsect (pa + 512) epa + 1).
    { unfold nsect. zif; Z.div_mod_to_equations; lia. }
    assert (Hnn : 0 <= nsect (pa + 512) epa) by (unfold nsect; zif; Z.div_mod_to_equations; lia).
    assert (Hns : nsect pa epa = (epa - pa + 511) / 512) by (unfold nsect; by rewrite (proj2 (Z.ltb_lt _ _) Hlt)).
    change SECTSIZE with 512. rewrite (u32_small (pa + 512)), (u32_small (off + 1)) by lia.
    destruct (IH (readsect m pa off) (pa + 512) epa (off + 1)) as (m' & Hm & Hx); [lia|lia|lia|lia|lia|].
    exists m'. split; [done|]. intros x Hxr. rewrite Hx, ld8_readsect, Hstep by (change SECTSIZE with 512; lia). change SECTSIZE with 512.
    zif; try lia; try done; f_equal; f_equal; lia.
  - exists m. split; [done|]. intros x Hx. unfold nsect. rewrite (proj2 (Z.ltb_ge _ _) Hge). by zif.
Qed.

(** Where [readseg] writes: from the sector boundary before [pa] to the one after the last byte. *)
Definition seg_start (pa off : Z) : Z := pa - off mod 512.
Definition seg_end (pa count off : Z) : Z := seg_start pa off + 512 * nsect (seg_start pa off) (pa + count).

Lemma readseg_ok m pa count off :
  0 <= count -> 0 <= off < 4294967296 -> off mod 512 <= pa -> pa + count + 512 <= 4294967296 ->
  exists m', readseg m pa count off = Some m' /\
    forall x, 0 <= x < 4294967296 ->
      ld8 m' x = if (seg_start pa off <=? x) && (x <? seg_end pa count off) then u8 (disk (512 + off + (x - pa))) else ld8 m x.
Proof.
  intros Hc Ho Hp He. unfold readseg. change SECTSIZE with 512. pose proof (Z.mod_pos_bound off 512 ltac:(lia)) as Hm.
  rewrite (u32_small (pa + count)), (u32_small (pa - off mod 512)) by lia. fold (seg_start pa off). set (a := seg_start pa off).
  assert (Hn : nsect a (pa + count) <= count / 512 + 2) by (unfold nsect, a, seg_start; zif; Z.div_mod_to_equations; lia).
  destruct (readseg_loop_ok (S (Z.to_nat (count / 512 + 1))) m a (pa + count) (off / 512 + 1)) as (m' & Hr & Hx);
    [unfold a, seg_start; lia|lia|Z.div_mod_to_equations; lia|Z.div_mod_to_equations; lia|Z.div_mod_to_equations; lia|].
  exists m'. split; [done|]. intros x Hxr. rewrite Hx by done. unfold seg_end. fold a.
  destruct (_ && _); [|done]. f_equal. f_equal. unfold a, seg_start. Z.div_mod_to_equations. lia.
Qed.

(** * The kernel file *)

(** The file starts at sector 1. *)
Definition kfile : memory := fun p => disk (512 + p).

Record segment := mkSegment { sg_paddr : Z; sg_off : Z; sg_filesz : Z; sg_memsz : Z }.
Definition file_segment (j : nat) : segment :=
  let ph := ld32 kfile 28 + 32 * Z.of_nat j in
  mkSegment (ld32 kfile (ph + 12)) (ld32 kfile (ph + 4)) (ld32 kfile (ph + 16)) (ld32 kfile (ph + 20)).

(** The first address that loading a segment writes, and the first one after its memory. *)
Definition sg_start (g : segment) : Z := seg_start (sg_paddr g) (sg_off g).
Definition sg_end (g : segment) : Z := sg_paddr g + Z.max (sg_filesz g) (sg_memsz g).

Definition segment_ok (g : segment) : Prop :=
  ELFHDR + 4096 <= sg_start g /\ sg_paddr g + sg_filesz g + 512 <= 4294967296 /\ sg_end g < 4294967296.

(** The memory has the bytes of the segment and zeros after them. *)
Definition loaded (m : memory) (g : segment) : Prop :=
  (forall k, 0 <= k < sg_filesz g -> ld8 m (sg_paddr g + k) = ld8 kfile (sg_off g + k)) /\
  (forall k, sg_filesz g <= k < sg_memsz g -> ld8 m (sg_paddr g + k) = 0).

(** The first page of the file is in memory. *)
Definition has_header (m : memory) : Prop := forall k, 0 <= k < 4096 -> ld8 m (ELFHDR + k) = ld8 kfile k.

Lemma header_ld32 m k : has_header m -> 0 <= k -> k + 4 <= 4096 -> ld32 m (ELFHDR + k) = ld32 kfile k.
Proof.
  intros Hh Hk Hk4. unfold ld32. rewrite (Hh k) by lia. rewrite <- !Z.add_assoc. by rewrite !Hh by lia.
Qed.

(** One round of the loop. *)
Lemma load_one fuel m ph eph j :
  has_header m -> ph = ELFHDR + (ld32 kfile 28 + 32 * Z.of_nat j) -> ph < eph -> eph <= ELFHDR + 4096 -> ph + 32 <= eph ->
  segment_ok (file_segment j) ->
  exists m', load_loop (S fuel) m ph eph = load_loop fuel m' (ph + 32) eph /\ loaded m' (file_segment j) /\
    forall x, 0 <= x < sg_start (file_segment j) -> ld8 m' x = ld8 m x.
Proof.
  intros Hh Hph Hlt Heph Hph' Hok. pose proof (ld32_range kfile 28) as Hr28. set (o := ld32 kfile 28 + 32 * Z.of_nat j) in *.
  assert (Ho : 0 <= o /\ o + 32 <= 4096) by (unfold o; change ELFHDR with 65536 in *; lia).
  set (g := file_segment j) in *. destruct Hok as (Hs & Hf & Hm).
  assert (Hfld : forall m2 d, has_header m2 -> 0 <= d <= 28 -> ld32 m2 (ph + d) = ld32 kfile (o + d)).
  { intros m2 d H2 Hd. rewrite Hph, <- Z.add_assoc. apply header_ld32; [done|lia|lia]. }
  cbn [load_loop]. rewrite (proj2 (Z.ltb_lt _ _) Hlt). cbn [negb]. unfold bm_paddr, bm_filesz, bm_off, bm_memsz. rewrite !Hfld by (done || lia).
  change (ld32 kfile (o + 12)) with (sg_paddr g). change (ld32 kfile (o + 16)) with (sg_filesz g). change (ld32 kfile (o + 4)) with (sg_off g).
  pose proof (ld32_range kfile (o + 16)) as Hr1. pose proof (ld32_range kfile (o + 4)) as Hr2. pose proof (ld32_range kfile (o + 20)) as Hr3.
  change (ld32 kfile (o + 16)) with (sg_filesz g) in Hr1. change (ld32 kfile (o + 4)) with (sg_off g) in Hr2. change (ld32 kfile (o + 20)) with (sg_memsz g) in Hr3.
  unfold sg_start, seg_start in Hs. change ELFHDR with 65536 in Hs. pose proof (Z.mod_pos_bound (sg_off g) 512 ltac:(lia)) as Hmod.
  destruct (readseg_ok m (sg_paddr g) (sg_filesz g) (sg_off g)) as (m1 & -> & Hx); [lia|lia|lia|lia|]. cbn [mbind option_bind].
  fold (sg_start g) in Hx. assert (Hst : sg_start g = sg_paddr g - sg_off g mod 512) by done.
  assert (Hh1 : has_header m1).
  { intros k Hk. rewrite Hx by (change ELFHDR with 65536; lia). rewrite (proj2 (Z.leb_gt _ _)) by (change ELFHDR with 65536; lia). by apply Hh. }
  rewrite !Hfld by (done || lia). change (ld32 kfile (o + 16)) with (sg_filesz g). change (ld32 kfile (o + 20)) with (sg_memsz g).
  rewrite (u32_small (sg_paddr g + sg_filesz g)), (u32_small (ph + sizeof_proghdr)) by (change sizeof_proghdr with 32; change ELFHDR with 65536 in *; lia).
  eexists. split; [reflexivity|]. unfold sg_end in Hm.
  assert (Hbytes : forall k, 0 <= k < sg_filesz g -> ld8 m1 (sg_paddr g + k) = ld8 kfile (sg_off g + k)).
  { intros k Hk. rewrite Hx by lia. assert (E : (sg_start g <=? sg_paddr g + k) && (sg_paddr g + k <? seg_end (sg_paddr g) (sg_filesz g) (sg_off g)) = true).
    { unfold seg_end. fold (sg_start g). unfold nsect. zif; Z.div_mod_to_equations; lia. }
    rewrite E. unfold ld8, kfile. do 2 f_equal. lia. }
  destruct (Z.ltb_spec (sg_filesz g) (sg_memsz g)) as [Hbss|Hbss].
  - split; [split|].
    + intros k Hk. rewrite ld8_stosb. rewrite (proj2 (Z.leb_gt _ _)) by lia. by apply Hbytes.
    + intros k Hk. rewrite ld8_stosb. zif; try lia. done.
    + intros x Hxs. rewrite ld8_stosb. rewrite (proj2 (Z.leb_gt _ _)) by lia. cbn [andb].
      rewrite Hx by lia. by rewrite (proj2 (Z.leb_gt _ _)) by lia.
  - split; [split|].
    + done.
    + intros k Hk. lia.
    + intros x Hxs. rewrite Hx by lia. by rewrite (proj2 (Z.leb_gt _ _)) by lia.
Qed.

(** A segment is not written again by the ones after it. *)
Lemma loaded_frame m m' g x0 :
  loaded m g -> sg_end g <= x0 -> 0 <= sg_paddr g -> 0 <= sg_filesz g -> (forall x, 0 <= x < x0 -> ld8 m' x = ld8 m x) -> loaded m' g.
Proof. unfold sg_end. intros [H1 H2] He Hp Hf Hx. split; intros k Hk; rewrite Hx by lia; [by apply H1|by apply H2]. Qed.

Lemma has_header_frame m m' : has_header m -> (forall x, 0 <= x < ELFHDR + 4096 -> ld8 m' x = ld8 m x) -> has_header m'.
Proof. intros Hh Hx k Hk. rewrite Hx by (change ELFHDR with 65536; lia). by apply Hh. Qed.

Section segments.
Variable n : nat.
Hypothesis Hheaders : ld32 kfile 28 + 32 * Z.of_nat n <= 4096.
Hypothesis Hsegments : forall j, (j < n)%nat -> segment_ok (file_segment j).
Hypothesis Horder : forall i j, (i < j < n)%nat -> sg_end (file_segment i) <= sg_start (file_segment j).

Lemma load_loop_ok k : forall i m, (i + k = n)%nat -> has_header m ->
  exists m', load_loop k m (ELFHDR + (ld32 kfile 28 + 32 * Z.of_nat i)) (ELFHDR + (ld32 kfile 28 + 32 * Z.of_nat n)) = Some m' /\
    has_header m' /\ (forall j, (i <= j < n)%nat -> loaded m' (file_segment j)) /\
    (forall x, 0 <= x -> (forall j, (i <= j < n)%nat -> x < sg_start (file_segment j)) -> ld8 m' x = ld8 m x).
Proof.
  induction k as [|k IH]; intros i m Hi Hh.
  - assert (i = n) as -> by lia. exists m. cbn [load_loop]. rewrite Z.ltb_irrefl. split_and!; [done|done|intros; lia|done].
  - destruct (load_one k m (ELFHDR + (ld32 kfile 28 + 32 * Z.of_nat i)) (ELFHDR + (ld32 kfile 28 + 32 * Z.of_nat n)) i) as (m1 & -> & Hl & Hx);
      [done|done|change ELFHDR with 65536; lia..|apply Hsegments; lia|].
    destruct (Hsegments i ltac:(lia)) as (Hs & _ & _).
    assert (Hh1 : has_header m1) by (eapply has_header_frame; [exact Hh|]; intros x Hxr; apply Hx; lia).
    destruct (IH (S i) m1 ltac:(lia) Hh1) as (m' & Hr & Hh' & Hld & Hfr).
    exists m'. replace (ELFHDR + (ld32 kfile 28 + 32 * Z.of_nat i) + 32) with (ELFHDR + (ld32 kfile 28 + 32 * Z.of_nat (S i))) by lia.
    split_and!; [done|done| |].
    + intros j Hj. destruct (decide (j = i)) as [->|]; [|apply Hld; lia]. pose proof (ld32_range kfile (ld32 kfile 28 + 32 * Z.of_nat i + 12)).
      pose proof (ld32_range kfile (ld32 kfile 28 + 32 * Z.of_nat i + 16)).
      apply (loaded_frame m1 m' _ (sg_end (file_segment i))); [done|lia|simpl; lia|simpl; lia|].
      intros x Hxr. apply Hfr; [lia|]. intros j Hj'. pose proof (Horder i j ltac:(lia)). lia.
    + intros x Hx0 Hxs. rewrite Hfr by (done || intros; apply Hxs; lia). apply Hx. split; [done|]. apply Hxs. lia.
Qed.

End segments.


(** A disk without an ELF file: the loader returns to bootasm.S. *)
Lemma bootmain_no_elf m : ld32 kfile 0 <> ELF_MAGIC -> exists m', bootmain m = Some (m', None).
Proof.
  intros Hmagic. destruct (readseg_ok m ELFHDR 4096 0) as (m1 & Hrd & Hx); [lia|lia|done|done|]. exists m1.
  unfold bootmain. rewrite Hrd. cbn [mbind option_bind]. unfold bm_magic.
  assert (E : ld32 m1 ELFHDR = ld32 kfile 0).
  { unfold ld32. rewrite !Hx by (change ELFHDR with 65536; lia). change (seg_start ELFHDR 0) with 65536. change (seg_end ELFHDR 4096 0) with 69632.
    change ELFHDR with 65536. reflexivity. }
  by rewrite E, (proj2 (Z.eqb_neq _ _) Hmagic).
Qed.

End loader.

(** * Witness *)

(** A kernel with one segment of 600 bytes, from offset 1000 of the file to 1 MB and 1000, and 400 zeros after it. *)
Definition bw_file (p : Z) : Z :=
  if p <? 48 then lget (put32 (put32 (put32 (replicate 48 0) 0 ELF_MAGIC) 24 0x10000c) 28 52) (Z.to_nat p) + (if p =? 44 then 1 else 0)
  else if (52 <=? p) && (p <? 84) then
    lget (put32 (put32 (put32 (put32 (replicate 32 0) 4 1000) 12 0x1003e8) 16 600) 20 1000) (Z.to_nat (p - 52))
  else p mod 251.

(** A controller that takes the block address from its ports. *)
Definition bw_ata (ports : Z -> Z) (k : Z) : Z :=
  bw_file (512 * (ports 0x1F3 + 256 * ports 0x1F4 + 65536 * ports 0x1F5 + 16777216 * (ports 0x1F6 mod 16)) + k - 512).

Lemma bw_ata_reads : ata_reads bw_ata (fun p => bw_file (p - 512)).
Proof.
  intros ports lba k Hl Hk H2 H3 H4 H5 H6 H7. unfold bw_ata. rewrite H3, H4, H5, H6. do 3 f_equal. unfold u8.
  Z.div_mod_to_equations. lia.
Qed.

