(* ===== verification/Trap.v ===== *)
(** trap.c and sysproc.c, the system call table of syscall.c, and the functions of
    proc.c that use the file system. *)

From S2P Require Import Prelude Params Mem State Spinlock Console Kalloc Vm Proc.
From S2P Require Import Ide Bio Log Umem Fs ConsoleIn Pipe Syscall Exec.

Section trap.
Context `{Symbols} `{Driver} `{DevSw}.

(** ** proc.c *)

Definition kwrite16 (a v : Z) : K unit :=
  modify (on_mem (fun m => st8 (st8 m (v2p a) (u8 v)) (v2p a + 1) (u8 (v / 256)))).

(** Set up first user process. *)
Definition userinit : K unit :=
  o ← allocproc;
  modify (set_k_initproc o);;
  match o with
  | None => hang
  | Some p =>
      pd ← setupkvm;
      pset p (set_pgdir pd);;
      if pd =? 0 then panic "userinit: out of memory?" else
      inituvm pd sym_initcode;;
      pset p (set_sz PGSIZE);;
      t ← pget p tf;
      kmemset t 0 sizeof_trapframe;;
      let ucs := Z.lor (Z.shiftl SEG_UCODE 3) DPL_USER in
      let uds := Z.lor (Z.shiftl SEG_UDATA 3) DPL_USER in
      kwrite16 (t + tf_cs) ucs;;
      kwrite16 (t + tf_ds) uds;;
      kwrite16 (t + tf_es) uds;;
      pset p (set_heap_start 0);;
      kwrite16 (t + tf_ss) uds;;
      kwrite32 (t + tf_eflags) FL_IF;;
      kwrite32 (t + tf_esp) PGSIZE;;
      kwrite32 (t + tf_eip) 0;;
      pset p (fun q => set_pname (safestrcpy (pname q) (lstr (str "initcode")) 16) q);;
      d ← namei (str "/");
      pset p (set_cwd d);;
      pset p (set_pstate RUNNABLE)
  end.

(** Create a new process copying p as the parent. *)
Definition fork : K Z :=
  o ← allocproc;
  match o with
  | None => mret (-1)
  | Some np =>
      p ← myproc;
      cur ← get (proc_of p);
      pd ← copyuvm (pgdir cur) (sz cur);
      pset np (set_pgdir pd);;
      if pd =? 0 then
        ks ← pget np kstack;
        kfree ks;;
        pset np (set_kstack 0);;
        pset np (set_pstate UNUSED);;
        mret (-1)
      else
        pset np (set_sz (sz cur));;
        pset np (set_parent (Some p));;
        t ← pget np tf;
        kmemmove t (tf cur) sizeof_trapframe;;
        kwrite32 (t + tf_eax) 0;;
        for_each (seqZ 0 NOFILE) (fun i =>
          f ← pget p (fun q => mjoin (ofile q !! Z.to_nat i));
          match f with
          | Some f =>
              f ← filedup f;
              pset np (fun q => set_ofile (<[Z.to_nat i := Some f]> (ofile q)) q)
          | None => mret tt
          end;;
          mret (None : option unit));;
        d ← pget p cwd;
        d ← (match d with Some d => idup d | None => hang end);
        pset np (set_cwd (Some d));;
        nm ← pget p pname;
        pset np (fun q => set_pname (safestrcpy (pname q) (lstr nm) 16) q);;
        n ← pget np pid;
        acquire L_ptable;;
        pset np (set_pstate RUNNABLE);;
        release L_ptable;;
        mret n
  end.

(** Pass abandoned children to init. *)
Definition reparent (cur : nat) : K unit :=
  for_each procs (fun p =>
    pa ← pget p parent;
    when (bool_decide (pa = Some cur)) (
      init ← get k_initproc;
      pset p (set_parent init);;
      st ← pget p pstate;
      when (bool_decide (st = ZOMBIE)) (wakeup1 (CH_proc <$> init)));;
    mret (None : option unit));;
  mret tt.

(** Exit the current process.  Does not return. *)
Definition exit : K unit :=
  cur ← myproc;
  init ← get k_initproc;
  if bool_decide (init = Some cur) then panic "init exiting" else
  for_each (seqZ 0 NOFILE) (fun fd =>
    f ← pget cur (fun q => mjoin (ofile q !! Z.to_nat fd));
    match f with
    | Some f =>
        fileclose f;;
        pset cur (fun q => set_ofile (<[Z.to_nat fd := None]> (ofile q)) q)
    | None => mret tt
    end;;
    mret (None : option unit));;
  begin_op;;
  d ← pget cur cwd;
  match d with Some d => iput d | None => hang end;;
  end_op;;
  pset cur (set_cwd None);;
  acquire L_ptable;;
  pa ← pget cur parent;
  wakeup1 (CH_proc <$> pa);;
  reparent cur;;
  pset cur (set_pstate ZOMBIE);;
  sched;;
  panic "zombie exit".

(** A fork child's very first scheduling by scheduler() will swtch here. *)
Definition forkret : K unit :=
  release L_ptable;;
  f ← get k_first;
  when (cbool f) (
    modify (set_k_first 0);;
    iinit ROOTDEV;;
    initlog ROOTDEV).

(** ** sysproc.c *)

Definition sys_fork : K Z := fork.
Definition sys_exit : K Z := exit;; mret 0.
Definition sys_wait : K Z := wait.

Definition sys_kill : K Z :=
  n ← argint 0;
  match n with None => mret (-1) | Some n => kill n end.

Definition sys_getpid : K Z := p ← myproc; pget p pid.

Definition sys_sbrk : K Z :=
  n ← argint 0;
  match n with
  | None => mret (-1)
  | Some n =>
      p ← myproc;
      addr ← pget p sz;
      r ← growproc n;
      if r <? 0 then mret (-1) else mret (s32 addr)
  end.

(** [ticks - ticks0 < n] compares unsigned integers. *)
Definition sys_sleep : K Z :=
  n ← argint 0;
  match n with
  | None => mret (-1)
  | Some n =>
      acquire L_time;;
      ticks0 ← get k_ticks;
      loop_env (fun _ : unit =>
        t ← get k_ticks;
        if u32 (t - ticks0) <? u32 n then
          p ← myproc;
          kd ← pget p killed;
          if cbool kd then release L_time;; mret (inr (-1))
          else sleep CH_ticks (Some L_time);; mret (inl tt)
        else release L_time;; mret (inr 0)) tt
  end.

Definition sys_uptime : K Z :=
  acquire L_time;;
  x ← get k_ticks;
  release L_time;;
  mret (s32 x).

Definition sys_print_free_frame_cnt : K Z :=
  n ← get k_free_frame_cnt;
  cprintf ("free-frames %d" +:+ nl) [CInt n];;
  mret 0.

Definition sys_set_page_allocator : K Z :=
  n ← argint 0;
  match n with
  | None => mret (-1)
  | Some n =>
      if negb (n =? 0) && negb (n =? 1) then
        cprintf ("Invalid allocator type: %d" +:+ nl) [CInt n];;
        mret (-1)
      else
        p ← myproc;
        pset p (set_page_allocator_type n);;
        i ← pget p pid;
        cprintf ("Process %d: Page allocator type set to: %s" +:+ nl)
          [CInt i; CStr (str (if n =? 0 then "Default" else "Lazy"))];;
        mret 0
  end.

Definition sys_shmget : K Z :=
  n ← argint 0;
  match n with
  | None => mret (-1)
  | Some _ =>
      cprintf ("Your shared memory mechanism has not been implemented!" +:+ nl) [];;
      mret 0
  end.

Definition sys_shmdel : K Z :=
  n ← argint 0;
  match n with
  | None => mret (-1)
  | Some _ =>
      cprintf ("Your shared memory mechanims has not been implemented!" +:+ nl) [];;
      mret 0
  end.

(** ** syscall.c *)

(** The system call table, indexed by the numbers of syscall.h; 22 is not used. *)
Definition syscalls : list (option (K Z)) :=
  [ None; Some sys_fork; Some sys_exit; Some sys_wait; Some sys_pipe; Some sys_read;
    Some sys_kill; Some sys_exec; Some sys_fstat; Some sys_chdir; Some sys_dup;
    Some sys_getpid; Some sys_sbrk; Some sys_sleep; Some sys_uptime; Some sys_open;
    Some sys_write; Some sys_mknod; Some sys_unlink; Some sys_link; Some sys_mkdir;
    Some sys_close; None; Some sys_print_free_frame_cnt; Some sys_set_page_allocator;
    Some sys_shmget; Some sys_shmdel ].

Definition syscall : K unit :=
  x ← tf_get tf_eax;
  let num := s32 x in
  match (if 0 <? num then mjoin (syscalls !! Z.to_nat num) else None) with
  | Some f => r ← f; tf_set tf_eax r
  | None =>
      p ← myproc;
      q ← get (proc_of p);
      cprintf ("%d %s: unknown sys call %d" +:+ nl) [CInt (pid q); CStr (cstr (pname q)); CInt num];;
      tf_set tf_eax (-1)
  end.

(** ** trap.c *)

(** Run [m] when the current process has been killed. *)
Definition if_killed (m : K unit) : K unit :=
  p ← myproc;
  kd ← pget p killed;
  when (cbool kd) m.

(** [if (proc && proc->killed && (tf->cs & 3) == DPL_USER) exit();] *)
Definition exit_if_killed (cs : Z) : K unit :=
  c ← get (fun s => cpu_proc (k_cpu s));
  match c with
  | None => mret tt
  | Some p =>
      kd ← pget p killed;
      when (cbool kd && (Z.land cs 3 =? DPL_USER)) exit
  end.

(** The timer interrupt. *)
Definition timer_tick : K unit :=
  id ← get (fun s => cpu_id (k_cpu s));
  when (id =? 0) (
    acquire L_time;;
    modify (fun s => set_k_ticks (u32 (k_ticks s + 1)) s);;
    wakeup CH_ticks;;
    release L_time).

(** [trap]: [t] is the address of the trap frame, [cr2] the faulting address, [kbd]
    and [com] the characters waiting at the keyboard and the serial line. *)
Definition trap (t cr2 : Z) (kbd com : list Z) : K unit :=
  trapno ← kread32 (t + tf_trapno);
  if trapno =? T_SYSCALL then
    if_killed exit;;
    p ← myproc;
    pset p (set_tf t);;
    syscall;;
    if_killed exit
  else if trapno =? T_PGFLT then pgfault cr2
  else
    cs ← get (fun s => ld16 (k_mem s) (v2p (t + tf_cs)));
    eip ← kread32 (t + tf_eip);
    id ← get (fun s => cpu_id (k_cpu s));
    (if trapno =? T_IRQ0 + IRQ_TIMER then timer_tick
     else if trapno =? T_IRQ0 + IRQ_IDE then Ide.ideintr
     else if trapno =? T_IRQ0 + IRQ_IDE + 1 then mret tt
     else if trapno =? T_IRQ0 + IRQ_KBD then consoleintr kbd
     else if trapno =? T_IRQ0 + IRQ_COM1 then consoleintr com
     else if (trapno =? T_IRQ0 + 7) || (trapno =? T_IRQ0 + IRQ_SPURIOUS) then
       cprintf ("cpu%d: spurious interrupt at %x:%x" +:+ nl) [CInt id; CInt cs; CInt eip]
     else
       c ← get (fun s => cpu_proc (k_cpu s));
       match c with
       | Some p =>
           if Z.land cs 3 =? 0 then
             cprintf ("unexpected trap %d from cpu %d eip %x (cr2=0x%x)" +:+ nl)
               [CInt trapno; CInt id; CInt eip; CInt cr2];;
             panic "trap"
           else
             q ← get (proc_of p);
             err ← kread32 (t + tf_err);
             cprintf ("pid %d %s: trap %d err %d on cpu %d eip 0x%x addr 0x%x--kill proc" +:+ nl)
               [CInt (pid q); CStr (cstr (pname q)); CInt trapno; CInt err; CInt id; CInt eip; CInt cr2];;
             pset p (set_killed 1)
       | None =>
           cprintf ("unexpected trap %d from cpu %d eip %x (cr2=0x%x)" +:+ nl)
             [CInt trapno; CInt id; CInt eip; CInt cr2];;
           panic "trap"
       end);;
    exit_if_killed cs;;
    c ← get (fun s => cpu_proc (k_cpu s));
    match c with
    | Some p =>
        st ← pget p pstate;
        when (bool_decide (st = RUNNING) && (trapno =? T_IRQ0 + IRQ_TIMER)) yield
    | None => mret tt
    end;;
    exit_if_killed cs.

End trap.
