(* ===== verification/Init.v ===== *)
(** The first process: what [inituvm] and [userinit] set up. *)

From S2P Require Import Prelude Params Mem State Spinlock Console Kalloc Vm VmTables VmSpace VmAlloc VmCopy Proc ProcSpec.
From S2P Require Import Ide Bio Log Umem Fs FsDir ConsoleIn Pipe PipeSpec Syscall Exec Trap.

Section space.
Context `{Symbols} {Hsym : SymbolsOk}.

(** A directory with only the kernel's mappings is an address space. *)
Lemma kmapped_uvm s pd l : vm_inv s pd l -> kmapped pd kmap (k_mem s) -> uvm_inv s pd l.
Proof.
  intros Hi Hk.
  assert (Hn : forall va, user va -> present (pte_of (k_mem s) pd va) = false).
  { intros va Hu. rewrite (Hk va) by (by apply user_range). by rewrite kmap_pte_user. }
  split; [done| |]; intros va; intros; by rewrite Hn in * by done.
Qed.

(** [s'] is [s] with the program [init] in the first page of [pd], built from pages of the free list. *)
Record inited (pd : Z) (init : list Z) (s : kernel) (l : list Z) (s' : kernel) (l' : list Z) : Prop := {
  in_inv : uvm_inv s' pd l';
  in_only : alloc_only s s';
  in_suffix : l' `suffix_of` l;
  in_len : (length l <= length l' + 2)%nat;
  in_pte : forall va, 0 <= va < 4294967296 ->
    pte_of (k_mem s') pd va = if va <? PGSIZE then v2p (frame (k_mem s') pd va) + 7 else kmap_pte kmap va;
  in_frame : forall va, 0 <= va < PGSIZE -> frame (k_mem s') pd va ∈ l;
  in_code : forall va, 0 <= va < PGSIZE -> ubyte (k_mem s') pd va = u8 (nth (Z.to_nat va) init 0);
  in_new : forall p, pt_page (k_mem s') pd p -> pt_page (k_mem s) pd p \/ p ∈ l;
  in_mem : forall a, outside a (fun p => pt_page (k_mem s) pd p \/ p ∈ l) -> ld8 (k_mem s') a = ld8 (k_mem s) a
}.

Lemma kcopyin_inited pd init s l s1 l1 v :
  alloced pd 0 PGSIZE s l s1 l1 -> kmapped pd kmap (k_mem s) -> frame (k_mem s1) pd 0 = v ->
  Z.of_nat (length init) < PGSIZE -> (length l <= length l1 + 2)%nat ->
  inited pd init s l (on_mem (fun m => write_bytes m (v2p v) init) s1) l1.
Proof.
  intros Ha Hk Hv Hlen Hl. pose proof Ha as [Hu Ho Hs Hp Hz Hn Hm].
  assert (Hpr : forall va, 0 <= va < PGSIZE -> present (pte_of (k_mem s1) pd va) = true).
  { intros va Hva. eapply alloced_present; [exact Ha|unfold user; lia|lia]. }
  assert (Hsame : forall va, 0 <= va < PGSIZE -> pte_of (k_mem s1) pd va = pte_of (k_mem s1) pd 0).
  { intros va Hva. apply pte_of_page; [lia|lia|mlia]. }
  destruct (on_frame_inv pd 0 init s1 l1 Hu) as (Hu' & Hpte & Hub); [unfold user; lia|apply Hpr; lia|change (0 mod PGSIZE) with 0; lia|].
  change (0 mod PGSIZE) with 0 in *. assert (E : on_frame pd 0 init s1 = on_mem (fun m => write_bytes m (v2p v) init) s1).
  { unfold on_frame, on_mem. rewrite Hv. change (0 mod PGSIZE) with 0. by rewrite Z.add_0_r. }
  rewrite E in *.
  assert (Hfr : forall va, 0 <= va < PGSIZE -> frame (k_mem (on_mem (fun m => write_bytes m (v2p v) init) s1)) pd va = v).
  { intros va Hva. unfold frame. rewrite Hpte, Hsame by lia. exact Hv. }
  assert (Hvl : v ∈ l /\ page_ok v).
  { pose proof (Hp 0 ltac:(lia)) as H0. destruct (_ && _) eqn:Ez; [|lia]. rewrite Hv in H0. tauto. }
  split; [done| |done|done| | | | |].
  - eapply alloc_only_trans; [done|]. do 3 eexists. split; [reflexivity|done].
  - intros va Hva. destruct (Z.ltb_spec va PGSIZE) as [Hlt|Hge].
    + rewrite Hfr, Hpte, Hsame by lia. pose proof (Hp 0 ltac:(lia)) as H0. destruct (_ && _) eqn:Ez; [|lia].
      destruct H0 as (-> & _). by rewrite Hv.
    + rewrite Hpte by done. pose proof (Hp va Hva) as H0. destruct (_ && _) eqn:Ez; [lia|]. rewrite H0. by apply Hk.
  - intros va Hva. rewrite Hfr by done. tauto.
  - intros va Hva. rewrite Hub by (try apply Hpr; unfold user; lia). rewrite Z.sub_0_r. destruct (Z.ltb_spec va (0 + Z.of_nat (length init))).
    + by rewrite (proj2 (Z.leb_le _ _)) by lia.
    + rewrite andb_false_r. unfold ubyte. rewrite Hz by (try lia; apply Z.mod_pos_bound; lia). rewrite nth_overflow by lia. done.
  - intros p Hpp. apply Hn. apply (pt_page_same (k_mem s1) (k_mem (on_mem (fun m => write_bytes m (v2p v) init) s1))); [|done].
    apply (pt_stable _ _ _ (vi_wf _ _ _ (uv_vm _ _ _ Hu))). intros q Hq a Ha'. simpl. rewrite ld8_write_bytes.
    destruct (uv_frame _ _ _ Hu 0) as (_ & _ & Hnp); [unfold user; lia|apply Hpr; lia|]. rewrite Hv in Hnp.
    assert (Hqok : page_ok q) by (by eapply vm_page_ok; [apply Hu|]).
    pose proof (page_disjoint q v Hqok (proj2 Hvl) ltac:(congruence)). destruct (_ && _) eqn:Ew; [lia|done].
  - intros a Ha'. simpl. rewrite ld8_write_bytes. pose proof (Ha' v ltac:(right; tauto)). destruct (_ && _) eqn:Ew; [lia|]. by apply Hm.
Qed.

Lemma wp_inituvm pd init e s l :
  vm_inv s pd l -> kmapped pd kmap (k_mem s) -> (2 <= length l)%nat -> Z.of_nat (length init) < PGSIZE ->
  wp (inituvm pd init) (fun _ e' s' => e' = e /\ exists l', inited pd init s l s' l') e s.
Proof.
  intros Hi Hk Hl Hlen. unfold inituvm. rewrite (proj2 (Z.leb_gt _ _)) by lia. apply wp_bind.
  eapply wp_kalloc; [apply Hi|apply Hi|]. destruct l as [|v l]; [simpl in Hl; lia|]. intros Hv _ _.
  pose proof (kmapped_uvm s pd (v :: l) Hi Hk) as Hu.
  assert (Hw := wp_alloc_page pd 0 0 e s (v :: l) s v l (alloced_refl pd 0 s (v :: l) Hu) (vi_ready _ _ _ Hi) ltac:(lia) ltac:(lia)
    eq_refl ltac:(lia) ltac:(rewrite (Hk 0) by lia; by rewrite kmap_pte_user by (unfold user; lia))).
  apply wp_bind_inv in Hw. apply wp_bind. eapply wp_mono; [exact Hw|]. clear Hw. intros [] e1 s1 Hw. apply wp_bind. eapply wp_mono; [exact Hw|].
  intros r e2 s2 (-> & [(-> & l2 & Ha & Hl2 & Hfv)|(_ & -> & _)]); [|simpl in Hl; lia]. apply wp_modify. split; [done|]. exists l2.
  apply kcopyin_inited; [done|done|done|done|simpl; lia].
Qed.

(** An address space does not notice writes to a page that is not its own and not free. *)
Lemma uvm_inv_write s s' pd l p :
  uvm_inv s pd l -> page_ok p -> p ∉ l -> ~ pt_page (k_mem s) pd p ->
  (forall va, user va -> present (pte_of (k_mem s) pd va) = true -> frame (k_mem s) pd va <> p) ->
  k_kmem s' = k_kmem s -> k_free_frame_cnt s' = k_free_frame_cnt s -> k_cpu s' = k_cpu s -> k_locks s' = k_locks s ->
  (forall a, a < v2p p \/ v2p p + PGSIZE <= a -> ld8 (k_mem s') a = ld8 (k_mem s) a) ->
  uvm_inv s' pd l /\
  (forall va, 0 <= va < 4294967296 -> pte_of (k_mem s') pd va = pte_of (k_mem s) pd va) /\
  (forall va, user va -> present (pte_of (k_mem s) pd va) = true -> ubyte (k_mem s') pd va = ubyte (k_mem s) pd va).
Proof.
  intros [Hi Hfr Hinj] Hp Hnl Hnp Hnf E1 E2 E3 E4 Hm.
  assert (Hout : forall q, page_ok q -> q <> p -> forall a, v2p q <= a < v2p q + PGSIZE -> ld8 (k_mem s') a = ld8 (k_mem s) a).
  { intros q Hq Hne a Ha. apply Hm. pose proof (page_disjoint q p Hq Hp Hne). lia. }
  destruct (vm_inv_frame s s' pd l l Hi) as (Hi' & Hpte & Hpde).
  - eapply (free_rep_write s); [apply Hi|by rewrite E1|done|]. intros q Hq. apply Hout; [by eapply free_page_ok; [apply Hi|]|congruence].
  - pose proof (vi_ready _ _ _ Hi) as Hr. unfold kmem_ready, ready, irq_ok, unlocked in *. by rewrite E1, E3, E4.
  - apply (vi_sep _ _ _ Hi).
  - intros q Hq. apply Hout; [by eapply vm_page_ok|congruence].
  - assert (Hfe : forall va, user va -> frame (k_mem s') pd va = frame (k_mem s) pd va).
    { intros va Hu. unfold frame. by rewrite Hpte by (by apply user_range). }
    split_and!; [split; [done|..]|done|].
    + intros va Hu. rewrite Hfe, Hpte by (done || by apply user_range). intros Hpr. rewrite pt_page_same by done. by apply Hfr.
    + intros va va' Hu Hu'. rewrite !Hfe, !Hpte by (done || by apply user_range). by apply Hinj.
    + intros va Hu Hpr. unfold ubyte. rewrite Hfe by done. apply (Hout (frame (k_mem s) pd va)); [apply Hfr; done|by apply Hnf|].
      pose proof (Z.mod_pos_bound va PGSIZE ltac:(lia)). lia.
Qed.

End space.

(** * The trap frame of the first process *)

Definition ucs : Z := Z.lor (Z.shiftl SEG_UCODE 3) DPL_USER.
Definition uds : Z := Z.lor (Z.shiftl SEG_UDATA 3) DPL_USER.

Definition w16 (m : memory) (a v : Z) : memory := st8 (st8 m a (u8 v)) (a + 1) (u8 (v / 256)).

(** The writes of [userinit] to the trap frame at physical address [t]. *)
Definition user_frame (m : memory) (t : Z) : memory :=
  let m := memset m t 0 sizeof_trapframe in
  let m := w16 (w16 (w16 (w16 m (t + tf_cs) ucs) (t + tf_ds) uds) (t + tf_es) uds) (t + tf_ss) uds in
  st32 (st32 (st32 m (t + tf_eflags) FL_IF) (t + tf_esp) PGSIZE) (t + tf_eip) 0.

Lemma ld8_w16 m a v x : ld8 (w16 m a v) x = if x =? a + 1 then u8 (v / 256) else if x =? a then u8 v else ld8 m x.
Proof. unfold w16. rewrite !ld8_st8. unfold u8. by rewrite !Z.mod_mod by lia. Qed.

Lemma user_frame_mem m t a : a < t \/ t + sizeof_trapframe <= a -> ld8 (user_frame m t) a = ld8 m a.
Proof.
  unfold user_frame, sizeof_trapframe, tf_eip, tf_esp, tf_eflags, tf_cs, tf_ds, tf_es, tf_ss. intros Ha.
  rewrite !ld8_st32, !ld8_w16, ld8_memset by lia. by zif.
Qed.

(** What a trap return loads from it. *)
Definition frame_regs (m : memory) (t : Z) : Prop :=
  ld32 m (t + tf_eip) = 0 /\ ld32 m (t + tf_esp) = PGSIZE /\ ld32 m (t + tf_eflags) = FL_IF /\
  ld32 m (t + tf_cs) = ucs /\ ld32 m (t + tf_ss) = uds /\ ld32 m (t + tf_ds) = uds /\ ld32 m (t + tf_es) = uds.

Lemma user_frame_regs m t : frame_regs (user_frame m t) t.
Proof.
  unfold frame_regs, user_frame, sizeof_trapframe, tf_eip, tf_esp, tf_eflags, tf_cs, tf_ds, tf_es, tf_ss.
  split_and!; [by rewrite ld32_st32_eq|rewrite ld32_st32_ne by lia; by rewrite ld32_st32_eq
    |rewrite !ld32_st32_ne by lia; by rewrite ld32_st32_eq|..];
    rewrite !ld32_st32_ne by lia; unfold ld32; rewrite !ld8_w16, !ld8_memset by lia; repeat (zif; try lia); reflexivity.
Qed.

(** * userinit *)

Section userinit.
Context `{Symbols} {Hsym : SymbolsOk} `{Driver} `{DevSw}.

(** [s'] is [s] with one process, ready to run, whose program is [initcode]: [pd] is its address space, [v] its kernel stack. *)
Record first_process (s s' : kernel) (pd v : Z) (l' : list Z) : Prop := {
  fp_init : k_initproc s' = Some 0%nat;
  fp_proc : let q := proc_of 0 s' in
    pstate q = RUNNABLE /\ pid q = k_nextpid s /\ sz q = PGSIZE /\ pgdir q = pd /\ kstack q = v /\ tf q = stack_tf v /\
    context q = stack_ctx v /\ cwd q = Some 0%nat /\ parent q = parent (proc_of 0 s) /\ ofile q = ofile (proc_of 0 s);
  fp_others : forall j, j <> 0%nat -> k_ptable s' !! j = k_ptable s !! j;
  fp_nextpid : k_nextpid s' = s32 (k_nextpid s + 1);
  fp_space : uvm_inv s' pd l';
  fp_map : forall va, 0 <= va < 4294967296 ->
    pte_of (k_mem s') pd va = if va <? PGSIZE then v2p (frame (k_mem s') pd va) + 7 else kmap_pte kmap va;
  fp_code : forall va, 0 <= va < PGSIZE -> ubyte (k_mem s') pd va = u8 (nth (Z.to_nat va) sym_initcode 0);
  fp_frame : frame_regs (k_mem s') (v2p (stack_tf v));
  fp_eip : ld32 (k_mem s') (v2p (stack_ctx v + ctx_eip)) = u32 sym_forkret;
  fp_ret : ld32 (k_mem s') (v2p (stack_ret v)) = u32 sym_trapret;
  fp_cwd : exists q, k_icache s' !! 0%nat = Some q /\ in_use ROOTDEV ROOTINO q /\ iref q = 1;
  fp_rest : k_cons s' = k_cons s /\ k_cpu s' = k_cpu s /\ k_locks s' = k_locks s /\ k_bcache s' = k_bcache s /\ k_disk s' = k_disk s
}.

(** [namei("/")] with an empty table of inodes takes the first entry. *)
Lemma namei_root e s : ready L_icache s -> length (k_icache s) = Z.to_nat NINODE -> Forall unused (k_icache s) ->
  exists q, namei (str "/") e s = Done (Some 0%nat) e (set_k_icache (<[0%nat := q]> (k_icache s)) s) /\ in_use ROOTDEV ROOTINO q /\ iref q = 1.
Proof.
  intros Hr Hlen Hall.
  assert (Hslot : exists q, iget_slot ROOTDEV ROOTINO (k_icache s) = Some (0%nat, q) /\ in_use ROOTDEV ROOTINO q /\ iref q = 1).
  { unfold iget_slot. rewrite (proj2 (list_find_None (in_use ROOTDEV ROOTINO) (k_icache s))).
    2: { eapply Forall_impl; [exact Hall|]. unfold unused, in_use. intros q Hq. lia. }
    destruct (k_icache s) as [|q l]; [done|]. apply Forall_cons in Hall as [Hq _]. cbn [list_find]. rewrite decide_True by done.
    eexists. split; [reflexivity|]. done. }
  destruct Hslot as (q & Hs & Hq & Hq1). exists q. split; [|done]. unfold namei, namex.
  pose proof (iget_eq ROOTDEV ROOTINO e s Hr Hlen) as E. rewrite Hs in E.
  rewrite (bind_Done _ _ _ _ (Some 0%nat, replicate (Z.to_nat DIRSIZ) 0) e (set_k_icache (<[0%nat := q]> (k_icache s)) s)); [done|].
  change (str "/") with [chr "/"]. cbn iota. rewrite Z.eqb_refl. by rewrite (bind_Done _ _ _ _ _ _ _ E).
Qed.

(** The part of [userinit] after [inituvm], on a process whose kernel stack is [v]. *)
Definition userinit_end : K unit :=
  pset 0 (set_sz PGSIZE);;
  t ← pget 0 tf;
  kmemset t 0 sizeof_trapframe;;
  let ucs := Z.lor (Z.shiftl SEG_UCODE 3) DPL_USER in
  let uds := Z.lor (Z.shiftl SEG_UDATA 3) DPL_USER in
  kwrite16 (t + tf_cs) ucs;;
  kwrite16 (t + tf_ds) uds;;
  kwrite16 (t + tf_es) uds;;
  pset 0 (set_heap_start 0);;
  kwrite16 (t + tf_ss) uds;;
  kwrite32 (t + tf_eflags) FL_IF;;
  kwrite32 (t + tf_esp) PGSIZE;;
  kwrite32 (t + tf_eip) 0;;
  pset 0 (fun q => set_pname (safestrcpy (pname q) (lstr (str "initcode")) 16) q);;
  d ← namei (str "/");
  pset 0 (set_cwd d);;
  pset 0 (set_pstate RUNNABLE).

Definition runnable_init (q : proc_t) : proc_t :=
  let q := set_heap_start 0 (set_sz PGSIZE q) in
  set_pstate RUNNABLE (set_cwd (Some 0%nat) (set_pname (safestrcpy (pname q) (lstr (str "initcode")) 16) q)).

Lemma tf_addr v o : page_ok v -> 0 <= o < sizeof_trapframe -> v2p (stack_tf v + o) = v2p (stack_tf v) + o.
Proof.
  intros Hv Ho. change sizeof_trapframe with 76 in *. unfold stack_tf. change sizeof_trapframe with 76. change KSTACKSIZE with 4096.
  replace (v + 4096 - 76 + o) with (v + (4020 + o)) by lia. replace (v + 4096 - 76) with (v + 4020) by lia. rewrite !stack_addr by (done || lia). lia.
Qed.

Lemma wp_userinit_end v e s (Q : unit -> env kernel -> kernel -> Prop) :
  page_ok v -> ptable_ok s -> tf (proc_of 0 s) = stack_tf v ->
  ready L_icache s -> length (k_icache s) = Z.to_nat NINODE -> Forall unused (k_icache s) ->
  (forall q, in_use ROOTDEV ROOTINO q -> iref q = 1 ->
     Q tt e (on_proc 0 runnable_init (set_k_icache (<[0%nat := q]> (k_icache s)) (on_mem (fun m => user_frame m (v2p (stack_tf v))) s)))) ->
  wp userinit_end Q e s.
Proof.
  intros Hv Hpt Htf Hr Hlen Hall HQ. unfold userinit_end, pset, pget, kmemset, kwrite16, kwrite32. do 4 wp_step.
  rewrite proc_of_on_proc by (done || lia). change (tf (set_sz PGSIZE (proc_of 0 s))) with (tf (proc_of 0 s)). rewrite Htf.
  rewrite !tf_addr by (done || split; vm_compute; congruence). do 21 wp_step.
  match goal with |- wp _ _ _ ?x => set (s1 := x) end.
  destruct (namei_root e s1) as (q & E & Hq & Hq1); [done|done|done|]. eapply wp_intro; [exact E|]. do 3 wp_step.
  specialize (HQ q Hq Hq1).
  match goal with |- Q tt e ?x => replace x with (on_proc 0 runnable_init (set_k_icache (<[0%nat := q]> (k_icache s)) (on_mem (fun m => user_frame m (v2p (stack_tf v))) s))); [exact HQ|] end.
  subst s1. unfold on_proc, on_mem. destruct s; simpl. rewrite !list_alter_alter_eq. done.
Qed.

(** The process after [userinit], from the slot that [allocproc] made. *)
Definition init_proc (n v pd : Z) (q : proc_t) : proc_t := runnable_init (set_pgdir pd (embryo n v q)).

(** What is known of the state after [inituvm] makes the state after [userinit_end] that of the first process. *)
Lemma first_process_intro s v s1 l1 s2 pd l2 s3 l3 q :
  ptable_ok s -> free_rep s (v :: l1) -> new_proc 0 v s l1 s1 ->
  alloc_only (set_k_initproc (Some 0%nat) s1) s2 -> l2 `suffix_of` l1 ->
  (forall a, outside a (fun p => p ∈ l1) -> ld8 (k_mem s2) a = ld8 (k_mem s1) a) ->
  (forall p, pt_page (k_mem s2) pd p -> p ∈ l1) -> inited pd sym_initcode (on_proc 0 (set_pgdir pd) s2) l2 s3 l3 ->
  in_use ROOTDEV ROOTINO q -> iref q = 1 -> (0 < length (k_icache s3))%nat ->
  first_process s (on_proc 0 runnable_init (set_k_icache (<[0%nat := q]> (k_icache s3)) (on_mem (fun m => user_frame m (v2p (stack_tf v))) s3))) pd v l3.
Proof.
  intros Hpt Hf Hnp Ho2 Hsuf Hm2 Hpp Hin Hq Hq1 Hic.
  assert (Hv : page_ok v) by (eapply free_page_ok; [exact Hf|by left]). pose proof (fr_nodup _ _ Hf) as [Hvn _]%NoDup_cons.
  assert (Hok1 : forall p, p ∈ l1 -> page_ok p) by (intros p Hp; eapply free_page_ok; [exact Hf|by right]).
  pose proof (np_state _ _ _ _ _ Hnp) as [m1 E1].
  assert (Hsub : forall p, pt_page (k_mem s2) pd p \/ p ∈ l2 -> p ∈ l1) by (intros p [Hp|Hp]; [by apply Hpp|by eapply elem_of_suffix]).
  assert (Hstack : forall a, v2p v <= a < v2p v + PGSIZE -> ld8 (k_mem s3) a = ld8 (k_mem s1) a).
  { assert (Hvout : forall P, (forall p, P p -> p ∈ l1) -> forall a, v2p v <= a < v2p v + PGSIZE -> outside a P).
    { intros P HP a Ha p Hp. pose proof (page_disjoint v p Hv (Hok1 p (HP p Hp)) ltac:(intros ->; by apply Hvn, HP)). lia. }
    intros a Ha. rewrite (in_mem _ _ _ _ _ _ Hin); [|apply Hvout; [exact Hsub|done]]. apply Hm2. by apply Hvout. }
  destruct (stack_offsets v Hv) as (Hret & Hctx & Heip).
  assert (Htf : v2p (stack_tf v) = v2p v + 4020).
  { unfold stack_tf. change (v + KSTACKSIZE - sizeof_trapframe) with (v + 4096 - 76). replace (v + 4096 - 76) with (v + 4020) by lia. by apply stack_addr. }
  pose proof (in_only _ _ _ _ _ _ Hin) as Ho3.
  assert (Hrest : (k_cons s3 = k_cons s /\ k_cpu s3 = k_cpu s /\ k_locks s3 = k_locks s /\ k_bcache s3 = k_bcache s /\ k_disk s3 = k_disk s) /\ k_initproc s3 = Some 0%nat /\ k_nextpid s3 = s32 (k_nextpid s + 1) /\
    k_ptable s3 = alter (set_pgdir pd) 0%nat (alter (embryo (k_nextpid s) v) 0%nat (k_ptable s))).
  { destruct Ho3 as (? & ? & ? & -> & _), Ho2 as (? & ? & ? & -> & _). rewrite E1. done. }
  destruct Hrest as (Erest & Ei & En & Ep).
  destruct (uvm_inv_write s3 (on_proc 0 runnable_init (set_k_icache (<[0%nat := q]> (k_icache s3)) (on_mem (fun m => user_frame m (v2p (stack_tf v))) s3)))
    pd l3 v (in_inv _ _ _ _ _ _ Hin) Hv) as (Hu & Hpte & Hub); try done.
  { intros Hp. apply Hvn. eapply elem_of_suffix; [exact Hsuf|]. eapply elem_of_suffix; [apply Hin|done]. }
  { intros Hp%(in_new _ _ _ _ _ _ Hin). by apply Hvn, Hsub. }
  { intros va Hva Hpr E. apply Hvn. rewrite <- E. destruct (Z.ltb_spec va PGSIZE) as [Hlt|Hge].
    - eapply elem_of_suffix; [exact Hsuf|]. apply (in_frame _ _ _ _ _ _ Hin). unfold user in Hva. lia.
    - rewrite (in_pte _ _ _ _ _ _ Hin) in Hpr by (by apply user_range). rewrite (proj2 (Z.ltb_ge _ _)), kmap_pte_user in Hpr by done. done. }
  { intros a Ha. cbn [k_mem on_proc set_k_ptable set_k_icache on_mem set_k_mem]. apply user_frame_mem. rewrite Htf. change sizeof_trapframe with 76. lia. }
  assert (Hslot : k_ptable s !! 0%nat = Some (proc_of 0 s)) by (apply lookup_proc_of; [done|lia]).
  assert (Hq0 : proc_of 0 (on_proc 0 runnable_init (set_k_icache (<[0%nat := q]> (k_icache s3)) (on_mem (fun m => user_frame m (v2p (stack_tf v))) s3))) =
    init_proc (k_nextpid s) v pd (proc_of 0 s)).
  { apply proc_of_lookup. cbn [k_ptable on_proc set_k_ptable set_k_icache on_mem set_k_mem]. by rewrite Ep, !list_lookup_alter_eq, Hslot. }
  split; try done.
  - by rewrite Hq0.
  - intros j Hj. cbn [k_ptable on_proc set_k_ptable set_k_icache on_mem set_k_mem]. by rewrite Ep, !list_lookup_alter_ne by done.
  - intros va Hva. unfold frame. rewrite Hpte by done. rewrite (in_pte _ _ _ _ _ _ Hin) at 1 by done. done.
  - intros va Hva. rewrite Hub; [by apply (in_code _ _ _ _ _ _ Hin)|unfold user; lia|].
    rewrite (in_pte _ _ _ _ _ _ Hin) by lia. rewrite (proj2 (Z.ltb_lt _ _)) by lia. apply present_7. apply Hok1.
    eapply elem_of_suffix; [exact Hsuf|]. by apply (in_frame _ _ _ _ _ _ Hin).
  - apply user_frame_regs.
  - rewrite <- (np_eip _ _ _ _ _ Hnp), Heip. apply ld32_ext. intros a Ha. cbn [k_mem on_proc set_k_ptable set_k_icache on_mem set_k_mem].
    rewrite user_frame_mem by (rewrite Htf; lia). apply Hstack. lia.
  - rewrite <- (np_ret _ _ _ _ _ Hnp), Hret. apply ld32_ext. intros a Ha. cbn [k_mem on_proc set_k_ptable set_k_icache on_mem set_k_mem].
    rewrite user_frame_mem by (rewrite Htf; lia). apply Hstack. lia.
  - exists q. split; [|done]. cbn [k_icache on_proc set_k_ptable set_k_icache on_mem set_k_mem]. by apply list_lookup_insert_eq.
Qed.

Lemma wp_userinit e s l :
  ready L_ptable s -> ptable_ok s -> pstate (proc_of 0 s) = UNUSED -> kmem_ready s -> free_rep s l -> (69 <= length l)%nat ->
  ready L_icache s -> length (k_icache s) = Z.to_nat NINODE -> Forall unused (k_icache s) -> Z.of_nat (length sym_initcode) < PGSIZE ->
  wp userinit (fun _ e' s' => e' = e /\ exists pd v l', first_process s s' pd v l' /\ l' `suffix_of` l) e s.
Proof.
  intros Hp Hpt Hz Hk Hf Hl Hi Hil Hiu Hlen. unfold userinit. apply wp_bind. eapply wp_allocproc; [done|done|done|exact Hf| |].
  { intros Hn. destruct (Hn 0%nat); [lia|done]. }
  intros i (Hir & Hiu0 & Hfirst). assert (i = 0%nat) as -> by (destruct i; [done|]; destruct (Hfirst 0%nat); [lia|done]).
  destruct l as [|v l1]; [simpl in Hl; lia|]. intros Hv s1 Hnp. apply wp_bind, wp_modify, wp_bind.
  pose proof (np_state _ _ _ _ _ Hnp) as [m1 E1].
  eapply wp_mono; [apply (wp_setupkvm e (set_k_initproc (Some 0%nat) s1) l1)|].
  { rewrite E1. done. }
  { eapply free_rep_ext; [..|apply Hnp]; done. }
  intros pd e' s2 (-> & Hpost). pose proof Hpost as (l2 & Ho2 & Hf2 & Hs2 & Hm2 & Hr2). simpl in Hl.
  destruct Hr2 as [(_ & _ & Hshort)|(Hpd & Hvm & Hpp & Hkm & Hlen2)]; [lia|]. apply wp_bind, wp_modify. rewrite (proj2 (Z.eqb_neq _ _) Hpd). apply wp_bind.
  eapply wp_mono; [apply (wp_inituvm pd sym_initcode e (on_proc 0 (set_pgdir pd) s2) l2); [|done|lia|done]|].
  { split; [by eapply free_rep_ext; [..|apply Hvm]|apply Hvm|apply Hvm|apply Hvm]. }
  intros [] e' s3 (-> & l3 & Hin). pose proof (in_only _ _ _ _ _ _ Hin) as Ho3.
  assert (Hrest : k_cpu s3 = k_cpu s /\ k_locks s3 = k_locks s /\ k_icache s3 = k_icache s /\
    k_ptable s3 = alter (set_pgdir pd) 0%nat (alter (embryo (k_nextpid s) v) 0%nat (k_ptable s))).
  { destruct Ho3 as (? & ? & ? & -> & _), Ho2 as (? & ? & ? & -> & _). rewrite E1. done. }
  destruct Hrest as (Ec & El & Ei & Ep).
  match goal with |- wp ?p _ _ _ => replace p with userinit_end by reflexivity end.
  apply (wp_userinit_end v); [done| | | | | |].
  - unfold ptable_ok. rewrite Ep, !length_alter. done.
  - unfold proc_of. rewrite Ep, !list_lookup_alter_eq. by rewrite (lookup_proc_of 0 s) by (done || lia).
  - destruct Hi as [Hi1 Hi2]. split; [by unfold irq_ok; rewrite Ec|by unfold unlocked; rewrite El].
  - by rewrite Ei.
  - by rewrite Ei.
  - intros q Hq Hq1. split; [done|]. exists pd, v, l3. split.
    + eapply (first_process_intro s v s1 l1 s2 pd l2 s3 l3 q); try done. rewrite Ei, Hil. vm_compute. lia.
    + etrans; [apply (in_suffix _ _ _ _ _ _ Hin)|]. etrans; [exact Hs2|]. by exists [v].
Qed.

End userinit.
