(* ===== verification/Machine.v ===== *)
(** The devices and processors that main.c sets up: picirq.c, ioapic.c, lapic.c, timer.c, the rest of
    uart.c and ide.c, seginit of vm.c, tvinit and idtinit of trap.c.

    What the kernel sends to its devices and asks of them is a trace, oldest first.  The devices are an
    argument: what they answer, as a function of the trace up to the question.  [patience] bounds the loops that
    poll a device.  Output on the console is in the state of the kernel, as in Console.v. *)

From S2P Require Import Prelude Params Mem State Spinlock Console Kalloc Vm Proc.
From S2P Require Import Ide Bio Log Umem Fs ConsoleIn Pipe Syscall Exec Trap.

(** Port writes and reads, and writes and reads of memory-mapped registers. *)
Inductive io :=
| Out8 (port v : Z)
| In8 (port : Z)
| St32 (addr v : Z)
| Ld32 (addr : Z).

Class Hardware := { answer : list io -> io -> Z; patience : nat }.

(** mmu.h: [struct segdesc] and [struct gatedesc]. *)
Record segdesc := mkSegdesc {
  lim_15_0 : Z; base_15_0 : Z; base_23_16 : Z; sd_type : Z; sd_s : Z; sd_dpl : Z; sd_p : Z;
  lim_19_16 : Z; sd_avl : Z; sd_rsv1 : Z; sd_db : Z; sd_g : Z; base_31_24 : Z
}.

Record gatedesc := mkGatedesc {
  off_15_0 : Z; gd_cs : Z; gd_args : Z; gd_rsv1 : Z; gd_type : Z; gd_s : Z; gd_dpl : Z; gd_p : Z; off_31_16 : Z
}.

(** proc.h: of [struct cpu], what only the setup of a processor uses. *)
Record apcpu := mkApcpu { c_id : Z; c_gdt : list segdesc; c_started : Z }.

(** The kernel with the variables of mp.c, lapic.c, ioapic.c, picirq.c and trap.c that only the setup changes.  [m_cpu] is the
    index in [cpus] of the [cpu] variable of this processor, [m_idtr] says that its interrupt table is [idt]. *)
Record machine := mkMachine {
  m_k : kernel;
  m_io : list io;
  m_irqmask : Z;
  m_lapic : Z;
  m_cpunum_n : Z;
  m_ioapic : Z;
  m_ismp : Z;
  m_ncpu : Z;
  m_bcpu : Z;
  m_ioapicid : Z;
  m_cpus : list apcpu;
  m_cpu : Z;
  m_idt : list gatedesc;
  m_idtr : bool
}.

Definition set_m_k (v : kernel) (s : machine) : machine :=
  mkMachine v (m_io s) (m_irqmask s) (m_lapic s) (m_cpunum_n s) (m_ioapic s) (m_ismp
    s) (m_ncpu s) (m_bcpu s) (m_ioapicid s) (m_cpus s) (m_cpu s) (m_idt s) (m_idtr s).
Definition set_m_io (v : list io) (s : machine) : machine :=
  mkMachine (m_k s) v (m_irqmask s) (m_lapic s) (m_cpunum_n s) (m_ioapic s) (m_ismp
    s) (m_ncpu s) (m_bcpu s) (m_ioapicid s) (m_cpus s) (m_cpu s) (m_idt s) (m_idtr s).
Definition set_m_irqmask (v : Z) (s : machine) : machine :=
  mkMachine (m_k s) (m_io s) v (m_lapic s) (m_cpunum_n s) (m_ioapic s) (m_ismp s) (m_ncpu
    s) (m_bcpu s) (m_ioapicid s) (m_cpus s) (m_cpu s) (m_idt s) (m_idtr s).
Definition set_m_lapic (v : Z) (s : machine) : machine :=
  mkMachine (m_k s) (m_io s) (m_irqmask s) v (m_cpunum_n s) (m_ioapic s) (m_ismp s)
    (m_ncpu s) (m_bcpu s) (m_ioapicid s) (m_cpus s) (m_cpu s) (m_idt s) (m_idtr s).
Definition set_m_cpunum_n (v : Z) (s : machine) : machine :=
  mkMachine (m_k s) (m_io s) (m_irqmask s) (m_lapic s) v (m_ioapic s) (m_ismp s) (m_ncpu
    s) (m_bcpu s) (m_ioapicid s) (m_cpus s) (m_cpu s) (m_idt s) (m_idtr s).
Definition set_m_ioapic (v : Z) (s : machine) : machine :=
  mkMachine (m_k s) (m_io s) (m_irqmask s) (m_lapic s) (m_cpunum_n s) v (m_ismp s)
    (m_ncpu s) (m_bcpu s) (m_ioapicid s) (m_cpus s) (m_cpu s) (m_idt s) (m_idtr s).
Definition set_m_ismp (v : Z) (s : machine) : machine :=
  mkMachine (m_k s) (m_io s) (m_irqmask s) (m_lapic s) (m_cpunum_n s) (m_ioapic s)
    v (m_ncpu s) (m_bcpu s) (m_ioapicid s) (m_cpus s) (m_cpu s) (m_idt s) (m_idtr s).
Definition set_m_ncpu (v : Z) (s : machine) : machine :=
  mkMachine (m_k s) (m_io s) (m_irqmask s) (m_lapic s) (m_cpunum_n s) (m_ioapic s)
    (m_ismp s) v (m_bcpu s) (m_ioapicid s) (m_cpus s) (m_cpu s) (m_idt s) (m_idtr s).
Definition set_m_bcpu (v : Z) (s : machine) : machine :=
  mkMachine (m_k s) (m_io s) (m_irqmask s) (m_lapic s) (m_cpunum_n s) (m_ioapic s)
    (m_ismp s) (m_ncpu s) v (m_ioapicid s) (m_cpus s) (m_cpu s) (m_idt s) (m_idtr s).
Definition set_m_ioapicid (v : Z) (s : machine) : machine :=
  mkMachine (m_k s) (m_io s) (m_irqmask s) (m_lapic s) (m_cpunum_n s) (m_ioapic s)
    (m_ismp s) (m_ncpu s) (m_bcpu s) v (m_cpus s) (m_cpu s) (m_idt s) (m_idtr s).
Definition set_m_cpus (v : list apcpu) (s : machine) : machine :=
  mkMachine (m_k s) (m_io s) (m_irqmask s) (m_lapic s) (m_cpunum_n s) (m_ioapic s)
    (m_ismp s) (m_ncpu s) (m_bcpu s) (m_ioapicid s) v (m_cpu s) (m_idt s) (m_idtr s).
Definition set_m_cpu (v : Z) (s : machine) : machine :=
  mkMachine (m_k s) (m_io s) (m_irqmask s) (m_lapic s) (m_cpunum_n s) (m_ioapic s)
    (m_ismp s) (m_ncpu s) (m_bcpu s) (m_ioapicid s) (m_cpus s) v (m_idt s) (m_idtr s).
Definition set_m_idt (v : list gatedesc) (s : machine) : machine :=
  mkMachine (m_k s) (m_io s) (m_irqmask s) (m_lapic s) (m_cpunum_n s) (m_ioapic s)
    (m_ismp s) (m_ncpu s) (m_bcpu s) (m_ioapicid s) (m_cpus s) (m_cpu s) v (m_idtr s).
Definition set_m_idtr (v : bool) (s : machine) : machine :=
  mkMachine (m_k s) (m_io s) (m_irqmask s) (m_lapic s) (m_cpunum_n s) (m_ioapic s)
    (m_ismp s) (m_ncpu s) (m_bcpu s) (m_ioapicid s) (m_cpus s) (m_cpu s) (m_idt s) v.

(** Local APIC registers, divided by 4 for use as uint[] indices. *)
Module Lapic.
Abbreviation ID := (0x0020 / 4).
Abbreviation VER := (0x0030 / 4).
Abbreviation TPR := (0x0080 / 4).
Abbreviation EOI := (0x00B0 / 4).
Abbreviation SVR := (0x00F0 / 4).
Abbreviation ENABLE := (0x00000100).
Abbreviation ESR := (0x0280 / 4).
Abbreviation ICRLO := (0x0300 / 4).
Abbreviation INIT := (0x00000500).
Abbreviation STARTUP := (0x00000600).
Abbreviation DELIVS := (0x00001000).
Abbreviation ASSERT := (0x00004000).
Abbreviation LEVEL := (0x00008000).
Abbreviation BCAST := (0x00080000).
Abbreviation ICRHI := (0x0310 / 4).
Abbreviation TIMER := (0x0320 / 4).
Abbreviation X1 := (0x0000000B).
Abbreviation PERIODIC := (0x00020000).
Abbreviation PCINT := (0x0340 / 4).
Abbreviation LINT0 := (0x0350 / 4).
Abbreviation LINT1 := (0x0360 / 4).
Abbreviation ERROR := (0x0370 / 4).
Abbreviation MASKED := (0x00010000).
Abbreviation TICR := (0x0380 / 4).
Abbreviation TDCR := (0x03E0 / 4).
End Lapic.
Import Lapic.

Abbreviation Mach := (M machine).

Section machine.
Context `{Symbols} `{Driver} `{DevSw} `{Hardware}.

(** Run a function of the kernel; nothing of what it does here switches to another process. *)
Definition kern {A} (f : K A) : Mach A := fun e s =>
  match f [] (m_k s) with
  | Done a _ k => Done a e (set_m_k k s)
  | Panic msg k => Panic msg (set_m_k k s)
  | Blocked k => Blocked (set_m_k k s)
  | NoFuel => NoFuel
  end.

Definition tell (x : io) : Mach unit := modify (fun s => set_m_io (m_io s ++ [x]) s).

Definition ask (x : io) : Mach Z := fun e s => Done (answer (m_io s) x) e (set_m_io (m_io s ++ [x]) s).

Definition outb (port data : Z) : Mach unit := tell (Out8 port (u8 data)).

Definition inb (port : Z) : Mach Z :=
  v ← ask (In8 port);
  mret (u8 v).

(** Poll until the condition is false. *)
Definition poll (cond : Mach bool) : Mach unit :=
  loop patience (fun _ : unit => b ← cond; if (b : bool) then mret (inl tt) else mret (inr tt)) tt.

(** * picirq.c *)

Definition IO_PIC1 : Z := 0x20.
Definition IO_PIC2 : Z := 0xA0.
Definition IRQ_SLAVE : Z := 2.

(** The initial mask has interrupt 2 enabled (for slave 8259A). *)
Definition irqmask0 : Z := Z.land 0xFFFF (Z.lnot (Z.shiftl 1 IRQ_SLAVE)).

Definition picsetmask (mask : Z) : Mach unit :=
  modify (set_m_irqmask mask);;
  outb (IO_PIC1 + 1) mask;;
  outb (IO_PIC2 + 1) (Z.shiftr mask 8).

Definition picenable (irq : Z) : Mach unit :=
  mask ← get m_irqmask;
  picsetmask (u16 (Z.land mask (Z.lnot (Z.shiftl 1 irq)))).

(** Initialize the 8259A interrupt controllers. *)
Definition picinit : Mach unit :=
  outb (IO_PIC1 + 1) 0xFF;;
  outb (IO_PIC2 + 1) 0xFF;;
  outb IO_PIC1 0x11;;
  outb (IO_PIC1 + 1) T_IRQ0;;
  outb (IO_PIC1 + 1) (Z.shiftl 1 IRQ_SLAVE);;
  outb (IO_PIC1 + 1) 0x3;;
  outb IO_PIC2 0x11;;
  outb (IO_PIC2 + 1) (T_IRQ0 + 8);;
  outb (IO_PIC2 + 1) IRQ_SLAVE;;
  outb (IO_PIC2 + 1) 0x3;;
  outb IO_PIC1 0x68;;
  outb IO_PIC1 0x0a;;
  outb IO_PIC2 0x68;;
  outb IO_PIC2 0x0a;;
  mask ← get m_irqmask;
  when (negb (mask =? 0xFFFF)) (picsetmask mask).

(** * ioapic.c *)

Definition IOAPIC : Z := 0xFEC00000.
Definition REG_ID : Z := 0x00.
Definition REG_VER : Z := 0x01.
Definition REG_TABLE : Z := 0x10.
Definition INT_DISABLED : Z := 0x00010000.

(** The register index is the first word of the device, the data the fifth. *)
Definition ioapicread (reg : Z) : Mach Z :=
  a ← get m_ioapic;
  tell (St32 a (u32 reg));;
  ask (Ld32 (a + 16)).

Definition ioapicwrite (reg data : Z) : Mach unit :=
  a ← get m_ioapic;
  tell (St32 a (u32 reg));;
  tell (St32 (a + 16) (u32 data)).

Definition ioapicinit : Mach unit :=
  mp ← get m_ismp;
  if negb (cbool mp) then mret tt else
  modify (set_m_ioapic IOAPIC);;
  v ← ioapicread REG_VER;
  let maxintr := Z.land (Z.shiftr v 16) 0xFF in
  v ← ioapicread REG_ID;
  let id := Z.shiftr v 24 in
  want ← get m_ioapicid;
  when (negb (id =? want)) (kern (cprintf ("ioapicinit: id isn't equal to ioapicid; not a MP" +:+ nl) []));;
  for_each (seqZ 0 (maxintr + 1)) (fun i =>
    ioapicwrite (REG_TABLE + 2 * i) (Z.lor INT_DISABLED (T_IRQ0 + i));;
    ioapicwrite (REG_TABLE + 2 * i + 1) 0;;
    mret (None : option unit));;
  mret tt.

Definition ioapicenable (irq cpunum : Z) : Mach unit :=
  mp ← get m_ismp;
  if negb (cbool mp) then mret tt else
  ioapicwrite (REG_TABLE + 2 * irq) (T_IRQ0 + irq);;
  ioapicwrite (REG_TABLE + 2 * irq + 1) (Z.shiftl cpunum 24).

(** * lapic.c *)

Definition IRQ_ERROR : Z := 19.

(** Read and write [lapic[index]]. *)
Definition lapic_get (index : Z) : Mach Z :=
  l ← get m_lapic;
  ask (Ld32 (l + 4 * index)).

Definition lapicw (index value : Z) : Mach unit :=
  l ← get m_lapic;
  tell (St32 (l + 4 * index) (u32 value));;
  lapic_get ID;;
  mret tt.

Definition lapicinit : Mach unit :=
  l ← get m_lapic;
  if negb (cbool l) then mret tt else
  lapicw SVR (Z.lor ENABLE (T_IRQ0 + IRQ_SPURIOUS));;
  lapicw TDCR X1;;
  lapicw TIMER (Z.lor PERIODIC (T_IRQ0 + IRQ_TIMER));;
  lapicw TICR 10000000;;
  lapicw LINT0 MASKED;;
  lapicw LINT1 MASKED;;
  v ← lapic_get VER;
  when (4 <=? Z.land (Z.shiftr v 16) 0xFF) (lapicw PCINT MASKED);;
  lapicw ERROR (T_IRQ0 + IRQ_ERROR);;
  lapicw ESR 0;;
  lapicw ESR 0;;
  lapicw EOI 0;;
  lapicw ICRHI 0;;
  lapicw ICRLO (Z.lor (Z.lor BCAST INIT) LEVEL);;
  poll (v ← lapic_get ICRLO; mret (cbool (Z.land v DELIVS)));;
  lapicw TPR 0.

(** The number of this processor; [pc] is the return address that the warning shows. *)
Definition cpunum (pc : Z) : Mach Z :=
  fl ← get (fun s => ifl (k_cpu (m_k s)));
  when fl (
    n ← get m_cpunum_n;
    modify (set_m_cpunum_n (s32 (n + 1)));;
    when (n =? 0) (kern (cprintf ("cpu called from %x with interrupts enabled" +:+ nl) [CInt pc])));;
  l ← get m_lapic;
  if cbool l then
    v ← lapic_get ID;
    mret (Z.shiftr v 24)
  else mret 0.

(** Acknowledge interrupt. *)
Definition lapiceoi : Mach unit :=
  l ← get m_lapic;
  when (cbool l) (lapicw EOI 0).

Definition CMOS_PORT : Z := 0x70.
Definition CMOS_RETURN : Z := 0x71.

(** Start additional processor running entry code at addr. *)
Definition lapicstartap (apicid addr : Z) : Mach unit :=
  outb CMOS_PORT 0xF;;
  outb (CMOS_PORT + 1) 0x0A;;
  let wrv := p2v (Z.lor (Z.shiftl 0x40 4) 0x67) in
  kern (kwrite16 wrv 0);;
  kern (kwrite16 (wrv + 2) (Z.shiftr addr 4));;
  lapicw ICRHI (Z.shiftl apicid 24);;
  lapicw ICRLO (Z.lor (Z.lor INIT LEVEL) ASSERT);;
  lapicw ICRLO (Z.lor INIT LEVEL);;
  for_each (seqZ 0 2) (fun _ =>
    lapicw ICRHI (Z.shiftl apicid 24);;
    lapicw ICRLO (Z.lor STARTUP (Z.shiftr addr 12));;
    mret (None : option unit));;
  mret tt.

(** * lapic.c: the clock *)

Definition CMOS_STATA : Z := 0x0a.
Definition CMOS_STATB : Z := 0x0b.
Definition CMOS_UIP : Z := Z.shiftl 1 7.
Definition SECS : Z := 0x00.
Definition MINS : Z := 0x02.
Definition HOURS : Z := 0x04.
Definition DAY : Z := 0x07.
Definition MONTH : Z := 0x08.
Definition YEAR : Z := 0x09.

(** date.h *)
Record rtcdate := mkDate { second : Z; minute : Z; hour : Z; day : Z; month : Z; year : Z }.

#[global] Instance rtcdate_eq_dec : EqDecision rtcdate.
Proof. solve_decision. Defined.

Definition cmos_read (reg : Z) : Mach Z :=
  outb CMOS_PORT reg;;
  inb CMOS_RETURN.

Definition fill_rtcdate : Mach rtcdate :=
  s ← cmos_read SECS;
  mi ← cmos_read MINS;
  h ← cmos_read HOURS;
  d ← cmos_read DAY;
  mo ← cmos_read MONTH;
  y ← cmos_read YEAR;
  mret (mkDate s mi h d mo y).

(** [CONV] *)
Definition conv (x : Z) : Z := Z.shiftr x 4 * 10 + Z.land x 0xf.

Definition conv_date (t : rtcdate) : rtcdate :=
  mkDate (conv (second t)) (conv (minute t)) (conv (hour t)) (conv (day t)) (conv (month t)) (conv (year t)).

(** The loop of [cmostime]: read the date until two readings agree. *)
Definition rtc_read : Mach rtcdate :=
  loop patience (fun _ : unit =>
    t1 ← fill_rtcdate;
    a ← cmos_read CMOS_STATA;
    if cbool (Z.land a CMOS_UIP) then mret (inl tt)
    else
      t2 ← fill_rtcdate;
      if decide (t1 = t2) then mret (inr t1) else mret (inl tt)) tt.

Definition cmostime : Mach rtcdate :=
  sb ← cmos_read CMOS_STATB;
  let bcd := Z.land sb (Z.shiftl 1 2) =? 0 in
  t1 ← rtc_read;
  let t1 := if bcd then conv_date t1 else t1 in
  mret (mkDate (second t1) (minute t1) (hour t1) (day t1) (month t1) (year t1 + 2000)).

(** * timer.c *)

Definition IO_TIMER1 : Z := 0x040.
Definition TIMER_FREQ : Z := 1193182.
Definition TIMER_DIV (x : Z) : Z := (TIMER_FREQ + x / 2) / x.
Definition TIMER_MODE : Z := IO_TIMER1 + 3.
Definition TIMER_SEL0 : Z := 0x00.
Definition TIMER_RATEGEN : Z := 0x04.
Definition TIMER_16BIT : Z := 0x30.

Definition timerinit : Mach unit :=
  outb TIMER_MODE (Z.lor (Z.lor TIMER_SEL0 TIMER_RATEGEN) TIMER_16BIT);;
  outb IO_TIMER1 (TIMER_DIV 100 mod 256);;
  outb IO_TIMER1 (TIMER_DIV 100 / 256);;
  picenable IRQ_TIMER.

(** * uart.c *)

Definition COM1 : Z := 0x3f8.

Definition uartinit : Mach unit :=
  outb (COM1 + 2) 0;;
  outb (COM1 + 3) 0x80;;
  outb (COM1 + 0) (115200 / 9600);;
  outb (COM1 + 1) 0;;
  outb (COM1 + 3) 0x03;;
  outb (COM1 + 4) 0;;
  outb (COM1 + 1) 0x01;;
  st ← inb (COM1 + 5);
  if st =? 0xFF then mret tt else
  kern (modify (on_cons (set_uart 1)));;
  inb (COM1 + 2);;
  inb (COM1 + 0);;
  picenable IRQ_COM1;;
  ioapicenable IRQ_COM1 0;;
  kern (for_each (str ("xv6..." +:+ nl)) (fun c => uartputc c;; mret (None : option unit)));;
  mret tt.

Definition uartgetc : Mach Z :=
  u ← get (fun s => uart (k_cons (m_k s)));
  if negb (cbool u) then mret (-1) else
  st ← inb (COM1 + 5);
  if negb (cbool (Z.land st 0x01)) then mret (-1)
  else inb (COM1 + 0).

(** * console.c and ide.c: the rest of their initialisation *)

Definition boot_consoleinit : Mach unit :=
  kern consoleinit;;
  picenable IRQ_KBD;;
  ioapicenable IRQ_KBD 0.

Definition IDE_BSY : Z := 0x80.
Definition IDE_DRDY : Z := 0x40.

(** [idewait(0)] *)
Definition idewait0 : Mach unit :=
  poll (r ← inb 0x1f7; mret (negb (Z.land r (Z.lor IDE_BSY IDE_DRDY) =? IDE_DRDY))).

Definition boot_ideinit : Mach unit :=
  kern (initlock L_ide "ide");;
  picenable IRQ_IDE;;
  n ← get m_ncpu;
  ioapicenable IRQ_IDE (n - 1);;
  idewait0;;
  outb 0x1f6 (Z.lor 0xe0 (Z.shiftl 1 4));;
  for_each (seqZ 0 1000) (fun _ =>
    st ← inb 0x1f7;
    if negb (st =? 0) then
      kern (modify (set_k_havedisk1 1));;
      mret (Some tt)
    else mret None);;
  outb 0x1f6 (Z.lor 0xe0 (Z.shiftl 0 4)).

(** * vm.c and trap.c: descriptors *)

Definition STA_X : Z := 0x8.
Definition STA_W : Z := 0x2.
Definition STA_R : Z := 0x2.
Definition STS_IG32 : Z := 0xE.
Definition STS_TG32 : Z := 0xF.

(** Normal segment: [SEG(type, base, lim, dpl)]. *)
Definition SEG (type base lim dpl : Z) : segdesc :=
  mkSegdesc (Z.land (Z.shiftr lim 12) 0xffff) (Z.land (u32 base) 0xffff)
    (Z.land (Z.shiftr (u32 base) 16) 0xff) type 1 dpl 1
    (Z.shiftr (u32 lim) 28) 0 0 1 1 (Z.shiftr (u32 base) 24).

(** [SETGATE(gate, istrap, sel, off, d)] *)
Definition SETGATE (istrap sel off d : Z) : gatedesc :=
  mkGatedesc (Z.land (u32 off) 0xffff) sel 0 0 (if cbool istrap then STS_TG32 else STS_IG32) 0 d 1 (Z.shiftr (u32 off) 16).

Definition on_apcpu (i : Z) (f : apcpu -> apcpu) (s : machine) : machine :=
  set_m_cpus (alter f (Z.to_nat i) (m_cpus s)) s.

Definition set_c_gdt (v : list segdesc) (c : apcpu) : apcpu := mkApcpu (c_id c) v (c_started c).
Definition set_c_id (v : Z) (c : apcpu) : apcpu := mkApcpu v (c_gdt c) (c_started c).
Definition set_c_started (v : Z) (c : apcpu) : apcpu := mkApcpu (c_id c) (c_gdt c) v.

(** The segments of a processor; [kcpu] is the address of its [cpu] variable. *)
Definition gdt_of (kcpu : Z) (g : list segdesc) : list segdesc :=
  let g := <[Z.to_nat SEG_KCODE := SEG (Z.lor STA_X STA_R) 0 0xffffffff 0]> g in
  let g := <[Z.to_nat SEG_KDATA := SEG STA_W 0 0xffffffff 0]> g in
  let g := <[Z.to_nat SEG_UCODE := SEG (Z.lor STA_X STA_R) 0 0xffffffff DPL_USER]> g in
  let g := <[Z.to_nat SEG_UDATA := SEG STA_W 0 0xffffffff DPL_USER]> g in
  <[Z.to_nat SEG_KCPU := SEG STA_W kcpu 8 0]> g.

(** [kcpu] gives the address of the [cpu] variable of a processor.  With [lgdt], [loadgs] and [cpu = c] this processor
    is [cpus[cpunum()]] from here on. *)
Definition seginit (pc : Z) (kcpu : Z -> Z) : Mach unit :=
  c ← cpunum pc;
  modify (on_apcpu c (fun a => set_c_gdt (gdt_of (kcpu c) (c_gdt a)) a));;
  modify (set_m_cpu c);;
  id ← get (fun s => default 0 (c_id <$> m_cpus s !! Z.to_nat c));
  kern (modify (on_cpu (fun r => set_cpu_proc None (set_cpu_id id r)))).

Definition tvinit : Mach unit :=
  for_each (seqZ 0 256) (fun i =>
    modify (fun s => set_m_idt (<[Z.to_nat i := SETGATE 0 (Z.shiftl SEG_KCODE 3) (sym_vectors i) 0]> (m_idt s)) s);;
    mret (None : option unit));;
  modify (fun s => set_m_idt (<[Z.to_nat T_SYSCALL := SETGATE 1 (Z.shiftl SEG_KCODE 3) (sym_vectors T_SYSCALL) DPL_USER]> (m_idt s)) s);;
  kern (initlock L_time "time").

Definition idtinit : Mach unit := modify (set_m_idtr true).

End machine.
