(* ===== verification/Clock.v ===== *)
(** lapic.c: [cmostime] reads a date that the clock showed.

    The registers of the clock are read one after the other while it runs, and what they show while the clock
    updates them is undefined.  The loop of [cmostime] accepts a date only if the clock announces no update after
    the first reading and a second reading gives the same date.  Time is counted in steps of the trace. *)

From S2P Require Import Prelude Params Mem State Spinlock Console Kalloc Vm Proc.
From S2P Require Import Ide Bio Log Umem Fs ConsoleIn Pipe Syscall Exec Trap Machine.

Section clock.
Context `{Hardware}.

(** The date of the clock after [n] steps, whether it updates its registers at that time, whether the bit that
    announces an update is set, and whether it counts in BCD. *)
Variable now : nat -> rtcdate.
Variable updating : nat -> bool.
Variable uip : nat -> bool.
Variable bcd : bool.

Definition enc (x : Z) : Z := if bcd then 16 * (x / 10) + x mod 10 else x.

Definition enc_date (d : rtcdate) : rtcdate :=
  mkDate (enc (second d)) (enc (minute d)) (enc (hour d)) (enc (day d)) (enc (month d)) (enc (year d)).

Definition date_ok (d : rtcdate) : Prop :=
  0 <= second d < 100 /\ 0 <= minute d < 100 /\ 0 <= hour d < 100 /\ 0 <= day d < 100 /\ 0 <= month d < 100 /\ 0 <= year d < 100.

(** The data port shows the register that was selected last; those of the date show anything during an update. *)
Definition clock_hw : Prop := forall h r,
  let h' := h ++ [Out8 CMOS_PORT r] in
  let v := u8 (answer h' (In8 CMOS_RETURN)) in
  let d := enc_date (now (length h')) in
  (updating (length h') = false ->
    (r = SECS -> v = second d) /\ (r = MINS -> v = minute d) /\ (r = HOURS -> v = hour d) /\
    (r = DAY -> v = day d) /\ (r = MONTH -> v = month d) /\ (r = YEAR -> v = year d)) /\
  (r = CMOS_STATA -> cbool (Z.land v CMOS_UIP) = uip (length h')) /\
  (r = CMOS_STATB -> (Z.land v (Z.shiftl 1 2) =? 0) = bcd).

(** The bit UIP is set during an update and early enough before one: when it is clear the registers can
    be read (the clock guarantees 244 microseconds). *)
Definition clock_warns : Prop := forall n, uip n = false -> forall i, (n <= i <= n + 12)%nat -> updating i = false.

(** The date changes only in an update. *)
Definition clock_still : Prop := forall n, updating n = false -> updating (S n) = false -> now (S n) = now n.

Hypothesis Hhw : clock_hw.
Hypothesis Hwarns : clock_warns.
Hypothesis Hstill : clock_still.
Hypothesis Hok : forall n, date_ok (now n).

Lemma now_still n k : (forall i, (n <= i <= n + k)%nat -> updating i = false) -> now (n + k) = now n.
Proof.
  induction k as [|k IH]; intros Hu; [by rewrite Nat.add_0_r|].
  rewrite Nat.add_succ_r, Hstill by (apply Hu; lia). apply IH. intros i Hi. apply Hu. lia.
Qed.

(** [s'] is [s] with [k] more steps in the trace. *)
Definition asked (k : nat) (s s' : machine) : Prop :=
  exists l, s' = set_m_io (m_io s ++ l) s /\ length l = k.

Lemma asked_trans j k s1 s2 s3 : asked j s1 s2 -> asked k s2 s3 -> asked (j + k) s1 s3.
Proof.
  intros (l & -> & <-) (l' & -> & <-). exists (l ++ l'). simpl. rewrite app_assoc, length_app. done.
Qed.

Lemma asked_length k s s' : asked k s s' -> length (m_io s') = (length (m_io s) + k)%nat.
Proof. intros (l & -> & <-). simpl. by rewrite length_app. Qed.

Lemma cmos_read_ok r e s : 0 <= r < 256 ->
  exists s', cmos_read r e s = Done (u8 (answer (m_io s ++ [Out8 CMOS_PORT r]) (In8 CMOS_RETURN))) e s' /\ asked 2 s s'.
Proof.
  intros Hr. unfold cmos_read, outb, inb. replace (u8 r) with r by (unfold u8; rewrite Z.mod_small; lia).
  eexists. split; [reflexivity|]. exists [Out8 CMOS_PORT r; In8 CMOS_RETURN]. simpl. by rewrite <- app_assoc.
Qed.

Ltac read_register :=
  match goal with
  | |- context[(cmos_read ?r ≫= _) ?e ?s] =>
      let s1 := fresh "s" in let E := fresh "E" in let A := fresh "A" in
      destruct (cmos_read_ok r e s) as (s1 & E & A); [done|]; rewrite (bind_Done _ _ _ _ _ _ _ E); clear E
  end.

(** A register of the date, read when there was no update since step [n]. *)
Lemma register_still n k h : length h = (n + k)%nat -> (forall i, (n <= i <= n + S k)%nat -> updating i = false) ->
  let v r := u8 (answer (h ++ [Out8 CMOS_PORT r]) (In8 CMOS_RETURN)) in
  let d := enc_date (now n) in
  v SECS = second d /\ v MINS = minute d /\ v HOURS = hour d /\ v DAY = day d /\ v MONTH = month d /\ v YEAR = year d.
Proof.
  intros Hh Hu v d.
  assert (Hl : forall r, length (h ++ [Out8 CMOS_PORT r]) = (n + S k)%nat) by (intros r; rewrite length_app; simpl; lia).
  assert (Hr : forall r, updating (length (h ++ [Out8 CMOS_PORT r])) = false) by (intros r; rewrite Hl; apply Hu; lia).
  assert (Hn : forall r, now (length (h ++ [Out8 CMOS_PORT r])) = now n) by (intros r; rewrite Hl; by apply now_still).
  split_and!; subst v d; cbv beta.
  - destruct (proj1 (Hhw h SECS) (Hr SECS)) as (E & _). rewrite (E eq_refl). by rewrite Hn.
  - destruct (proj1 (Hhw h MINS) (Hr MINS)) as (_ & E & _). rewrite (E eq_refl). by rewrite Hn.
  - destruct (proj1 (Hhw h HOURS) (Hr HOURS)) as (_ & _ & E & _). rewrite (E eq_refl). by rewrite Hn.
  - destruct (proj1 (Hhw h DAY) (Hr DAY)) as (_ & _ & _ & E & _). rewrite (E eq_refl). by rewrite Hn.
  - destruct (proj1 (Hhw h MONTH) (Hr MONTH)) as (_ & _ & _ & _ & E & _). rewrite (E eq_refl). by rewrite Hn.
  - destruct (proj1 (Hhw h YEAR) (Hr YEAR)) as (_ & _ & _ & _ & _ & E). rewrite (E eq_refl). by rewrite Hn.
Qed.

(** A reading without an update since some step before it is the date of that step. *)
Lemma fill_rtcdate_ok e s :
  exists s' d, fill_rtcdate e s = Done d e s' /\ asked 12 s s' /\
    forall n, (n <= length (m_io s))%nat -> (forall i, (n <= i <= length (m_io s) + 11)%nat -> updating i = false) ->
      d = enc_date (now n).
Proof.
  unfold fill_rtcdate. do 6 read_register.
  pose proof (asked_trans _ _ _ _ _ A A0) as T0. pose proof (asked_trans _ _ _ _ _ T0 A1) as T1.
  pose proof (asked_trans _ _ _ _ _ T1 A2) as T2. pose proof (asked_trans _ _ _ _ _ T2 A3) as T3.
  eexists _, _. split; [reflexivity|]. split; [exact (asked_trans _ _ _ _ _ T3 A4)|]. intros n Hn Hu.
  apply asked_length in A, T0, T1, T2, T3.
  assert (Hr : forall h j, length h = (length (m_io s) + j)%nat -> (j <= 10)%nat ->
    let v r := u8 (answer (h ++ [Out8 CMOS_PORT r]) (In8 CMOS_RETURN)) in
    let d := enc_date (now n) in
    v SECS = second d /\ v MINS = minute d /\ v HOURS = hour d /\ v DAY = day d /\ v MONTH = month d /\ v YEAR = year d).
  { intros h j Hh Hj. apply (register_still n (length (m_io s) - n + j)); [lia|]. intros i Hi. apply Hu. lia. }
  destruct (Hr (m_io s) 0%nat ltac:(lia) ltac:(lia)) as (-> & _).
  destruct (Hr (m_io s0) 2%nat A ltac:(lia)) as (_ & -> & _).
  destruct (Hr (m_io s1) 4%nat T0 ltac:(lia)) as (_ & _ & -> & _).
  destruct (Hr (m_io s2) 6%nat T1 ltac:(lia)) as (_ & _ & _ & -> & _).
  destruct (Hr (m_io s3) 8%nat T2 ltac:(lia)) as (_ & _ & _ & _ & -> & _).
  destruct (Hr (m_io s4) 10%nat T3 ltac:(lia)) as (_ & _ & _ & _ & _ & ->). done.
Qed.

(** One round of the loop. *)
Lemma rtc_round e s :
  let n := length (m_io s) in
  let body := t1 ← fill_rtcdate; a ← cmos_read CMOS_STATA;
    if cbool (Z.land a CMOS_UIP) then mret (inl tt)
    else t2 ← fill_rtcdate; if decide (t1 = t2) then mret (inr t1) else mret (inl tt) in
  exists r s' k, body e s = Done r e s' /\ asked k s s' /\ (14 <= k <= 26)%nat /\
    ((r = inl tt /\ ~ (forall i, (n <= i <= n + 26)%nat -> uip i = false)) \/
     (exists j, (n <= j <= n + k)%nat /\ r = inr (enc_date (now j)))).
Proof.
  intros n body. subst body. destruct (fill_rtcdate_ok e s) as (s1 & d1 & E1 & A1 & Hd1). rewrite (bind_Done _ _ _ _ _ _ _ E1).
  read_register. pose proof (asked_trans _ _ _ _ _ A1 A) as A2.
  destruct (Hhw (m_io s1) CMOS_STATA) as (_ & Hu & _). rewrite (Hu eq_refl). clear Hu.
  rewrite length_app, (asked_length _ _ _ A1). fold n. change (length [_]) with 1%nat. rewrite <- Nat.add_assoc. change (12 + 1)%nat with 13%nat.
  destruct (uip (n + 13)) eqn:Eu.
  { exists (inl tt), s0, 14%nat. split; [done|]. split; [done|]. split; [lia|]. left. split; [done|].
    intros Hu. rewrite Hu in Eu by lia. done. }
  destruct (fill_rtcdate_ok e s0) as (s2 & d2 & E2 & A3 & Hd2). rewrite (bind_Done _ _ _ _ _ _ _ E2).
  pose proof (asked_trans _ _ _ _ _ A2 A3) as A4. simpl in A4. rewrite (asked_length _ _ _ A2) in Hd2. fold n in Hd2, Hd1.
  specialize (Hd2 (n + 13)%nat ltac:(lia)).
  assert (Ed2 : d2 = enc_date (now (n + 13))) by (apply Hd2; intros i Hi; apply (Hwarns (n + 13)%nat Eu); lia).
  case_decide as Hd; exists (if decide (d1 = d2) then inr d1 else inl tt), s2, 26%nat; case_decide; try done.
  - split; [done|]. split; [done|]. split; [lia|]. right. exists (n + 13)%nat. split; [lia|]. by rewrite Hd, Ed2.
  - split; [done|]. split; [done|]. split; [lia|]. left. split; [done|]. intros Hu. apply Hd.
    assert (Hup : forall i, (n <= i <= n + 13)%nat -> updating i = false).
    { intros i Hi. apply (Hwarns i); [apply Hu; lia|lia]. }
    rewrite Ed2, (now_still n 13) by done. apply Hd1; [lia|]. intros i Hi. apply Hup. lia.
Qed.

(** No update is announced for the time of four readings from [T] on. *)
Definition quiet (T : nat) : Prop := forall i, (T <= i <= T + 52)%nat -> uip i = false.

Lemma rtc_loop_ok T fuel : forall e s,
  quiet T -> (length (m_io s) <= T + 26)%nat -> (T + 14 <= length (m_io s) + 14 * fuel)%nat -> (0 < fuel)%nat ->
  exists s' k j, loop fuel (fun _ : unit => t1 ← fill_rtcdate; a ← cmos_read CMOS_STATA;
    if cbool (Z.land a CMOS_UIP) then mret (inl tt)
    else t2 ← fill_rtcdate; if decide (t1 = t2) then mret (inr t1) else mret (inl tt)) tt e s = Done (enc_date (now j)) e s' /\
    asked k s s' /\ (length (m_io s) <= j <= length (m_io s'))%nat.
Proof.
  induction fuel as [|fuel IH]; intros e s Hq Hn Hf H0; [lia|]. cbn [loop].
  destruct (rtc_round e s) as (r & s1 & k & E & A & Hk & Hr). rewrite (bind_Done _ _ _ _ _ _ _ E). pose proof (asked_length _ _ _ A) as L.
  destruct Hr as [[-> Hr]|(j & Hj & ->)]; [|exists s1, k, j; split_and!; [done|done|lia|lia]].
  assert (Hlt : (length (m_io s) < T)%nat).
  { destruct (decide (T <= length (m_io s))%nat) as [Hge|]; [|lia]. destruct Hr. intros i Hi. apply Hq. lia. }
  destruct (IH e s1 Hq) as (s' & k' & j & El & A' & Hj); [lia|lia|lia|].
  exists s', (k + k')%nat, j. split_and!; [done|by eapply asked_trans|lia|lia].
Qed.

Lemma conv_enc x : 0 <= x < 100 -> bcd = true -> conv (enc x) = x.
Proof.
  intros Hx Hb. unfold conv, enc. rewrite Hb. rewrite Z.shiftr_div_pow2 by lia. change (Z.land ?a 0xf) with (Z.land a (Z.ones 4)).
  rewrite Z.land_ones by lia. change (2 ^ 4) with 16. Z.div_mod_to_equations. lia.
Qed.

(** C21: [cmostime] returns a date that the clock had during the call, in decimal whether or
    not the clock counts in BCD, although it reads the six registers one after the other while the clock runs
    and the registers show anything during an update.  The clock need only announce each update, with
    the bit UIP, in time for one reading.  [cmostime] returns once the clock announces
    none for the time of four readings.  Nothing but the trace changes. *)
Theorem cmostime_spec T e s :
  quiet T -> (length (m_io s) + 2 <= T)%nat -> (T + 12 <= length (m_io s) + 14 * patience)%nat ->
  exists s' j, cmostime e s = Done (let d := now j in mkDate (second d) (minute d) (hour d) (day d) (month d) (year d + 2000)) e s' /\
    (length (m_io s) <= j <= length (m_io s'))%nat /\ exists l, s' = set_m_io (m_io s ++ l) s.
Proof.
  intros Hq HT Hp. unfold cmostime. read_register. destruct (Hhw (m_io s) CMOS_STATB) as (_ & _ & Hb).
  rewrite (Hb eq_refl). clear Hb. pose proof (asked_length _ _ _ A) as L.
  destruct (rtc_loop_ok T patience e s0 Hq) as (s' & k & j & E & A' & Hj); [lia|lia|lia|].
  unfold rtc_read. rewrite (bind_Done _ _ _ _ _ _ _ E). exists s', j.
  split; [|split; [lia|]; destruct (asked_trans _ _ _ _ _ A A') as (l & Hl & _); by exists l].
  destruct (Hok j) as (? & ? & ? & ? & ? & ?). unfold mret, M_ret. f_equal. destruct bcd eqn:Eb; [|unfold enc_date, enc; simpl; by rewrite Eb].
  unfold conv_date, enc_date; simpl. by rewrite !conv_enc by done.
Qed.

End clock.

(** * Witness *)

(** A clock in BCD that goes from 10:59:59 to 11:00:00 in the first reading; its registers are all 0
    meanwhile. *)
Definition cw_now (n : nat) : rtcdate := if (n <? 8)%nat then mkDate 59 59 10 24 3 15 else mkDate 0 0 11 24 3 15.
Definition cw_updating (n : nat) : bool := (6 <=? n)%nat && (n <=? 9)%nat.
Definition cw_uip (n : nat) : bool := (n <=? 9)%nat.

Definition cw_answer (h : list io) (x : io) : Z :=
  let d := if cw_updating (length h) then mkDate 0 0 0 0 0 0 else enc_date true (cw_now (length h)) in
  match last h with
  | Some (Out8 _ r) =>
      if r =? SECS then second d else if r =? MINS then minute d else if r =? HOURS then hour d
      else if r =? DAY then day d else if r =? MONTH then month d else if r =? YEAR then year d
      else if r =? CMOS_STATA then (if cw_uip (length h) then CMOS_UIP else 0) else 0
  | _ => 0
  end.

Definition cw_hardware : Hardware := {| answer := cw_answer; patience := 4 |}.

Lemma cw_hw : @clock_hw cw_hardware cw_now cw_updating cw_uip true.
Proof.
  intros h r. cbv zeta. unfold answer, cw_hardware, cw_answer. rewrite last_snoc. unfold cw_now. split_and!.
  - intros ->. destruct (_ <? _)%nat; split_and!; intros ->; reflexivity.
  - intros ->. by destruct (cw_uip _).
  - intros ->. done.
Qed.

Lemma cw_warns : clock_warns cw_updating cw_uip.
Proof. intros n Hn i Hi. unfold cw_uip in Hn. unfold cw_updating. apply Nat.leb_gt in Hn. apply andb_false_iff. right. apply Nat.leb_gt. lia. Qed.

Lemma cw_still : clock_still cw_now cw_updating.
Proof.
  intros n Hn HS. unfold cw_updating, cw_now in *. apply andb_false_iff in Hn, HS. rewrite !Nat.leb_gt in Hn, HS.
  destruct (Nat.ltb_spec (S n) 8), (Nat.ltb_spec n 8); try done; lia.
Qed.

Lemma cw_quiet : quiet cw_uip 10.
Proof. intros i Hi. unfold cw_uip. apply Nat.leb_gt. lia. Qed.

Definition cw_machine : machine := mkMachine boot_state [] 0 0 0 0 0 0 0 0 [] 0 [] false.

Lemma cmostime_spec_witness : exists s' j,
  @cmostime cw_hardware [] cw_machine = Done (let d := cw_now j in mkDate (second d) (minute d) (hour d) (day d) (month d) (year d + 2000)) [] s'.
Proof.
  destruct (@cmostime_spec cw_hardware cw_now cw_updating cw_uip true cw_hw cw_warns cw_still
    ltac:(intros n; unfold cw_now; destruct (_ <? _)%nat; unfold date_ok; simpl; lia) 10 [] cw_machine cw_quiet
    ltac:(simpl; lia) ltac:(simpl; lia)) as (s' & j & E & _). exists s', j. exact E.
Defined.
