(* ===== verification/Mp.v ===== *)
(** mp.c: the processors of the machine, from the tables that the BIOS left in memory.

    A pointer into the tables is a kernel address.  The list of entries behind a table is given to the theorems as a
    list of [mpentry]; [entries_at] says that memory has it. *)

From S2P Require Import Prelude Params Mem State Spinlock Console Kalloc Vm Proc.
From S2P Require Import Ide Bio Log Umem Fs ConsoleIn Pipe Syscall Exec Trap Machine.

(** A byte, a half word and a word at a kernel address. *)
Definition kb (m : memory) (a : Z) : Z := ld8 m (v2p a).
Definition kh (m : memory) (a : Z) : Z := kb m a + 256 * kb m (a + 1).
Definition kw (m : memory) (a : Z) : Z := kh m a + 65536 * kh m (a + 2).

(** mp.h: the sizes of the structures and the fields that are used. *)
Definition sizeof_mp : Z := 16.
Definition mp_physaddr (m : memory) (mp : Z) : Z := kw m (mp + 4).
Definition mp_imcrp (m : memory) (mp : Z) : Z := kb m (mp + 12).
Definition sizeof_mpconf : Z := 44.
Definition conf_length (m : memory) (conf : Z) : Z := kh m (conf + 4).
Definition conf_version (m : memory) (conf : Z) : Z := kb m (conf + 6).
Definition conf_lapicaddr (m : memory) (conf : Z) : Z := kw m (conf + 36).
Definition sizeof_mpproc : Z := 20.
Definition proc_apicid (m : memory) (p : Z) : Z := kb m (p + 1).
Definition proc_flags (m : memory) (p : Z) : Z := kb m (p + 3).
Definition MPBOOT : Z := 0x02.
Definition sizeof_mpioapic : Z := 8.
Definition ioapic_apicno (m : memory) (p : Z) : Z := kb m (p + 1).
Definition MPPROC : Z := 0x00.
Definition MPBUS : Z := 0x01.
Definition MPIOAPIC : Z := 0x02.
Definition MPIOINTR : Z := 0x03.
Definition MPLINTR : Z := 0x04.

(** [for(i=0; i<len; i++) sum += addr[i]] *)
Fixpoint mp_sum_loop (m : memory) (addr acc : Z) (n : nat) : Z :=
  match n with
  | O => acc
  | S n' => mp_sum_loop m (addr + 1) (s32 (acc + kb m addr)) n'
  end.

Definition mp_sum (m : memory) (addr len : Z) : Z := u8 (mp_sum_loop m addr 0 (Z.to_nat len)).

Definition mp_memcmp (m : memory) (p : Z) (sig : string) : Z :=
  memcmp (fun i => kb m (p + i)) (lstr (str sig)) 0 4.

(** Look for an MP structure in the len bytes at addr. *)
Fixpoint mpsearch1_loop (fuel : nat) (m : memory) (p e : Z) : option Z :=
  if negb (p <? e) then Some 0
  else match fuel with
       | O => None
       | S fuel' =>
           if (mp_memcmp m p "_MP_" =? 0) && (mp_sum m p sizeof_mp =? 0) then Some p
           else mpsearch1_loop fuel' m (u32 (p + sizeof_mp)) e
       end.

Definition mpsearch1 (m : memory) (a len : Z) : option Z :=
  let addr := p2v a in
  let e := u32 (addr + len) in
  mpsearch1_loop (Z.to_nat (len / sizeof_mp + 1)) m addr e.

(** Search for the MP Floating Pointer Structure. *)
Definition mpsearch (m : memory) : option Z :=
  let bda := p2v 0x400 in
  let p := Z.shiftl (Z.lor (Z.shiftl (kb m (bda + 0x0F)) 8) (kb m (bda + 0x0E))) 4 in
  if cbool p then
    mp ← mpsearch1 m p 1024;
    if cbool mp then Some mp else mpsearch1 m 0xF0000 0x10000
  else
    let p := Z.lor (Z.shiftl (kb m (bda + 0x14)) 8) (kb m (bda + 0x13)) * 1024 in
    mp ← mpsearch1 m (p - 1024) 1024;
    if cbool mp then Some mp else mpsearch1 m 0xF0000 0x10000.

(** Search for an MP configuration table: the table, or 0, and the MP structure. *)
Definition mpconfig (m : memory) : option (Z * Z) :=
  mp ← mpsearch m;
  if (mp =? 0) || (mp_physaddr m mp =? 0) then Some (0, mp) else
  let conf := p2v (mp_physaddr m mp) in
  if negb (mp_memcmp m conf "PCMP" =? 0) then Some (0, mp)
  else if negb (conf_version m conf =? 1) && negb (conf_version m conf =? 4) then Some (0, mp)
  else if negb (mp_sum m conf (conf_length m conf) =? 0) then Some (0, mp)
  else Some (conf, mp).

(** * The search *)

(** There is an MP structure at [p]. *)
Definition mp_here (m : memory) (p : Z) : bool := (mp_memcmp m p "_MP_" =? 0) && (mp_sum m p sizeof_mp =? 0).

(** [r] is the first of the places [p], [p + 16], ... below [e] with an MP structure, 0 if there is none. *)
Definition first_mp (m : memory) (p e r : Z) : Prop :=
  (r = 0 /\ forall i, 0 <= i -> p + 16 * i < e -> mp_here m (p + 16 * i) = false) \/
  (exists k, 0 <= k /\ r = p + 16 * k /\ r < e /\ mp_here m r = true /\ forall i, 0 <= i < k -> mp_here m (p + 16 * i) = false).

Lemma mpsearch1_loop_ok m e fuel : forall p, 0 <= p -> e + 16 <= 4294967296 -> e - p <= 16 * Z.of_nat fuel ->
  exists r, mpsearch1_loop fuel m p e = Some r /\ first_mp m p e r.
Proof.
  induction fuel as [|fuel IH]; intros p Hp He Hf; cbn [mpsearch1_loop]; destruct (Z.ltb_spec p e) as [Hlt|Hge]; cbn [negb]; [lia|..];
    try (exists 0; split; [done|left; split; [done|intros; lia]]).
  fold (mp_here m p). destruct (mp_here m p) eqn:Eh.
  { exists p. split; [done|]. right. exists 0. rewrite Z.add_0_r. split_and!; [lia|lia|done|done|intros; lia]. }
  change sizeof_mp with 16. rewrite u32_small by lia. destruct (IH (p + 16)) as (r & -> & Hr); [lia|lia|lia|]. exists r. split; [done|].
  assert (Hstep : forall i, (p + 16) + 16 * i = p + 16 * (i + 1)) by lia.
  destruct Hr as [[-> Hnone]|(k & Hk & -> & Hre & Hhere & Hbefore)]; [left|right].
  - split; [done|]. intros i Hi Hie. destruct (decide (i = 0)) as [->|]; [by rewrite Z.add_0_r|].
    specialize (Hnone (i - 1) ltac:(lia) ltac:(lia)). by replace (p + 16 + 16 * (i - 1)) with (p + 16 * i) in Hnone by lia.
  - exists (k + 1). split_and!; [lia|lia|done|done|]. intros i Hi. destruct (decide (i = 0)) as [->|]; [by rewrite Z.add_0_r|].
    specialize (Hbefore (i - 1) ltac:(lia)). by replace (p + 16 + 16 * (i - 1)) with (p + 16 * i) in Hbefore by lia.
Qed.

Lemma mpsearch1_ok m a len : 0 <= p2v a -> 0 <= len -> p2v a + len + 16 <= 4294967296 ->
  exists r, mpsearch1 m a len = Some r /\ first_mp m (p2v a) (p2v a + len) r.
Proof.
  intros Ha Hl Hal. unfold mpsearch1. rewrite u32_small by lia. apply mpsearch1_loop_ok; [done|lia|].
  change sizeof_mp with 16. Z.div_mod_to_equations. lia.
Qed.

(** * What the search is for *)

(** The structures of the MultiProcessor Specification: four bytes of signature, and bytes that add up to 0. *)
Definition signed (m : memory) (p : Z) (sig : string) : Prop := ((fun i => kb m (p + i)) <$> [0; 1; 2; 3]) = str sig.

Definition byte_sum (m : memory) (p n : Z) : Z := foldr Z.add 0 ((fun i => kb m (p + i)) <$> seqZ 0 n).

(** The MP floating pointer structure. *)
Definition mp_floating (m : memory) (p : Z) : Prop := signed m p "_MP_" /\ byte_sum m p 16 mod 256 = 0.

(** The first kilobyte of the extended BIOS data area, whose segment is at 0x40E, or the last of
    the base memory, whose size in kilobytes is at 0x413; then the BIOS, from 0xF0000 on. *)
Definition ebda (m : memory) : Z :=
  if kh m (p2v 0x40E) =? 0 then kh m (p2v 0x413) * 1024 - 1024 else kh m (p2v 0x40E) * 16.

Definition places (m : memory) : list Z :=
  ((fun i => p2v (ebda m) + 16 * i) <$> seqZ 0 64) ++ ((fun i => p2v 0xF0000 + 16 * i) <$> seqZ 0 4096).

(** [mp] is the first of the [places] with an MP floating pointer structure, and the table it points to, at [conf],
    is valid. *)
Record mp_tables (m : memory) (conf mp : Z) : Prop := {
  mt_first : exists i, places m !! i = Some mp /\ forall j p, (j < i)%nat -> places m !! j = Some p -> ~ mp_floating m p;
  mt_mp : mp_floating m mp;
  mt_addr : mp_physaddr m mp <> 0 /\ conf = p2v (mp_physaddr m mp);
  mt_sig : signed m conf "PCMP";
  mt_version : conf_version m conf = 1 \/ conf_version m conf = 4;
  mt_sum : byte_sum m conf (conf_length m conf) mod 256 = 0
}.

Lemma kb_range m a : 0 <= kb m a < 256.
Proof. apply ld8_range. Qed.

Lemma kh_range m a : 0 <= kh m a < 65536.
Proof. unfold kh. pose proof (kb_range m a). pose proof (kb_range m (a + 1)). lia. Qed.

Lemma mp_memcmp_spec m p sig : length (str sig) = 4%nat -> mp_memcmp m p sig = 0 <-> signed m p sig.
Proof.
  unfold mp_memcmp, signed. destruct (str sig) as [|a [|b [|c [|d [|]]]]]; try done. intros _. cbn [memcmp fmap list_fmap].
  change (lstr [a; b; c; d] 0) with a. change (lstr [a; b; c; d] (0 + 1)) with b.
  change (lstr [a; b; c; d] (0 + 1 + 1)) with c. change (lstr [a; b; c; d] (0 + 1 + 1 + 1)) with d.
  change (0 + 1 + 1 + 1) with 3. change (0 + 1 + 1) with 2. change (0 + 1) with 1.
  repeat (match goal with |- context[negb (?x =? ?y)] => destruct (Z.eqb_spec x y) as [->|]; cbn [negb] end); split; intros E; try done; try lia; congruence.
Qed.

Lemma byte_sum_cons m p n : 0 < n -> byte_sum m p n = kb m p + byte_sum m (p + 1) (n - 1).
Proof.
  intros Hn. unfold byte_sum. rewrite seqZ_cons by lia. cbn [fmap list_fmap foldr]. rewrite Z.add_0_r. f_equal. f_equal.
  rewrite <- (fmap_add_seqZ 1 0), <- list_fmap_compose. apply list_fmap_ext. intros i x _. simpl. f_equal. lia.
Qed.

Lemma mp_sum_loop_eq m n : forall p acc, 0 <= acc -> acc + 255 * Z.of_nat n < 2147483648 ->
  mp_sum_loop m p acc n = acc + byte_sum m p (Z.of_nat n).
Proof.
  induction n as [|n IH]; intros p acc Ha Hn; cbn [mp_sum_loop]; [unfold byte_sum; simpl; lia|].
  pose proof (kb_range m p). rewrite s32_small, IH by lia. rewrite (byte_sum_cons m p) by lia.
  replace (Z.of_nat (S n) - 1) with (Z.of_nat n) by lia. lia.
Qed.

Lemma mp_sum_eq m p n : 0 <= n < 65536 -> mp_sum m p n = byte_sum m p n mod 256.
Proof. intros Hn. unfold mp_sum. rewrite mp_sum_loop_eq by lia. rewrite Z2Nat.id by lia. done. Qed.

Lemma mp_here_spec m p : mp_here m p = true <-> mp_floating m p.
Proof.
  unfold mp_here, mp_floating. rewrite andb_true_iff, !Z.eqb_eq, mp_memcmp_spec, mp_sum_eq by done. done.
Qed.

(** [r] is the first element of [l] with an MP structure, 0 if there is none. *)
Definition first_of (m : memory) (l : list Z) (r : Z) : Prop :=
  (r = 0 /\ forall p, p ∈ l -> ~ mp_floating m p) \/
  (r <> 0 /\ mp_floating m r /\ exists i, l !! i = Some r /\ forall j p, (j < i)%nat -> l !! j = Some p -> ~ mp_floating m p).

Lemma first_mp_of m p n r :
  0 < p -> 0 <= n -> first_mp m p (p + 16 * n) r -> first_of m ((fun i => p + 16 * i) <$> seqZ 0 n) r.
Proof.
  intros Hp Hn [[-> Hnone]|(k & Hk & -> & Hlt & Hh & Hb)]; [left|right].
  - split; [done|]. intros q (i & -> & Hi%elem_of_seqZ)%list_elem_of_fmap Hm%mp_here_spec. rewrite Hnone in Hm by lia. done.
  - split; [lia|]. split; [by apply mp_here_spec|]. exists (Z.to_nat k). split.
    + rewrite list_lookup_fmap, lookup_seqZ_lt by lia. simpl. do 2 f_equal. lia.
    + intros j q Hj Hq Hm%mp_here_spec. rewrite list_lookup_fmap in Hq. destruct (seqZ 0 n !! j) as [i|] eqn:E; [|done].
      apply lookup_seqZ in E as [-> _]. injection Hq as <-. rewrite Hb in Hm by lia. done.
Qed.

Lemma first_of_app m l1 l2 r1 r2 :
  first_of m l1 r1 -> first_of m l2 r2 -> first_of m (l1 ++ l2) (if cbool r1 then r1 else r2).
Proof.
  unfold cbool. intros [[-> H1]|(Hr & Hm & i & Hi & Hb)] H2; cbn [Z.eqb negb].
  - destruct H2 as [[-> H2]|(Hr & Hm & i & Hi & Hb)]; [left|right].
    + split; [done|]. intros p [Hp|Hp]%elem_of_app; auto.
    + split; [done|]. split; [done|]. exists (length l1 + i)%nat. split; [by rewrite lookup_app_r, Nat.add_comm, Nat.add_sub by lia|].
      intros j p Hj Hp. apply lookup_app_Some in Hp as [Hp|[Hl Hp]]; [by apply H1; eapply list_elem_of_lookup_2|].
      apply (Hb (j - length l1)%nat); [lia|done].
  - rewrite (proj2 (Z.eqb_neq r1 0)) by done. right. split; [done|]. split; [done|]. exists i. split; [by apply lookup_app_l_Some|].
    intros j p Hj Hp. apply (Hb j); [done|]. rewrite lookup_app_l in Hp; [done|]. apply lookup_lt_Some in Hi. lia.
Qed.

Lemma bda_half m a : Z.lor (Z.shiftl (kb m (a + 1)) 8) (kb m a) = kh m a.
Proof.
  pose proof (kb_range m (a + 1)). pose proof (kb_range m a). unfold kh.
  rewrite Z.shiftl_mul_pow2, (lor_add_low _ _ 8) by (try lia; rewrite Z.mod_mul; lia). lia.
Qed.

Lemma mpsearch_eq m : mpsearch m = (mp ← mpsearch1 m (ebda m) 1024; if cbool mp then Some mp else mpsearch1 m 0xF0000 0x10000).
Proof.
  unfold mpsearch, ebda. pose proof (bda_half m (p2v 0x40E)) as H1. pose proof (bda_half m (p2v 0x413)) as H2.
  change (p2v 0x40E + 1) with (p2v 0x400 + 0x0F) in H1. change (p2v 0x413 + 1) with (p2v 0x400 + 0x14) in H2.
  change (p2v 0x400 + 0x0E) with (p2v 0x40E). change (p2v 0x400 + 0x13) with (p2v 0x413). rewrite H1, H2.
  rewrite Z.shiftl_mul_pow2 by lia. change (2 ^ 4) with 16. unfold cbool at 1.
  destruct (Z.eqb_spec (kh m (p2v 0x40E)) 0) as [->|Hn]; [done|]. by rewrite (proj2 (Z.eqb_neq _ _)) by lia.
Qed.

Lemma mpsearch_first m : exists r, mpsearch m = Some r /\ first_of m (places m) r.
Proof.
  rewrite mpsearch_eq. pose proof (kh_range m (p2v 0x40E)). pose proof (kh_range m (p2v 0x413)).
  assert (He : -1024 <= ebda m <= 0x4000000 - 1024) by (unfold ebda; case_match; lia).
  assert (Hp : p2v (ebda m) = KERNBASE + ebda m) by (unfold p2v; change KERNBASE with 2147483648; rewrite u32_small; lia).
  change KERNBASE with 2147483648 in Hp.
  destruct (mpsearch1_ok m (ebda m) 1024) as (r1 & -> & H1); [lia|lia|lia|].
  destruct (mpsearch1_ok m 0xF0000 0x10000) as (r2 & E2 & H2); [by vm_compute|lia|by vm_compute|].
  cbn [mbind option_bind]. exists (if cbool r1 then r1 else r2). split; [rewrite E2; by destruct (cbool r1)|].
  apply first_of_app.
  - apply (first_mp_of m (p2v (ebda m)) 64); [lia|lia|done].
  - apply (first_mp_of m (p2v 0xF0000) 4096); [by vm_compute|lia|done].
Qed.

Lemma mpsearch_none m : (forall p, p ∈ places m -> ~ mp_floating m p) -> mpsearch m = Some 0.
Proof.
  intros Hn. destruct (mpsearch_first m) as (r & -> & [[-> _]|(_ & Hm & i & Hi & _)]); [done|].
  destruct (Hn r); [by eapply list_elem_of_lookup_2|done].
Qed.

(** [mpconfig] returns the tables of the specification, and nothing if there are none. *)
Lemma mpconfig_spec m :
  (exists mp, mpconfig m = Some (0, mp) /\ forall conf mp', mp_tables m conf mp' -> conf = 0) \/
  (exists conf mp, mpconfig m = Some (conf, mp) /\ mp_tables m conf mp).
Proof.
  destruct (mpsearch_first m) as (r & E & Hr).
  assert (Huniq : forall conf mp, mp_tables m conf mp -> mp = r /\ conf = p2v (mp_physaddr m r)).
  { intros conf mp [(i & Hi & Hb) Hm [_ ->] _ _ _]. enough (mp = r) by naive_solver.
    destruct Hr as [[-> Hnone]|(_ & Hm' & i' & Hi' & Hb')]; [by destruct (Hnone mp); [eapply list_elem_of_lookup_2|]|].
    destruct (lt_eq_lt_dec i i') as [[Hlt| ->]|Hlt]; [by destruct (Hb' i mp)|congruence|by destruct (Hb i' r)]. }
  unfold mpconfig. rewrite E. cbn [mbind option_bind].
  assert (Hnone : forall Q : Prop, (forall conf mp, mp_tables m conf mp -> False) ->
    (exists mp, Some (0, r) = Some (0, mp) /\ forall conf mp', mp_tables m conf mp' -> conf = 0) \/ Q).
  { intros Q HQ. left. exists r. split; [done|]. intros conf mp' Hm. by destruct (HQ conf mp'). }
  destruct (Z.eqb_spec r 0) as [Hr0|Hr0]; cbn [orb].
  { apply Hnone. intros conf mp Hm. destruct (Huniq _ _ Hm) as [-> _]. destruct Hm as [(i & Hi & _) Hm _ _ _ _].
    destruct Hr as [[_ Hn]|[? _]]; [|done]. apply (Hn r); [by eapply list_elem_of_lookup_2|done]. }
  destruct (Z.eqb_spec (mp_physaddr m r) 0) as [Ha|Ha].
  { apply Hnone. intros conf mp Hm. destruct (Huniq _ _ Hm) as [-> _]. by destruct Hm as [_ _ [Hm _] _ _ _]. }
  set (conf := p2v (mp_physaddr m r)).
  destruct (Z.eqb_spec (mp_memcmp m conf "PCMP") 0) as [Hs|Hs]; cbn [negb].
  2: { apply Hnone. intros c mp Hm. destruct (Huniq _ _ Hm) as [-> ->]. apply Hs. apply mp_memcmp_spec; [done|]. apply Hm. }
  destruct (negb (conf_version m conf =? 1) && negb (conf_version m conf =? 4)) eqn:Ev.
  { apply Hnone. intros c mp Hm. destruct (Huniq _ _ Hm) as [-> ->]. pose proof (mt_version _ _ _ Hm) as Hv. fold conf in Hv. lia. }
  assert (Hl : 0 <= conf_length m conf < 65536) by apply kh_range.
  destruct (Z.eqb_spec (mp_sum m conf (conf_length m conf)) 0) as [Hz|Hz]; cbn [negb].
  2: { apply Hnone. intros c mp Hm. destruct (Huniq _ _ Hm) as [-> ->]. apply Hz. rewrite mp_sum_eq by done. apply Hm. }
  right. exists conf, r. split; [done|]. destruct Hr as [[? _]|(_ & Hm & Hi)]; [done|].
  split; [done|done|done|by apply mp_memcmp_spec|lia|by rewrite <- mp_sum_eq by done].
Qed.

Lemma mpconfig_tables m conf mp : mp_tables m conf mp -> conf <> 0 -> mpconfig m = Some (conf, mp).
Proof.
  intros Hm Hc. destruct (mpconfig_spec m) as [(mp' & _ & Hn)|(conf' & mp' & E & Hm')]; [by destruct Hc; eapply Hn|].
  rewrite E. enough (mp' = mp /\ conf' = conf) as [-> ->] by done.
  destruct Hm as [(i & Hi & Hb) H1 [_ ->] _ _ _], Hm' as [(i' & Hi' & Hb') H1' [_ ->] _ _ _].
  enough (mp' = mp) by naive_solver.
  destruct (lt_eq_lt_dec i i') as [[Hlt| ->]|Hlt]; [by destruct (Hb' i mp)|congruence|by destruct (Hb i' mp')].
Qed.

(** * The tables of the BIOS are below the kernel *)

Definition low_same (m m' : memory) : Prop := forall a, 0 <= a < EXTMEM -> ld8 m' a = ld8 m a.

Definition low (p : Z) : Prop := KERNBASE <= p < KERNBASE + EXTMEM.

Lemma kb_low m m' p : low_same m m' -> low p -> kb m' p = kb m p.
Proof.
  intros Hs Hp. unfold low in Hp. change KERNBASE with 2147483648 in Hp. change EXTMEM with 1048576 in Hp. unfold kb. apply Hs.
  rewrite v2p_eq by (change KERNBASE with 2147483648; lia). change KERNBASE with 2147483648. change EXTMEM with 1048576. lia.
Qed.

Lemma kh_low m m' p : low_same m m' -> low p -> low (p + 1) -> kh m' p = kh m p.
Proof. intros. unfold kh. by rewrite !(kb_low m m'). Qed.

Lemma kw_low m m' p : low_same m m' -> low p -> low (p + 3) -> kw m' p = kw m p.
Proof. intros. unfold kw. rewrite !(kh_low m m'); unfold low in *; (done || lia). Qed.

Lemma mp_sum_low m m' n : low_same m m' -> forall p acc, low p -> p + Z.of_nat n <= KERNBASE + EXTMEM ->
  mp_sum_loop m' p acc n = mp_sum_loop m p acc n.
Proof.
  intros Hs. induction n as [|n IH]; intros p acc Hp Hn; [done|]. cbn [mp_sum_loop]. rewrite (kb_low m m') by done.
  destruct n as [|n]; [done|]. apply IH; unfold low in *; lia.
Qed.

Lemma mp_memcmp_low m m' p sig : low_same m m' -> low p -> low (p + 3) -> mp_memcmp m' p sig = mp_memcmp m p sig.
Proof.
  intros Hs H0 H3. unfold mp_memcmp. cbn [memcmp]. by rewrite !(kb_low m m') by (try done; unfold low in *; lia).
Qed.

Lemma mpsearch1_loop_low m m' fuel : low_same m m' -> forall p k, (k <= fuel)%nat -> KERNBASE <= p -> p + 16 * Z.of_nat k <= KERNBASE + EXTMEM ->
  mpsearch1_loop fuel m' p (p + 16 * Z.of_nat k) = mpsearch1_loop fuel m p (p + 16 * Z.of_nat k).
Proof.
  intros Hs. induction fuel as [|fuel IH]; intros p k Hk Hp He; cbn [mpsearch1_loop]; [done|].
  destruct (Z.ltb_spec p (p + 16 * Z.of_nat k)) as [Hlt|]; cbn [negb]; [|done].
  assert (low p /\ low (p + 3)) as [H0 H3] by (unfold low; lia). unfold mp_sum. rewrite (mp_memcmp_low m m') by done.
  rewrite (mp_sum_low m m') by (done || (change (Z.to_nat sizeof_mp) with 16%nat; lia)).
  case_match; [done|]. change sizeof_mp with 16. change KERNBASE with 2147483648 in *. change EXTMEM with 1048576 in *.
  rewrite u32_small by lia. replace (p + 16 * Z.of_nat k) with ((p + 16) + 16 * Z.of_nat (k - 1)) by lia.
  apply IH; lia.
Qed.

Lemma mpsearch1_low m m' a len : low_same m m' -> 0 <= a -> 0 <= len -> len mod 16 = 0 -> a + len <= EXTMEM ->
  mpsearch1 m' a len = mpsearch1 m a len.
Proof.
  intros Hs Ha Hl Hm He. unfold mpsearch1. change EXTMEM with 1048576 in He. rewrite p2v_eq by (change KERNBASE with 2147483648; lia).
  rewrite u32_small by (change KERNBASE with 2147483648; lia). change sizeof_mp with 16.
  replace (a + KERNBASE + len) with (a + KERNBASE + 16 * Z.of_nat (Z.to_nat (len / 16))) by (Z.div_mod_to_equations; lia).
  apply mpsearch1_loop_low; [done|Z.div_mod_to_equations; lia|lia|]. change EXTMEM with 1048576. Z.div_mod_to_equations. lia.
Qed.

Lemma mpsearch_low m m' : low_same m m' -> 0 <= ebda m <= EXTMEM - 1024 -> mpsearch m' = mpsearch m.
Proof.
  intros Hs He. rewrite !mpsearch_eq. assert (ebda m' = ebda m) as ->.
  { unfold ebda. by rewrite !(kh_low m m') by (done || (vm_compute; split; congruence)). }
  rewrite !(mpsearch1_low m m') by (done || lia || (change EXTMEM with 1048576 in *; lia)). done.
Qed.

Section mp.
Context `{Hardware}.

Definition mpbcpu : Mach Z := get m_bcpu.

(** One round of the loop over the entries.  Past the end of [cpus] the code writes outside of the array. *)
Definition mp_round (p : Z) : Mach Z :=
  t ← get (fun s => kb (k_mem (m_k s)) p);
  if t =? MPPROC then
    id ← get (fun s => proc_apicid (k_mem (m_k s)) p);
    n ← get m_ncpu;
    when (negb (n =? id)) (
      kern (cprintf ("mpinit: ncpu=%d apicid=%d" +:+ nl) [CInt n; CInt id]);;
      modify (set_m_ismp 0));;
    fl ← get (fun s => proc_flags (k_mem (m_k s)) p);
    when (cbool (Z.land fl MPBOOT)) (modify (set_m_bcpu n));;
    if NCPU <=? n then kern hang else
    modify (on_apcpu n (set_c_id (u8 n)));;
    modify (set_m_ncpu (s32 (n + 1)));;
    mret (u32 (p + sizeof_mpproc))
  else if t =? MPIOAPIC then
    no ← get (fun s => ioapic_apicno (k_mem (m_k s)) p);
    modify (set_m_ioapicid no);;
    mret (u32 (p + sizeof_mpioapic))
  else if (t =? MPBUS) || (t =? MPIOINTR) || (t =? MPLINTR) then mret (u32 (p + 8))
  else
    kern (cprintf ("mpinit: unknown config type %x" +:+ nl) [CInt t]);;
    modify (set_m_ismp 0);;
    mret p.

Definition mp_loop (fuel : nat) (p e : Z) : Mach unit :=
  loop fuel (fun p => if negb (p <? e) then mret (inr tt) else p ← mp_round p; mret (inl p)) p.

(** [None] of the search, which does not happen, is a loop that does not end. *)
Definition mpinit : Mach unit :=
  modify (set_m_bcpu 0);;
  m ← get (fun s => k_mem (m_k s));
  match mpconfig m with
  | None => fun _ _ => NoFuel
  | Some (conf, mp) =>
      if conf =? 0 then mret tt else
      modify (set_m_ismp 1);;
      modify (set_m_lapic (conf_lapicaddr m conf));;
      mp_loop (S (Z.to_nat (conf_length m conf))) (u32 (conf + sizeof_mpconf)) (u32 (conf + conf_length m conf));;
      ok ← get m_ismp;
      if negb (cbool ok) then
        modify (set_m_ncpu 1);;
        modify (set_m_lapic 0);;
        modify (set_m_ioapicid 0)
      else
        m ← get (fun s => k_mem (m_k s));
        when (cbool (mp_imcrp m mp)) (
          outb 0x22 0x70;;
          v ← inb 0x23;
          outb 0x23 (Z.lor v 1))
  end.

(** * The entries of a table *)

Inductive mpentry :=
| EProc (apicid flags : Z)
| EIoApic (apicno : Z)
| EOther (type : Z).

Definition entry_size (en : mpentry) : Z := match en with EProc _ _ => sizeof_mpproc | _ => 8 end.

Definition entry_at (m : memory) (p : Z) (en : mpentry) : Prop :=
  match en with
  | EProc id fl => kb m p = MPPROC /\ proc_apicid m p = id /\ proc_flags m p = fl
  | EIoApic no => kb m p = MPIOAPIC /\ ioapic_apicno m p = no
  | EOther t => kb m p = t /\ (t = MPBUS \/ t = MPIOINTR \/ t = MPLINTR)
  end.

(** The entries from [p] on, up to [e]. *)
Fixpoint entries_at (m : memory) (p : Z) (es : list mpentry) (e : Z) : Prop :=
  match es with
  | [] => p = e
  | en :: es' => entry_at m p en /\ entries_at m (p + entry_size en) es' e
  end.

Definition the_proc (en : mpentry) : option (Z * Z) := match en with EProc id fl => Some (id, fl) | _ => None end.
Definition the_ioapic (en : mpentry) : option Z := match en with EIoApic no => Some no | _ => None end.
Definition procs (es : list mpentry) : list (Z * Z) := omap the_proc es.

(** The processors have the numbers [n], [n + 1], ... in this order. *)
Fixpoint in_order (n : Z) (l : list (Z * Z)) : bool :=
  match l with
  | [] => true
  | (id, _) :: l' => (n =? id) && in_order (n + 1) l'
  end.

(** The last processor with the boot flag, of those numbered from [n]; [b] if there is none. *)
Fixpoint boot_of (n b : Z) (l : list (Z * Z)) : Z :=
  match l with
  | [] => b
  | (_, fl) :: l' => boot_of (n + 1) (if cbool (Z.land fl MPBOOT) then n else b) l'
  end.

(** The processors [n] to [n + k - 1] have their own numbers. *)
Fixpoint numbered (n : Z) (k : nat) (cpus : list apcpu) : list apcpu :=
  match k with
  | O => cpus
  | S k' => numbered (n + 1) k' (alter (set_c_id (u8 n)) (Z.to_nat n) cpus)
  end.

(** [s'] is [s] after the entries [es]. *)
Definition scanned (es : list mpentry) (s s' : machine) : Prop :=
  exists k, cons_ready (set_k_cons k (m_k s)) /\
    s' = set_m_k (set_k_cons k (m_k s))
          (set_m_ismp (if in_order (m_ncpu s) (procs es) then m_ismp s else 0)
          (set_m_ncpu (m_ncpu s + Z.of_nat (length (procs es)))
          (set_m_bcpu (boot_of (m_ncpu s) (m_bcpu s) (procs es))
          (set_m_ioapicid (default (m_ioapicid s) (last (omap the_ioapic es)))
          (set_m_cpus (numbered (m_ncpu s) (length (procs es)) (m_cpus s)) s))))).

Lemma kern_cprintf fmt args e s : cons_ready (m_k s) ->
  exists k, kern (cprintf fmt args) e s = Done tt e (set_m_k (set_k_cons k (m_k s)) s) /\ cons_ready (set_k_cons k (m_k s)).
Proof.
  intros Hr. destruct (cprintf_ok fmt args [] (m_k s) Hr) as (k & E & Hk & Hl & _). exists k. unfold kern. rewrite E.
  split; [done|]. split; [done|]. simpl. rewrite Hl. apply Hr.
Qed.

Lemma cons_same (s : machine) : set_m_k (set_k_cons (k_cons (m_k s)) (m_k s)) s = s.
Proof. destruct s as [[] ]. done. Qed.

(** A round on an entry for a processor. *)
Lemma mp_round_proc p id fl e s :
  entry_at (k_mem (m_k s)) p (EProc id fl) -> cons_ready (m_k s) -> 0 <= m_ncpu s < NCPU -> 0 <= p -> p + sizeof_mpproc < 4294967296 ->
  exists s', mp_round p e s = Done (p + sizeof_mpproc) e s' /\ scanned [EProc id fl] s s'.
Proof.
  intros (Ht & Hid & Hfl) Hr Hn Hp Hp'. unfold mp_round, get. erewrite bind_Done by done. rewrite Ht. cbn [Z.eqb MPPROC].
  erewrite bind_Done by done. rewrite Hid. erewrite bind_Done by done.
  assert (Hw : exists k, cons_ready (set_k_cons k (m_k s)) /\
    when (negb (m_ncpu s =? id)) (kern (cprintf ("mpinit: ncpu=%d apicid=%d" +:+ nl) [CInt (m_ncpu s); CInt id]);; modify (set_m_ismp 0)) e s =
    Done tt e (set_m_ismp (if m_ncpu s =? id then m_ismp s else 0) (set_m_k (set_k_cons k (m_k s)) s))).
  { destruct (Z.eqb_spec (m_ncpu s) id) as [E|E]; cbn [negb when].
    - exists (k_cons (m_k s)). split; [by destruct (m_k s)|]. rewrite cons_same. by destruct s.
    - destruct (kern_cprintf ("mpinit: ncpu=%d apicid=%d" +:+ nl) [CInt (m_ncpu s); CInt id] e s Hr) as (k & Ek & Hk).
      exists k. split; [done|]. by rewrite (bind_Done _ _ _ _ _ _ _ Ek). }
  destruct Hw as (k & Hk & Ew). rewrite (bind_Done _ _ _ _ _ _ _ Ew). erewrite bind_Done by done.
  change (proc_flags (k_mem (m_k (set_m_ismp _ (set_m_k (set_k_cons k (m_k s)) s)))) p) with (proc_flags (k_mem (m_k s)) p). rewrite Hfl.
  rewrite (proj2 (Z.leb_gt _ _)) by lia. rewrite u32_small by (change sizeof_mpproc with 20 in *; lia).
  destruct (cbool (Z.land fl MPBOOT)) eqn:Eb; cbn [when]; (eexists; split; [reflexivity|]); exists k; (split; [done|]);
    unfold scanned, procs; simpl; rewrite andb_true_r, Eb, s32_small by (change NCPU with 8 in *; lia); by destruct s.
Qed.

(** A round on any known entry. *)
Lemma mp_round_ok en p e s :
  entry_at (k_mem (m_k s)) p en -> cons_ready (m_k s) -> 0 <= m_ncpu s -> m_ncpu s + Z.of_nat (length (procs [en])) <= NCPU ->
  0 <= p -> p + entry_size en < 4294967296 ->
  exists s', mp_round p e s = Done (p + entry_size en) e s' /\ scanned [en] s s'.
Proof.
  intros Hen Hr Hn Hn' Hp Hp'. destruct en as [id fl|no|t].
  - apply mp_round_proc; [done|done|simpl in Hn'; lia|done|done].
  - destruct Hen as (Ht & Hno). unfold mp_round, get. erewrite bind_Done by done. rewrite Ht. change (MPIOAPIC =? MPPROC) with false. change (MPIOAPIC =? MPIOAPIC) with true. cbv iota.
    erewrite bind_Done by done. rewrite Hno, u32_small by (simpl in Hp'; change sizeof_mpioapic with 8; lia).
    eexists. split; [reflexivity|]. exists (k_cons (m_k s)). split; [by destruct (m_k s)|]. destruct s as [[] ]; simpl. by rewrite Z.add_0_r.
  - destruct Hen as (Ht & Hk). unfold mp_round, get. erewrite bind_Done by done. rewrite Ht.
    assert (E : (t =? MPPROC) = false /\ (t =? MPIOAPIC) = false /\ (t =? MPBUS) || (t =? MPIOINTR) || (t =? MPLINTR) = true)
      by (destruct Hk as [->|[->| ->]]; done).
    destruct E as (-> & -> & ->). rewrite u32_small by (simpl in Hp'; lia).
    exists s. split; [done|]. exists (k_cons (m_k s)). split; [by destruct (m_k s)|]. destruct s as [[] ]; simpl. by rewrite Z.add_0_r.
Qed.

Lemma in_order_app n l1 l2 : in_order n (l1 ++ l2) = in_order n l1 && in_order (n + Z.of_nat (length l1)) l2.
Proof.
  revert n. induction l1 as [|[id fl] l1 IH]; intros n; simpl; [by rewrite Z.add_0_r|]. rewrite IH, andb_assoc. do 2 f_equal. lia.
Qed.

Lemma boot_of_app n b l1 l2 : boot_of n b (l1 ++ l2) = boot_of (n + Z.of_nat (length l1)) (boot_of n b l1) l2.
Proof.
  revert n b. induction l1 as [|[id fl] l1 IH]; intros n b; simpl; [by rewrite Z.add_0_r|]. rewrite IH. f_equal. lia.
Qed.

Lemma numbered_add n j k cpus : numbered n (j + k) cpus = numbered (n + Z.of_nat j) k (numbered n j cpus).
Proof.
  revert n cpus. induction j as [|j IH]; intros n cpus; simpl; [by rewrite Z.add_0_r|]. rewrite IH. f_equal. lia.
Qed.

Lemma default_last_app {A} (d : A) l1 l2 : default d (last (l1 ++ l2)) = default (default d (last l1)) (last l2).
Proof.
  induction l2 as [|x l2 _] using rev_ind; [by rewrite app_nil_r|]. by rewrite app_assoc, !last_snoc.
Qed.

Lemma scanned_app es1 es2 s1 s2 s3 : scanned es1 s1 s2 -> scanned es2 s2 s3 -> scanned (es1 ++ es2) s1 s3.
Proof.
  intros (k & Hk & ->) (k' & Hk' & ->). exists k'. split; [by destruct (m_k s1)|].
  unfold procs. rewrite !omap_app, length_app, in_order_app, boot_of_app, numbered_add, default_last_app.
  destruct s1 as [[] ]; unfold procs; simpl. rewrite <- Z.add_assoc, <- Nat2Z.inj_add. by destruct (in_order m_ncpu _), (in_order (m_ncpu + _) _).
Qed.

Lemma scanned_nil s : cons_ready (m_k s) -> scanned [] s s.
Proof. intros Hr. exists (k_cons (m_k s)). split; [by destruct (m_k s)|]. destruct s as [[] ]; simpl. by rewrite Z.add_0_r. Qed.

Lemma entries_end m p es q : entries_at m p es q -> p <= q /\ (8 * length es <= Z.to_nat (q - p))%nat.
Proof.
  revert p. induction es as [|en es IH]; simpl; intros p; [intros ->; lia|]. intros [_ Hes]. apply IH in Hes.
  destruct en; simpl in *; unfold sizeof_mpproc in *; lia.
Qed.

(** The loop goes over the entries [es] and on from the address after them. *)
Lemma mp_loop_ok es : forall fuel p q s e, (length es <= fuel)%nat ->
  entries_at (k_mem (m_k s)) p es q -> cons_ready (m_k s) -> 0 <= m_ncpu s -> m_ncpu s + Z.of_nat (length (procs es)) <= NCPU ->
  0 <= p -> forall last, q <= last -> last < 4294967296 ->
  exists s', mp_loop fuel p last e s = mp_loop (fuel - length es) q last e s' /\ scanned es s s'.
Proof.
  induction es as [|en es IH]; intros fuel p q s e Hfuel Hes Hr Hn Hn' Hp last Hq Hlast.
  { simpl in Hes. subst q. exists s. rewrite Nat.sub_0_r. split; [done|by apply scanned_nil]. }
  pose proof (entries_end _ _ _ _ Hes) as [Hpq Hsz]. destruct Hes as [Hen Hes]. pose proof (entries_end _ _ _ _ Hes) as [Hpq' _].
  assert (Hone : m_ncpu s + Z.of_nat (length (procs [en])) <= NCPU /\ 0 < entry_size en)
    by (destruct en; simpl in *; unfold sizeof_mpproc; lia).
  destruct (mp_round_ok en p e s) as (s1 & E & Hs1); [done|done|done|lia|done|lia|].
  destruct fuel as [|fuel]; [simpl in Hfuel; lia|].
  destruct (IH fuel (p + entry_size en) q s1 e) with (last := last) as (s2 & E2 & Hs2);
    [simpl in Hfuel; lia|..|lia|lia|lia|].
  { destruct Hs1 as (k & _ & ->). done. }
  { by destruct Hs1 as (k & Hk & ->). }
  { destruct Hs1 as (k & _ & ->). simpl. lia. }
  { destruct Hs1 as (k & _ & ->). destruct en; simpl in *; lia. }
  exists s2. split; [|exact (scanned_app [en] es _ _ _ Hs1 Hs2)]. simpl length. simpl Nat.sub. rewrite <- E2. unfold mp_loop. cbn [loop].
  rewrite (proj2 (Z.ltb_lt _ _)) by lia. cbn [negb]. rewrite (bind_Done _ _ _ _ (inl (p + entry_size en)) e s1); [done|].
  by rewrite (bind_Done _ _ _ _ _ _ _ E).
Qed.

Lemma numbered_length n k cpus : length (numbered n k cpus) = length cpus.
Proof. revert n cpus. induction k as [|k IH]; intros n cpus; simpl; [done|]. by rewrite IH, length_alter. Qed.

Lemma numbered_started n k cpus : c_started <$> numbered n k cpus = c_started <$> cpus.
Proof.
  revert n cpus. induction k as [|k IH]; intros n cpus; [done|]. cbn [numbered]. rewrite IH, (list_fmap_alter _ _ (fun x => x)) by (by apply Forall_forall).
  by apply list_alter_id.
Qed.

Lemma numbered_id n k cpus (i : nat) : 0 <= n -> n + Z.of_nat k <= NCPU -> (i < length cpus)%nat ->
  c_id <$> numbered n k cpus !! i = if (n <=? Z.of_nat i) && (Z.of_nat i <? n + Z.of_nat k) then Some (Z.of_nat i) else c_id <$> cpus !! i.
Proof.
  change NCPU with 8. revert n cpus. induction k as [|k IH]; intros n cpus Hn Hk Hi; cbn [numbered].
  { by zif. }
  rewrite IH by (rewrite ?length_alter; lia). destruct (decide (i = Z.to_nat n)) as [->|Hne].
  - rewrite list_lookup_alter_eq. destruct (lookup_lt_is_Some_2 cpus (Z.to_nat n) Hi) as [c ->]. simpl.
    rewrite Z2Nat.id by lia. unfold u8. rewrite Z.mod_small by lia. zif; done || lia.
  - rewrite list_lookup_alter_ne by done. zif; done || lia.
Qed.

(** The BIOS has left a table with the entries [es] at [conf]. *)
Record bios_table (m : memory) (conf mp : Z) (es : list mpentry) : Prop := {
  bt_ebda : 0 <= ebda m <= EXTMEM - 1024;
  bt_tables : mp_tables m conf mp;
  bt_mp : low mp /\ low (mp + 15);
  bt_low : low conf /\ low (conf + 43);
  bt_len : conf + conf_length m conf <= KERNBASE + EXTMEM;
  bt_entries : entries_at m (conf + sizeof_mpconf) es (conf + conf_length m conf)
}.

Lemma entries_low m m' es : low_same m m' -> forall p q, KERNBASE <= p -> q <= KERNBASE + EXTMEM -> entries_at m p es q -> entries_at m' p es q.
Proof.
  intros Hs. induction es as [|en es IH]; intros p q Hp Hq; cbn [entries_at]; [done|]. intros [He Hr].
  destruct (entries_end _ _ _ _ Hr) as [Hle _]. assert (Hsz : 8 <= entry_size en) by (destruct en; vm_compute; congruence).
  split; [|apply IH; [lia|done|done]]. assert (low p /\ low (p + 1) /\ low (p + 3)) as (H0 & H1 & H3) by (unfold low; lia).
  destruct en; cbn [entry_at] in *; unfold proc_apicid, proc_flags, ioapic_apicno in *; by rewrite ?(kb_low m m') by done.
Qed.

Lemma conf_length_low m m' conf : low_same m m' -> low conf -> low (conf + 43) -> conf_length m' conf = conf_length m conf.
Proof. intros Hs H0 H1. unfold conf_length. apply kh_low; unfold low in *; (done || lia). Qed.

Lemma mpconfig_low m m' conf mp es : low_same m m' -> bios_table m conf mp es -> mpconfig m' = Some (conf, mp).
Proof.
  intros Hs [He Ht [Hm Hm'] [H0 H1] Hl _].
  assert (Hc : mpconfig m = Some (conf, mp)).
  { apply mpconfig_tables; [done|]. intros ->. revert H0. unfold low. by vm_compute; intros []. }
  rewrite <- Hc. unfold mpconfig in *. rewrite (mpsearch_low m m') by done.
  destruct (mpsearch m) as [q|]; [|done]. cbn [mbind option_bind] in *.
  destruct ((q =? 0) || (mp_physaddr m q =? 0)) eqn:E0.
  { injection Hc as <- <-. exfalso. revert H0. unfold low. by vm_compute; intros []. }
  assert (q = mp /\ conf = p2v (mp_physaddr m q)) as [-> ->].
  { destruct (negb (mp_memcmp m _ _ =? 0)); [|destruct (negb _ && negb _); [|destruct (negb _)]]; injection Hc as <- <-;
      (done || (exfalso; revert H0; unfold low; by vm_compute; intros [])). }
  assert (Ep : mp_physaddr m' mp = mp_physaddr m mp) by (apply kw_low; unfold low in *; (done || lia)).
  rewrite Ep, E0. set (conf := p2v _) in *. unfold conf_version, mp_sum. rewrite (conf_length_low m m') by done.
  rewrite (mp_memcmp_low m m'), (kb_low m m') by (done || (unfold low in *; lia)).
  assert (0 <= conf_length m conf).
  { unfold conf_length, kh, kb. pose proof (ld8_range m (v2p (conf + 4))). pose proof (ld8_range m (v2p (conf + 4 + 1))). lia. }
  rewrite (mp_sum_low m m') by (done || lia). done.
Qed.

(** What [mpinit] finds in a table with the entries [es], and what it leaves alone. *)
Definition mp_found (m : memory) (conf : Z) (es : list mpentry) (s s' : machine) : Prop :=
  let n := length (procs es) in
  if in_order 0 (procs es) then
    m_ismp s' = 1 /\ m_ncpu s' = Z.of_nat n /\ m_lapic s' = conf_lapicaddr m conf /\ m_bcpu s' = boot_of 0 0 (procs es) /\
    m_ioapicid s' = default (m_ioapicid s) (last (omap the_ioapic es)) /\
    forall i, (i < n)%nat -> c_id <$> m_cpus s' !! i = Some (Z.of_nat i)
  else m_ismp s' = 0 /\ m_ncpu s' = 1 /\ m_lapic s' = 0 /\ m_ioapicid s' = 0.

(** The switch to the APIC, on the machines that have it. *)
Definition imcr_io (l : list io) : Prop := l = [] \/ exists v, l = [Out8 0x22 0x70; In8 0x23; Out8 0x23 v].

Definition mp_kept (s s' : machine) : Prop :=
  (exists l, m_io s' = m_io s ++ l /\ imcr_io l) /\ m_irqmask s' = m_irqmask s /\ m_ioapic s' = m_ioapic s /\
  m_idt s' = m_idt s /\ c_started <$> m_cpus s' = c_started <$> m_cpus s.

Lemma mpinit_ok e s conf mp es :
  let m := k_mem (m_k s) in
  mpconfig m = Some (conf, mp) -> 0 < conf -> conf + conf_length m conf < 4294967296 ->
  entries_at m (conf + sizeof_mpconf) es (conf + conf_length m conf) -> Z.of_nat (length (procs es)) <= NCPU ->
  m_ncpu s = 0 -> length (m_cpus s) = Z.to_nat NCPU -> cons_ready (m_k s) ->
  exists s' k, mpinit e s = Done tt e s' /\ m_k s' = set_k_cons k (m_k s) /\ cons_ready (m_k s') /\ mp_found m conf es s s' /\ mp_kept s s'.
Proof.
  intros m Hconf H0 Hlen Hes Hn Hncpu Hcpus Hr. unfold mpinit. erewrite bind_Done by done. erewrite bind_Done by done.
  change (k_mem (m_k (set_m_bcpu 0 s))) with m. rewrite Hconf. rewrite (proj2 (Z.eqb_neq conf 0)) by lia.
  erewrite bind_Done by done. erewrite bind_Done by done. set (s1 := set_m_lapic _ _). destruct (entries_end _ _ _ _ Hes) as [Hle Hsz].
  change sizeof_mpconf with 44 in *. rewrite !u32_small by lia.
  destruct (mp_loop_ok es (S (Z.to_nat (conf_length m conf))) (conf + 44) (conf + conf_length m conf) s1 e) with (last := conf + conf_length m conf)
    as (s2 & E & k & Hk & Es); [lia|exact Hes|exact Hr|simpl; lia|simpl; rewrite Hncpu; lia|lia|lia|lia|].
  assert (Eend : mp_loop (S (Z.to_nat (conf_length m conf)) - length es) (conf + conf_length m conf) (conf + conf_length m conf) e s2 = Done tt e s2).
  { assert (E1 : exists f, (S (Z.to_nat (conf_length m conf)) - length es = S f)%nat) by (exists (Z.to_nat (conf_length m conf) - length es)%nat; lia).
    destruct E1 as [f ->]. unfold mp_loop. cbn [loop]. by rewrite Z.ltb_irrefl. }
  rewrite Eend in E. rewrite (bind_Done _ _ _ _ _ _ _ E). erewrite bind_Done by done.
  assert (Hismp : m_ismp s2 = if in_order 0 (procs es) then 1 else 0) by (rewrite Es; simpl; by rewrite Hncpu). rewrite Hismp.
  destruct (in_order 0 (procs es)) eqn:Eo; cbn [cbool Z.eqb negb].
  - erewrite bind_Done by done. destruct (cbool (mp_imcrp _ mp)); eexists _, k; (split; [reflexivity|]); rewrite Es; unfold mp_found, mp_kept; simpl; rewrite Hncpu, Eo;
      (split; [done|]); (split; [done|]); split;
      [split_and!; [done|done|done|done|done|]; intros i Hi; rewrite numbered_id by lia; by zif; try lia
      |split_and!; [|done|done|done|apply numbered_started]
      |split_and!; [done|done|done|done|done|]; intros i Hi; rewrite numbered_id by lia; by zif; try lia
      |split_and!; [|done|done|done|apply numbered_started]].
    + eexists [_; _; _]. split; [by rewrite <- !app_assoc|]. right. by eexists.
    + exists []. split; [by rewrite app_nil_r|by left].
  - eexists _, k. split; [reflexivity|]. rewrite Es. split; [done|]. split; [done|]. unfold mp_found, mp_kept. simpl. rewrite Hncpu, Eo.
    split; [done|]. split_and!; [|done|done|done|apply numbered_started]. exists []. split; [by rewrite app_nil_r|by left].
Qed.


(** C35: an entry of a type that [mpinit] does not know is where it stays for ever: it reports the type again and
    again, because it does not go on to the next entry. *)
Theorem mpinit_unknown_type e s p es p' last :
  let m := k_mem (m_k s) in
  entries_at m p es p' -> MPLINTR < kb m p' -> 0 <= p -> p' < last < 4294967296 ->
  0 <= m_ncpu s -> m_ncpu s + Z.of_nat (length (procs es)) <= NCPU -> cons_ready (m_k s) ->
  forall fuel, mp_loop fuel p last e s = NoFuel.
Proof.
  intros m Hes Hty Hp Hlast Hn Hn' Hr fuel.
  assert (Hstuck : forall fuel s2, k_mem (m_k s2) = m -> cons_ready (m_k s2) -> mp_loop fuel p' last e s2 = NoFuel).
  { clear fuel. induction fuel as [|fuel IH]; intros s2 Hm Hr2; [done|]. unfold mp_loop. cbn [loop]. rewrite (proj2 (Z.ltb_lt _ _)) by lia. cbn [negb].
    destruct (kern_cprintf ("mpinit: unknown config type %x" +:+ nl) [CInt (kb m p')] e s2 Hr2) as (k & Ek & Hk).
    rewrite (bind_Done _ _ _ _ (inl p') e (set_m_ismp 0 (set_m_k (set_k_cons k (m_k s2)) s2))); [by apply (IH (set_m_ismp 0 (set_m_k (set_k_cons k (m_k s2)) s2)))|].
    unfold mp_round, get. rewrite (bind_Done _ _ _ _ p' e (set_m_ismp 0 (set_m_k (set_k_cons k (m_k s2)) s2))); [done|].
    erewrite bind_Done by done. rewrite Hm. change MPLINTR with 4 in *. change MPPROC with 0. change MPIOAPIC with 2. change MPBUS with 1. change MPIOINTR with 3.
    repeat rewrite (proj2 (Z.eqb_neq (kb m p') _)) by lia. cbn [orb]. by rewrite (bind_Done _ _ _ _ _ _ _ Ek). }
  destruct (mp_loop_ok es (length es + fuel) p p' s e) with (last := last) as (s' & E & k & Hk & ->); [lia|done..|lia|lia|].
  rewrite Hstuck in E by done. destruct (mp_loop fuel p last e s) eqn:El; [..|done]; exfalso;
    (pose proof (loop_mono fuel (length es) _ _ _ _ _ El ltac:(done)) as Hm'; rewrite Nat.add_comm in Hm'; unfold mp_loop in E; congruence).
Qed.

End mp.

(** * Witnesses *)

(** Two processors, a bus and an I/O APIC, in the first kilobyte of the extended BIOS data area. *)
Definition mpw_table : list Z :=
  [95; 77; 80; 95; 16; 252; 9; 0; 1; 4; 139; 0; 0; 0; 0; 0; 80; 67; 77; 80; 100; 0; 4; 132] ++ replicate 26 0 ++ [4; 0; 0; 0; 224; 254] ++ replicate 6 0 ++ [20; 3] ++ replicate 17 0 ++ [1; 20; 1] ++ replicate 16 0 ++ [1] ++ replicate 7 0 ++ [2; 2; 17; 1; 0; 0; 192; 254].

Definition mpw_mem (table : list Z) : memory := write_bytes (write_bytes (fun _ => 0) 0x40E [0xC0; 0x9F]) 0x9FC00 table.

Definition mpw_machine (table : list Z) : machine :=
  mkMachine (set_k_mem (mpw_mem table) boot_state) [] irqmask0 0 0 0 0 0 0 0 (replicate 8 (mkApcpu 0 [] 0)) 0 [] false.

Definition mpw_hardware : Hardware := {| answer := fun _ _ => 0; patience := 0 |}.

Lemma mpw_cons table : cons_ready (m_k (mpw_machine table)).
Proof. split; [|done]. vm_compute. intuition congruence. Qed.

Lemma mpw_tables : mp_tables (mpw_mem mpw_table) 0x8009FC10 0x8009FC00.
Proof.
  split.
  - exists 0%nat. split; [by vm_compute|]. intros j p Hj. lia.
  - split; by vm_compute.
  - split; [by vm_compute|by vm_compute].
  - by vm_compute.
  - right. by vm_compute.
  - by vm_compute.
Qed.


(** A processor, then an entry of type 9. *)
Definition mpw_unknown : list Z :=
  [95; 77; 80; 95; 16; 252; 9; 0; 1; 4; 139; 0; 0; 0; 0; 0; 80; 67; 77; 80; 72; 0; 4; 132] ++ replicate 26 0 ++ [2; 0; 0; 0; 224; 254] ++ replicate 6 0 ++ [20; 3] ++ replicate 16 0 ++ [9] ++ replicate 7 0.

Lemma mpinit_unknown_type_witness :
  mp_loop 100 (0x8009FC10 + 44) (0x8009FC10 + 72) [] (mpw_machine mpw_unknown) = NoFuel.
Proof.
  apply (mpinit_unknown_type [] (mpw_machine mpw_unknown) (0x8009FC10 + 44) [EProc 0 3] (0x8009FC10 + 64)).
  - vm_compute. intuition congruence.
  - vm_compute. reflexivity.
  - lia.
  - lia.
  - simpl. lia.
  - vm_compute. discriminate.
  - exact (mpw_cons mpw_unknown).
Defined.
