(* ===== verification/Main.v ===== *)
(** main.c: the order in which the kernel is brought up, and the start of the other processors. *)

From S2P Require Import Prelude Params Mem State Spinlock Console Kalloc Vm VmTables VmSpace VmAlloc VmCopy Proc ProcSpec.
From S2P Require Import Ide Bio BioProps Log Umem Fs FsDir ConsoleIn Pipe Syscall Exec Trap Init Machine Mp.

(** The addresses that the linker gives to the [cpu] variables of the processors, to [mpenter] and to [entrypgdir], the return
    address of the calls of [cpunum], and the code of entryother.S. *)
Class Startup := {
  sym_kcpu : Z -> Z;
  sym_mpenter : Z;
  sym_entrypgdir : Z;
  sym_pc : Z;
  sym_entryother : list Z
}.

(** Boot page table used in entry.S and entryother.S. *)
Definition entrypgdir : list Z :=
  let e := Z.lor (Z.lor (Z.lor 0 PTE_P) PTE_W) PTE_PS in
  <[Z.to_nat (Z.shiftr KERNBASE PDXSHIFT) := e]> (<[0%nat := e]> (replicate (Z.to_nat NPDENTRIES) 0)).

Section main.
Context `{Symbols} `{Driver} `{DevSw} `{Hardware} `{Startup}.

(** [cpu->id] *)
Definition this_id : Mach Z := get (fun s => default 0 (c_id <$> m_cpus s !! Z.to_nat (m_cpu s))).

(** Common CPU setup code; it ends with the call of [scheduler], which does not return. *)
Definition mpmain : Mach unit :=
  id ← this_id;
  kern (cprintf ("cpu%d: starting" +:+ nl) [CInt id]);;
  idtinit;;
  modify (fun s => on_apcpu (m_cpu s) (set_c_started 1) s).

(** Other CPUs jump here from entryother.S. *)
Definition mpenter : Mach unit :=
  kern switchkvm;;
  seginit sym_pc sym_kcpu;;
  lapicinit;;
  mpmain.

(** Start the non-boot (AP) processors; while it waits for one, the others run. *)
Definition startothers : Mach unit :=
  let code := p2v 0x7000 in
  kern (kcopyin code sym_entryother);;
  n ← get m_ncpu;
  for_each (seqZ 0 n) (fun c =>
    me ← cpunum sym_pc;
    if c =? me then mret (None : option unit) else
    stack ← kern kalloc;
    kern (kwrite32 (code - 4) (stack + KSTACKSIZE));;
    kern (kwrite32 (code - 8) sym_mpenter);;
    kern (kwrite32 (code - 12) (v2p sym_entrypgdir));;
    id ← get (fun s => default 0 (c_id <$> m_cpus s !! Z.to_nat c));
    lapicstartap id (v2p code);;
    loop_env (fun _ : unit =>
      st ← get (fun s => default 0 (c_started <$> m_cpus s !! Z.to_nat c));
      if st =? 0 then others;; mret (inl tt) else mret (inr tt)) tt;;
    mret None);;
  mret tt.

(** Bootstrap processor starts running C code here. *)
Definition main : Mach unit :=
  kern (kinit1 sym_end (p2v (4 * 1024 * 1024)));;
  kern kvmalloc;;
  mpinit;;
  lapicinit;;
  seginit sym_pc sym_kcpu;;
  id ← this_id;
  kern (cprintf (nl +:+ "cpu%d: starting xv6" +:+ nl +:+ nl) [CInt id]);;
  picinit;;
  ioapicinit;;
  boot_consoleinit;;
  uartinit;;
  kern pinit;;
  tvinit;;
  kern binit;;
  kern fileinit;;
  boot_ideinit;;
  mp ← get m_ismp;
  when (negb (cbool mp)) timerinit;;
  startothers;;
  kern (kinit2 (p2v (4 * 1024 * 1024)) (p2v PHYSTOP));;
  kern userinit;;
  mpmain.

End main.
