(* ===== verification/MainSpec.v ===== *)
(** The setup of the devices, one function after the other: what each of them tells the interrupt controllers, and what
    it leaves alone.

    The trace of a run is read as the devices read it: [last_out] is the byte last written to a port, which for the data ports of the
    8259A is the mask of the interrupts, and [ioapic_reg] is the contents of a register of the I/O APIC. *)

From S2P Require Import Prelude Params Mem State Spinlock Console Kalloc Vm VmTables VmSpace VmAlloc VmCopy Proc ProcSpec.
From S2P Require Import Ide Bio BioProps Log Umem Fs FsDir ConsoleIn Pipe Syscall Exec Trap Init Machine Mp Main.

(** * Reading the trace *)

Definition out_step (p : Z) (acc : option Z) (x : io) : option Z :=
  match x with Out8 q v => if q =? p then Some v else acc | _ => acc end.
Definition last_out (p : Z) (h : list io) : option Z := fold_left (out_step p) h None.

(** The I/O APIC: the selected register and what was written to each. *)
Definition ioapic_step (st : Z * (Z -> option Z)) (x : io) : Z * (Z -> option Z) :=
  match x with
  | St32 a v =>
      if a =? IOAPIC then (v, st.2)
      else if a =? IOAPIC + 16 then (st.1, fun r => if r =? st.1 then Some v else st.2 r)
      else st
  | _ => st
  end.
Definition ioapic_run (h : list io) : Z * (Z -> option Z) := fold_left ioapic_step h (0, fun _ => None).
Definition ioapic_reg (h : list io) (r : Z) : option Z := (ioapic_run h).2 r.

(** A step that neither the masks nor the I/O APIC notice. *)
Definition quiet_io (x : io) : Prop :=
  match x with
  | Out8 p _ => p <> IO_PIC1 + 1 /\ p <> IO_PIC2 + 1
  | St32 a _ => a <> IOAPIC /\ a <> IOAPIC + 16
  | _ => True
  end.

Lemma last_out_snoc p h x : last_out p (h ++ [x]) = out_step p (last_out p h) x.
Proof. unfold last_out. by rewrite fold_left_app. Qed.

Lemma ioapic_run_snoc h x : ioapic_run (h ++ [x]) = ioapic_step (ioapic_run h) x.
Proof. unfold ioapic_run. by rewrite fold_left_app. Qed.

Lemma quiet_run h l : Forall quiet_io l ->
  last_out (IO_PIC1 + 1) (h ++ l) = last_out (IO_PIC1 + 1) h /\ last_out (IO_PIC2 + 1) (h ++ l) = last_out (IO_PIC2 + 1) h /\
  ioapic_run (h ++ l) = ioapic_run h.
Proof.
  induction l as [|x l IH] using rev_ind; intros Hq; [by rewrite app_nil_r|].
  apply Forall_app in Hq as [Hl Hx]. rewrite Forall_singleton in Hx. destruct (IH Hl) as (E1 & E2 & E3).
  rewrite app_assoc, !last_out_snoc, ioapic_run_snoc, E1, E2, E3. destruct x as [p v|p|a v|a]; [|done| |done]; simpl in *.
  - rewrite !(proj2 (Z.eqb_neq p _)) by apply Hx. done.
  - rewrite (proj2 (Z.eqb_neq a IOAPIC)), (proj2 (Z.eqb_neq a (IOAPIC + 16))) by apply Hx. done.
Qed.

(** The kernel programmed the mask [mask] and the registers [tbl]. *)
Definition irqs (mask : Z) (tbl : Z -> option Z) (s : machine) : Prop :=
  m_irqmask s = mask /\ last_out (IO_PIC1 + 1) (m_io s) = Some (u8 mask) /\ last_out (IO_PIC2 + 1) (m_io s) = Some (u8 (Z.shiftr mask 8)) /\
  forall r, ioapic_reg (m_io s) r = tbl r.

Lemma irqs_quiet mask tbl s s' l : irqs mask tbl s -> m_irqmask s' = m_irqmask s -> m_io s' = m_io s ++ l -> Forall quiet_io l -> irqs mask tbl s'.
Proof.
  intros (H1 & H2 & H3 & H4) E1 E2 Hq. destruct (quiet_run (m_io s) l Hq) as (Q1 & Q2 & Q3).
  unfold irqs, ioapic_reg in *. rewrite E1, E2, Q1, Q2, Q3. done.
Qed.

(** * Programs that only talk to the devices *)

Definition sends (m : Mach unit) (s : machine) (l : list io) : Prop := forall e, m e s = Done tt e (set_m_io (m_io s ++ l) s).

Lemma set_m_io_same s : set_m_io (m_io s) s = s.
Proof. by destruct s. Qed.

Lemma outb_seq {A} p v (m : Mach A) h e s : (outb p v;; m) e (set_m_io h s) = m e (set_m_io (h ++ [Out8 p (u8 v)]) s).
Proof. done. Qed.

(** The program returns after a conversation whose steps all have [P]. *)
Definition talks (P : io -> Prop) (m : Mach unit) (s : machine) : Prop := exists l, sends m s l /\ Forall P l.

Lemma talks_seq P m1 m2 s : talks P m1 s -> (forall h, talks P m2 (set_m_io h s)) -> talks P (m1;; m2) s.
Proof.
  intros (l1 & H1 & F1) H2. destruct (H2 (m_io s ++ l1)) as (l2 & H2' & F2). exists (l1 ++ l2). split; [|by apply Forall_app].
  intros e. rewrite (bind_Done _ _ _ _ _ _ _ (H1 e)), H2'. simpl. by rewrite app_assoc.
Qed.

Lemma talks_tell (P : io -> Prop) x s : P x -> talks P (tell x) s.
Proof. intros Hx. exists [x]. split; [done|by constructor]. Qed.

Lemma talks_outb (P : io -> Prop) p v s : P (Out8 p (u8 v)) -> talks P (outb p v) s.
Proof. apply talks_tell. Qed.

Lemma talks_ret P s : talks P (mret tt) s.
Proof. exists []. split; [|done]. intros e. rewrite app_nil_r. by destruct s. Qed.

Lemma talks_when P (b : bool) m s : talks P m s -> talks P (when b m) s.
Proof. destruct b; intros Hm; [done|apply talks_ret]. Qed.

Lemma talks_get P {A} (f : machine -> A) m s : talks P (m (f s)) s -> talks P (get f ≫= m) s.
Proof. done. Qed.

Lemma talks_ask `{Hardware} (P : io -> Prop) x m s : P x -> (forall v h, talks P (m v) (set_m_io h s)) -> talks P (ask x ≫= m) s.
Proof.
  intros Hx Hm. destruct (Hm (answer (m_io s) x) (m_io s ++ [x])) as (l & Hl & Fl). exists (x :: l). split; [|by constructor].
  intros e. unfold ask. erewrite bind_Done by done. rewrite Hl. simpl. by rewrite <- app_assoc.
Qed.

Lemma talks_inb `{Hardware} (P : io -> Prop) p m s : P (In8 p) -> (forall v h, talks P (m v) (set_m_io h s)) -> talks P (inb p ≫= m) s.
Proof. intros Hp Hm. apply (talks_ask P (In8 p) (fun v => m (u8 v))); [done|]. intros v h. apply Hm. Qed.

Section poll.
Context `{Hardware}.

(** A device that is asked again and again gives an answer with [P] in time. *)
Definition settles (x : io) (P : Z -> bool) : Prop :=
  forall h, exists n, (n < patience)%nat /\ P (answer (h ++ replicate n x) x) = true.

Lemma poll_ok (cond : Mach bool) x (P : Z -> bool) s :
  settles x P -> (forall h e, cond e (set_m_io h s) = Done (negb (P (answer h x))) e (set_m_io (h ++ [x]) s)) ->
  talks (fun y => y = x) (poll cond) s.
Proof.
  intros Hset Hcond. unfold poll. destruct (Hset (m_io s)) as (n & Hn & HP). revert Hn HP.
  assert (Hgen : forall fuel n h, (n < fuel)%nat -> P (answer (h ++ replicate n x) x) = true ->
    exists l, Forall (fun y => y = x) l /\ forall e, loop fuel (fun _ : unit => b ← cond; if (b : bool) then mret (inl tt) else mret (inr tt)) tt e (set_m_io h s) =
      Done tt e (set_m_io (h ++ l) s)).
  2: { intros Hn HP. destruct (Hgen patience n (m_io s) Hn HP) as (l & Hl & E). exists l. split; [|done].
       intros e. specialize (E e). by destruct s. }
  induction fuel as [|fuel IH]; intros k h Hk HP; [lia|]. destruct (P (answer h x)) eqn:E.
  - exists [x]. split; [by constructor|]. intros e. cbn [loop]. rewrite (bind_Done _ _ _ _ (inr tt) e (set_m_io (h ++ [x]) s)); [done|].
    by rewrite (bind_Done _ _ _ _ _ _ _ (Hcond h e)), E.
  - destruct k as [|k]; [simpl in HP; rewrite app_nil_r, E in HP; done|].
    destruct (IH k (h ++ [x])) as (l & Hl & El); [lia|by rewrite <- app_assoc|].
    exists (x :: l). split; [by constructor|]. intros e. cbn [loop]. rewrite (bind_Done _ _ _ _ (inl tt) e (set_m_io (h ++ [x]) s)).
    + rewrite El. by rewrite <- app_assoc.
    + by rewrite (bind_Done _ _ _ _ _ _ _ (Hcond h e)), E.
Qed.

End poll.

(** * What the setup of the devices leaves alone *)

(** The buffers are as they were loaded, and they are linked. *)
Definition fresh_bufs (k : kernel) : Prop := length (k_bcache k) = S head /\ forall b, bflags (buf_of b k) = 0.
Definition built_bufs (k : kernel) : Prop := exists l, building (k_bcache k) l /\ l ≡ₚ seq 0 head.

(** What nothing before [userinit] undoes. *)
Record base (k k' : kernel) : Prop := {
  kp_ptable : k_ptable k' = k_ptable k;
  kp_nextpid : k_nextpid k' = k_nextpid k;
  kp_icache : k_icache k' = k_icache k;
  kp_disk : k_disk k' = k_disk k;
  kp_ncli : ncli (k_cpu k') = ncli (k_cpu k);
  kp_ifl : ifl (k_cpu k') = ifl (k_cpu k);
  kp_intena : intena (k_cpu k') = intena (k_cpu k);
  kp_locks : forall lk, unlocked lk k -> unlocked lk k';
  kp_uart : uart (k_cons k) <> 0 -> uart (k_cons k') <> 0;
  kp_cons : irq_ok k -> cons_ready k -> cons_ready k';
  kp_fresh : fresh_bufs k -> fresh_bufs k';
  kp_built : built_bufs k -> built_bufs k'
}.

(** The setup of a device also leaves memory and the allocator alone. *)
Record kept (k k' : kernel) : Prop := {
  kp_base : base k k';
  kp_mem : k_mem k' = k_mem k;
  kp_kmem : k_kmem k' = k_kmem k;
  kp_cnt : k_free_frame_cnt k' = k_free_frame_cnt k;
  kp_kpgdir : k_kpgdir k' = k_kpgdir k
}.

Lemma base_refl k : base k k.
Proof. by split. Qed.

Lemma kept_refl k : kept k k.
Proof. split; [apply base_refl|done..]. Qed.

Lemma base_irq k k' : base k k' -> irq_ok k -> irq_ok k'.
Proof. intros Hk. unfold irq_ok. by rewrite (kp_ncli _ _ Hk), (kp_ifl _ _ Hk), (kp_intena _ _ Hk). Qed.

Lemma base_trans k1 k2 k3 : base k1 k2 -> base k2 k3 -> base k1 k3.
Proof. intros A B. pose proof (base_irq k1 k2 A). destruct A, B. split; try congruence; auto. Qed.

Lemma kept_trans k1 k2 k3 : kept k1 k2 -> kept k2 k3 -> kept k1 k3.
Proof. intros [] []. split; [by eapply base_trans|congruence..]. Qed.

Lemma base_ready lk k k' : base k k' -> ready lk k -> ready lk k'.
Proof. intros Hb [Hi Hu]. split; [by eapply base_irq|by apply (kp_locks _ _ Hb)]. Qed.

Lemma kept_cons k c : (uart (k_cons k) <> 0 -> uart c <> 0) -> (irq_ok k -> cons_ready k -> cons_ready (set_k_cons c k)) -> kept k (set_k_cons c k).
Proof. intros Hu Hc. split; [by split|done..]. Qed.

(** The setup of the devices changes nothing that the setup of the processors has found out. *)
Record soft (s s' : machine) : Prop := {
  so_k : kept (m_k s) (m_k s');
  so_lapic : m_lapic s' = m_lapic s;
  so_ismp : m_ismp s' = m_ismp s;
  so_ncpu : m_ncpu s' = m_ncpu s;
  so_cpus : m_cpus s' = m_cpus s;
  so_cpu : m_cpu s' = m_cpu s;
  so_idt : m_idt s' = m_idt s
}.

Lemma soft_refl s : soft s s.
Proof. split; [apply kept_refl|done..]. Qed.

Lemma soft_trans s1 s2 s3 : soft s1 s2 -> soft s2 s3 -> soft s1 s3.
Proof. intros [] []. split; [by eapply kept_trans|congruence..]. Qed.

Lemma soft_dev mask a h s : soft s (set_m_irqmask mask (set_m_ioapic a (set_m_io h s))).
Proof. split; [apply kept_refl|done..]. Qed.

Lemma soft_io h s : soft s (set_m_io h s).
Proof. split; [apply kept_refl|done..]. Qed.

Lemma soft_k k s : kept (m_k s) k -> soft s (set_m_k k s).
Proof. intros Hk. by split. Qed.

(** * The local APIC *)

Section lapic.
Context `{Hardware}.

Definition lapic_io (L : Z) (x : io) : Prop := match x with St32 a _ => L <= a < L + 0x400 | Ld32 _ => True | _ => False end.

Lemma talks_lapicw L i v s : m_lapic s = L -> 0 <= i < 256 -> talks (lapic_io L) (lapicw i v) s.
Proof.
  intros HL Hi. unfold lapicw. apply talks_get. rewrite HL. apply talks_seq; [apply talks_tell; simpl; lia|]. intros h.
  unfold lapic_get. apply (talks_ask _ _ (fun _ => mret tt)); [done|]. intros v' h'. apply talks_ret.
Qed.

Lemma talks_mono (P Q : io -> Prop) m s : (forall x, P x -> Q x) -> talks P m s -> talks Q m s.
Proof. intros HPQ (l & Hl & Fl). exists l. split; [done|]. eapply Forall_impl; [exact Fl|done]. Qed.

Lemma talks_lapic_get (P : io -> Prop) i m s : P (Ld32 (m_lapic s + 4 * i)) -> (forall v h, talks P (m v) (set_m_io h s)) -> talks P (lapic_get i ≫= m) s.
Proof. apply talks_ask. Qed.

Ltac lapic_write := apply talks_seq; [apply talks_lapicw; [done|vm_compute; split; congruence]|]; intros ?.

Lemma lapicinit_ok s : m_lapic s = 0 \/ settles (Ld32 (m_lapic s + 4 * Lapic.ICRLO)) (fun v => negb (cbool (Z.land v Lapic.DELIVS))) ->
  talks (lapic_io (m_lapic s)) lapicinit s.
Proof.
  intros Hs. unfold lapicinit. apply talks_get. destruct (cbool (m_lapic s)) eqn:E; cbn [negb]; [|apply talks_ret].
  destruct Hs as [Hs|Hs]; [by rewrite Hs in E|]. do 6 lapic_write. apply talks_lapic_get; [done|]. intros v h'. apply talks_seq; [apply talks_when, talks_lapicw; [done|vm_compute; split; congruence]|]. intros ?. do 6 lapic_write.
  apply talks_seq; [|intros ?; apply talks_lapicw; [done|vm_compute; split; congruence]].
  eapply talks_mono; [|eapply poll_ok; [exact Hs|]].
  - by intros x ->.
  - intros hh e. unfold lapic_get. by rewrite negb_involutive.
Qed.

End lapic.

(** * The interrupt controllers *)

Section controllers.
Context `{Hardware}.

Definition irq_ctl (mask : Z) (tbl : Z -> option Z) (s : machine) : Prop :=
  irqs mask tbl s /\ (m_ismp s <> 0 -> m_ioapic s = IOAPIC).

(** What enabling an interrupt does to the mask and to the table. *)
Definition mask_on (irq mask : Z) : Z := u16 (Z.land mask (Z.lnot (Z.shiftl 1 irq))).
Definition ioapic_on (irq cpu : Z) (tbl : Z -> option Z) : Z -> option Z := fun r =>
  if r =? REG_TABLE + 2 * irq + 1 then Some (u32 (Z.shiftl cpu 24))
  else if r =? REG_TABLE + 2 * irq then Some (u32 (T_IRQ0 + irq)) else tbl r.

Lemma picsetmask_ok tbl mask e s : (forall r, ioapic_reg (m_io s) r = tbl r) -> 0 <= mask < 65536 ->
  exists s', picsetmask mask e s = Done tt e s' /\ soft s s' /\ irqs mask tbl s' /\ m_ioapic s' = m_ioapic s.
Proof.
  intros Ht Hm. eexists. split; [reflexivity|]. split; [apply (soft_dev mask (m_ioapic s))|]. split; [|done].
  split; [done|]. simpl. rewrite !last_out_snoc. unfold ioapic_reg. rewrite !ioapic_run_snoc. simpl. split_and!; [done|done|apply Ht].
Qed.

Lemma picenable_ok mask tbl irq e s : irq_ctl mask tbl s ->
  exists s', picenable irq e s = Done tt e s' /\ soft s s' /\ irq_ctl (mask_on irq mask) tbl s'.
Proof.
  intros [(Hm & _ & _ & Ht) Hio]. unfold picenable. erewrite bind_Done by done. rewrite Hm.
  destruct (picsetmask_ok tbl (mask_on irq mask) e s Ht) as (s' & E & S' & I' & Eio); [unfold mask_on, u16; apply Z.mod_pos_bound; lia|].
  exists s'. split; [exact E|]. split; [done|]. split; [done|]. rewrite Eio, (so_ismp _ _ S'). exact Hio.
Qed.

Lemma ioapicwrite_ok r v e s : m_ioapic s = IOAPIC ->
  ioapicwrite r v e s = Done tt e (set_m_io (m_io s ++ [St32 IOAPIC (u32 r); St32 (IOAPIC + 16) (u32 v)]) s).
Proof. intros Hi. unfold ioapicwrite, tell. erewrite bind_Done by done. rewrite Hi.
  change [?a; ?b] with ([a] ++ [b]). by rewrite app_assoc. Qed.

Lemma ioapic_reg_write h r v r' : 0 <= r < 4294967296 ->
  ioapic_reg (h ++ [St32 IOAPIC (u32 r); St32 (IOAPIC + 16) (u32 v)]) r' = if r' =? r then Some (u32 v) else ioapic_reg h r'.
Proof.
  intros Hr. unfold ioapic_reg. change [?a; ?b] with ([a] ++ [b]). rewrite app_assoc, !ioapic_run_snoc. simpl. by rewrite u32_small.
Qed.

Lemma irqs_write mask tbl r v s : irqs mask tbl s -> 0 <= r < 4294967296 ->
  irqs mask (fun r' => if r' =? r then Some (u32 v) else tbl r') (set_m_io (m_io s ++ [St32 IOAPIC (u32 r); St32 (IOAPIC + 16) (u32 v)]) s).
Proof.
  intros (H1 & H2 & H3 & H4) Hr. split; [done|]. simpl. change [?a; ?b] with ([a] ++ [b]). rewrite app_assoc, !last_out_snoc. simpl.
  split_and!; [done|done|]. intros r'. rewrite <- app_assoc. simpl. rewrite ioapic_reg_write by done. by rewrite H4.
Qed.

Lemma ioapicenable_ok mask tbl irq cpu e s : irq_ctl mask tbl s -> 0 <= irq < 256 ->
  exists s', ioapicenable irq cpu e s = Done tt e s' /\ soft s s' /\
    irq_ctl mask (if cbool (m_ismp s) then ioapic_on irq cpu tbl else tbl) s'.
Proof.
  intros [Hi Hio] Hirq. unfold ioapicenable. erewrite bind_Done by done. destruct (cbool (m_ismp s)) eqn:E; cbn [negb].
  - assert (Hia : m_ioapic s = IOAPIC) by (apply Hio; unfold cbool in E; lia).
    rewrite (bind_Done _ _ _ _ _ _ _ (ioapicwrite_ok _ _ e s Hia)). rewrite ioapicwrite_ok by done.
    eexists. split; [reflexivity|]. split; [eapply soft_trans; apply soft_io|]. split; [|done].
    change REG_TABLE with 16 in *. pose proof (irqs_write _ _ (16 + 2 * irq) (T_IRQ0 + irq) _ Hi ltac:(lia)) as H1.
    pose proof (irqs_write _ _ (16 + 2 * irq + 1) (Z.shiftl cpu 24) _ H1 ltac:(lia)) as H2. exact H2.
  - eexists. split; [reflexivity|]. split; [apply soft_refl|]. split; done.
Qed.

(** Both at once, as the drivers do. *)
Lemma enable_ok {A} mask tbl irq cpu (m : Mach A) (Q : A -> env machine -> machine -> Prop) e s :
  irq_ctl mask tbl s -> 0 <= irq < 256 ->
  (forall s', soft s s' -> irq_ctl (mask_on irq mask) (if cbool (m_ismp s) then ioapic_on irq cpu tbl else tbl) s' -> wp m Q e s') ->
  wp (picenable irq;; ioapicenable irq cpu;; m) Q e s.
Proof.
  intros Hc Hi HQ. destruct (picenable_ok mask tbl irq e s Hc) as (s1 & E1 & S1 & C1).
  apply wp_bind. eapply wp_intro; [exact E1|]. destruct (ioapicenable_ok _ _ irq cpu e s1 C1 Hi) as (s2 & E2 & S2 & C2).
  apply wp_bind. eapply wp_intro; [exact E2|]. rewrite (so_ismp _ _ S1) in C2. apply HQ; [by eapply soft_trans|done].
Qed.

Lemma talks_wp P m (Q : unit -> env machine -> machine -> Prop) e s :
  talks P m s -> (forall l, Forall P l -> Q tt e (set_m_io (m_io s ++ l) s)) -> wp m Q e s.
Proof. intros (l & Hl & Fl) HQ. eapply wp_intro; [apply Hl|]. by apply HQ. Qed.

(** [picinit] ends with the mask in both controllers. *)
Lemma picinit_ok tbl e s : 0 <= m_irqmask s < 65535 -> (forall r, ioapic_reg (m_io s) r = tbl r) ->
  exists s', picinit e s = Done tt e s' /\ soft s s' /\ irqs (m_irqmask s) tbl s' /\ m_ioapic s' = m_ioapic s.
Proof.
  intros Hm Ht. assert (E0 : picinit e s = picinit e (set_m_io (m_io s) s)) by (by rewrite set_m_io_same). rewrite E0.
  unfold picinit. rewrite !outb_seq. match goal with |- context[set_m_io ?x s] => set (h := x) end.
  assert (Eh : ioapic_run h = ioapic_run (m_io s)) by (subst h; by rewrite !ioapic_run_snoc). clearbody h. erewrite bind_Done by done.
  change (m_irqmask (set_m_io h s)) with (m_irqmask s). rewrite (proj2 (Z.eqb_neq _ _)) by lia. cbn [negb when].
  destruct (picsetmask_ok tbl (m_irqmask s) e (set_m_io h s)) as (s' & E & S' & C' & Eio); [|lia|].
  - intros r. unfold ioapic_reg. simpl. rewrite Eh. apply Ht.
  - exists s'. split; [exact E|]. split; [|done]. eapply soft_trans; [apply soft_io|exact S'].
Qed.

(** The table that [ioapicinit] writes: all interrupts disabled. *)
Definition ioapic_off (n : Z) (tbl : Z -> option Z) : Z -> option Z := fun r =>
  if (REG_TABLE <=? r) && (r <? REG_TABLE + 2 * n) then
    Some (if r mod 2 =? 0 then Z.lor INT_DISABLED (T_IRQ0 + (r - REG_TABLE) / 2) else 0)
  else tbl r.

Definition off_body (i : Z) : Mach (option unit) :=
  ioapicwrite (REG_TABLE + 2 * i) (Z.lor INT_DISABLED (T_IRQ0 + i));; ioapicwrite (REG_TABLE + 2 * i + 1) 0;; mret None.

Lemma off_body_ok i e s : m_ioapic s = IOAPIC ->
  off_body i e s = Done None e (set_m_io ((m_io s ++ [St32 IOAPIC (u32 (REG_TABLE + 2 * i)); St32 (IOAPIC + 16) (u32 (Z.lor INT_DISABLED (T_IRQ0 + i)))]) ++
    [St32 IOAPIC (u32 (REG_TABLE + 2 * i + 1)); St32 (IOAPIC + 16) (u32 0)]) s).
Proof.
  intros Hio. unfold off_body. erewrite bind_Done by (by apply ioapicwrite_ok). erewrite bind_Done by (by apply ioapicwrite_ok). done.
Qed.

Lemma off_loop_ok mask tbl (n : nat) : forall i e s, 0 <= i -> i + Z.of_nat n <= 256 -> irqs mask (ioapic_off i tbl) s -> m_ioapic s = IOAPIC ->
  exists l, for_each (seqZ i (Z.of_nat n)) off_body e s = Done None e (set_m_io (m_io s ++ l) s) /\
    irqs mask (ioapic_off (i + Z.of_nat n) tbl) (set_m_io (m_io s ++ l) s).
Proof.
  induction n as [|n IH]; intros i e s Hi Hn Hs Hio.
  { exists []. rewrite app_nil_r, Z.add_0_r. by destruct s. }
  rewrite seqZ_cons by lia. cbn [for_each]. rewrite (bind_Done _ _ _ _ _ _ _ (off_body_ok i e s Hio)).
  change REG_TABLE with 16. pose proof (irqs_write _ _ (16 + 2 * i) (Z.lor INT_DISABLED (T_IRQ0 + i)) _ Hs ltac:(lia)) as H1.
  pose proof (irqs_write _ _ (16 + 2 * i + 1) 0 _ H1 ltac:(lia)) as H2. cbn [m_io set_m_io] in H2.
  match type of H2 with irqs _ _ (set_m_io ?h _) => set (h1 := h) in * end.
  destruct (IH (i + 1) e (set_m_io h1 s)) as (l & E & Hl); [lia|lia| |done|].
  { destruct H2 as (A & B & C & D). split_and!; [done|done|done|]. intros r. rewrite D. unfold ioapic_off. change REG_TABLE with 16.
    change INT_DISABLED with (2 ^ 16). change T_IRQ0 with 32.
    assert (Eu : u32 (Z.lor (2 ^ 16) (32 + i)) = Z.lor (2 ^ 16) (32 + i)).
    { rewrite (lor_add_low _ _ 16) by (try lia; reflexivity). apply u32_small. lia. }
    rewrite Eu. destruct (Z.eqb_spec r (16 + 2 * i + 1)) as [->|]; [|destruct (Z.eqb_spec r (16 + 2 * i)) as [->|]].
    - rewrite (proj2 (Z.leb_le _ _)), (proj2 (Z.ltb_lt _ _)) by lia. cbn [andb]. f_equal.
      replace ((16 + 2 * i + 1) mod 2) with 1 by (Z.div_mod_to_equations; lia). done.
    - rewrite (proj2 (Z.leb_le _ _)), (proj2 (Z.ltb_lt _ _)) by lia. cbn [andb]. f_equal.
      replace ((16 + 2 * i) mod 2) with 0 by (Z.div_mod_to_equations; lia). cbn [Z.eqb]. do 2 f_equal. Z.div_mod_to_equations. lia.
    - destruct (Z.leb_spec 16 r), (Z.ltb_spec r (16 + 2 * i)), (Z.ltb_spec r (16 + 2 * (i + 1))); try lia; done. }
  exists ([St32 IOAPIC (u32 (16 + 2 * i)); St32 (IOAPIC + 16) (u32 (Z.lor INT_DISABLED (T_IRQ0 + i)))] ++
    [St32 IOAPIC (u32 (16 + 2 * i + 1)); St32 (IOAPIC + 16) (u32 0)] ++ l).
  replace (Z.of_nat (S n) - 1) with (Z.of_nat n) by lia. replace (Z.succ i) with (i + 1) by lia.
  replace (Z.pred (Z.of_nat (S n))) with (Z.of_nat n) by lia. replace (i + Z.of_nat (S n)) with (i + 1 + Z.of_nat n) by lia.
  cbn [m_io set_m_io] in E, Hl. rewrite !app_assoc. split; [exact E|exact Hl].
Qed.

(** Printing a message is nothing to the devices. *)
Lemma kern_cprintf_soft fmt args e s : irq_ok (m_k s) -> cons_ready (m_k s) ->
  exists c, kern (cprintf fmt args) e s = Done tt e (set_m_k (set_k_cons c (m_k s)) s) /\ soft s (set_m_k (set_k_cons c (m_k s)) s) /\
    uart c = uart (k_cons (m_k s)).
Proof.
  intros Hi Hr. destruct (cprintf_ok fmt args [] (m_k s) Hr) as (c & E & Hk & Hl & Hu & _). exists c. unfold kern. rewrite E.
  split; [done|]. split; [|done]. apply soft_k, kept_cons; [by rewrite Hu|]. intros _ _. split; [done|]. simpl. rewrite Hl. apply Hr.
Qed.

Lemma ioapicread_ok r e s :
  ioapicread r e s = Done (answer (m_io s ++ [St32 (m_ioapic s) (u32 r)]) (Ld32 (m_ioapic s + 16))) e
    (set_m_io ((m_io s ++ [St32 (m_ioapic s) (u32 r)]) ++ [Ld32 (m_ioapic s + 16)]) s).
Proof. reflexivity. Qed.

(** The version register of the I/O APIC says how many interrupts it has. *)
Definition ioapic_lines (maxintr : Z) : Prop :=
  forall h, Z.land (Z.shiftr (answer (h ++ [St32 IOAPIC REG_VER]) (Ld32 (IOAPIC + 16))) 16) 0xFF = maxintr.

Lemma ioapicinit_ok maxintr mask tbl e s :
  ioapic_lines maxintr -> irqs mask tbl s -> irq_ok (m_k s) -> cons_ready (m_k s) ->
  exists s', ioapicinit e s = Done tt e s' /\ soft s s' /\ uart (k_cons (m_k s')) = uart (k_cons (m_k s)) /\
    irq_ctl mask (if cbool (m_ismp s) then ioapic_off (maxintr + 1) tbl else tbl) s'.
Proof.
  intros Hv Hi Hirq Hr. unfold ioapicinit. erewrite bind_Done by done. destruct (cbool (m_ismp s)) eqn:E; cbn [negb].
  2: { exists s. split; [done|]. split; [apply soft_refl|]. split; [done|]. split; [done|]. unfold cbool in E. lia. }
  erewrite bind_Done by done.
  assert (Hmax : 0 <= maxintr < 256).
  { rewrite <- (Hv []). change 0xFF with (Z.ones 8). rewrite Z.land_ones by lia. apply Z.mod_pos_bound. lia. }
  erewrite bind_Done by apply ioapicread_ok. erewrite bind_Done by apply ioapicread_ok. erewrite bind_Done by done.
  cbn [m_io m_ioapic set_m_io set_m_ioapic]. rewrite (u32_small REG_VER), (Hv (m_io s)) by (unfold REG_VER; lia).
  match goal with |- context[when (negb (Z.shiftr ?x 24 =? ?w)) _] => generalize (negb (Z.shiftr x 24 =? w)) end. intros differs.
  match goal with |- context[set_m_io ?x _] => set (h := x) end.
  assert (Hr1 : forall r, ioapic_reg h r = tbl r).
  { intros r. subst h. unfold ioapic_reg. rewrite !ioapic_run_snoc. cbn. apply Hi. }
  assert (Hi1 : irqs mask (ioapic_off 0 tbl) (set_m_io h (set_m_ioapic IOAPIC s))).
  { destruct Hi as (A & B & C & D). split_and!; [done|..].
    - subst h. cbn [m_io set_m_io]. rewrite !last_out_snoc. exact B.
    - subst h. cbn [m_io set_m_io]. rewrite !last_out_snoc. exact C.
    - intros r. cbn [m_io set_m_io]. rewrite Hr1. unfold ioapic_off. by zif. }
  clearbody h. change (set_m_io h (set_m_io _ ?x)) with (set_m_io h x). set (s1 := set_m_io h (set_m_ioapic IOAPIC s)) in *.
  assert (exists s2, when differs (kern (cprintf ("ioapicinit: id isn't equal to ioapicid; not a MP" +:+ nl) [])) e s1 = Done tt e s2 /\
    soft s1 s2 /\ uart (k_cons (m_k s2)) = uart (k_cons (m_k s)) /\ m_io s2 = m_io s1 /\ m_irqmask s2 = m_irqmask s1 /\ m_ioapic s2 = IOAPIC)
    as (s2 & E2 & S2 & U2 & I2 & M2 & O2).
  { destruct differs; [|exists s1; split; [done|split; [apply soft_refl|done]]].
    destruct (kern_cprintf_soft ("ioapicinit: id isn't equal to ioapicid; not a MP" +:+ nl) [] e s1) as (c & Ec & Sc & Uc); [done|done|].
    eexists. split; [exact Ec|]. split; [exact Sc|]. done. }
  rewrite (bind_Done _ _ _ _ _ _ _ E2). fold off_body.
  destruct (off_loop_ok mask tbl (Z.to_nat (maxintr + 1)) 0 e s2) as (l & El & Hl); [lia|lia| |done|].
  { destruct Hi1 as (A & B & C & D). unfold irqs. by rewrite M2, I2. }
  rewrite Z2Nat.id in El, Hl by lia. erewrite bind_Done by exact El.
  eexists. split; [done|]. split; [|split; [exact U2|]].
  - eapply soft_trans; [|eapply soft_trans; [exact S2|apply soft_io]]. split; [apply kept_refl|done..].
  - split; [exact Hl|]. intros _. exact O2.
Qed.

End controllers.

(** * The devices, one after the other *)

Section devices.
Context `{Symbols} `{Driver} `{DevSw} `{Hardware}.

Lemma wp_kern {A} (f : K A) (Q : A -> env machine -> machine -> Prop) e s :
  wp f (fun a _ k => Q a e (set_m_k k s)) [] (m_k s) -> wp (kern f) Q e s.
Proof. unfold wp, kern. by destruct (f [] (m_k s)). Qed.

Lemma kept_lock lk nm k : kept k (set_lock lk (mkLock 0 nm None) k).
Proof.
  split; try done. split; try done.
  - intros lk' [nm' Hu]. unfold unlocked. simpl. destruct (decide (lk' = lk)) as [->|]; [exists nm; by rewrite lookup_insert_eq|].
    exists nm'. by rewrite lookup_insert_ne.
  - intros Hi [Hc Hl]. split; [done|]. intros Hk. split; [done|]. destruct (Hl Hk) as [_ [nm' Hu]]. unfold unlocked. simpl.
    destruct (decide (L_cons = lk)) as [<-|]; [exists nm; by rewrite lookup_insert_eq|]. exists nm'. by rewrite lookup_insert_ne.
Qed.

Lemma wp_initlock lk nm (Q : unit -> env machine -> machine -> Prop) e s :
  (forall s', soft s s' -> m_io s' = m_io s -> m_irqmask s' = m_irqmask s -> m_ioapic s' = m_ioapic s ->
     uart (k_cons (m_k s')) = uart (k_cons (m_k s)) -> unlocked lk (m_k s') -> Q tt e s') ->
  wp (kern (initlock lk nm)) Q e s.
Proof.
  intros HQ. apply wp_kern, wp_modify. apply HQ; [apply soft_k, kept_lock|done|done|done|done|]. exists nm. apply lookup_insert_eq.
Qed.

(** Nothing that the interrupt controllers see. *)
Lemma irq_ctl_same mask tbl s s' : irq_ctl mask tbl s -> soft s s' -> m_io s' = m_io s -> m_irqmask s' = m_irqmask s -> m_ioapic s' = m_ioapic s -> irq_ctl mask tbl s'.
Proof.
  intros [Hi Hio] Hs E1 E2 E3. split; [|by rewrite E3, (so_ismp _ _ Hs)].
  eapply irqs_quiet; [exact Hi|done|by rewrite E1, app_nil_r|done].
Qed.

Lemma irq_ctl_quiet mask tbl s l : irq_ctl mask tbl s -> Forall quiet_io l -> irq_ctl mask tbl (set_m_io (m_io s ++ l) s).
Proof. intros [Hi Hio] Hl. split; [|done]. by eapply irqs_quiet. Qed.

Lemma wp_boot_consoleinit mask tbl (Q : unit -> env machine -> machine -> Prop) e s :
  irq_ctl mask tbl s ->
  (forall s', soft s s' -> irq_ctl (mask_on IRQ_KBD mask) (if cbool (m_ismp s) then ioapic_on IRQ_KBD 0 tbl else tbl) s' -> Q tt e s') ->
  wp boot_consoleinit Q e s.
Proof.
  intros Hc HQ. unfold boot_consoleinit. apply wp_bind, wp_kern. unfold consoleinit, initlock. do 2 apply wp_bind, wp_modify. apply wp_modify.
  set (s1 := set_m_k _ s). assert (S1 : soft s s1).
  { apply soft_k. eapply kept_trans; [apply (kept_lock L_cons "console")|]. split; try done. split; try done. intros Hi [Hk Hl]. split; [done|].
    intros _. split; [done|]. exists "console". apply lookup_insert_eq. }
  destruct (picenable_ok mask tbl IRQ_KBD e s1) as (s2 & E2 & S2 & C2); [by eapply irq_ctl_same|].
  apply wp_bind. eapply wp_intro; [exact E2|]. destruct (ioapicenable_ok _ _ IRQ_KBD 0 e s2 C2) as (s3 & E3 & S3 & C3); [vm_compute; split; congruence|].
  eapply wp_intro; [exact E3|]. rewrite (so_ismp _ _ S2), (so_ismp _ _ S1) in C3. apply HQ; [|done].
  eapply soft_trans; [exact S1|]. by eapply soft_trans.
Qed.

Lemma wp_outb {A} p v (m : Mach A) (Q : A -> env machine -> machine -> Prop) h e s :
  wp m Q e (set_m_io (h ++ [Out8 p (u8 v)]) s) -> wp (outb p v;; m) Q e (set_m_io h s).
Proof. intros Hm. unfold wp. by rewrite outb_seq. Qed.

Lemma wp_inb {A} p (m : Z -> Mach A) (Q : A -> env machine -> machine -> Prop) h e s :
  wp (m (u8 (answer h (In8 p)))) Q e (set_m_io (h ++ [In8 p]) s) -> wp (inb p ≫= m) Q e (set_m_io h s).
Proof. intros Hm. unfold inb, ask. do 2 apply wp_bind. exact Hm. Qed.

(** Without a serial port, its status register reads as 0xFF. *)
Definition uart_there (u : bool) : Prop := forall h, (u8 (answer h (In8 (COM1 + 5))) =? 0xFF) = negb u.

(** The serial port: its interrupt is enabled exactly when the port is there. *)
Definition with_uart (u : bool) (ismp mask : Z) (tbl : Z -> option Z) : Z * (Z -> option Z) :=
  if u then (mask_on IRQ_COM1 mask, if cbool ismp then ioapic_on IRQ_COM1 0 tbl else tbl) else (mask, tbl).

Lemma kept_uartputc c k : kept k (on_cons (fun x => if cbool (uart x) then set_uart_out (uart_out x ++ [u8 c]) x else x) k).
Proof. apply kept_cons; [|intros Hi Hr]; by destruct (cbool (uart (k_cons k))). Qed.

Lemma wp_uart_text txt (Q : option unit -> env kernel -> kernel -> Prop) e k :
  (forall k', kept k k' -> Q None e k') ->
  wp (for_each txt (fun c => uartputc c;; mret (None : option unit))) Q e k.
Proof.
  intros HQ. apply (wp_for_each (fun _ e' k' => e' = e /\ kept k k')).
  - split; [done|]. apply kept_refl.
  - intros e' k' (-> & Hk). by apply HQ.
  - intros c l' e' k' _ (-> & Hk). apply wp_bind, wp_modify. apply wp_ret. split; [done|].
    eapply kept_trans; [exact Hk|apply kept_uartputc].
Qed.

Lemma wp_uartinit u mask tbl (Q : unit -> env machine -> machine -> Prop) e s :
  uart_there u -> irq_ctl mask tbl s ->
  (forall s', soft s s' -> irq_ctl (with_uart u (m_ismp s) mask tbl).1 (with_uart u (m_ismp s) mask tbl).2 s' ->
     (u = true -> uart (k_cons (m_k s')) <> 0) -> Q tt e s') ->
  wp uartinit Q e s.
Proof.
  intros Hu Hc HQ. rewrite <- (set_m_io_same s). unfold uartinit. do 7 apply wp_outb. apply wp_inb.
  match goal with |- wp _ _ _ (set_m_io ?h s) => set (l := h) end.
  assert (C1 : irq_ctl mask tbl (set_m_io l s)).
  { subst l. rewrite <- !app_assoc. apply irq_ctl_quiet; [done|]. repeat constructor; vm_compute; congruence. }
  clearbody l. rewrite Hu. destruct u; cbn [negb]; [|apply wp_ret, HQ; [apply soft_io|done|done]].
  apply wp_bind, wp_kern, wp_modify. set (k1 := on_cons _ _). change (set_m_k k1 (set_m_io l s)) with (set_m_io l (set_m_k k1 s)).
  assert (S1 : forall h, soft s (set_m_io h (set_m_k k1 s))).
  { intros h. eapply soft_trans; [apply soft_k|apply soft_io]. split; [by split|done..]. }
  do 2 apply wp_inb. set (s2 := set_m_io _ _).
  assert (C2 : irq_ctl mask tbl s2).
  { subst s2. rewrite <- app_assoc. apply (irq_ctl_quiet _ _ (set_m_io l (set_m_k k1 s))); [done|]. repeat constructor. }
  assert (S2 : soft s s2) by apply S1.
  eapply enable_ok; [exact C2|vm_compute; split; congruence|]. intros s3 S3 C3. apply wp_bind, wp_kern, wp_uart_text. intros k Hk.
  apply wp_ret. apply HQ.
  - eapply soft_trans; [exact S2|]. eapply soft_trans; [exact S3|]. by apply soft_k.
  - exact C3.
  - intros _. apply (kp_uart _ _ (kp_base _ _ Hk)), (kp_uart _ _ (kp_base _ _ (so_k _ _ S3))). done.
Qed.

(** The buffer cache *)
Lemma wp_boot_binit mask tbl (Q : unit -> env machine -> machine -> Prop) e s :
  irq_ctl mask tbl s -> fresh_bufs (m_k s) ->
  (forall s', soft s s' -> irq_ctl mask tbl s' -> built_bufs (m_k s') -> unlocked L_bcache (m_k s') -> Q tt e s') ->
  wp (kern binit) Q e s.
Proof.
  intros Hc [Hlen Hfl] HQ. apply wp_kern, wp_binit; [done|done|]. intros bs l Hb Hl. set (k' := set_k_bcache _ _).
  assert (Hk : kept (m_k s) k').
  { eapply kept_trans; [apply (kept_lock L_bcache "bcache")|]. split; try done. split; try done.
    - intros _. split; [apply (bu_ring _ _ Hb)|]. intros b. apply Hb.
    - intros _. by exists l. }
  apply HQ; [by apply soft_k|exact Hc|by exists l|]. exists "bcache". apply lookup_insert_eq.
Qed.

(** The gates of the interrupt table: every vector, and the system call also from user mode. *)
Definition gate_of (i : Z) : gatedesc :=
  if i =? T_SYSCALL then SETGATE 1 (Z.shiftl SEG_KCODE 3) (sym_vectors i) DPL_USER else SETGATE 0 (Z.shiftl SEG_KCODE 3) (sym_vectors i) 0.

Definition idt_ready (g : list gatedesc) : Prop := forall i, 0 <= i < 256 -> g !! Z.to_nat i = Some (gate_of i).

Lemma wp_tvinit (Q : unit -> env machine -> machine -> Prop) e s :
  length (m_idt s) = 256%nat ->
  (forall g k, idt_ready g -> kept (m_k s) k -> Q tt e (set_m_k k (set_m_idt g s))) ->
  wp tvinit Q e s.
Proof.
  intros Hlen HQ. unfold tvinit. apply wp_bind.
  apply (wp_for_each (fun l e' s' => e' = e /\ exists i g, 0 <= i <= 256 /\ l = seqZ i (256 - i) /\ s' = set_m_idt g s /\ length g = 256%nat /\
    forall j, 0 <= j < i -> g !! Z.to_nat j = Some (SETGATE 0 (Z.shiftl SEG_KCODE 3) (sym_vectors j) 0))).
  - split; [done|]. exists 0, (m_idt s). split_and!; [lia|lia|done|by destruct s|done|lia].
  - intros e' s' (-> & i & g & Hi & Hl & -> & Hg & Hj).
    assert (i = 256) as -> by (destruct (decide (i = 256)); [done|]; rewrite seqZ_cons in Hl by lia; done).
    apply wp_bind, wp_modify. apply wp_kern, wp_modify. cbn [m_idt set_m_idt]. apply HQ; [|apply kept_lock].
    intros j Hj'. unfold gate_of. destruct (Z.eqb_spec j T_SYSCALL) as [->|Hne].
    + rewrite list_lookup_insert_eq; [done|]. rewrite Hg. vm_compute. lia.
    + rewrite list_lookup_insert_ne; [by apply Hj|]. change T_SYSCALL with 64 in *. lia.
  - intros x l' e' s' _ (-> & i & g & Hi & Hl & -> & Hg & Hj).
    assert (i < 256) by (destruct (decide (i = 256)) as [->|]; [done|lia]). rewrite seqZ_cons in Hl by lia. injection Hl as -> ->.
    apply wp_bind, wp_modify, wp_ret. split; [done|]. eexists (i + 1), _. split_and!; [lia|lia| |done|by rewrite length_insert|].
    + f_equal; lia.
    + cbn [m_idt set_m_idt]. intros j Hj'. destruct (decide (j = i)) as [->|]; [by apply list_lookup_insert_eq; rewrite Hg; lia|].
      rewrite list_lookup_insert_ne by lia. apply Hj. lia.
Qed.

(** The disk answers its status in time. *)
Definition ide_answers : Prop := settles (In8 0x1f7) (fun v => Z.land (u8 v) (Z.lor IDE_BSY IDE_DRDY) =? IDE_DRDY).

Lemma talks_idewait0 s : ide_answers -> talks quiet_io idewait0 s.
Proof.
  intros Hset. eapply talks_mono; [|eapply poll_ok; [exact Hset|]]; [by intros x ->|]. intros h e. done.
Qed.

(** The look at the second disk *)
Lemma wp_disk1 mask tbl n (Q : option unit -> env machine -> machine -> Prop) e s :
  irq_ctl mask tbl s -> (forall r s', soft s s' -> irq_ctl mask tbl s' -> Q r e s') ->
  wp (for_each (seqZ 0 n) (fun _ => st ← inb 0x1f7; if negb (st =? 0) then kern (modify (set_k_havedisk1 1));; mret (Some tt) else mret None)) Q e s.
Proof.
  intros Hc HQ. apply (wp_for_each (fun _ e' s' => e' = e /\ soft s s' /\ irq_ctl mask tbl s')).
  - split; [done|]. split; [apply soft_refl|done].
  - intros e' s' (-> & Hs & Hc'). by apply HQ.
  - intros _ l' e' s' _ (-> & Hs & Hc'). rewrite <- (set_m_io_same s'). apply wp_inb.
    assert (Hc2 : irq_ctl mask tbl (set_m_io (m_io s' ++ [In8 0x1f7]) s')) by (apply irq_ctl_quiet; [done|by constructor]).
    case_match.
    + apply wp_bind, wp_kern, wp_modify, wp_ret. apply HQ; [|exact Hc2].
      eapply soft_trans; [exact Hs|]. eapply soft_trans; [apply soft_io|]. apply soft_k. split; [by split|done..].
    + apply wp_ret. split; [done|]. split; [|done]. eapply soft_trans; [exact Hs|apply soft_io].
Qed.

Lemma wp_boot_ideinit mask tbl (Q : unit -> env machine -> machine -> Prop) e s :
  ide_answers -> irq_ctl mask tbl s ->
  (forall s', soft s s' -> irq_ctl (mask_on IRQ_IDE mask) (if cbool (m_ismp s) then ioapic_on IRQ_IDE (m_ncpu s - 1) tbl else tbl) s' -> Q tt e s') ->
  wp boot_ideinit Q e s.
Proof.
  intros Hide Hc HQ. unfold boot_ideinit. apply wp_bind, wp_initlock. intros s1 S1 Eio Em Ea _ _.
  destruct (picenable_ok mask tbl IRQ_IDE e s1) as (s2 & E2 & S2 & C2); [by eapply irq_ctl_same|].
  apply wp_bind. eapply wp_intro; [exact E2|]. apply wp_bind, wp_get.
  destruct (ioapicenable_ok _ _ IRQ_IDE (m_ncpu s2 - 1) e s2 C2) as (s3 & E3 & S3 & C3); [vm_compute; split; congruence|].
  apply wp_bind. eapply wp_intro; [exact E3|]. rewrite (so_ismp _ _ S2), (so_ismp _ _ S1), (so_ncpu _ _ S2), (so_ncpu _ _ S1) in C3.
  apply wp_bind. eapply talks_wp; [by apply talks_idewait0|]. intros l Hl. apply wp_outb, wp_bind.
  match goal with |- wp _ _ _ ?st => set (s4 := st) end.
  assert (C4 : irq_ctl (mask_on IRQ_IDE mask) (if cbool (m_ismp s) then ioapic_on IRQ_IDE (m_ncpu s - 1) tbl else tbl) s4).
  { subst s4. rewrite <- app_assoc. apply irq_ctl_quiet; [exact C3|]. apply Forall_app. split; [done|]. constructor; [|done]. vm_compute. split; congruence. }
  assert (S4 : soft s s4).
  { eapply soft_trans; [exact S1|]. eapply soft_trans; [exact S2|]. eapply soft_trans; [exact S3|apply soft_io]. }
  clearbody s4. eapply wp_disk1; [exact C4|]. intros r s5 S5 C5. eapply talks_wp; [apply (talks_outb quiet_io); vm_compute; split; congruence|].
  intros l' Hl'. apply HQ; [|by apply irq_ctl_quiet]. eapply soft_trans; [exact S4|]. eapply soft_trans; [exact S5|apply soft_io].
Qed.

Lemma wp_timerinit mask tbl (Q : unit -> env machine -> machine -> Prop) e s :
  irq_ctl mask tbl s -> (forall s', soft s s' -> irq_ctl (mask_on IRQ_TIMER mask) tbl s' -> Q tt e s') -> wp timerinit Q e s.
Proof.
  intros Hc HQ. rewrite <- (set_m_io_same s). unfold timerinit. do 3 apply wp_outb. match goal with |- wp _ _ _ ?st => set (s1 := st) end.
  assert (C1 : irq_ctl mask tbl s1) by (subst s1; rewrite <- !app_assoc; apply irq_ctl_quiet; [done|]; repeat constructor; vm_compute; congruence).
  destruct (picenable_ok mask tbl IRQ_TIMER e s1 C1) as (s2 & E2 & S2 & C2). eapply wp_intro; [exact E2|]. apply HQ; [|done].
  eapply soft_trans; [apply soft_io|exact S2].
Qed.

(** * The boot processor *)

(** The local APIC is at [L], not over the I/O APIC, and gives this processor the number [b]; without one the number is 0. *)
Definition lapic_at (L b : Z) : Prop :=
  (L = 0 /\ b = 0) \/
  (L <> 0 /\ (L + 0x400 <= IOAPIC \/ IOAPIC + 16 < L) /\ (forall h, Z.shiftr (answer h (Ld32 (L + 4 * Lapic.ID))) 24 = b) /\
   settles (Ld32 (L + 4 * Lapic.ICRLO)) (fun v => negb (cbool (Z.land v Lapic.DELIVS)))).

Lemma lapic_quiet L b x : lapic_at L b -> lapic_io L x -> L <> 0 -> quiet_io x.
Proof. intros [[-> _]|(_ & Hd & _)] Hx HL0; [done|]. destruct x; simpl in *; try done. lia. Qed.

Lemma talks_lapicinit b s : lapic_at (m_lapic s) b -> talks quiet_io lapicinit s.
Proof.
  intros HL. destruct (decide (m_lapic s = 0)) as [E|E].
  - unfold lapicinit. apply talks_get. rewrite E. apply talks_ret.
  - eapply talks_mono; [intros x Hx; by eapply lapic_quiet|]. apply lapicinit_ok. destruct HL as [[? _]|(_ & _ & _ & Hs)]; [done|by right].
Qed.

Lemma cpunum_ok b pc e s : lapic_at (m_lapic s) b -> ifl (k_cpu (m_k s)) = false ->
  exists l, Forall quiet_io l /\ cpunum pc e s = Done b e (set_m_io (m_io s ++ l) s).
Proof.
  intros HL Hf. unfold cpunum. erewrite bind_Done by done. rewrite Hf. cbn [when]. erewrite bind_Done by done. erewrite bind_Done by done.
  destruct HL as [[E ->]|(E & _ & Hid & _)].
  - rewrite E. exists []. split; [done|]. rewrite app_nil_r, set_m_io_same. done.
  - unfold cbool. rewrite (proj2 (Z.eqb_neq _ _) E). cbn [negb]. exists [Ld32 (m_lapic s + 4 * Lapic.ID)]. split; [by constructor|].
    erewrite bind_Done by done. by rewrite Hid.
Qed.

End devices.
