(* ===== verification/MainBoot.v ===== *)
(** main.c: from the first instruction of [main] to the first process.

    [main] brings the kernel up on any machine whose BIOS has left a table of its processors, or none: the
    interrupts of the devices are routed, the other processors have started, and
    the first process is ready to run. *)

From S2P Require Import Prelude Params Mem State Spinlock Console Kalloc Vm VmTables VmSpace VmAlloc VmCopy Proc ProcSpec.
From S2P Require Import Ide Bio BioRing BioSpec BioProps Log Umem Fs FsDir ConsoleIn Pipe Syscall Exec Trap Init Machine Mp Main MainSpec.

Section boot.
Context `{Symbols} {Hsym : SymbolsOk} `{Driver} `{DevSw} `{Hardware} `{Startup}.

(** * The other processors *)

Definition started (s : machine) : list Z := c_started <$> m_cpus s.

Definition ids (s : machine) : list Z := c_id <$> m_cpus s.

Definition same_cpus (s s' : machine) : Prop := ids s' = ids s /\ started s' = started s.

(** The stores to the interrupt command register of the local APIC at [L]. *)
Definition icr_io (L : Z) (x : io) : Prop := match x with St32 a _ => a = L + 0x310 \/ a = L + 0x300 | _ => False end.

#[global] Instance icr_io_dec L x : Decision (icr_io L x).
Proof. destruct x; simpl; apply _. Defined.

(** The interprocessor interrupts that start processor [id] at 0x7000 (MultiProcessor Specification, B.4): INIT with
    level and assert, INIT with level, and twice STARTUP with the number of the page. *)
Definition startup_ipis (L id : Z) : list io :=
  let hi := St32 (L + 0x310) (u32 (Z.shiftl id 24)) in
  let lo v := St32 (L + 0x300) v in
  [hi; lo 0xC500; lo 0x8500; hi; lo 0x607; hi; lo 0x607].

(** The code of entryother.S is at 0x7000. *)
Definition code_at (m : memory) : Prop := forall i x, sym_entryother !! i = Some x -> ld8 m (0x7000 + Z.of_nat i) = u8 x.

(** Processor [c] has been called: the last interprocessor interrupts are those that start it at 0x7000; there it
    finds the code of entryother.S, and below the code what this code loads: the page directory, the
    address of [mpenter], and the top of a stack that is a page of its own. *)
Record ap_called (L c : Z) (s : machine) : Prop := {
  ac_ipis : startup_ipis L c `suffix_of` (filter (icr_io L) (m_io s));
  ac_code : code_at (k_mem (m_k s));
  ac_pgdir : ld32 (k_mem (m_k s)) (0x7000 - 12) = u32 (v2p sym_entrypgdir);
  ac_enter : ld32 (k_mem (m_k s)) (0x7000 - 8) = u32 sym_mpenter;
  ac_stack : exists v l, page_ok v /\ free_rep (m_k s) l /\ ~ (v ∈ l) /\
    ld32 (k_mem (m_k s)) (0x7000 - 4) = u32 (v + KSTACKSIZE)
}.

(** The start of processor [c]: it sets its flag, may print and may program its own local APIC, and leaves the rest alone. *)
Record ap_step (c : Z) (s s' : machine) : Prop := {
  ap_k : kept (m_k s) (m_k s');
  ap_io : exists l, m_io s' = m_io s ++ l /\ Forall quiet_io l;
  ap_vars : m_irqmask s' = m_irqmask s /\ m_ioapic s' = m_ioapic s /\ m_lapic s' = m_lapic s /\
    m_ismp s' = m_ismp s /\ m_ncpu s' = m_ncpu s /\ m_cpu s' = m_cpu s /\ m_idt s' = m_idt s;
  ap_ids : ids s' = ids s;
  ap_started : started s' = <[Z.to_nat c := 1]> (started s)
}.

(** [f] is what processor [c] does once it has been called, on a machine with its local APIC at [L]. *)
Definition ap_up (L c : Z) (f : machine -> machine) : Prop :=
  forall s, irq_ok (m_k s) -> cons_ready (m_k s) -> m_lapic s = L -> (Z.to_nat c < length (started s))%nat ->
    ap_called L c s -> ap_step c s (f s).

(** The machine between the setup of the devices, in [s0], and [userinit]; [l] is the free list. *)
Record mid (mask : Z) (tbl : Z -> option Z) (s0 s : machine) (l : list Z) : Prop := {
  md_base : base (m_k s0) (m_k s);
  md_free : free_rep (m_k s) l;
  md_lock : use_lock (k_kmem (m_k s)) = use_lock (k_kmem (m_k s0));
  md_ctl : irq_ctl mask tbl s;
  md_lapic : m_lapic s = m_lapic s0;
  md_ismp : m_ismp s = m_ismp s0;
  md_ncpu : m_ncpu s = m_ncpu s0;
  md_cpu : m_cpu s = m_cpu s0;
  md_idt : m_idt s = m_idt s0
}.

Lemma free_rep_kept k k' l : kept k k' -> free_rep k l -> free_rep k' l.
Proof. intros Hk. apply free_rep_ext; [apply Hk|by rewrite (kp_kmem _ _ Hk)|apply Hk]. Qed.

Lemma mid_soft mask tbl s0 s s' l : mid mask tbl s0 s l -> soft s s' -> irq_ctl mask tbl s' -> mid mask tbl s0 s' l.
Proof.
  intros [] [] Hc. split; try congruence; try done.
  - eapply base_trans; [done|]. by apply kp_base.
  - by eapply free_rep_kept.
  - by rewrite (kp_kmem _ _ so_k).
Qed.

(** Memory below the kernel is not on the free list. *)
Lemma free_rep_low k m l : (forall a, EXTMEM <= a -> ld8 m a = ld8 (k_mem k) a) -> free_rep k l -> free_rep (set_k_mem m k) l.
Proof.
  intros Hm [Hc Hn Hp Hl]. split; [|done..]. simpl. eapply chain_ext; [|exact Hc]. intros v Hv. symmetry.
  rewrite Forall_forall in Hp. destruct (Hp v Hv) as (_ & Hlo & Hhi). destruct Hsym. apply ld32_ext. intros a Ha. apply Hm.
  rewrite v2p_eq in Ha by lia. change KERNLINK with (KERNBASE + EXTMEM) in *. lia.
Qed.

Lemma base_mem k m : base k (set_k_mem m k).
Proof. by split. Qed.

Lemma mid_low mask tbl s0 s l f : (forall m a, EXTMEM <= a -> ld8 (f m) a = ld8 m a) -> mid mask tbl s0 s l ->
  mid mask tbl s0 (set_m_k (on_mem f (m_k s)) s) l.
Proof.
  intros Hf []. split; try done.
  - eapply base_trans; [done|apply base_mem].
  - apply free_rep_low; [|done]. intros a Ha. by apply Hf.
Qed.

Lemma mid_pop mask tbl s0 s l v : mid mask tbl s0 s (v :: l) -> mid mask tbl s0 (set_m_k (popped (m_k s)) s) l.
Proof.
  intros Hm. pose proof (free_rep_popped _ _ _ (md_free _ _ _ _ _ Hm)) as Hp. destruct Hm. split; try done.
  eapply base_trans; [done|]. by split.
Qed.

Lemma mid_step mask tbl s0 s s' l c : mid mask tbl s0 s l -> ap_step c s s' -> mid mask tbl s0 s' l.
Proof.
  intros [] []. destruct ap_io0 as (tr & Etr & Htr), ap_vars0 as (E1 & E2 & E3 & E4 & E5 & E6 & E7). split; try congruence.
  - eapply base_trans; [done|]. by apply kp_base.
  - by eapply free_rep_kept.
  - by rewrite (kp_kmem _ _ ap_k0).
  - destruct md_ctl0 as [Hq Hio]. split; [by eapply irqs_quiet|]. by rewrite E2, E4.
Qed.

Lemma mid_ap mask tbl s0 s l c f : irq_ok (m_k s0) -> cons_ready (m_k s0) -> mid mask tbl s0 s l -> ap_up (m_lapic s0) c f ->
  (Z.to_nat c < length (started s))%nat -> ap_called (m_lapic s0) c s -> ap_step c s (f s).
Proof.
  intros Hi Hr [] Hf. apply Hf; [by eapply base_irq|by apply (kp_cons _ _ md_base0)|done].
Qed.

Lemma mid_talks mask tbl s0 s l tr : mid mask tbl s0 s l -> Forall quiet_io tr -> mid mask tbl s0 (set_m_io (m_io s ++ tr) s) l.
Proof. intros Hm Htr. eapply mid_soft; [exact Hm|apply soft_io|]. apply irq_ctl_quiet; [apply Hm|done]. Qed.

(** Steps that leave the processors and the memory from 0x1000 on alone, and give the orders [ipis]. *)
Record tracked (L : Z) (ipis : list io) (s s' : machine) : Prop := {
  tk_cpus : same_cpus s s';
  tk_mem : forall a, 0x1000 <= a -> ld8 (k_mem (m_k s')) a = ld8 (k_mem (m_k s)) a;
  tk_io : exists tr, m_io s' = m_io s ++ tr /\ filter (icr_io L) tr = ipis
}.

Lemma tracked_trans L i1 i2 s1 s2 s3 : tracked L i1 s1 s2 -> tracked L i2 s2 s3 -> tracked L (i1 ++ i2) s1 s3.
Proof.
  intros [[C1 C1'] M1 (t1 & E1 & F1)] [[C2 C2'] M2 (t2 & E2 & F2)]. split.
  - split; congruence.
  - intros a Ha. by rewrite M2, M1.
  - exists (t1 ++ t2). rewrite E2, E1, filter_app, F1, F2, app_assoc. done.
Qed.

Lemma wp_mid_outb mask tbl s0 s l port v (Q : unit -> env machine -> machine -> Prop) e :
  mid mask tbl s0 s l -> quiet_io (Out8 port (u8 v)) ->
  (forall s', mid mask tbl s0 s' l -> tracked (m_lapic s0) [] s s' -> Q tt e s') -> wp (outb port v) Q e s.
Proof.
  intros Hm Hq HQ. unfold outb, tell. apply wp_modify. apply HQ; [by apply mid_talks; [|constructor]|].
  split; [done|done|]. by exists [Out8 port (u8 v)].
Qed.

Lemma wp_mid_lapicw b mask tbl s0 s l i v (Q : unit -> env machine -> machine -> Prop) e :
  lapic_at (m_lapic s0) b -> m_lapic s0 <> 0 -> mid mask tbl s0 s l -> i = Lapic.ICRHI \/ i = Lapic.ICRLO ->
  (forall s', mid mask tbl s0 s' l -> tracked (m_lapic s0) [St32 (m_lapic s0 + 4 * i) (u32 v)] s s' -> Q tt e s') -> wp (lapicw i v) Q e s.
Proof.
  intros HL H0' Hm Hi HQ. pose proof (md_lapic _ _ _ _ _ Hm) as El. unfold lapicw, lapic_get, tell, ask.
  apply wp_bind, wp_get. apply wp_bind, wp_modify. apply wp_bind. eapply wp_intro; [reflexivity|]. apply wp_ret. cbn [m_io set_m_io m_lapic]. rewrite El.
  match goal with |- Q _ _ (set_m_io ((?h ++ [?x]) ++ [?y]) _) => replace ((h ++ [x]) ++ [y]) with (h ++ [x; y]) by (by rewrite <- app_assoc);
    assert (Hq : Forall quiet_io [x; y]) end.
  { assert (0 <= i < 256) by (destruct Hi as [-> | ->]; vm_compute; split; congruence).
    apply Forall_cons; split; [|apply Forall_singleton]; (eapply lapic_quiet; [exact HL| |done]); simpl; [lia|done]. }
  apply HQ; [exact (mid_talks _ _ _ _ _ _ Hm Hq)|]. split; [done|done|]. eexists. split; [reflexivity|].
  rewrite filter_cons_True by (destruct Hi as [-> | ->]; [by left|by right]). by rewrite filter_cons_False by (intros []).
Qed.

Lemma wp_mid_mem mask tbl s0 s l f (Q : unit -> env machine -> machine -> Prop) e :
  mid mask tbl s0 s l -> (forall m a, EXTMEM <= a -> ld8 (f m) a = ld8 m a) ->
  (mid mask tbl s0 (set_m_k (on_mem f (m_k s)) s) l -> Q tt e (set_m_k (on_mem f (m_k s)) s)) -> wp (kern (modify (on_mem f))) Q e s.
Proof. intros Hm Hf HQ. apply wp_kern, wp_modify. apply HQ. by apply mid_low. Qed.

(** The warm reset vector is below 0x1000. *)
Lemma wp_mid_write16 mask tbl s0 s l a v (Q : unit -> env machine -> machine -> Prop) e :
  mid mask tbl s0 s l -> 0 <= v2p a < 0xFFF ->
  (forall s', mid mask tbl s0 s' l -> tracked (m_lapic s0) [] s s' -> Q tt e s') -> wp (kern (kwrite16 a v)) Q e s.
Proof.
  intros Hm Ha HQ. eapply wp_mid_mem; [exact Hm| |].
  { intros m x Hx. change EXTMEM with 1048576 in Hx. rewrite !ld8_st8. by zif. }
  intros Hm'. apply HQ; [exact Hm'|]. split; [done| |exists []; split; [by rewrite app_nil_r|done]].
  intros x Hx. simpl. rewrite !ld8_st8. by zif.
Qed.

Lemma wp_mid_write32 mask tbl s0 s l a v (Q : unit -> env machine -> machine -> Prop) e :
  mid mask tbl s0 s l -> 0 <= v2p a < EXTMEM - 3 ->
  (forall s', mid mask tbl s0 s' l -> same_cpus s s' -> k_mem (m_k s') = st32 (k_mem (m_k s)) (v2p a) v -> Q tt e s') -> wp (kern (kwrite32 a v)) Q e s.
Proof.
  intros Hm Ha HQ. eapply wp_mid_mem; [exact Hm| |].
  { intros m x Hx. rewrite ld8_st32. by zif. }
  intros Hm'. by apply HQ.
Qed.

Ltac lapic_step := apply wp_bind; eapply wp_mid_lapicw; [eassumption|eassumption|eassumption|(by left) || (by right)|];
  let s := fresh "s" in let M := fresh "M" in let T := fresh "T" in intros s M T;
  match goal with T0 : tracked _ _ ?s0 ?s1, T1 : tracked _ _ ?s1 s |- _ => pose proof (tracked_trans _ _ _ _ _ _ T0 T1); clear T0 T1 end.

Lemma wp_lapicstartap b mask tbl s0 s l id (Q : unit -> env machine -> machine -> Prop) e :
  lapic_at (m_lapic s0) b -> m_lapic s0 <> 0 -> mid mask tbl s0 s l ->
  (forall s', mid mask tbl s0 s' l -> tracked (m_lapic s0) (startup_ipis (m_lapic s0) id) s s' -> Q tt e s') ->
  wp (lapicstartap id 0x7000) Q e s.
Proof.
  intros HL H0' Hm HQ. unfold lapicstartap.
  apply wp_bind. eapply wp_mid_outb; [exact Hm|vm_compute; split; congruence|]. intros s1 M1 T1.
  apply wp_bind. eapply wp_mid_outb; [exact M1|vm_compute; split; congruence|]. intros s2 M2 T2. pose proof (tracked_trans _ _ _ _ _ _ T1 T2) as T12.
  apply wp_bind. eapply wp_mid_write16; [exact M2|vm_compute; split; congruence|]. intros s3 M3 T3. pose proof (tracked_trans _ _ _ _ _ _ T12 T3) as T13.
  apply wp_bind. eapply wp_mid_write16; [exact M3|vm_compute; split; congruence|]. intros s4 M4 T4. pose proof (tracked_trans _ _ _ _ _ _ T13 T4) as T14.
  clear T1 T2 T12 T3 T13 T4 M1 M2 M3. do 3 lapic_step. change (seqZ 0 2) with [0; 1]. cbn [for_each].
  apply wp_bind, wp_bind. do 2 lapic_step. apply wp_ret. apply wp_bind. do 2 lapic_step. apply wp_ret. apply wp_ret, wp_ret.
  eapply HQ; [eassumption|]. eassumption.
Qed.

(** Waiting for a processor that has not started yet lets it start. *)
Lemma wp_wait_ap mask tbl s0 s l c f (Q : unit -> env machine -> machine -> Prop) e :
  irq_ok (m_k s0) -> cons_ready (m_k s0) -> mid mask tbl s0 s l -> ap_up (m_lapic s0) c f -> started s !! Z.to_nat c = Some 0 ->
  ap_called (m_lapic s0) c s -> (mid mask tbl s0 (f s) l -> ap_step c s (f s) -> Q tt e (f s)) ->
  wp (loop_env (fun _ : unit =>
      st ← get (fun s => default 0 (c_started <$> m_cpus s !! Z.to_nat c));
      if st =? 0 then others;; mret (inl tt) else mret (inr tt)) tt) Q (f :: e) s.
Proof.
  intros Hi Hr Hm Hf Hs Hcalled HQ. assert (Hst : forall t, c_started <$> m_cpus t !! Z.to_nat c = started t !! Z.to_nat c) by (intros t; unfold started; by rewrite list_lookup_fmap).
  assert (Hlt : (Z.to_nat c < length (started s))%nat) by (by eapply lookup_lt_Some).
  assert (Hstep : ap_step c s (f s)) by (by eapply mid_ap).
  unfold wp, loop_env. cbn [length loop]. rewrite (bind_Done _ _ _ _ (inl tt) e (f s)).
  2: { erewrite bind_Done by done. rewrite Hst, Hs. done. }
  rewrite (bind_Done _ _ _ _ (inr tt) e (f s)); [apply HQ; [by eapply mid_step|done]|].
  erewrite bind_Done by done. rewrite Hst, (ap_started _ _ _ Hstep), list_lookup_insert_eq; done.
Qed.

(** Starting one processor *)
Definition start_ap (c : Z) : Mach (option unit) :=
  let code := p2v 0x7000 in
  stack ← kern kalloc;
  kern (kwrite32 (code - 4) (stack + KSTACKSIZE));;
  kern (kwrite32 (code - 8) sym_mpenter);;
  kern (kwrite32 (code - 12) (v2p sym_entrypgdir));;
  id ← get (fun s => default 0 (c_id <$> m_cpus s !! Z.to_nat c));
  lapicstartap id (v2p code);;
  loop_env (fun _ : unit =>
    st ← get (fun s => default 0 (c_started <$> m_cpus s !! Z.to_nat c));
    if st =? 0 then others;; mret (inl tt) else mret (inr tt)) tt;;
  mret None.

Lemma wp_start_ap b mask tbl s0 s l v c f (Q : option unit -> env machine -> machine -> Prop) e :
  irq_ok (m_k s0) -> cons_ready (m_k s0) -> use_lock (k_kmem (m_k s0)) = 0 -> lapic_at (m_lapic s0) b -> m_lapic s0 <> 0 ->
  mid mask tbl s0 s (v :: l) -> ap_up (m_lapic s0) c f -> started s !! Z.to_nat c = Some 0 -> ids s !! Z.to_nat c = Some c -> code_at (k_mem (m_k s)) ->
  (forall s', mid mask tbl s0 s' l -> ids s' = ids s -> started s' = <[Z.to_nat c := 1]> (started s) -> code_at (k_mem (m_k s')) -> Q None e s') ->
  wp (start_ap c) Q (f :: e) s.
Proof.
  intros Hi Hr Hlk HL HL0 M Hf Hs Hid Hcode HQ. unfold start_ap. apply wp_bind, wp_kern. eapply wp_kalloc; [|apply M|].
  { unfold kmem_ready. rewrite (md_lock _ _ _ _ _ M), Hlk. done. }
  intros Hv Hvl _. apply mid_pop in M. set (s1 := set_m_k (popped (m_k s)) s) in *.
  assert (E1 : same_cpus s s1) by done. assert (Em1 : k_mem (m_k s1) = k_mem (m_k s)) by done. clearbody s1.
  apply wp_bind. eapply wp_mid_write32; [exact M|vm_compute; split; congruence|]. intros s2 M2 E2 Em2.
  apply wp_bind. eapply wp_mid_write32; [exact M2|vm_compute; split; congruence|]. intros s3 M3 E3 Em3.
  apply wp_bind. eapply wp_mid_write32; [exact M3|vm_compute; split; congruence|]. intros s4 M4 E4 Em4.
  assert (E : same_cpus s s4) by (unfold same_cpus in *; intuition congruence). apply wp_bind, wp_get.
  assert (default 0 (c_id <$> m_cpus s4 !! Z.to_nat c) = c) as ->.
  { rewrite <- list_lookup_fmap. fold (ids s4). by rewrite (proj1 E), Hid. }
  apply wp_bind. change (v2p (p2v 0x7000)) with 0x7000. eapply wp_lapicstartap; [done|done|exact M4|]. intros s5 M5 [[T1 T2] Tm (tr & Tio & Tf)].
  assert (Hcode5 : code_at (k_mem (m_k s5))).
  { intros i x Hx. rewrite Tm, Em4, Em3, Em2, Em1 by lia. rewrite !ld8_st32. change (v2p (p2v 0x7000 - 12)) with 0x6ff4.
    change (v2p (p2v 0x7000 - 8)) with 0x6ff8. change (v2p (p2v 0x7000 - 4)) with 0x6ffc. zif. by apply Hcode. }
  assert (Hw : forall a, 0x1000 <= a -> ld32 (k_mem (m_k s5)) a = ld32 (k_mem (m_k s4)) a) by (intros a Ha; apply ld32_ext; intros x Hx; apply Tm; lia).
  apply wp_bind. eapply wp_wait_ap; [done|done|exact M5|exact Hf|by rewrite T2, (proj2 E)| |].
  { split.
    - exists (filter (icr_io (m_lapic s0)) (m_io s4)). by rewrite Tio, filter_app, Tf.
    - exact Hcode5.
    - rewrite Hw, Em4 by lia. apply ld32_st32_eq.
    - rewrite Hw, Em4 by lia. rewrite ld32_st32_ne, Em3 by (vm_compute; right; congruence). apply ld32_st32_eq.
    - exists v, l. split; [done|]. split; [apply M5|]. split; [done|]. rewrite Hw, Em4 by lia.
      rewrite ld32_st32_ne, Em3 by (vm_compute; right; congruence). rewrite ld32_st32_ne, Em2 by (vm_compute; right; congruence).
      apply ld32_st32_eq. }
  intros M6 S6. apply wp_ret. apply HQ; [done| | |].
  - by rewrite (ap_ids _ _ _ S6), T1, (proj1 E).
  - by rewrite (ap_started _ _ _ S6), T2, (proj2 E).
  - by rewrite (kp_mem _ _ (ap_k _ _ _ S6)).
Qed.

(** The processors that [startothers] starts, in order, when [b] is the one it runs on. *)
Definition other_cpus (b i n : Z) : list Z := filter (fun c => c <> b) (seqZ i n).

Lemma wp_startothers b mask tbl s0 l (Q : unit -> env machine -> machine -> Prop) e :
  let n := m_ncpu s0 in
  irq_ok (m_k s0) -> cons_ready (m_k s0) -> use_lock (k_kmem (m_k s0)) = 0 -> ifl (k_cpu (m_k s0)) = false ->
  lapic_at (m_lapic s0) b -> (m_lapic s0 = 0 -> n <= 1) ->
  mid mask tbl s0 s0 l -> n <= Z.of_nat (length l) -> n <= Z.of_nat (length (m_cpus s0)) ->
  Forall (fun x => x = 0) (started s0) -> (m_lapic s0 <> 0 -> forall c, 0 <= c < n -> ids s0 !! Z.to_nat c = Some c) ->
  0x7000 + Z.of_nat (length sym_entryother) <= EXTMEM ->
  Forall2 (ap_up (m_lapic s0)) (other_cpus b 0 n) e ->
  (forall s l', mid mask tbl s0 s l' -> l' `suffix_of` l -> length (started s) = length (started s0) ->
     (forall c, 0 <= c < n -> c <> b -> started s !! Z.to_nat c = Some 1) -> Q tt [] s) ->
  wp startothers Q e s0.
Proof.
  intros n Hi Hr Hlk Hfl HL HL0 Hm Hl Hcp Hst Hids Hent Haps HQ. unfold startothers.
  apply wp_bind. eapply wp_mid_mem; [exact Hm| |].
  { intros m a Ha. rewrite ld8_write_bytes. change (v2p (p2v 0x7000)) with 0x7000. zif. done. }
  intros M1. set (s1 := set_m_k _ s0) in *. assert (E1 : same_cpus s0 s1) by done.
  assert (Hcode : code_at (k_mem (m_k s1))).
  { intros i x Hx. simpl. change (v2p (p2v 0x7000)) with 0x7000. rewrite ld8_write_bytes. pose proof (lookup_lt_Some _ _ _ Hx). zif.
    replace (Z.to_nat (0x7000 + Z.of_nat i - 0x7000)) with i by lia. by rewrite (nth_lookup_Some _ _ _ _ Hx). }
  clearbody s1. destruct E1 as [E1' E1]. apply wp_bind, wp_get. rewrite (md_ncpu _ _ _ _ _ M1). fold n. apply wp_bind.
  apply (wp_for_each (fun cs e' s => exists i l', 0 <= i /\ cs = seqZ i (n - i) /\ Forall2 (ap_up (m_lapic s0)) (other_cpus b i (n - i)) e' /\
    mid mask tbl s0 s l' /\ l' `suffix_of` l /\ Z.of_nat (length l) <= Z.of_nat (length l') + i /\ length (started s) = length (started s0) /\
    ids s = ids s0 /\ code_at (k_mem (m_k s)) /\
    (forall c, 0 <= c < i -> c < n -> c <> b -> started s !! Z.to_nat c = Some 1) /\
    (forall c, i <= c < n -> started s !! Z.to_nat c = Some 0))).
  - exists 0, l. rewrite Z.sub_0_r. split_and!; [lia|done|done|done|done|lia|by rewrite E1|done|done|lia|].
    intros c Hc. rewrite E1. unfold started in *. assert (exists x, (c_started <$> m_cpus s0) !! Z.to_nat c = Some x) as [x Hx].
    { apply lookup_lt_is_Some_2. rewrite length_fmap. lia. }
    rewrite Hx. f_equal. eapply Forall_lookup_1 in Hst; [|exact Hx]. done.
  - intros e' s (i & l' & Hi0 & Hcs & Haps' & M & Hsuf & _ & Hlen & _ & _ & Hdone & _). apply wp_ret.
    assert (Hin : n - i <= 0) by (destruct (decide (n - i <= 0)); [done|]; rewrite seqZ_cons in Hcs by lia; done).
    assert (e' = []) as ->.
    { unfold other_cpus in Haps'. rewrite seqZ_nil in Haps' by lia. by inversion Haps'. }
    eapply HQ; [exact M|done|done|]. intros c Hc Hb. apply Hdone; [lia|lia|done].
  - intros c cs e' s _ (i & l' & Hi0 & Hcs & Haps' & M & Hsuf & Hcnt & Hlen & Hid & Hco & Hdone & Htodo).
    assert (Hin : i < n) by (destruct (decide (i < n)); [done|]; rewrite seqZ_nil in Hcs by lia; done).
    rewrite seqZ_cons in Hcs by lia. injection Hcs as -> ->. replace (Z.pred (n - i)) with (n - (i + 1)) in * by lia.
    assert (Hfl' : ifl (k_cpu (m_k s)) = false) by (rewrite (kp_ifl _ _ (md_base _ _ _ _ _ M)); done).
    destruct (cpunum_ok b sym_pc e' s) as (tr & Htr & Ecpu); [by rewrite (md_lapic _ _ _ _ _ M)|done|].
    apply wp_bind. eapply wp_intro; [exact Ecpu|]. pose proof (mid_talks _ _ _ _ _ tr M Htr) as M2.
    unfold other_cpus in Haps'. rewrite seqZ_cons in Haps' by lia. replace (Z.succ i) with (i + 1) in * by lia.
    replace (Z.pred (n - i)) with (n - (i + 1)) in * by lia.
    destruct (Z.eqb_spec i b) as [->|Hne].
    + rewrite filter_cons_False in Haps' by (intros Hx; by apply Hx). apply wp_ret. exists (b + 1), l'.
      split_and!; [lia|done|exact Haps'|exact M2|done|lia|done|done|done| |].
      * intros c Hc Hcn Hcb. apply Hdone; [lia|lia|done].
      * intros c Hc. apply Htodo. lia.
    + rewrite filter_cons_True in Haps' by done. inversion Haps' as [|? f ? e2 Hf Haps2]; subst.
      destruct l' as [|v l']; [simpl in Hcnt; lia|]. fold (start_ap i).
      assert (HLn : m_lapic s0 <> 0) by (intros E0; specialize (HL0 E0); destruct HL as [[_ ->]|[? _]]; [lia|done]).
      eapply (wp_start_ap b); [done..|exact M2|exact Hf|by apply Htodo; lia| |exact Hco|].
      { change (ids (set_m_io _ s)) with (ids s). rewrite Hid. apply Hids; [done|lia]. }
      intros s' M' Eid' E' Hco'. assert (Hi2 : (Z.to_nat i < length (started s))%nat) by (apply lookup_lt_Some with 0, Htodo; lia).
      exists (i + 1), l'. split_and!; [lia|done|exact Haps2|exact M'| |simpl in Hcnt; lia| |by rewrite Eid'|done| |]; rewrite ?E'.
      * eapply suffix_cons_l. exact Hsuf.
      * by rewrite length_insert.
      * intros c Hc Hcn Hcb. destruct (decide (c = i)) as [->|]; [by apply list_lookup_insert_eq|].
        rewrite list_lookup_insert_ne by lia. apply Hdone; [lia|lia|done].
      * intros c Hc. rewrite list_lookup_insert_ne by lia. apply Htodo. lia.
Qed.

(** * Memory *)

Lemma base_alloc k k' : alloc_only k k' -> base k k'.
Proof. intros (m & km & n & -> & _). by split. Qed.

Lemma base_kmem km k : base k (set_k_kmem km k).
Proof. by split. Qed.

Definition first_pages : list Z := range_pages sym_end (KERNBASE + 4 * 1024 * 1024).

(** After [kinit1] and [kvmalloc]: the pages below 4 MB, without those of the kernel's page table, are free. *)
Record paged (k k' : kernel) (l : list Z) : Prop := {
  pg_base : base k k';
  pg_free : free_rep k' l;
  pg_use : use_lock (k_kmem k') = 0;
  pg_lock : unlocked L_kmem k';
  pg_low : low_same (k_mem k) (k_mem k');
  pg_pages : forall p, p ∈ l -> p ∈ first_pages;
  pg_count : (length first_pages <= length l + 65)%nat;
  pg_kpgdir : k_kpgdir k' <> 0;
  pg_cons : k_cons k' = k_cons k
}.

Lemma end_range : KERNLINK <= sym_end < KERNBASE + 4 * 1024 * 1024.
Proof. destruct Hsym; lia. Qed.

Lemma low_outside a l : Forall page_ok l -> 0 <= a < EXTMEM -> outside a (fun p => p ∈ l).
Proof.
  intros Hl Ha p Hp. rewrite Forall_forall in Hl. destruct (Hl p Hp) as (_ & Hlo & Hhi). pose proof end_range.
  rewrite v2p_eq by lia. change KERNLINK with (KERNBASE + EXTMEM) in *. lia.
Qed.

Lemma wp_paging (Q : unit -> env kernel -> kernel -> Prop) e k :
  freelist (k_kmem k) = 0 -> k_free_frame_cnt k = 0 -> (65 < length first_pages)%nat ->
  (forall k' l, paged k k' l -> Q tt e k') ->
  wp (kinit1 sym_end (p2v (4 * 1024 * 1024))) (fun _ e1 k1 => e1 = e /\ wp kvmalloc Q e k1) e k.
Proof.
  intros Hf Hc Hn HQ. pose proof end_range as Hend. change (p2v (4 * 1024 * 1024)) with (KERNBASE + 4 * 1024 * 1024).
  unfold kinit1, initlock. apply wp_bind, wp_modify, wp_bind, wp_modify.
  match goal with |- wp _ _ _ ?st => set (k1 := st) end.
  eapply wp_mono; [apply (freerange_ok _ _ e k1 [])|]; [lia|lia|lia|done| |set_solver|].
  { by split; [..|]; [|constructor|constructor|]. }
  intros _ e1 k2 (-> & Hf2 & Ho2 & Hm2). rewrite app_nil_r in Hf2. split; [done|]. unfold kvmalloc. apply wp_bind.
  eapply wp_mono; [apply (wp_setupkvm e k2 (reverse first_pages)); [|exact Hf2]|].
  { eapply alloc_only_ready; [exact Ho2|]. done. }
  intros pd e2 k3 (-> & l & Ho3 & Hf3 & Hsuf & Hm3 & Hr). rewrite length_reverse in Hr.
  destruct Hr as [(_ & _ & Hshort)|(Hpd & _ & _ & _ & Hlen)]; [lia|].
  apply wp_bind, wp_modify. unfold switchkvm, lcr3. apply wp_bind, wp_get. apply wp_modify. apply (HQ _ l). split.
  - eapply base_trans; [apply (kp_base _ _ (kept_lock L_kmem "kmem" k))|]. eapply base_trans; [apply (base_kmem (mkKmem 0 (freelist (k_kmem k))))|].
    eapply base_trans; [apply base_alloc, Ho2|]. eapply base_trans; [apply base_alloc, Ho3|]. by split.
  - by eapply free_rep_ext; [..|exact Hf3].
  - simpl. destruct Ho3 as (? & ? & ? & -> & E3), Ho2 as (? & ? & ? & -> & E2). simpl in *. by rewrite E3, E2.
  - destruct Ho3 as (? & ? & ? & -> & _), Ho2 as (? & ? & ? & -> & _). exists "kmem"%string. simpl. by rewrite lookup_insert_eq.
  - intros a Ha. simpl. rewrite Hm3, Hm2; [done| |].
    + rewrite v2p_eq by lia. change KERNLINK with (KERNBASE + EXTMEM) in *. lia.
    + apply low_outside; [apply Hf2|done].
  - intros p Hp. rewrite <- elem_of_reverse. destruct Hsuf as [l0 ->]. apply elem_of_app. by right.
  - done.
  - done.
  - destruct Ho3 as (? & ? & ? & -> & _), Ho2 as (? & ? & ? & -> & _). done.
Qed.

Lemma wp_boot_memory {A} (m : Mach A) (Q : A -> env machine -> machine -> Prop) e s :
  freelist (k_kmem (m_k s)) = 0 -> k_free_frame_cnt (m_k s) = 0 -> (65 < length first_pages)%nat ->
  (forall k' l, paged (m_k s) k' l -> wp m Q e (set_m_k k' s)) ->
  wp (kern (kinit1 sym_end (p2v (4 * 1024 * 1024)));; kern kvmalloc;; m) Q e s.
Proof.
  intros Hf Hc Hn HQ. apply wp_bind, wp_kern. eapply wp_mono; [apply (wp_paging (fun _ _ k => wp m Q e (set_m_k k s))); [done|done|done|exact HQ]|].
  intros [] e1 k1 [-> Hk1]. apply wp_bind, wp_kern. exact Hk1.
Qed.

(** * The processors *)

(** What the BIOS says of the machine: whether it is to be run as a multiprocessor, the number of processors, the local APIC. *)
Definition bios (m : memory) (ismp ncpu L : Z) : Prop :=
  (0 <= ebda m <= EXTMEM - 1024 /\ (forall p, p ∈ places m -> ~ mp_floating m p) /\ ismp = 0 /\ ncpu = 0 /\ L = 0) \/
  (exists conf mp es, bios_table m conf mp es /\ Z.of_nat (length (procs es)) <= NCPU /\
     if in_order 0 (procs es) then ismp = 1 /\ ncpu = Z.of_nat (length (procs es)) /\ L = conf_lapicaddr m conf
     else ismp = 0 /\ ncpu = 1 /\ L = 0).

Lemma conf_lapic_low m m' conf : low_same m m' -> low conf -> low (conf + 43) -> conf_lapicaddr m' conf = conf_lapicaddr m conf.
Proof. intros Hs H1' H2'. unfold conf_lapicaddr. apply kw_low; unfold low in *; (done || lia). Qed.

Lemma mpinit_bios m ismp ncpu L e s :
  bios m ismp ncpu L -> low_same m (k_mem (m_k s)) -> m_ismp s = 0 -> m_ncpu s = 0 -> m_lapic s = 0 ->
  length (m_cpus s) = Z.to_nat NCPU -> cons_ready (m_k s) ->
  exists s' k, mpinit e s = Done tt e s' /\ m_k s' = set_k_cons k (m_k s) /\ cons_ready (m_k s') /\ mp_kept s s' /\
    m_ismp s' = ismp /\ m_ncpu s' = ncpu /\ m_lapic s' = L /\ (L <> 0 -> forall c, 0 <= c < ncpu -> ids s' !! Z.to_nat c = Some c).
Proof.
  intros [(He & Hs & -> & -> & ->)|(conf & mp & es & Hb & Hn & Hc)] Hlow Ei En El Hlen Hr.
  - exists (set_m_bcpu 0 s), (k_cons (m_k s)). split; [|split; [|split; [exact Hr|]]].
    + unfold mpinit. erewrite bind_Done by done. erewrite bind_Done by done. unfold mpconfig. cbn [m_k set_m_bcpu].
      rewrite (mpsearch_low m), (mpsearch_none m Hs) by done. reflexivity.
    + simpl. by destruct (m_k s).
    + split; [|done]. split; [|done]. exists []. split; [by rewrite app_nil_r|by left].
  - pose proof Hb as [_ _ _ [Hl0 Hl43] Hcl Hes]. assert (Elen : conf_length (k_mem (m_k s)) conf = conf_length m conf) by by apply conf_length_low.
    destruct (mpinit_ok e s conf mp es) as (s' & k & E & Hk & Hr' & Hf & Hkp).
    + by eapply mpconfig_low.
    + unfold low in *. change KERNBASE with 2147483648 in *. lia.
    + rewrite Elen. change KERNBASE with 2147483648 in *. change EXTMEM with 1048576 in *. lia.
    + rewrite Elen. apply (entries_low m); [done| |done|done]. unfold low in *. change sizeof_mpconf with 44. lia.
    + done.
    + done.
    + done.
    + done.
    + exists s', k. split; [done|]. split; [done|]. split; [done|]. split; [done|]. unfold mp_found in Hf.
      destruct (in_order 0 (procs es)).
      * destruct Hf as (-> & -> & -> & _ & _ & Hid), Hc as (-> & -> & ->). split_and!; [done|done|by apply conf_lapic_low|].
        intros _ c Hc. unfold ids. rewrite list_lookup_fmap, Hid by lia. f_equal. lia.
      * destruct Hf as (-> & -> & -> & _), Hc as (-> & -> & ->). done.
Qed.

(** * The devices *)

(** The mask of the 8259A and the registers of the I/O APIC in the end: the keyboard, the serial port when there is one ([u]), the disk,
    and the timer of the 8253 when the local APIC is not used. *)
Definition routes (u : bool) (ismp ncpu maxintr : Z) : Z * (Z -> option Z) :=
  let mp (f : (Z -> option Z) -> Z -> option Z) tbl := if cbool ismp then f tbl else tbl in
  let tbl := mp (ioapic_off (maxintr + 1)) (fun _ => None) in
  let r := with_uart u ismp (mask_on IRQ_KBD irqmask0) (mp (ioapic_on IRQ_KBD 0) tbl) in
  let mask := mask_on IRQ_IDE r.1 in
  (if cbool ismp then mask else mask_on IRQ_TIMER mask, mp (ioapic_on IRQ_IDE (ncpu - 1)) r.2).

(** The machine [s'] is [s] with devices set up, on processor [b], with the interrupt table [idt]. *)
Record set_up (b mask : Z) (tbl : Z -> option Z) (idt : list gatedesc) (s s' : machine) : Prop := {
  su_k : kept (m_k s) (m_k s');
  su_ctl : irq_ctl mask tbl s';
  su_lapic : m_lapic s' = m_lapic s;
  su_ismp : m_ismp s' = m_ismp s;
  su_ncpu : m_ncpu s' = m_ncpu s;
  su_cpus : same_cpus s s';
  su_cpu : m_cpu s' = b;
  su_idt : m_idt s' = idt
}.

Lemma set_up_soft b mask tbl mask' tbl' idt s s1 s2 :
  set_up b mask tbl idt s s1 -> soft s1 s2 -> irq_ctl mask' tbl' s2 -> set_up b mask' tbl' idt s s2.
Proof.
  intros [] [] Hc. split; try congruence; [by eapply kept_trans|]. destruct su_cpus0 as [E1 E2]. split; [rewrite <- E1|rewrite <- E2]; unfold ids, started; by rewrite so_cpus.
Qed.

Lemma set_up_idt b mask tbl idt g s s1 k :
  set_up b mask tbl idt s s1 -> kept (m_k s1) k -> set_up b mask tbl g s (set_m_k k (set_m_idt g s1)).
Proof. intros [] Hk. split; [by eapply kept_trans|done..]. Qed.

Lemma wp_seginit b (Q : unit -> env machine -> machine -> Prop) e s :
  lapic_at (m_lapic s) b -> ifl (k_cpu (m_k s)) = false ->
  (forall tr cpus k, Forall quiet_io tr -> c_id <$> cpus = ids s -> c_started <$> cpus = started s -> kept (m_k s) k ->
     Q tt e (set_m_k k (set_m_cpu b (set_m_cpus cpus (set_m_io (m_io s ++ tr) s))))) ->
  wp (seginit sym_pc sym_kcpu) Q e s.
Proof.
  intros HL Hf HQ. destruct (cpunum_ok b sym_pc e s HL Hf) as (tr & Htr & E). unfold seginit. apply wp_bind. eapply wp_intro; [exact E|].
  apply wp_bind, wp_modify, wp_bind, wp_modify, wp_bind, wp_get, wp_kern, wp_modify. apply HQ; [done| | |].
  - unfold ids. simpl. rewrite (list_fmap_alter _ _ (fun x => x)) by (by apply Forall_forall). by apply list_alter_id.
  - unfold started. simpl. rewrite (list_fmap_alter _ _ (fun x => x)) by (by apply Forall_forall). by apply list_alter_id.
  - split; [by split|done..].
Qed.

(** The part of [main] from [lapicinit] to [timerinit], before [rest]. *)
Definition devices {A} (rest : Mach A) : Mach A :=
  lapicinit;;
  seginit sym_pc sym_kcpu;;
  id ← this_id;
  kern (cprintf (nl +:+ "cpu%d: starting xv6" +:+ nl +:+ nl) [CInt id]);;
  picinit;;
  ioapicinit;;
  boot_consoleinit;;
  uartinit;;
  kern pinit;;
  tvinit;;
  kern binit;;
  kern fileinit;;
  boot_ideinit;;
  mp ← get m_ismp;
  when (negb (cbool mp)) timerinit;;
  rest.

(** Up to the interrupt controllers, with everything disabled but the line between the two 8259As. *)
Lemma wp_controllers {A} maxintr id (m : Mach A) (Q : A -> env machine -> machine -> Prop) e s :
  m_irqmask s = irqmask0 -> (forall r, ioapic_reg (m_io s) r = None) -> irq_ok (m_k s) -> cons_ready (m_k s) -> ioapic_lines maxintr ->
  (forall s', soft s s' -> irq_ctl irqmask0 (if cbool (m_ismp s) then ioapic_off (maxintr + 1) (fun _ => None) else fun _ => None) s' -> wp m Q e s') ->
  wp (kern (cprintf (nl +:+ "cpu%d: starting xv6" +:+ nl +:+ nl) [CInt id]);; picinit;; ioapicinit;; m) Q e s.
Proof.
  intros Hmask Htbl Hi Hr Hioa HQ. destruct (kern_cprintf_soft (nl +:+ "cpu%d: starting xv6" +:+ nl +:+ nl) [CInt id] e s Hi Hr) as (c & E1 & S1 & _).
  apply wp_bind. eapply wp_intro; [exact E1|]. set (s1 := set_m_k _ s) in *.
  destruct (picinit_ok (fun _ => None) e s1) as (s2 & E2 & S2 & I2 & _); [change (m_irqmask s1) with (m_irqmask s); rewrite Hmask; vm_compute; split; congruence|done|].
  apply wp_bind. eapply wp_intro; [exact E2|]. assert (S12 : soft s s2) by by eapply soft_trans.
  pose proof (kp_base _ _ (so_k _ _ S12)) as B.
  destruct (ioapicinit_ok maxintr _ _ e s2 Hioa I2) as (s3 & E3 & S3 & _ & C3); [by eapply base_irq|by apply (kp_cons _ _ B)|].
  apply wp_bind. eapply wp_intro; [exact E3|]. apply HQ; [by eapply soft_trans|]. change (m_irqmask s1) with (m_irqmask s) in C3. by rewrite Hmask, (so_ismp _ _ S12) in C3.
Qed.

Lemma wp_devices {A} b u maxintr (rest : Mach A) (Q : A -> env machine -> machine -> Prop) e s :
  let R := routes u (m_ismp s) (m_ncpu s) maxintr in
  m_irqmask s = irqmask0 -> (forall r, ioapic_reg (m_io s) r = None) -> irq_ok (m_k s) -> ifl (k_cpu (m_k s)) = false -> cons_ready (m_k s) ->
  lapic_at (m_lapic s) b -> ioapic_lines maxintr -> uart_there u -> ide_answers -> fresh_bufs (m_k s) -> length (m_idt s) = 256%nat ->
  (forall s' idt, set_up b R.1 R.2 idt s s' -> idt_ready idt -> built_bufs (m_k s') ->
     unlocked L_ptable (m_k s') -> unlocked L_bcache (m_k s') -> wp rest Q e s') ->
  wp (devices rest) Q e s.
Proof.
  intros R Hmask Htbl Hi Hf Hr HL Hioa Hu Hide Hb Hidt HQ. unfold devices.
  apply wp_bind. eapply talks_wp; [by eapply talks_lapicinit|]. intros tr0 Htr0.
  apply wp_bind. eapply wp_seginit; [exact HL|done|]. intros tr1 cpus k1 Htr1 Hcids Hcpus Hk1. apply wp_bind, wp_get.
  match goal with |- wp (kern (cprintf _ [CInt ?x]) ≫= _) _ _ ?st => generalize x; set (s1 := st) end. intros id.
  assert (Htbl1 : forall r, ioapic_reg (m_io s1) r = None).
  { intros r. rewrite <- (Htbl r). unfold ioapic_reg, s1. cbn [m_io set_m_io set_m_cpus set_m_cpu set_m_k].
    destruct (quiet_run (m_io s ++ tr0) tr1 Htr1) as (_ & _ & ->). by destruct (quiet_run (m_io s) tr0 Htr0) as (_ & _ & ->). }
  eapply wp_controllers; [exact Hmask|done| |exact (kp_cons _ _ (kp_base _ _ Hk1) Hi Hr)|exact Hioa|].
  { by apply (base_irq _ _ (kp_base _ _ Hk1)). }
  intros s2 S2 C2. change (m_ismp s1) with (m_ismp s) in C2.
  assert (U2 : set_up b irqmask0 (if cbool (m_ismp s) then ioapic_off (maxintr + 1) (fun _ => None) else fun _ => None) (m_idt s) s s2).
  { destruct S2. split; [by eapply kept_trans|done..| |done|done]. unfold same_cpus, ids, started. by rewrite so_cpus. }
  clearbody s1. clear dependent s1. clear Hcids Hcpus Hk1 Htr0 Htr1.
  apply wp_bind. eapply wp_boot_consoleinit; [apply U2|]. intros s3 S3 C3. pose proof (set_up_soft _ _ _ _ _ _ _ _ _ U2 S3 C3) as U3.
  apply wp_bind. eapply wp_uartinit; [exact Hu|apply U3|]. intros s4 S4 C4 _. pose proof (set_up_soft _ _ _ _ _ _ _ _ _ U3 S4 C4) as U4.
  apply wp_bind, wp_initlock. intros s5 S5 Eio Em Ea _ Hpt. pose proof (irq_ctl_same _ _ _ _ C4 S5 Eio Em Ea) as C5.
  pose proof (set_up_soft _ _ _ _ _ _ _ _ _ U4 S5 C5) as U5.
  apply wp_bind, wp_tvinit; [by rewrite (su_idt _ _ _ _ _ _ U5)|]. intros g k6 Hg Hk6.
  pose proof (set_up_idt _ _ _ _ g _ _ _ U5 Hk6) as U6. set (s6 := set_m_k k6 _) in *. pose proof (su_ctl _ _ _ _ _ _ U6) as C6.
  assert (Hpt6 : unlocked L_ptable (m_k s6)) by (apply (kp_locks _ _ (kp_base _ _ Hk6)), Hpt).
  apply wp_bind. eapply wp_boot_binit; [exact C6|by apply (kp_fresh _ _ (kp_base _ _ (su_k _ _ _ _ _ _ U6)))|].
  intros s7 S7 C7 Hb7 Hbc7. pose proof (set_up_soft _ _ _ _ _ _ _ _ _ U6 S7 C7) as U7. clearbody s6.
  apply wp_bind, wp_initlock. intros s8 S8 Eio8 Em8 Ea8 _ _. pose proof (irq_ctl_same _ _ _ _ C7 S8 Eio8 Em8 Ea8) as C8.
  pose proof (set_up_soft _ _ _ _ _ _ _ _ _ U7 S8 C8) as U8.
  apply wp_bind. eapply wp_boot_ideinit; [exact Hide|exact C8|]. intros s9 S9 C9. pose proof (set_up_soft _ _ _ _ _ _ _ _ _ U8 S9 C9) as U9.
  assert (S79 : base (m_k s7) (m_k s9)) by (eapply base_trans; apply kp_base, so_k; eassumption).
  assert (Hb9 : built_bufs (m_k s9)) by (by apply (kp_built _ _ S79)).
  assert (Hpt9 : unlocked L_ptable (m_k s9)) by (apply (kp_locks _ _ S79), (kp_locks _ _ (kp_base _ _ (so_k _ _ S7))), Hpt6).
  assert (Hbc9 : unlocked L_bcache (m_k s9)) by (by apply (kp_locks _ _ S79)).
  apply wp_bind, wp_get. rewrite ?(su_ismp _ _ _ _ _ _ U2), ?(su_ismp _ _ _ _ _ _ U3), ?(su_ismp _ _ _ _ _ _ U8), ?(su_ncpu _ _ _ _ _ _ U8) in *.
  rewrite (su_ismp _ _ _ _ _ _ U9). subst R. unfold routes in HQ.
  destruct (cbool (m_ismp s)); cbn [negb when] in *.
  - apply wp_bind, wp_ret. by eapply HQ.
  - apply wp_bind. eapply wp_timerinit; [apply U9|]. intros s10 S10 C10. pose proof (set_up_soft _ _ _ _ _ _ _ _ _ U9 S10 C10) as U10.
    pose proof (kp_base _ _ (so_k _ _ S10)) as B10. eapply HQ; [exact U10|done|by apply (kp_built _ _ B10)|by apply (kp_locks _ _ B10)..].
Qed.

(** * The whole of [main] *)

(** The state that the kernel starts in: its variables as the loader has left them, interrupts off, and a console with a cursor on the screen. *)
Record powered_on (s : machine) : Prop := {
  po_free : freelist (k_kmem (m_k s)) = 0 /\ k_free_frame_cnt (m_k s) = 0;
  po_irq : irq_ok (m_k s) /\ ifl (k_cpu (m_k s)) = false;
  po_cons : cons_ok (k_cons (m_k s)) /\ locking (k_cons (m_k s)) = 0 /\ uart (k_cons (m_k s)) = 0;
  po_ptable : ptable_ok (m_k s) /\ pstate (proc_of 0 (m_k s)) = UNUSED;
  po_icache : unlocked L_icache (m_k s) /\ length (k_icache (m_k s)) = Z.to_nat NINODE /\ Forall unused (k_icache (m_k s));
  po_bufs : fresh_bufs (m_k s);
  po_vars : m_io s = [] /\ m_irqmask s = irqmask0 /\ m_ismp s = 0 /\ m_ncpu s = 0 /\ m_lapic s = 0;
  po_cpus : length (m_cpus s) = Z.to_nat NCPU /\ Forall (fun x => x = 0) (started s);
  po_idt : length (m_idt s) = 256%nat
}.

(** Room for the page table of the kernel, the stacks of the processors and the first process. *)
Definition image_fits : Prop :=
  (74 <= length first_pages)%nat /\ 0x7000 + Z.of_nat (length sym_entryother) <= EXTMEM /\ Z.of_nat (length sym_initcode) < PGSIZE.

(** [kinit2] adds the pages above 4 MB, which are enough for the first process. *)
Lemma wp_kinit2 (Q : unit -> env kernel -> kernel -> Prop) e k l :
  free_rep k l -> use_lock (k_kmem k) = 0 -> (forall p, p ∈ l -> p ∈ first_pages) ->
  (forall k' l', base k k' -> free_rep k' l' -> (69 <= length l')%nat -> Q tt e k') ->
  wp (kinit2 (p2v (4 * 1024 * 1024)) (p2v PHYSTOP)) Q e k.
Proof.
  intros Hf Hlk Hpg HQ. pose proof end_range as Hend. unfold kinit2.
  change (p2v (4 * 1024 * 1024)) with (KERNBASE + 4 * 1024 * 1024). change (p2v PHYSTOP) with (KERNBASE + PHYSTOP).
  apply wp_bind. eapply wp_mono; [eapply freerange_ok; [..|exact Hf|]|]; [lia|lia|lia| | |].
  { unfold kmem_ready. by rewrite Hlk. }
  { intros p Hp1 Hp2%Hpg. unfold first_pages in Hp2. rewrite elem_of_range_pages in Hp1, Hp2 by lia. lia. }
  intros _ e1 k1 (-> & Hf1 & Ho1 & _). apply wp_modify. eapply HQ.
  - eapply base_trans; [apply base_alloc, Ho1|apply base_kmem].
  - by eapply free_rep_ext; [..|exact Hf1].
  - rewrite length_app, length_reverse. unfold range_pages. rewrite length_fmap, length_seq, PGROUNDUP_eq by lia. mlia.
Qed.

Lemma wp_mpmain (Q : unit -> env machine -> machine -> Prop) e s :
  irq_ok (m_k s) -> cons_ready (m_k s) ->
  (forall c, kept (m_k s) (set_k_cons c (m_k s)) ->
     Q tt e (on_apcpu (m_cpu s) (set_c_started 1) (set_m_idtr true (set_m_k (set_k_cons c (m_k s)) s)))) -> wp mpmain Q e s.
Proof.
  intros Hi Hr HQ. unfold mpmain. apply wp_bind, wp_get.
  destruct (kern_cprintf_soft ("cpu%d: starting" +:+ nl) [CInt (default 0 (c_id <$> m_cpus s !! Z.to_nat (m_cpu s)))] e s Hi Hr) as (c & E & S & _).
  apply wp_bind. eapply wp_intro; [exact E|]. apply wp_bind, wp_modify, wp_modify. apply HQ, S.
Qed.

(** The end of [main], from [startothers] on. *)
Lemma wp_main_end b mask tbl s0 l e :
  irq_ok (m_k s0) -> cons_ready (m_k s0) -> use_lock (k_kmem (m_k s0)) = 0 -> ifl (k_cpu (m_k s0)) = false ->
  lapic_at (m_lapic s0) b -> (m_lapic s0 = 0 -> m_ncpu s0 <= 1) -> m_ncpu s0 <= Z.of_nat (length l) ->
  m_ncpu s0 <= Z.of_nat (length (m_cpus s0)) -> 0 <= b < Z.of_nat (length (m_cpus s0)) -> m_cpu s0 = b ->
  Forall (fun x => x = 0) (started s0) -> (m_lapic s0 <> 0 -> forall c, 0 <= c < m_ncpu s0 -> ids s0 !! Z.to_nat c = Some c) -> image_fits -> Forall2 (ap_up (m_lapic s0)) (other_cpus b 0 (m_ncpu s0)) e ->
  free_rep (m_k s0) l -> (forall p, p ∈ l -> p ∈ first_pages) -> irq_ctl mask tbl s0 ->
  unlocked L_kmem (m_k s0) -> unlocked L_ptable (m_k s0) -> unlocked L_icache (m_k s0) ->
  ptable_ok (m_k s0) -> pstate (proc_of 0 (m_k s0)) = UNUSED -> length (k_icache (m_k s0)) = Z.to_nat NINODE -> Forall unused (k_icache (m_k s0)) ->
  wp (startothers;; kern (kinit2 (p2v (4 * 1024 * 1024)) (p2v PHYSTOP));; kern userinit;; mpmain) (fun _ e' s' => e' = [] /\
    exists k c k' pd v l', base (m_k s0) k /\ first_process k k' pd v l' /\ m_k s' = set_k_cons c k' /\ irq_ctl mask tbl s' /\
      m_idt s' = m_idt s0 /\ m_idtr s' = true /\ forall j, 0 <= j < m_ncpu s0 -> started s' !! Z.to_nat j = Some 1) e s0.
Proof.
  intros Hi Hr Hlk Hfl HL HL0 Hl Hcp Hb Hbc Hst Hids (Hfit & Hent & Hini) Haps Hf Hpg Hc Hk Hp Hic Hpt Hun Hil Hiu.
  apply wp_bind. eapply (wp_startothers b mask tbl s0 l); try done.
  intros s1 l1 M1 Hsuf Hlen Hup. apply wp_bind, wp_kern. eapply wp_kinit2; [apply (md_free _ _ _ _ _ M1)| | |].
  { by rewrite (md_lock _ _ _ _ _ M1). }
  { intros p Hp1. apply Hpg. by eapply elem_of_suffix. }
  intros k2 l2 B2 Hf2 Hn2. pose proof (base_trans _ _ _ (md_base _ _ _ _ _ M1) B2) as B. apply wp_bind, wp_kern.
  eapply wp_mono; [apply (wp_userinit [] k2 l2)|].
  - by apply (base_ready _ _ _ B).
  - unfold ptable_ok. by rewrite (kp_ptable _ _ B).
  - unfold proc_of. by rewrite (kp_ptable _ _ B).
  - intros _. by apply (base_ready _ _ _ B).
  - done.
  - done.
  - by apply (base_ready _ _ _ B).
  - by rewrite (kp_icache _ _ B).
  - by rewrite (kp_icache _ _ B).
  - done.
  - intros [] e3 k3 (-> & pd & v & l3 & Hfp & _). apply wp_mpmain.
    { destruct (fp_rest _ _ _ _ _ Hfp) as (_ & E2 & _). pose proof (base_irq _ _ B Hi) as Hi2. cbn [m_k set_m_k]. unfold irq_ok. by rewrite E2. }
    { destruct (fp_rest _ _ _ _ _ Hfp) as (E1 & E2 & E3 & _). destruct (kp_cons _ _ B Hi Hr) as [Hck Hcl]. split; cbn [m_k set_m_k]; rewrite E1; [done|].
      intros Hx. destruct (Hcl Hx) as [Hci Hcu]. split; [unfold irq_ok; by rewrite E2|unfold unlocked; by rewrite E3]. }
    intros c _. split; [done|]. exists k2, c, k3, pd, v, l3. split; [done|]. split; [done|]. split; [done|]. split; [exact (md_ctl _ _ _ _ _ M1)|].
    split; [exact (md_idt _ _ _ _ _ M1)|]. split; [done|]. intros j Hj.
    change (started (on_apcpu _ _ _)) with (c_started <$> alter (set_c_started 1) (Z.to_nat (m_cpu s1)) (m_cpus s1)).
    rewrite (md_cpu _ _ _ _ _ M1), Hbc, (list_fmap_alter _ _ (fun _ => 1)) by (by apply Forall_forall). fold (started s1).
    destruct (decide (j = b)) as [->|Hne].
    + rewrite list_lookup_alter_eq. assert (exists x, started s1 !! Z.to_nat b = Some x) as [x ->]; [|done].
      apply lookup_lt_is_Some_2. rewrite Hlen. unfold started. rewrite length_fmap. lia.
    + rewrite list_lookup_alter_ne by lia. by apply Hup.
Qed.

(** Which interrupts the 8259As let through, and where the I/O APIC sends them. *)
Definition pic_open (u : bool) (ismp i : Z) : bool :=
  (i =? IRQ_SLAVE) || (i =? IRQ_KBD) || (u && (i =? IRQ_COM1)) || (i =? IRQ_IDE) || (negb (cbool ismp) && (i =? IRQ_TIMER)).

Definition ioapic_dest (u : bool) (ncpu i : Z) : option Z :=
  if i =? IRQ_KBD then Some 0 else if u && (i =? IRQ_COM1) then Some 0 else if i =? IRQ_IDE then Some (ncpu - 1) else None.

(** The controllers have been told so: the trace ends with the masks of the 8259As, and the registers of the I/O APIC have the
    vector of each interrupt, masked or not, and its processor. *)
Definition routed (u : bool) (ismp ncpu maxintr : Z) (h : list io) : Prop :=
  (exists lo hi, last_out (IO_PIC1 + 1) h = Some lo /\ last_out (IO_PIC2 + 1) h = Some hi /\
     forall i, 0 <= i < 8 -> Z.testbit lo i = negb (pic_open u ismp i) /\ Z.testbit hi i = negb (pic_open u ismp (i + 8))) /\
  (ismp <> 0 -> forall i, 0 <= i <= maxintr ->
     ioapic_reg h (REG_TABLE + 2 * i) = Some (if ioapic_dest u ncpu i is Some _ then T_IRQ0 + i else Z.lor INT_DISABLED (T_IRQ0 + i)) /\
     ioapic_reg h (REG_TABLE + 2 * i + 1) = Some (from_option (fun c => u32 (Z.shiftl c 24)) 0 (ioapic_dest u ncpu i))).

Lemma pic_bits u ismp ncpu maxintr i : 0 <= i < 8 ->
  Z.testbit (u8 (routes u ismp ncpu maxintr).1) i = negb (pic_open u ismp i) /\
  Z.testbit (u8 (Z.shiftr (routes u ismp ncpu maxintr).1 8)) i = negb (pic_open u ismp (i + 8)).
Proof.
  intros Hi. assert (i = 0 \/ i = 1 \/ i = 2 \/ i = 3 \/ i = 4 \/ i = 5 \/ i = 6 \/ i = 7) as Hc by lia.
  unfold routes, pic_open, with_uart. destruct u, (cbool ismp); cbn [fst snd]; destruct Hc as [->|[->|[->|[->|[->|[->|[->| ->]]]]]]]; by vm_compute.
Qed.

Lemma ioapic_on_at irq cpu tbl i :
  ioapic_on irq cpu tbl (REG_TABLE + 2 * i) = (if i =? irq then Some (u32 (T_IRQ0 + irq)) else tbl (REG_TABLE + 2 * i)) /\
  ioapic_on irq cpu tbl (REG_TABLE + 2 * i + 1) = (if i =? irq then Some (u32 (Z.shiftl cpu 24)) else tbl (REG_TABLE + 2 * i + 1)).
Proof. unfold ioapic_on. split; zif; done. Qed.

Lemma ioapic_off_at n tbl i : 0 <= i < n ->
  ioapic_off n tbl (REG_TABLE + 2 * i) = Some (Z.lor INT_DISABLED (T_IRQ0 + i)) /\ ioapic_off n tbl (REG_TABLE + 2 * i + 1) = Some 0.
Proof.
  intros Hi. unfold ioapic_off. change REG_TABLE with 16. split.
  - rewrite (proj2 (Z.leb_le _ _)), (proj2 (Z.ltb_lt _ _)) by lia. cbn [andb]. replace ((16 + 2 * i) mod 2) with 0 by (Z.div_mod_to_equations; lia).
    replace ((16 + 2 * i - 16) / 2) with i by (Z.div_mod_to_equations; lia). done.
  - rewrite (proj2 (Z.leb_le _ _)), (proj2 (Z.ltb_lt _ _)) by lia. cbn [andb]. replace ((16 + 2 * i + 1) mod 2) with 1 by (Z.div_mod_to_equations; lia). done.
Qed.

Lemma ioapic_regs u ismp ncpu maxintr i : ismp <> 0 -> 0 <= i <= maxintr -> maxintr < 256 ->
  (routes u ismp ncpu maxintr).2 (REG_TABLE + 2 * i) = Some (if ioapic_dest u ncpu i is Some _ then T_IRQ0 + i else Z.lor INT_DISABLED (T_IRQ0 + i)) /\
  (routes u ismp ncpu maxintr).2 (REG_TABLE + 2 * i + 1) = Some (from_option (fun c => u32 (Z.shiftl c 24)) 0 (ioapic_dest u ncpu i)).
Proof.
  intros H0' Hi Hm. unfold routes, with_uart. assert (cbool ismp = true) as -> by (unfold cbool; lia). cbn [fst snd].
  assert (Hu : u32 (T_IRQ0 + i) = T_IRQ0 + i) by (apply u32_small; change T_IRQ0 with 32; lia).
  destruct (ioapic_off_at (maxintr + 1) (fun _ => None) i) as [E1 E2]; [lia|]. unfold ioapic_dest. change IRQ_KBD with 1. change IRQ_COM1 with 4. change IRQ_IDE with 14.
  destruct u; cbn [fst snd andb]; rewrite ?(proj1 (ioapic_on_at _ _ _ _)), ?(proj2 (ioapic_on_at _ _ _ _)), E1, E2;
    destruct (Z.eqb_spec i 14) as [->|]; try done; destruct (Z.eqb_spec i 4) as [->|]; try done; destruct (Z.eqb_spec i 1) as [->|]; done.
Qed.

(** The hardware and the BIOS that a machine needs to boot. *)
Record hardware_ok (m : memory) (b : Z) (u : bool) (maxintr ismp ncpu L : Z) : Prop := {
  ho_bios : bios m ismp ncpu L;
  ho_lapic : lapic_at L b;
  ho_mp : ismp <> 0 -> L <> 0;
  ho_cpu : 0 <= b < NCPU;
  ho_ioapic : ioapic_lines maxintr;
  ho_uart : uart_there u;
  ho_ide : ide_answers
}.

Lemma bios_ncpu m ismp ncpu L : bios m ismp ncpu L -> 0 <= ncpu <= NCPU /\ (ismp = 0 -> ncpu <= 1).
Proof.
  intros [(_ & _ & -> & -> & _)|(conf & mp & es & _ & Hn & Hc)]; [vm_compute; split; [split|]; congruence|].
  destruct (in_order 0 (procs es)); destruct Hc as (-> & -> & _); [lia|]. vm_compute. split; [split|]; congruence.
Qed.

Lemma routed_ctl u ismp ncpu maxintr s : ioapic_lines maxintr ->
  irq_ctl (routes u ismp ncpu maxintr).1 (routes u ismp ncpu maxintr).2 s -> routed u ismp ncpu maxintr (m_io s).
Proof.
  intros Hl [(_ & H1' & H2' & H3') _]. split.
  - eexists _, _. split; [exact H1'|]. split; [exact H2'|]. intros i Hi. by apply pic_bits.
  - intros Hmp i Hi. rewrite !H3'. apply ioapic_regs; [done|done|]. rewrite <- (Hl []). change 0xFF with (Z.ones 8).
    rewrite Z.land_ones by lia. apply Z.mod_pos_bound. lia.
Qed.

(** The buffer cache is empty, and [userinit] has not used it. *)
Lemma boot_cache k k' c pd v l : first_process k k' pd v l -> built_bufs k -> irq_ok k -> unlocked L_bcache k -> unlocked L_ptable k -> ptable_ok k ->
  cache (set_k_cons c k') [] (fun x => disk_read x.1 x.2 (k_disk k)) ∅.
Proof.
  intros Hfp (lb & Hb & Hlb) Hi Hbc Hpt Hok. destruct (fp_rest _ _ _ _ _ Hfp) as (_ & E2 & E3 & E4 & E5). rewrite <- E5.
  apply (built_cache (set_k_cons c k') lb); simpl; [by rewrite E4|done|..].
  - split; [unfold irq_ok; simpl; by rewrite E2|unfold unlocked; simpl; by rewrite E3].
  - split; [unfold irq_ok; simpl; by rewrite E2|unfold unlocked; simpl; by rewrite E3].
  - unfold ptable_ok in *. simpl. pose proof (fp_others _ _ _ _ _ Hfp) as Ho. change (Z.to_nat NPROC) with 64%nat in *.
    assert (k_ptable k' !! 64%nat = None) as Hge%lookup_ge_None by (rewrite Ho by done; apply lookup_ge_None; lia).
    assert (is_Some (k_ptable k' !! 63%nat)) as Hlt%lookup_lt_is_Some by (rewrite Ho by done; apply lookup_lt_is_Some; lia). lia.
Qed.

(** [main] in three parts. *)
Lemma main_eq : main = (kern (kinit1 sym_end (p2v (4 * 1024 * 1024)));; kern kvmalloc;; mpinit;;
  devices (startothers;; kern (kinit2 (p2v (4 * 1024 * 1024)) (p2v PHYSTOP));; kern userinit;; mpmain)).
Proof. reflexivity. Qed.

(** The machine [s'] after [mpinit], from [s]; [l] is the free list. *)
Record found (ismp ncpu L : Z) (s s' : machine) (l : list Z) : Prop := {
  fd_base : base (m_k s) (m_k s');
  fd_free : free_rep (m_k s') l;
  fd_use : use_lock (k_kmem (m_k s')) = 0;
  fd_lock : unlocked L_kmem (m_k s');
  fd_pages : forall p, p ∈ l -> p ∈ first_pages;
  fd_count : (length first_pages <= length l + 65)%nat;
  fd_cons : cons_ready (m_k s');
  fd_ismp : m_ismp s' = ismp;
  fd_ncpu : m_ncpu s' = ncpu;
  fd_lapic : m_lapic s' = L;
  fd_mask : m_irqmask s' = irqmask0;
  fd_regs : forall r, ioapic_reg (m_io s') r = None;
  fd_ids : L <> 0 -> forall c, 0 <= c < ncpu -> ids s' !! Z.to_nat c = Some c;
  fd_started : started s' = started s;
  fd_idt : m_idt s' = m_idt s
}.

Lemma wp_boot_start {A} (m : Mach A) (Q : A -> env machine -> machine -> Prop) e s b u maxintr ismp ncpu L :
  powered_on s -> hardware_ok (k_mem (m_k s)) b u maxintr ismp ncpu L -> image_fits ->
  (forall s' l, found ismp ncpu L s s' l -> wp m Q e s') ->
  wp (kern (kinit1 sym_end (p2v (4 * 1024 * 1024)));; kern kvmalloc;; mpinit;; m) Q e s.
Proof.
  intros [] [] (Hpages & _ & _) HQ. destruct po_free0 as [Hfl Hcnt], po_irq0 as [Hirq Hif], po_cons0 as (Hco & Hlk & Hua), po_vars0 as (Hio & Hmask & Hmp & Hn & Hla).
  apply wp_boot_memory; [done|done|lia|]. intros k1 l1 P. pose proof (pg_base _ _ _ P) as B1.
  assert (Hr1 : cons_ready k1) by (apply (kp_cons _ _ B1); [done|]; split; [done|by rewrite Hlk]).
  destruct (mpinit_bios _ _ _ _ e (set_m_k k1 s) ho_bios0) as (s2 & c2 & E2 & Ek2 & Hr2 & ((tr & Etr & Htr) & Em2 & _ & Eidt2 & Est2) & Ei & En & El & Eid);
    [apply P|done|done|done|apply po_cpus0|done|].
  apply wp_bind. eapply wp_intro; [exact E2|]. apply (HQ s2 l1). split; try done; try apply P.
  - eapply base_trans; [exact B1|]. rewrite Ek2 in *. split; try done. by rewrite (pg_cons _ _ _ P), Hua.
  - rewrite Ek2. by eapply free_rep_ext; [..|apply P].
  - rewrite Ek2. apply P.
  - rewrite Ek2. exact (pg_lock _ _ _ P).
  - by rewrite Em2.
  - intros r. rewrite Etr. cbn [m_io set_m_k]. rewrite Hio. by destruct Htr as [->|[v ->]].
Qed.

(** C2: the kernel boots.  From the state the boot loader leaves, on a machine whose BIOS describes its processors or does
    not, [main] returns to the call of [scheduler]: there is exactly one new process, runnable, whose memory holds [initcode] and whose trap
    frame starts it in user mode; the interrupts of the keyboard, the serial port and the disk are enabled at the
    controllers that are there, and those of the 8253 timer only without a local APIC; the interrupt table is complete and loaded;
    the buffer cache is empty and shows the disk; and every processor of the table has started.  Of the other processors it is
    assumed only that one comes up after it has been called: when [startothers] has sent it the INIT and STARTUP
    interrupts for its number and 0x7000, and there is the code of entryother.S with its page directory, [mpenter] and a stack. *)
Theorem main_boots e s b u maxintr ismp ncpu L :
  powered_on s -> hardware_ok (k_mem (m_k s)) b u maxintr ismp ncpu L -> image_fits -> Forall2 (ap_up L) (other_cpus b 0 ncpu) e ->
  wp main (fun _ e' s' => e' = [] /\
    (exists k c k' pd v l, base (m_k s) k /\ first_process k k' pd v l /\ m_k s' = set_k_cons c k') /\
    routed u ismp ncpu maxintr (m_io s') /\ idt_ready (m_idt s') /\ m_idtr s' = true /\
    cache (m_k s') [] (fun x => disk_read x.1 x.2 (k_disk (m_k s))) ∅ /\
    forall j, 0 <= j < ncpu -> started s' !! Z.to_nat j = Some 1) e s.
Proof.
  intros Hpo Hho Hfit Haps. rewrite main_eq. eapply wp_boot_start; [exact Hpo|exact Hho|exact Hfit|]. intros s2 l1 F.
  destruct Hpo, Hho, po_irq0 as [Hirq Hif], po_cpus0 as [Hcpus Hst], (bios_ncpu _ _ _ _ ho_bios0) as [Hncpu Hone]. destruct F.
  rewrite <- fd_ismp0, <- fd_ncpu0, <- fd_lapic0 in *. rename fd_base0 into B2, fd_started0 into Hst2. pose proof Hfit as (Hpages & _ & _).
  assert (Hlen2 : length (started s2) = Z.to_nat NCPU) by (rewrite Hst2; unfold started; by rewrite length_fmap).
  eapply (wp_devices b u maxintr); [done|done|by eapply base_irq|by rewrite (kp_ifl _ _ B2)|done|done|done|done|done|by apply (kp_fresh _ _ B2)|by rewrite fd_idt0|].
  intros s3 idt U Hidt Hbu Hpt Hbc. pose proof (kp_base _ _ (su_k _ _ _ _ _ _ U)) as B23. pose proof (base_trans _ _ _ B2 B23) as B3.
  pose proof (free_rep_kept _ _ _ (su_k _ _ _ _ _ _ U) fd_free0) as Hf3.
  eapply wp_mono; [eapply (wp_main_end b _ _ s3 l1)|].
  all: rewrite ?(su_lapic _ _ _ _ _ _ U), ?(su_ncpu _ _ _ _ _ _ U), ?(proj2 (su_cpus _ _ _ _ _ _ U)), ?(proj1 (su_cpus _ _ _ _ _ _ U)), ?(kp_ifl _ _ B3), ?(kp_icache _ _ B3); try done.
  - by eapply base_irq.
  - by apply (kp_cons _ _ B23 (base_irq _ _ B2 Hirq)).
  - by rewrite (kp_kmem _ _ (su_k _ _ _ _ _ _ U)).
  - intros HL0. apply Hone. destruct (decide (m_ismp s2 = 0)) as [|Hne]; [done|]. by specialize (ho_mp0 Hne).
  - change NCPU with 8 in *. lia.
  - rewrite <- (length_fmap c_started). fold (started s3). rewrite (proj2 (su_cpus _ _ _ _ _ _ U)), Hlen2. lia.
  - rewrite <- (length_fmap c_started). fold (started s3). rewrite (proj2 (su_cpus _ _ _ _ _ _ U)), Hlen2. lia.
  - apply U.
  - by rewrite Hst2.
  - apply U.
  - by apply (kp_locks _ _ B23).
  - apply (kp_locks _ _ B3), po_icache0.
  - unfold ptable_ok. rewrite (kp_ptable _ _ B3). apply po_ptable0.
  - unfold proc_of. rewrite (kp_ptable _ _ B3). apply po_ptable0.
  - apply po_icache0.
  - apply po_icache0.
  - intros [] e4 s4 (-> & k & c & k' & pd & v & l' & Bk & Hfp & Ek & Hctl & Ei & Eid & Hup). pose proof (base_trans _ _ _ B3 Bk) as Bk0.
    split; [done|]. split; [by exists k, c, k', pd, v, l'|]. split; [by apply routed_ctl|]. rewrite Ei, (su_idt _ _ _ _ _ _ U).
    split; [done|]. split; [done|]. split; [|done]. rewrite Ek, <- (kp_disk _ _ Bk0). eapply boot_cache; [exact Hfp|..].
    + by apply (kp_built _ _ Bk).
    + by eapply base_irq.
    + by apply (kp_locks _ _ Bk).
    + by apply (kp_locks _ _ Bk).
    + unfold ptable_ok. rewrite (kp_ptable _ _ Bk0). apply po_ptable0.
Qed.

End boot.

Lemma alter_const (l : list Z) i v : (i < length l)%nat -> alter (fun _ => v) i l = <[i := v]> l.
Proof.
  intros Hi. apply list_eq. intros j. destruct (decide (j = i)) as [->|Hne].
  - rewrite list_lookup_alter_eq, list_lookup_insert_eq by done. destruct (lookup_lt_is_Some_2 l i Hi) as [x ->]. done.
  - by rewrite list_lookup_alter_ne, list_lookup_insert_ne.
Qed.

(** * What the other processors do

    A processor starts at [mpenter] with its own registers and interrupt flag, and shares everything else; its local APIC answers it with its
    own number, so that the devices it sees are an instance of [Hardware] of its own. *)

Section ap.
Context `{Symbols} {Hsym : SymbolsOk} `{Driver} `{DevSw} `{Hardware} `{Startup}.

Definition ap_cpu : cpu_t := mkCpu 0 0 false false None 0 0 0.

Definition on_ap (s : machine) : machine := set_m_idtr false (set_m_k (set_k_cpu ap_cpu (m_k s)) s).

(** Back on the processor of [s]. *)
Definition off_ap (s s' : machine) : machine :=
  set_m_idtr (m_idtr s) (set_m_cpu (m_cpu s) (set_m_k (set_k_cpu (k_cpu (m_k s)) (m_k s')) s')).

Definition ap_run (s : machine) : machine :=
  match mpenter [] (on_ap s) with Done _ _ s' => off_ap s s' | _ => s end.

Lemma kept_cpu c k k' : irq_ok (set_k_cpu c k) -> kept (set_k_cpu c k) k' -> kept k (set_k_cpu (k_cpu k) k').
Proof.
  intros Hi [[] ]. split; [split|..]; try done. intros Hik [Hc Hl]. destruct kp_cons as [Hc' Hl']; [done|split; [done|]|].
  - intros Hx. split; [done|]. by apply Hl.
  - split; [done|]. intros Hx. split; [done|]. by destruct (Hl' Hx).
Qed.

(** [mpenter] is such a start, for a processor whose local APIC gives it the number [c]. *)
Lemma ap_run_up L c : lapic_at L c -> ap_up L c ap_run.
Proof.
  intros HL s Hi Hr El Hc _.
  assert (Hw : wp mpenter (fun _ _ s' => ap_step c s (off_ap s s')) [] (on_ap s)); [|unfold ap_run, wp in *; by destruct (mpenter [] (on_ap s))].
  assert (Hr' : cons_ready (m_k (on_ap s))) by (destruct Hr as [Hc1 Hl1]; split; [done|]; intros Hx; split; [done|]; by apply (Hl1 Hx)).
  unfold mpenter. apply wp_bind, wp_kern. unfold switchkvm, lcr3. apply wp_bind, wp_get. apply wp_modify. set (s1 := set_m_k _ (on_ap s)).
  assert (K1 : kept (m_k (on_ap s)) (m_k s1)) by (split; [by split|done..]).
  apply wp_bind. eapply (wp_seginit c); [by rewrite <- El in HL|done|]. intros tr2 cpus k2 Htr2 Hcids Hcpus K2. set (s2 := set_m_k k2 _).
  assert (K02 : kept (m_k (on_ap s)) k2) by by eapply kept_trans.
  apply wp_bind. eapply talks_wp; [apply (talks_lapicinit c); by rewrite <- El in HL|]. intros tr3 Htr3.
  apply wp_mpmain; [by apply (base_irq _ _ (kp_base _ _ K02))|by apply (kp_cons _ _ (kp_base _ _ K02))|]. intros k3 K3. split.
  - apply (kept_cpu ap_cpu); [done|]. eapply kept_trans; [exact K02|exact K3].
  - exists (tr2 ++ tr3). split; [by rewrite app_assoc|by apply Forall_app].
  - done.
  - change (ids (off_ap s (on_apcpu _ _ _))) with (c_id <$> alter (set_c_started 1) (Z.to_nat c) cpus).
    rewrite (list_fmap_alter _ _ (fun x => x)), Hcids by (by apply Forall_forall). by apply list_alter_id.
  - change (started (off_ap s (on_apcpu _ _ _))) with (c_started <$> alter (set_c_started 1) (Z.to_nat c) cpus).
    rewrite (list_fmap_alter _ _ (fun _ => 1)), Hcpus by (by apply Forall_forall). change (started s1) with (started s). by apply alter_const.
Qed.

End ap.

(** * A machine with two processors *)

#[local] Existing Instance built_symbols.

#[local] Existing Instance console_devsw.

(** A disk that is ready, an I/O APIC with 24 interrupts, a serial port, and processor 0. *)
Definition mb_hardware : Hardware := {|
  answer := fun _ x =>
    match x with
    | In8 p => if p =? 0x1f7 then 0x40 else 0
    | Ld32 a => if a =? IOAPIC + 16 then 0x170000 else 0
    | _ => 0
    end;
  patience := 1
|}.
#[local] Existing Instance mb_hardware.

Definition mb_startup : Startup := {|
  sym_kcpu := fun i => 0x80113360 + 188 * i; sym_mpenter := 0x80103866; sym_entrypgdir := 0x8010b000; sym_pc := 0x80103900;
  sym_entryother := replicate 138 0x90
|}.
#[local] Existing Instance mb_startup.

Definition mb_machine : machine :=
  mkMachine (set_k_locks {[ L_icache := mkLock 0 "" None ]} (set_k_mem (mpw_mem mpw_table) boot_state)) [] irqmask0 0 0 0 0 0 0 0
    (replicate 8 (mkApcpu 0 [] 0)) 0 (replicate 256 (mkGatedesc 0 0 0 0 0 0 0 0 0)) false.

(** The same devices as the second processor sees them. *)
Definition mb_hardware1 : Hardware := {|
  answer := fun h x => match x with Ld32 a => if a =? 0xFEE00020 then 0x1000000 else @answer mb_hardware h x | _ => @answer mb_hardware h x end;
  patience := 1
|}.

Definition mb_ap : machine -> machine := @ap_run mb_hardware1 mb_startup.

Lemma mb_ap_up : ap_up 0xFEE00000 1 mb_ap.
Proof.
  eapply ap_run_up. right. split; [done|]. split; [by right|]. split; [done|]. intros h. exists 0%nat. split; [vm_compute; lia|done].
Qed.

Lemma mb_powered_on : powered_on mb_machine.
Proof.
  split.
  - done.
  - split; [|done]. by vm_compute.
  - vm_compute. intuition congruence.
  - split; by vm_compute.
  - split; [by exists ""%string|]. split; [by vm_compute|]. by apply Forall_replicate.
  - split; [by vm_compute|]. intros b. unfold buf_of. cbn [m_k mb_machine k_bcache set_k_locks set_k_mem boot_state].
    destruct (replicate _ zero_buf !! b) as [q|] eqn:E; [|done]. by apply lookup_replicate in E as [-> _].
  - done.
  - split; [done|]. repeat constructor.
  - by vm_compute.
Qed.

Lemma mb_hardware_ok : hardware_ok (k_mem (m_k mb_machine)) 0 true 23 1 2 0xFEE00000.
Proof.
  split; [|right|done|vm_compute; split; congruence|done|done|].
  - right. exists 0x8009FC10, 0x8009FC00, [EProc 0 3; EProc 1 1; EOther 1; EIoApic 2]. split; [|by vm_compute].
    split; [vm_compute; intuition congruence|exact mpw_tables|vm_compute; intuition congruence..].
  - split; [done|]. split; [by right|]. split; [done|]. intros h. exists 0%nat. split; [vm_compute; lia|done].
  - intros h. exists 0%nat. split; [vm_compute; lia|done].
Qed.

Lemma mb_fits : image_fits.
Proof. split; [|split]; [|by vm_compute|by vm_compute]. unfold first_pages, range_pages. rewrite length_fmap, length_seq. vm_compute. lia. Qed.

Lemma mb_aps : Forall2 (ap_up 0xFEE00000) (other_cpus 0 0 2) [mb_ap].
Proof. replace (other_cpus 0 0 2) with [1] by (by vm_compute). constructor; [apply mb_ap_up|constructor]. Qed.

Lemma main_boots_witness : exists s', main [mb_ap] mb_machine = Done tt [] s' /\
  routed true 1 2 23 (m_io s') /\ started s' !! 1%nat = Some 1 /\ cache (m_k s') [] (fun x => disk_read x.1 x.2 (k_disk (m_k mb_machine))) ∅.
Proof.
  pose proof (main_boots [mb_ap] mb_machine 0 true 23 1 2 0xFEE00000 mb_powered_on mb_hardware_ok mb_fits mb_aps) as Hw.
  apply wp_elim in Hw as (t & e' & s' & E & He & _ & Hr & _ & _ & Hc & Hup). destruct t. rewrite He in E.
  exists s'. split; [exact E|]. split; [exact Hr|]. split; [exact (Hup 1 ltac:(lia))|exact Hc].
Defined.
