(* ===== verification/Ulib.v ===== *)
(** The library of the user programs: the string functions of ulib.c and the formatted output of
    printf.c.

    Strings are lists of character codes without the terminating NUL; an array that is written
    is the list of its elements.  Output is the list of the characters written to the
    file descriptor. *)

From S2P Require Import Prelude Params Mem State Spinlock Console.

(** * ulib.c *)

(** [while(( *s++ = *t++) != 0)]: the array [s] afterwards. *)
Definition strcpy (s t : list Z) : list Z := (t ++ [0]) ++ drop (length t + 1) s.

Fixpoint strcmp (p q : list Z) : Z :=
  match p, q with
  | c :: p', d :: q' => if c =? d then strcmp p' q' else u8 c - u8 d
  | c :: _, [] => u8 c
  | [], d :: _ => - u8 d
  | [], [] => 0
  end.

Definition ustrlen (s : list Z) : Z := u32 (s32 (Z.of_nat (length s))).

(** The string ends at the first NUL of the array. *)
Fixpoint strchr (s : list Z) (c : Z) : option nat :=
  match s with
  | [] => None
  | x :: s' => if x =? 0 then None else if x =? c then Some 0%nat else S <$> strchr s' c
  end.

(** The loop of [gets]: [i] characters are stored, [input] is what [read] returns one
    character at a time.  Returns the characters stored and the rest of the input. *)
Fixpoint gets_loop (max i : Z) (input : list Z) : list Z * list Z :=
  if i + 1 <? max then
    match input with
    | [] => ([], [])
    | c :: input' =>
        if (c =? 10) || (c =? 13) then ([c], input')
        else let '(s, rest) := gets_loop max (i + 1) input' in (c :: s, rest)
    end
  else ([], input).

(** [buf] afterwards, as the characters before the NUL, and the rest of the input. *)
Definition gets (max : Z) (input : list Z) : list Z * list Z := gets_loop max 0 input.

Definition is_digit (c : Z) : bool := (chr "0" <=? c) && (c <=? chr "9").

Fixpoint atoi_loop (n : Z) (s : list Z) : Z :=
  match s with
  | c :: s' => if is_digit c then atoi_loop (s32 (n * 10 + c - chr "0")) s' else n
  | [] => n
  end.
Definition atoi (s : list Z) : Z := atoi_loop 0 s.

(** [while(n-- > 0) *dst++ = *src++], upwards byte by byte, whether or not the arrays overlap. *)
Fixpoint umemmove (m : memory) (dst src : Z) (n : nat) : memory :=
  match n with
  | O => m
  | S n' => umemmove (st8 m dst (ld8 m src)) (u32 (dst + 1)) (u32 (src + 1)) n'
  end.

(** * printf.c *)

(** The loop of [printf] over the format; [after_percent] is [state == '%']. *)
Fixpoint printf_loop (fmt : list Z) (after_percent : bool) (args : list carg) : list Z :=
  match fmt with
  | [] => []
  | c :: fmt' =>
      if negb after_percent then
        if c =? chr "%" then printf_loop fmt' true args else c :: printf_loop fmt' false args
      else
        let next_int := match args with CInt x :: _ => x | _ => 0 end in
        if c =? chr "d" then printint true (s32 next_int) 10 true ++ printf_loop fmt' false (tail args)
        else if (c =? chr "x") || (c =? chr "p") then
          printint true (s32 next_int) 16 false ++ printf_loop fmt' false (tail args)
        else if c =? chr "s" then
          (match args with CStr t :: _ => t | _ => str "(null)" end) ++ printf_loop fmt' false (tail args)
        else if c =? chr "c" then u8 next_int :: printf_loop fmt' false (tail args)
        else if c =? chr "%" then chr "%" :: printf_loop fmt' false args
        else chr "%" :: c :: printf_loop fmt' false args
  end.
Definition printf (fmt : list Z) (args : list carg) : list Z := printf_loop fmt false args.

(** * Numbers survive printing and reading *)

Lemma digits_range d : 0 <= d < 10 -> digits true d = chr "0" + d /\ is_digit (digits true d) = true.
Proof.
  intros Hd. unfold digits, is_digit. destruct (d <? 10) eqn:E; [|lia]. split; [done|].
  change (chr "0") with 48. change (chr "9") with 57. lia.
Qed.

Lemma atoi_digits fuel : forall x n rest,
  0 <= n -> 0 <= x < 10 ^ Z.of_nat fuel ->
  n * 10 ^ Z.of_nat (length (digit_loop true x 10 fuel)) + x < 2147483648 ->
  atoi_loop n (rev (digit_loop true x 10 fuel) ++ rest) =
  atoi_loop (n * 10 ^ Z.of_nat (length (digit_loop true x 10 fuel)) + x) rest.
Proof.
  induction fuel as [|fuel IH]; intros x n rest Hn Hx Hmax.
  { simpl in *. f_equal. lia. }
  cbn [digit_loop] in *. destruct (digits_range (x mod 10)) as [Ed Hd]; [apply Z.mod_pos_bound; lia|].
  assert (Hlast : forall k, 0 <= k -> k * 10 + x mod 10 < 2147483648 ->
    atoi_loop k (digits true (x mod 10) :: rest) = atoi_loop (k * 10 + x mod 10) rest).
  { intros k Hk Hlt. cbn [atoi_loop]. rewrite Hd, Ed. f_equal. pose proof (Z.mod_pos_bound x 10 ltac:(lia)).
    rewrite s32_small; lia. }
  cbv zeta in *. destruct (x / 10 =? 0) eqn:E.
  - simpl rev. cbn [length app] in *. change (10 ^ Z.of_nat 1) with 10 in *.
    assert (x mod 10 = x) by mlia. rewrite Hlast by lia. f_equal. lia.
  - cbn [rev length] in *. rewrite Nat2Z.inj_succ, Z.pow_succ_r in * by lia.
    set (p := 10 ^ Z.of_nat (length (digit_loop true (x / 10) 10 fuel))) in *.
    assert (Hnp : 0 <= n * p) by (apply Z.mul_nonneg_nonneg; [done|apply Z.pow_nonneg; lia]).
    assert (Enp : n * (10 * p) = 10 * (n * p)) by ring. rewrite Enp in *.
    assert (Hx10 : 0 <= x / 10 < 10 ^ Z.of_nat fuel).
    { split; [apply Z.div_pos; lia|]. apply Z.div_lt_upper_bound; lia. }
    pose proof (Z.div_mod x 10 ltac:(lia)) as Hdm. pose proof (Z.mod_pos_bound x 10 ltac:(lia)) as Hm.
    rewrite <- app_assoc. cbn [app]. rewrite IH; [|done|done|fold p; lia]. fold p.
    rewrite Hlast by lia. f_equal. lia.
Qed.

(** A number that is not negative and was printed with [printint] in base 10 is read back by [atoi], whatever
    follows it that is not a digit. *)
Lemma atoi_printint x rest :
  0 <= x < 2147483648 -> (forall c, head rest = Some c -> is_digit c = false) ->
  atoi (printint true x 10 true ++ rest) = x.
Proof.
  intros Hx Hrest. unfold printint. rewrite (proj2 (Z.ltb_ge x 0)) by lia. cbn [andb].
  rewrite app_nil_r, u32_small by lia. unfold atoi. rewrite atoi_digits; [|lia|by split; [lia|eapply Z.lt_trans; [apply Hx|]]|lia].
  replace (0 * _ + x) with x by lia. destruct rest as [|c rest]; [done|]. cbn [atoi_loop].
  by rewrite (Hrest c eq_refl).
Qed.

(** [strcmp] is 0 exactly for equal strings. *)
Lemma strcmp_eq p q :
  Forall (fun c => 0 < c < 256) p -> Forall (fun c => 0 < c < 256) q -> strcmp p q = 0 <-> p = q.
Proof.
  intros Hp. revert q. induction Hp as [|c p Hc _ IH]; intros [|d q] Hq; cbn [strcmp]; [done|..].
  - apply Forall_cons in Hq as [Hd _]. split; [|done]. unfold u8. rewrite Z.mod_small; lia.
  - split; [|done]. unfold u8. rewrite Z.mod_small; lia.
  - apply Forall_cons in Hq as [Hd Hq]. destruct (c =? d) eqn:E.
    + rewrite IH by done. assert (c = d) as -> by lia. split; [by intros ->|congruence].
    + unfold u8. rewrite !Z.mod_small by lia. split; [lia|]. intros [= -> ->]. lia.
Qed.

Lemma atoi_printint_witness : atoi (printint true 2026 10 true ++ str " frames") = 2026.
Proof. exact (atoi_printint 2026 (str " frames") ltac:(lia) ltac:(by intros c [= <-])). Defined.
