(* ===== verification/Grep.v ===== *)
(** grep.c: the regular expression matcher and the loop over the lines of the input.

    Strings are lists of character codes without the terminating NUL.  The input arrives
    through [read] in pieces: a list of chunks, of which a call returns as much of the
    first as it asks for. *)

From S2P Require Import Prelude Params Mem State Spinlock Console Ulib.

(** * The matcher *)

Definition star : Z := chr "*".
Definition dot : Z := chr ".".
Definition dollar : Z := chr "$".
Definition hat : Z := chr "^".
Definition newline : Z := 10.

(** matchstar: search for c*re at beginning of text; [here] is [matchhere re]. *)
Fixpoint matchstar (c : Z) (here : list Z -> bool) (text : list Z) : bool :=
  if here text then true
  else match text with
       | [] => false
       | t :: text' => if (t =? c) || (c =? dot) then matchstar c here text' else false
       end.

(** matchhere: search for re at beginning of text *)
Fixpoint matchhere (re text : list Z) : bool :=
  match re with
  | [] => true
  | c :: re1 =>
      let plain :=
        if (c =? dollar) && bool_decide (re1 = []) then bool_decide (text = [])
        else match text with
             | t :: text' => if (c =? dot) || (c =? t) then matchhere re1 text' else false
             | [] => false
             end in
      match re1 with
      | d :: re2 => if d =? star then matchstar c (matchhere re2) text else plain
      | [] => plain
      end
  end.

(** The loop of [match], which must look at the empty string. *)
Fixpoint match_from (re text : list Z) : bool :=
  if matchhere re text then true
  else match text with
       | [] => false
       | _ :: text' => match_from re text'
       end.

Definition grep_match (re text : list Z) : bool :=
  match re with
  | c :: re1 => if c =? hat then matchhere re1 text else match_from re text
  | [] => match_from re text
  end.

(** ** What the patterns mean *)

Inductive atom := Lit (c : Z) | Any.
Inductive item := One (a : atom) | Star (a : atom) | End.

Definition accepts (a : atom) (t : Z) : Prop := match a with Lit c => t = c | Any => True end.

(** A pattern without its leading [^] as a sequence of items. *)
Definition atom_of (c : Z) : atom := if c =? dot then Any else Lit c.
Fixpoint items (re : list Z) : list item :=
  match re with
  | [] => []
  | c :: re1 =>
      match re1 with
      | d :: re2 => if d =? star then Star (atom_of c) :: items re2 else One (atom_of c) :: items re1
      | [] => [if c =? dollar then End else One (atom_of c)]
      end
  end.

(** Some beginning of the text is in the language of the items. *)
Inductive begins : list item -> list Z -> Prop :=
| begins_nil text : begins [] text
| begins_one a its t text : accepts a t -> begins its text -> begins (One a :: its) (t :: text)
| begins_star a its pre text : Forall (accepts a) pre -> begins its text -> begins (Star a :: its) (pre ++ text)
| begins_end : begins [End] [].

Lemma accepts_atom c t : accepts (atom_of c) t <-> (t =? c) || (c =? dot) = true.
Proof. unfold atom_of, accepts. destruct (c =? dot) eqn:E; [|]; lia. Qed.

Lemma matchstar_spec c here its :
  (forall text, here text = true <-> begins its text) ->
  forall text, matchstar c here text = true <-> begins (Star (atom_of c) :: its) text.
Proof.
  intros Hh text. assert (Hz : forall text, begins its text -> begins (Star (atom_of c) :: its) text).
  { intros x Hx. by apply (begins_star _ _ []). }
  assert (Hs : forall a its0 text0, begins (Star a :: its0) text0 ->
    exists pre post, text0 = pre ++ post /\ Forall (accepts a) pre /\ begins its0 post).
  { intros a its0 text0 Hb. inversion Hb; subst. by do 2 eexists. }
  induction text as [|t text IH]; cbn [matchstar].
  - destruct (here []) eqn:E; [split; [|done]; intros _; by apply Hz, Hh|]. split; [done|].
    intros ([|? ?] & post & E' & _ & Hb)%Hs; [|done]. simpl in E'. subst. apply Hh in Hb. congruence.
  - destruct (here (t :: text)) eqn:E; [split; [|done]; intros _; by apply Hz, Hh|].
    destruct (_ || _) eqn:Et.
    + rewrite IH. split.
      * intros (pre & post & -> & Hp & Hb)%Hs. apply (begins_star _ _ (t :: pre)); [|done].
        constructor; [by apply accepts_atom|done].
      * intros ([|? pre] & post & E' & Hp & Hb)%Hs; simpl in E'; simplify_eq.
        -- apply Hh in Hb. congruence.
        -- apply Forall_cons in Hp as [_ Hp]. by apply begins_star.
    + split; [done|]. intros ([|? pre] & post & E' & Hp & Hb)%Hs; simpl in E'; simplify_eq.
      * apply Hh in Hb. congruence.
      * apply Forall_cons in Hp as [Hp _]. apply accepts_atom in Hp. congruence.
Qed.

Lemma matchhere_spec re : forall text, matchhere re text = true <-> begins (items re) text.
Proof.
  induction re as [re IH] using (well_founded_induction (well_founded_ltof _ length)). unfold ltof in IH.
  destruct re as [|c re1]; intros text; [split; [constructor|done]|].
  assert (Hone : forall its, (forall t, matchhere re1 t = true <-> begins its t) ->
    match text with t :: text' => if (c =? dot) || (c =? t) then matchhere re1 text' else false | [] => false end = true <->
    begins (One (atom_of c) :: its) text).
  { intros its Hits. destruct text as [|t text]; [split; [done|]; inversion 1|].
    assert (Ea : (c =? dot) || (c =? t) = true <-> accepts (atom_of c) t).
    { rewrite accepts_atom. lia. }
    destruct (_ || _) eqn:E.
    - rewrite Hits. split; [intros Hb; constructor; [by apply Ea|done]|]. by inversion 1.
    - split; [done|]. inversion 1; subst. destruct Ea as [_ Ea]. by rewrite Ea in *. }
  destruct re1 as [|d re2]; cbn [matchhere items].
  - destruct (c =? dollar) eqn:Ec; cbn [andb].
    + rewrite bool_decide_true by done. rewrite bool_decide_eq_true. split; [intros ->; constructor|]. by inversion 1.
    + apply Hone. intros t. split; [constructor|done].
  - destruct (d =? star) eqn:Ed.
    + apply matchstar_spec. intros t. apply IH. simpl. lia.
    + rewrite bool_decide_false, andb_false_r by done. apply Hone. intros t. apply IH. simpl. lia.
Qed.

Lemma match_from_spec re text :
  match_from re text = true <-> exists pre post, text = pre ++ post /\ begins (items re) post.
Proof.
  induction text as [|t text IH]; cbn [match_from]; destruct (matchhere re _) eqn:E.
  - split; [|done]. intros _. exists [], []. split; [done|]. by apply matchhere_spec.
  - split; [done|]. intros ([|? ?] & post & E' & Hb); [|done]. simpl in E'. subst. apply matchhere_spec in Hb. congruence.
  - split; [|done]. intros _. exists [], (t :: text). split; [done|]. by apply matchhere_spec.
  - rewrite IH. split; intros (pre & post & E' & Hb).
    + exists (t :: pre), post. by subst.
    + destruct pre as [|t' pre]; simpl in E'; simplify_eq.
      * apply matchhere_spec in Hb. congruence.
      * by exists pre, post.
Qed.

(** C33: The matcher is correct: [match] succeeds exactly when the text, or with a leading [^] its
    beginning, has a substring in the language of the pattern, for the operators [.], [*] and
    a final [$]; it returns for every pattern and text. *)
Theorem grep_match_spec re text :
  grep_match re text = true <->
  match re with
  | c :: re1 =>
      if c =? hat then begins (items re1) text
      else exists pre post, text = pre ++ post /\ begins (items re) post
  | [] => True
  end.
Proof.
  destruct re as [|c re1]; cbn [grep_match].
  - split; [done|]. intros _. apply match_from_spec. exists [], text. split; [done|constructor].
  - destruct (c =? hat); [apply matchhere_spec|apply match_from_spec].
Qed.

(** * The input *)

(** The inner loop of [grep]: the complete lines of the buffer from [p] on.  Returns what is left
    and the output. *)
Fixpoint scan (fuel : nat) (pattern p out : list Z) : list Z * list Z :=
  match fuel with
  | O => (p, out)
  | S fuel' =>
      match strchr p newline with
      | None => (p, out)
      | Some q =>
          let line := take q p in
          scan fuel' pattern (drop (S q) p)
            (if grep_match pattern line then out ++ line ++ [newline] else out)
      end
  end.

(** [read(fd, buf+m, want)]: the bytes, and the chunks that remain. *)
Definition read (want : nat) (chunks : list (list Z)) : list Z * list (list Z) :=
  match chunks with
  | [] => ([], [])
  | c :: cs => (take want c, if decide (drop want c = []) then cs else drop want c :: cs)
  end.

Definition BUFSIZE : nat := 1024.

(** The outer loop: [b] is [buf[0..m)]. *)
Fixpoint grep (fuel : nat) (pattern b : list Z) (chunks : list (list Z)) (out : list Z) : option (list Z) :=
  match fuel with
  | O => None
  | S fuel' =>
      let '(got, chunks) := read (BUFSIZE - length b - 1) chunks in
      if decide (got = []) then Some out
      else
        let b := b ++ got in
        let '(p, out) := scan (length b) pattern b out in
        let b := if (length p =? length b)%nat then [] else p in
        grep fuel' pattern b chunks out
  end.

Definition total (chunks : list (list Z)) : nat := length (concat chunks).

(** ** What grep prints *)

(** The complete lines of a text, and what follows the last of them. *)
Fixpoint lines (text : list Z) : list (list Z) * list Z :=
  match text with
  | [] => ([], [])
  | c :: text' =>
      let '(ls, rest) := lines text' in
      if c =? newline then ([] :: ls, rest)
      else match ls with
           | l :: ls' => ((c :: l) :: ls', rest)
           | [] => ([], c :: rest)
           end
  end.

Definition print (pattern : list Z) (ls : list (list Z)) : list Z :=
  concat ((fun l => if grep_match pattern l then l ++ [newline] else []) <$> ls).

Definition no_nl (l : list Z) : Prop := newline ∉ l.
Definition no_nul (l : list Z) : Prop := 0 ∉ l.

Lemma lines_app l text : no_nl l -> lines (l ++ newline :: text) = (l :: (lines text).1, (lines text).2).
Proof.
  induction l as [|c l IH]; intros Hl; cbn [lines app].
  - destruct (lines text). by rewrite Z.eqb_refl.
  - apply not_elem_of_cons in Hl as [Hc Hl]. rewrite IH by done. by rewrite (proj2 (Z.eqb_neq _ _)) by congruence.
Qed.

Lemma lines_none l : no_nl l -> lines l = ([], l).
Proof.
  induction l as [|c l IH]; intros Hl; [done|]. apply not_elem_of_cons in Hl as [Hc Hl]. cbn [lines].
  rewrite IH by done. by rewrite (proj2 (Z.eqb_neq _ _)) by congruence.
Qed.

Lemma first_line text : newline ∈ text -> exists l rest, text = l ++ newline :: rest /\ no_nl l.
Proof.
  induction text as [|c text IH]; intros Hin; [by apply not_elem_of_nil in Hin|].
  destruct (decide (c = newline)) as [->|Hc]; [by exists [], text; split; [|apply not_elem_of_nil]|].
  apply elem_of_cons in Hin as [|Hin]; [congruence|]. destruct (IH Hin) as (l & rest & -> & Hl).
  exists (c :: l), rest. split; [done|]. by apply not_elem_of_cons.
Qed.

Lemma strchr_line l rest : no_nl l -> no_nul l -> strchr (l ++ newline :: rest) newline = Some (length l).
Proof.
  induction l as [|c l IH]; intros Hl Hz; [done|]. apply not_elem_of_cons in Hl as [Hc Hl].
  apply not_elem_of_cons in Hz as [Hcz Hz]. cbn [strchr app].
  rewrite (proj2 (Z.eqb_neq c 0)), (proj2 (Z.eqb_neq c newline)) by congruence. by rewrite IH.
Qed.

Lemma strchr_none l : no_nl l -> strchr l newline = None.
Proof.
  induction l as [|c l IH]; intros Hl; [done|]. apply not_elem_of_cons in Hl as [Hc Hl]. cbn [strchr].
  destruct (c =? 0); [done|]. rewrite (proj2 (Z.eqb_neq c newline)) by congruence. by rewrite IH.
Qed.

Lemma scan_lines fuel pattern text out :
  no_nul text -> (length text <= fuel)%nat ->
  scan fuel pattern text out = ((lines text).2, out ++ print pattern (lines text).1).
Proof.
  revert text out. induction fuel as [|fuel IH]; intros text out Hz Hf.
  { destruct text; [|simpl in Hf; lia]. cbn. by rewrite app_nil_r. }
  cbn [scan]. destruct (decide (newline ∈ text)) as [Hin|Hnin].
  - destruct (first_line text Hin) as (l & rest & -> & Hl). apply not_elem_of_app in Hz as [Hz1 Hz2].
    apply not_elem_of_cons in Hz2 as [_ Hz2]. rewrite strchr_line, lines_app by done.
    rewrite take_app_length, drop_app_ge by lia. replace (S (length l) - length l)%nat with 1%nat by lia.
    cbn [drop]. rewrite drop_0, IH; [|done|].
    + f_equal. unfold print. cbn [fst fmap list_fmap concat]. destruct (grep_match pattern l);
        [by rewrite <- !app_assoc|done].
    + rewrite length_app in Hf. simpl in Hf. lia.
  - rewrite strchr_none, lines_none by done. cbn. by rewrite app_nil_r.
Qed.

Lemma lines_cat t1 t2 :
  lines (t1 ++ t2) = ((lines t1).1 ++ (lines ((lines t1).2 ++ t2)).1, (lines ((lines t1).2 ++ t2)).2).
Proof.
  induction t1 as [t1 IH] using (well_founded_induction (well_founded_ltof _ length)). unfold ltof in IH.
  destruct (decide (newline ∈ t1)) as [Hin|Hnin].
  - destruct (first_line t1 Hin) as (l & rest & -> & Hl). rewrite <- app_assoc. cbn [app].
    rewrite !lines_app by done. cbn [fst snd app]. rewrite IH; [done|]. rewrite length_app. simpl. lia.
  - rewrite (lines_none t1) by done. cbn [fst snd app]. by destruct (lines (t1 ++ t2)).
Qed.

Lemma lines_last pre rest :
  no_nl rest -> exists ls, lines (pre ++ newline :: rest) = (ls, rest) /\ ls <> [].
Proof.
  intros Hr. induction pre as [|c pre (ls & IH & Hne)]; cbn [lines app].
  - rewrite lines_none by done. rewrite Z.eqb_refl. by eexists.
  - rewrite IH. destruct (c =? newline); [by eexists|]. destruct ls as [|l ls]; [done|]. by eexists.
Qed.

Lemma last_line t : newline ∈ t -> exists pre rest, t = pre ++ newline :: rest /\ no_nl rest.
Proof.
  induction t as [|c t IH]; intros Hin; [by apply not_elem_of_nil in Hin|].
  destruct (decide (newline ∈ t)) as [Ht|Ht].
  - destruct (IH Ht) as (pre & rest & -> & Hr). by exists (c :: pre), rest.
  - apply elem_of_cons in Hin as [<-|]; [|done]. by exists [], t.
Qed.

(** A chunk that [grep] can take as a whole and that completes a line. *)
Definition good_chunk (c : list Z) : Prop := newline ∈ c /\ no_nul c /\ (length c <= 511)%nat.

Lemma grep_from pattern chunks : forall fuel b out,
  no_nl b -> no_nul b -> (length b <= 511)%nat -> Forall good_chunk chunks -> (length chunks < fuel)%nat ->
  grep fuel pattern b chunks out = Some (out ++ print pattern (lines (b ++ concat chunks)).1).
Proof.
  induction chunks as [|c cs IH]; intros fuel b out Hb Hbz Hlb Hg Hf; (destruct fuel as [|fuel]; [simpl in Hf; lia|]).
  { cbn [grep read concat]. rewrite decide_True, app_nil_r, lines_none by done. cbn. by rewrite app_nil_r. }
  apply Forall_cons in Hg as [(Hnl & Hz & Hlen) Hg]. cbn [grep read].
  assert (Hk : (length c <= BUFSIZE - length b - 1)%nat) by (unfold BUFSIZE; lia).
  rewrite take_ge, drop_ge, (decide_True (P := [] = [])) by done.
  rewrite decide_False by (intros ->; by apply not_elem_of_nil in Hnl).
  assert (Hbc : no_nul (b ++ c)) by (by apply not_elem_of_app).
  rewrite scan_lines by done.
  destruct (last_line c Hnl) as (pre & rest & -> & Hr).
  destruct (lines_last (b ++ pre) rest Hr) as (ls & El & _). rewrite <- app_assoc in El. rewrite El. cbn [fst snd].
  rewrite (proj2 (Nat.eqb_neq _ _)) by (rewrite !length_app; simpl; lia).
  rewrite IH; [|done| | |done|simpl in Hf; lia].
  - cbn [concat]. rewrite !app_assoc, <- (app_assoc b), (lines_cat (b ++ _)), El. cbn [fst snd]. unfold print.
    by rewrite fmap_app, concat_app, app_assoc.
  - apply not_elem_of_app in Hz as [_ Hz]. by apply not_elem_of_cons in Hz as [_ Hz].
  - rewrite length_app in Hlen. simpl in Hlen. lia.
Qed.

(** [grep] prints exactly the complete lines that match, in order, each with its newline, however
    the input is divided into chunks, as long as every chunk has the end of a line (and
    lines and chunks fit the buffer). *)
Theorem grep_lines pattern chunks :
  Forall good_chunk chunks ->
  grep (S (length chunks)) pattern [] chunks [] = Some (print pattern (lines (concat chunks)).1).
Proof.
  intros Hg. rewrite grep_from; [done|apply not_elem_of_nil|apply not_elem_of_nil|simpl; lia|done|lia].
Qed.

(** A chunk without a newline is thrown away: when a line arrives in two pieces, [grep] looks
    at the second piece only and prints that instead of the line. *)
Lemma grep_drops_first_piece pattern c1 c2 :
  c1 <> [] -> no_nl c1 -> no_nul c1 -> (length c1 < BUFSIZE)%nat ->
  no_nl c2 -> no_nul c2 -> (length c2 <= 510)%nat ->
  grep 3 pattern [] [c1; c2 ++ [newline]] [] = Some (print pattern [c2]).
Proof.
  intros Hne H1 Hz1 Hl1 H2 Hz2 Hl2. set (fuel := 2%nat). change 3%nat with (S fuel). cbn [grep read length].
  rewrite take_ge, drop_ge, (decide_True (P := [] = [])), (decide_False (P := c1 = [])) by (done || lia).
  rewrite app_nil_l, scan_lines, (lines_none c1) by done. cbn [fst snd]. rewrite Nat.eqb_refl.
  unfold fuel. rewrite grep_from; [| | |simpl; lia| |simpl; lia].
  - assert (E : [] ++ concat [c2 ++ [newline]] = c2 ++ newline :: []) by (simpl; by rewrite app_nil_r).
    rewrite E, lines_app by done. done.
  - apply not_elem_of_nil.
  - apply not_elem_of_nil.
  - apply Forall_singleton. split_and!; [set_solver| |rewrite length_app; simpl; lia]. apply not_elem_of_app.
    split; [done|]. by apply not_elem_of_cons; split; [|apply not_elem_of_nil].
Qed.

(** * Witnesses *)

Lemma grep_lines_witness :
  grep 3 (str "^a.*c$") [] [str "abc" ++ newline :: str "xa"; str "c" ++ [newline]] [] = Some (str "abc" ++ [newline]).
Proof.
  assert (Hg : forall c, forallb (fun x => negb (x =? 0)) c = true -> existsb (Z.eqb newline) c = true ->
    (length c <= 511)%nat -> good_chunk c).
  { intros c H1 H2 H3. split_and!; [|intros Hin|done].
    - apply existsb_exists in H2 as (x & Hx & E%Z.eqb_eq). rewrite E. by apply list_elem_of_In.
    - rewrite forallb_forall in H1. by specialize (H1 0 (proj1 (list_elem_of_In _ _) Hin)). }
  apply (grep_lines (str "^a.*c$") [str "abc" ++ newline :: str "xa"; str "c" ++ [newline]]).
  apply Forall_cons; split; [|apply Forall_singleton]; apply Hg; (reflexivity || (simpl; lia)).
Defined.

Lemma grep_drops_first_piece_witness :
  grep 3 (str "needle") [] [str "need"; str "le" ++ [newline]] [] = Some [].
Proof.
  exact (grep_drops_first_piece (str "needle") (str "need") (str "le") ltac:(done)
    ltac:(by apply (bool_decide_unpack _)) ltac:(by apply (bool_decide_unpack _)) ltac:(unfold BUFSIZE; simpl; lia)
    ltac:(by apply (bool_decide_unpack _)) ltac:(by apply (bool_decide_unpack _)) ltac:(simpl; lia)).
Defined.
