(* ===== verification/Progs.v ===== *)
(** The user programs cat.c, wc.c, echo.c, ls.c, rm.c, ln.c, mkdir.c, kill.c, zombie.c, init.c, forktest.c and stressfs.c, and
    [stat] of ulib.c.

    A program is a sequence of system calls ([Sys]) on a world of some type [W], and returns [None] when it has called [exit].  What
    [fork] returns decides whether the program goes on as the parent or as the child.  [rounds] bounds the
    loops that go on until a system call says otherwise.  Arguments [argv] come with the name of the program first. *)

From S2P Require Import Prelude Params Mem State Spinlock Console Kalloc Vm Proc Ide Bio Log Umem Fs Ulib.

(** The system calls.  [u_read] returns the result and the bytes that were put into the buffer; [u_exec] returns [None]
    when the new program has taken over. *)
Class Sys (W : Type) := {
  u_open : list Z -> Z -> M W Z;
  u_close : Z -> M W Z;
  u_read : Z -> Z -> M W (Z * list Z);
  u_write : Z -> list Z -> M W Z;
  u_fstat : Z -> M W (Z * stat);
  u_link : list Z -> list Z -> M W Z;
  u_unlink : list Z -> M W Z;
  u_mkdir : list Z -> M W Z;
  u_mknod : list Z -> Z -> Z -> M W Z;
  u_dup : Z -> M W Z;
  u_fork : M W Z;
  u_wait : M W Z;
  u_kill : Z -> M W Z;
  u_sleep : Z -> M W Z;
  u_exec : list Z -> list (list Z) -> M W (option Z);
  rounds : nat
}.

(** * Programs *)

Record prog (W A : Type) := Prog { run : M W (option A) }.
Arguments Prog {W A} _.
Arguments run {W A} _.

#[export] Instance prog_ret W : MRet (prog W) := fun A a => Prog (mret (Some a)).
#[export] Instance prog_bind W : MBind (prog W) := fun A B f m =>
  Prog (o ← run m; match o with None => mret None | Some a => run (f a) end).

Definition call {W A} (m : M W A) : prog W A := Prog (a ← m; mret (Some a)).
Definition exit_prog {W A} : prog W A := Prog (mret None).
Definition pwhen {W} (b : bool) (m : prog W unit) : prog W unit := if b then m else mret tt.

Fixpoint ploop {W X R} (fuel : nat) (body : X -> prog W (X + R)) (x : X) : prog W R :=
  match fuel with
  | O => Prog (fun _ _ => NoFuel)
  | S fuel' => r ← body x; match r with inl x' => ploop fuel' body x' | inr r => mret r end
  end.

(** A loop over a list; [false] leaves it. *)
Fixpoint pfor {W X} (l : list X) (body : X -> prog W bool) : prog W unit :=
  match l with
  | [] => mret tt
  | x :: l' => go ← body x; if (go : bool) then pfor l' body else mret tt
  end.

Section programs.
Context {W : Type} `{Sys W}.

(** printf.c: [putc] writes one character at a time. *)
Definition fputc (fd c : Z) : prog W unit := call (u_write fd [c]);; mret tt.

Definition fprintf (fd : Z) (fmt : string) (args : list carg) : prog W unit :=
  pfor (printf (str fmt) args) (fun c => fputc fd c;; mret true).

(** [if((fd = open(name, 0)) < 0){ printf(1, message, name); exit(); }] ... [close(fd)], as cat.c, wc.c and grep.c do it. *)
Definition with_file (message : string) (name : list Z) (f : Z -> prog W unit) : prog W bool :=
  fd ← call (u_open name 0);
  if fd <? 0 then fprintf 1 message [CStr name];; exit_prog
  else f fd;; call (u_close fd);; mret true.

(** * cat.c *)

Definition cat (fd : Z) : prog W unit :=
  n ← ploop rounds (fun _ : unit =>
    '(n, buf) ← call (u_read fd 512);
    if 0 <? n then call (u_write 1 (take (Z.to_nat n) buf));; mret (inl tt)
    else mret (inr n)) tt;
  pwhen (n <? 0) (fprintf 1 ("cat: read error" +:+ nl) [];; exit_prog).

Definition cat_main (argv : list (list Z)) : prog W unit :=
  match tail argv with
  | [] => cat 0;; exit_prog
  | names => pfor names (fun name => with_file ("cat: cannot open %s" +:+ nl) name cat);; exit_prog
  end.

(** * wc.c *)

(** [" \r\t\n\v"] *)
Definition wc_blanks : list Z := [32; 13; 9; 10; 11].

Record wc_t := mkWc { wl : Z; ww : Z; wcc : Z; inword : bool }.

(** The body of the loop over the buffer. *)
Definition wc_char (t : wc_t) (ch : Z) : wc_t :=
  let c := s32 (wcc t + 1) in
  let l := if ch =? 10 then s32 (wl t + 1) else wl t in
  match strchr wc_blanks ch with
  | Some _ => mkWc l (ww t) c false
  | None => if inword t then mkWc l (ww t) c true else mkWc l (s32 (ww t + 1)) c true
  end.

Definition wc (fd : Z) (name : list Z) : prog W unit :=
  '(n, t) ← ploop rounds (fun t =>
    '(n, buf) ← call (u_read fd 512);
    if 0 <? n then mret (inl (fold_left wc_char (take (Z.to_nat n) buf) t))
    else mret (inr (n, t))) (mkWc 0 0 0 false);
  if n <? 0 then fprintf 1 ("wc: read error" +:+ nl) [];; exit_prog
  else fprintf 1 ("%d %d %d %s" +:+ nl) [CInt (wl t); CInt (ww t); CInt (wcc t); CStr name].

Definition wc_main (argv : list (list Z)) : prog W unit :=
  match tail argv with
  | [] => wc 0 [];; exit_prog
  | names => pfor names (fun name => with_file ("wc: cannot open %s" +:+ nl) name (fun fd => wc fd name));; exit_prog
  end.

(** * echo.c *)

Fixpoint echo_loop (args : list (list Z)) : prog W unit :=
  match args with
  | [] => mret tt
  | a :: rest => fprintf 1 "%s%s" [CStr a; CStr (str (match rest with [] => nl | _ => " " end))];; echo_loop rest
  end.

Definition echo_main (argv : list (list Z)) : prog W unit := echo_loop (tail argv);; exit_prog.

(** * rm.c, mkdir.c, ln.c, kill.c *)

Definition rm_main (argv : list (list Z)) : prog W unit :=
  match tail argv with
  | [] => fprintf 2 ("Usage: rm files..." +:+ nl) [];; exit_prog
  | names =>
      pfor names (fun name =>
        r ← call (u_unlink name);
        if r <? 0 then fprintf 2 ("rm: %s failed to delete" +:+ nl) [CStr name];; mret false
        else mret true);;
      exit_prog
  end.

Definition mkdir_main (argv : list (list Z)) : prog W unit :=
  match tail argv with
  | [] => fprintf 2 ("Usage: mkdir files..." +:+ nl) [];; exit_prog
  | names =>
      pfor names (fun name =>
        r ← call (u_mkdir name);
        if r <? 0 then fprintf 2 ("mkdir: %s failed to create" +:+ nl) [CStr name];; mret false
        else mret true);;
      exit_prog
  end.

Definition ln_main (argv : list (list Z)) : prog W unit :=
  match argv with
  | [_; old; new] =>
      r ← call (u_link old new);
      pwhen (r <? 0) (fprintf 2 ("link %s %s: failed" +:+ nl) [CStr old; CStr new]);;
      exit_prog
  | _ => fprintf 2 ("Usage: ln old new" +:+ nl) [];; exit_prog
  end.

Definition kill_main (argv : list (list Z)) : prog W unit :=
  match tail argv with
  | [] => fprintf 2 ("usage: kill pid..." +:+ nl) [];; exit_prog
  | pids => pfor pids (fun a => call (u_kill (atoi a));; mret true);; exit_prog
  end.

(** * zombie.c *)

Definition zombie_main : prog W unit :=
  pid ← call u_fork;
  pwhen (0 <? pid) (call (u_sleep 5);; mret tt);;
  exit_prog.

(** * init.c *)

(** One round of the loop for ever: start a shell, and wait for it; other children are orphans. *)
Definition init_round : prog W unit :=
  fprintf 1 ("init: starting sh" +:+ nl) [];;
  pid ← call u_fork;
  if pid <? 0 then fprintf 1 ("init: fork failed" +:+ nl) [];; exit_prog
  else if pid =? 0 then
    r ← call (u_exec (str "sh") [str "sh"]);
    match r with
    | None => exit_prog
    | Some _ => fprintf 1 ("init: exec sh failed" +:+ nl) [];; exit_prog
    end
  else
    ploop rounds (fun _ : unit =>
      wpid ← call u_wait;
      if (0 <=? wpid) && negb (wpid =? pid) then fprintf 1 ("zombie!" +:+ nl) [];; mret (inl tt)
      else mret (inr tt)) tt.

Definition init_main : prog W unit :=
  fd ← call (u_open (str "console") O_RDWR);
  pwhen (fd <? 0) (
    call (u_mknod (str "console") 1 1);;
    call (u_open (str "console") O_RDWR);;
    mret tt);;
  call (u_dup 0);;
  call (u_dup 0);;
  ploop rounds (fun _ : unit => init_round;; mret (inl tt)) tt.

(** * ls.c *)

(** [for(p=path+strlen(path); p >= path && *p != '/'; p--); p++]: where [p] is in the end, from place [i] on. *)
Fixpoint after_slash (path : list Z) (i : nat) : nat :=
  if nth i path 0 =? chr "/" then S i
  else match i with O => O | S i' => after_slash path i' end.

Definition fmtname (path : list Z) : list Z :=
  let p := drop (after_slash path (length path)) path in
  if DIRSIZ <=? Z.of_nat (length p) then p else p ++ replicate (Z.to_nat DIRSIZ - length p) (chr " ").

(** ulib.c *)
Definition ustat (n : list Z) : prog W (Z * stat) :=
  fd ← call (u_open n O_RDONLY);
  if fd <? 0 then mret (-1, mkStat 0 0 0 0 0)
  else
    r ← call (u_fstat fd);
    call (u_close fd);;
    mret r.

Definition ls_line (path : list Z) (st : stat) : prog W unit :=
  fprintf 1 ("%s %d %d %d" +:+ nl) [CStr (fmtname path); CInt (st_type st); CInt (st_ino st); CInt (st_size st)].

(** One entry of the directory [path], and the loop over them. *)
Definition ls_entry (path de : list Z) : prog W unit :=
  if de_inum de =? 0 then mret tt
  else
    let buf := path ++ [chr "/"] ++ cstr (take (Z.to_nat DIRSIZ) (de_name de)) in
    '(r, st) ← ustat buf;
    if r <? 0 then fprintf 1 ("ls: cannot stat %s" +:+ nl) [CStr buf]
    else ls_line buf st.

Definition ls_dir (fd : Z) (path : list Z) : prog W unit :=
  ploop rounds (fun _ : unit =>
    '(n, de) ← call (u_read fd sizeof_dirent);
    if negb (n =? sizeof_dirent) then mret (inr tt)
    else ls_entry path de;; mret (inl tt)) tt.

Definition ls (path : list Z) : prog W unit :=
  fd ← call (u_open path 0);
  if fd <? 0 then fprintf 2 ("ls: cannot open %s" +:+ nl) [CStr path]
  else
    '(r, st) ← call (u_fstat fd);
    if r <? 0 then
      fprintf 2 ("ls: cannot stat %s" +:+ nl) [CStr path];;
      call (u_close fd);;
      mret tt
    else
      (if st_type st =? T_FILE then ls_line path st
       else if st_type st =? T_DIR then
         if 512 <? Z.of_nat (length path) + 1 + DIRSIZ + 1 then fprintf 1 ("ls: path too long" +:+ nl) []
         else ls_dir fd path
       else mret tt);;
      call (u_close fd);;
      mret tt.

Definition ls_main (argv : list (list Z)) : prog W unit :=
  match tail argv with
  | [] => ls (str ".");; exit_prog
  | names => pfor names (fun name => ls name;; mret true);; exit_prog
  end.

(** * forktest.c *)

(** Its [printf] writes the format as it is. *)
Definition ft_printf (fd : Z) (s : string) : prog W unit := call (u_write fd (str s));; mret tt.

Definition FT_N : Z := 1000.

(** [for(n=0; n<N; n++)], and [for(; n > 0; n--)]. *)
Fixpoint fork_loop (left : nat) (n : Z) : prog W Z :=
  match left with
  | O => mret n
  | S left' =>
      pid ← call u_fork;
      if pid <? 0 then mret n
      else if pid =? 0 then exit_prog
      else fork_loop left' (n + 1)
  end.

Fixpoint wait_loop (n : nat) : prog W unit :=
  match n with
  | O => mret tt
  | S n' =>
      r ← call u_wait;
      if r <? 0 then ft_printf 1 ("wait stopped early" +:+ nl);; exit_prog
      else wait_loop n'
  end.

Definition forktest : prog W unit :=
  ft_printf 1 ("fork test" +:+ nl);;
  n ← fork_loop (Z.to_nat FT_N) 0;
  if n =? FT_N then ft_printf 1 ("fork claimed to work N times!" +:+ nl);; exit_prog
  else
    wait_loop (Z.to_nat n);;
    r ← call u_wait;
    if negb (r =? -1) then ft_printf 1 ("wait got too many" +:+ nl);; exit_prog
    else ft_printf 1 ("fork test OK" +:+ nl).

Definition forktest_main : prog W unit := forktest;; exit_prog.

(** * stressfs.c *)

(** [for(i = 0; i < 4; i++) if(fork() > 0) break;] *)
Fixpoint stress_fork (left : nat) (i : Z) : prog W Z :=
  match left with
  | O => mret i
  | S left' =>
      pid ← call u_fork;
      if 0 <? pid then mret i else stress_fork left' (i + 1)
  end.

Definition stressfs_main : prog W unit :=
  fprintf 1 ("stressfs starting" +:+ nl) [];;
  let data := replicate 512 (chr "a") in
  i ← stress_fork 4 0;
  fprintf 1 ("write %d" +:+ nl) [CInt i];;
  let path := str "stressfs" ++ [chr "0" + i] in
  fd ← call (u_open path (Z.lor O_CREATE O_RDWR));
  pfor (seqZ 0 20) (fun _ => call (u_write fd data);; mret true);;
  call (u_close fd);;
  fprintf 1 ("read" +:+ nl) [];;
  fd ← call (u_open path O_RDONLY);
  pfor (seqZ 0 20) (fun _ => call (u_read fd 512);; mret true);;
  call (u_close fd);;
  call u_wait;;
  exit_prog.

End programs.
