(* ===== verification/ProgsSpec.v ===== *)
(** What cat and wc print, whatever pieces [read] returns the files in.

    [Streams] is what the theorems use of the system calls: an open file delivers pieces of its contents until its end, and writing
    to descriptors 1 and 2 appends to the output. *)

From S2P Require Import Prelude Params Mem State Spinlock Console Kalloc Vm Proc Ide Bio Log Umem Fs Ulib Progs.

Class Streams (W : Type) {S : Sys W} := {
  pending : Z -> W -> list (list Z);
  file : list Z -> W -> option (list (list Z));
  written : Z -> W -> list Z;
  st_read : forall fd n e w, 0 < n ->
    match pending fd w with
    | [] => exists w', u_read fd n e w = Done (0, []) e w' /\ (forall d, written d w' = written d w) /\ forall f, file f w' = file f w
    | c :: cs => c <> [] -> Z.of_nat (length c) <= n ->
        exists w', u_read fd n e w = Done (Z.of_nat (length c), c) e w' /\ pending fd w' = cs /\
          (forall d, written d w' = written d w) /\ forall f, file f w' = file f w
    end;
  st_write : forall fd bs e w, fd = 1 \/ fd = 2 ->
    exists r w', u_write fd bs e w = Done r e w' /\ written fd w' = written fd w ++ bs /\ (forall d, d <> fd -> written d w' = written d w) /\
      (forall d, pending d w' = pending d w) /\ forall f, file f w' = file f w;
  st_open : forall name e w,
    match file name w with
    | None => exists r w', u_open name 0 e w = Done r e w' /\ r < 0 /\ (forall d, written d w' = written d w) /\ forall f, file f w' = file f w
    | Some cs => exists fd w', u_open name 0 e w = Done fd e w' /\ 0 <= fd /\ pending fd w' = cs /\
        (forall d, written d w' = written d w) /\ forall f, file f w' = file f w
    end;
  st_close : forall fd e w, exists r w', u_close fd e w = Done r e w' /\ (forall d, written d w' = written d w) /\ forall f, file f w' = file f w
}.

(** * Rules for programs *)

Section rules.
Context {W : Type}.

Definition pwp {A} (m : prog W A) (Q : option A -> env W -> W -> Prop) : env W -> W -> Prop := wp (run m) Q.

Lemma pwp_bind {A B} (m : prog W A) (f : A -> prog W B) Q e w :
  pwp m (fun o e' w' => match o with None => Q None e' w' | Some a => pwp (f a) Q e' w' end) e w -> pwp (m ≫= f) Q e w.
Proof. unfold pwp. intros Hm. apply wp_bind. eapply wp_mono; [exact Hm|]. by intros [a|] e' w'. Qed.

Lemma pwp_ret {A} (a : A) (Q : option A -> env W -> W -> Prop) e w : Q (Some a) e w -> pwp (mret a) Q e w.
Proof. done. Qed.

Lemma pwp_exit {A} (Q : option A -> env W -> W -> Prop) e w : Q None e w -> pwp exit_prog Q e w.
Proof. done. Qed.

Lemma pwp_call {A} (m : M W A) (Q : option A -> env W -> W -> Prop) a e e' w w' :
  m e w = Done a e' w' -> Q (Some a) e' w' -> pwp (call m) Q e w.
Proof. intros E HQ. unfold pwp, wp, call. cbn [run]. by rewrite (bind_Done _ _ _ _ _ _ _ E). Qed.

End rules.

(** * Counting lines, words and characters *)

Definition is_blank (c : Z) : bool := bool_decide (c ∈ wc_blanks).

(** A word starts at place [i]. *)
Definition starts_word (text : list Z) (i : nat) : bool :=
  negb (is_blank (nth i text 0)) && ((i =? 0)%nat || is_blank (nth (i - 1) text 0)).

Definition count_words (text : list Z) : nat := length (filter (fun i => starts_word text i = true) (seq 0 (length text))).
Definition count_lines (text : list Z) : nat := length (filter (fun c => c = 10) text).

(** The text ends inside of a word. *)
Definition in_word (text : list Z) : bool := match last text with Some c => negb (is_blank c) | None => false end.

Lemma strchr_blanks c : strchr wc_blanks c = None <-> is_blank c = false.
Proof.
  unfold is_blank. rewrite bool_decide_eq_false. unfold wc_blanks. rewrite !not_elem_of_cons. cbn [strchr].
  destruct (Z.eqb_spec 32 c), (Z.eqb_spec 13 c), (Z.eqb_spec 9 c), (Z.eqb_spec 10 c), (Z.eqb_spec 11 c); simpl; (split; [|done || set_solver]);
    intros; try done; split_and!; (done || congruence || set_solver).
Qed.

Lemma last_nth (text : list Z) : text <> [] -> last text = Some (nth (length text - 1) text 0).
Proof.
  induction text as [|c text _] using rev_ind; [done|]. intros _. rewrite last_snoc, length_app, app_nth2 by (simpl; lia). simpl.
  by replace (length text + 1 - 1 - length text)%nat with 0%nat by lia.
Qed.

Lemma filter_agree (f g : nat -> bool) (l : list nat) : (forall i, i ∈ l -> f i = g i) -> filter (fun i => f i = true) l = filter (fun i => g i = true) l.
Proof.
  induction l as [|i l IH]; intros Hfg; [done|]. rewrite !filter_cons, IH by (intros j Hj; apply Hfg; by right). rewrite Hfg by by left. done.
Qed.

Lemma count_words_snoc text c : count_words (text ++ [c]) = (count_words text + if negb (is_blank c) && negb (in_word text) then 1 else 0)%nat.
Proof.
  unfold count_words. rewrite length_app, seq_app, filter_app, length_app. cbn [length seq]. f_equal.
  - f_equal. apply filter_agree. intros i Hi%elem_of_seq. unfold starts_word. rewrite !app_nth1 by lia. done.
  - rewrite Nat.add_0_l. assert (starts_word (text ++ [c]) (length text) = negb (is_blank c) && negb (in_word text)) as E.
    { unfold starts_word. rewrite app_nth2, Nat.sub_diag by lia. cbn [nth]. f_equal. unfold in_word.
      destruct (decide (text = [])) as [->|Hne]; [done|]. assert (0 < length text)%nat by (destruct text; [done|simpl; lia]).
      rewrite last_nth, app_nth1 by (done || lia). rewrite negb_involutive. destruct (Nat.eqb_spec (length text) 0); [lia|done]. }
    destruct (negb (is_blank c) && negb (in_word text)) eqn:Ec.
    + rewrite filter_cons_True by done. done.
    + rewrite filter_cons_False by (by rewrite E). done.
Qed.

(** The body of the loop counts, as long as the numbers do not overflow. *)
Lemma wc_counts text : Z.of_nat (length text) < 2147483648 ->
  fold_left wc_char text (mkWc 0 0 0 false) =
    mkWc (Z.of_nat (count_lines text)) (Z.of_nat (count_words text)) (Z.of_nat (length text)) (in_word text).
Proof.
  induction text as [|c text IH] using rev_ind; [done|]. intros Hlen. rewrite length_app in Hlen. simpl in Hlen.
  assert (count_lines text <= length text)%nat by apply length_filter.
  assert (count_words text <= length text)%nat by (unfold count_words; etrans; [apply length_filter|]; by rewrite length_seq).
  rewrite fold_left_app, IH by lia. cbn [fold_left]. unfold wc_char. cbn [wl ww wcc inword].
  assert (Hl : count_lines (text ++ [c]) = (count_lines text + if (c =? 10)%Z then 1 else 0)%nat).
  { unfold count_lines. rewrite filter_app, length_app, filter_cons, filter_nil. destruct (Z.eqb_spec c 10), (decide (c = 10)); done. }
  rewrite Hl, count_words_snoc, length_app, !s32_small by lia. cbn [length].
  assert (in_word (text ++ [c]) = negb (is_blank c)) as -> by (unfold in_word; by rewrite last_snoc).
  destruct (strchr wc_blanks c) as [j|] eqn:Es.
  - assert (is_blank c = true) as -> by (destruct (is_blank c) eqn:Eb; [done|]; by apply strchr_blanks in Eb; congruence).
    cbn [negb andb]. destruct (c =? 10); f_equal; lia.
  - apply strchr_blanks in Es as ->. cbn [negb andb]. destruct (in_word text); cbn [negb]; rewrite ?s32_small by lia;
      destruct (c =? 10); f_equal; lia.
Qed.

Section streams.
Context {W : Type} `{Streams W}.

(** [text] has been printed, and the files are as before. *)
Definition printed (text : list Z) (w w' : W) : Prop := written 1 w' = written 1 w ++ text /\ forall f, file f w' = file f w.

Lemma printed_nil w w' : (forall d, written d w' = written d w) -> (forall f, file f w' = file f w) -> printed [] w w'.
Proof. intros Hw Hf. split; [by rewrite app_nil_r|done]. Qed.

Lemma printed_trans t1 t2 w1 w2 w3 : printed t1 w1 w2 -> printed t2 w2 w3 -> printed (t1 ++ t2) w1 w3.
Proof. intros [A1 B1] [A2 B2]. split; [by rewrite A2, A1, app_assoc|]. intros f. by rewrite B2, B1. Qed.

Lemma printed_after t w1 w2 w3 : printed [] w1 w2 -> printed t w2 w3 -> printed t w1 w3.
Proof. apply printed_trans. Qed.

Lemma pwp_write {B} bs (f : Z -> prog W B) Q e w :
  (forall r w', printed bs w w' -> (forall d, pending d w' = pending d w) -> pwp (f r) Q e w') -> pwp (call (u_write 1 bs) ≫= f) Q e w.
Proof.
  intros HQ. destruct (st_write 1 bs e w (or_introl eq_refl)) as (r & w' & E & Hw & _ & Hp & Hf). apply pwp_bind. eapply pwp_call; [exact E|].
  by apply HQ.
Qed.

Lemma pwp_fprintf fmt args (Q : option unit -> env W -> W -> Prop) e w :
  (forall w', printed (printf (str fmt) args) w w' -> Q (Some tt) e w') -> pwp (fprintf 1 fmt args) Q e w.
Proof.
  unfold fprintf. generalize (printf (str fmt) args) as l. intros l. revert w. induction l as [|c l IH]; intros w HQ; cbn [pfor].
  - apply pwp_ret, HQ. by apply printed_nil.
  - apply pwp_bind, pwp_bind. unfold fputc. apply pwp_write. intros r w1 H1 _. apply pwp_ret, pwp_ret. apply IH.
    intros w2 H2. apply HQ. exact (printed_trans [c] l _ _ _ H1 H2).
Qed.

(** Pieces that fit into the buffers of the programs, fewer than the loops have rounds, and not more than an [int] can count. *)
Definition pieces_ok (cs : list (list Z)) : Prop :=
  Forall (fun c => c <> [] /\ Z.of_nat (length c) <= 512) cs /\ (length cs < rounds)%nat /\ Z.of_nat (length (concat cs)) < 2147483648.

(** A loop that reads a descriptor to its end: [step] is what it does with a piece, [I] holds of the pieces so far. *)
Lemma pwp_read_loop {X R} fd (body : Z * list Z -> X -> prog W (X + R)) (I : list (list Z) -> X -> W -> Prop) (Q : option R -> env W -> W -> Prop) e :
  forall fuel cs0 cs x w,
  Forall (fun c => c <> [] /\ Z.of_nat (length c) <= 512) cs -> (length cs < fuel)%nat -> pending fd w = cs -> I cs0 x w ->
  (forall cs1 c x w w', c <> [] -> I cs1 x w -> printed [] w w' ->
     pwp (body (Z.of_nat (length c), c) x) (fun o e' w'' => e' = e /\ match o with
       | Some (inl x') => I (cs1 ++ [c]) x' w'' /\ pending fd w'' = pending fd w'
       | _ => False end) e w') ->
  (forall x w w', I (cs0 ++ cs) x w -> printed [] w w' ->
     pwp (body (0, []) x) (fun o e' w'' => e' = e /\ match o with Some (inr r) => Q (Some r) e w'' | _ => False end) e w') ->
  pwp (ploop fuel (fun x => r ← call (u_read fd 512); body r x) x) Q e w.
Proof.
  induction fuel as [|fuel IH]; intros cs0 cs x w Hcs Hn Hp HI Hstep Hend; [lia|]. cbn [ploop]. apply pwp_bind, pwp_bind.
  pose proof (st_read fd 512 e w ltac:(lia)) as Hr. rewrite Hp in Hr. destruct cs as [|c cs].
  - destruct Hr as (w' & E & Hw & Hf). eapply pwp_call; [exact E|]. eapply wp_mono; [apply (Hend x w w'); [by rewrite app_nil_r|by apply printed_nil]|].
    intros [[x'|r]|] e' w'' [-> HQ]; done.
  - apply Forall_cons in Hcs as [[Hc0 Hc] Hcs]. destruct (Hr Hc0 Hc) as (w' & E & Hp' & Hw & Hf). eapply pwp_call; [exact E|].
    eapply wp_mono; [apply (Hstep cs0 c x w w' Hc0 HI); by apply printed_nil|]. intros [[x'|r]|] e' w'' [-> HQ]; [|done..].
    destruct HQ as [HI' Hp'']. eapply (IH (cs0 ++ [c]) cs); [done|simpl in Hn; lia|by rewrite Hp''|done|done|].
    intros x2 w2 w2' HI2. rewrite <- app_assoc in HI2. by apply Hend.
Qed.

(** [cat] copies what it reads. *)
Lemma pwp_cat fd (Q : option unit -> env W -> W -> Prop) e w :
  pieces_ok (pending fd w) -> (forall w', printed (concat (pending fd w)) w w' -> Q (Some tt) e w') -> pwp (cat fd) Q e w.
Proof.
  intros (Hcs & Hn & _) HQ. unfold cat. apply pwp_bind.
  match goal with |- pwp (ploop _ ?b _) _ _ _ => change b with (fun _ : unit => r ← call (u_read fd 512);
    (fun r (_ : unit) => let '(n, buf) := r in if 0 <? n then call (u_write 1 (take (Z.to_nat n) buf));; mret (inl tt) else mret (inr n)) r tt) end.
  eapply (pwp_read_loop fd _ (fun cs (_ : unit) w1 => printed (concat cs) w w1) _ _ rounds [] (pending fd w)); [done|done|done|by apply printed_nil|..].
  - intros cs1 c [] w1 w2 Hc H1 H2. assert (0 < Z.of_nat (length c)) by (destruct c; [done|simpl; lia]).
    rewrite (proj2 (Z.ltb_lt _ _)), Nat2Z.id, firstn_all by done. apply pwp_write. intros r w3 H3 Hp. apply pwp_ret. split; [done|]. split; [|by apply Hp].
    rewrite concat_app. cbn [concat]. rewrite app_nil_r. eapply printed_trans; [exact H1|]. exact (printed_trans [] c _ _ _ H2 H3).
  - intros [] w1 w2 H1 H2. apply pwp_ret. split; [done|]. apply pwp_ret, HQ.
    pose proof (printed_trans _ _ _ _ _ H1 H2) as H12. by rewrite app_nil_r in H12.
Qed.

(** * The arguments are files *)

(** What a program prints that treats its files one after the other and gives up at one that it cannot open; [out] is what it prints for a
    file of some name and contents. *)
Fixpoint files_text (message : string) (out : list Z -> list Z -> list Z) (look : list Z -> option (list Z)) (names : list (list Z)) : list Z :=
  match names with
  | [] => []
  | n :: names' =>
      match look n with
      | None => printf (str message) [CStr n]
      | Some text => out n text ++ files_text message out look names'
      end
  end.

Definition contents (w : W) (name : list Z) : option (list Z) := concat (A := Z) <$> file name w.

Lemma files_text_ext message out look look' names : (forall n, look' n = look n) -> files_text message out look' names = files_text message out look names.
Proof. intros Hl. induction names as [|n names IH]; [done|]. cbn [files_text]. rewrite Hl, IH. done. Qed.

Lemma pwp_files message f out (Q : option unit -> env W -> W -> Prop) e :
  (forall name fd w (Q : option unit -> env W -> W -> Prop), pieces_ok (pending fd w) ->
     (forall w', printed (out name (concat (pending fd w))) w w' -> Q (Some tt) e w') -> pwp (f name fd) Q e w) ->
  forall names w, (forall name cs, file name w = Some cs -> pieces_ok cs) ->
  (forall o w', printed (files_text message out (contents w) names) w w' -> Q o e w') ->
  pwp (pfor names (fun name => with_file message name (f name))) Q e w.
Proof.
  intros Hf. induction names as [|name names IH]; intros w Hok HQ; cbn [pfor].
  { apply pwp_ret, HQ. by apply printed_nil. }
  apply pwp_bind. unfold with_file. apply pwp_bind. cbn [files_text] in HQ. pose proof (st_open name e w) as Ho. unfold contents in HQ at 1.
  destruct (file name w) as [cs|] eqn:Ef; cbn [fmap option_fmap option_map] in HQ.
  - destruct Ho as (fd & w1 & E & Hfd & Hp & Hw & Hfl). eapply pwp_call; [exact E|]. rewrite (proj2 (Z.ltb_ge _ _)) by done.
    apply pwp_bind, Hf; [rewrite Hp; by eapply Hok|]. intros w2 H2. rewrite Hp in H2. apply pwp_bind.
    destruct (st_close fd e w2) as (r & w3 & E3 & Hw3 & Hf3). eapply pwp_call; [exact E3|]. apply pwp_ret.
    assert (H03 : printed (out name (concat cs)) w w3).
    { pose proof (printed_trans [] _ _ _ _ (printed_nil _ _ Hw Hfl) (printed_trans _ [] _ _ _ H2 (printed_nil _ _ Hw3 Hf3))) as Hx. by rewrite app_nil_r in Hx. }
    assert (Hsame : forall n, file n w3 = file n w) by apply H03.
    apply IH; [intros n cs'; rewrite Hsame; apply Hok|]. intros o w4 H4. apply HQ. eapply printed_trans; [exact H03|].
    rewrite (files_text_ext message out (contents w)) in H4; [done|]. intros n. unfold contents. by rewrite Hsame.
  - destruct Ho as (r & w1 & E & Hr & Hw & Hfl). eapply pwp_call; [exact E|]. rewrite (proj2 (Z.ltb_lt _ _)) by done.
    apply pwp_bind, pwp_fprintf. intros w2 H2. apply pwp_exit, HQ. eapply printed_after; [by apply printed_nil|exact H2].
Qed.

(** The files, and the standard input when there are no arguments. *)
Definition readable (w : W) : Prop := pieces_ok (pending 0 w) /\ forall name cs, file name w = Some cs -> pieces_ok cs.

(** cat prints the contents of its arguments one after the other, byte for byte and whatever pieces they are read in, up to the first
    that it cannot open, which it names; without arguments it copies its standard input. *)
Theorem cat_copies argv e w : readable w ->
  exists w', run (cat_main argv) e w = Done None e w' /\
    written 1 w' = written 1 w ++
      match tail argv with
      | [] => concat (pending 0 w)
      | names => files_text ("cat: cannot open %s" +:+ nl) (fun _ text => text) (contents w) names
      end.
Proof.
  intros [H0 Hf].
  assert (Hp : pwp (cat_main argv) (fun o e' w' => o = None /\ e' = e /\ printed (match tail argv with
      | [] => concat (pending 0 w)
      | names => files_text ("cat: cannot open %s" +:+ nl) (fun _ text => text) (contents w) names end) w w') e w).
  { unfold cat_main. destruct (tail argv) as [|n names].
    - apply pwp_bind, pwp_cat; [done|]. intros w' H'. by apply pwp_exit.
    - apply pwp_bind. apply (pwp_files _ (fun _ => cat) (fun _ text => text)); [|done|].
      + intros name fd w1 Q' Hok HQ'. by apply pwp_cat.
      + intros o w' H'. by destruct o. }
  apply wp_elim in Hp as (o & e' & w' & E & -> & -> & Ht & _). by exists w'.
Qed.

(** The line that [wc] prints. *)
Definition wc_line (name text : list Z) : list Z :=
  printf (str ("%d %d %d %s" +:+ nl)) [CInt (Z.of_nat (count_lines text)); CInt (Z.of_nat (count_words text)); CInt (Z.of_nat (length text)); CStr name].

Lemma pwp_wc fd name (Q : option unit -> env W -> W -> Prop) e w :
  pieces_ok (pending fd w) ->
  (forall w', printed (wc_line name (concat (pending fd w))) w w' -> Q (Some tt) e w') -> pwp (wc fd name) Q e w.
Proof.
  intros (Hcs & Hn & Hlen) HQ. unfold wc. apply pwp_bind.
  match goal with |- pwp (ploop _ ?b _) _ _ _ => change b with (fun t : wc_t => r ← call (u_read fd 512);
    (fun r t => let '(n, buf) := r in if 0 <? n then mret (inl (fold_left wc_char (take (Z.to_nat n) buf) t)) else mret (inr (n, t))) r t) end.
  eapply (pwp_read_loop fd _ (fun cs t w1 => printed [] w w1 /\ t = fold_left wc_char (concat cs) (mkWc 0 0 0 false)) _ _ rounds [] (pending fd w));
    [done|done|done|split; [by apply printed_nil|done]|..].
  - intros cs1 c t w1 w2 Hc [H1 ->] H2. assert (0 < Z.of_nat (length c)) by (destruct c; [done|simpl; lia]).
    rewrite (proj2 (Z.ltb_lt _ _)), Nat2Z.id, firstn_all by done. apply pwp_ret. split; [done|]. split; [|done].
    split; [exact (printed_trans [] [] _ _ _ H1 H2)|]. rewrite concat_app, fold_left_app. cbn [concat]. by rewrite app_nil_r.
  - intros t w1 w2 [H1 ->] H2. apply pwp_ret. split; [done|]. cbn [app]. change (0 <? 0) with false. cbv iota.
    rewrite wc_counts by exact Hlen. cbn [wl ww wcc]. apply pwp_fprintf.
    intros w3 H3. unfold wc_line in HQ. apply HQ. eapply printed_after; [exact H1|].
    eapply printed_after; [exact H2|exact H3].
Qed.

(** C34: wc prints, for each of its files, the number of line ends, of places where a word begins, and of characters of the whole
    file, whatever pieces it is read in, also when a word goes from one piece to the next. *)
Theorem wc_prints argv e w : readable w ->
  exists w', run (wc_main argv) e w = Done None e w' /\
    written 1 w' = written 1 w ++
      match tail argv with
      | [] => wc_line [] (concat (pending 0 w))
      | names => files_text ("wc: cannot open %s" +:+ nl) wc_line (contents w) names
      end.
Proof.
  intros [H0 Hf].
  assert (Hp : pwp (wc_main argv) (fun o e' w' => o = None /\ e' = e /\ printed (match tail argv with
      | [] => wc_line [] (concat (pending 0 w))
      | names => files_text ("wc: cannot open %s" +:+ nl) wc_line (contents w) names end) w w') e w).
  { unfold wc_main. destruct (tail argv) as [|n names].
    - apply pwp_bind, pwp_wc; [done|]. intros w' H'. by apply pwp_exit.
    - apply pwp_bind. apply (pwp_files _ (fun name fd => wc fd name) wc_line); [|done|].
      + intros name fd w1 Q' Hok HQ'. by apply pwp_wc.
      + intros o w' H'. by destruct o. }
  apply wp_elim in Hp as (o & e' & w' & E & -> & -> & Ht & _). by exists w'.
Qed.

End streams.

(** * Names in the listing *)

Lemma after_slash_ok dir name i : chr "/" ∉ name -> dir = [] \/ last dir = Some (chr "/") ->
  (length dir <= i)%nat -> after_slash (dir ++ name) i = length dir.
Proof.
  intros Hn Hd. induction i as [|i IH]; intros Hi.
  - assert (dir = []) as -> by (destruct dir; [done|simpl in Hi; lia]). cbn [app after_slash length].
    destruct name as [|c name]; [done|]. cbn [nth]. destruct (Z.eqb_spec c (chr "/")) as [->|]; [|done]. exfalso. apply Hn. by left.
  - cbn [after_slash]. destruct (decide (length dir <= S i)%nat) as [_|]; [|lia].
    assert (Hns : (nth (S i) (dir ++ name) 0 =? chr "/") = false).
    { rewrite app_nth2 by lia. apply Z.eqb_neq. intros E. apply Hn. rewrite <- E. destruct (decide (S i - length dir < length name)%nat).
      - apply list_elem_of_In, nth_In. done.
      - rewrite nth_overflow in E by lia. done. }
    rewrite Hns. destruct (decide (length dir = S i)) as [Ed|]; [|apply IH; lia].
    destruct Hd as [->|Hd]; [done|]. assert (Hlast : nth i (dir ++ name) 0 = chr "/").
    { rewrite app_nth1 by lia. apply last_Some in Hd as [l' ->]. rewrite length_app in Ed. simpl in Ed. rewrite app_nth2 by lia.
      replace (i - length l')%nat with 0%nat by lia. done. }
    rewrite Ed. destruct i; cbn [after_slash]; by rewrite Hlast.
Qed.

(** ls shows the last element of a path, filled up with blanks to the width of a name in a directory. *)
Lemma fmtname_spec dir name : chr "/" ∉ name -> dir = [] \/ last dir = Some (chr "/") ->
  fmtname (dir ++ name) = name ++ replicate (Z.to_nat DIRSIZ - length name) (chr " ").
Proof.
  intros Hn Hd. unfold fmtname. rewrite after_slash_ok by (done || (rewrite length_app; lia)). rewrite drop_app_length.
  destruct (Z.leb_spec DIRSIZ (Z.of_nat (length name))); [|done]. replace (Z.to_nat DIRSIZ - length name)%nat with 0%nat by lia. by rewrite app_nil_r.
Qed.

(** * A world of files *)

Record uworld := mkUworld { uw_files : list Z -> option (list (list Z)); uw_pending : Z -> list (list Z); uw_written : Z -> list Z }.

Definition uw_set {A} (f : Z -> A) (i : Z) (v : A) : Z -> A := fun j => if j =? i then v else f j.

#[local] Instance uw_sys : Sys uworld := {|
  u_open := fun name _ e w =>
    match uw_files w name with
    | None => Done (-1) e w
    | Some cs => Done 3 e (mkUworld (uw_files w) (uw_set (uw_pending w) 3 cs) (uw_written w))
    end;
  u_close := fun _ => mret 0;
  u_read := fun fd _ e w =>
    match uw_pending w fd with
    | [] => Done (0, []) e w
    | c :: cs => Done (Z.of_nat (length c), c) e (mkUworld (uw_files w) (uw_set (uw_pending w) fd cs) (uw_written w))
    end;
  u_write := fun fd bs e w => Done (Z.of_nat (length bs)) e (mkUworld (uw_files w) (uw_pending w) (uw_set (uw_written w) fd (uw_written w fd ++ bs)));
  u_fstat := fun _ => mret (-1, mkStat 0 0 0 0 0);
  u_link := fun _ _ => mret (-1);
  u_unlink := fun _ => mret (-1);
  u_mkdir := fun _ => mret (-1);
  u_mknod := fun _ _ _ => mret (-1);
  u_dup := fun _ => mret (-1);
  u_fork := mret (-1);
  u_wait := mret (-1);
  u_kill := fun _ => mret (-1);
  u_sleep := fun _ => mret 0;
  u_exec := fun _ _ => mret (Some (-1));
  rounds := 100
|}.

#[local] Program Instance uw_streams : Streams uworld := {|
  pending := fun fd w => uw_pending w fd; file := fun name w => uw_files w name; written := fun fd w => uw_written w fd
|}.
Next Obligation.
  intros fd n e w Hn. cbn. destruct (uw_pending w fd) as [|c cs] eqn:E; [by exists w|]. intros _ _. eexists. split; [done|].
  split; [|done]. cbn. unfold uw_set. by rewrite Z.eqb_refl.
Qed.
Next Obligation.
  intros fd bs e w _. cbn. eexists _, _. split; [done|]. cbn. unfold uw_set. rewrite Z.eqb_refl. split; [done|]. split; [|done].
  intros d Hd. by rewrite (proj2 (Z.eqb_neq _ _) Hd).
Qed.
Next Obligation.
  intros name e w. cbn. destruct (uw_files w name) as [cs|]; [|by exists (-1), w]. eexists 3, _. split; [done|]. split; [lia|]. done.
Qed.
Next Obligation. intros fd e w. cbn. by exists 0, w. Qed.

(** A file in two pieces, the second of which goes on with a word of the first, and a name that does not exist. *)
Definition uw_one : uworld :=
  mkUworld (fun name => if decide (name = str "a") then Some [str "one tw"; str ("o" +:+ nl)] else None) (fun _ => []) (fun _ => []).

Lemma uw_readable : readable uw_one.
Proof.
  split; [split; [done|]; cbn; lia|]. intros name cs. cbn. case_decide; [|done]. intros [= <-].
  split; [repeat constructor; (done || (vm_compute; congruence))|]. split; [vm_compute; lia|by vm_compute].
Qed.

Lemma cat_copies_witness : exists w', run (cat_main [str "cat"; str "a"; str "b"]) [] uw_one = Done None [] w' /\
  written 1 w' = str ("one two" +:+ nl +:+ "cat: cannot open b" +:+ nl).
Proof.
  destruct (cat_copies [str "cat"; str "a"; str "b"] [] uw_one uw_readable) as (w' & E & Hw). exists w'. split; [exact E|].
  rewrite Hw. by vm_compute.
Defined.

Lemma wc_prints_witness : exists w', run (wc_main [str "wc"; str "a"]) [] uw_one = Done None [] w' /\
  written 1 w' = str ("1 2 8 a" +:+ nl).
Proof.
  destruct (wc_prints [str "wc"; str "a"] [] uw_one uw_readable) as (w' & E & Hw). exists w'. split; [exact E|].
  rewrite Hw. by vm_compute.
Defined.
