(* ===== verification/Sh.v ===== *)
(** sh.c: the parser of the shell.

    The line that is parsed is a string; [es] in the source points to its end.  A pointer into the
    line is the number of characters before it, and the parser's position [*ps] is the text
    from there to [es] ([at_ptr] gives the pointer), since the line is not written before the
    parser is done.  [panic] prints its message and ends the process: parsing then has no result. *)

From S2P Require Import Prelude Params Mem State Spinlock Console Ulib.

(** * Commands *)

Definition MAXARGS : nat := 10.

(** [struct cmd] and the structures it stands for, with the words of the line in [W]; [argv] has
    the entries before the null pointer. *)
Inductive cmd (W : Type) :=
| EXEC (argv : list W)
| REDIR (c : cmd W) (file : W) (mode fd : Z)
| PIPE (left right : cmd W)
| LIST (left right : cmd W)
| BACK (c : cmd W).
Arguments EXEC {W}.
Arguments REDIR {W}.
Arguments PIPE {W}.
Arguments LIST {W}.
Arguments BACK {W}.

(** Constructors: a cleared structure with its type and its fields. *)
Definition execcmd {W} : cmd W := EXEC [].
Definition redircmd {W} (subcmd : cmd W) (file : W) (mode fd : Z) : cmd W := REDIR subcmd file mode fd.
Definition pipecmd {W} (left right : cmd W) : cmd W := PIPE left right.
Definition listcmd {W} (left right : cmd W) : cmd W := LIST left right.
Definition backcmd {W} (subcmd : cmd W) : cmd W := BACK subcmd.
Arguments execcmd {W} /.
Arguments redircmd {W} _ _ _ _ /.
Arguments pipecmd {W} _ _ /.
Arguments listcmd {W} _ _ /.
Arguments backcmd {W} _ /.

#[export] Instance cmd_eq_dec {W} `{EqDecision W} : EqDecision (cmd W).
Proof. solve_decision. Defined.

(** In the parser a word is a pair of pointers ([argv] and [eargv], [file] and [efile]): to its first
    character and past its last one. *)
Abbreviation ptrs := (nat * nat)%type.

(** What a parsing function returns: a value and the new position, or the text that [panic] printed. *)
Inductive parsed (A : Type) :=
| Parsed (a : A) (rest : list Z)
| Syntax (message : list Z)
| OutOfFuel.
Arguments Parsed {A}.
Arguments Syntax {A}.
Arguments OutOfFuel {A}.

Definition pbind {A B} (m : parsed A) (f : A -> list Z -> parsed B) : parsed B :=
  match m with
  | Parsed a t => f a t
  | Syntax e => Syntax e
  | OutOfFuel => OutOfFuel
  end.

Declare Scope sh_scope.
Notation "' ( a , t ) <- m ;; k" := (pbind m (fun a t => k))
  (at level 100, a name, t name, m at next level, right associativity) : sh_scope.
Open Scope sh_scope.

Definition sh_panic {A} (s : string) : parsed A := Syntax (str s ++ [10]).

(** * Tokens *)

Definition whitespace : list Z := [32; 9; 13; 10; 11].
Definition symbols : list Z := str "<|>&;()".

(** [strchr(set, c) != 0]. *)
Definition one_of (set : list Z) (c : Z) : bool := match strchr set c with Some _ => true | None => false end.

(** [while(s < es && strchr(whitespace, *s)) s++]. *)
Fixpoint skip_space (t : list Z) : list Z :=
  match t with
  | c :: t' => if one_of whitespace c then skip_space t' else t
  | [] => []
  end.

(** [while(s < es && !strchr(whitespace, *s) && !strchr(symbols, *s)) s++]. *)
Fixpoint skip_word (t : list Z) : list Z :=
  match t with
  | c :: t' => if negb (one_of whitespace c) && negb (one_of symbols c) then skip_word t' else t
  | [] => []
  end.

(** [*s]: the NUL at [es]. *)
Definition char_at (t : list Z) : Z := match t with c :: _ => c | [] => 0 end.

Section line.
(** The length of the line. *)
Context (es : nat).

Definition at_ptr (t : list Z) : nat := es - length t.

(** Returns the kind of the token, [*q], [*eq] and the new position. *)
Definition gettoken (t : list Z) : Z * nat * nat * list Z :=
  let s := skip_space t in
  let q := at_ptr s in
  let c := char_at s in
  let '(ret, s) :=
    if c =? 0 then (c, s)
    else if one_of (str "|();&<") c then (c, tail s)
    else if c =? chr ">" then
      if char_at (tail s) =? chr ">" then (chr "+", tail (tail s)) else (c, tail s)
    else (chr "a", skip_word s) in
  (ret, q, at_ptr s, skip_space s).

(** The new position comes with the answer. *)
Definition peek (t : list Z) (toks : list Z) : bool * list Z :=
  let s := skip_space t in
  (negb (char_at s =? 0) && one_of toks (char_at s), s).

(** [gettoken(ps, es, 0, 0)] where only the position is used. *)
Definition advance (t : list Z) : list Z := (gettoken t).2.

(** * The parser *)

Fixpoint parseredirs (fuel : nat) (c : cmd ptrs) (t : list Z) : parsed (cmd ptrs) :=
  match fuel with
  | O => OutOfFuel
  | S fuel' =>
      let '(yes, t) := peek t (str "<>") in
      if yes then
        let '(tok, _, _, t) := gettoken t in
        let '(tok2, q, eq, t) := gettoken t in
        if negb (tok2 =? chr "a") then sh_panic "missing file for redirection"
        else
          let c :=
            if tok =? chr "<" then redircmd c (q, eq) O_RDONLY 0
            else if (tok =? chr ">") || (tok =? chr "+") then redircmd c (q, eq) (Z.lor O_WRONLY O_CREATE) 1
            else c in
          parseredirs fuel' c t
      else Parsed c t
  end.

(** [cmd->argv[argc] = q; cmd->eargv[argc] = eq]: [ret] points to the structure [cmd] or to
    redirections around it. *)
Fixpoint add_arg (ret : cmd ptrs) (a : ptrs) : cmd ptrs :=
  match ret with
  | EXEC argv => EXEC (argv ++ [a])
  | REDIR c f m fd => REDIR (add_arg c a) f m fd
  | _ => ret
  end.

(** The loop of [parseexec]. *)
Fixpoint parseargs (fuel : nat) (argc : nat) (ret : cmd ptrs) (t : list Z) : parsed (cmd ptrs) :=
  match fuel with
  | O => OutOfFuel
  | S fuel' =>
      let '(stop, t) := peek t (str "|)&;") in
      if stop then Parsed ret t
      else
        let '(tok, q, eq, t) := gettoken t in
        if tok =? 0 then Parsed ret t
        else if negb (tok =? chr "a") then sh_panic "syntax"
        else
          let ret := add_arg ret (q, eq) in
          let argc := S argc in
          if (MAXARGS <=? argc)%nat then sh_panic "too many args"
          else '(ret, t) <- parseredirs fuel' ret t;; parseargs fuel' argc ret t
  end.

(** The first loop of [parseline]. *)
Fixpoint parseback (fuel : nat) (c : cmd ptrs) (t : list Z) : parsed (cmd ptrs) :=
  match fuel with
  | O => OutOfFuel
  | S fuel' =>
      let '(yes, t) := peek t (str "&") in
      if yes then parseback fuel' (backcmd c) (advance t) else Parsed c t
  end.

Fixpoint parseline (fuel : nat) (t : list Z) {struct fuel} : parsed (cmd ptrs) :=
  match fuel with
  | O => OutOfFuel
  | S fuel' =>
      '(c, t) <- parsepipe fuel' t;;
      '(c, t) <- parseback fuel' c t;;
      let '(yes, t) := peek t (str ";") in
      if yes then '(r, t) <- parseline fuel' (advance t);; Parsed (listcmd c r) t
      else Parsed c t
  end
with parsepipe (fuel : nat) (t : list Z) {struct fuel} : parsed (cmd ptrs) :=
  match fuel with
  | O => OutOfFuel
  | S fuel' =>
      '(c, t) <- parseexec fuel' t;;
      let '(yes, t) := peek t (str "|") in
      if yes then '(r, t) <- parsepipe fuel' (advance t);; Parsed (pipecmd c r) t
      else Parsed c t
  end
with parseexec (fuel : nat) (t : list Z) {struct fuel} : parsed (cmd ptrs) :=
  match fuel with
  | O => OutOfFuel
  | S fuel' =>
      let '(yes, t) := peek t (str "(") in
      if yes then parseblock fuel' t
      else '(ret, t) <- parseredirs fuel' execcmd t;; parseargs fuel' 0 ret t
  end
with parseblock (fuel : nat) (t : list Z) {struct fuel} : parsed (cmd ptrs) :=
  match fuel with
  | O => OutOfFuel
  | S fuel' =>
      let '(yes, t) := peek t (str "(") in
      if negb yes then sh_panic "parseblock"
      else
        '(c, t) <- parseline fuel' (advance t);;
        let '(yes, t) := peek t (str ")") in
        if negb yes then sh_panic "syntax - missing )"
        else parseredirs fuel' c (advance t)
  end.

End line.

(** The depth of the calls for a line of [n] characters: four functions for each parenthesis. *)
Definition parse_fuel (n : nat) : nat := 4 * n + 4.

(** [parsecmd] up to [nulterminate]. *)
Definition parsetext (s : list Z) : parsed (cmd ptrs) :=
  '(c, t) <- parseline (length s) (parse_fuel (length s)) s;;
  let '(_, t) := peek t [] in
  match t with
  | [] => Parsed c []
  | _ => Syntax (printf (str "leftovers: %s" ++ [10]) [CStr t] ++ str "syntax" ++ [10])
  end.

(** The writes of [nulterminate], in its order. *)
Fixpoint nulterminate (c : cmd ptrs) (buf : list Z) : list Z :=
  match c with
  | EXEC argv => fold_left (fun b a => <[a.2 := 0]> b) argv buf
  | REDIR c' f _ _ => <[f.2 := 0]> (nulterminate c' buf)
  | PIPE l r | LIST l r => nulterminate r (nulterminate l buf)
  | BACK c' => nulterminate c' buf
  end.

(** The string at the beginning of an array. *)
Fixpoint c_string (buf : list Z) : list Z :=
  match buf with
  | c :: buf' => if c =? 0 then [] else c :: c_string buf'
  | [] => []
  end.

(** [buf] is the array with the line and its NUL; the command, and the array afterwards. *)
Definition parsecmd (buf : list Z) : parsed (cmd ptrs * list Z) :=
  '(c, t) <- parsetext (c_string buf);; Parsed (c, nulterminate c buf) t.

(** * Tokens get consumed *)

Lemma skip_space_suffix t : skip_space t `suffix_of` t.
Proof. induction t as [|c t IH]; simpl; [done|]. destruct (one_of whitespace c); [by apply suffix_cons_r|done]. Qed.

Lemma skip_word_suffix t : skip_word t `suffix_of` t.
Proof. induction t as [|c t IH]; simpl; [done|]. destruct (_ && _); [by apply suffix_cons_r|done]. Qed.

Lemma skip_space_char t : char_at (skip_space t) <> 0 -> one_of whitespace (char_at (skip_space t)) = false.
Proof. induction t as [|c t IH]; simpl; [done|]. destruct (one_of whitespace c) eqn:E; [done|]. simpl. by rewrite E. Qed.

Lemma skip_space_idem t : skip_space (skip_space t) = skip_space t.
Proof. induction t as [|c t IH]; simpl; [done|]. destruct (one_of whitespace c) eqn:E; [done|]. simpl. by rewrite E. Qed.

Lemma tail_suffix (t : list Z) : tail t `suffix_of` t.
Proof. destruct t; [done|]. by apply suffix_cons_r. Qed.

(** A character of a word. *)
Definition word_char (c : Z) : bool := negb (c =? 0) && negb (one_of whitespace c) && negb (one_of symbols c).

(** The symbols are the characters that [gettoken] treats one by one. *)
Lemma symbol_cases c :
  one_of symbols c = true <-> one_of (str "|();&<") c = true \/ c = chr ">".
Proof.
  unfold one_of, symbols. cbn [str strchr]. repeat case_match; simplify_eq; lia.
Qed.

(** A token that is not the end takes at least one character. *)
Lemma gettoken_spec es t tok q eq t' :
  gettoken es t = (tok, q, eq, t') ->
  exists u, u `suffix_of` skip_space t /\ t' = skip_space u /\ q = at_ptr es (skip_space t) /\ eq = at_ptr es u /\
    (char_at (skip_space t) = 0 /\ tok = 0 /\ u = skip_space t \/
     char_at (skip_space t) <> 0 /\ (length u < length (skip_space t))%nat /\
       (tok = chr "a" -> word_char (char_at (skip_space t)) = true /\ u = skip_word (skip_space t))).
Proof.
  unfold gettoken. set (s := skip_space t). pose proof (skip_space_char t) as Hs. fold s in Hs.
  assert (Hlt : char_at s <> 0 -> (length (tail s) < length s)%nat) by (by destruct s; simpl; [|lia]).
  destruct (Z.eqb_spec (char_at s) 0) as [E|E]; [intros [= <- <- <- <-]; exists s; by split_and!; [..|left]|].
  specialize (Hlt E). specialize (Hs E).
  destruct (one_of (str "|();&<") (char_at s)) eqn:E1.
  { intros [= <- <- <- <-]. exists (tail s). split_and!; [apply tail_suffix|done..|right].
    split_and!; [done|done|]. intros Ha. rewrite Ha in E1. done. }
  destruct (Z.eqb_spec (char_at s) (chr ">")) as [E2|E2].
  { destruct (char_at (tail s) =? chr ">"); intros [= <- <- <- <-].
    - exists (tail (tail s)). pose proof (suffix_length _ _ (tail_suffix (tail s))).
      split_and!; [etrans; apply tail_suffix|done..|right]. split_and!; [done|lia|done].
    - exists (tail s). split_and!; [apply tail_suffix|done..|right]. split_and!; [done|done|]. by rewrite E2. }
  assert (Ew : one_of symbols (char_at s) = false).
  { apply not_true_iff_false. rewrite symbol_cases. intros [?|?]; congruence. }
  intros [= <- <- <- <-]. exists (skip_word s). split_and!; [apply skip_word_suffix|done..|right]. split_and!; [done| |].
  - destruct s as [|c s']; [done|]. cbn [char_at] in *. cbn [skip_word]. rewrite Hs, Ew. simpl.
    pose proof (suffix_length _ _ (skip_word_suffix s')). lia.
  - intros _. split; [|done]. unfold word_char. rewrite Hs, Ew, (proj2 (Z.eqb_neq _ _) E). done.
Qed.

Lemma gettoken_suffix es t tok q eq t' :
  gettoken es t = (tok, q, eq, t') ->
  t' `suffix_of` t /\ (char_at (skip_space t) <> 0 -> (length t' < length t)%nat).
Proof.
  intros (u & Hu & -> & _ & _ & H)%gettoken_spec. pose proof (skip_space_suffix u) as Hs.
  pose proof (skip_space_suffix t) as Ht. split; [by etrans; [|etrans]|]. intros Hc.
  pose proof (suffix_length _ _ Hs). pose proof (suffix_length _ _ Ht). destruct H as [[? _]|(_ & ? & _)]; [done|lia].
Qed.

Lemma advance_suffix es t :
  advance es t `suffix_of` t /\ (char_at (skip_space t) <> 0 -> (length (advance es t) < length t)%nat).
Proof.
  unfold advance. destruct (gettoken es t) as [[[tok q] eq] t'] eqn:E. by apply gettoken_suffix in E.
Qed.

Lemma peek_spec t toks yes t' :
  peek t toks = (yes, t') ->
  t' = skip_space t /\ t' `suffix_of` t /\ (yes = true <-> char_at t' <> 0 /\ one_of toks (char_at t') = true).
Proof.
  intros [= <- <-]. split_and!; [done|apply skip_space_suffix|].
  rewrite andb_true_iff, negb_true_iff, Z.eqb_neq. done.
Qed.

(** * The words of a command *)

(** A word of the line [s]: characters of words up to the end of the line or another character. *)
Definition word_ok (s : list Z) (w : ptrs) : Prop :=
  exists pre txt post, s = pre ++ txt ++ post /\ w.1 = length pre /\ w.2 = (length pre + length txt)%nat /\
    txt <> [] /\ Forall (fun c => word_char c = true) txt /\ (post = [] \/ word_char (char_at post) = false).

(** Every command has fewer than [MAXARGS] arguments, and all words are words of the line. *)
Fixpoint cmd_ok (s : list Z) (c : cmd ptrs) : Prop :=
  match c with
  | EXEC argv => (length argv < MAXARGS)%nat /\ Forall (word_ok s) argv
  | REDIR c' f _ _ => cmd_ok s c' /\ word_ok s f
  | PIPE l r | LIST l r => cmd_ok s l /\ cmd_ok s r
  | BACK c' => cmd_ok s c'
  end.

(** What [parseexec] builds: redirections around a command with [argc] arguments. *)
Fixpoint simple (argc : nat) (c : cmd ptrs) : Prop :=
  match c with
  | EXEC argv => length argv = argc
  | REDIR c' _ _ _ => simple argc c'
  | _ => False
  end.

Lemma skip_word_split t :
  exists txt, t = txt ++ skip_word t /\ Forall (fun c => negb (one_of whitespace c) && negb (one_of symbols c) = true) txt /\
    (skip_word t = [] \/ word_char (char_at (skip_word t)) = false).
Proof.
  induction t as [|c t (txt & E & Hw & Hp)]; simpl; [exists []; split_and!; [done|constructor|by left]|].
  destruct (negb (one_of whitespace c) && negb (one_of symbols c)) eqn:Ec.
  - exists (c :: txt). split_and!; [by rewrite E at 1|by constructor|done].
  - exists []. split_and!; [done|constructor|right]. unfold word_char. simpl. by rewrite <- andb_assoc, Ec, andb_false_r.
Qed.

(** A token of kind 'a' is a word. *)
Lemma gettoken_word s t q eq t' :
  Forall (fun c => c <> 0) s -> t `suffix_of` s -> gettoken (length s) t = (chr "a", q, eq, t') -> word_ok s (q, eq).
Proof.
  intros Hnz Ht (u & Hu & -> & -> & -> & H)%gettoken_spec.
  destruct H as [(_ & E & _)|(Hc & Hlt & Hw)]; [done|]. destruct (Hw eq_refl) as [Hch ->]. clear Hw.
  assert (Hs : skip_space t `suffix_of` s) by (etrans; [apply skip_space_suffix|done]).
  destruct Hs as [pre Es]. set (v := skip_space t) in *. destruct (skip_word_split v) as (txt & Ev & Htxt & Hpost).
  exists pre, txt, (skip_word v). unfold at_ptr. cbn [fst snd].
  assert (El : length s = (length pre + length txt + length (skip_word v))%nat) by (rewrite Es, Ev at 1; rewrite !length_app; lia).
  assert (Elv : length v = (length txt + length (skip_word v))%nat) by (rewrite Ev at 1; by rewrite length_app).
  split_and!; [by rewrite <- Ev|lia|lia| | |done].
  - intros ->. simpl in *. lia.
  - apply Forall_forall. intros c Hin. unfold word_char. rewrite <- andb_assoc, (proj1 (Forall_forall _ _) Htxt c Hin), andb_true_r.
    rewrite Forall_forall in Hnz. rewrite (proj2 (Z.eqb_neq c 0)); [done|]. apply Hnz. rewrite Es, Ev. set_solver.
Qed.

(** * Parsing ends, with a well-formed command *)

Section parsing.
Context (s : list Z).
Hypothesis nonzero : Forall (fun c => c <> 0) s.

Local Abbreviation es := (length s).

(** A parser ends: at a position of the line with at most [n] characters left and a command that satisfies
    [P], or with a message. *)
Definition ends (P : cmd ptrs -> Prop) (n : nat) (m : parsed (cmd ptrs)) : Prop :=
  match m with
  | Parsed c t => t `suffix_of` s /\ (length t <= n)%nat /\ P c
  | Syntax _ => True
  | OutOfFuel => False
  end.

Lemma ends_bind P Q n k m f :
  ends P n m -> (forall c t, t `suffix_of` s -> (length t <= n)%nat -> P c -> ends Q k (f c t)) -> ends Q k (pbind m f).
Proof. destruct m as [c t|e|]; simpl; [|done|done]. intros (H1 & H2 & H3) H. by apply H. Qed.

Lemma ends_le P n k m : ends P n m -> (n <= k)%nat -> ends P k m.
Proof. destruct m as [c t|e|]; simpl; [|done|done]. intros (? & ? & ?) ?. split_and!; [done|lia|done]. Qed.

Lemma peek_in t toks yes t' :
  t `suffix_of` s -> peek t toks = (yes, t') ->
  t' `suffix_of` s /\ (length t' <= length t)%nat /\ (yes = true -> char_at (skip_space t') <> 0).
Proof.
  intros Ht (-> & Hs & Hy)%peek_spec. split_and!; [by etrans|by apply suffix_length|].
  rewrite skip_space_idem. intros E. by apply Hy.
Qed.

Lemma advance_in t :
  t `suffix_of` s -> char_at (skip_space t) <> 0 -> advance es t `suffix_of` s /\ (length (advance es t) < length t)%nat.
Proof. intros Ht Hc. destruct (advance_suffix es t) as [H1 H2]. split; [by etrans|by apply H2]. Qed.

Lemma parseredirs_ends (P : cmd ptrs -> Prop) fuel c t :
  (forall c f m fd, P c -> word_ok s f -> P (REDIR c f m fd)) ->
  P c -> t `suffix_of` s -> (length t < fuel)%nat -> ends P (length t) (parseredirs es fuel c t).
Proof.
  intros HP. revert c t. induction fuel as [|fuel IH]; intros c t Hc Ht Hf; [lia|]. cbn [parseredirs].
  destruct (peek t (str "<>")) as [yes t1] eqn:Hpk. destruct (peek_in _ _ _ _ Ht Hpk) as (Ht1 & Hl1 & Hy).
  destruct yes; [|by split_and!].
  destruct (gettoken es t1) as [[[tok q0] eq0] t2] eqn:Hg1. destruct (gettoken_suffix _ _ _ _ _ _ Hg1) as [Hs2 Hl2].
  specialize (Hl2 (Hy eq_refl)). assert (Ht2 : t2 `suffix_of` s) by (by etrans).
  destruct (gettoken es t2) as [[[tok2 q] eq] t3] eqn:Hg2. destruct (gettoken_suffix _ _ _ _ _ _ Hg2) as [Hs3 _].
  destruct (Z.eqb_spec tok2 (chr "a")) as [->|]; [|done]. cbn [negb].
  pose proof (gettoken_word _ _ _ _ _ nonzero Ht2 Hg2) as Hw. pose proof (suffix_length _ _ Hs3) as Hl3.
  eapply (ends_le P (length t3)); [|lia]. apply IH; [|by etrans|lia].
  repeat case_match; auto.
Qed.

Lemma simple_add argc c w : simple argc c -> simple (S argc) (add_arg c w).
Proof. induction c; simpl; auto. intros <-. rewrite length_app. simpl. lia. Qed.

Lemma cmd_ok_add argc c w :
  simple argc c -> (S argc < MAXARGS)%nat -> cmd_ok s c -> word_ok s w -> cmd_ok s (add_arg c w).
Proof.
  induction c; simpl; try tauto; intros Hs Hm Hok Hw.
  - destruct Hok as [_ Ha]. rewrite length_app. simpl. split; [lia|]. apply Forall_app. by split; [|constructor].
Qed.

Lemma parseargs_ends fuel argc ret t :
  simple argc ret -> cmd_ok s ret -> t `suffix_of` s -> (length t < fuel)%nat ->
  ends (cmd_ok s) (length t) (parseargs es fuel argc ret t).
Proof.
  revert argc ret t. induction fuel as [|fuel IH]; intros argc ret t Hsim Hok Ht Hf; [lia|]. cbn [parseargs].
  destruct (peek t (str "|)&;")) as [yes t1] eqn:Hpk. destruct (peek_in _ _ _ _ Ht Hpk) as (Ht1 & Hl1 & _).
  destruct yes; [by split_and!|].
  destruct (gettoken es t1) as [[[tok q] eq] t2] eqn:Hg. destruct (gettoken_suffix _ _ _ _ _ _ Hg) as [Hs2 Hl2].
  assert (Ht2 : t2 `suffix_of` s) by (by etrans). pose proof (suffix_length _ _ Hs2) as Hl2'.
  destruct (Z.eqb_spec tok 0) as [|Hne]; [split_and!; [done|lia|done]|].
  destruct (Z.eqb_spec tok (chr "a")) as [->|]; [|done]. cbn [negb].
  pose proof (gettoken_word _ _ _ _ _ nonzero Ht1 Hg) as Hw.
  assert (Hlt : (length t2 < length t1)%nat).
  { apply Hl2. apply gettoken_spec in Hg as (u & _ & _ & _ & _ & [(_ & E & _)|(E & _)]); done. }
  destruct (Nat.leb_spec MAXARGS (S argc)) as [|Hm]; [done|].
  eapply (ends_bind (fun c => simple (S argc) c /\ cmd_ok s c) _ (length t2)).
  - apply parseredirs_ends; [|split; [by apply simple_add|by eapply cmd_ok_add]|done|lia].
    intros c f m fd [? ?] ?. by split; [|split].
  - intros c t3 Ht3 Hl3 [Hsim' Hok']. eapply (ends_le _ (length t3)); [|lia]. apply IH; [done|done|done|lia].
Qed.

Lemma parseback_ends fuel c t :
  cmd_ok s c -> t `suffix_of` s -> (length t < fuel)%nat -> ends (cmd_ok s) (length t) (parseback es fuel c t).
Proof.
  revert c t. induction fuel as [|fuel IH]; intros c t Hc Ht Hf; [lia|]. cbn [parseback].
  destruct (peek t (str "&")) as [yes t1] eqn:Hpk. destruct (peek_in _ _ _ _ Ht Hpk) as (Ht1 & Hl1 & Hy).
  destruct yes; [|by split_and!]. destruct (advance_in t1 Ht1 (Hy eq_refl)) as [Ha Hl].
  eapply ends_le; [apply IH; [done|done|lia]|lia].
Qed.

(** The calls of the parser need no more fuel than four times what is left of the line. *)
Lemma parse_ends fuel :
  (forall t, t `suffix_of` s -> (4 * length t + 4 <= fuel)%nat -> ends (cmd_ok s) (length t) (parseline es fuel t)) /\
  (forall t, t `suffix_of` s -> (4 * length t + 3 <= fuel)%nat -> ends (cmd_ok s) (length t) (parsepipe es fuel t)) /\
  (forall t, t `suffix_of` s -> (4 * length t + 2 <= fuel)%nat -> ends (cmd_ok s) (length t) (parseexec es fuel t)) /\
  (forall t, t `suffix_of` s -> (4 * length t + 1 <= fuel)%nat -> ends (cmd_ok s) (length t) (parseblock es fuel t)).
Proof.
  induction fuel as [|fuel (IHl & IHp & IHe & IHb)]; [split_and!; intros t ? ?; lia|].
  split_and!; intros t Ht Hf; cbn [parseline parsepipe parseexec parseblock].
  - eapply ends_bind; [apply IHp; [done|lia]|]. intros c t1 Ht1 Hl1 Hc.
    eapply ends_bind; [apply parseback_ends; [exact Hc|done|lia]|]. intros c2 t2 Ht2 Hl2 Hc2.
    destruct (peek t2 (str ";")) as [yes t3] eqn:Hpk. destruct (peek_in _ _ _ _ Ht2 Hpk) as (Ht3 & Hl3 & Hy).
    destruct yes; [|split_and!; [done|lia|done]]. destruct (advance_in t3 Ht3 (Hy eq_refl)) as [Ha Hl].
    eapply ends_bind; [apply IHl; [done|lia]|]. intros r t4 Ht4 Hl4 Hr. split_and!; [done|lia|by split].
  - eapply ends_bind; [apply IHe; [done|lia]|]. intros c t1 Ht1 Hl1 Hc.
    destruct (peek t1 (str "|")) as [yes t3] eqn:Hpk. destruct (peek_in _ _ _ _ Ht1 Hpk) as (Ht3 & Hl3 & Hy).
    destruct yes; [|split_and!; [done|lia|done]]. destruct (advance_in t3 Ht3 (Hy eq_refl)) as [Ha Hl].
    eapply ends_bind; [apply IHp; [done|lia]|]. intros r t4 Ht4 Hl4 Hr. split_and!; [done|lia|by split].
  - destruct (peek t (str "(")) as [yes t1] eqn:Hpk. destruct (peek_in _ _ _ _ Ht Hpk) as (Ht1 & Hl1 & _).
    destruct yes; [eapply ends_le; [apply IHb; [done|lia]|lia]|].
    eapply (ends_bind (fun c => simple 0 c /\ cmd_ok s c)).
    + apply parseredirs_ends; [|split; [done|split; [unfold MAXARGS; simpl; lia|constructor]]|done|lia].
      intros c f m fd [? ?] ?. by split; [|split].
    + intros c t2 Ht2 Hl2 [Hsim Hok]. eapply ends_le; [apply parseargs_ends; [done|done|done|lia]|lia].
  - destruct (peek t (str "(")) as [yes t1] eqn:Hpk. destruct (peek_in _ _ _ _ Ht Hpk) as (Ht1 & Hl1 & Hy).
    destruct yes; [cbn [negb]|done]. destruct (advance_in t1 Ht1 (Hy eq_refl)) as [Ha Hl].
    eapply ends_bind; [apply IHl; [done|lia]|]. intros c t2 Ht2 Hl2 Hc.
    destruct (peek t2 (str ")")) as [yes t3] eqn:Hpk2. destruct (peek_in _ _ _ _ Ht2 Hpk2) as (Ht3 & Hl3 & Hy3).
    destruct yes; [cbn [negb]|done]. destruct (advance_in t3 Ht3 (Hy3 eq_refl)) as [Ha3 Hl3'].
    eapply ends_le; [apply (parseredirs_ends (cmd_ok s)); [by split|done|done|lia]|lia].
Qed.

Lemma parsetext_ends : ends (cmd_ok s) 0 (parsetext s).
Proof.
  unfold parsetext. destruct (parse_ends (parse_fuel es)) as [Hl _].
  eapply ends_bind; [apply Hl; [done|unfold parse_fuel; lia]|]. intros c t Ht _ Hc.
  destruct (peek t []) as [yes t1] eqn:Hpk. destruct t1; [|done]. split_and!; [apply suffix_nil|simpl; lia|done].
Qed.

End parsing.
