(* ===== verification/ShSpec.v ===== *)
(** The parser of the shell against its grammar: parsing ends on every line, the words of a parsed
    command are the words of the line, and every command can be written as a line that parses to it. *)

From S2P Require Import Prelude Params Mem State Spinlock Console Ulib Sh.

(** * Parsing ends *)

Lemma c_string_nonzero buf : Forall (fun c => c <> 0) (c_string buf).
Proof.
  induction buf as [|c buf IH]; simpl; [constructor|]. destruct (Z.eqb_spec c 0); [constructor|by constructor].
Qed.

(** C25: The parser of the shell ends on every line, well-formed or not: it returns a command or prints
    why it does not. *)
Theorem parsecmd_ends buf : parsecmd buf <> OutOfFuel.
Proof.
  unfold parsecmd. pose proof (parsetext_ends _ (c_string_nonzero buf)) as H.
  destruct (parsetext (c_string buf)) as [c t|e|]; [done|done|]. by destruct H.
Qed.

(** * The words of a command *)

Fixpoint words {W} (c : cmd W) : list W :=
  match c with
  | EXEC argv => argv
  | REDIR c' f _ _ => words c' ++ [f]
  | PIPE l r | LIST l r => words l ++ words r
  | BACK c' => words c'
  end.

(** The text between two pointers into the line. *)
Definition slice (s : list Z) (w : ptrs) : list Z := take (w.2 - w.1) (drop w.1 s).

Lemma cmd_ok_words s c : cmd_ok s c -> Forall (word_ok s) (words c).
Proof. induction c; simpl; rewrite ?Forall_app, ?Forall_singleton; tauto. Qed.

(** [nulterminate] writes at the ends of the words. *)
Definition terminate (buf : list Z) (ws : list ptrs) : list Z := fold_left (fun b a => <[a.2 := 0]> b) ws buf.

Lemma nulterminate_words c buf : nulterminate c buf = terminate buf (words c).
Proof.
  revert buf. induction c as [argv|c IH f m fd|l IHl r IHr|l IHl r IHr|c IH]; intros buf; cbn [nulterminate words].
  - done.
  - unfold terminate in *. by rewrite fold_left_app, IH.
  - unfold terminate in *. by rewrite fold_left_app, IHl, IHr.
  - unfold terminate in *. by rewrite fold_left_app, IHl, IHr.
  - apply IH.
Qed.

Lemma terminate_length ws buf : length (terminate buf ws) = length buf.
Proof. unfold terminate. revert buf. induction ws as [|w ws IH]; intros buf; simpl; [done|]. by rewrite IH, length_insert. Qed.

Lemma terminate_other ws buf i : i ∉ ws.*2 -> terminate buf ws !! i = buf !! i.
Proof.
  unfold terminate. revert buf. induction ws as [|w ws IH]; intros buf Hi; simpl in *; [done|].
  rewrite IH by set_solver. apply list_lookup_insert_ne. set_solver.
Qed.

Lemma terminate_end ws buf i : i ∈ ws.*2 -> (i < length buf)%nat -> terminate buf ws !! i = Some 0.
Proof.
  unfold terminate. revert buf. induction ws as [|w ws IH]; intros buf Hi Hl; simpl in *; [by apply not_elem_of_nil in Hi|].
  destruct (decide (i ∈ ws.*2)) as [Hin|Hout]; [apply IH; [done|by rewrite length_insert]|].
  apply elem_of_cons in Hi as [->|Hi]; [|done].
  change (terminate (<[w.2 := 0]> buf) ws !! w.2 = Some 0). rewrite terminate_other by done.
  by apply list_lookup_insert_eq.
Qed.

(** The string at a pointer, by its characters. *)
Lemma c_string_at b q txt :
  Forall (fun c => c <> 0) txt -> (forall i c, txt !! i = Some c -> b !! (q + i)%nat = Some c) ->
  b !! (q + length txt)%nat = Some 0 -> c_string (drop q b) = txt.
Proof.
  intros Hnz Htxt Hend. revert q Htxt Hend. induction Hnz as [|c txt Hc _ IH]; intros q Htxt Hend.
  - rewrite Nat.add_0_r in Hend. by rewrite (drop_S _ _ _ Hend).
  - pose proof (Htxt 0%nat c eq_refl) as H0. rewrite Nat.add_0_r in H0. rewrite (drop_S _ _ _ H0). simpl.
    rewrite (proj2 (Z.eqb_neq _ _) Hc). f_equal. apply IH.
    + intros i d Hd. rewrite Nat.add_succ_comm. by apply (Htxt (S i)).
    + simpl in Hend. by rewrite Nat.add_succ_comm.
Qed.

(** The end of a word is not inside of another. *)
Lemma word_end_outside s v w i :
  word_ok s v -> word_ok s w -> (w.1 <= i < w.2)%nat -> v.2 <> i.
Proof.
  intros (p & t & r & Es & _ & Ev & _ & _ & Hr) (p' & t' & r' & Es' & E1 & E2 & _ & Ht' & _) Hi <-.
  assert (Hc : exists c, s !! v.2 = Some c /\ word_char c = true).
  { destruct (lookup_lt_is_Some_2 t' (v.2 - w.1)) as [c Hc]; [lia|]. exists c. split.
    - rewrite Es', lookup_app_r by lia. rewrite <- E1. by apply lookup_app_l_Some.
    - rewrite Forall_forall in Ht'. apply Ht'. by eapply list_elem_of_lookup_2. }
  destruct Hc as (c & Hc & Hw). rewrite Es, Ev, app_assoc in Hc.
  rewrite lookup_app_r, length_app, Nat.sub_diag in Hc by (rewrite length_app; lia).
  destruct r as [|d r]; [done|]. injection Hc as ->. destruct Hr as [?|Hr]; [done|]. simpl in Hr. congruence.
Qed.

Lemma c_string_prefix buf : 0 ∈ buf -> exists rest, buf = c_string buf ++ 0 :: rest.
Proof.
  induction buf as [|c buf IH]; intros Hin; [by apply not_elem_of_nil in Hin|]. simpl.
  destruct (Z.eqb_spec c 0) as [->|Hne]; [by exists buf|].
  destruct IH as [rest E]; [by apply elem_of_cons in Hin as [?|?]|]. exists rest. simpl. by f_equal.
Qed.

(** The words of the line after the NULs have been written. *)
Lemma terminate_words s rest ws :
  Forall (fun c => c <> 0) s -> Forall (word_ok s) ws ->
  Forall (fun w => c_string (drop w.1 (terminate (s ++ 0 :: rest) ws)) = slice s w) ws.
Proof.
  intros Hnz Hws. apply Forall_forall. intros w Hw. rewrite Forall_forall in Hws.
  pose proof (Hws w Hw) as (p & t & r & Es & E1 & E2 & _ & Ht & Hr).
  assert (Esl : slice s w = t).
  { unfold slice. rewrite E1, E2, Es, drop_app_length. replace (length p + length t - length p)%nat with (length t) by lia.
    apply take_app_length. }
  rewrite Esl. apply c_string_at.
  - apply Forall_forall. intros c Hc. rewrite Forall_forall in Hnz. apply Hnz. rewrite Es. set_solver.
  - intros i c Hc. pose proof (lookup_lt_Some _ _ _ Hc). rewrite terminate_other.
    + rewrite Es, <- !app_assoc, E1, lookup_app_r by lia. replace (length p + i - length p)%nat with i by lia.
      by apply lookup_app_l_Some.
    + intros (v & Ev & Hv)%list_elem_of_fmap. apply (word_end_outside s v w (w.1 + i)); [by apply Hws|by apply Hws|lia|done].
  - rewrite E1, <- E2. apply terminate_end; [apply list_elem_of_fmap; by exists w|].
    rewrite E2, Es, !length_app. simpl. lia.
Qed.

(** C24: The strings of a parsed command are the words of the line.  When the parser has put its NULs into the buffer,
    the C string at each argument and file name is the text of that word in the line as it was typed, though
    the NULs overwrite the characters that follow the words; every write is inside of the buffer, and
    no command has more than nine arguments. *)
Theorem parsecmd_words buf c buf' t :
  0 ∈ buf -> parsecmd buf = Parsed (c, buf') t ->
  cmd_ok (c_string buf) c /\ length buf' = length buf /\
  Forall (fun w => (w.2 < length buf)%nat /\ c_string (drop w.1 buf') = slice (c_string buf) w) (words c).
Proof.
  intros Hnul. unfold parsecmd. pose proof (c_string_nonzero buf) as Hnz.
  pose proof (parsetext_ends _ Hnz) as H. destruct (parsetext (c_string buf)) as [c0 t0|e|]; simpl; [|done|done].
  intros [= -> <- ->]. destruct H as (_ & _ & Hok). pose proof (cmd_ok_words _ _ Hok) as Hw.
  destruct (c_string_prefix buf Hnul) as [rest Eb]. rewrite nulterminate_words. split_and!; [done|by rewrite terminate_length|].
  pose proof (terminate_words _ rest _ Hnz Hw) as Ht. rewrite <- Eb in Ht.
  apply Forall_forall. intros w Hin. rewrite Forall_forall in Hw, Ht. split; [|by apply Ht].
  destruct (Hw w Hin) as (p & x & r & Es & _ & -> & _). rewrite Eb, Es, !length_app. simpl. lia.
Qed.

Definition sample_line : list Z := str "ls -l<in|(cat;wc)>out&" ++ [10; 0; 0].

Lemma parsecmd_words_witness :
  exists c buf', parsecmd sample_line = Parsed (c, buf') [] /\
    (fun w => c_string (drop w.1 buf')) <$> words c =
    [str "ls"; str "-l"; str "in"; str "cat"; str "wc"; str "out"].
Proof.
  assert (E : exists c buf', parsecmd sample_line = Parsed (c, buf') []) by (eexists _, _; vm_compute; reflexivity).
  destruct E as (c & buf' & E). exists c, buf'. split; [exact E|].
  pose proof (parsecmd_words sample_line c buf' [] ltac:(by apply (bool_decide_unpack (0 ∈ sample_line))) E) as (_ & _ & H).
  rewrite (list_fmap_ext _ (slice (c_string sample_line)) (words c)).
  - vm_compute in E. injection E as <- <-. vm_compute. reflexivity.
  - intros i w Hw. exact (proj2 (proj1 (Forall_lookup _ _) H i w Hw)).
Defined.
