(* ===== verification/ShPrint.v ===== *)
(** Commands of the shell as text: the grammar of sh.c as a printer, with parentheses only where the grammar
    needs them, and the proof that the parser inverts it. *)

From S2P Require Import Prelude Params Mem State Spinlock Console Ulib Sh ShSpec.

Fixpoint cmd_map {V W} (f : V -> W) (c : cmd V) : cmd W :=
  match c with
  | EXEC argv => EXEC (f <$> argv)
  | REDIR c' w m fd => REDIR (cmd_map f c') (f w) m fd
  | PIPE l r => PIPE (cmd_map f l) (cmd_map f r)
  | LIST l r => LIST (cmd_map f l) (cmd_map f r)
  | BACK c' => BACK (cmd_map f c')
  end.

(** * The printer *)

Definition show_word (w : list Z) : list Z := w ++ [32].

Definition show_redir (w : list Z) (mode : Z) : list Z :=
  (if mode =? O_RDONLY then chr "<" else chr ">") :: show_word w.

Definition parens (b : bool) (t : list Z) : list Z := if b then chr "(" :: t ++ [chr ")"] else t.

(** The levels of the grammar: 0 for what [parseexec] reads, 1 for pipelines, 2 with trailing '&', 3 for lists. *)
Fixpoint show (level : nat) (c : cmd (list Z)) : list Z :=
  match c with
  | EXEC argv => concat (show_word <$> argv)
  | REDIR c' w m _ => show 0 c' ++ show_redir w m
  | PIPE l r => parens (level <? 1)%nat (show 0 l ++ chr "|" :: show 1 r)
  | BACK c' => parens (level <? 2)%nat (show 2 c' ++ [chr "&"])
  | LIST l r => parens (level <? 3)%nat (show 2 l ++ chr ";" :: show 3 r)
  end.

(** The commands that can be typed: words without special characters, at most nine arguments, and the
    two kinds of redirection. *)
Definition text_ok (w : list Z) : Prop := w <> [] /\ Forall (fun c => word_char c = true) w.
Definition redir_ok (m fd : Z) : Prop := m = O_RDONLY /\ fd = 0 \/ m = Z.lor O_WRONLY O_CREATE /\ fd = 1.

Fixpoint typable (c : cmd (list Z)) : Prop :=
  match c with
  | EXEC argv => Forall text_ok argv /\ (length argv < MAXARGS)%nat
  | REDIR c' w m fd => typable c' /\ text_ok w /\ redir_ok m fd
  | PIPE l r | LIST l r => typable l /\ typable r
  | BACK c' => typable c'
  end.

(** * Tokens of printed text *)

Lemma one_of_elem set c : 0 ∉ set -> one_of set c = true <-> c ∈ set.
Proof.
  unfold one_of. induction set as [|x set IH]; intros H0; simpl.
  - split; [done|]. by intros ?%not_elem_of_nil.
  - rewrite (proj2 (Z.eqb_neq x 0)) by set_solver. rewrite elem_of_cons. destruct (Z.eqb_spec x c) as [->|Hne].
    + split; [by left|done].
    + rewrite <- IH by set_solver. destruct (strchr set c); simpl; split; [by right|done|by right|].
      intros [->|?]; done.
Qed.

Lemma word_char_symbol c : word_char c = true -> c <> 0 /\ one_of whitespace c = false /\ c ∉ symbols.
Proof.
  unfold word_char. rewrite !andb_true_iff, !negb_true_iff, Z.eqb_neq. intros [[H0 Hw] Hs]. split_and!; [done|done|].
  intros Hin. apply one_of_elem in Hin; [congruence|]. by apply (bool_decide_unpack (0 ∉ symbols)).
Qed.

(** Sets of symbols, as [peek] gets them. *)
Lemma word_not_in toks c : word_char c = true -> toks ⊆ symbols -> one_of toks c = false.
Proof.
  intros (H0 & _ & Hs)%word_char_symbol Hsub. apply not_true_iff_false. rewrite one_of_elem; [set_solver|].
  intros Hin. apply Hsub in Hin. revert Hin. by apply (bool_decide_unpack (0 ∉ symbols)).
Qed.

(** Text that does not begin with white space. *)
Definition tight (t : list Z) : Prop := skip_space t = t.

Lemma tight_cons c t : one_of whitespace c = false -> tight (c :: t).
Proof. intros E. unfold tight. simpl. by rewrite E. Qed.

Lemma tight_word w t : text_ok w -> tight (w ++ t).
Proof.
  intros [Hne Hw]. destruct w as [|c w]; [done|]. apply Forall_cons in Hw as [Hc _].
  apply tight_cons. by apply word_char_symbol.
Qed.

Lemma peek_tight t toks : tight t -> peek t toks = (negb (char_at t =? 0) && one_of toks (char_at t), t).
Proof. intros Ht. unfold peek. by rewrite Ht. Qed.

Lemma skip_word_text w t : Forall (fun c => word_char c = true) w -> skip_word (w ++ 32 :: t) = 32 :: t.
Proof.
  induction 1 as [|c w Hc _ IH]; [done|]. simpl.
  assert (E : negb (one_of whitespace c) && negb (one_of symbols c) = true).
  { revert Hc. unfold word_char. rewrite <- andb_assoc, andb_true_iff. by intros [_ ?]. }
  by rewrite E.
Qed.

Lemma slice_at pre w post :
  slice (pre ++ w ++ post) (length pre, (length pre + length w)%nat) = w.
Proof.
  unfold slice. simpl. rewrite drop_app_length. replace (length pre + length w - length pre)%nat with (length w) by lia.
  apply take_app_length.
Qed.

(** [gettoken] on a printed word. *)
Lemma gettoken_text s w t :
  show_word w ++ t `suffix_of` s -> text_ok w -> tight t ->
  exists q eq, gettoken (length s) (show_word w ++ t) = (chr "a", q, eq, t) /\ slice s (q, eq) = w.
Proof.
  intros [pre Es] Hw Ht. unfold show_word in *. rewrite <- app_assoc in *. cbn [app] in *.
  exists (length pre), (length pre + length w)%nat. split; [|rewrite Es; apply slice_at].
  unfold gettoken. rewrite (tight_word w _ Hw : skip_space _ = _). destruct Hw as [Hne Hw].
  destruct w as [|c w]; [done|]. pose proof Hw as [Hc _]%Forall_cons. destruct (word_char_symbol _ Hc) as (H0 & _ & Hs).
  assert (E1 : one_of (str "|();&<") c = false) by (apply word_not_in; [done|by apply (bool_decide_unpack (str "|();&<" ⊆ symbols))]).
  assert (E2 : (c =? chr ">") = false) by (apply Z.eqb_neq; intros ->; apply Hs; by apply (bool_decide_unpack (chr ">" ∈ symbols))).
  change (char_at ((c :: w) ++ 32 :: t)) with c. rewrite (proj2 (Z.eqb_neq _ _) H0), E1, E2.
  rewrite skip_word_text by done. unfold at_ptr. rewrite Es, !length_app. cbn [skip_space length one_of].
  change (one_of whitespace 32) with true. cbn iota. rewrite Ht. repeat f_equal; simpl; lia.
Qed.

(** The symbols that are tokens of one character. *)
Lemma gettoken_symbol es c t :
  c ∈ str "|();&<" -> tight t -> (gettoken es (c :: t)).1.1.1 = c /\ advance es (c :: t) = t.
Proof.
  intros Hc Ht. unfold advance, gettoken.
  assert (Hc' : one_of whitespace c = false /\ (c =? 0) = false /\ one_of (str "|();&<") c = true).
  { cbn [str] in Hc. rewrite !elem_of_cons in Hc. destruct Hc as [->|[->|[->|[->|[->|[->|Hc]]]]]]; try done.
    by apply not_elem_of_nil in Hc. }
  destruct Hc' as (E1 & E2 & E3). rewrite (tight_cons c t E1 : skip_space _ = _). cbn [char_at]. rewrite E2, E3.
  cbn [tail fst snd]. done.
Qed.

(** '>' is a token of its own before a word. *)
Lemma gettoken_gt es c t : word_char c = true -> (gettoken es (chr ">" :: c :: t)) = (chr ">", at_ptr es (chr ">" :: c :: t), at_ptr es (c :: t), c :: t).
Proof.
  intros Hc. destruct (word_char_symbol _ Hc) as (_ & Hw & Hs). unfold gettoken.
  assert (E : (c =? chr ">") = false) by (apply Z.eqb_neq; intros ->; apply Hs; by apply (bool_decide_unpack (chr ">" ∈ symbols))).
  cbn [skip_space]. change (one_of whitespace (chr ">")) with false. cbn iota. cbn [char_at tail].
  change (chr ">" =? 0) with false. change (one_of (str "|();&<") (chr ">")) with false. rewrite Z.eqb_refl, E. cbn iota.
  by rewrite (tight_cons c t Hw : skip_space _ = _).
Qed.

(** The token of a printed redirection. *)
Lemma gettoken_redir es m w t :
  text_ok w ->
  let op := if m =? O_RDONLY then chr "<" else chr ">" in
  exists q eq, gettoken es (op :: show_word w ++ t) = (op, q, eq, show_word w ++ t).
Proof.
  intros Hw op. assert (Htw : tight (show_word w ++ t)) by (unfold show_word; rewrite <- app_assoc; by apply tight_word).
  subst op. destruct (m =? O_RDONLY).
  - destruct (gettoken_symbol es (chr "<") (show_word w ++ t)) as [E1 E2]; [set_solver|done|]. unfold advance in E2.
    destruct (gettoken es (chr "<" :: show_word w ++ t)) as [[[tok q] eq] t']. simpl in *. subst. by eexists _, _.
  - destruct w as [|a w]; [by destruct Hw|]. destruct Hw as [_ [Ha _]%Forall_cons].
    eexists _, _. by apply gettoken_gt.
Qed.

(** * The parser inverts the printer *)

(** What may follow the text of a level: nothing, or a symbol that ends the level. *)
Definition follow_set (level : nat) : list Z :=
  match level with
  | O => str "|)&;"
  | S O => str ")&;"
  | S (S O) => str ");"
  | _ => str ")"
  end.
Definition follows (level : nat) (t : list Z) : Prop := t = [] \/ char_at t ∈ follow_set level.

Lemma follows_zero level t : follows level t -> follows 0 t.
Proof.
  intros [->|H]; [by left|right]. revert H. generalize (char_at t). clear t. intros c.
  destruct level as [|[|[|level]]]; cbn [follow_set str]; set_solver.
Qed.

(** The next character decides what [peek] says, and it is never white space or NUL. *)
Lemma follows_peek level t toks :
  follows level t -> Forall (fun c => c <> 0) toks ->
  peek t toks = (match t with [] => false | c :: _ => bool_decide (c ∈ toks) end, t) /\ tight t.
Proof.
  intros Hf%follows_zero Hz. assert (Ht : tight t).
  { destruct t as [|c t]; [done|]. destruct Hf as [?|Hc]; [done|]. apply tight_cons. cbn [char_at follow_set str] in Hc.
    rewrite !elem_of_cons in Hc. destruct Hc as [->|[->|[->|[->|Hc]]]]; try done. by apply not_elem_of_nil in Hc. }
  split; [|done]. rewrite peek_tight by done. destruct t as [|c t]; [done|]. cbn [char_at]. destruct Hf as [?|Hc]; [done|].
  assert (E0 : (c =? 0) = false).
  { cbn [char_at follow_set str] in Hc. rewrite !elem_of_cons in Hc.
    destruct Hc as [->|[->|[->|[->|Hc]]]]; try done. by apply not_elem_of_nil in Hc. }
  rewrite E0. cbn [negb andb]. f_equal. apply eq_true_iff_eq. rewrite bool_decide_eq_true. apply one_of_elem.
  rewrite Forall_forall in Hz. intros H0. by apply (Hz 0 H0).
Qed.

(** A symbol of no level but the first is not there. *)
Lemma follows_not level t toks :
  follows level t -> Forall (fun c => c <> 0) toks -> (forall c, c ∈ toks -> c ∉ follow_set level) ->
  peek t toks = (false, t).
Proof.
  intros Hf Hz Hd. destruct (follows_peek level t toks Hf Hz) as [-> _]. f_equal. destruct t as [|c t]; [done|].
  destruct Hf as [?|Hc]; [done|]. apply bool_decide_eq_false. intros Hin. by apply (Hd c Hin).
Qed.

Section roundtrip.
Context (s : list Z).

Local Abbreviation es := (length s).

Definition redirs : Type := list (list Z * Z * Z).
Definition wrap (c : cmd (list Z)) (rs : redirs) : cmd (list Z) :=
  fold_left (fun c r => REDIR c r.1.1 r.1.2 r.2) rs c.
Definition show_redirs (rs : redirs) : list Z := concat ((fun r => show_redir r.1.1 r.1.2) <$> rs).
Definition redirs_ok (rs : redirs) : Prop := Forall (fun r => text_ok r.1.1 /\ redir_ok r.1.2 r.2) rs.

(** The result of a parser, with the words of its command read from the line. *)
Definition gives (m : parsed (cmd ptrs)) (c : cmd (list Z)) (t : list Z) : Prop :=
  exists c', m = Parsed c' t /\ cmd_map (slice s) c' = c.

Lemma gives_bind m c t f d u :
  gives m c t -> (forall c', cmd_map (slice s) c' = c -> gives (f c' t) d u) -> gives (pbind m f) d u.
Proof. intros (c' & -> & Ec) H. simpl. by apply H. Qed.

Lemma redirs_tight rs t : redirs_ok rs -> tight t -> tight (show_redirs rs ++ t).
Proof.
  intros Hr Ht. destruct rs as [|[[w m] fd] rs]; [done|]. unfold show_redirs. cbn [fmap list_fmap concat show_redir fst snd app].
  apply tight_cons. by destruct (m =? O_RDONLY).
Qed.

Lemma parse_redirs rs : forall fuel c t,
  show_redirs rs ++ t `suffix_of` s -> redirs_ok rs -> follows 0 t -> (length (show_redirs rs) < fuel)%nat ->
  gives (parseredirs es fuel c (show_redirs rs ++ t)) (wrap (cmd_map (slice s) c) rs) t.
Proof.
  induction rs as [|[[w m] fd] rs IH]; intros [|fuel] c t Hs Hok Ht Hf; [lia| |lia|]; cbn [parseredirs].
  - cbn [show_redirs fmap list_fmap concat app]. rewrite (follows_not 0 t); [by exists c|done|by repeat constructor|].
    intros x Hx. cbn [str follow_set] in *. set_solver.
  - apply Forall_cons in Hok as [[Hw Hm] Hok]. cbn [fst snd] in Hw, Hm.
    assert (Eq : show_redirs ((w, m, fd) :: rs) ++ t =
      (if m =? O_RDONLY then chr "<" else chr ">") :: show_word w ++ show_redirs rs ++ t).
    { unfold show_redirs, show_redir. cbn [fmap list_fmap concat fst snd]. cbn [app]. by rewrite <- app_assoc. }
    rewrite Eq in *. assert (Hlen : (length (show_redirs rs) < fuel)%nat).
    { unfold show_redirs in *. cbn [fmap list_fmap concat fst snd] in Hf. rewrite length_app in Hf.
      unfold show_redir at 1 in Hf. simpl in Hf. lia. }
    destruct (follows_peek 0 t [] Ht ltac:(constructor)) as [_ Htt].
    pose proof (redirs_tight rs t Hok Htt) as Htr.
    assert (Hs2 : show_word w ++ show_redirs rs ++ t `suffix_of` s) by (etrans; [|exact Hs]; by apply suffix_cons_r).
    destruct (gettoken_text s w _ Hs2 Hw Htr) as (q & eq & Hg & Hsl).
    assert (Hsr : show_redirs rs ++ t `suffix_of` s) by (etrans; [|exact Hs2]; by eexists).
    rewrite peek_tight by (apply tight_cons; by destruct (m =? O_RDONLY)).
    replace (negb _ && one_of _ _) with true by (by destruct (m =? O_RDONLY)). cbn iota.
    destruct (gettoken_redir es m w (show_redirs rs ++ t) Hw) as (q0 & eq0 & ->). rewrite Hg, Z.eqb_refl. cbn [negb].
    set (c1 := if _ =? chr "<" then _ else _).
    assert (Ec1 : cmd_map (slice s) c1 = REDIR (cmd_map (slice s) c) w m fd).
    { subst c1. destruct Hm as [[-> ->]|[-> ->]]; simpl; by rewrite Hsl. }
    destruct (IH fuel c1 t Hsr Hok Ht Hlen) as (c' & Hc' & Ec). exists c'. split; [exact Hc'|]. by rewrite Ec, Ec1.
Qed.

(** ** Arguments *)

Definition show_words (l : list (list Z)) : list Z := concat (show_word <$> l).

Lemma args_done fuel argc ret t : follows 0 t -> parseargs es (S fuel) argc ret t = Parsed ret t.
Proof.
  intros Ht. cbn [parseargs]. destruct (follows_peek 0 t (str "|)&;") Ht ltac:(by repeat constructor)) as [-> _].
  destruct t as [|c t]; [done|]. destruct Ht as [?|Ht]; [done|]. by rewrite bool_decide_eq_true_2.
Qed.

(** A printed word stops [peek] for symbols. *)
Lemma peek_word w t toks : text_ok w -> toks ⊆ symbols -> peek (show_word w ++ t) toks = (false, show_word w ++ t).
Proof.
  intros Hw Ht. unfold show_word. rewrite <- app_assoc. rewrite peek_tight by (by apply tight_word).
  destruct Hw as [Hne Hw]. destruct w as [|c w]; [done|]. apply Forall_cons in Hw as [Hc _]. cbn [app char_at].
  by rewrite (word_not_in toks c Hc Ht), andb_false_r.
Qed.

Lemma words_tight l t : Forall text_ok l -> tight t -> tight (show_words l ++ t).
Proof.
  intros Hl Ht. destruct l as [|w l]; [done|]. apply Forall_cons in Hl as [Hw _]. unfold show_words, show_word.
  cbn [fmap list_fmap concat]. rewrite <- !app_assoc. by apply tight_word.
Qed.

(** Printed arguments do not begin with a redirection. *)
Lemma peek_no_redir w l rs t :
  text_ok w ->
  peek (show_words (w :: l) ++ show_redirs rs ++ t) (str "<>") = (false, show_words (w :: l) ++ show_redirs rs ++ t).
Proof.
  intros Hw. unfold show_words. cbn [fmap list_fmap concat]. rewrite <- app_assoc.
  by apply peek_word; [|apply (bool_decide_unpack (str "<>" ⊆ symbols))].
Qed.

(** Redirections do not begin with a parenthesis. *)
Lemma peek_no_paren rs t :
  redirs_ok rs -> follows 0 t -> peek (show_redirs rs ++ t) (str "(") = (false, show_redirs rs ++ t).
Proof.
  intros Hr Ht. destruct rs as [|[[w m] fd] rs].
  - apply (follows_not 0 t (str "(") Ht); [by repeat constructor|]. intros x Hx. cbn [str follow_set] in *. set_solver.
  - destruct (follows_peek 0 t [] Ht ltac:(constructor)) as [_ Htt]. rewrite peek_tight by (by apply redirs_tight).
    unfold show_redirs. cbn [fmap list_fmap concat show_redir fst snd app char_at]. by destruct (m =? O_RDONLY).
Qed.

Lemma parse_args l : forall fuel av rs t,
  show_words l ++ show_redirs rs ++ t `suffix_of` s -> Forall text_ok l -> redirs_ok rs -> follows 0 t -> l <> [] ->
  (length av + length l < MAXARGS)%nat -> (length (show_words l ++ show_redirs rs) < fuel)%nat ->
  gives (parseargs es fuel (length av) (EXEC av) (show_words l ++ show_redirs rs ++ t))
    (wrap (EXEC ((slice s <$> av) ++ l)) rs) t.
Proof.
  induction l as [|w l IH]; intros [|fuel] av rs t Hs Hl Hr Ht Hne Hm Hf; [done|done|lia|]. cbn [parseargs].
  apply Forall_cons in Hl as [Hw Hl].
  assert (E : show_words (w :: l) ++ show_redirs rs ++ t = show_word w ++ show_words l ++ show_redirs rs ++ t).
  { unfold show_words. cbn [fmap list_fmap concat]. by rewrite <- app_assoc. }
  assert (Hf' : (S (length (show_words l ++ show_redirs rs)) < S fuel)%nat).
  { eapply Nat.le_lt_trans; [|exact Hf]. unfold show_words, show_word. cbn [fmap list_fmap concat].
    rewrite !length_app. simpl. lia. }
  rewrite E in *. rewrite peek_word by (done || by apply (bool_decide_unpack (str "|)&;" ⊆ symbols))).
  destruct (follows_peek 0 t [] Ht ltac:(constructor)) as [_ Htt].
  pose proof (words_tight l _ Hl (redirs_tight rs t Hr Htt)) as Htl.
  destruct (gettoken_text s w _ Hs Hw Htl) as (q & eq & -> & Hsl). change (chr "a" =? 0) with false.
  rewrite Z.eqb_refl. cbn [negb add_arg]. simpl length in Hm. rewrite (proj2 (Nat.leb_gt _ _)) by lia.
  assert (Hs2 : show_words l ++ show_redirs rs ++ t `suffix_of` s) by (etrans; [|exact Hs]; by eexists).
  assert (Eav : (slice s <$> av ++ [(q, eq)]) = (slice s <$> av) ++ [w]) by (rewrite fmap_app; simpl; by rewrite Hsl).
  destruct (decide (l = [])) as [->|Hne'].
  - change (show_words [] ++ show_redirs rs ++ t) with (show_redirs rs ++ t) in *.
    change (show_words [] ++ show_redirs rs) with (show_redirs rs) in Hf'.
    eapply gives_bind; [apply parse_redirs; [done|done|done|lia]|]. intros c' Ec.
    destruct fuel as [|fuel]; [lia|]. rewrite args_done by done. exists c'. split; [done|]. rewrite Ec. cbn [cmd_map]. by rewrite Eav.
  - destruct l as [|w2 l]; [done|]. pose proof Hl as [Hw2 _]%Forall_cons. destruct fuel as [|fuel]; [lia|].
    cbn [parseredirs]. rewrite (peek_no_redir w2 l rs t Hw2). cbn [pbind].
    specialize (IH (S fuel) (av ++ [(q, eq)]) rs t Hs2 Hl Hr Ht ltac:(done)).
    rewrite length_app, Nat.add_1_r, Eav, <- app_assoc in IH. apply IH; simpl length in *; lia.
Qed.

(** What [parseexec] reads when there is no block. *)
Lemma parse_simple l rs fuel t :
  show_words l ++ show_redirs rs ++ t `suffix_of` s -> Forall text_ok l -> (length l < MAXARGS)%nat -> redirs_ok rs ->
  follows 0 t -> (length (show_words l ++ show_redirs rs) + 1 < fuel)%nat ->
  gives (parseexec es fuel (show_words l ++ show_redirs rs ++ t)) (wrap (EXEC l) rs) t.
Proof.
  intros Hs Hl Hm Hr Ht Hf. destruct fuel as [|fuel]; [lia|]. cbn [parseexec].
  destruct l as [|w l].
  - change (show_words [] ++ show_redirs rs ++ t) with (show_redirs rs ++ t) in *.
    change (show_words [] ++ show_redirs rs) with (show_redirs rs) in Hf.
    rewrite (peek_no_paren rs t Hr Ht).
    eapply gives_bind; [apply parse_redirs; [done|done|done|lia]|]. intros c' Ec.
    destruct fuel as [|fuel]; [lia|]. rewrite args_done by done. by exists c'.
  - pose proof Hl as [Hw _]%Forall_cons. destruct fuel as [|fuel]; [lia|].
    assert (E : show_words (w :: l) ++ show_redirs rs ++ t = show_word w ++ show_words l ++ show_redirs rs ++ t).
    { unfold show_words. cbn [fmap list_fmap concat]. by rewrite <- app_assoc. }
    rewrite E at 1. rewrite peek_word by (done || by apply (bool_decide_unpack (str "(" ⊆ symbols))). rewrite <- E.
    cbn [parseredirs]. rewrite (peek_no_redir w l rs t Hw). cbn [pbind].
    apply (parse_args (w :: l) (S fuel) [] rs t); [done|done|done|done|done|done|lia].
Qed.

(** ** Levels *)

(** A pipeline and the '&' after it, as [parseline] reads them. *)
Definition parsejob (fuel : nat) (t : list Z) : parsed (cmd ptrs) :=
  '(c, t) <- parsepipe es fuel t;; parseback es fuel c t.

Fixpoint backs (n : nat) (c : cmd (list Z)) : cmd (list Z) :=
  match n with O => c | S n' => backs n' (BACK c) end.

Definition amps (n : nat) : list Z := replicate n (chr "&").

Lemma follows_up level t : follows (S level) t -> follows level t.
Proof.
  intros [->|H]; [by left|right]. revert H. generalize (char_at t). intros c.
  destruct level as [|[|[|level]]]; cbn [follow_set str]; set_solver.
Qed.

Lemma follows_cons level c t : c ∈ follow_set level -> follows level (c :: t).
Proof. intros H. by right. Qed.

Lemma amps_follow n t : follows 2 t -> follows 1 (amps n ++ t).
Proof. intros Ht. destruct n; [by apply follows_up|]. apply follows_cons. cbn [follow_set str]. set_solver. Qed.

Lemma to_pipe fuel t c u : gives (parseexec es fuel t) c u -> follows 1 u -> gives (parsepipe es (S fuel) t) c u.
Proof.
  intros H Hu. cbn [parsepipe]. eapply gives_bind; [exact H|]. intros c' Ec.
  rewrite (follows_not 1 u); [by exists c'|done|by repeat constructor|]. intros x Hx. cbn [str follow_set] in *. set_solver.
Qed.

Lemma parse_backs n : forall fuel c t, follows 2 t -> (n < fuel)%nat ->
  gives (parseback es fuel c (amps n ++ t)) (backs n (cmd_map (slice s) c)) t.
Proof.
  induction n as [|n IH]; intros [|fuel] c t Ht Hf; [lia| |lia|]; cbn [parseback].
  - cbn [amps replicate app]. rewrite (follows_not 2 t); [by exists c|done|by repeat constructor|].
    intros x Hx. cbn [str follow_set] in *. set_solver.
  - change (amps (S n) ++ t) with (chr "&" :: amps n ++ t). rewrite peek_tight by (by apply tight_cons).
    change (negb (char_at (chr "&" :: amps n ++ t) =? 0) && one_of (str "&") (char_at (chr "&" :: amps n ++ t))) with true.
    cbn iota. destruct (gettoken_symbol es (chr "&") (amps n ++ t)) as [_ ->]; [set_solver| |].
    + by apply (follows_peek 1 _ [] (amps_follow n t Ht)).
    + apply (IH fuel (BACK c) t Ht). lia.
Qed.

Lemma to_job fuel t c n u :
  gives (parsepipe es fuel t) c (amps n ++ u) -> follows 2 u -> (n < fuel)%nat -> gives (parsejob fuel t) (backs n c) u.
Proof.
  intros H Hu Hf. unfold parsejob. eapply gives_bind; [exact H|]. intros c' <-. by apply parse_backs.
Qed.

Lemma to_line fuel t c u : gives (parsejob fuel t) c u -> follows 3 u -> gives (parseline es (S fuel) t) c u.
Proof.
  unfold parsejob. intros (c' & Hc & Ec) Hu. cbn [parseline].
  destruct (parsepipe es fuel t) as [c1 t1|e|]; [|done|done]. cbn [pbind] in *. rewrite Hc. cbn [pbind].
  rewrite (follows_not 3 u); [by exists c'|done|by repeat constructor|]. intros x Hx. cbn [str follow_set] in *. set_solver.
Qed.

(** What it means that a command is parsed at the four levels. *)
Definition at_exec (c : cmd (list Z)) : Prop := forall rs u fuel,
  show 0 c ++ show_redirs rs ++ u `suffix_of` s -> redirs_ok rs -> follows 0 u ->
  (4 * length (show 0 c ++ show_redirs rs ++ u) + 2 <= fuel)%nat ->
  gives (parseexec es fuel (show 0 c ++ show_redirs rs ++ u)) (wrap c rs) u.
Definition at_pipe (c : cmd (list Z)) : Prop := forall u fuel,
  show 1 c ++ u `suffix_of` s -> follows 1 u -> (4 * length (show 1 c ++ u) + 3 <= fuel)%nat ->
  gives (parsepipe es fuel (show 1 c ++ u)) c u.
Definition at_job (c : cmd (list Z)) : Prop := forall n u fuel,
  show 2 c ++ amps n ++ u `suffix_of` s -> follows 2 u -> (4 * length (show 2 c ++ amps n ++ u) + 3 <= fuel)%nat ->
  gives (parsejob fuel (show 2 c ++ amps n ++ u)) (backs n c) u.
Definition at_line (c : cmd (list Z)) : Prop := forall u fuel,
  show 3 c ++ u `suffix_of` s -> follows 3 u -> (4 * length (show 3 c ++ u) + 4 <= fuel)%nat ->
  gives (parseline es fuel (show 3 c ++ u)) c u.

Lemma exec_pipe c : show 1 c = show 0 c -> at_exec c -> at_pipe c.
Proof.
  intros E H u fuel. rewrite E. intros Hs Hu Hf. destruct fuel as [|fuel]; [lia|]. apply to_pipe; [|done].
  apply (H [] u fuel); [done|constructor|by apply follows_up|simpl; lia].
Qed.

Lemma pipe_job c : show 2 c = show 1 c -> at_pipe c -> at_job c.
Proof.
  intros E H n u fuel. rewrite E. intros Hs Hu Hf. apply to_job; [|done|].
  - apply H; [done|by apply amps_follow|done].
  - rewrite !length_app in Hf. unfold amps in Hf. rewrite length_replicate in Hf. lia.
Qed.

Lemma job_line c : show 3 c = show 2 c -> at_job c -> at_line c.
Proof.
  intros E H u fuel. rewrite E. intros Hs Hu Hf. destruct fuel as [|fuel]; [lia|]. apply to_line; [|done].
  apply (H 0%nat u fuel); [done|by apply follows_up|simpl; lia].
Qed.

Lemma show_tight c : forall level t, typable c -> tight t -> tight (show level c ++ t).
Proof.
  induction c as [argv|c IH w m fd|l IHl r IHr|l IHl r IHr|c IH]; intros level t Hc Ht; cbn [show typable] in *.
  - apply words_tight; [apply Hc|done].
  - rewrite <- app_assoc. apply IH; [apply Hc|]. apply tight_cons. by destruct (m =? O_RDONLY).
  - destruct (level <? 1)%nat; cbn [parens]; [by apply tight_cons|]. rewrite <- app_assoc. apply IHl; [apply Hc|]. by apply tight_cons.
  - destruct (level <? 3)%nat; cbn [parens]; [by apply tight_cons|]. rewrite <- app_assoc. apply IHl; [apply Hc|]. by apply tight_cons.
  - destruct (level <? 2)%nat; cbn [parens]; [by apply tight_cons|]. rewrite <- app_assoc. apply IH; [done|]. by apply tight_cons.
Qed.

(** A block: a whole line in parentheses, and the redirections after it. *)
Lemma line_exec c : show 0 c = parens true (show 3 c) -> typable c -> at_line c -> at_exec c.
Proof.
  intros E Hty H rs u fuel. rewrite E. cbn [parens].
  replace ((chr "(" :: show 3 c ++ [chr ")"]) ++ show_redirs rs ++ u) with
    (chr "(" :: show 3 c ++ chr ")" :: show_redirs rs ++ u) by (simpl; by rewrite <- app_assoc).
  set (v := show_redirs rs ++ u). intros Hs Hr Hu Hf. destruct fuel as [|[|fuel]]; [lia|simpl in Hf; lia|].
  assert (Hv : tight v) by (apply redirs_tight; [done|by apply (follows_peek 0 u [] Hu)]).
  assert (Hp : forall w, peek (chr "(" :: w) (str "(") = (true, chr "(" :: w)) by (intros w; by rewrite peek_tight by (by apply tight_cons)).
  cbn [parseexec]. rewrite Hp. cbn [parseblock]. rewrite Hp. cbn [negb].
  destruct (gettoken_symbol es (chr "(") (show 3 c ++ chr ")" :: v)) as [_ ->];
    [set_solver|apply show_tight; [done|by apply tight_cons]|].
  assert (Hs2 : show 3 c ++ chr ")" :: v `suffix_of` s) by (etrans; [|exact Hs]; by apply suffix_cons_r).
  simpl length in Hf. rewrite !length_app in Hf. simpl length in Hf.
  eapply gives_bind; [apply H; [exact Hs2|apply follows_cons; cbn [follow_set str]; set_solver|rewrite length_app; simpl; lia]|].
  intros c' Ec. rewrite peek_tight by (by apply tight_cons). cbn [char_at].
  change (negb (chr ")" =? 0) && one_of (str ")") (chr ")")) with true. cbn iota. cbn [negb].
  destruct (gettoken_symbol es (chr ")") v) as [_ ->]; [set_solver|done|]. rewrite <- Ec.
  apply parse_redirs; [|done|done|subst v; rewrite length_app in Hf; lia].
  etrans; [|exact Hs2]. exists (show 3 c ++ [chr ")"]). by rewrite <- app_assoc.
Qed.

Lemma pipe_step l r : typable r -> at_exec l -> at_pipe r -> at_pipe (PIPE l r).
Proof.
  intros Hty Hl Hr u fuel. cbn [show parens]. change (1 <? 1)%nat with false. cbn iota. cbn [parens].
  rewrite <- app_assoc, <- app_comm_cons. intros Hs Hu Hf. destruct fuel as [|fuel]; [lia|]. cbn [parsepipe].
  rewrite length_app in Hf. simpl length in Hf.
  eapply gives_bind; [apply (Hl [] (chr "|" :: show 1 r ++ u)); [done|constructor| |rewrite length_app; simpl; lia]|].
  { apply follows_cons. cbn [follow_set str]. set_solver. }
  intros c' Ec. rewrite peek_tight by (by apply tight_cons). cbn [char_at].
  change (negb (chr "|" =? 0) && one_of (str "|") (chr "|")) with true. cbn iota.
  destruct (gettoken_symbol es (chr "|") (show 1 r ++ u)) as [_ ->]; [set_solver|apply show_tight; [done|by apply (follows_peek 1 u [] Hu)]|].
  eapply gives_bind; [apply Hr; [|done|lia]|].
  - etrans; [|exact Hs]. exists (show 0 l ++ [chr "|"]). by rewrite <- app_assoc.
  - intros d Ed. exists (PIPE c' d). split; [done|]. cbn [cmd_map]. by rewrite Ec, Ed.
Qed.

Lemma list_step l r : typable r -> at_job l -> at_line r -> at_line (LIST l r).
Proof.
  intros Hty Hl Hr u fuel. cbn [show]. change (3 <? 3)%nat with false. cbn [parens].
  rewrite <- app_assoc, <- app_comm_cons. intros Hs Hu Hf. destruct fuel as [|fuel]; [lia|]. cbn [parseline].
  rewrite length_app in Hf. simpl length in Hf.
  destruct (Hl 0%nat (chr ";" :: show 3 r ++ u) fuel) as (c' & Hc & Ec);
    [done|apply follows_cons; cbn [follow_set str]; set_solver|rewrite length_app; simpl; lia|].
  cbn [amps replicate app] in Hc. unfold parsejob in Hc.
  destruct (parsepipe es fuel _) as [c1 t1|e|]; [|done|done]. cbn [pbind] in *. rewrite Hc. cbn [pbind].
  rewrite peek_tight by (by apply tight_cons). cbn [char_at].
  change (negb (chr ";" =? 0) && one_of (str ";") (chr ";")) with true. cbn iota.
  destruct (gettoken_symbol es (chr ";") (show 3 r ++ u)) as [_ ->]; [set_solver|apply show_tight; [done|by apply (follows_peek 3 u [] Hu)]|].
  eapply gives_bind; [apply Hr; [|done|lia]|].
  - etrans; [|exact Hs]. exists (show 2 l ++ [chr ";"]). by rewrite <- app_assoc.
  - intros d Ed. exists (LIST c' d). split; [done|]. cbn [cmd_map]. by rewrite Ec, Ed.
Qed.

Lemma back_step c : at_job c -> at_job (BACK c).
Proof.
  intros H n u fuel. cbn [show]. change (2 <? 2)%nat with false. cbn [parens].
  rewrite <- app_assoc. change ([chr "&"] ++ amps n ++ u) with (amps (S n) ++ u). apply (H (S n) u fuel).
Qed.

(** Every typable command is parsed at every level. *)
Lemma parse_show c : typable c -> at_exec c /\ at_pipe c /\ at_job c /\ at_line c.
Proof.
  induction c as [argv|c IH w m fd|l IHl r IHr|l IHl r IHr|c IH]; intros Hc.
  - assert (H0 : at_exec (EXEC argv)).
    { intros rs u fuel Hs Hr Hu Hf. destruct Hc as [Hw Hl]. apply parse_simple; [done|done|done|done|done|].
      cbn [show] in Hf. fold (show_words argv) in Hf. rewrite !length_app in *. lia. }
    assert (H1 : at_pipe (EXEC argv)) by (by apply exec_pipe). assert (H2 : at_job (EXEC argv)) by (by apply pipe_job).
    split_and!; [done|done|done|by apply job_line].
  - destruct Hc as (Hc & Hw & Hm). destruct (IH Hc) as [IH0 _].
    assert (H0 : at_exec (REDIR c w m fd)).
    { intros rs u fuel. cbn [show]. rewrite <- app_assoc.
      replace (show_redir w m ++ show_redirs rs ++ u) with (show_redirs ((w, m, fd) :: rs) ++ u)
        by (unfold show_redirs; cbn [fmap list_fmap concat fst snd]; by rewrite <- app_assoc).
      intros Hs Hr Hu Hf. apply (IH0 ((w, m, fd) :: rs)); [done|by constructor|done|done]. }
    assert (H1 : at_pipe (REDIR c w m fd)) by (by apply exec_pipe). assert (H2 : at_job (REDIR c w m fd)) by (by apply pipe_job).
    split_and!; [done|done|done|by apply job_line].
  - destruct (IHl (proj1 Hc)) as [Hl _]. destruct (IHr (proj2 Hc)) as (_ & Hr & _).
    assert (H1 : at_pipe (PIPE l r)) by (by apply pipe_step; [apply Hc|..]). assert (H2 : at_job (PIPE l r)) by (by apply pipe_job).
    assert (H3 : at_line (PIPE l r)) by (by apply job_line). split_and!; [by apply line_exec|done|done|done].
  - destruct (IHl (proj1 Hc)) as (_ & _ & Hl & _). destruct (IHr (proj2 Hc)) as (_ & _ & _ & Hr).
    assert (H3 : at_line (LIST l r)) by (by apply list_step; [apply Hc|..]). assert (H0 : at_exec (LIST l r)) by (by apply line_exec).
    assert (H1 : at_pipe (LIST l r)) by (by apply exec_pipe). split_and!; [done|done|by apply pipe_job|done].
  - destruct (IH Hc) as (_ & _ & H & _). assert (H2 : at_job (BACK c)) by (by apply back_step).
    assert (H3 : at_line (BACK c)) by (by apply job_line). assert (H0 : at_exec (BACK c)) by (by apply line_exec).
    split_and!; [done|by apply exec_pipe|done|done].
Qed.

End roundtrip.

(** C11: The parser inverts the grammar.  A command printed with parentheses only where the grammar asks for them
    (pipelines bind tighter than '&', that tighter than ';', and both '|' and ';' group to the
    right) is parsed back to the same command, with the same words. *)
Theorem parse_print c :
  typable c -> exists c', parsetext (show 3 c) = Parsed c' [] /\ cmd_map (slice (show 3 c)) c' = c.
Proof.
  intros Hc. destruct (parse_show (show 3 c) c Hc) as (_ & _ & _ & H). unfold parsetext.
  destruct (H [] (parse_fuel (length (show 3 c)))) as (c' & Hp & Ec); rewrite ?app_nil_r; [done|by left|unfold parse_fuel; lia|].
  rewrite app_nil_r in Hp. rewrite Hp. by exists c'.
Qed.

Definition sample_cmd : cmd (list Z) :=
  LIST (BACK (PIPE (REDIR (EXEC [str "ls"; str "-l"]) (str "in") O_RDONLY 0) (LIST (EXEC [str "cat"]) (EXEC []))))
    (REDIR (PIPE (EXEC [str "a"]) (EXEC [str "b"])) (str "out") (Z.lor O_WRONLY O_CREATE) 1).

Lemma parse_print_witness :
  show 3 sample_cmd = str "ls -l <in |(cat ;)&;(a |b )>out " /\
  exists c', parsetext (show 3 sample_cmd) = Parsed c' [] /\ cmd_map (slice (show 3 sample_cmd)) c' = sample_cmd.
Proof.
  split; [vm_compute; reflexivity|]. apply (parse_print sample_cmd).
  assert (Hw : forall w, bool_decide (w <> [] /\ Forall (fun c => word_char c = true) w) = true -> text_ok w)
    by (intros w H; exact (bool_decide_eq_true_1 _ H)).
  cbn [sample_cmd typable]. unfold redir_ok. split_and!; try (apply Hw; vm_compute; reflexivity); try (unfold MAXARGS; simpl; lia).
  all: try (repeat (apply Forall_cons; split; [apply Hw; vm_compute; reflexivity|]); by apply Forall_nil).
Defined.
