(* ===== verification/ShRun.v ===== *)
(** sh.c: running commands.

    [runcmd] is a sequence of system calls.  The model is the tree of everything it can do: each call
    that can fail has a branch for either result, and [fork] has one for the child and one for the
    parent.  The file descriptors of the process are part of the model: [open], [dup] and [pipe] take the
    lowest free ones, as [fdalloc] in sysfile.c does. *)

From S2P Require Import Prelude Params Mem State Spinlock Console Ulib Sh ShSpec ShPrint.

(** What a descriptor refers to: a file the shell was started with, a file it opened, or an end of a pipe.
    A pipe is named by the place of its command in the line. *)
Inductive target :=
| Inherited (n : nat)
| Opened (file : list Z) (mode : Z)
| ReadEnd (p : list bool)
| WriteEnd (p : list bool).

#[export] Instance target_eq_dec : EqDecision target.
Proof. solve_decision. Defined.

Definition fdtable : Type := list (option target).

(** The lowest free descriptor. *)
Fixpoint lowest (t : fdtable) : option nat :=
  match t with
  | [] => None
  | None :: _ => Some O
  | Some _ :: t' => S <$> lowest t'
  end.

Definition fd_close (fd : nat) (t : fdtable) : fdtable := <[fd := None]> t.
Definition fd_put (x : target) (t : fdtable) : option (nat * fdtable) :=
  fd ← lowest t; Some (fd, <[fd := Some x]> t).
Definition fd_dup (fd : nat) (t : fdtable) : fdtable :=
  match t !! fd with
  | Some (Some x) => match fd_put x t with Some (_, t') => t' | None => t end
  | _ => t
  end.

(** What a process does from some point on. *)
Inductive script :=
| Sexit
| Sprint (text : list Z) (k : script)            (* on descriptor 2 *)
| Sexec (argv : list (list Z)) (t : fdtable) (k : script)  (* [k] is what follows when exec fails *)
| Sopen (file : list Z) (mode : Z) (ok failed : script)
| Spipe (ok failed : script)
| Sfork (child parent failed : script)
| Swait (t : fdtable) (k : script).

Definition panic_script (s : string) : script := Sprint (str s ++ [10]) Sexit.

(** [fork1]. *)
Definition fork1 (child parent : script) : script := Sfork child parent (panic_script "fork").

(** [t] is the table of the process and [p] its place in the line. *)
Fixpoint runcmd (c : cmd (list Z)) (t : fdtable) (p : list bool) : script :=
  match c with
  | EXEC [] => Sexit
  | EXEC (a :: argv) => Sexec (a :: argv) t (Sprint (printf (str "exec %s failed" ++ [10]) [CStr a]) Sexit)
  | REDIR c' file mode fd =>
      let t := fd_close (Z.to_nat fd) t in
      let failed := Sprint (printf (str "open %s failed" ++ [10]) [CStr file]) Sexit in
      match fd_put (Opened file mode) t with
      | Some (_, t') => Sopen file mode (runcmd c' t' p) failed
      | None => failed
      end
  | LIST l r => fork1 (runcmd l t (false :: p)) (Swait t (runcmd r t (true :: p)))
  | PIPE l r =>
      match fd_put (ReadEnd p) t with
      | Some (p0, t1) =>
          match fd_put (WriteEnd p) t1 with
          | Some (p1, t2) =>
              let left := fd_close p1 (fd_close p0 (fd_dup p1 (fd_close 1 t2))) in
              let right := fd_close p1 (fd_close p0 (fd_dup p0 (fd_close 0 t2))) in
              let parent := fd_close p1 (fd_close p0 t2) in
              Spipe
                (fork1 (runcmd l left (false :: p))
                   (fork1 (runcmd r right (true :: p)) (Swait parent (Swait parent Sexit))))
                (panic_script "pipe")
          | None => panic_script "pipe"
          end
      | None => panic_script "pipe"
      end
  | BACK c' => fork1 (runcmd c' t p) Sexit
  end.

(** * What gets executed *)

(** The programs that are started, with their descriptors, when no system call fails. *)
Fixpoint started_by (k : script) : list (list (list Z) * fdtable) :=
  match k with
  | Sexit => []
  | Sprint _ k' | Swait _ k' => started_by k'
  | Sexec argv t _ => [(argv, t)]
  | Sopen _ _ ok _ | Spipe ok _ => started_by ok
  | Sfork child parent _ => started_by child ++ started_by parent
  end.

(** The tables of the processes of the shell that wait for others. *)
Fixpoint waiting (k : script) : list fdtable :=
  match k with
  | Sexit | Sexec _ _ _ => []
  | Sprint _ k' => waiting k'
  | Swait t k' => t :: waiting k'
  | Sopen _ _ ok _ | Spipe ok _ => waiting ok
  | Sfork child parent _ => waiting child ++ waiting parent
  end.

(** The meaning of a command: its programs, where each reads from and writes to. *)
Fixpoint plan (c : cmd (list Z)) (i o : target) (p : list bool) : list (list (list Z) * target * target) :=
  match c with
  | EXEC [] => []
  | EXEC argv => [(argv, i, o)]
  | REDIR c' file mode fd => if fd =? 0 then plan c' (Opened file mode) o p else plan c' i (Opened file mode) p
  | LIST l r => plan l i o (false :: p) ++ plan r i o (true :: p)
  | PIPE l r => plan l i (WriteEnd p) (false :: p) ++ plan r (ReadEnd p) o (true :: p)
  | BACK c' => plan c' i o p
  end.

(** Standard input, output and error output, and nothing else. *)
Definition standard (i o e : target) : fdtable := Some i :: Some o :: Some e :: replicate 13 None.

Fixpoint redirs_typed (c : cmd (list Z)) : Prop :=
  match c with
  | EXEC _ => True
  | REDIR c' _ m fd => redirs_typed c' /\ redir_ok m fd
  | PIPE l r | LIST l r => redirs_typed l /\ redirs_typed r
  | BACK c' => redirs_typed c'
  end.

Definition std_table (e : target) (t : fdtable) : Prop := exists i o, t = standard i o e.

(** The tables of a pipeline: of its two sides, and of the shell that waits for them. *)
Lemma pipe_started l r i o e p :
  started_by (runcmd (PIPE l r) (standard i o e) p) =
  started_by (runcmd l (standard i (WriteEnd p) e) (false :: p)) ++
  started_by (runcmd r (standard (ReadEnd p) o e) (true :: p)) ++ [].
Proof. reflexivity. Qed.

Lemma pipe_waiting l r i o e p :
  waiting (runcmd (PIPE l r) (standard i o e) p) =
  waiting (runcmd l (standard i (WriteEnd p) e) (false :: p)) ++
  waiting (runcmd r (standard (ReadEnd p) o e) (true :: p)) ++ [standard i o e; standard i o e].
Proof. reflexivity. Qed.



(** * The main loop *)

(** [getcmd]: the string in [buf] and the rest of the input; [None] at the end of the input. *)
Definition getcmd (nbuf : Z) (input : list Z) : option (list Z * list Z) :=
  let '(buf, rest) := gets nbuf input in
  if char_at buf =? 0 then None else Some (c_string buf, rest).

(** What the shell does with a line: it changes its directory, or forks to run a command. *)
Inductive action :=
| Chdir (path : list Z)
| Command (line : list Z).

Definition act (buf : list Z) : action :=
  if (char_at buf =? chr "c") && (char_at (drop 1 buf) =? chr "d") && (char_at (drop 2 buf) =? 32) then
    Chdir (drop 3 (removelast buf))  (* buf[strlen(buf)-1] = 0; buf+3 *)
  else Command buf.

(** The loop of [main]; each line takes at least one character of the input. *)
Fixpoint sh_loop (fuel : nat) (input : list Z) : list action :=
  match fuel with
  | O => []
  | S fuel' =>
      match getcmd 100 input with
      | Some (buf, rest) => act buf :: sh_loop fuel' rest
      | None => []
      end
  end.
Definition sh_main (input : list Z) : list action := sh_loop (S (length input)) input.

(** The first loop of [main]: [while((fd = open("console", O_RDWR)) >= 0) if(fd >= 3){ close(fd); break; }].  At most
    four calls are made. *)
Definition console : target := Opened (str "console") O_RDWR.
Fixpoint open_console (fuel : nat) (t : fdtable) : fdtable :=
  match fuel with
  | O => t
  | S fuel' =>
      match fd_put console t with
      | Some (fd, t') => if (3 <=? fd)%nat then fd_close fd t' else open_console fuel' t'
      | None => t
      end
  end.

Lemma lowest_free t k : lowest t = Some k -> t !! k = Some None.
Proof.
  revert k. induction t as [|[x|] t IH]; intros k Hk; simplify_eq/=; [|done].
  destruct (lowest t) as [j|]; simplify_eq/=. by apply IH.
Qed.

(** The shell has its three descriptors afterwards, those it was started with and the console for the others. *)
Lemma open_console_std (a b c : option target) t :
  open_console 4 (a :: b :: c :: t) = Some (default console a) :: Some (default console b) :: Some (default console c) :: t.
Proof.
  assert (E : forall (x y z : target) fuel, open_console (S fuel) (Some x :: Some y :: Some z :: t) = Some x :: Some y :: Some z :: t).
  { intros x y z fuel. cbn [open_console]; unfold fd_put; cbn [lowest]. destruct (lowest t) as [k|] eqn:Ek; [|reflexivity].
    cbn. unfold fd_close. do 3 f_equal. change (<[k := None]> (<[k := Some console]> t) = t).
    rewrite list_insert_insert_eq. by apply list_insert_id, lowest_free. }
  destruct a, b, c; first [exact (E _ _ _ 3%nat)|exact (E _ _ _ 2%nat)|exact (E _ _ _ 1%nat)|exact (E _ _ _ 0%nat)].
Qed.

(** The characters of a line. *)
Definition line_char (c : Z) : Prop := c <> 0 /\ c <> 10 /\ c <> 13.

Lemma gets_loop_line l : forall i rest, Forall line_char l -> i + Z.of_nat (length l) + 1 < 100 ->
  gets_loop 100 i (l ++ 10 :: rest) = (l ++ [10], rest).
Proof.
  induction l as [|c l IH]; intros i rest Hl Hi; cbn [app gets_loop length] in *.
  - rewrite (proj2 (Z.ltb_lt _ _)) by lia. done.
  - apply Forall_cons in Hl as [(H0 & H10 & H13) Hl]. rewrite (proj2 (Z.ltb_lt _ _)) by lia.
    rewrite (proj2 (Z.eqb_neq _ _) H10), (proj2 (Z.eqb_neq _ _) H13). cbn [orb].
    rewrite IH; [done|done|lia].
Qed.

Lemma c_string_all s : Forall (fun c => c <> 0) s -> c_string s = s.
Proof. induction 1 as [|c s Hc _ IH]; simpl; [done|]. by rewrite (proj2 (Z.eqb_neq _ _) Hc), IH. Qed.

Lemma getcmd_line l rest :
  Forall line_char l -> (length l <= 98)%nat -> getcmd 100 (l ++ 10 :: rest) = Some (l ++ [10], rest).
Proof.
  intros Hl Hlen. unfold getcmd, gets. rewrite gets_loop_line by (done || lia).
  assert (Hnz : Forall (fun c => c <> 0) (l ++ [10])).
  { apply Forall_app. split; [|by apply Forall_singleton]. eapply Forall_impl; [exact Hl|]. by intros c (? & _). }
  rewrite c_string_all by done. destruct l as [|c l]; [done|]. apply Forall_cons in Hl as [(H0 & _) _].
  cbn [app char_at]. by rewrite (proj2 (Z.eqb_neq _ _) H0).
Qed.

Lemma sh_loop_lines ls : forall fuel, Forall (fun l => Forall line_char l /\ (length l <= 98)%nat) ls ->
  (length ls < fuel)%nat -> sh_loop fuel (concat ((fun l => l ++ [10]) <$> ls)) = (fun l => act (l ++ [10])) <$> ls.
Proof.
  induction ls as [|l ls IH]; intros [|fuel] Hls Hf; simpl length in Hf; [lia|done|lia|].
  apply Forall_cons in Hls as [[Hl Hlen] Hls]. cbn [fmap list_fmap concat sh_loop]. rewrite <- app_assoc. cbn [app].
  rewrite getcmd_line by done. cbn [fmap list_fmap]. rewrite IH; [done|done|lia].
Qed.

Lemma act_line l :
  Forall line_char l ->
  act (l ++ [10]) = if bool_decide (take 3 l = str "cd ") then Chdir (drop 3 l) else Command (l ++ [10]).
Proof.
  intros Hl. unfold act. rewrite removelast_last.
  assert (E : (char_at (l ++ [10]) =? chr "c") && (char_at (drop 1 (l ++ [10])) =? chr "d") &&
    (char_at (drop 2 (l ++ [10])) =? 32) = bool_decide (take 3 l = str "cd ")); [|by rewrite E].
  apply eq_true_iff_eq. rewrite !andb_true_iff, !Z.eqb_eq, bool_decide_eq_true.
  destruct l as [|a [|b [|c l]]]; cbn [app drop take char_at str]; try (split; [by intros [[? ?] ?]|done]).
  change (chr " ") with 32. split; [by intros [[-> ->] ->]|by intros [= -> -> ->]].
Qed.

(** The shell reads its input line by line: lines of at most 98 characters are taken one after the other, each is
    run as a command or changes the directory to exactly what follows "cd ", and the shell
    ends at the end of the input. *)
Lemma sh_main_lines ls :
  Forall (fun l => Forall line_char l /\ (length l <= 98)%nat) ls ->
  sh_main (concat ((fun l => l ++ [10]) <$> ls)) =
  (fun l => if bool_decide (take 3 l = str "cd ") then Chdir (drop 3 l) else Command (l ++ [10])) <$> ls.
Proof.
  intros Hls. unfold sh_main. rewrite sh_loop_lines; [|done|].
  - apply list_fmap_ext. intros k l Hl. apply act_line. exact (proj1 (proj1 (Forall_lookup _ _) Hls k l Hl)).
  - apply Nat.lt_succ_r. clear. induction ls as [|l ls IH]; [done|]. cbn [fmap list_fmap concat].
    rewrite !length_app. cbn [length]. lia.
Qed.

Lemma sh_main_lines_witness :
  sh_main (str "ls" ++ [10] ++ str "cd /bin" ++ [10; 10]) = [Command (str "ls" ++ [10]); Chdir (str "/bin"); Command [10]].
Proof.
  apply (sh_main_lines [str "ls"; str "cd /bin"; []]). unfold line_char.
  repeat (apply Forall_cons; split; [split; [|simpl; lia]; by apply (bool_decide_unpack (Forall (fun c => c <> 0 /\ c <> 10 /\ c <> 13) _))|]).
  apply Forall_nil. done.
Defined.
