(* ===== verification/Umalloc.v ===== *)
(** umalloc.c: the memory allocator of the user programs.

    The free blocks are a circular list in order of address, linked through their headers, with the
    static variable [base] as a block of size 0 in it.  Of the memory of the process only the headers
    matter: [h_ptr] and [h_size] are the two fields of the header at each address.  [sbrk] is
    the system call: it extends the memory of the process and returns the old end, or fails.  The
    blocks never overlap (the invariant [heap_ok]), so that no header is read through another. *)

From S2P Require Import Prelude Params.

Record heap := mkHeap {
  h_ptr : Z -> Z;
  h_size : Z -> Z;
  h_freep : Z;
  h_brk : Z
}.

Definition upd (f : Z -> Z) (a v : Z) : Z -> Z := fun x => if x =? a then v else f x.

(** Assignments to [p->s.ptr], [p->s.size] and [freep]. *)
Definition put_ptr (p v : Z) (h : heap) : heap := mkHeap (upd (h_ptr h) p v) (h_size h) (h_freep h) (h_brk h).
Definition put_size (p v : Z) (h : heap) : heap := mkHeap (h_ptr h) (upd (h_size h) p v) (h_freep h) (h_brk h).
Definition put_freep (p : Z) (h : heap) : heap := mkHeap (h_ptr h) (h_size h) p (h_brk h).
Definition put_brk (v : Z) (h : heap) : heap := mkHeap (h_ptr h) (h_size h) (h_freep h) v.

(** [sizeof(Header)], and [p + n] for a header pointer. *)
Definition sizeof_header : Z := 8.
Definition padd (p n : Z) : Z := u32 (p + sizeof_header * n).

Section umalloc.
(** The address of [base], whether the kernel has the frames for [n] more bytes, and a bound for the
    loops. *)
Context (base : Z) (mem_ok : Z -> heap -> bool) (fuel : nat).

(** The loop of [free]: the block after which [bp] belongs. *)
Fixpoint find_place (k : nat) (h : heap) (bp p : Z) : option Z :=
  match k with
  | O => None
  | S k' =>
      let next := h_ptr h p in
      if (p <? bp) && (bp <? next) then Some p
      else if (next <=? p) && ((p <? bp) || (bp <? next)) then Some p
      else find_place k' h bp next
  end.

(** The two [if]s of [free]: joining with the block above and with the one below. *)
Definition join_above (bp p : Z) (h : heap) : heap :=
  let next := h_ptr h p in
  if padd bp (h_size h bp) =? next then
    put_ptr bp (h_ptr h next) (put_size bp (u32 (h_size h bp + h_size h next)) h)
  else put_ptr bp next h.
Definition join_below (bp p : Z) (h : heap) : heap :=
  if padd p (h_size h p) =? bp then
    put_ptr p (h_ptr h bp) (put_size p (u32 (h_size h p + h_size h bp)) h)
  else put_ptr p bp h.

Definition free (ap : Z) (h : heap) : option heap :=
  let bp := u32 (ap - sizeof_header) in
  p ← find_place fuel h bp (h_freep h);
  Some (put_freep p (join_below bp p (join_above bp p h))).

(** The system call ([sys_sbrk], [growproc]): the old end of the memory, or -1.  The argument is a signed
    integer, so that a request of 2^31 bytes or more gives memory back. *)
Definition sbrk (n : Z) (h : heap) : Z * heap :=
  let n := s32 n in
  if 0 <? n then
    if (u32 (h_brk h + n) <? KERNBASE) && mem_ok n h then (h_brk h, put_brk (u32 (h_brk h + n)) h)
    else (4294967295, h)
  else if n <? 0 then
    let sz := u32 (h_brk h + n) in
    let sz := if h_brk h <=? sz then h_brk h else sz in
    if sz =? 0 then (4294967295, h) else (h_brk h, put_brk sz h)
  else (h_brk h, h).

(** Returns [freep], or 0 when there is no memory. *)
Definition morecore (nu : Z) (h : heap) : option (Z * heap) :=
  let nu := if nu <? 4096 then 4096 else nu in
  let '(p, h) := sbrk (u32 (nu * sizeof_header)) h in
  if p =? 4294967295 then Some (0, h)
  else
    h ← free (u32 (p + sizeof_header)) (put_size p nu h);
    Some (h_freep h, h).

(** The body of the first [if] of the loop of [malloc]: the block [p], or the upper end of it. *)
Definition take_block (nunits : Z) (h : heap) (prevp p : Z) : Z * heap :=
  if h_size h p =? nunits then
    (u32 (p + sizeof_header), put_freep prevp (put_ptr prevp (h_ptr h p) h))
  else
    let h := put_size p (u32 (h_size h p - nunits)) h in
    let q := padd p (h_size h p) in
    (u32 (q + sizeof_header), put_freep prevp (put_size q nunits h)).

(** The loop of [malloc]. *)
Fixpoint malloc_loop (k : nat) (nunits : Z) (h : heap) (prevp p : Z) : option (Z * heap) :=
  match k with
  | O => None
  | S k' =>
      if nunits <=? h_size h p then Some (take_block nunits h prevp p)
      else if p =? h_freep h then
        r ← morecore nunits h;
        let '(p, h) := r in
        if p =? 0 then Some (0, h) else malloc_loop k' nunits h p (h_ptr h p)
      else malloc_loop k' nunits h p (h_ptr h p)
  end.

Definition malloc (nbytes : Z) (h : heap) : option (Z * heap) :=
  let nunits := u32 (u32 (nbytes + sizeof_header - 1) / sizeof_header + 1) in
  let h := if h_freep h =? 0 then put_size base 0 (put_freep base (put_ptr base base h)) else h in
  malloc_loop fuel nunits h (h_freep h) (h_ptr h (h_freep h)).

End umalloc.

(** * The invariant *)

(** Following the links from [x] visits the nodes [w]. *)
Fixpoint trail (ptr : Z -> Z) (x : Z) (w : list Z) : Prop :=
  match w with
  | [] => True
  | y :: w' => ptr x = y /\ trail ptr y w'
  end.

(** Blocks (address, size) in order of address between [lo] and [hi], no two of them adjacent. *)
Fixpoint apart (lo : Z) (l : list (Z * Z)) (hi : Z) : Prop :=
  match l with
  | [] => lo <= hi
  | (a, n) :: l' => lo < a /\ 0 < n /\ apart (a + 8 * n) l' hi
  end.

Section ring.
Context (base : Z).

Record heap_ok (h : heap) (l : list (Z * Z)) : Prop := {
  ho_ring : trail (h_ptr h) base (l.*1 ++ [base]);
  ho_base : 0 < base /\ h_size h base = 0;
  ho_size : forall a n, (a, n) ∈ l -> h_size h a = n;
  ho_apart : apart (base + 7) l (h_brk h);
  ho_freep : h_freep h ∈ base :: l.*1;
  ho_brk : base + 7 < h_brk h < KERNBASE
}.

(** The bytes of the free blocks. *)
Definition is_free (l : list (Z * Z)) (x : Z) : Prop := exists a n, (a, n) ∈ l /\ a <= x < a + 8 * n.

(** * Trails and blocks *)

Lemma trail_app ptr x w1 w2 :
  trail ptr x (w1 ++ w2) <-> trail ptr x w1 /\ trail ptr (default x (last w1)) w2.
Proof.
  revert x. induction w1 as [|y w1 IH]; intros x; [simpl; tauto|].
  cbn [app trail]. rewrite IH, last_cons. destruct (last w1); simpl; tauto.
Qed.

(** The link of the last node of a trail does not matter. *)
Lemma trail_agree ptr ptr' x w :
  NoDup (x :: w) -> (forall y, y ∈ x :: w -> y <> default x (last w) -> ptr' y = ptr y) ->
  trail ptr x w -> trail ptr' x w.
Proof.
  revert x. induction w as [|z w IH]; intros x Hnd E; [done|]. simpl. intros [<- Ht].
  apply NoDup_cons in Hnd as [Hx Hnd].
  assert (El : default x (last (ptr x :: w)) = default (ptr x) (last w)) by (rewrite last_cons; by destruct (last w)).
  rewrite El in E. split.
  - apply E; [by left|]. intros Hq. apply Hx. rewrite Hq at 1. clear. revert x. intros x.
    destruct (last w) as [y|] eqn:Hl; simpl; [right; by apply last_Some_elem_of|by left].
  - apply IH; [done| |done]. intros y Hy. apply E. by right.
Qed.

(** The first node of a list of blocks, and the last one. *)
Definition first_node (l : list (Z * Z)) : Z := default base (head l.*1).
Definition last_node (l : list (Z * Z)) : Z := default base (last l.*1).

Lemma last_node_in l : last_node l ∈ base :: l.*1.
Proof.
  unfold last_node. destruct (last l.*1) as [y|] eqn:Hl; simpl; [|by left].
  right. by apply last_Some_elem_of.
Qed.

Lemma last_node_snoc l a n : last_node (l ++ [(a, n)]) = a.
Proof. unfold last_node. rewrite fmap_app. cbn [fmap list_fmap fst]. by rewrite last_snoc. Qed.

Lemma ring_split ptr l1 l2 :
  trail ptr base ((l1 ++ l2).*1 ++ [base]) <->
  trail ptr base l1.*1 /\ trail ptr (last_node l1) (l2.*1 ++ [base]).
Proof. by rewrite fmap_app, <- app_assoc, trail_app. Qed.

Lemma first_link ptr x l : trail ptr x (l.*1 ++ [base]) -> ptr x = first_node l.
Proof. destruct l as [|[a n] l]; simpl; tauto. Qed.

(** A trail through the blocks [r] from another start. *)
Lemma trail_from ptr ptr' x x' r :
  trail ptr x (r.*1 ++ [base]) -> ptr' x' = first_node r -> (forall y, y ∈ r.*1 -> ptr' y = ptr y) ->
  trail ptr' x' (r.*1 ++ [base]).
Proof.
  revert x x'. induction r as [|[a n] r IH]; intros x x' Ht Hx E; simpl in *; [done|].
  destruct Ht as [<- Ht]. split; [done|]. eapply IH; [exact Ht| |].
  - rewrite E by (by left). by apply first_link.
  - intros y Hy. apply E. by right.
Qed.

Lemma apart_le lo l hi : apart lo l hi -> lo <= hi.
Proof. revert lo. induction l as [|[a n] l IH]; intros lo; simpl; [done|]. intros (? & ? & ?%IH). lia. Qed.

Lemma apart_in lo l hi a n : apart lo l hi -> (a, n) ∈ l -> lo < a /\ 0 < n /\ a + 8 * n <= hi.
Proof.
  revert lo. induction l as [|[a' n'] l IH]; intros lo Ha Hin; [by apply not_elem_of_nil in Hin|].
  destruct Ha as (H1 & H2 & H3). apply elem_of_cons in Hin as [[= -> ->]|Hin].
  - apply apart_le in H3. lia.
  - destruct (IH _ H3 Hin) as (? & ? & ?). lia.
Qed.

Lemma apart_app lo l1 l2 hi : apart lo (l1 ++ l2) hi <-> exists m, apart lo l1 m /\ apart m l2 hi.
Proof.
  revert lo. induction l1 as [|[b k] l1 IH]; intros lo; simpl.
  - split; [by exists lo|]. intros (m & Hm & Ha). destruct l2 as [|[a n] l2]; simpl in *; [lia|].
    intuition lia.
  - rewrite IH. split.
    + intros (? & ? & m & ? & ?). exists m. by split_and!.
    + intros (m & (? & ? & ?) & ?). split_and!; [done|done|]. by exists m.
Qed.

Lemma apart_below lo l m hi : apart lo l m -> m <= hi -> apart lo l hi.
Proof. revert lo. induction l as [|[a n] l IH]; intros lo; simpl; [lia|]. naive_solver. Qed.

Lemma in_addr (a : Z) (l : list (Z * Z)) : a ∈ l.*1 -> exists n, (a, n) ∈ l.
Proof. intros ([a' n] & -> & Hin)%list_elem_of_fmap. by exists n. Qed.

Lemma apart_addr lo l hi a : apart lo l hi -> a ∈ l.*1 -> lo < a < hi.
Proof. intros Ha (n & Hn)%in_addr. destruct (apart_in _ _ _ _ _ Ha Hn). lia. Qed.

Lemma apart_nodup lo l hi : apart lo l hi -> NoDup l.*1.
Proof.
  revert lo. induction l as [|[a n] l IH]; intros lo; simpl; [constructor|]. intros (H1 & H2 & H3).
  constructor; [|by eapply IH]. intros Hin. pose proof (apart_addr _ _ _ _ H3 Hin). lia.
Qed.

Lemma ring_nodup l hi : apart (base + 7) l hi -> NoDup (base :: l.*1).
Proof.
  intros Ha. constructor; [|by eapply apart_nodup]. intros Hin.
  pose proof (apart_addr _ _ _ _ Ha Hin). lia.
Qed.

Lemma is_free_nil x : is_free [] x <-> False.
Proof. split; [|done]. intros (a & n & Hin & _). by apply not_elem_of_nil in Hin. Qed.

Lemma is_free_cons a n l x : is_free ((a, n) :: l) x <-> a <= x < a + 8 * n \/ is_free l x.
Proof.
  unfold is_free. split.
  - intros (b & k & [[= -> ->]|Hin]%elem_of_cons & Hx); [by left|right; eauto].
  - intros [Hx|(b & k & Hin & Hx)]; [exists a, n|exists b, k]; (split; [|done]); [by left|by right].
Qed.

Lemma is_free_app l1 l2 x : is_free (l1 ++ l2) x <-> is_free l1 x \/ is_free l2 x.
Proof.
  induction l1 as [|[a n] l1 IH]; simpl; [rewrite is_free_nil; tauto|].
  rewrite !is_free_cons, IH. tauto.
Qed.

(** Raising the lower bound to the end of a block that is not free. *)
Lemma apart_after lo l hi bp n :
  apart lo l hi -> bp <= lo + 1 -> 0 < n -> (forall x, bp <= x < bp + 8 * n -> ~ is_free l x) ->
  bp + 8 * n <= hi -> apart (bp + 8 * n - 1) l hi.
Proof.
  destruct l as [|[a k] l]; simpl; [lia|]. intros (H1 & H2 & H3) Hb Hn Hf Hhi. split_and!; [|done|done].
  destruct (decide (bp + 8 * n <= a)); [lia|]. exfalso. apply (Hf a); [lia|].
  apply is_free_cons. left. lia.
Qed.

(** A block that is not free lies between two parts of the list. *)
Lemma split_around lo l hi bp n :
  apart lo l hi -> 0 < n -> (forall x, bp <= x < bp + 8 * n -> ~ is_free l x) ->
  lo < bp -> bp + 8 * n <= hi ->
  exists l1 l2, l = l1 ++ l2 /\ apart lo l1 bp /\ apart (bp + 8 * n - 1) l2 hi.
Proof.
  revert lo. induction l as [|[a k] l IH]; intros lo Ha Hn Hf Hlo Hhi.
  - exists [], []. simpl. split_and!; [done|lia|lia].
  - simpl in Ha. destruct Ha as (H1 & H2 & H3).
    assert (Hf' : forall x, bp <= x < bp + 8 * n -> ~ is_free l x).
    { intros x Hx Hfx. apply (Hf x Hx). apply is_free_cons. by right. }
    destruct (decide (bp + 8 * n <= a)) as [Hb|Hb].
    + exists [], ((a, k) :: l). simpl. split_and!; [done|lia|lia|done|done].
    + assert (Hle : a + 8 * k <= bp).
      { destruct (decide (a + 8 * k <= bp)); [done|]. exfalso. apply (Hf (Z.max a bp)); [lia|].
        apply is_free_cons. left. lia. }
      destruct (decide (a + 8 * k = bp)) as [He|He].
      * exists [(a, k)], l. split_and!; [done|simpl; lia|].
        eapply apart_after; [exact H3|lia|done|exact Hf'|done].
      * destruct (IH (a + 8 * k)) as (l1 & l2 & -> & Hl1 & Hl2); [done|done|done|lia|done|].
        exists ((a, k) :: l1), l2. simpl. by split_and!.
Qed.

(** * free *)

Lemma last_node_lt la a n lb hi : apart (base + 7) (la ++ (a, n) :: lb) hi -> last_node la < a.
Proof.
  intros (m & Hla & Hm & _)%apart_app. pose proof (apart_le _ _ _ Hla).
  pose proof (last_node_in la) as [->|Hin]%elem_of_cons; [lia|].
  pose proof (apart_addr _ _ _ _ Hla Hin). lia.
Qed.

Lemma last_node_below l bp : apart (base + 7) l bp -> last_node l < bp.
Proof.
  intros Hl. pose proof (apart_le _ _ _ Hl). pose proof (last_node_in l) as [->|Hin]%elem_of_cons; [lia|].
  pose proof (apart_addr _ _ _ _ Hl Hin). lia.
Qed.

Lemma ring_link ptr l1 l2 : trail ptr base ((l1 ++ l2).*1 ++ [base]) -> ptr (last_node l1) = first_node l2.
Proof. intros [_ Ht]%ring_split. by apply first_link in Ht. Qed.

Section place.
Context (h : heap) (l1 l2 : list (Z * Z)) (bp hi : Z).
Hypothesis ring : trail (h_ptr h) base ((l1 ++ l2).*1 ++ [base]).
Hypothesis low : apart (base + 7) l1 bp.
Hypothesis high : apart bp l2 hi.

(** The search from a block below [bp] (or [base]). *)
Lemma find_from_below k la lb :
  l1 = la ++ lb -> (length lb < k)%nat -> find_place k h bp (last_node la) = Some (last_node l1).
Proof.
  revert la k. induction lb as [|[a n] lb IH]; intros la [|k] El Hk; simpl in Hk; try lia; cbn [find_place].
  - rewrite app_nil_r in El. subst la. rewrite (ring_link _ _ _ ring).
    pose proof (last_node_below _ _ low) as Hl. pose proof (last_node_in l1) as Hin.
    assert (base <= last_node l1).
    { apply elem_of_cons in Hin as [->|Hin]; [lia|]. pose proof (apart_addr _ _ _ _ low Hin). lia. }
    destruct l2 as [|[a n] l]; unfold first_node; simpl.
    + destruct (Z.ltb_spec bp base); [by destruct (Z.ltb_spec (last_node l1) bp); [|lia]|].
      rewrite andb_false_r. rewrite (proj2 (Z.leb_le _ _)), (proj2 (Z.ltb_lt _ _)) by lia. done.
    + destruct high as (Ha & _). rewrite !(proj2 (Z.ltb_lt _ _)) by lia. done.
  - assert (Ea : h_ptr h (last_node la) = a).
    { pose proof ring as R. rewrite El, <- app_assoc in R. by rewrite (ring_link _ _ _ R). }
    rewrite Ea. pose proof low as Lw. rewrite El in Lw. pose proof (last_node_lt _ _ _ _ _ Lw) as Hlt.
    assert (a < bp) by (apply (apart_addr _ _ _ a Lw); rewrite fmap_app; apply elem_of_app; right; by left).
    rewrite (proj2 (Z.ltb_ge bp a)) by lia. rewrite andb_false_r, (proj2 (Z.leb_gt _ _)) by lia. simpl.
    rewrite <- (last_node_snoc la a n). apply IH; [|lia]. by rewrite El, <- app_assoc.
Qed.

(** The search from a block above [bp] wraps round to [base]. *)
Lemma find_from_above k la x n lb :
  l2 = la ++ (x, n) :: lb -> (length lb + length l1 + 1 < k)%nat -> find_place k h bp x = Some (last_node l1).
Proof.
  revert la x n k. induction lb as [|[a m] lb IH]; intros la x n [|k] El Hk; simpl in Hk; try lia; cbn [find_place].
  all: pose proof high as Hh; rewrite El in Hh.
  all: assert (bp < x) by (apply (apart_addr _ _ _ x Hh); rewrite fmap_app; apply elem_of_app; right; by left).
  all: pose proof (apart_le _ _ _ low); pose proof ring as R; rewrite El in R.
  all: rewrite (cons_middle (x, n)), !app_assoc in R.
  all: apply ring_link in R; rewrite last_node_snoc in R; rewrite R; unfold first_node; simpl.
  all: rewrite (proj2 (Z.ltb_ge x bp)) by lia; cbn [andb orb].
  - rewrite (proj2 (Z.ltb_ge bp base)), andb_false_r by lia. apply (find_from_below k [] l1); [done|lia].
  - apply apart_app in Hh as (m' & _ & Hm & Hn & Hx & Hm' & _).
    rewrite (proj2 (Z.leb_gt _ _)) by lia. cbn [andb]. apply (IH (la ++ [(x, n)]) a m); [|lia].
    by rewrite El, <- app_assoc.
Qed.

Lemma find_place_ok k s :
  s ∈ base :: (l1 ++ l2).*1 -> (length (l1 ++ l2) + 1 < k)%nat -> find_place k h bp s = Some (last_node l1).
Proof.
  rewrite length_app. intros [->|Hin]%elem_of_cons Hk; [apply (find_from_below k [] l1); [done|lia]|].
  rewrite fmap_app in Hin.
  apply elem_of_app in Hin as [(n & (la & lb & El)%list_elem_of_split)%in_addr|(n & (la & lb & El)%list_elem_of_split)%in_addr].
  - rewrite <- (last_node_snoc la s n). apply (find_from_below k _ lb).
    + by rewrite El, <- app_assoc.
    + rewrite El, length_app in Hk. simpl in Hk. lia.
  - apply (find_from_above k la s n lb El). rewrite El, length_app in Hk. simpl in Hk. lia.
Qed.

End place.

(** The links and sizes after a block [(bp, n)] has been joined with the block above it. *)
Lemma join_above_spec h l1 l2 bp n hi :
  trail (h_ptr h) base ((l1 ++ l2).*1 ++ [base]) -> (forall a m, (a, m) ∈ l2 -> h_size h a = m) ->
  h_size h bp = n -> 0 < n -> 0 < base < bp -> bp + 8 * n <= hi -> hi <= KERNBASE -> apart (bp + 8 * n - 1) l2 hi ->
  exists k r, (r = l2 /\ k = n /\ apart (bp + 8 * n) r hi \/ l2 = (bp + 8 * n, k - n) :: r /\ n < k) /\
    (forall x, h_size (join_above bp (last_node l1) h) x = upd (h_size h) bp k x) /\
    (forall x, h_ptr (join_above bp (last_node l1) h) x = upd (h_ptr h) bp (first_node r) x) /\
    h_brk (join_above bp (last_node l1) h) = h_brk h.
Proof.
  intros R Hs Hn Hn0 Hb Hk Hhi Ha. unfold join_above. cbv zeta. rewrite (ring_link _ _ _ R), Hn.
  assert (Ep : padd bp n = bp + 8 * n).
  { unfold padd, u32, sizeof_header. apply Z.mod_small. unfold KERNBASE in Hhi. lia. }
  rewrite Ep. destruct l2 as [|[a m] r].
  - change (first_node []) with base. rewrite (proj2 (Z.eqb_neq _ _)) by lia. exists n, []. split_and!; [left; cbn [apart]; split_and!; [done|done|lia]| |intros x; reflexivity|reflexivity].
    intros x. simpl. unfold upd. by destruct (Z.eqb_spec x bp) as [->|].
  - change (first_node ((a, m) :: r)) with a. cbn [apart] in Ha.
    destruct Ha as (H1 & H2 & H3). pose proof (apart_le _ _ _ H3) as Hle.
    assert (Em : h_size h a = m) by (apply Hs; by left).
    destruct (Z.eqb_spec (bp + 8 * n) a) as [<-|Hne].
    + rewrite Em. exists (n + m), r. split_and!; [right; split; [f_equal; f_equal; lia|lia]| | |done]; intros x; simpl.
      * unfold u32. rewrite Z.mod_small by (unfold KERNBASE in Hhi; lia). done.
      * change ((l1 ++ (bp + 8 * n, m) :: r).*1) with ((l1 ++ [(bp + 8 * n, m)] ++ r).*1) in R.
        rewrite app_assoc in R. apply ring_link in R. rewrite last_node_snoc in R. by rewrite R.
    + exists n, ((a, m) :: r). split_and!; [left; cbn [apart]; split_and!; [done|done|lia|done|done]| |intros x; reflexivity|reflexivity].
      intros x. simpl. unfold upd. by destruct (Z.eqb_spec x bp) as [->|].
Qed.

(** Relinking the ring after the last node of [l1]. *)
Lemma ring_relink ptr ptr' l1 l2 r hi :
  trail ptr base ((l1 ++ l2).*1 ++ [base]) -> apart (base + 7) l1 hi ->
  (forall y, y ∈ base :: l1.*1 -> y <> last_node l1 -> ptr' y = ptr y) ->
  trail ptr' (last_node l1) (r.*1 ++ [base]) -> trail ptr' base ((l1 ++ r).*1 ++ [base]).
Proof.
  intros [R _]%ring_split Ha E Ht. apply ring_split. split; [|done].
  eapply trail_agree; [by eapply ring_nodup|exact E|done].
Qed.

(** Linking the last node of [l1] to the blocks [r]; the link of [bp], which is in neither, may change. *)
Lemma ring_skip ptr ptr' l1 l2 r y bp hi :
  trail ptr base ((l1 ++ l2).*1 ++ [base]) -> trail ptr y (r.*1 ++ [base]) ->
  apart (base + 7) l1 bp -> apart bp r hi -> ptr' (last_node l1) = first_node r ->
  (forall x, x <> last_node l1 -> x <> bp -> ptr' x = ptr x) -> trail ptr' base ((l1 ++ r).*1 ++ [base]).
Proof.
  intros R Hr Hl1 Har Ep E. pose proof (last_node_below _ _ Hl1). pose proof (apart_le _ _ _ Hl1).
  eapply ring_relink; [exact R|exact Hl1| |].
  - intros x [->|Hx]%elem_of_cons Hne; apply E; [done|lia|done|]. pose proof (apart_addr _ _ _ _ Hl1 Hx). lia.
  - eapply trail_from; [exact Hr|exact Ep|]. intros x Hx. pose proof (apart_addr _ _ _ _ Har Hx).
    apply E; lia.
Qed.

(** Linking [bp] between the last node of [l1] and the blocks [r]. *)
Lemma ring_insert ptr ptr' l1 l2 r y bp k hi :
  trail ptr base ((l1 ++ l2).*1 ++ [base]) -> trail ptr y (r.*1 ++ [base]) ->
  apart (base + 7) l1 bp -> apart bp r hi -> ptr' (last_node l1) = bp -> ptr' bp = first_node r ->
  (forall x, x <> last_node l1 -> x <> bp -> ptr' x = ptr x) ->
  trail ptr' base ((l1 ++ (bp, k) :: r).*1 ++ [base]).
Proof.
  intros R Hr Hl1 Har Ep Eb E. pose proof (last_node_below _ _ Hl1). pose proof (apart_le _ _ _ Hl1).
  eapply ring_relink; [exact R|exact Hl1| |split; [exact Ep|]].
  - intros x [->|Hx]%elem_of_cons Hne; apply E; [done|lia|done|]. pose proof (apart_addr _ _ _ _ Hl1 Hx). lia.
  - eapply trail_from; [exact Hr|exact Eb|]. intros x Hx. pose proof (apart_addr _ _ _ _ Har Hx).
    apply E; lia.
Qed.

(** What [join_below] does to the links and sizes. *)
Lemma join_below_spec h l1 bp k :
  h_size h base = 0 -> (forall a m, (a, m) ∈ l1 -> h_size h a = m) -> h_size h bp = k ->
  0 < base -> base + 7 < bp -> 0 < k -> bp + 8 * k <= KERNBASE -> apart (base + 7) l1 bp ->
  let p := last_node l1 in
  (exists l0 m, l1 = l0 ++ [(p, m)] /\ p + 8 * m = bp /\
     h_size (join_below bp p h) = upd (h_size h) p (m + k) /\
     h_ptr (join_below bp p h) = upd (h_ptr h) p (h_ptr h bp)) \/
  (apart (base + 7) l1 (bp - 1) /\ h_size (join_below bp p h) = h_size h /\
     h_ptr (join_below bp p h) = upd (h_ptr h) p bp).
Proof.
  intros Hb Hs Hk Hb0 Hbp Hk0 Hhi Ha p. unfold join_below.
  destruct (decide (l1 = [])) as [->|Hne].
  - right. change p with base. rewrite Hb. unfold padd, u32, sizeof_header. unfold KERNBASE in Hhi.
    rewrite Z.mod_small, (proj2 (Z.eqb_neq _ _)) by lia. split_and!; [simpl; lia|done|done].
  - destruct (exists_last Hne) as (l0 & [q m] & El). subst p. rewrite El, last_node_snoc.
    rewrite El in Ha. apply apart_app in Ha as (b & Hl0 & Hbq & Hm & Hle). cbn [apart] in Hle.
    pose proof (apart_le _ _ _ Hl0).
    rewrite (Hs q m) by (rewrite El; apply elem_of_app; right; by left).
    unfold padd, u32, sizeof_header. unfold KERNBASE in Hhi. rewrite Z.mod_small by lia.
    destruct (Z.eqb_spec (q + 8 * m) bp) as [He|He].
    + left. exists l0, m. rewrite Hk, Z.mod_small by lia. by split_and!.
    + right. split_and!; [|done|done]. apply apart_app. exists b. split; [done|]. cbn [apart]. lia.
Qed.

Lemma heap_sizes h l a m : heap_ok h l -> (a, m) ∈ l -> base + 7 < a /\ 0 < m /\ a + 8 * m <= h_brk h.
Proof. intros Hok Hin. exact (apart_in _ _ _ _ _ (ho_apart _ _ Hok) Hin). Qed.

(** The block above: the list [r] of the blocks after [bp], whose size is now [k]. *)
Lemma above_blocks l2 r bp n k hi :
  r = l2 /\ k = n /\ apart (bp + 8 * n) r hi \/ l2 = (bp + 8 * n, k - n) :: r /\ n < k ->
  0 < n -> apart (bp + 8 * n - 1) l2 hi ->
  apart (bp + 8 * k) r hi /\ n <= k /\ (forall a m, (a, m) ∈ r -> (a, m) ∈ l2) /\
  (length r <= length l2)%nat /\
  (forall x, bp <= x < bp + 8 * k \/ is_free r x <-> bp <= x < bp + 8 * n \/ is_free l2 x).
Proof.
  intros [(-> & -> & Ha)|(-> & Hk)] Hn H2; [by split_and!|]. destruct H2 as (H2 & H3 & H4).
  replace (bp + 8 * n + 8 * (k - n)) with (bp + 8 * k) in H4 by lia. split_and!; [done|lia| |simpl; lia|].
  - intros a m Hin. by right.
  - intros x. rewrite is_free_cons. split.
    + intros [Hx|Hx]; [|tauto]. destruct (decide (x < bp + 8 * n)); [left; lia|right; left; lia].
    + intros [Hx|[Hx|Hx]]; [left; lia|left; lia|by right].
Qed.

(** The block [bp] of size [k] becomes a free block of its own. *)
Lemma insert_block_ok h h2 l1 l2 r bp k y :
  heap_ok h (l1 ++ l2) -> apart (base + 7) l1 (bp - 1) -> apart (bp + 8 * k) r (h_brk h) -> 0 < k ->
  (forall a m, (a, m) ∈ r -> (a, m) ∈ l2) -> trail (h_ptr h) y (r.*1 ++ [base]) ->
  (forall x, h_ptr h2 x = upd (upd (h_ptr h) bp (first_node r)) (last_node l1) bp x) ->
  (forall x, h_size h2 x = upd (h_size h) bp k x) -> h_brk h2 = h_brk h -> h_freep h2 = last_node l1 ->
  heap_ok h2 (l1 ++ (bp, k) :: r).
Proof.
  intros Hok Hl1 Hr Hk Hin Ht Ep Es Eb Ef. pose proof (apart_le _ _ _ Hl1).
  assert (Hl1' : apart (base + 7) l1 bp) by (eapply apart_below; [exact Hl1|lia]).
  assert (Hr' : apart bp r (h_brk h)) by (destruct r as [|[a m] r]; cbn [apart] in *; intuition lia).
  pose proof (last_node_below _ _ Hl1') as Hlast. destruct (ho_base _ _ Hok) as [Hb0 Hb]. constructor.
  - eapply ring_insert; [exact (ho_ring _ _ Hok)|exact Ht|exact Hl1'|exact Hr'| | |]; unfold upd in Ep.
    + by rewrite Ep, Z.eqb_refl.
    + rewrite Ep, Z.eqb_refl, (proj2 (Z.eqb_neq _ _)); [done|lia].
    + intros x H1 H2. by rewrite Ep, !(proj2 (Z.eqb_neq _ _)).
  - split; [done|]. rewrite Es. unfold upd. rewrite (proj2 (Z.eqb_neq _ _)); [done|lia].
  - intros a m Ha. rewrite Es. unfold upd.
    apply elem_of_app in Ha as [Ha|[[= -> ->]|Ha]%elem_of_cons]; [|by rewrite Z.eqb_refl|].
    + pose proof (apart_in _ _ _ _ _ Hl1 Ha). rewrite (proj2 (Z.eqb_neq _ _)) by lia.
      apply (ho_size _ _ Hok), elem_of_app. by left.
    + pose proof (apart_in _ _ _ _ _ Hr Ha). rewrite (proj2 (Z.eqb_neq _ _)) by lia.
      apply (ho_size _ _ Hok), elem_of_app. right. by apply Hin.
  - rewrite Eb. apply apart_app. exists (bp - 1). split; [done|]. cbn [apart]. split_and!; [lia|done|done].
  - rewrite Ef, fmap_app, app_comm_cons. apply elem_of_app. left. apply last_node_in.
  - rewrite Eb. apply (ho_brk _ _ Hok).
Qed.

(** The block [bp] of size [k] becomes part of the free block [p] below it. *)
Lemma merge_block_ok h h2 l0 p m l2 r bp k y :
  heap_ok h ((l0 ++ [(p, m)]) ++ l2) -> p + 8 * m = bp -> apart (bp + 8 * k) r (h_brk h) -> 0 < k ->
  (forall a n, (a, n) ∈ r -> (a, n) ∈ l2) -> trail (h_ptr h) y (r.*1 ++ [base]) ->
  (forall x, h_ptr h2 x = upd (upd (h_ptr h) bp (first_node r)) p (first_node r) x) ->
  (forall x, h_size h2 x = upd (upd (h_size h) bp k) p (m + k) x) -> h_brk h2 = h_brk h -> h_freep h2 = p ->
  heap_ok h2 (l0 ++ (p, m + k) :: r).
Proof.
  intros Hok Hpm Hr Hk Hin Ht Ep Es Eb Ef. destruct (ho_base _ _ Hok) as [Hb0 Hb].
  pose proof (ho_apart _ _ Hok) as Ha. apply apart_app in Ha as (b & (c & Hl0 & Hp & Hm & Hpb)%apart_app & _).
  pose proof (apart_le _ _ _ Hl0) as Hc. cbn [apart] in Hpb.
  assert (Hl1 : apart (base + 7) (l0 ++ [(p, m)]) bp) by (apply apart_app; exists c; cbn [apart]; intuition lia).
  assert (Hr' : apart bp r (h_brk h)) by (destruct r as [|[a n] r]; cbn [apart] in *; intuition lia).
  constructor.
  - replace ((l0 ++ (p, m + k) :: r).*1) with (((l0 ++ [(p, m)]) ++ r).*1) by (rewrite <- app_assoc, !fmap_app; done).
    eapply ring_skip; [exact (ho_ring _ _ Hok)|exact Ht|exact Hl1|exact Hr'| |]; unfold upd in Ep; rewrite last_node_snoc.
    + by rewrite Ep, Z.eqb_refl.
    + intros x H1 H2. by rewrite Ep, !(proj2 (Z.eqb_neq _ _)).
  - split; [done|]. rewrite Es. unfold upd. rewrite !(proj2 (Z.eqb_neq _ _)); [done|lia|lia].
  - intros a n Ha. rewrite Es. unfold upd.
    apply elem_of_app in Ha as [Ha|[[= -> ->]|Ha]%elem_of_cons]; [|by rewrite Z.eqb_refl|].
    + pose proof (apart_in _ _ _ _ _ Hl0 Ha). rewrite !(proj2 (Z.eqb_neq _ _)) by lia.
      apply (ho_size _ _ Hok). rewrite <- app_assoc. apply elem_of_app. by left.
    + pose proof (apart_in _ _ _ _ _ Hr Ha). rewrite !(proj2 (Z.eqb_neq _ _)) by lia.
      apply (ho_size _ _ Hok), elem_of_app. right. by apply Hin.
  - rewrite Eb. apply apart_app. exists c. split; [done|]. cbn [apart]. split_and!; [lia|lia|].
    by replace (p + 8 * (m + k)) with (bp + 8 * k) by lia.
  - rewrite Ef, fmap_app. right. apply elem_of_app. right. by left.
  - rewrite Eb. apply (ho_brk _ _ Hok).
Qed.

Lemma join_below_brk bp p h : h_brk (join_below bp p h) = h_brk h.
Proof. unfold join_below. by destruct (_ =? bp). Qed.

Lemma node_free h l x : heap_ok h l -> x ∈ l.*1 -> is_free l x.
Proof. intros Hok (n & Hn)%in_addr. exists x, n. pose proof (heap_sizes _ _ _ _ Hok Hn). split; [done|lia]. Qed.

(** The second half of [free]: [bp] has been joined with the block above it in [h1]. *)
Lemma below_ok h h1 l1 l2 r bp k y :
  heap_ok h (l1 ++ l2) -> apart (base + 7) l1 bp -> base + 7 < bp -> apart (bp + 8 * k) r (h_brk h) -> 0 < k ->
  (forall a m, (a, m) ∈ r -> (a, m) ∈ l2) -> trail (h_ptr h) y (r.*1 ++ [base]) ->
  (forall x, h_ptr h1 x = upd (h_ptr h) bp (first_node r) x) ->
  (forall x, h_size h1 x = upd (h_size h) bp k x) -> h_brk h1 = h_brk h ->
  let h' := put_freep (last_node l1) (join_below bp (last_node l1) h1) in
  exists l', heap_ok h' l' /\ (length l' <= S (length (l1 ++ r)))%nat /\
    (forall x, is_free l' x <-> is_free l1 x \/ bp <= x < bp + 8 * k \/ is_free r x) /\
    (forall x, x <> last_node l1 -> x <> bp -> h_ptr h' x = h_ptr h x /\ h_size h' x = h_size h x).
Proof.
  intros Hok Hl1 Hbp Hr Hk Hin Ht Ep Es Eb h'. pose proof (apart_le _ _ _ Hr). pose proof (ho_brk _ _ Hok).
  destruct (ho_base _ _ Hok) as [Hb0 Hb]. assert (Ebp : h_size h1 bp = k) by (rewrite Es; unfold upd; by rewrite Z.eqb_refl).
  assert (Epb : h_ptr h1 bp = first_node r) by (rewrite Ep; unfold upd; by rewrite Z.eqb_refl).
  assert (Ebr : h_brk h' = h_brk h) by (subst h'; simpl; by rewrite join_below_brk).
  destruct (join_below_spec h1 l1 bp k) as [(l0 & m & El & Em & Es2 & Ep2)|(Hl1' & Es2 & Ep2)]; try done; try lia.
  { rewrite Es. unfold upd. rewrite (proj2 (Z.eqb_neq _ _)); [done|lia]. }
  { intros a m Ha. pose proof (apart_in _ _ _ _ _ Hl1 Ha). rewrite Es. unfold upd.
    rewrite (proj2 (Z.eqb_neq _ _)) by lia. apply (ho_size _ _ Hok), elem_of_app. by left. }
  all: assert (Ef : h_freep h' = last_node l1) by done; revert Ef Es2 Ep2 Ebr.
  all: change (h_size (join_below bp (last_node l1) h1)) with (h_size h');
    change (h_ptr (join_below bp (last_node l1) h1)) with (h_ptr h'); clearbody h'; intros Ef Es2 Ep2 Ebr.
  - rewrite Epb in Ep2. set (p := last_node l1) in *. clearbody p. subst l1.
    assert (Hm : 0 < m) by (apply apart_app in Hl1 as (c & _ & Hc); apply Hc).
    exists (l0 ++ (p, m + k) :: r). split_and!.
    + eapply merge_block_ok; [exact Hok|exact Em|exact Hr|done|done|exact Ht| | |done|done]; intros x.
      * rewrite Ep2. unfold upd. by rewrite Ep.
      * rewrite Es2. unfold upd. by rewrite Es.
    + rewrite !length_app. simpl. lia.
    + intros x. rewrite !is_free_app, !is_free_cons, is_free_nil. rewrite <- Em.
      assert (p <= x < p + 8 * (m + k) <-> p <= x < p + 8 * m \/ p + 8 * m <= x < p + 8 * m + 8 * k) by lia. tauto.
    + intros x H1 H2. rewrite Ep2, Es2. unfold upd. rewrite !(proj2 (Z.eqb_neq x p)) by done.
      rewrite Ep, Es. unfold upd. by rewrite !(proj2 (Z.eqb_neq x bp)).
  - exists (l1 ++ (bp, k) :: r). split_and!.
    + eapply insert_block_ok; [exact Hok|exact Hl1'|exact Hr|done|done|exact Ht| | |done|done]; intros x.
      * rewrite Ep2. unfold upd. by rewrite Ep.
      * by rewrite Es2, Es.
    + rewrite !length_app. simpl. lia.
    + intros x. rewrite !is_free_app, !is_free_cons. tauto.
    + intros x H1 H2. rewrite Ep2, Es2, Es. unfold upd. rewrite !(proj2 (Z.eqb_neq x _)) by done.
      rewrite Ep. unfold upd. by rewrite (proj2 (Z.eqb_neq x bp)).
Qed.

(** Freeing a block that is not free adds its bytes to the free memory and changes nothing else. *)
Lemma free_ok fuel h l bp n :
  heap_ok h l -> h_size h bp = n -> 0 < n -> base + 7 < bp -> bp + 8 * n <= h_brk h ->
  (forall x, bp <= x < bp + 8 * n -> ~ is_free l x) -> (length l + 1 < fuel)%nat ->
  exists h' l', free fuel (bp + 8) h = Some h' /\ heap_ok h' l' /\ h_brk h' = h_brk h /\
    (length l' <= S (length l))%nat /\
    (forall x, is_free l' x <-> is_free l x \/ bp <= x < bp + 8 * n) /\
    (forall x, x <> base -> ~ is_free l' x -> h_ptr h' x = h_ptr h x /\ h_size h' x = h_size h x).
Proof.
  intros Hok Hs Hn Hbase Hhi Hf Hfuel. pose proof (ho_base _ _ Hok) as [Hb0 _]. pose proof (ho_brk _ _ Hok) as Hbrk.
  destruct (split_around _ _ _ _ _ (ho_apart _ _ Hok) Hn Hf Hbase Hhi) as (l1 & l2 & -> & Hl1 & Hl2).
  pose proof (ho_ring _ _ Hok) as R. pose proof (proj1 (ring_split _ _ _) R) as [_ R2].
  unfold free. replace (u32 (bp + 8 - sizeof_header)) with bp
    by (unfold u32, sizeof_header; rewrite Z.mod_small; unfold KERNBASE in Hbrk; lia).
  rewrite (find_place_ok h l1 l2 bp (h_brk h) R Hl1) by
    (done || exact (ho_freep _ _ Hok) || (destruct l2 as [|[a m] l2]; cbn [apart] in *; intuition lia)).
  cbn [mbind option_bind].
  destruct (join_above_spec h l1 l2 bp n (h_brk h) R) as (k & r & Hr & Es & Ep & Eb); try done; try lia.
  { intros a m Hin. apply (ho_size _ _ Hok), elem_of_app. by right. }
  destruct (above_blocks _ _ _ _ _ _ Hr Hn Hl2) as (Har & Hnk & Hin & Hlen & Hfr).
  assert (Ht : exists y, trail (h_ptr h) y (r.*1 ++ [base])).
  { destruct Hr as [(-> & _)|(-> & _)]; [by eexists|]. destruct R2 as [_ R2]. by eexists. }
  destruct Ht as [y Ht].
  destruct (below_ok h _ l1 l2 r bp k y Hok Hl1 Hbase Har ltac:(lia) Hin Ht Ep Es Eb) as (l' & Hok' & Hlen' & Hfr' & Hframe).
  assert (Hfree : forall x, is_free l' x <-> is_free (l1 ++ l2) x \/ bp <= x < bp + 8 * n).
  { intros x. rewrite Hfr', Hfr, is_free_app. tauto. }
  eexists _, l'. split_and!; [done|exact Hok'| | |exact Hfree|].
  - simpl. by rewrite join_below_brk.
  - rewrite !length_app in *. lia.
  - intros x Hx Hnf. apply Hframe; intros ->; apply Hnf, Hfree; [|right; lia].
    pose proof (last_node_in l1) as [Hb|Hl]%elem_of_cons; [by destruct Hx|]. left.
    apply (node_free _ _ _ Hok). rewrite fmap_app. apply elem_of_app. by left.
Qed.

(** * malloc *)

(** Two free blocks do not touch. *)
Lemma apart_two lo l hi a n b k :
  apart lo l hi -> (a, n) ∈ l -> (b, k) ∈ l -> (a, n) = (b, k) \/ a + 8 * n < b \/ b + 8 * k < a.
Proof.
  revert lo. induction l as [|[c m] l IH]; intros lo Ha H1 H2; [by apply not_elem_of_nil in H1|].
  destruct Ha as (_ & _ & Ha).
  apply elem_of_cons in H1 as [E1|H1]; apply elem_of_cons in H2 as [E2|H2]; simplify_eq.
  - by left.
  - pose proof (apart_in _ _ _ _ _ Ha H2). lia.
  - pose proof (apart_in _ _ _ _ _ Ha H1). lia.
  - by eapply IH.
Qed.

(** So free memory without a gap is in one block. *)
Lemma free_run lo l hi s n :
  apart lo l hi -> 0 < n -> (forall x, s <= x < s + 8 * n -> is_free l x) -> exists a k, (a, k) ∈ l /\ n <= k.
Proof.
  intros Ha Hn Hf. destruct (Hf s) as (a & k & Hin & Hs); [lia|]. exists a, k. split; [done|].
  destruct (decide (s + 8 * n <= a + 8 * k)); [lia|].
  destruct (Hf (a + 8 * k)) as (b & m & Hb & Hx); [lia|].
  destruct (apart_two _ _ _ _ _ _ _ Ha Hin Hb) as [[= -> ->]|[?|?]]; pose proof (apart_in _ _ _ _ _ Ha Hin); lia.
Qed.

Lemma trail_lookup ptr x w i y z : trail ptr x w -> (x :: w) !! i = Some y -> w !! i = Some z -> ptr y = z.
Proof.
  revert x i. induction w as [|v w IH]; intros x [|i] Ht Hy Hz; try done; destruct Ht as [Hx Ht].
  - simpl in *. congruence.
  - by eapply IH.
Qed.

(** A node whose link leads to a block is the node before it. *)
Lemma pred_unique h la p k lb y :
  heap_ok h (la ++ (p, k) :: lb) -> y ∈ base :: (la ++ (p, k) :: lb).*1 -> h_ptr h y = p -> y = last_node la.
Proof.
  intros Hok Hy Ep. pose proof (ring_nodup _ _ (ho_apart _ _ Hok)) as Hnd. pose proof (ho_ring _ _ Hok) as R.
  set (w := (la ++ (p, k) :: lb).*1) in *.
  assert (Hw : w = la.*1 ++ p :: lb.*1) by (subst w; by rewrite fmap_app).
  assert (Hnd' : NoDup (w ++ [base])).
  { eapply NoDup_Permutation_proper; [symmetry; apply Permutation_cons_append|done]. }
  apply list_elem_of_lookup in Hy as [i Hi]. pose proof (lookup_lt_Some _ _ _ Hi) as Hlt. simpl in Hlt.
  destruct (lookup_lt_is_Some_2 (w ++ [base]) i) as [z Hz]; [rewrite length_app; simpl; lia|].
  assert (Hi' : (base :: w ++ [base]) !! i = Some y) by (rewrite app_comm_cons; by apply lookup_app_l_Some).
  pose proof (trail_lookup _ _ _ _ _ _ R Hi' Hz) as Ez. rewrite Ep in Ez. subst z.
  assert (Hp : (w ++ [base]) !! length la.*1 = Some p).
  { rewrite Hw, <- app_assoc, lookup_app_r, Nat.sub_diag by lia. done. }
  pose proof (NoDup_lookup _ _ _ _ Hnd' Hz Hp) as ->. rewrite Hw in Hi. unfold last_node.
  destruct (last la.*1) as [v|] eqn:Hl.
  - apply last_Some in Hl as [l' El]. rewrite El, length_app, Nat.add_comm in Hi. simpl in Hi.
    rewrite <- app_assoc, lookup_app_r, Nat.sub_diag in Hi by lia. by injection Hi.
  - apply last_None in Hl. rewrite Hl in Hi. by injection Hi.
Qed.

(** The walk of [malloc]: from any node round the ring and back to it. *)
Lemma rotation h l f :
  heap_ok h l -> f ∈ base :: l.*1 ->
  exists p w, trail (h_ptr h) f (p :: w) /\ last (p :: w) = Some f /\ length w = length l /\ (p :: w) ≡ₚ (base :: l.*1).
Proof.
  intros Hok Hf. pose proof (ho_ring _ _ Hok) as R.
  assert (exists v, trail (h_ptr h) f v /\ last v = Some f /\ v ≡ₚ (base :: l.*1)) as (v & Hv & Hlast & Hperm).
  { apply elem_of_cons in Hf as [->|(n & (la & lb & ->)%list_elem_of_split)%in_addr].
    - exists (l.*1 ++ [base]). split_and!; [done|by rewrite last_snoc|]. symmetry. apply Permutation_cons_append.
    - rewrite fmap_app, <- app_assoc, trail_app in R. destruct R as [R1 [R2 R3]].
      exists ((lb.*1 ++ [base]) ++ la.*1 ++ [f]). split_and!.
      + apply trail_app. rewrite last_snoc. split; [exact R3|]. apply trail_app. split; [exact R1|by split].
      + by rewrite app_assoc, last_snoc.
      + rewrite fmap_app. simpl. solve_Permutation. }
  destruct v as [|p w]; [done|]. exists p, w. split_and!; [done|done| |done].
  apply Permutation_length in Hperm. rewrite !length_cons, length_fmap in Hperm. lia.
Qed.

(** What [malloc] promises when it takes the block [(bp, n)] out of the free memory [fr]. *)
Record taken (h : heap) (fr : Z -> Prop) (bp n : Z) (h' : heap) (l' : list (Z * Z)) : Prop := {
  tk_ok : heap_ok h' l';
  tk_size : h_size h' bp = n;
  tk_was_free x : bp <= x < bp + 8 * n -> fr x;
  tk_free x : is_free l' x <-> fr x /\ ~ bp <= x < bp + 8 * n;
  tk_frame x : x <> base -> ~ fr x -> h_ptr h' x = h_ptr h x /\ h_size h' x = h_size h x
}.

(** The bytes of a block, and those of the blocks around it. *)
Lemma is_free_without la p k lb hi x :
  apart (base + 7) (la ++ (p, k) :: lb) hi ->
  is_free (la ++ lb) x <-> is_free (la ++ (p, k) :: lb) x /\ ~ p <= x < p + 8 * k.
Proof.
  intros Ha. rewrite !is_free_app, is_free_cons. split; [|tauto]. intros Hx. split; [tauto|]. intros Hp.
  apply apart_app in Ha as (m & Hla & Hm & Hk & Hlb).
  destruct Hx as [(a & n & Hin & Hx)|(a & n & Hin & Hx)].
  - pose proof (apart_in _ _ _ _ _ Hla Hin). lia.
  - pose proof (apart_in _ _ _ _ _ Hlb Hin). lia.
Qed.

Lemma is_free_shrink la p k n lb hi x :
  apart (base + 7) (la ++ (p, k) :: lb) hi -> 0 < n < k ->
  is_free (la ++ (p, k - n) :: lb) x <->
  is_free (la ++ (p, k) :: lb) x /\ ~ p + 8 * (k - n) <= x < p + 8 * (k - n) + 8 * n.
Proof.
  intros Ha Hn. pose proof (proj1 (is_free_without _ _ _ _ _ x Ha)) as Hw. rewrite is_free_app in Hw.
  rewrite !is_free_app, !is_free_cons. split.
  - intros [Hx|[Hx|Hx]].
    + split; [by left|]. destruct (Hw (or_introl Hx)). lia.
    + split; [right; left; lia|lia].
    + split; [by right; right|]. destruct (Hw (or_intror Hx)). lia.
  - intros [[Hx|[Hx|Hx]] Hn']; [by left|right; left; lia|by right; right].
Qed.

(** The block is of the size asked for. *)
Lemma take_whole h la p n lb :
  heap_ok h (la ++ (p, n) :: lb) ->
  taken h (is_free (la ++ (p, n) :: lb)) p n (put_freep (last_node la) (put_ptr (last_node la) (h_ptr h p) h)) (la ++ lb).
Proof.
  intros Hok. pose proof (ho_apart _ _ Hok) as Ha. pose proof (ho_ring _ _ Hok) as R.
  pose proof (proj1 (apart_app _ _ _ _) Ha) as (m & Hla & Hm & Hn & Hlb). pose proof (apart_le _ _ _ Hla) as Hle.
  assert (Hin : forall b, b ∈ la ++ lb -> b ∈ la ++ (p, n) :: lb) by set_solver.
  assert (Hlast : last_node la ∈ base :: (la ++ (p, n) :: lb).*1).
  { rewrite fmap_app, app_comm_cons. apply elem_of_app. left. apply last_node_in. }
  constructor; [constructor; simpl| | |intros x; by eapply is_free_without|].
  - assert (Rp : trail (h_ptr h) p (lb.*1 ++ [base])) by (apply ring_split in R as [_ [_ R]]; exact R).
    eapply (ring_skip (h_ptr h) _ la ((p, n) :: lb) lb p p (h_brk h)); [exact R|exact Rp| | | |].
    + eapply apart_below; [exact Hla|lia].
    + destruct lb as [|[a k] lb]; cbn [apart] in *; intuition lia.
    + unfold upd. rewrite Z.eqb_refl. by apply first_link.
    + intros x Hx _. unfold upd. by rewrite (proj2 (Z.eqb_neq _ _)).
  - apply (ho_base _ _ Hok).
  - intros a k Hak. by apply (ho_size _ _ Hok), Hin.
  - apply apart_app. exists m. split; [done|]. destruct lb as [|[a k] lb]; cbn [apart] in *; intuition lia.
  - rewrite fmap_app, app_comm_cons. apply elem_of_app. left. apply last_node_in.
  - apply (ho_brk _ _ Hok).
  - apply (ho_size _ _ Hok). set_solver.
  - intros x Hx. rewrite is_free_app, is_free_cons. tauto.
  - intros x Hb Hx. simpl. unfold upd. rewrite (proj2 (Z.eqb_neq _ _)); [done|]. intros ->. apply Hx.
    apply elem_of_cons in Hlast as [Hlast|Hlast]; [done|]. by apply (node_free _ _ _ Hok).
Qed.

(** The block is larger: its upper end is taken. *)
Lemma take_end h la p k n lb f :
  heap_ok h (la ++ (p, k) :: lb) -> 0 < n < k -> f ∈ base :: (la ++ (p, k) :: lb).*1 ->
  taken h (is_free (la ++ (p, k) :: lb)) (p + 8 * (k - n)) n
    (put_freep f (put_size (p + 8 * (k - n)) n (put_size p (k - n) h))) (la ++ (p, k - n) :: lb).
Proof.
  intros Hok Hn Hf. pose proof (ho_apart _ _ Hok) as Ha.
  pose proof (proj1 (apart_app _ _ _ _) Ha) as (m & Hla & Hm & Hk & Hlb). pose proof (apart_le _ _ _ Hla) as Hle.
  assert (Efst : (la ++ (p, k - n) :: lb).*1 = (la ++ (p, k) :: lb).*1) by (by rewrite !fmap_app).
  assert (Hother : forall x, x < p \/ p + 8 * k <= x ->
    upd (upd (h_size h) p (k - n)) (p + 8 * (k - n)) n x = h_size h x).
  { intros x Hx. unfold upd. rewrite !(proj2 (Z.eqb_neq _ _)); [done|lia|lia]. }
  constructor; [constructor; simpl| | |intros x; by eapply is_free_shrink|].
  - rewrite Efst. apply (ho_ring _ _ Hok).
  - split; [apply (ho_base _ _ Hok)|]. rewrite Hother by lia. apply (ho_base _ _ Hok).
  - intros a j [Haj|[[= -> ->]|Haj]%elem_of_cons]%elem_of_app.
    + pose proof (apart_in _ _ _ _ _ Hla Haj). rewrite Hother by lia. apply (ho_size _ _ Hok). set_solver.
    + unfold upd. rewrite Z.eqb_refl, (proj2 (Z.eqb_neq _ _)); [done|lia].
    + pose proof (apart_in _ _ _ _ _ Hlb Haj). rewrite Hother by lia. apply (ho_size _ _ Hok). set_solver.
  - apply apart_app. exists m. split; [done|]. cbn [apart]. split_and!; [done|lia|].
    destruct lb as [|[a j] lb]; cbn [apart] in *; intuition lia.
  - by rewrite Efst.
  - apply (ho_brk _ _ Hok).
  - simpl. unfold upd. by rewrite Z.eqb_refl.
  - intros x Hx. rewrite is_free_app, is_free_cons. right. left. lia.
  - intros x Hb Hx. simpl. split; [done|]. apply Hother. rewrite is_free_app, is_free_cons in Hx. lia.
Qed.

Lemma take_block_ok h l n prevp p k :
  heap_ok h l -> (p, k) ∈ l -> 0 < n <= k -> prevp ∈ base :: l.*1 -> h_ptr h prevp = p ->
  exists bp h' l', take_block n h prevp p = (bp + 8, h') /\ h_brk h' = h_brk h /\ base + 7 < bp /\
    bp + 8 * n <= h_brk h /\ (length l' <= length l)%nat /\ taken h (is_free l) bp n h' l'.
Proof.
  intros Hok Hin Hn Hprev Ep. pose proof (heap_sizes _ _ _ _ Hok Hin) as (Hp & Hk & Hhi).
  pose proof (ho_brk _ _ Hok) as Hbrk. unfold KERNBASE in Hbrk. destruct (ho_base _ _ Hok) as [Hb0 _].
  unfold take_block. rewrite (ho_size _ _ Hok _ _ Hin).
  apply list_elem_of_split in Hin as (la & lb & ->). pose proof (pred_unique _ _ _ _ _ _ Hok Hprev Ep) as ->.
  destruct (Z.eqb_spec k n) as [<-|Hne].
  - eexists p, _, (la ++ lb). split.
    { unfold u32, sizeof_header. rewrite Z.mod_small by lia. done. }
    split_and!; [done|done|done|rewrite !length_app; simpl; lia|by apply take_whole].
  - assert (Esz : u32 (k - n) = k - n) by (unfold u32; apply Z.mod_small; lia).
    cbv zeta. rewrite Esz. assert (Eq : padd p (h_size (put_size p (k - n) h) p) = p + 8 * (k - n)).
    { simpl. unfold upd. rewrite Z.eqb_refl. unfold padd, u32, sizeof_header. apply Z.mod_small. lia. }
    rewrite Eq. eexists (p + 8 * (k - n)), _, (la ++ (p, k - n) :: lb). split.
    { unfold u32, sizeof_header. rewrite Z.mod_small by lia. done. }
    split_and!; [done|lia|lia|rewrite !length_app; simpl; lia|apply take_end; [done|lia|done]].
Qed.

Context (mem_ok : Z -> heap -> bool) (fuel : nat).

(** Whether the kernel extends the memory for a request of [n] units. *)
Definition core_bytes (n : Z) : Z := 8 * Z.max n 4096.
Definition grows (n : Z) (h : heap) : bool := (h_brk h + core_bytes n <? KERNBASE) && mem_ok (core_bytes n) h.

Lemma sbrk_up n h :
  0 < n < 2147483648 -> 0 < h_brk h < KERNBASE ->
  sbrk mem_ok n h =
  if (h_brk h + n <? KERNBASE) && mem_ok n h then (h_brk h, put_brk (h_brk h + n) h) else (4294967295, h).
Proof.
  intros Hn Hb. unfold sbrk. assert (Es : s32 n = n) by (unfold s32; rewrite Z.mod_small; lia).
  assert (Eu : u32 (h_brk h + n) = h_brk h + n) by (unfold u32; unfold KERNBASE in Hb; rewrite Z.mod_small; lia).
  rewrite Es, Eu. by rewrite (proj2 (Z.ltb_lt 0 n)) by lia.
Qed.

(** The new memory, with its header written, is not free yet. *)
Lemma new_core_ok h l nu n :
  heap_ok h l -> 0 < n -> h_brk h + n < KERNBASE -> heap_ok (put_size (h_brk h) nu (put_brk (h_brk h + n) h)) l.
Proof.
  intros Hok Hn Hk. pose proof (ho_brk _ _ Hok). constructor; simpl.
  - apply (ho_ring _ _ Hok).
  - split; [apply (ho_base _ _ Hok)|]. unfold upd. rewrite (proj2 (Z.eqb_neq _ _)) by lia. apply (ho_base _ _ Hok).
  - intros a m Hin. pose proof (heap_sizes _ _ _ _ Hok Hin). unfold upd. rewrite (proj2 (Z.eqb_neq _ _)) by lia.
    by apply (ho_size _ _ Hok).
  - eapply apart_below; [apply (ho_apart _ _ Hok)|lia].
  - apply (ho_freep _ _ Hok).
  - lia.
Qed.

(** [morecore] fails without a change, or adds the new memory to the free memory. *)
Lemma morecore_ok h l n :
  heap_ok h l -> 0 < n -> 8 * n < 2147483648 -> (length l + 1 < fuel)%nat ->
  (grows n h = false /\ morecore mem_ok fuel n h = Some (0, h)) \/
  exists h' l', morecore mem_ok fuel n h = Some (h_freep h', h') /\ heap_ok h' l' /\
    (length l' <= S (length l))%nat /\ h_brk h <= h_brk h' /\
    (forall x, is_free l' x <-> is_free l x \/ h_brk h <= x < h_brk h') /\
    (exists a k, (a, k) ∈ l' /\ n <= k) /\
    (forall x, x <> base -> ~ is_free l' x -> h_ptr h' x = h_ptr h x /\ h_size h' x = h_size h x).
Proof.
  intros Hok Hn Hn8 Hfuel. pose proof (ho_brk _ _ Hok) as Hbrk. destruct (ho_base _ _ Hok) as [Hb0 _].
  unfold morecore. replace (if n <? 4096 then 4096 else n) with (Z.max n 4096) by (destruct (Z.ltb_spec n 4096); lia).
  set (nu := Z.max n 4096). assert (Ecb : core_bytes n = 8 * nu) by done. assert (Hnu : 0 < nu /\ n <= nu) by lia.
  assert (Eu : u32 (nu * sizeof_header) = 8 * nu) by (unfold u32, sizeof_header; rewrite Z.mod_small; lia).
  cbv zeta. rewrite Eu, sbrk_up, <- Ecb by lia. fold (grows n h). destruct (grows n h) eqn:Hg; [right|by left].
  rewrite (proj2 (Z.eqb_neq _ _)) by (unfold KERNBASE in Hbrk; lia).
  apply andb_true_iff in Hg as [Hg%Z.ltb_lt _]. rewrite Ecb in *.
  replace (u32 (h_brk h + sizeof_header)) with (h_brk h + 8)
    by (unfold u32, sizeof_header; unfold KERNBASE in Hbrk; rewrite Z.mod_small; lia).
  destruct (free_ok fuel _ l (h_brk h) nu (new_core_ok h l nu (8 * nu) Hok ltac:(lia) Hg))
    as (h' & l' & -> & Hok' & Hbrk' & Hlen & Hfree & Hframe); simpl; try lia.
  { unfold upd. by rewrite Z.eqb_refl. }
  { intros x Hx (a & m & Hin & Ha). pose proof (heap_sizes _ _ _ _ Hok Hin). lia. }
  simpl in Hbrk'. exists h', l'. split_and!; [done|done|done|lia| | |].
  - intros x. by rewrite Hbrk'.
  - destruct (free_run _ _ _ (h_brk h) nu (ho_apart _ _ Hok')) as (a & k & Hin & Hk); [lia| |].
    + intros x Hx. apply Hfree. by right.
    + exists a, k. split; [done|lia].
  - intros x Hx Hnf. destruct (Hframe x Hx Hnf) as [-> ->]. simpl. split; [done|]. unfold upd.
    destruct (Z.eqb_spec x (h_brk h)) as [->|]; [|done]. destruct Hnf. apply Hfree. right. lia.
Qed.

(** One round of the loop of [malloc] takes the first block that is large enough, or comes back to the
    node it started from and calls [morecore]. *)
Lemma malloc_walk h l n k prevp p w :
  heap_ok h l -> 0 < n -> prevp ∈ base :: l.*1 -> trail (h_ptr h) prevp (p :: w) ->
  (forall y, y ∈ p :: w -> y ∈ base :: l.*1) -> NoDup (p :: w) -> last (p :: w) = Some (h_freep h) ->
  (length w < k)%nat ->
  (exists pv q m, (q, m) ∈ l /\ n <= m /\ pv ∈ base :: l.*1 /\ h_ptr h pv = q /\
     malloc_loop mem_ok fuel k n h prevp p = Some (take_block n h pv q)) \/
  ((forall y, y ∈ p :: w -> h_size h y < n) /\
   malloc_loop mem_ok fuel k n h prevp p =
     ('(p, h) ← morecore mem_ok fuel n h;
      if p =? 0 then Some (0, h) else malloc_loop mem_ok fuel (k - length w - 1) n h p (h_ptr h p))).
Proof.
  intros Hok Hn. revert k prevp p. induction w as [|q w IH]; intros [|k] prevp p Hprev Ht Hin Hnd Hlast Hk;
    [simpl in Hk; lia| |simpl in Hk; lia|]; cbn [malloc_loop].
  all: destruct Ht as [Ep Ht]; destruct (Z.leb_spec n (h_size h p)) as [Hle|Hgt].
  1, 3: left; destruct (ho_base _ _ Hok) as [_ Hb]; pose proof (Hin p ltac:(by left)) as [->|(m & Hm)%in_addr]%elem_of_cons;
    [lia|]; rewrite (ho_size _ _ Hok _ _ Hm) in Hle; by exists prevp, p, m.
  - right. injection Hlast as ->. rewrite Z.eqb_refl. split; [by intros y ->%list_elem_of_singleton|].
    replace (S k - length [] - 1)%nat with k by (simpl; lia). by destruct (morecore _ _ _ _) as [[? ?]|].
  - apply NoDup_cons in Hnd as [Hp Hnd]. rewrite last_cons_cons in Hlast.
    rewrite (proj2 (Z.eqb_neq _ _)) by (intros ->; apply Hp; by apply last_Some_elem_of).
    pose proof Ht as [Eq _]. rewrite Eq. destruct (IH k p q) as [Hl|(Hsm & Hr)]; try done.
    + apply Hin. by left.
    + intros y Hy. apply Hin. by right.
    + simpl in Hk. lia.
    + by left.
    + right. split; [intros y [->|Hy]%elem_of_cons; [done|by apply Hsm]|]. rewrite Hr.
      by replace (S k - length (q :: w) - 1)%nat with (k - length w - 1)%nat by (simpl; lia).
Qed.

(** Taking a block after a change that only concerns free memory. *)
Lemma taken_after h h1 l1 (fr : Z -> Prop) bp n h' l' :
  (forall x, is_free l1 x <-> fr x) ->
  (forall x, x <> base -> ~ is_free l1 x -> h_ptr h1 x = h_ptr h x /\ h_size h1 x = h_size h x) ->
  taken h1 (is_free l1) bp n h' l' -> taken h fr bp n h' l'.
Proof.
  intros Hfr Hframe [Hok Hs Hwas Hfree Hf]. constructor; [done|done| | |].
  - intros x Hx. by apply Hfr, Hwas.
  - intros x. by rewrite Hfree, Hfr.
  - intros x Hx Hn. rewrite <- Hfr in Hn. destruct (Hf x Hx Hn) as [-> ->]. by apply Hframe.
Qed.

(** The free memory of a successful [malloc]: what was free, and the new memory if there is any. *)
Definition free_or_new (h : heap) (l : list (Z * Z)) (h' : heap) (x : Z) : Prop :=
  is_free l x \/ h_brk h <= x < h_brk h'.

(** A whole round, starting after [freep]. *)
Lemma malloc_round h l n k :
  heap_ok h l -> 0 < n -> (length l < k)%nat ->
  let r := malloc_loop mem_ok fuel k n h (h_freep h) (h_ptr h (h_freep h)) in
  (exists bp h' l', r = Some (bp + 8, h') /\ h_brk h' = h_brk h /\ base + 7 < bp /\
     bp + 8 * n <= h_brk h /\ (length l' <= length l)%nat /\ taken h (is_free l) bp n h' l') \/
  ((forall a m, (a, m) ∈ l -> m < n) /\
   r = ('(p, h) ← morecore mem_ok fuel n h;
        if p =? 0 then Some (0, h) else malloc_loop mem_ok fuel (k - length l - 1) n h p (h_ptr h p))).
Proof.
  intros Hok Hn Hk r. subst r.
  destruct (rotation h l (h_freep h) Hok (ho_freep _ _ Hok)) as (p & w & Ht & Hlast & Hw & Hperm).
  pose proof Ht as [-> _]. pose proof (ring_nodup _ _ (ho_apart _ _ Hok)) as Hnd.
  destruct (malloc_walk h l n k (h_freep h) p w Hok Hn (ho_freep _ _ Hok) Ht)
    as [(pv & q & m & Hin & Hm & Hpv & Eq & ->)|[Hsmall ->]]; try done; try lia.
  { intros y. by rewrite Hperm. }
  { by rewrite Hperm. }
  - left. destruct (take_block_ok h l n pv q m Hok Hin ltac:(lia) Hpv Eq) as (bp & h' & l' & -> & Htk).
    by exists bp, h', l'.
  - right. rewrite Hw. split; [|done]. intros a m Ham. rewrite <- (ho_size _ _ Hok _ _ Ham).
    apply Hsmall. rewrite Hperm. right. apply list_elem_of_fmap. by exists (a, m).
Qed.

Lemma malloc_loop_ok h l n :
  heap_ok h l -> 0 < n -> 8 * n < 2147483648 -> (2 * length l + 3 < fuel)%nat ->
  let r := malloc_loop mem_ok fuel fuel n h (h_freep h) (h_ptr h (h_freep h)) in
  (r = Some (0, h) /\ grows n h = false /\ forall a k, (a, k) ∈ l -> k < n) \/
  (exists bp h' l', r = Some (bp + 8, h') /\ h_brk h <= h_brk h' /\ base + 7 < bp /\ bp + 8 * n <= h_brk h' /\
     (length l' <= S (length l))%nat /\ taken h (free_or_new h l h') bp n h' l').
Proof.
  intros Hok Hn Hn8 Hfuel r. subst r.
  destruct (malloc_round h l n fuel Hok Hn ltac:(lia)) as [(bp & h' & l' & -> & Hb & Hbp & Hhi & Hlen & Htk)|[Hsmall ->]].
  - right. exists bp, h', l'. split_and!; [done|lia|done|lia|lia|].
    eapply taken_after; [|by intros x|exact Htk]. intros x. unfold free_or_new. rewrite Hb.
    split; [by left|]. intros [Hx|Hx]; [done|lia].
  - destruct (morecore_ok h l n Hok Hn Hn8 ltac:(lia)) as [[Hg ->]|(h1 & l1 & -> & Hok1 & Hlen1 & Hb1 & Hf1 & Hbig & Hframe1)];
      [by left|right; cbn [mbind option_bind]].
    assert (Hfp : 0 < h_freep h1).
    { destruct (ho_base _ _ Hok) as [Hb0 _]. pose proof (ho_freep _ _ Hok1) as [->|Hf]%elem_of_cons; [done|].
      pose proof (apart_addr _ _ _ _ (ho_apart _ _ Hok1) Hf). lia. }
    rewrite (proj2 (Z.eqb_neq _ _)) by lia.
    destruct (malloc_round h1 l1 n (fuel - length l - 1) Hok1 Hn ltac:(lia))
      as [(bp & h' & l' & -> & Hb & Hbp & Hhi & Hlen & Htk)|[Hsmall1 _]].
    + exists bp, h', l'. split_and!; [done|lia|done|lia|lia|].
      eapply taken_after; [|exact Hframe1|exact Htk]. intros x. unfold free_or_new. by rewrite Hf1, Hb.
    + destruct Hbig as (a & k & Hak & Hk). pose proof (Hsmall1 _ _ Hak). lia.
Qed.

(** * The allocator *)

(** The state of the allocator: before the first [malloc], or with the list of the free blocks. *)
Definition arena (h : heap) (l : list (Z * Z)) : Prop :=
  heap_ok h l \/ (h_freep h = 0 /\ l = [] /\ 0 < base /\ base + 7 < h_brk h < KERNBASE).

(** The units of a request: the header and the bytes asked for. *)
Definition units (nbytes : Z) : Z := (nbytes + 7) / 8 + 1.

Lemma arena_brk h l : arena h l -> 0 < base /\ base + 7 < h_brk h < KERNBASE.
Proof.
  intros [Hok|(_ & _ & ?)]; [|done]. split; [apply (ho_base _ _ Hok)|apply (ho_brk _ _ Hok)].
Qed.

Lemma units_bounds nbytes : 0 <= nbytes -> nbytes + 8 <= 8 * units nbytes <= nbytes + 15.
Proof. intros H. unfold units. pose proof (Z.div_mod (nbytes + 7) 8). pose proof (Z.mod_pos_bound (nbytes + 7) 8). lia. Qed.

(** The first [malloc] makes [base] the only node. *)
Lemma first_malloc h l :
  arena h l ->
  let h0 := if h_freep h =? 0 then put_size base 0 (put_freep base (put_ptr base base h)) else h in
  heap_ok h0 l /\ h_brk h0 = h_brk h /\ forall x, x <> base -> h_ptr h0 x = h_ptr h x /\ h_size h0 x = h_size h x.
Proof.
  intros [Hok|(Hf & -> & Hb0 & Hb)] h0; subst h0.
  - assert (Hne : h_freep h <> 0).
    { destruct (ho_base _ _ Hok). pose proof (ho_freep _ _ Hok) as [->|Hin]%elem_of_cons; [lia|].
      pose proof (apart_addr _ _ _ _ (ho_apart _ _ Hok) Hin). lia. }
    by rewrite (proj2 (Z.eqb_neq _ _) Hne).
  - rewrite Hf. cbn [Z.eqb]. split_and!; [|done|].
    + constructor; simpl; unfold upd; rewrite ?Z.eqb_refl; try done; [by intros a n Hin%not_elem_of_nil|lia|by left].
    + intros x Hx. simpl. unfold upd. by rewrite (proj2 (Z.eqb_neq x base)).
Qed.

(** [malloc] with enough fuel: a block of its own, or 0. *)
Lemma malloc_ok h l nbytes :
  arena h l -> 0 <= nbytes <= 2147483632 -> (2 * length l + 3 < fuel)%nat ->
  (exists h', malloc base mem_ok fuel nbytes h = Some (0, h') /\ heap_ok h' l /\ h_brk h' = h_brk h /\
     grows (units nbytes) h' = false /\ (forall a k, (a, k) ∈ l -> k < units nbytes) /\
     forall x, x <> base -> h_ptr h' x = h_ptr h x /\ h_size h' x = h_size h x) \/
  (exists bp h' l', malloc base mem_ok fuel nbytes h = Some (bp + 8, h') /\ h_brk h <= h_brk h' /\
     base + 7 < bp /\ bp + 8 * units nbytes <= h_brk h' /\ (length l' <= S (length l))%nat /\
     taken h (free_or_new h l h') bp (units nbytes) h' l').
Proof.
  intros Ha Hn Hfuel. pose proof (units_bounds nbytes ltac:(lia)) as Hu.
  unfold malloc. replace (u32 (u32 (nbytes + sizeof_header - 1) / sizeof_header + 1)) with (units nbytes).
  2: { assert (E7 : u32 (nbytes + sizeof_header - 1) = nbytes + 7) by (unfold u32, sizeof_header; rewrite Z.mod_small; lia).
       rewrite E7. change ((nbytes + 7) / sizeof_header + 1) with (units nbytes). unfold u32. rewrite Z.mod_small; lia. }
  destruct (first_malloc h l Ha) as (Hok & Hb & Hframe). cbv zeta in *.
  set (h0 := if h_freep h =? 0 then _ else _) in *. clearbody h0.
  destruct (malloc_loop_ok h0 l (units nbytes) Hok) as [(-> & Hg & Hs)|(bp & h' & l' & -> & Hb' & Hbp & Hhi & Hlen & Htk)];
    try lia.
  - left. exists h0. by split_and!.
  - right. exists bp, h', l'. split_and!; [done|lia|done|done|done|]. unfold free_or_new in *. rewrite Hb in Htk.
    destruct Htk as [Hok' Hs Hwas Hfree Hf]. constructor; [done|done|done|done|].
    intros x Hx Hnf. destruct (Hf x Hx Hnf) as [-> ->]. by apply Hframe.
Qed.

End ring.
