(* ===== verification/UmallocSpec.v ===== *)
(** A program that uses umalloc.c: any sequence of calls of [malloc] and [free] and of writes into the
    allocated blocks.  The blocks it holds never overlap, and keep their contents until it writes them. *)

From S2P Require Import Prelude Params Umalloc.

(** The program: its memory, and the blocks it holds as the address [malloc] returned and the bytes it
    asked for. *)
Record program := mkProgram {
  pg_heap : heap;
  pg_live : list (Z * Z)
}.

(** What it does: [malloc(nbytes)], [free] of the [i]-th block it holds, and a write of arbitrary
    contents into that block (never into its header). *)
Inductive request :=
| Rmalloc (nbytes : Z)
| Rfree (i : nat)
| Rwrite (i : nat) (f g : Z -> Z).

(** The cells of a block after its header. *)
Definition payload (b : Z * Z) (x : Z) : bool := (b.1 - 8 <? x) && (x <? b.1 - 8 + 8 * units b.2).

Definition fill (b : Z * Z) (f g : Z -> Z) (h : heap) : heap :=
  mkHeap (fun x => if payload b x then f x else h_ptr h x) (fun x => if payload b x then g x else h_size h x)
    (h_freep h) (h_brk h).

Section client.
Context (base : Z) (mem_ok : Z -> heap -> bool) (fuel : nat).

Definition do_request (q : request) (s : program) : option program :=
  match q with
  | Rmalloc nbytes =>
      '(r, h) ← malloc base mem_ok fuel nbytes (pg_heap s);
      Some (mkProgram h (if r =? 0 then pg_live s else (r, nbytes) :: pg_live s))
  | Rfree i =>
      match pg_live s !! i with
      | Some b => h ← free fuel b.1 (pg_heap s); Some (mkProgram h (delete i (pg_live s)))
      | None => Some s
      end
  | Rwrite i f g =>
      match pg_live s !! i with
      | Some b => Some (mkProgram (fill b f g (pg_heap s)) (pg_live s))
      | None => Some s
      end
  end.

Fixpoint run_requests (qs : list request) (s : program) : option program :=
  match qs with
  | [] => Some s
  | q :: qs' => s' ← do_request q s; run_requests qs' s'
  end.

(** A program that has just started: [freep] is 0, and [base] is below the end of the memory. *)
Definition started (s : program) : Prop :=
  pg_live s = [] /\ h_freep (pg_heap s) = 0 /\ 0 < base /\ base + 7 < h_brk (pg_heap s) < KERNBASE.

Definition sane (q : request) : Prop :=
  match q with Rmalloc nbytes => 0 <= nbytes <= 2147483632 | _ => True end.

(** Two blocks, headers included, that do not overlap. *)
Definition separate (b c : Z * Z) : Prop := b.1 + 8 * units b.2 <= c.1 \/ c.1 + 8 * units c.2 <= b.1.

Fixpoint all_separate (l : list (Z * Z)) : Prop :=
  match l with
  | [] => True
  | b :: l' => Forall (separate b) l' /\ all_separate l'
  end.

(** A block in use: its header, its place, and no byte of it is free. *)
Definition in_use (h : heap) (l : list (Z * Z)) (b : Z * Z) : Prop :=
  base + 15 < b.1 /\ 0 <= b.2 /\ h_size h (b.1 - 8) = units b.2 /\ b.1 - 8 + 8 * units b.2 <= h_brk h /\
  (forall x, b.1 - 8 <= x < b.1 - 8 + 8 * units b.2 -> ~ is_free l x).

Record program_ok (n : nat) (s : program) (l : list (Z * Z)) : Prop := {
  po_arena : arena base (pg_heap s) l;
  po_length : (length l <= n)%nat;
  po_live : Forall (in_use (pg_heap s) l) (pg_live s);
  po_separate : all_separate (pg_live s);
  po_init : pg_live s <> [] -> heap_ok base (pg_heap s) l
}.

Lemma separate_sym b c : separate b c -> separate c b.
Proof. unfold separate. tauto. Qed.

Lemma all_separate_middle l1 b l2 :
  all_separate (l1 ++ b :: l2) -> all_separate (l1 ++ l2) /\ Forall (separate b) (l1 ++ l2).
Proof.
  induction l1 as [|c l1 IH]; simpl; [tauto|]. intros [Hc Hs]. apply IH in Hs as [Hs Hb].
  apply Forall_app in Hc as [Hc1 [Hcb Hc2]%Forall_cons]. split_and!; [by apply Forall_app|done|].
  constructor; [by apply separate_sym|done].
Qed.

Lemma delete_split (l : list (Z * Z)) i b :
  l !! i = Some b -> exists l1 l2, l = l1 ++ b :: l2 /\ delete i l = l1 ++ l2.
Proof.
  intros H. exists (take i l), (drop (S i) l). split; [by rewrite take_drop_middle|apply delete_take_drop].
Qed.

Lemma in_use_units h l b : in_use h l b -> 0 <= b.2 /\ b.2 + 8 <= 8 * units b.2.
Proof. intros (_ & Hb & _). pose proof (units_bounds _ Hb). lia. Qed.

(** A block in use stays so when its cells do not change and its bytes do not become free. *)
Lemma in_use_frame h l h' l' b :
  in_use h l b -> h_brk h <= h_brk h' -> h_size h' (b.1 - 8) = h_size h (b.1 - 8) ->
  (forall x, b.1 - 8 <= x < b.1 - 8 + 8 * units b.2 -> is_free l' x -> is_free l x) -> in_use h' l' b.
Proof.
  intros (H1 & H2 & H3 & H4 & H5) Hb Hs Hf. unfold in_use. rewrite Hs. split_and!; try done; [lia|].
  intros x Hx Hx'. by apply (H5 x Hx), Hf.
Qed.

(** The cells of a block are the same in both memories. *)
Definition kept (h h' : heap) (b : Z * Z) : Prop :=
  forall x, b.1 - 8 <= x < b.1 - 8 + 8 * units b.2 -> h_ptr h' x = h_ptr h x /\ h_size h' x = h_size h x.

(** What one request does to the blocks the program holds. *)
Definition writes (q : request) (s : program) (b : Z * Z) : Prop :=
  match q with Rwrite i _ _ => pg_live s !! i = Some b | _ => False end.

Definition step_ok (n : nat) (q : request) (s : program) : Prop :=
  exists s' l', do_request q s = Some s' /\ program_ok (S n) s' l' /\
    forall b, b ∈ pg_live s -> b ∈ pg_live s' -> ~ writes q s b -> kept (pg_heap s) (pg_heap s') b.

(** The blocks in use when their cells are kept and none of their bytes becomes free. *)
Lemma in_use_kept h l h' l' bs :
  Forall (in_use h l) bs -> h_brk h <= h_brk h' -> Forall (kept h h') bs ->
  (forall b x, b ∈ bs -> b.1 - 8 <= x < b.1 - 8 + 8 * units b.2 -> is_free l' x -> is_free l x) ->
  Forall (in_use h' l') bs.
Proof.
  rewrite !Forall_forall. intros Hu Hb Hk Hf b Hin. specialize (Hu b Hin). eapply in_use_frame; [exact Hu|done| |].
  - apply (Hk b Hin). pose proof (in_use_units _ _ _ Hu). lia.
  - intros x. by apply Hf.
Qed.

Lemma malloc_step n nbytes s l :
  program_ok n s l -> 0 <= nbytes <= 2147483632 -> (2 * n + 3 < fuel)%nat -> step_ok n (Rmalloc nbytes) s.
Proof.
  intros [Ha Hlen Hlive Hsep Hini] Hn Hfuel. unfold step_ok. cbn [do_request].
  pose proof (proj1 (Forall_forall _ _) Hlive) as Hin.
  destruct (malloc_ok base mem_ok fuel (pg_heap s) l nbytes Ha Hn ltac:(lia))
    as [(h' & -> & Hok & Hb & _ & _ & Hframe)|(bp & h' & l' & -> & Hb & Hbp & Hhi & Hlen' & Htk)]; cbn [mbind option_bind].
  - assert (Hk : Forall (kept (pg_heap s) h') (pg_live s)).
    { apply Forall_forall. intros b Hb' x Hx. apply Hframe. destruct (Hin b Hb'). lia. }
    exists (mkProgram h' (pg_live s)), l. split_and!; [done| |].
    + constructor; cbn [pg_heap pg_live]; [by left|lia| |done|done].
      eapply in_use_kept; [exact Hlive|lia|exact Hk|done].
    + intros b Hb' _ _. by apply (proj1 (Forall_forall _ _) Hk).
  - destruct Htk as [Hok Hs Hwas Hfree Hframe]. pose proof (arena_brk _ _ _ Ha) as [Hb0 _].
    rewrite (proj2 (Z.eqb_neq _ _)) by lia.
    assert (Hold : forall b x, b ∈ pg_live s -> b.1 - 8 <= x < b.1 - 8 + 8 * units b.2 -> ~ free_or_new (pg_heap s) l h' x).
    { intros b x Hb' Hx. destruct (Hin b Hb') as (_ & _ & _ & Hb4 & Hb5). intros [Hf|Hf]; [by apply (Hb5 x)|lia]. }
    assert (Hk : Forall (kept (pg_heap s) h') (pg_live s)).
    { apply Forall_forall. intros b Hb' x Hx. apply Hframe; [destruct (Hin b Hb'); lia|by eapply Hold]. }
    exists (mkProgram h' ((bp + 8, nbytes) :: pg_live s)), l'. split_and!; [done| |].
    + constructor; cbn [pg_heap pg_live all_separate]; [by left|lia| | |done].
      * constructor; [|eapply in_use_kept; [exact Hlive|lia|exact Hk|]].
        -- unfold in_use. cbn [fst snd]. replace (bp + 8 - 8) with bp by lia. split_and!; try done; try lia.
           intros x Hx Hf. by apply Hfree in Hf as [_ Hf].
        -- intros b x Hb' Hx Hf. apply Hfree in Hf as [Hf _]. by destruct (Hold b x).
      * split; [|done]. apply Forall_forall. intros b Hb'. unfold separate. cbn [fst snd].
        pose proof (in_use_units _ _ _ (Hin b Hb')). pose proof (units_bounds nbytes ltac:(lia)).
        destruct (decide (bp + 8 + 8 * units nbytes <= b.1)); [by left|]. right.
        destruct (decide (b.1 + 8 * units b.2 <= bp + 8)); [done|]. exfalso.
        apply (Hold b (Z.max bp (b.1 - 8)) Hb'); [lia|]. apply Hwas. lia.
    + intros b Hb' _ _. by apply (proj1 (Forall_forall _ _) Hk).
Qed.

Lemma free_step n i s l : program_ok n s l -> (n + 1 < fuel)%nat -> step_ok n (Rfree i) s.
Proof.
  intros Hpo Hfuel. pose proof Hpo as [Ha Hlen Hlive Hsep Hini]. unfold step_ok. cbn [do_request].
  destruct (pg_live s !! i) as [b|] eqn:Hi.
  2: { exists s, l. split_and!; [done| |by intros b _ _ _ x]. destruct Hpo. constructor; try done. lia. }
  destruct (delete_split _ _ _ Hi) as (l1 & l2 & El & Ed). rewrite Ed, El in *.
  assert (Hok : heap_ok base (pg_heap s) l) by (apply Hini; by destruct l1).
  apply all_separate_middle in Hsep as [Hsep Hb].
  pose proof (proj1 (Forall_app _ _ _) Hlive) as [Hl1 [Hib Hl2]%Forall_cons]. pose proof Hib as (B1 & B2 & B3 & B4 & B5).
  pose proof (in_use_units _ _ _ Hib) as Hu. assert (Hl12 : Forall (in_use (pg_heap s) l) (l1 ++ l2)) by (by apply Forall_app).
  destruct (free_ok base fuel (pg_heap s) l (b.1 - 8) (units b.2) Hok B3)
    as (h' & l' & Ef & Hok' & Hbrk & Hlen' & Hfree & Hframe); try done; try lia.
  replace (b.1 - 8 + 8) with b.1 in Ef by lia. rewrite Ef. cbn [mbind option_bind].
  assert (Hout : forall c x, c ∈ l1 ++ l2 -> c.1 - 8 <= x < c.1 - 8 + 8 * units c.2 -> ~ is_free l' x).
  { intros c x Hc Hx [Hf|Hf]%Hfree.
    - pose proof (proj1 (Forall_forall _ _) Hl12 c Hc) as (_ & _ & _ & _ & C5). by apply (C5 x).
    - pose proof (proj1 (Forall_forall _ _) Hb c Hc) as Hs. unfold separate in Hs. lia. }
  assert (Hk : Forall (kept (pg_heap s) h') (l1 ++ l2)).
  { apply Forall_forall. intros c Hc x Hx. apply Hframe; [|by eapply Hout].
    pose proof (proj1 (Forall_forall _ _) Hl12 c Hc) as (C1 & _). lia. }
  exists (mkProgram h' (l1 ++ l2)), l'. split_and!; [done| |].
  - constructor; cbn [pg_heap pg_live]; [by left|lia| |done|done].
    eapply in_use_kept; [exact Hl12|lia|exact Hk|]. intros c x Hc Hx Hf. by destruct (Hout c x).
  - intros c _ Hc _. by apply (proj1 (Forall_forall _ _) Hk).
Qed.

(** A write into a block in use touches no free block. *)
Lemma fill_ok h l b f g : heap_ok base h l -> in_use h l b -> heap_ok base (fill b f g h) l.
Proof.
  intros Hok (B1 & B2 & B3 & B4 & B5).
  assert (Hnode : forall x, x ∈ base :: l.*1 -> payload b x = false).
  { intros x Hx. apply not_true_iff_false. unfold payload. rewrite andb_true_iff, !Z.ltb_lt. intros Hp.
    apply elem_of_cons in Hx as [->|Hx]; [lia|]. apply (B5 x); [lia|]. by apply (node_free _ _ _ _ Hok). }
  destruct (ho_base _ _ _ Hok) as [Hb0 Hb]. constructor; cbn [fill h_ptr h_size h_freep h_brk].
  - eapply trail_from; [apply (ho_ring _ _ _ Hok)| |].
    + cbv beta. rewrite Hnode by (by left). by apply first_link, (ho_ring _ _ _ Hok).
    + intros x Hx. cbv beta. by rewrite Hnode by (by right).
  - split; [done|]. by rewrite Hnode by (by left).
  - intros a n Ha. rewrite Hnode; [by apply (ho_size _ _ _ Hok)|]. right. apply list_elem_of_fmap. by exists (a, n).
  - apply (ho_apart _ _ _ Hok).
  - apply (ho_freep _ _ _ Hok).
  - apply (ho_brk _ _ _ Hok).
Qed.

(** Blocks other than the one written keep their cells; the header of the one written stays. *)
Lemma fill_separate b c f g h : separate b c -> kept h (fill b f g h) c.
Proof.
  intros Hs x Hx. unfold fill, payload. cbn [h_ptr h_size]. unfold separate in Hs.
  assert (E : (b.1 - 8 <? x) && (x <? b.1 - 8 + 8 * units b.2) = false) by (apply andb_false_iff; rewrite !Z.ltb_ge; lia).
  by rewrite E.
Qed.

Lemma write_step n i f g s l : program_ok n s l -> step_ok n (Rwrite i f g) s.
Proof.
  intros Hpo. pose proof Hpo as [Ha Hlen Hlive Hsep Hini]. unfold step_ok. cbn [do_request writes].
  destruct (pg_live s !! i) as [b|] eqn:Hi.
  2: { exists s, l. split_and!; [done| |by intros b _ _ _ x]. destruct Hpo. constructor; try done. lia. }
  destruct (delete_split _ _ _ Hi) as (l1 & l2 & El & _). rewrite El in *.
  assert (Hok : heap_ok base (pg_heap s) l) by (apply Hini; by destruct l1).
  pose proof Hsep as [_ Hb]%all_separate_middle. pose proof (proj1 (Forall_app _ _ _) Hlive) as [Hl1 [Hib Hl2]%Forall_cons].
  assert (Hother : forall c, c ∈ l1 ++ l2 -> kept (pg_heap s) (fill b f g (pg_heap s)) c).
  { intros c Hc. by apply fill_separate, (proj1 (Forall_forall _ _) Hb). }
  assert (Hhead : h_size (fill b f g (pg_heap s)) (b.1 - 8) = h_size (pg_heap s) (b.1 - 8)).
  { unfold fill, payload. cbn [h_size]. by rewrite Z.ltb_irrefl. }
  exists (mkProgram (fill b f g (pg_heap s)) (l1 ++ b :: l2)), l. split_and!; [done| |].
  - pose proof (fill_ok _ _ _ f g Hok Hib) as Hok'. constructor; cbn [pg_heap pg_live]; [by left|lia| |done|done].
    apply Forall_forall. intros c Hc. pose proof (proj1 (Forall_forall _ _) Hlive c Hc) as Huc.
    eapply in_use_frame; [exact Huc|done| |done]. destruct (decide (c = b)) as [->|Hne]; [done|].
    pose proof (in_use_units _ _ _ Huc). apply (Hother c); [set_solver|lia].
  - intros c Hc _ Hnw. apply Hother. assert (c <> b) by (intros ->; by apply Hnw). set_solver.
Qed.

Lemma exec_ok n q s l : program_ok n s l -> sane q -> (2 * n + 3 < fuel)%nat -> step_ok n q s.
Proof.
  intros Hpo Hq Hf. destruct q; [by eapply malloc_step|eapply free_step; [exact Hpo|lia]|by eapply write_step].
Qed.

Lemma run_ok qs n s l :
  program_ok n s l -> Forall sane qs -> (2 * (n + length qs) + 3 < fuel)%nat ->
  exists s' l', run_requests qs s = Some s' /\ program_ok (n + length qs) s' l'.
Proof.
  revert n s l. induction qs as [|q qs IH]; intros n s l Hpo Hs Hf; simpl in *.
  - exists s, l. by rewrite Nat.add_0_r.
  - apply Forall_cons in Hs as [Hq Hs]. destruct (exec_ok n q s l Hpo Hq ltac:(lia)) as (s1 & l1 & -> & Hpo1 & _).
    destruct (IH (S n) s1 l1 Hpo1 Hs ltac:(lia)) as (s' & l' & Hr & Hpo'). exists s', l'. split; [done|].
    by rewrite Nat.add_succ_r.
Qed.

Lemma started_ok s : started s -> program_ok 0 s [].
Proof. intros (Hl & Hf & Hb0 & Hb). constructor; rewrite ?Hl; [right; split_and!; try done; lia|done|done|done|done]. Qed.

End client.

(** C22: A program that starts with an empty heap and then calls malloc (with sizes up to 2^31-16), frees
    blocks it holds and writes into them, in any order, always gets its calls answered; and at every
    moment the blocks it holds lie between the static data and the end of its memory, are as large as it
    asked, and no two of them overlap, headers included. *)
Theorem allocator_safe base mem_ok fuel qs s :
  started base s -> Forall sane qs -> (2 * length qs + 3 < fuel)%nat ->
  exists s', run_requests base mem_ok fuel qs s = Some s' /\ all_separate (pg_live s') /\
    h_brk (pg_heap s') < KERNBASE /\
    Forall (fun b => base + 16 <= b.1 /\ b.1 + b.2 <= h_brk (pg_heap s')) (pg_live s').
Proof.
  intros Hs Hq Hf. destruct (run_ok base mem_ok fuel qs 0 s [] (started_ok _ _ Hs) Hq Hf) as (s' & l' & Hr & [Ha _ Hl Hsep _]).
  exists s'. split_and!; [done|done|by apply (arena_brk _ _ _ Ha)|]. eapply Forall_impl; [exact Hl|].
  intros b Hu. pose proof (in_use_units _ _ _ _ Hu). destruct Hu as (? & _ & _ & ? & _). lia.
Qed.

(** C26: The contents of a block: after any such sequence of requests, one more request leaves every cell
    of every block the program still holds as it was, the block that the request itself writes apart. *)
Theorem contents_kept base mem_ok fuel qs q s s1 :
  started base s -> Forall sane qs -> sane q -> (2 * S (length qs) + 3 < fuel)%nat ->
  run_requests base mem_ok fuel qs s = Some s1 ->
  exists s2, do_request base mem_ok fuel q s1 = Some s2 /\
    forall b, b ∈ pg_live s1 -> b ∈ pg_live s2 -> ~ writes q s1 b -> kept (pg_heap s1) (pg_heap s2) b.
Proof.
  intros Hs Hq Hq' Hf Hr.
  destruct (run_ok base mem_ok fuel qs 0 s [] (started_ok _ _ Hs) Hq ltac:(lia)) as (s' & l' & Hr' & Hpo).
  rewrite Hr in Hr'. injection Hr' as <-.
  destruct (exec_ok base mem_ok fuel _ q s1 l' Hpo Hq' ltac:(simpl; lia)) as (s2 & l2 & He & _ & Hk). by exists s2.
Qed.

(** A request within seven bytes of 4 GB is not refused: the size wraps round, and the block the
    program gets holds its header and not one byte of data. *)
Lemma malloc_wraps base mem_ok fuel h l nbytes :
  arena base h l -> (forall n h', mem_ok n h' = true) -> h_brk h + 32768 < KERNBASE ->
  4294967289 <= nbytes < 4294967296 -> (2 * length l + 3 < fuel)%nat ->
  exists bp h', malloc base mem_ok fuel nbytes h = Some (bp + 8, h') /\ base + 7 < bp /\ h_size h' bp = 1.
Proof.
  intros Ha Hm Hb Hn Hf.
  assert (E : malloc base mem_ok fuel nbytes h = malloc base mem_ok fuel 0 h).
  { unfold malloc. replace (u32 (nbytes + sizeof_header - 1)) with (nbytes - 4294967289).
    - rewrite Z.div_small by (unfold sizeof_header; lia). done.
    - unfold u32, sizeof_header. rewrite <- (Z_mod_plus_full _ (-1)), Z.mod_small; lia. }
  rewrite E. destruct (malloc_ok base mem_ok fuel h l 0 Ha ltac:(lia) Hf)
    as [(h' & _ & _ & Hb' & Hg & _)|(bp & h' & l' & -> & _ & Hbp & _ & _ & [_ Hs _ _ _])]; [|by exists bp, h'].
  unfold grows in Hg. rewrite Hm, andb_true_r in Hg. apply Z.ltb_ge in Hg. rewrite Hb' in Hg.
  change (core_bytes (units 0)) with 32768 in Hg. lia.
Qed.

(** A program with [base] at 0x2f00 and memory up to 0x5000, and a kernel that has frames. *)
Definition small_program : program := mkProgram (mkHeap (fun _ => 0) (fun _ => 0) 0 0x5000) [].
Definition small_run : list request :=
  [Rmalloc 100; Rmalloc 40000; Rmalloc 24; Rfree 1; Rwrite 0 (fun x => x) (fun _ => 7); Rmalloc 50; Rfree 2].

Lemma small_started : started 0x2f00 small_program.
Proof. by split_and!. Qed.

Lemma small_sane : Forall sane small_run.
Proof. unfold small_run. rewrite !Forall_cons. cbn [sane]. split_and!; try lia; done. Qed.

Lemma allocator_safe_witness :
  exists s', run_requests 0x2f00 (fun _ _ => true) 20 small_run small_program = Some s' /\
    length (pg_live s') = 2%nat /\ all_separate (pg_live s').
Proof.
  destruct (allocator_safe 0x2f00 (fun _ _ => true) 20 small_run small_program small_started small_sane ltac:(simpl; lia))
    as (s' & Hr & Hsep & _).
  exists s'. split; [exact Hr|]. split; [|exact Hsep].
  assert (E : (fun s => length (pg_live s)) <$> run_requests 0x2f00 (fun _ _ => true) 20 small_run small_program = Some 2%nat)
    by (vm_compute; reflexivity).
  rewrite Hr in E. by injection E.
Defined.

Lemma contents_kept_witness :
  exists s1 s2, run_requests 0x2f00 (fun _ _ => true) 22 small_run small_program = Some s1 /\
    do_request 0x2f00 (fun _ _ => true) 22 (Rfree 0) s1 = Some s2 /\
    forall b, b ∈ pg_live s1 -> b ∈ pg_live s2 -> kept (pg_heap s1) (pg_heap s2) b.
Proof.
  assert (E : exists s1, run_requests 0x2f00 (fun _ _ => true) 22 small_run small_program = Some s1).
  { destruct (run_ok 0x2f00 (fun _ _ => true) 22 small_run 0 small_program [] (started_ok _ _ small_started) small_sane
      ltac:(simpl; lia)) as (s1 & _ & E & _). by exists s1. }
  destruct E as [s1 E].
  destruct (contents_kept 0x2f00 (fun _ _ => true) 22 small_run (Rfree 0) small_program s1 small_started small_sane
    I ltac:(simpl; lia) E) as (s2 & He & Hk).
  exists s1, s2. split; [exact E|]. split; [exact He|]. intros b H1 H2. apply Hk; [exact H1|exact H2|intros []].
Defined.

Lemma malloc_wraps_witness :
  exists bp h', malloc 0x2f00 (fun _ _ => true) 20 0xffffffff (pg_heap small_program) = Some (bp + 8, h') /\
    0x2f00 + 7 < bp /\ h_size h' bp = 1.
Proof.
  apply (malloc_wraps 0x2f00 (fun _ _ => true) 20 (pg_heap small_program) []); [|done|done|lia|simpl; lia].
  right. by split_and!.
Defined.
